(* ===== verification/_CoqProject ===== *)
-Q . S2P
Prelude.v
Bytes.v
Wpabuf.v
Defs.v
Suites.v
RsnIe.v
RsnProofs.v
RsnInsert.v
Kde.v
KdeProofs.v
PmksaCache.v
PmksaProofs.v
WpaKey.v
WpaKeyProofs.v
WpaSm.v
WpaHandshake.v
WpaOps.v
WpaLogic.v
WpaSafe.v
WpaRxSafe.v
WpaAnswer.v
WpaSteps.v
WpaReplay.v
WpaNonce.v
WpaExample.v
WpaFacts.v
AuthSm.v
AuthSend.v
AuthStep.v
AuthOps.v
AuthExample.v
AuthLogic.v
AuthQuiet.v
AuthKeys.v
AuthFacts.v
EapCommon.v
EapPeer.v
EapPeerProofs.v
EapPeerStep.v
EapolSupp.v
EapolProofs.v
EapServer.v
EapMethods.v
EapPeerMd5.v
EapServerProofs.v
EapServerStep.v
EapMethodsProofs.v
EapolAuth.v
Ieee8021x.v
Ieee8021xExample.v
EapolAuthProofs.v
Ieee8021xProofs.v
