(* ===== verification/Prelude.v ===== *)
(** * Verification of the authentication core of wpa_supplicant

    The program is a port of wpa_supplicant and hostapd to an RTOS.  This library models
    the parts of the supplicant and of the access point that decide whether a station is
    authenticated and which keys it uses, and proves what makes them correct.  Names are
    those of the C code where possible.

    ** The program and the files

    A frame of EAPOL goes to [eapol_sm_rx_eapol] (src/eapol_supp/eapol_supp_sm.c), which
    gives EAP packets to the EAP peer machine (src/eap_peer/eap.c), and to
    [wpa_sm_rx_eapol] (src/rsn_supp/wpa.c), which runs the 4-way and the group handshake.
    The handshake takes its PMK from the EAP machine, from the configuration or from the
    PMKSA cache (src/rsn_supp/pmksa_cache.c), builds and checks RSN elements
    (src/rsn_supp/wpa_ie.c, src/common/wpa_common.c), parses key data and derives keys
    (src/common/wpa_common.c), and calls the driver glue through struct wpa_sm_ctx.
    The other end of the handshake is the authenticator of the access point
    (src/ap/wpa_auth.c), with a pair of state machines for each station and one for the
    group keys.  Before it, EAPOL frames of a station reach [ieee802_1x_receive]
    (src/ap/ieee802_1x.c), which runs the EAPOL machines of the authenticator
    (src/eapol_auth/eapol_auth_sm.c), which run the EAP server (src/eap_server); users
    come from src/ap/eap_user_db.c, and a configured PMKSA from the RSN authenticator.

    - [Prelude]: records, machine integers, memory, the results of C code.
    - [Bytes] (src/utils/common.h): byte order accessors.  [Wpabuf] (src/utils/wpabuf.c).
    - [Defs] (src/common/defs.h), [Suites] (src/common/wpa_common.c): suites and ciphers.
    - [RsnIe], [RsnProofs], [RsnInsert]: RSN and WPA elements, parsers and builders.
    - [Kde], [KdeProofs]: the key data parser [wpa_parse_kde_ies].
    - [PmksaCache], [PmksaProofs]: the PMKSA cache with its expiry timer.
    - [WpaKey], [WpaKeyProofs]: PTK and FT key derivation, MIC, counters.
    - [WpaSm]: struct wpa_sm, its calls, the frames it sends, the PMK, the PTK.
      [WpaHandshake]: installation of keys, messages 1/4, 3/4, 1/2, reception.
      [WpaOps]: association events, configuration, own elements, WNM sleep keys, and
      [sm_run], sequences of operations.
    - [WpaLogic]: total correctness, triples and step relations of the monad of [WpaSm].
      [WpaSafe], [WpaRxSafe]: the invariant and the safety of reception.  [WpaSteps],
      [WpaReplay], [WpaNonce]: what every step respects, replay protection, the need for
      a MIC, one nonce for each installed key.  [WpaAnswer]: message 2/4.  [WpaExample],
      [WpaFacts]: a concrete association, the check of message 3/4, runs that show faults.
    - [AuthSm] (src/ap/wpa_auth_i.h): the stations, the group and the calls of the
      authenticator.  [AuthSend]: the frames it sends, PTK and group keys.  [AuthStep]: the
      machines WPA_PTK, WPA_PTK_GROUP and of the group, [wpa_sm_step].  [AuthOps]:
      reception, timeouts, events, and [auth_run], sequences of operations.
    - [AuthExample]: a supplicant and an authenticator that exchange their frames.
      [AuthLogic]: triples, inversion of runs, step relations of the monad of [AuthSm].
      [AuthQuiet]: the calls that leave the state machines alone.  [AuthKeys]: the
      invariant of the keys.  [AuthFacts]: what holds of every run.
    - [EapCommon] (src/eap_common/eap_common.c): EAP headers.  [EapPeer],
      [EapPeerProofs], [EapPeerStep]: the EAP peer machine.
    - [EapolSupp], [EapolProofs]: the EAPOL machines, which implement the interface that
      the EAP machine needs from the layer below.
    - [EapServer] (src/eap_server/eap_server.c): the EAP server machine, with EAP methods
      as tables of functions and the layer below as a class.  [EapMethods]: the methods
      Identity and MD5-Challenge as such tables.  [EapPeerMd5]: the peer's MD5-Challenge.
      [EapServerProofs], [EapServerStep]: its invariant, each state entry, the step loop.
      [EapMethodsProofs]: both methods keep the contract of a method.
    - [EapolAuth] (src/eapol_auth/eapol_auth_sm.c): the machines AUTH_PAE, BE_AUTH,
      REAUTH_TIMER and CTRL_DIR of one station, which own an EAP server machine.
      [EapolAuthProofs]: their invariant, proved against the interface [server_steps].
      [Ieee8021x] (src/ap/ieee802_1x.c, eap_user_db.c): reception, new stations, users.
      [Ieee8021xProofs]: [station_run], sequences of operations, and what holds of every
      one.  [Ieee8021xExample]: an access point and a station that exchange EAP frames.

    ** How the code is modelled

    A structure is a record; a pointer into a buffer is an offset; a buffer is the list
    of its octets, and an access outside it is [None] ([rd], [slice], [wr], [blit]).  A C
    function gives [Ret], [Abort] (the program stops itself) or [Undef] (undefined
    behaviour), so that a theorem with [Ret] in its conclusion excludes accesses outside
    a buffer, uses of freed entries and endless loops.  Integers are [Z]; [u8], [u16] and
    [u32] are the wrap-around where the C type has it.  Entries of the PMKSA cache have
    an address, and following the address of a freed one is [Undef].

    The RSN machine is a state monad over a [world]: struct wpa_sm with the part the
    cache uses ([pmksa_sm]), and the trace of the calls that leave the module, newest
    first.  What those calls return is [wpa_env], functions of the trace, so that the
    environment may answer each time differently and adversarially; allocation failures,
    failing random numbers and failing key installation are answers of it.  The hash,
    MAC, PRF and cipher functions, of the crypto library, are [wpa_crypto], with their
    documented lengths and failures in [wpa_crypto_laws].  The EAP and EAPOL machines are
    explicit state passing, with their callbacks in the class [EapolCallbacks] and its
    laws in [EapolCallbacksSpec]; EAP methods are parameters.

    The EAP server is written in the same way, with a class of the same name for the
    callbacks of its layer below.  Its methods are parameters that keep a contract,
    [EapServerProofs.method_ok], which Identity and MD5-Challenge are proved to keep.  The
    EAPOL authenticator calls out to the RSN authenticator and to the management of
    stations, and these may call back with an event: what they do is the parameter
    [reaction], a function of the trace, and whether the station still exists is [alive].

    The authenticator is a monad in the same way, over an [aworld]: struct
    wpa_authenticator with its group and its stations, and the trace; [auth_env] answers
    its calls and [auth_crypto] adds AES key wrap.  A pointer to a station is its number,
    and following that of a freed station is [Undef].  Setting group keys steps the other
    stations and a disconnection calls back into the authenticator: [wpa_sm_step] closes
    this recursion.  Registered timeouts are members of the state, and an operation of
    [auth_run] lets one of them fire.  Elements that src/ap/wpa_auth_ie.c makes or
    validates are arguments, an entry of the authenticator's PMKSA cache is its PMK and
    PMKID, and what FT stores for other access points is an event.

    ** What is proved

    - Key installation: in every run each pairwise key given to the driver was derived
      with an SNonce of its own ([WpaNonce.installs_use_own_nonce]); in RSN keys are installed
      only by frames with a valid MIC ([WpaReplay.keys_need_mic]); replayed frames have
      no effect ([WpaReplay.replay_protected]); differing elements in message 3/4 are
      refused, and only they ([WpaFacts.validate_ie_exact]); both ends derive the same
      PTK ([WpaKeyProofs.ptk_same_at_both_ends]); message 1/4 is answered by the exact
      message 2/4 ([WpaAnswer.message_1_answered]).
    - The authenticator: in every run it installs a pairwise key, and authorizes a port,
      only after a frame of that station with a valid MIC, as long as no fast BSS transition
      is completed ([AuthFacts.auth_keys_need_mic]); [AuthExample] runs the 4-way handshake
      and a group rekeying of the two ends against each other.
    - The access point without a RADIUS server: for every order of frames, timers,
      associations and calls, every operation returns and the machines stay well formed,
      if EAP-Initiate/Re-auth-Start is not configured and the Identity method can be started
      ([Ieee8021xProofs.station_runs_stay_well_formed]), and a station is authenticated
      only if an EAP method other than Identity accepted it
      ([Ieee8021xProofs.authenticated_stations_passed_a_method]); [Ieee8021xExample] runs
      the two ends against each other with MD5-Challenge.
    - The EAP server: its step loop returns for any packets, under the same two conditions
      ([EapServerStep.eap_server_sm_step_returns]); a Nak keeps exactly the named methods
      ([EapServerProofs.eap_sm_process_nak_keeps_named]); MD5-Challenge accepts exactly the
      digest of the password, and server and peer understand each other
      ([EapMethodsProofs.md5_accepts_exactly], [EapMethodsProofs.md5_exchange]).
    - Memory safety and termination: reception of EAPOL-Key frames keeps [sm_ok]
      ([WpaRxSafe.rx_eapol_safe]); the parsers of elements, key data, EAP headers and ERP
      TLVs stay inside their input; the cache never follows a freed pointer; the EAP step
      loop and the EAPOL step loop stop.
    - Authentication: success of the EAP machine needs the method's agreement; the port
      opens only with keys; logging off closes it; duplicate requests are answered with
      the stored response; a Nak lists exactly the allowed methods.
    - Functional correctness: the RSN parser accepts exactly a reference grammar; the
      built elements parse back; inserting a PMKID changes nothing else; expiry, flush,
      lookup and choice of PMKSA entries; buffers, counters, byte order.
    - Runs that show faults of the code: theorems and examples of [PmksaProofs],
      [RsnProofs], [KdeProofs], [WpaFacts] and [Ieee8021xExample].

    ** Fuel and bounds

    [eap_peer_sm_step] has fuel 16: a rank of at most 10 goes down with each pass.
    [eapol_sm_step] has the 100 passes of the C code.  The loops over octets (key data,
    ERP TLVs, FT elements, the search for the RSN element) have the number of octets as
    fuel, and each pass uses one or more.  [eap_server_sm_step] has fuel 16: a rank of at
    most 15 goes down with each pass.  The search of PROPOSE_METHOD for a method has [tries]
    passes, of which ten are enough for the eight methods of a user.  The EAPOL machines
    of the authenticator have the 100 passes of the C code and its eloop timeout after
    them.  A Nak removes methods in at most nine passes.  [size_t] has 32 bits.  The loops of the
    authenticator have a fuel that its theorems leave open: they hold of every run that
    returns, whatever the fuel; the runs of [AuthExample] have fuel 40.

    ** Configuration

    On: SHA256, SHA384, SHA512, SAE, IEEE80211R, SUITEB, SUITEB192, DPP and DPP2, TKIP
    and RC4.  Off, and their code left out: FILS, OWE, HS20, PASN, OCV, P2P, FIPS,
    MACsec, mesh, ERP, TESTING_OPTIONS, WPA_TRACE.  WPA_ASSERT is empty, os_time_t is
    uint64_t.  The access point has CONFIG_NO_VLAN, so one group, CONFIG_WNM_AP and
    CONFIG_NO_RANDOM_POOL, and CONFIG_NO_RADIUS.  MD5-Challenge is in the source and modelled,
    but this port's src/utils/includes.h leaves EAP_MD5 and EAP_SERVER_MD5 off.  Callbacks of the supplicant do not reenter the machine that
    calls them; those of the authenticator do, and are modelled.

    ** Not modelled

    Logging.  The configuration parser, control interfaces, driver glue and event loop
    of wpa_supplicant, which only move data between the kernel, the user and the machines
    above.  Drivers, sockets and the TLS and crypto libraries, which are not in the source
    or are I/O.  The EAP methods other than Identity and MD5-Challenge, which mostly need
    the TLS or the crypto library; RADIUS, so that the backend server is what the functions
    of the EAP server's interface say; WEP keys, VLANs and dynamic reconfiguration of IEEE
    802.1X for access points.  The management of stations of src/ap, WPS, P2P, DPP, TDLS,
    FST and MACsec, and of rsn_supp and wpa_auth_ft.c the frames of the FT protocol and
    preauthentication, which are other protocols.  MIB and status text. *)
From Stdlib Require Export ZArith Lia Bool.
From stdpp Require Export base option list list_numbers numbers gmap.

#[global] Open Scope Z_scope.

(** ** Record update

    C code assigns one field of a structure at a time.  [s <| f := v |>] is the
    structure [s] with field [f] replaced, and [s <| f ::= g |>] applies [g] to
    the field.  The updater of a projection is found by instance search from the
    eta-expanded constructor of the record, which each record of the development
    declares as an instance of [Eta]. *)
Class Eta (R : Type) := eta : R → R.
Class Updater {R F : Type} (p : R → F) := update : (F → F) → R → R.
Global Arguments update {R F} p {Updater} _ _ /.

Ltac build_updater :=
  match goal with
  | |- @Updater ?R ?F ?p =>
      let i := constr:(_ : Eta R) in
      let e := eval hnf in i in
      let e := eval pattern p in e in
      lazymatch e with
      | ?body _ => exact (fun u r => body (fun r' => u (p r')) r)
      end
  end.
#[export] Hint Extern 1 (Updater _) => build_updater : typeclass_instances.

(** [drop_updates V] removes the assignments under a view [V] of a record that only
    change fields which [V] does not look at. *)
Ltac drop_updates V :=
  repeat match goal with
    | |- context [V (@update ?R ?F ?p ?u ?g ?x)] =>
        let H := fresh in
        assert (H : ∀ y, V (@update R F p u g y) = V y) by (intros ?; reflexivity);
        rewrite (H x); clear H
    end.

Declare Scope record_scope.
Delimit Scope record_scope with rec.
Notation "s <| f := v |>" := (update f (λ _, v) s)
  (at level 1, f at level 1, left associativity) : record_scope.
Notation "s <| f ::= g |>" := (update f g s)
  (at level 1, f at level 1, left associativity) : record_scope.
#[global] Open Scope record_scope.

(** ** Machine integers and buffers

    A C integer is a [Z]; the operations that wrap say so with [wrap].  A buffer
    is the list of its octets.  Reading or writing outside a buffer is undefined
    behaviour, which the model makes visible: the accessors return [None]. *)
Definition wrap (w z : Z) : Z := z mod 2 ^ w.
Abbreviation u8 := (wrap 8).
Abbreviation u16 := (wrap 16).
Abbreviation u32 := (wrap 32).
Abbreviation u64 := (wrap 64).

Definition is_byte (z : Z) : Prop := 0 ≤ z < 256.
Abbreviation bytes_ok := (Forall is_byte).

Abbreviation blen b := (Z.of_nat (length b)).

#[export] Instance is_byte_dec z : Decision (is_byte z).
Proof. unfold is_byte. apply _. Defined.

(** [b[i]] as an rvalue. *)
Definition rd {A} (b : list A) (i : Z) : option A :=
  if bool_decide (0 ≤ i) then b !! Z.to_nat i else None.

(** [b[i] = v]. *)
Definition wr {A} (b : list A) (i : Z) (v : A) : option (list A) :=
  if bool_decide (0 ≤ i < blen b) then Some (<[Z.to_nat i := v]> b) else None.

(** The [n] octets from [b + off], as [os_memcpy] reads them. *)
Definition slice {A} (b : list A) (off n : Z) : option (list A) :=
  if bool_decide (0 ≤ off ∧ 0 ≤ n ∧ off + n ≤ blen b)
  then Some (take (Z.to_nat n) (drop (Z.to_nat off) b)) else None.

(** [os_memcpy(b + off, src, length src)]. *)
Definition blit {A} (b : list A) (off : Z) (src : list A) : option (list A) :=
  if bool_decide (0 ≤ off ∧ off + blen src ≤ blen b)
  then Some (take (Z.to_nat off) b ++ src ++
             drop (Z.to_nat off + length src) b) else None.

Section buffers.
Context {A : Type}.
Implicit Types (b src : list A) (i off n : Z).

Lemma rd_Some b i v : rd b i = Some v ↔ 0 ≤ i ∧ b !! Z.to_nat i = Some v.
Proof. unfold rd. case_bool_decide; naive_solver. Qed.

Lemma rd_lt b i v : rd b i = Some v → 0 ≤ i < blen b.
Proof. intros [? ?%lookup_lt_Some]%rd_Some. lia. Qed.

Lemma rd_in b i : 0 ≤ i < blen b → ∃ v, rd b i = Some v.
Proof.
  intros H. destruct (lookup_lt_is_Some_2 b (Z.to_nat i)) as [v Hv]; [lia|].
  exists v. apply rd_Some. split; [lia|done].
Qed.

Lemma rd_is_Some b i : 0 ≤ i < blen b ↔ is_Some (rd b i).
Proof.
  split; [intros H; destruct (rd_in b i H); eauto | intros [v Hv]; eauto using rd_lt].
Qed.

Lemma rd_app_l b b' i : i < blen b → rd (b ++ b') i = rd b i.
Proof.
  intros. unfold rd. case_bool_decide; [|done].
  rewrite lookup_app_l; [done|lia].
Qed.

Lemma rd_app_r b b' i : blen b ≤ i → rd (b ++ b') i = rd b' (i - blen b).
Proof.
  intros. unfold rd. rewrite !bool_decide_eq_true_2 by lia.
  rewrite lookup_app_r by lia. f_equal. lia.
Qed.

Lemma rd_app_at b b' : rd (b ++ b') (blen b) = rd b' 0.
Proof. rewrite rd_app_r by lia. f_equal. lia. Qed.

Lemma rd_app_plus b b' k : 0 ≤ k → rd (b ++ b') (blen b + k) = rd b' k.
Proof. intros. rewrite rd_app_r by lia. f_equal. lia. Qed.

Lemma rd_cons_0 x b : rd (x :: b) 0 = Some x.
Proof. done. Qed.

Lemma rd_cons_S x b i : 0 < i → rd (x :: b) i = rd b (i - 1).
Proof.
  intros. unfold rd. rewrite !bool_decide_eq_true_2 by lia.
  replace (Z.to_nat i) with (S (Z.to_nat (i - 1))) by lia. done.
Qed.

Lemma rd_Forall (P : A → Prop) b i v : Forall P b → rd b i = Some v → P v.
Proof. intros HP [_ Hv]%rd_Some. by eapply Forall_lookup_1. Qed.

Lemma slice_in b off n :
  0 ≤ off → 0 ≤ n → off + n ≤ blen b →
  slice b off n = Some (take (Z.to_nat n) (drop (Z.to_nat off) b)).
Proof. intros. unfold slice. by rewrite bool_decide_eq_true_2. Qed.

Lemma slice_Some b off n s :
  slice b off n = Some s →
  0 ≤ off ∧ 0 ≤ n ∧ off + n ≤ blen b ∧
  s = take (Z.to_nat n) (drop (Z.to_nat off) b).
Proof. unfold slice. case_bool_decide; naive_solver. Qed.

Lemma slice_is_Some b off n :
  0 ≤ off → 0 ≤ n → off + n ≤ blen b → is_Some (slice b off n).
Proof. intros. rewrite slice_in; eauto. Qed.

Lemma slice_length b off n s : slice b off n = Some s → blen s = n.
Proof.
  intros (?&?&?&->)%slice_Some. rewrite length_take, length_drop. lia.
Qed.

Lemma slice_Forall (P : A → Prop) b off n s :
  Forall P b → slice b off n = Some s → Forall P s.
Proof. intros H (_&_&_&->)%slice_Some. by apply Forall_take, Forall_drop. Qed.

Lemma slice_app_mid b1 b2 b3 off n :
  off = blen b1 → n = blen b2 → slice (b1 ++ b2 ++ b3) off n = Some b2.
Proof.
  intros -> ->. rewrite slice_in by (rewrite ?length_app; lia).
  rewrite !Nat2Z.id, drop_app_length, take_app_length. done.
Qed.

Lemma slice_app_end b1 b2 off n :
  off = blen b1 → n = blen b2 → slice (b1 ++ b2) off n = Some b2.
Proof.
  intros. rewrite <- (app_nil_r b2) at 1. by apply slice_app_mid.
Qed.

Lemma slice_all b n : n = blen b → slice b 0 n = Some b.
Proof.
  intros ->. rewrite slice_in by lia. rewrite Nat2Z.id, drop_0, firstn_all. done.
Qed.

Lemma wr_Some b i v b' :
  wr b i v = Some b' → 0 ≤ i < blen b ∧ b' = <[Z.to_nat i := v]> b.
Proof. unfold wr. case_bool_decide; naive_solver. Qed.

Lemma wr_in b i v : 0 ≤ i < blen b → wr b i v = Some (<[Z.to_nat i := v]> b).
Proof. intros. unfold wr. by rewrite bool_decide_eq_true_2. Qed.

Lemma wr_length b i v b' : wr b i v = Some b' → length b' = length b.
Proof. intros [_ ->]%wr_Some. apply length_insert. Qed.

Lemma wr_mid b1 x b2 i v :
  i = blen b1 → wr (b1 ++ x :: b2) i v = Some (b1 ++ v :: b2).
Proof.
  intros ->. rewrite wr_in by (rewrite length_app; simpl; lia).
  rewrite Nat2Z.id. f_equal. by rewrite insert_app_r_alt, Nat.sub_diag by lia.
Qed.

Lemma wr_Forall (P : A → Prop) b i v b' :
  Forall P b → P v → wr b i v = Some b' → Forall P b'.
Proof. intros Hb Hv [_ ->]%wr_Some. by apply Forall_insert. Qed.

Lemma blit_in b off src :
  0 ≤ off → off + blen src ≤ blen b →
  blit b off src = Some (take (Z.to_nat off) b ++ src ++
                         drop (Z.to_nat off + length src) b).
Proof. intros. unfold blit. by rewrite bool_decide_eq_true_2. Qed.

Lemma blit_Some b off src b' :
  blit b off src = Some b' →
  0 ≤ off ∧ off + blen src ≤ blen b ∧
  b' = take (Z.to_nat off) b ++ src ++ drop (Z.to_nat off + length src) b.
Proof. unfold blit. case_bool_decide; naive_solver. Qed.

Lemma blit_length b off src b' : blit b off src = Some b' → length b' = length b.
Proof.
  intros (?&?&->)%blit_Some.
  rewrite !length_app, length_take, length_drop. lia.
Qed.
End buffers.

(** ** Bit arithmetic on octets *)
Lemma wrap_range w z : 0 ≤ w → 0 ≤ wrap w z < 2 ^ w.
Proof. intros. apply Z.mod_pos_bound. lia. Qed.

Lemma wrap_small w z : 0 ≤ z < 2 ^ w → wrap w z = z.
Proof. apply Z.mod_small. Qed.

Lemma u8_byte z : is_byte (u8 z).
Proof. apply (wrap_range 8). lia. Qed.

Lemma land_255 z : Z.land z 255 = z mod 256.
Proof. apply (Z.land_ones z 8). lia. Qed.

Lemma land_ones_wrap w z : 0 ≤ w → Z.land z (Z.ones w) = wrap w z.
Proof. intros. by apply Z.land_ones. Qed.

Lemma testbit_small lo n k : 0 ≤ n ≤ k → 0 ≤ lo < 2 ^ n → Z.testbit lo k = false.
Proof.
  intros Hn Hlo. rewrite <- (Z.mod_small lo (2 ^ n)) by done.
  by apply Z.mod_pow2_bits_high.
Qed.

Lemma land_shiftl_small hi lo n :
  0 ≤ n → 0 ≤ lo < 2 ^ n → Z.land (Z.shiftl hi n) lo = 0.
Proof.
  intros Hn Hlo. apply Z.bits_inj'. intros k Hk.
  rewrite Z.land_spec, Z.bits_0, Z.shiftl_spec by done.
  destruct (decide (k < n)).
  - by rewrite Z.testbit_neg_r by lia.
  - by rewrite (testbit_small lo n k), andb_false_r by lia.
Qed.

(** Disjoint bit fields: [(hi << n) | lo] is a sum. *)
Lemma shiftl_lor_add hi lo n :
  0 ≤ n → 0 ≤ lo < 2 ^ n → Z.lor (Z.shiftl hi n) lo = hi * 2 ^ n + lo.
Proof.
  intros Hn Hlo. rewrite <- Z.shiftl_mul_pow2 by done.
  pose proof (land_shiftl_small hi lo n Hn Hlo) as H0.
  by rewrite <- Z.lxor_lor, Z.add_nocarry_lxor.
Qed.

(** What a shift does to the range of a value. *)
Lemma shiftr_range z n m : 0 ≤ n → 0 ≤ m → 0 ≤ z < 2 ^ (n + m) → 0 ≤ Z.shiftr z n < 2 ^ m.
Proof.
  intros Hn Hm Hz. rewrite Z.shiftr_div_pow2 by done. split.
  - apply Z.div_pos; lia.
  - apply Z.div_lt_upper_bound; [lia|]. rewrite <- Z.pow_add_r by lia. lia.
Qed.

Lemma lor_add hi lo n :
  0 ≤ n → hi mod 2 ^ n = 0 → 0 ≤ lo < 2 ^ n → Z.lor hi lo = hi + lo.
Proof.
  intros Hn Hhi Hlo.
  assert (hi = Z.shiftl (hi / 2 ^ n) n) as ->.
  { rewrite Z.shiftl_mul_pow2 by done. rewrite Z.mul_comm.
    apply Z_div_exact_full_2; lia. }
  rewrite shiftl_lor_add, Z.shiftl_mul_pow2 by done. done.
Qed.

(** Rewrite the bit operations of a goal to arithmetic; the remaining goal is
    one for [lia] with division. *)
Ltac bits_to_arith :=
  unfold wrap in *;
  rewrite ?land_255, ?Z.shiftr_div_pow2, ?Z.shiftl_mul_pow2 by lia;
  repeat match goal with
         | |- context [2 ^ ?k] => let v := eval vm_compute in (2 ^ k) in
                                  change (2 ^ k) with v
         end.
Ltac div_lia := Z.div_mod_to_equations; lia.

Create HintDb byte.
#[export] Hint Resolve u8_byte : byte.

(** ** Outcomes of C code that may stop the program

    [Ret] is a normal return, [Abort] a call of [abort()], [Undef] an access
    outside an object. *)
Inductive outcome (A : Type) : Type :=
| Ret (a : A)
| Abort
| Undef.
Arguments Ret {A} a.
Arguments Abort {A}.
Arguments Undef {A}.

#[export] Instance outcome_ret : MRet outcome := @Ret.
#[export] Instance outcome_bind : MBind outcome := λ A B f m,
  match m with Ret a => f a | Abort => Abort | Undef => Undef end.

(** A checked memory access inside code with outcomes. *)
Definition access {A} (o : option A) : outcome A :=
  match o with Some a => Ret a | None => Undef end.

Lemma ret_bind {A B} (a : A) (f : A → outcome B) : (Ret a ≫= f) = f a.
Proof. done. Qed.
Lemma access_bind {A B} (a : A) (f : A → outcome B) : (access (Some a) ≫= f) = f a.
Proof. done. Qed.
