(* ===== verification/Bytes.v ===== *)
(** Byte order (src/utils/common.h)

    The unaligned big- and little-endian accessors [WPA_GET_*] and [WPA_PUT_*],
    reading from and writing to an offset of a buffer.  A read or write that
    leaves the buffer is [None]. *)
From S2P Require Import Prelude.

(** ** Byte swapping *)
Definition wpa_swap_16 (v : Z) : Z :=
  u16 (Z.lor (Z.shiftl (Z.land v 0xff) 8) (Z.shiftr v 8)).

Definition wpa_swap_32 (v : Z) : Z :=
  u32 (Z.lor (Z.lor (Z.lor (Z.shiftl (Z.land v 0xff) 24)
                           (Z.shiftl (Z.land v 0xff00) 8))
                    (Z.shiftr (Z.land v 0xff0000) 8))
             (Z.shiftr v 24)).

(** ** Loads *)
Definition WPA_GET_BE16 (a : list Z) (o : Z) : option Z :=
  a0 ← rd a o; a1 ← rd a (o + 1);
  Some (u16 (Z.lor (Z.shiftl a0 8) a1)).

Definition WPA_GET_LE16 (a : list Z) (o : Z) : option Z :=
  a1 ← rd a (o + 1); a0 ← rd a o;
  Some (u16 (Z.lor (Z.shiftl a1 8) a0)).

Definition WPA_GET_BE24 (a : list Z) (o : Z) : option Z :=
  a0 ← rd a o; a1 ← rd a (o + 1); a2 ← rd a (o + 2);
  Some (u32 (Z.lor (Z.lor (Z.shiftl a0 16) (Z.shiftl a1 8)) a2)).

Definition WPA_GET_BE32 (a : list Z) (o : Z) : option Z :=
  a0 ← rd a o; a1 ← rd a (o + 1); a2 ← rd a (o + 2); a3 ← rd a (o + 3);
  Some (u32 (Z.lor (Z.lor (Z.lor (Z.shiftl a0 24) (Z.shiftl a1 16))
                          (Z.shiftl a2 8)) a3)).

Definition WPA_GET_LE32 (a : list Z) (o : Z) : option Z :=
  a3 ← rd a (o + 3); a2 ← rd a (o + 2); a1 ← rd a (o + 1); a0 ← rd a o;
  Some (u32 (Z.lor (Z.lor (Z.lor (Z.shiftl a3 24) (Z.shiftl a2 16))
                          (Z.shiftl a1 8)) a0)).

Definition WPA_GET_BE64 (a : list Z) (o : Z) : option Z :=
  a0 ← rd a o; a1 ← rd a (o + 1); a2 ← rd a (o + 2); a3 ← rd a (o + 3);
  a4 ← rd a (o + 4); a5 ← rd a (o + 5); a6 ← rd a (o + 6); a7 ← rd a (o + 7);
  Some (u64 (Z.lor (Z.lor (Z.lor (Z.lor (Z.lor (Z.lor (Z.lor
    (Z.shiftl a0 56) (Z.shiftl a1 48)) (Z.shiftl a2 40)) (Z.shiftl a3 32))
    (Z.shiftl a4 24)) (Z.shiftl a5 16)) (Z.shiftl a6 8)) a7)).

Definition WPA_GET_LE64 (a : list Z) (o : Z) : option Z :=
  a7 ← rd a (o + 7); a6 ← rd a (o + 6); a5 ← rd a (o + 5); a4 ← rd a (o + 4);
  a3 ← rd a (o + 3); a2 ← rd a (o + 2); a1 ← rd a (o + 1); a0 ← rd a o;
  Some (u64 (Z.lor (Z.lor (Z.lor (Z.lor (Z.lor (Z.lor (Z.lor
    (Z.shiftl a7 56) (Z.shiftl a6 48)) (Z.shiftl a5 40)) (Z.shiftl a4 32))
    (Z.shiftl a3 24)) (Z.shiftl a2 16)) (Z.shiftl a1 8)) a0)).

(** ** Stores

    The octets that each [WPA_PUT_*] stores, lowest address first; storing them
    is [blit]. *)
Definition be16_bytes (val : Z) : list Z := [u8 (Z.shiftr val 8); Z.land val 0xff].
Definition le16_bytes (val : Z) : list Z := [Z.land val 0xff; u8 (Z.shiftr val 8)].
Definition be24_bytes (val : Z) : list Z :=
  [Z.land (Z.shiftr val 16) 0xff; Z.land (Z.shiftr val 8) 0xff; Z.land val 0xff].
Definition be32_bytes (val : Z) : list Z :=
  [Z.land (Z.shiftr val 24) 0xff; Z.land (Z.shiftr val 16) 0xff;
   Z.land (Z.shiftr val 8) 0xff; Z.land val 0xff].
Definition le32_bytes (val : Z) : list Z :=
  [Z.land val 0xff; Z.land (Z.shiftr val 8) 0xff;
   Z.land (Z.shiftr val 16) 0xff; Z.land (Z.shiftr val 24) 0xff].
Definition be64_bytes (val : Z) : list Z :=
  [u8 (Z.shiftr val 56); u8 (Z.shiftr val 48); u8 (Z.shiftr val 40);
   u8 (Z.shiftr val 32); u8 (Z.shiftr val 24); u8 (Z.shiftr val 16);
   u8 (Z.shiftr val 8); Z.land val 0xff].
Definition le64_bytes (val : Z) : list Z :=
  [Z.land val 0xff; u8 (Z.shiftr val 8); u8 (Z.shiftr val 16);
   u8 (Z.shiftr val 24); u8 (Z.shiftr val 32); u8 (Z.shiftr val 40);
   u8 (Z.shiftr val 48); u8 (Z.shiftr val 56)].

Definition WPA_PUT_BE16 (a : list Z) (o val : Z) := blit a o (be16_bytes val).
Definition WPA_PUT_LE16 (a : list Z) (o val : Z) := blit a o (le16_bytes val).
Definition WPA_PUT_BE24 (a : list Z) (o val : Z) := blit a o (be24_bytes val).
Definition WPA_PUT_BE32 (a : list Z) (o val : Z) := blit a o (be32_bytes val).
Definition WPA_PUT_LE32 (a : list Z) (o val : Z) := blit a o (le32_bytes val).
Definition WPA_PUT_BE64 (a : list Z) (o val : Z) := blit a o (be64_bytes val).
Definition WPA_PUT_LE64 (a : list Z) (o val : Z) := blit a o (le64_bytes val).

(** ** Facts *)
Lemma WPA_GET_BE16_in a o :
  0 ≤ o → o + 2 ≤ blen a → bytes_ok a →
  ∃ v, WPA_GET_BE16 a o = Some v ∧ 0 ≤ v < 65536.
Proof.
  intros. unfold WPA_GET_BE16.
  destruct (rd_in a o) as [a0 ->]; [lia|].
  destruct (rd_in a (o + 1)) as [a1 ->]; [lia|]. simpl.
  eexists; split; [done|]. apply (wrap_range 16). lia.
Qed.

Lemma be16_value a0 a1 :
  is_byte a0 → is_byte a1 → u16 (Z.lor (Z.shiftl a0 8) a1) = a0 * 256 + a1.
Proof.
  unfold is_byte. intros. rewrite shiftl_lor_add by lia.
  apply wrap_small. lia.
Qed.

(** The reader of a big-endian half-word is total on the buffer, and its value
    is positional. *)
Lemma WPA_GET_BE16_Some a o v :
  bytes_ok a → WPA_GET_BE16 a o = Some v →
  0 ≤ o ∧ o + 2 ≤ blen a ∧
  ∃ a0 a1, rd a o = Some a0 ∧ rd a (o + 1) = Some a1 ∧ v = a0 * 256 + a1.
Proof.
  unfold WPA_GET_BE16. intros Hok H.
  destruct (rd a o) as [a0|] eqn:E0; [|done].
  destruct (rd a (o + 1)) as [a1|] eqn:E1; [|done].
  simpl in H. simplify_eq. pose proof (rd_lt _ _ _ E0).
  pose proof (rd_lt _ _ _ E1). split_and!; [lia..|].
  exists a0, a1. split_and!; [done..|].
  apply be16_value; by eapply rd_Forall.
Qed.

Definition roundtrips (get : list Z → Z → option Z) (put : list Z → Z → Z → option (list Z))
    (n : Z) : Prop :=
  ∀ a o v, 0 ≤ o → o + n ≤ blen a → 0 ≤ v < 2 ^ (8 * n) →
    ∃ a', put a o v = Some a' ∧ length a' = length a ∧
      (∀ i, i < o ∨ o + n ≤ i → rd a' i = rd a i) ∧ get a' o = Some v.

Lemma rd_blit_other (a a' src : list Z) o i n :
  blit a o src = Some a' → n = blen src → i < o ∨ o + n ≤ i → rd a' i = rd a i.
Proof.
  intros (?&?&->)%blit_Some -> Hi. destruct Hi.
  - rewrite rd_app_l by (rewrite length_take; lia). unfold rd.
    case_bool_decide; [|done]. by rewrite lookup_take_lt by lia.
  - rewrite rd_app_r, rd_app_r by (rewrite length_take; lia).
    rewrite length_take. unfold rd. rewrite !bool_decide_eq_true_2 by lia.
    rewrite lookup_drop. f_equal. lia.
Qed.

Lemma rd_blit (a a' src : list Z) o i :
  blit a o src = Some a' → 0 ≤ i < blen src → rd a' (o + i) = rd src i.
Proof.
  intros (?&?&->)%blit_Some ?.
  rewrite rd_app_r by (rewrite length_take; lia).
  rewrite rd_app_l by (rewrite length_take; lia).
  f_equal. rewrite length_take. lia.
Qed.

(** Positional values of the loads. *)
Ltac lor_to_add :=
  repeat match goal with
         | |- context [Z.lor ?hi (?lo * ?m)] =>
             rewrite (lor_add hi (lo * m) (Z.log2 (m * 256)));
             [| cbv; discriminate
              | change (2 ^ Z.log2 (m * 256)) with (m * 256); div_lia
              | change (2 ^ Z.log2 (m * 256)) with (m * 256); lia]
         | |- context [Z.lor ?hi ?lo] =>
             rewrite (lor_add hi lo 8);
             [| lia | change (2 ^ 8) with 256; div_lia | change (2 ^ 8) with 256; lia]
         end.

Lemma be24_value a0 a1 a2 :
  is_byte a0 → is_byte a1 → is_byte a2 →
  u32 (Z.lor (Z.lor (Z.shiftl a0 16) (Z.shiftl a1 8)) a2) = a0 * 65536 + a1 * 256 + a2.
Proof. unfold is_byte. intros. bits_to_arith. lor_to_add. div_lia. Qed.

Lemma be32_value a0 a1 a2 a3 :
  is_byte a0 → is_byte a1 → is_byte a2 → is_byte a3 →
  u32 (Z.lor (Z.lor (Z.lor (Z.shiftl a0 24) (Z.shiftl a1 16)) (Z.shiftl a2 8)) a3)
  = a0 * 16777216 + a1 * 65536 + a2 * 256 + a3.
Proof. unfold is_byte. intros. bits_to_arith. lor_to_add. div_lia. Qed.

Lemma be64_value a0 a1 a2 a3 a4 a5 a6 a7 :
  is_byte a0 → is_byte a1 → is_byte a2 → is_byte a3 →
  is_byte a4 → is_byte a5 → is_byte a6 → is_byte a7 →
  u64 (Z.lor (Z.lor (Z.lor (Z.lor (Z.lor (Z.lor (Z.lor
    (Z.shiftl a0 56) (Z.shiftl a1 48)) (Z.shiftl a2 40)) (Z.shiftl a3 32))
    (Z.shiftl a4 24)) (Z.shiftl a5 16)) (Z.shiftl a6 8)) a7)
  = a0 * 2 ^ 56 + a1 * 2 ^ 48 + a2 * 2 ^ 40 + a3 * 2 ^ 32 + a4 * 2 ^ 24 +
    a5 * 2 ^ 16 + a6 * 2 ^ 8 + a7.
Proof. unfold is_byte. intros. bits_to_arith. lor_to_add. div_lia. Qed.

(** ** Storing and loading back *)
Ltac load_stored :=
  let a := fresh "a" in let o := fresh "o" in let v := fresh "v" in
  let a' := fresh "a'" in let E := fresh "E" in
  intros a o v ? ? ?;
  match goal with |- context [?put a o v = Some _] => unfold put end;
  match goal with
  | |- context [blit a o ?s] => destruct (blit a o s) as [a'|] eqn:E
  end;
  [|rewrite blit_in in E by (simpl; lia); done];
  exists a'; split_and!;
  [done|by eapply blit_length|intros; by eapply rd_blit_other|];
  match goal with |- ?get a' o = _ => unfold get end;
  replace (rd a' o) with (rd a' (o + 0)) by (f_equal; lia);
  rewrite !(rd_blit _ _ _ _ _ E) by (simpl; lia); simpl.

Lemma land_255_byte z : is_byte (Z.land z 255).
Proof. rewrite land_255. apply (u8_byte z). Qed.
#[export] Hint Resolve land_255_byte : byte.

Lemma be16_roundtrip : roundtrips WPA_GET_BE16 WPA_PUT_BE16 2.
Proof.
  load_stored. rewrite be16_value by auto with byte. f_equal.
  bits_to_arith. div_lia.
Qed.
Lemma le16_roundtrip : roundtrips WPA_GET_LE16 WPA_PUT_LE16 2.
Proof.
  load_stored. rewrite be16_value by auto with byte. f_equal.
  bits_to_arith. div_lia.
Qed.
Lemma be24_roundtrip : roundtrips WPA_GET_BE24 WPA_PUT_BE24 3.
Proof.
  load_stored. rewrite be24_value by auto with byte. f_equal.
  bits_to_arith. div_lia.
Qed.
Lemma be32_roundtrip : roundtrips WPA_GET_BE32 WPA_PUT_BE32 4.
Proof.
  load_stored. rewrite be32_value by auto with byte. f_equal.
  bits_to_arith. div_lia.
Qed.
Lemma le32_roundtrip : roundtrips WPA_GET_LE32 WPA_PUT_LE32 4.
Proof.
  load_stored. rewrite be32_value by auto with byte. f_equal.
  bits_to_arith. div_lia.
Qed.
Lemma be64_roundtrip : roundtrips WPA_GET_BE64 WPA_PUT_BE64 8.
Proof.
  load_stored. rewrite be64_value by auto with byte. f_equal.
  bits_to_arith. div_lia.
Qed.
Lemma le64_roundtrip : roundtrips WPA_GET_LE64 WPA_PUT_LE64 8.
Proof.
  load_stored. rewrite be64_value by auto with byte. f_equal.
  bits_to_arith. div_lia.
Qed.

(** The two byte orders are related by the swaps that [le_to_host16] and its like
    use on a host of the other order. *)
Lemma le16_swaps_be16 a o :
  bytes_ok a → WPA_GET_LE16 a o = wpa_swap_16 <$> WPA_GET_BE16 a o.
Proof.
  intros Hok. unfold WPA_GET_LE16, WPA_GET_BE16.
  destruct (rd a (o + 1)) as [a1|] eqn:E1; [|by destruct (rd a o)].
  destruct (rd a o) as [a0|] eqn:E0; [|done]. simpl. f_equal.
  assert (is_byte a0 ∧ is_byte a1) as [??] by (split; by eapply rd_Forall).
  rewrite !be16_value by done. unfold wpa_swap_16, is_byte in *. bits_to_arith.
  rewrite (Z.div_add_l a0 256), Z.div_small by lia.
  rewrite (lor_add _ _ 8); [div_lia|lia|div_lia|lia].
Qed.

Lemma land_field v k : 0 ≤ k → Z.land v (255 * 2 ^ k) = (v / 2 ^ k) mod 256 * 2 ^ k.
Proof.
  intros Hk. rewrite <- !Z.shiftl_mul_pow2, <- Z.shiftr_div_pow2, <- land_255 by done.
  apply Z.bits_inj'. intros i Hi. rewrite Z.land_spec, !Z.shiftl_spec by done.
  destruct (decide (i < k)).
  - rewrite !(Z.testbit_neg_r _ (i - k)) by lia. apply andb_false_r.
  - rewrite Z.land_spec, Z.shiftr_spec by lia. by rewrite Z.sub_add.
Qed.

Lemma le32_swaps_be32 a o :
  bytes_ok a → WPA_GET_LE32 a o = wpa_swap_32 <$> WPA_GET_BE32 a o.
Proof.
  intros Hok. unfold WPA_GET_LE32, WPA_GET_BE32.
  destruct (rd a (o + 3)) as [a3|] eqn:E3;
    [|by destruct (rd a o), (rd a (o + 1)), (rd a (o + 2))].
  destruct (rd a (o + 2)) as [a2|] eqn:E2; [|by destruct (rd a o), (rd a (o + 1))].
  destruct (rd a (o + 1)) as [a1|] eqn:E1; [|by destruct (rd a o)].
  destruct (rd a o) as [a0|] eqn:E0; [|done]. simpl. f_equal.
  assert (is_byte a0 ∧ is_byte a1 ∧ is_byte a2 ∧ is_byte a3) as (?&?&?&?)
    by (split_and!; by eapply rd_Forall).
  rewrite !be32_value by done. unfold wpa_swap_32.
  change 0xff00 with (255 * 2 ^ 8). change 0xff0000 with (255 * 2 ^ 16).
  rewrite !land_field by lia. unfold is_byte in *. bits_to_arith.
  set (v := a0 * 16777216 + _ + _ + _).
  assert (v mod 256 = a3 ∧ (v / 256) mod 256 = a2 ∧ (v / 65536) mod 256 = a1 ∧
          v / 16777216 = a0) as (-> & -> & -> & ->) by (subst v; div_lia).
  replace (a1 * 65536 / 256) with (a1 * 256) by div_lia.
  replace (a2 * 256 * 256) with (a2 * 65536) by lia.
  lor_to_add. div_lia.
Qed.

(** what [WPA_PUT_*] stores, [WPA_GET_*] of the same width and order loads, the
    other octets of the buffer are untouched, and the little-endian loads are the
    swapped big-endian loads. *)
Theorem byte_order :
  roundtrips WPA_GET_BE16 WPA_PUT_BE16 2 ∧ roundtrips WPA_GET_LE16 WPA_PUT_LE16 2 ∧
  roundtrips WPA_GET_BE24 WPA_PUT_BE24 3 ∧ roundtrips WPA_GET_BE32 WPA_PUT_BE32 4 ∧
  roundtrips WPA_GET_LE32 WPA_PUT_LE32 4 ∧ roundtrips WPA_GET_BE64 WPA_PUT_BE64 8 ∧
  roundtrips WPA_GET_LE64 WPA_PUT_LE64 8 ∧
  (∀ a o, bytes_ok a →
     WPA_GET_LE16 a o = wpa_swap_16 <$> WPA_GET_BE16 a o ∧
     WPA_GET_LE32 a o = wpa_swap_32 <$> WPA_GET_BE32 a o).
Proof.
  split_and!; [apply be16_roundtrip|apply le16_roundtrip|apply be24_roundtrip
    |apply be32_roundtrip|apply le32_roundtrip|apply be64_roundtrip|apply le64_roundtrip|].
  auto using le16_swaps_be16, le32_swaps_be32.
Qed.

(** ** Loads from literal octets *)
Lemma get_be16_app p s o v :
  0 ≤ v < 65536 → o = blen p → WPA_GET_BE16 (p ++ be16_bytes v ++ s) o = Some v.
Proof.
  intros Hv ->. unfold WPA_GET_BE16.
  rewrite rd_app_at, !rd_app_plus by lia. simpl.
  rewrite be16_value by auto with byte. f_equal. bits_to_arith. div_lia.
Qed.

Lemma get_be24_app p s o v :
  0 ≤ v < 16777216 → o = blen p → WPA_GET_BE24 (p ++ be24_bytes v ++ s) o = Some v.
Proof.
  intros Hv ->. unfold WPA_GET_BE24.
  rewrite rd_app_at, !rd_app_plus by lia. simpl.
  rewrite be24_value by auto with byte. f_equal. bits_to_arith. div_lia.
Qed.

Lemma get_be32_app p s o v :
  0 ≤ v < 4294967296 → o = blen p → WPA_GET_BE32 (p ++ be32_bytes v ++ s) o = Some v.
Proof.
  intros Hv ->. unfold WPA_GET_BE32.
  rewrite rd_app_at, !rd_app_plus by lia. simpl.
  rewrite be32_value by auto with byte. f_equal. bits_to_arith. div_lia.
Qed.

Lemma WPA_GET_BE24_in a o :
  0 ≤ o → o + 3 ≤ blen a → is_Some (WPA_GET_BE24 a o).
Proof.
  intros. unfold WPA_GET_BE24.
  destruct (rd_in a o) as [? ->]; [lia|]. destruct (rd_in a (o + 1)) as [? ->]; [lia|].
  destruct (rd_in a (o + 2)) as [? ->]; [lia|]. simpl. eauto.
Qed.

Lemma WPA_GET_BE32_in a o :
  0 ≤ o → o + 4 ≤ blen a → is_Some (WPA_GET_BE32 a o).
Proof.
  intros. unfold WPA_GET_BE32.
  destruct (rd_in a o) as [? ->]; [lia|]. destruct (rd_in a (o + 1)) as [? ->]; [lia|].
  destruct (rd_in a (o + 2)) as [? ->]; [lia|].
  destruct (rd_in a (o + 3)) as [? ->]; [lia|]. simpl. eauto.
Qed.

Lemma WPA_GET_LE16_in a o : 0 ≤ o → o + 2 ≤ blen a → is_Some (WPA_GET_LE16 a o).
Proof.
  intros. unfold WPA_GET_LE16. destruct (rd_in a (o + 1)) as [? ->]; [lia|].
  destruct (rd_in a o) as [? ->]; [lia|]. simpl. eauto.
Qed.

Lemma get_le16_app p s o v :
  0 ≤ v < 65536 → o = blen p → WPA_GET_LE16 (p ++ le16_bytes v ++ s) o = Some v.
Proof.
  intros Hv ->. unfold WPA_GET_LE16.
  rewrite rd_app_at, !rd_app_plus by lia. simpl.
  rewrite be16_value by auto with byte. f_equal. bits_to_arith. div_lia.
Qed.

(** ** Octets as integers

    Enough octets are the stored octets of an integer in its range. *)
Lemma le16_split (s : list Z) :
  bytes_ok s → 2 ≤ blen s → ∃ v s', 0 ≤ v < 65536 ∧ s = le16_bytes v ++ s'.
Proof.
  destruct s as [|a0 [|a1 s]]; simpl; intros Hok Hlen; try lia.
  apply Forall_cons in Hok as [H0 [H1 _]%Forall_cons].
  exists (a1 * 256 + a0), s. unfold is_byte in *. split; [lia|].
  unfold le16_bytes. bits_to_arith. simpl. repeat f_equal; div_lia.
Qed.

Lemma be32_split (s : list Z) :
  bytes_ok s → 4 ≤ blen s → ∃ v s', 0 ≤ v < 4294967296 ∧ s = be32_bytes v ++ s'.
Proof.
  destruct s as [|a0 [|a1 [|a2 [|a3 s]]]]; simpl; intros Hok Hlen; try lia.
  apply Forall_cons in Hok as [H0 [H1 [H2 [H3 _]%Forall_cons]%Forall_cons]%Forall_cons].
  exists (a0 * 16777216 + a1 * 65536 + a2 * 256 + a3), s. unfold is_byte in *. split; [lia|].
  unfold be32_bytes. bits_to_arith. simpl. repeat f_equal; div_lia.
Qed.

Lemma le16_bytes_ok v : bytes_ok (le16_bytes v).
Proof. unfold le16_bytes. repeat constructor; apply land_255_byte || apply u8_byte. Qed.
Lemma be32_bytes_ok v : bytes_ok (be32_bytes v).
Proof. unfold be32_bytes. repeat constructor; apply land_255_byte. Qed.
#[export] Hint Resolve le16_bytes_ok be32_bytes_ok : byte.
