(* ===== verification/Wpabuf.v ===== *)
(** Dynamic data buffers (src/utils/wpabuf.c, src/utils/wpabuf.h)

    [wpabuf] is the structure of wpabuf.h with the memory its [buf] field points
    to; [size_t] is the 32-bit type of the targets of this port.  An allocation
    takes a boolean that says whether the allocator grants it. *)
From S2P Require Import Prelude Bytes.

Record wpabuf := mk_wpabuf {
  size : Z;          (** total size of the allocated buffer *)
  used : Z;          (** length of data in the buffer *)
  mem : list Z;      (** what [buf] points to *)
  ext_data : bool;   (** [flags & WPABUF_FLAG_EXT_DATA] *)
}.
#[export] Instance eta_wpabuf : Eta wpabuf :=
  λ b, mk_wpabuf (size b) (used b) (mem b) (ext_data b).

Abbreviation size_t := (wrap 32).

(** ** Operations *)
Definition wpabuf_alloc (ok : bool) (len : Z) : option wpabuf :=
  if ok then Some (mk_wpabuf len 0 (replicate (Z.to_nat len) 0) false) else None.

Definition wpabuf_alloc_ext_data (ok : bool) (data : list Z) : option wpabuf :=
  if ok then Some (mk_wpabuf (blen data) (blen data) data true) else None.

Definition wpabuf_tailroom (b : wpabuf) : Z := size_t (size b - used b).

(** The data of a buffer: [wpabuf_len] octets from [wpabuf_head]. *)
Definition contents (b : wpabuf) : list Z := take (Z.to_nat (used b)) (mem b).

(** Returns the offset of the octets that were added. *)
Definition wpabuf_put (b : wpabuf) (len : Z) : outcome (Z * wpabuf) :=
  let tmp := used b in
  let b := b <| used := size_t (used b + len) |> in
  if bool_decide (size b < used b) then Abort else Ret (tmp, b).

(** [os_memcpy(wpabuf_put(buf, len), data, len)]; a null [data] is [None]. *)
Definition wpabuf_put_data (b : wpabuf) (data : option (list Z)) (len : Z) : outcome wpabuf :=
  match data with
  | None => Ret b
  | Some d =>
      '(pos, b) ← wpabuf_put b len;
      src ← access (slice d 0 len);
      m ← access (blit (mem b) pos src);
      Ret (b <| mem := m |>)
  end.

Definition wpabuf_put_bytes (b : wpabuf) (d : list Z) : outcome wpabuf :=
  '(pos, b) ← wpabuf_put b (blen d);
  m ← access (blit (mem b) pos d);
  Ret (b <| mem := m |>).

Definition wpabuf_put_u8 (b : wpabuf) (data : Z) := wpabuf_put_bytes b [data].
Definition wpabuf_put_le16 (b : wpabuf) (data : Z) := wpabuf_put_bytes b (le16_bytes data).
Definition wpabuf_put_le32 (b : wpabuf) (data : Z) := wpabuf_put_bytes b (le32_bytes data).
Definition wpabuf_put_le64 (b : wpabuf) (data : Z) := wpabuf_put_bytes b (le64_bytes data).
Definition wpabuf_put_be16 (b : wpabuf) (data : Z) := wpabuf_put_bytes b (be16_bytes data).
Definition wpabuf_put_be24 (b : wpabuf) (data : Z) := wpabuf_put_bytes b (be24_bytes data).
Definition wpabuf_put_be32 (b : wpabuf) (data : Z) := wpabuf_put_bytes b (be32_bytes data).
Definition wpabuf_put_be64 (b : wpabuf) (data : Z) := wpabuf_put_bytes b (be64_bytes data).

Definition wpabuf_put_buf (dst src : wpabuf) : outcome wpabuf :=
  wpabuf_put_data dst (Some (mem src)) (used src).

Definition wpabuf_alloc_copy (ok : bool) (data : option (list Z)) (len : Z) :
    outcome (option wpabuf) :=
  match wpabuf_alloc ok len with
  | Some b => b ← wpabuf_put_data b data len; Ret (Some b)
  | None => Ret None
  end.

Definition wpabuf_dup (ok : bool) (src : wpabuf) : outcome (option wpabuf) :=
  match wpabuf_alloc ok (used src) with
  | Some b => b ← wpabuf_put_data b (Some (mem src)) (used src); Ret (Some b)
  | None => Ret None
  end.

(** [-1] with the buffer unchanged, or [0] with room for [add_len] more octets. *)
Definition wpabuf_resize (ok : bool) (buf : option wpabuf) (add_len : Z) : Z * option wpabuf :=
  match buf with
  | None =>
      let b := wpabuf_alloc ok add_len in
      (match b with Some _ => 0 | None => -1 end, b)
  | Some b =>
      if bool_decide (size b < size_t (used b + add_len)) then
        if ok then
          (0, Some (b <| mem := take (Z.to_nat (used b)) (mem b) ++
                                replicate (Z.to_nat add_len) 0 |>
                      <| size := size_t (used b + add_len) |>))
        else (-1, Some b)
      else (0, Some b)
  end.

Definition wpabuf_concat (ok : bool) (a b : option wpabuf) : outcome (option wpabuf) :=
  match b with
  | None => Ret a
  | Some b =>
      let len := match a with Some a => used a | None => 0 end in
      let len := size_t (len + used b) in
      match wpabuf_alloc ok len with
      | None => Ret None
      | Some n =>
          n ← match a with Some a => wpabuf_put_buf n a | None => Ret n end;
          n ← wpabuf_put_buf n b;
          Ret (Some n)
      end
  end.

Definition wpabuf_zeropad (ok : bool) (buf : option wpabuf) (len : Z) : outcome (option wpabuf) :=
  match buf with
  | None => Ret None
  | Some b =>
      if bool_decide (len ≤ used b) then Ret (Some b)
      else
        match wpabuf_alloc ok len with
        | None => Ret None
        | Some ret =>
            '(pos, ret) ← wpabuf_put ret (len - used b);
            m ← access (blit (mem ret) pos (replicate (Z.to_nat (len - used b)) 0));
            ret ← wpabuf_put_buf (ret <| mem := m |>) b;
            Ret (Some ret)
        end
  end.

(** ** Well-formed buffers *)
Definition wf (b : wpabuf) : Prop :=
  0 ≤ used b ≤ size b ∧ size b < 2 ^ 32 ∧ blen (mem b) = size b.

Lemma wpabuf_alloc_wf len b :
  0 ≤ len < 2 ^ 32 → wpabuf_alloc true len = Some b →
  wf b ∧ size b = len ∧ contents b = [].
Proof.
  intros ? [= <-]. unfold wf, contents. simpl.
  rewrite length_replicate, take_0. split_and!; lia || done.
Qed.

Lemma contents_length b : wf b → blen (contents b) = used b.
Proof. intros (?&?&?). unfold contents. rewrite length_take. lia. Qed.

(** The one lemma behind every [wpabuf_put_*]: what was in the buffer stays, the
    new octets follow it, or the program stops before anything is written. *)
Lemma put_bytes_spec b d :
  wf b → used b + blen d < 2 ^ 32 →
  if bool_decide (used b + blen d ≤ size b) then
    ∃ b', wpabuf_put_bytes b d = Ret b' ∧ wf b' ∧ size b' = size b ∧
          contents b' = contents b ++ d ∧ used b' = used b + blen d
  else wpabuf_put_bytes b d = Abort.
Proof.
  intros (Hu & Hs & Hm) Hlen. unfold wpabuf_put_bytes, wpabuf_put. simpl.
  rewrite (wrap_small 32) by lia. case_bool_decide.
  - rewrite bool_decide_eq_false_2 by lia. simpl.
    rewrite blit_in by (simpl; lia). simpl.
    eexists; split; [done|]. unfold wf, contents. simpl.
    split_and!; try lia.
    + rewrite !length_app, length_take, length_drop. lia.
    + rewrite app_assoc, take_app_length' by
        (rewrite length_app, length_take; lia). done.
  - by rewrite bool_decide_eq_true_2 by lia.
Qed.

Lemma put_bytes_ok b d :
  wf b → used b + blen d ≤ size b →
  ∃ b', wpabuf_put_bytes b d = Ret b' ∧ wf b' ∧ size b' = size b ∧
        contents b' = contents b ++ d ∧ used b' = used b + blen d.
Proof.
  intros Hb Hle. pose proof Hb as (?&?&?).
  pose proof (put_bytes_spec b d Hb ltac:(lia)) as Hp.
  by rewrite bool_decide_eq_true_2 in Hp.
Qed.

Lemma put_data_bytes b d n :
  n = blen d → wpabuf_put_data b (Some d) n = wpabuf_put_bytes b d.
Proof.
  intros ->. unfold wpabuf_put_data, wpabuf_put_bytes.
  destruct (wpabuf_put b (blen d)) as [[pos b']| |]; [|done..]. simpl.
  by rewrite slice_all by done.
Qed.

Lemma put_buf_bytes dst src :
  wf src → wpabuf_put_buf dst src = wpabuf_put_bytes dst (contents src).
Proof.
  intros Hw. pose proof Hw as (?&?&?). unfold wpabuf_put_buf.
  rewrite <- (put_data_bytes _ _ (used src)) by (by rewrite contents_length).
  unfold wpabuf_put_data. destruct (wpabuf_put _ _) as [[pos b']| |]; [|done..].
  simpl. rewrite slice_in by lia.
  rewrite slice_all by (by rewrite contents_length).
  by rewrite drop_0.
Qed.

(** ** Sequences of puts *)
Inductive put_op :=
| PutU8 (v : Z) | PutLE16 (v : Z) | PutLE32 (v : Z) | PutLE64 (v : Z)
| PutBE16 (v : Z) | PutBE24 (v : Z) | PutBE32 (v : Z) | PutBE64 (v : Z)
| PutData (d : list Z) | PutBuf (src : wpabuf).

Definition do_put (b : wpabuf) (o : put_op) : outcome wpabuf :=
  match o with
  | PutU8 v => wpabuf_put_u8 b v
  | PutLE16 v => wpabuf_put_le16 b v
  | PutLE32 v => wpabuf_put_le32 b v
  | PutLE64 v => wpabuf_put_le64 b v
  | PutBE16 v => wpabuf_put_be16 b v
  | PutBE24 v => wpabuf_put_be24 b v
  | PutBE32 v => wpabuf_put_be32 b v
  | PutBE64 v => wpabuf_put_be64 b v
  | PutData d => wpabuf_put_data b (Some d) (blen d)
  | PutBuf src => wpabuf_put_buf b src
  end.

Fixpoint do_puts (b : wpabuf) (os : list put_op) : outcome wpabuf :=
  match os with
  | [] => Ret b
  | o :: os => b ← do_put b o; do_puts b os
  end.

(** What a put appends, as an octet string. *)
Definition octets (o : put_op) : list Z :=
  match o with
  | PutU8 v => [v]
  | PutLE16 v => le16_bytes v
  | PutLE32 v => le32_bytes v
  | PutLE64 v => le64_bytes v
  | PutBE16 v => be16_bytes v
  | PutBE24 v => be24_bytes v
  | PutBE32 v => be32_bytes v
  | PutBE64 v => be64_bytes v
  | PutData d => d
  | PutBuf src => contents src
  end.

Definition op_wf (o : put_op) : Prop :=
  match o with PutBuf src => wf src | _ => True end.

Lemma do_put_bytes b o : op_wf o → do_put b o = wpabuf_put_bytes b (octets o).
Proof.
  destruct o; simpl; intros H; try done.
  - by apply put_data_bytes.
  - by apply put_buf_bytes.
Qed.

(** C24: a sequence of puts behaves as appending to an octet string with a limit. *)
Theorem puts_refine_append b os :
  wf b → Forall op_wf os →
  used b + blen (flat_map octets os) < 2 ^ 32 →
  if bool_decide (used b + blen (flat_map octets os) ≤ size b) then
    ∃ b', do_puts b os = Ret b' ∧ wf b' ∧ size b' = size b ∧
          contents b' = contents b ++ flat_map octets os
  else do_puts b os = Abort.
Proof.
  revert b. induction os as [|o os IH]; intros b Hb Hos; simpl.
  - intros. pose proof Hb as (?&?&?). rewrite bool_decide_eq_true_2 by lia.
    exists b. by rewrite app_nil_r.
  - inversion_clear Hos as [|?? Ho Hos']. rewrite length_app. intros Hlen.
    rewrite do_put_bytes by done.
    pose proof (put_bytes_spec b (octets o) Hb ltac:(lia)) as Hp.
    destruct (decide (used b + blen (octets o) ≤ size b)).
    + rewrite bool_decide_eq_true_2 in Hp by done.
      destruct Hp as (b1 & -> & Hb1 & Hs1 & Hc1 & Hu1). simpl.
      pose proof (IH b1 Hb1 Hos' ltac:(lia)) as Hr.
      rewrite Hu1, Hs1, <- Z.add_assoc, <- Nat2Z.inj_add in Hr.
      case_bool_decide; [|done].
      destruct Hr as (b2 & ? & ? & ? & Hc2). exists b2.
      by rewrite Hc2, Hc1, app_assoc.
    + rewrite bool_decide_eq_false_2 in Hp by done. rewrite Hp.
      by rewrite bool_decide_eq_false_2 by lia.
Qed.

Example puts_refine_append_witness :
  let b := mk_wpabuf 4 1 [7; 0; 0; 0] false in
  ∃ b', do_puts b [PutBE16 0x102; PutU8 3] = Ret b' ∧ wf b' ∧ size b' = 4 ∧
        contents b' = [7; 1; 2; 3].
Proof.
  apply (puts_refine_append (mk_wpabuf 4 1 [7; 0; 0; 0] false) [PutBE16 0x102; PutU8 3]).
  - unfold wf. simpl. lia.
  - repeat constructor.
  - vm_compute. reflexivity.
Defined.

(** ** Reading a buffer through its contents *)
Lemma rd_contents b i : wf b → i < used b → rd (mem b) i = rd (contents b) i.
Proof.
  intros (?&?&?) ?. unfold rd, contents. case_bool_decide; [|done].
  by rewrite lookup_take_lt by lia.
Qed.

Lemma get_be16_contents b o :
  wf b → o + 2 ≤ used b → WPA_GET_BE16 (mem b) o = WPA_GET_BE16 (contents b) o.
Proof. intros. unfold WPA_GET_BE16. by rewrite !rd_contents by (done || lia). Qed.

Lemma get_be24_contents b o :
  wf b → o + 3 ≤ used b → WPA_GET_BE24 (mem b) o = WPA_GET_BE24 (contents b) o.
Proof. intros. unfold WPA_GET_BE24. by rewrite !rd_contents by (done || lia). Qed.

Lemma get_be32_contents b o :
  wf b → o + 4 ≤ used b → WPA_GET_BE32 (mem b) o = WPA_GET_BE32 (contents b) o.
Proof. intros. unfold WPA_GET_BE32. by rewrite !rd_contents by (done || lia). Qed.

Lemma slice_contents b o n :
  wf b → 0 ≤ o → 0 ≤ n → o + n ≤ used b → slice (mem b) o n = slice (contents b) o n.
Proof.
  intros Hw ???. pose proof (contents_length _ Hw). destruct Hw as (?&?&?).
  rewrite !slice_in by lia. unfold contents in *. rewrite skipn_firstn_comm, take_take.
  do 2 f_equal. lia.
Qed.

(** ** Copies *)
Lemma wpabuf_dup_spec src :
  wf src →
  wpabuf_dup false src = Ret None ∧
  ∃ d, wpabuf_dup true src = Ret (Some d) ∧ wf d ∧ contents d = contents src ∧
       used d = used src.
Proof.
  intros Hw. pose proof Hw as (?&?&?). split; [done|]. unfold wpabuf_dup.
  destruct (wpabuf_alloc true (used src)) as [n|] eqn:E; [|done].
  destruct (wpabuf_alloc_wf (used src) n) as (Wn & Sn & Cn); [lia|done|].
  pose proof (contents_length _ Wn) as Un. rewrite Cn in Un. simpl in Un.
  pose proof (contents_length _ Hw) as Us.
  change (wpabuf_put_data n _ _) with (wpabuf_put_buf n src).
  rewrite put_buf_bytes by done.
  destruct (put_bytes_ok n (contents src)) as (d & -> & ? & ? & Hc & Hu); [done|lia|].
  simpl. exists d. split_and!; [done|done|by rewrite Hc, Cn|lia].
Qed.

Lemma wpabuf_alloc_copy_spec d :
  blen d < 2 ^ 32 →
  wpabuf_alloc_copy false (Some d) (blen d) = Ret None ∧
  ∃ b, wpabuf_alloc_copy true (Some d) (blen d) = Ret (Some b) ∧ wf b ∧ mem b = d ∧
       used b = blen d.
Proof.
  intros Hd. split; [done|]. unfold wpabuf_alloc_copy.
  destruct (wpabuf_alloc true (blen d)) as [n|] eqn:E; [|done].
  destruct (wpabuf_alloc_wf (blen d) n) as (Wn & Sn & Cn); [lia|done|].
  pose proof (contents_length _ Wn) as Un. rewrite Cn in Un. simpl in Un.
  rewrite put_data_bytes by done.
  destruct (put_bytes_ok n d) as (b & -> & Hw & ? & Hc & Hu); [done|lia|].
  simpl. exists b. split_and!; [done|done| |lia].
  rewrite Cn in Hc. simpl in Hc. rewrite <- Hc. unfold contents.
  destruct Hw as (_ & _ & Hm). rewrite take_ge by lia. done.
Qed.

(** ** Growing, padding and joining buffers *)
Lemma put_new n d :
  0 ≤ n < 2 ^ 32 → blen d ≤ n →
  ∃ b, wpabuf_alloc true n = Some b ∧ wf b ∧
    ∃ b', wpabuf_put_bytes b d = Ret b' ∧ wf b' ∧ size b' = n ∧ contents b' = d ∧
          used b' = blen d.
Proof.
  intros Hn Hd. destruct (wpabuf_alloc true n) as [b|] eqn:E; [|done].
  destruct (wpabuf_alloc_wf n b) as (W & S & C); [done..|].
  pose proof (contents_length _ W) as U. rewrite C in U. simpl in U.
  destruct (put_bytes_ok b d) as (b' & ? & ? & ? & C' & ?); [done|lia|].
  exists b. split_and!; [done..|]. exists b'. rewrite C in C'. split_and!; done || lia.
Qed.

(** [wpabuf_resize] never loses data: it succeeds when there is room or the
    allocator grants it, after which the requested room exists, and on failure the
    buffer is the one that was passed. *)
Theorem wpabuf_resize_keeps ok b add_len :
  wf b → 0 ≤ add_len → used b + add_len < 2 ^ 32 →
  if ok || bool_decide (used b + add_len ≤ size b) then
    ∃ b', wpabuf_resize ok (Some b) add_len = (0, Some b') ∧ wf b' ∧
          contents b' = contents b ∧ used b' = used b ∧ add_len ≤ wpabuf_tailroom b' ∧
          size b ≤ size b' ≤ Z.max (size b) (used b + add_len)
  else wpabuf_resize ok (Some b) add_len = (-1, Some b).
Proof.
  intros (Hu & Hs & Hm) Ha Hw. unfold wpabuf_resize, wpabuf_tailroom.
  rewrite !(wrap_small 32 (used b + add_len)) by lia.
  rewrite (bool_decide_ext (size b < used b + add_len) (¬ used b + add_len ≤ size b)) by lia.
  rewrite bool_decide_not. case_bool_decide as Hroom; simpl.
  - rewrite orb_true_r. exists b. unfold wf. rewrite (wrap_small 32) by lia.
    split_and!; done || lia.
  - rewrite orb_false_r. destruct ok; [|done].
    eexists; split; [done|]. unfold wf, contents. simpl.
    rewrite length_app, length_take, length_replicate, (wrap_small 32) by lia.
    split_and!; [lia..| |done|lia|lia|lia].
    by rewrite take_app_le, take_take, Nat.min_id by (rewrite length_take; lia).
Qed.

Example wpabuf_resize_keeps_witness :
  let b := mk_wpabuf 2 2 [1; 2] false in
  ∃ b', wpabuf_resize true (Some b) 3 = (0, Some b') ∧ wf b' ∧
        contents b' = [1; 2] ∧ used b' = 2 ∧ 3 ≤ wpabuf_tailroom b' ∧
        2 ≤ size b' ≤ Z.max 2 (2 + 3).
Proof.
  apply (wpabuf_resize_keeps true (mk_wpabuf 2 2 [1; 2] false) 3).
  - unfold wf. simpl. lia.
  - lia.
  - simpl. lia.
Defined.

(** joining two buffers gives their data in order, and padding a buffer to [len]
    octets gives its data behind as many zeros as are missing; a refused allocation
    gives no buffer, and neither ever stops the program. *)
Theorem wpabuf_concat_zeropad a b len :
  wf a → wf b → used a + used b < 2 ^ 32 → len < 2 ^ 32 →
  (∃ c, wpabuf_concat true (Some a) (Some b) = Ret (Some c) ∧ wf c ∧
        contents c = contents a ++ contents b ∧ size c = used c) ∧
  (∃ p, wpabuf_zeropad true (Some b) len = Ret (Some p) ∧ wf p ∧
        contents p = replicate (Z.to_nat (len - used b)) 0 ++ contents b) ∧
  wpabuf_concat false (Some a) (Some b) = Ret None ∧
  wpabuf_concat false (Some a) None = Ret (Some a) ∧
  wpabuf_zeropad false (Some b) len = Ret (if bool_decide (len ≤ used b) then Some b else None).
Proof.
  intros Wa Wb Hab Hl. pose proof (contents_length _ Wa) as La.
  pose proof (contents_length _ Wb) as Lb.
  pose proof Wa as ((?&?)&?&?). pose proof Wb as ((?&?)&?&?).
  split_and!; [..|done|done|by unfold wpabuf_zeropad; case_bool_decide].
  - unfold wpabuf_concat. rewrite (wrap_small 32) by lia.
    destruct (put_new (used a + used b) (contents a))
      as (n & -> & Wn & n1 & E1 & W1 & S1 & C1 & U1); [lia..|].
    rewrite (put_buf_bytes n a), E1, ret_bind by done.
    destruct (put_bytes_ok n1 (contents b)) as (n2 & E2 & W2 & S2 & C2 & U2); [done|lia|].
    rewrite (put_buf_bytes n1 b), E2, ret_bind by done.
    exists n2. rewrite C2, C1. split_and!; done || lia.
  - unfold wpabuf_zeropad. case_bool_decide.
    { exists b. replace (Z.to_nat (len - used b)) with 0%nat by lia. done. }
    set (z := replicate (Z.to_nat (len - used b)) 0).
    assert (Hz : blen z = len - used b) by (subst z; rewrite length_replicate; lia).
    destruct (put_new len z) as (n & -> & Wn & n1 & E1 & W1 & S1 & C1 & U1); [lia..|].
    unfold wpabuf_put_bytes in E1. rewrite Hz in E1.
    destruct (wpabuf_put n (len - used b)) as [[pos r]| |]; [|done..].
    rewrite !ret_bind in *.
    destruct (blit (mem r) pos z) as [m|]; [|done]. rewrite !access_bind in *.
    assert (r <| mem := m |> = n1) as -> by congruence.
    destruct (put_bytes_ok n1 (contents b)) as (n2 & E2 & W2 & S2 & C2 & U2); [done|lia|].
    rewrite (put_buf_bytes n1 b), E2, ret_bind by done.
    exists n2. by rewrite C2, C1.
Qed.

Example wpabuf_concat_zeropad_witness :
  let a := mk_wpabuf 2 2 [1; 2] false in
  let b := mk_wpabuf 4 1 [3; 0; 0; 0] false in
  (∃ c, wpabuf_concat true (Some a) (Some b) = Ret (Some c) ∧ wf c ∧
        contents c = [1; 2; 3] ∧ size c = used c) ∧
  (∃ p, wpabuf_zeropad true (Some b) 3 = Ret (Some p) ∧ wf p ∧ contents p = [0; 0; 3]) ∧
  wpabuf_concat false (Some a) (Some b) = Ret None ∧
  wpabuf_concat false (Some a) None = Ret (Some a) ∧
  wpabuf_zeropad false (Some b) 3 = Ret None.
Proof.
  apply (wpabuf_concat_zeropad (mk_wpabuf 2 2 [1; 2] false)
           (mk_wpabuf 4 1 [3; 0; 0; 0] false) 3); unfold wf; simpl; lia.
Defined.
