(* ===== verification/Defs.v ===== *)
(** Cipher suites and key management suites (src/common/defs.h)

    A set of suites is a C integer whose bits are the suites. *)
From S2P Require Import Prelude.

Definition BIT (n : Z) : Z := Z.shiftl 1 n.

(** [!!(a & mask)] *)
Definition any_of (a mask : Z) : bool := negb (bool_decide (Z.land a mask = 0)).
Definition lors (l : list Z) : Z := foldr Z.lor 0 l.

Definition WPA_CIPHER_NONE := BIT 0.
Definition WPA_CIPHER_WEP40 := BIT 1.
Definition WPA_CIPHER_WEP104 := BIT 2.
Definition WPA_CIPHER_TKIP := BIT 3.
Definition WPA_CIPHER_CCMP := BIT 4.
Definition WPA_CIPHER_AES_128_CMAC := BIT 5.
Definition WPA_CIPHER_GCMP := BIT 6.
Definition WPA_CIPHER_SMS4 := BIT 7.
Definition WPA_CIPHER_GCMP_256 := BIT 8.
Definition WPA_CIPHER_CCMP_256 := BIT 9.
Definition WPA_CIPHER_BIP_GMAC_128 := BIT 11.
Definition WPA_CIPHER_BIP_GMAC_256 := BIT 12.
Definition WPA_CIPHER_BIP_CMAC_256 := BIT 13.
Definition WPA_CIPHER_GTK_NOT_USED := BIT 14.

Definition WPA_KEY_MGMT_IEEE8021X := BIT 0.
Definition WPA_KEY_MGMT_PSK := BIT 1.
Definition WPA_KEY_MGMT_NONE := BIT 2.
Definition WPA_KEY_MGMT_IEEE8021X_NO_WPA := BIT 3.
Definition WPA_KEY_MGMT_WPA_NONE := BIT 4.
Definition WPA_KEY_MGMT_FT_IEEE8021X := BIT 5.
Definition WPA_KEY_MGMT_FT_PSK := BIT 6.
Definition WPA_KEY_MGMT_IEEE8021X_SHA256 := BIT 7.
Definition WPA_KEY_MGMT_PSK_SHA256 := BIT 8.
Definition WPA_KEY_MGMT_WPS := BIT 9.
Definition WPA_KEY_MGMT_SAE := BIT 10.
Definition WPA_KEY_MGMT_FT_SAE := BIT 11.
Definition WPA_KEY_MGMT_WAPI_PSK := BIT 12.
Definition WPA_KEY_MGMT_WAPI_CERT := BIT 13.
Definition WPA_KEY_MGMT_CCKM := BIT 14.
Definition WPA_KEY_MGMT_OSEN := BIT 15.
Definition WPA_KEY_MGMT_IEEE8021X_SUITE_B := BIT 16.
Definition WPA_KEY_MGMT_IEEE8021X_SUITE_B_192 := BIT 17.
Definition WPA_KEY_MGMT_FILS_SHA256 := BIT 18.
Definition WPA_KEY_MGMT_FILS_SHA384 := BIT 19.
Definition WPA_KEY_MGMT_FT_FILS_SHA256 := BIT 20.
Definition WPA_KEY_MGMT_FT_FILS_SHA384 := BIT 21.
Definition WPA_KEY_MGMT_OWE := BIT 22.
Definition WPA_KEY_MGMT_DPP := BIT 23.
Definition WPA_KEY_MGMT_FT_IEEE8021X_SHA384 := BIT 24.
Definition WPA_KEY_MGMT_PASN := BIT 25.
Definition WPA_KEY_MGMT_SAE_EXT_KEY := BIT 26.

Definition WPA_KEY_MGMT_FT : Z :=
  lors [WPA_KEY_MGMT_FT_PSK; WPA_KEY_MGMT_FT_IEEE8021X; WPA_KEY_MGMT_FT_IEEE8021X_SHA384;
        WPA_KEY_MGMT_FT_SAE; WPA_KEY_MGMT_FT_FILS_SHA256; WPA_KEY_MGMT_FT_FILS_SHA384].

Definition wpa_key_mgmt_wpa_ieee8021x (akm : Z) : bool :=
  any_of akm (lors [WPA_KEY_MGMT_IEEE8021X; WPA_KEY_MGMT_FT_IEEE8021X;
    WPA_KEY_MGMT_FT_IEEE8021X_SHA384; WPA_KEY_MGMT_CCKM; WPA_KEY_MGMT_OSEN;
    WPA_KEY_MGMT_IEEE8021X_SHA256; WPA_KEY_MGMT_IEEE8021X_SUITE_B;
    WPA_KEY_MGMT_IEEE8021X_SUITE_B_192; WPA_KEY_MGMT_FILS_SHA256; WPA_KEY_MGMT_FILS_SHA384;
    WPA_KEY_MGMT_FT_FILS_SHA256; WPA_KEY_MGMT_FT_FILS_SHA384]).
Definition wpa_key_mgmt_wpa_psk_no_sae (akm : Z) : bool :=
  any_of akm (lors [WPA_KEY_MGMT_PSK; WPA_KEY_MGMT_FT_PSK; WPA_KEY_MGMT_PSK_SHA256]).
Definition wpa_key_mgmt_wpa_psk (akm : Z) : bool :=
  any_of akm (lors [WPA_KEY_MGMT_PSK; WPA_KEY_MGMT_FT_PSK; WPA_KEY_MGMT_PSK_SHA256;
    WPA_KEY_MGMT_SAE; WPA_KEY_MGMT_SAE_EXT_KEY; WPA_KEY_MGMT_FT_SAE]).
Definition wpa_key_mgmt_ft (akm : Z) : bool := any_of akm WPA_KEY_MGMT_FT.
Definition wpa_key_mgmt_only_ft (akm : Z) : bool :=
  wpa_key_mgmt_ft akm && bool_decide (Z.ldiff akm WPA_KEY_MGMT_FT = 0).
Definition wpa_key_mgmt_ft_psk (akm : Z) : bool := any_of akm WPA_KEY_MGMT_FT_PSK.
Definition wpa_key_mgmt_sae (akm : Z) : bool :=
  any_of akm (lors [WPA_KEY_MGMT_SAE; WPA_KEY_MGMT_SAE_EXT_KEY; WPA_KEY_MGMT_FT_SAE]).
Definition wpa_key_mgmt_sae_ext_key (akm : Z) : bool := any_of akm WPA_KEY_MGMT_SAE_EXT_KEY.
Definition wpa_key_mgmt_fils (akm : Z) : bool :=
  any_of akm (lors [WPA_KEY_MGMT_FILS_SHA256; WPA_KEY_MGMT_FILS_SHA384;
    WPA_KEY_MGMT_FT_FILS_SHA256; WPA_KEY_MGMT_FT_FILS_SHA384]).
Definition wpa_key_mgmt_sha256 (akm : Z) : bool :=
  any_of akm (lors [WPA_KEY_MGMT_PSK_SHA256; WPA_KEY_MGMT_IEEE8021X_SHA256; WPA_KEY_MGMT_SAE;
    WPA_KEY_MGMT_FT_SAE; WPA_KEY_MGMT_OSEN; WPA_KEY_MGMT_IEEE8021X_SUITE_B;
    WPA_KEY_MGMT_FILS_SHA256; WPA_KEY_MGMT_FT_FILS_SHA256]).
Definition wpa_key_mgmt_sha384 (akm : Z) : bool :=
  any_of akm (lors [WPA_KEY_MGMT_IEEE8021X_SUITE_B_192; WPA_KEY_MGMT_FT_IEEE8021X_SHA384;
    WPA_KEY_MGMT_FILS_SHA384; WPA_KEY_MGMT_FT_FILS_SHA384]).
Definition wpa_key_mgmt_suite_b (akm : Z) : bool :=
  any_of akm (lors [WPA_KEY_MGMT_IEEE8021X_SUITE_B; WPA_KEY_MGMT_IEEE8021X_SUITE_B_192]).
Definition wpa_key_mgmt_wpa (akm : Z) : bool :=
  wpa_key_mgmt_wpa_ieee8021x akm || wpa_key_mgmt_wpa_psk akm || wpa_key_mgmt_fils akm ||
  wpa_key_mgmt_sae akm || bool_decide (akm = WPA_KEY_MGMT_OWE) ||
  bool_decide (akm = WPA_KEY_MGMT_DPP).
Definition wpa_key_mgmt_wpa_any (akm : Z) : bool :=
  wpa_key_mgmt_wpa akm || any_of akm WPA_KEY_MGMT_WPA_NONE.
Definition wpa_key_mgmt_cckm (akm : Z) : bool := bool_decide (akm = WPA_KEY_MGMT_CCKM).
Definition wpa_key_mgmt_cross_akm (akm : Z) : bool :=
  any_of akm (lors [WPA_KEY_MGMT_PSK; WPA_KEY_MGMT_PSK_SHA256; WPA_KEY_MGMT_SAE;
    WPA_KEY_MGMT_SAE_EXT_KEY]).

Definition WPA_PROTO_WPA := BIT 0.
Definition WPA_PROTO_RSN := BIT 1.
Definition WPA_PROTO_WAPI := BIT 2.
Definition WPA_PROTO_OSEN := BIT 3.

(** Length of a PMKID (src/common/wpa_common.h) *)
Definition PMKID_LEN := 16.
