(* ===== verification/Suites.v ===== *)
(** Cipher and key management suites on the air (src/common/wpa_common.c)

    The suite selectors of information elements, their translation to and from the
    bits of Defs, and the properties of the ciphers. *)
From S2P Require Import Prelude Bytes Defs.

Definition RSN_SELECTOR (a b c d : Z) : Z :=
  Z.lor (Z.lor (Z.lor (Z.shiftl a 24) (Z.shiftl b 16)) (Z.shiftl c 8)) d.

Definition WPA_SELECTOR_LEN := 4.
Definition RSN_SELECTOR_LEN := 4.
Definition WPA_VERSION := 1.
Definition RSN_VERSION := 1.

Definition WPA_AUTH_KEY_MGMT_NONE := RSN_SELECTOR 0x00 0x50 0xf2 0.
Definition WPA_AUTH_KEY_MGMT_UNSPEC_802_1X := RSN_SELECTOR 0x00 0x50 0xf2 1.
Definition WPA_AUTH_KEY_MGMT_PSK_OVER_802_1X := RSN_SELECTOR 0x00 0x50 0xf2 2.
Definition WPA_AUTH_KEY_MGMT_CCKM := RSN_SELECTOR 0x00 0x40 0x96 0.
Definition WPA_CIPHER_SUITE_NONE := RSN_SELECTOR 0x00 0x50 0xf2 0.
Definition WPA_CIPHER_SUITE_TKIP := RSN_SELECTOR 0x00 0x50 0xf2 2.
Definition WPA_CIPHER_SUITE_CCMP := RSN_SELECTOR 0x00 0x50 0xf2 4.
Definition RSN_AUTH_KEY_MGMT_UNSPEC_802_1X := RSN_SELECTOR 0x00 0x0f 0xac 1.
Definition RSN_AUTH_KEY_MGMT_PSK_OVER_802_1X := RSN_SELECTOR 0x00 0x0f 0xac 2.
Definition RSN_AUTH_KEY_MGMT_FT_802_1X := RSN_SELECTOR 0x00 0x0f 0xac 3.
Definition RSN_AUTH_KEY_MGMT_FT_PSK := RSN_SELECTOR 0x00 0x0f 0xac 4.
Definition RSN_AUTH_KEY_MGMT_802_1X_SHA256 := RSN_SELECTOR 0x00 0x0f 0xac 5.
Definition RSN_AUTH_KEY_MGMT_PSK_SHA256 := RSN_SELECTOR 0x00 0x0f 0xac 6.
Definition RSN_AUTH_KEY_MGMT_SAE := RSN_SELECTOR 0x00 0x0f 0xac 8.
Definition RSN_AUTH_KEY_MGMT_FT_SAE := RSN_SELECTOR 0x00 0x0f 0xac 9.
Definition RSN_AUTH_KEY_MGMT_802_1X_SUITE_B := RSN_SELECTOR 0x00 0x0f 0xac 11.
Definition RSN_AUTH_KEY_MGMT_802_1X_SUITE_B_192 := RSN_SELECTOR 0x00 0x0f 0xac 12.
Definition RSN_AUTH_KEY_MGMT_FT_802_1X_SHA384 := RSN_SELECTOR 0x00 0x0f 0xac 13.
Definition RSN_AUTH_KEY_MGMT_FILS_SHA256 := RSN_SELECTOR 0x00 0x0f 0xac 14.
Definition RSN_AUTH_KEY_MGMT_FILS_SHA384 := RSN_SELECTOR 0x00 0x0f 0xac 15.
Definition RSN_AUTH_KEY_MGMT_FT_FILS_SHA256 := RSN_SELECTOR 0x00 0x0f 0xac 16.
Definition RSN_AUTH_KEY_MGMT_FT_FILS_SHA384 := RSN_SELECTOR 0x00 0x0f 0xac 17.
Definition RSN_AUTH_KEY_MGMT_OWE := RSN_SELECTOR 0x00 0x0f 0xac 18.
Definition RSN_AUTH_KEY_MGMT_SAE_EXT_KEY := RSN_SELECTOR 0x00 0x0f 0xac 24.
Definition RSN_AUTH_KEY_MGMT_CCKM := RSN_SELECTOR 0x00 0x40 0x96 0x00.
Definition RSN_AUTH_KEY_MGMT_OSEN := RSN_SELECTOR 0x50 0x6f 0x9a 0x01.
Definition RSN_AUTH_KEY_MGMT_DPP := RSN_SELECTOR 0x50 0x6f 0x9a 0x02.
Definition RSN_CIPHER_SUITE_NONE := RSN_SELECTOR 0x00 0x0f 0xac 0.
Definition RSN_CIPHER_SUITE_TKIP := RSN_SELECTOR 0x00 0x0f 0xac 2.
Definition RSN_CIPHER_SUITE_CCMP := RSN_SELECTOR 0x00 0x0f 0xac 4.
Definition RSN_CIPHER_SUITE_AES_128_CMAC := RSN_SELECTOR 0x00 0x0f 0xac 6.
Definition RSN_CIPHER_SUITE_NO_GROUP_ADDRESSED := RSN_SELECTOR 0x00 0x0f 0xac 7.
Definition RSN_CIPHER_SUITE_GCMP := RSN_SELECTOR 0x00 0x0f 0xac 8.
Definition RSN_CIPHER_SUITE_GCMP_256 := RSN_SELECTOR 0x00 0x0f 0xac 9.
Definition RSN_CIPHER_SUITE_CCMP_256 := RSN_SELECTOR 0x00 0x0f 0xac 10.
Definition RSN_CIPHER_SUITE_BIP_GMAC_128 := RSN_SELECTOR 0x00 0x0f 0xac 11.
Definition RSN_CIPHER_SUITE_BIP_GMAC_256 := RSN_SELECTOR 0x00 0x0f 0xac 12.
Definition RSN_CIPHER_SUITE_BIP_CMAC_256 := RSN_SELECTOR 0x00 0x0f 0xac 13.
Definition WPA_OUI_TYPE := RSN_SELECTOR 0x00 0x50 0xf2 1.

Definition RSN_SELECTOR_GET := WPA_GET_BE32.
Definition RSN_SELECTOR_PUT := WPA_PUT_BE32.

(** The bit of a selector, as [rsn_selector_to_bitfield] reads it. *)
Definition rsn_suite_cipher (v : Z) : Z :=
  if bool_decide (v = RSN_CIPHER_SUITE_NONE) then WPA_CIPHER_NONE else
  if bool_decide (v = RSN_CIPHER_SUITE_TKIP) then WPA_CIPHER_TKIP else
  if bool_decide (v = RSN_CIPHER_SUITE_CCMP) then WPA_CIPHER_CCMP else
  if bool_decide (v = RSN_CIPHER_SUITE_AES_128_CMAC) then WPA_CIPHER_AES_128_CMAC else
  if bool_decide (v = RSN_CIPHER_SUITE_GCMP) then WPA_CIPHER_GCMP else
  if bool_decide (v = RSN_CIPHER_SUITE_CCMP_256) then WPA_CIPHER_CCMP_256 else
  if bool_decide (v = RSN_CIPHER_SUITE_GCMP_256) then WPA_CIPHER_GCMP_256 else
  if bool_decide (v = RSN_CIPHER_SUITE_BIP_GMAC_128) then WPA_CIPHER_BIP_GMAC_128 else
  if bool_decide (v = RSN_CIPHER_SUITE_BIP_GMAC_256) then WPA_CIPHER_BIP_GMAC_256 else
  if bool_decide (v = RSN_CIPHER_SUITE_BIP_CMAC_256) then WPA_CIPHER_BIP_CMAC_256 else
  if bool_decide (v = RSN_CIPHER_SUITE_NO_GROUP_ADDRESSED) then WPA_CIPHER_GTK_NOT_USED else
  0.
Definition rsn_selector_to_bitfield (b : list Z) (s : Z) : option Z :=
  v ← RSN_SELECTOR_GET b s; Some (rsn_suite_cipher v).

(** The bit of a selector, as [rsn_key_mgmt_to_bitfield] reads it. *)
Definition rsn_suite_key_mgmt (v : Z) : Z :=
  if bool_decide (v = RSN_AUTH_KEY_MGMT_UNSPEC_802_1X) then WPA_KEY_MGMT_IEEE8021X else
  if bool_decide (v = RSN_AUTH_KEY_MGMT_PSK_OVER_802_1X) then WPA_KEY_MGMT_PSK else
  if bool_decide (v = RSN_AUTH_KEY_MGMT_FT_802_1X) then WPA_KEY_MGMT_FT_IEEE8021X else
  if bool_decide (v = RSN_AUTH_KEY_MGMT_FT_PSK) then WPA_KEY_MGMT_FT_PSK else
  if bool_decide (v = RSN_AUTH_KEY_MGMT_FT_802_1X_SHA384) then WPA_KEY_MGMT_FT_IEEE8021X_SHA384 else
  if bool_decide (v = RSN_AUTH_KEY_MGMT_802_1X_SHA256) then WPA_KEY_MGMT_IEEE8021X_SHA256 else
  if bool_decide (v = RSN_AUTH_KEY_MGMT_PSK_SHA256) then WPA_KEY_MGMT_PSK_SHA256 else
  if bool_decide (v = RSN_AUTH_KEY_MGMT_SAE) then WPA_KEY_MGMT_SAE else
  if bool_decide (v = RSN_AUTH_KEY_MGMT_SAE_EXT_KEY) then WPA_KEY_MGMT_SAE_EXT_KEY else
  if bool_decide (v = RSN_AUTH_KEY_MGMT_FT_SAE) then WPA_KEY_MGMT_FT_SAE else
  if bool_decide (v = RSN_AUTH_KEY_MGMT_802_1X_SUITE_B) then WPA_KEY_MGMT_IEEE8021X_SUITE_B else
  if bool_decide (v = RSN_AUTH_KEY_MGMT_802_1X_SUITE_B_192) then WPA_KEY_MGMT_IEEE8021X_SUITE_B_192 else
  if bool_decide (v = RSN_AUTH_KEY_MGMT_FILS_SHA256) then WPA_KEY_MGMT_FILS_SHA256 else
  if bool_decide (v = RSN_AUTH_KEY_MGMT_FILS_SHA384) then WPA_KEY_MGMT_FILS_SHA384 else
  if bool_decide (v = RSN_AUTH_KEY_MGMT_FT_FILS_SHA256) then WPA_KEY_MGMT_FT_FILS_SHA256 else
  if bool_decide (v = RSN_AUTH_KEY_MGMT_FT_FILS_SHA384) then WPA_KEY_MGMT_FT_FILS_SHA384 else
  if bool_decide (v = RSN_AUTH_KEY_MGMT_DPP) then WPA_KEY_MGMT_DPP else
  if bool_decide (v = RSN_AUTH_KEY_MGMT_OSEN) then WPA_KEY_MGMT_OSEN else
  0.
Definition rsn_key_mgmt_to_bitfield (b : list Z) (s : Z) : option Z :=
  v ← RSN_SELECTOR_GET b s; Some (rsn_suite_key_mgmt v).

(** The bit of a selector, as [wpa_selector_to_bitfield] reads it. *)
Definition wpa_suite_cipher (v : Z) : Z :=
  if bool_decide (v = WPA_CIPHER_SUITE_NONE) then WPA_CIPHER_NONE else
  if bool_decide (v = WPA_CIPHER_SUITE_TKIP) then WPA_CIPHER_TKIP else
  if bool_decide (v = WPA_CIPHER_SUITE_CCMP) then WPA_CIPHER_CCMP else
  0.
Definition wpa_selector_to_bitfield (b : list Z) (s : Z) : option Z :=
  v ← RSN_SELECTOR_GET b s; Some (wpa_suite_cipher v).

(** The bit of a selector, as [wpa_key_mgmt_to_bitfield] reads it. *)
Definition wpa_suite_key_mgmt (v : Z) : Z :=
  if bool_decide (v = WPA_AUTH_KEY_MGMT_UNSPEC_802_1X) then WPA_KEY_MGMT_IEEE8021X else
  if bool_decide (v = WPA_AUTH_KEY_MGMT_PSK_OVER_802_1X) then WPA_KEY_MGMT_PSK else
  if bool_decide (v = WPA_AUTH_KEY_MGMT_NONE) then WPA_KEY_MGMT_WPA_NONE else
  0.
Definition wpa_key_mgmt_to_bitfield (b : list Z) (s : Z) : option Z :=
  v ← RSN_SELECTOR_GET b s; Some (wpa_suite_key_mgmt v).

Definition wpa_akm_to_suite (akm : Z) : Z :=
  if any_of akm WPA_KEY_MGMT_FT_IEEE8021X_SHA384 then RSN_AUTH_KEY_MGMT_FT_802_1X_SHA384 else
  if any_of akm WPA_KEY_MGMT_FT_IEEE8021X then RSN_AUTH_KEY_MGMT_FT_802_1X else
  if any_of akm WPA_KEY_MGMT_FT_PSK then RSN_AUTH_KEY_MGMT_FT_PSK else
  if any_of akm WPA_KEY_MGMT_IEEE8021X_SHA256 then RSN_AUTH_KEY_MGMT_802_1X_SHA256 else
  if any_of akm WPA_KEY_MGMT_IEEE8021X then RSN_AUTH_KEY_MGMT_UNSPEC_802_1X else
  if any_of akm WPA_KEY_MGMT_PSK_SHA256 then RSN_AUTH_KEY_MGMT_PSK_SHA256 else
  if any_of akm WPA_KEY_MGMT_PSK then RSN_AUTH_KEY_MGMT_PSK_OVER_802_1X else
  if any_of akm WPA_KEY_MGMT_CCKM then RSN_AUTH_KEY_MGMT_CCKM else
  if any_of akm WPA_KEY_MGMT_OSEN then RSN_AUTH_KEY_MGMT_OSEN else
  if any_of akm WPA_KEY_MGMT_IEEE8021X_SUITE_B then RSN_AUTH_KEY_MGMT_802_1X_SUITE_B else
  if any_of akm WPA_KEY_MGMT_IEEE8021X_SUITE_B_192 then RSN_AUTH_KEY_MGMT_802_1X_SUITE_B_192 else
  if any_of akm WPA_KEY_MGMT_FILS_SHA256 then RSN_AUTH_KEY_MGMT_FILS_SHA256 else
  if any_of akm WPA_KEY_MGMT_FILS_SHA384 then RSN_AUTH_KEY_MGMT_FILS_SHA384 else
  if any_of akm WPA_KEY_MGMT_FT_FILS_SHA256 then RSN_AUTH_KEY_MGMT_FT_FILS_SHA256 else
  if any_of akm WPA_KEY_MGMT_FT_FILS_SHA384 then RSN_AUTH_KEY_MGMT_FT_FILS_SHA384 else
  if any_of akm WPA_KEY_MGMT_SAE then RSN_AUTH_KEY_MGMT_SAE else
  if any_of akm WPA_KEY_MGMT_SAE_EXT_KEY then RSN_AUTH_KEY_MGMT_SAE_EXT_KEY else
  if any_of akm WPA_KEY_MGMT_FT_SAE then RSN_AUTH_KEY_MGMT_FT_SAE else
  if any_of akm WPA_KEY_MGMT_OWE then RSN_AUTH_KEY_MGMT_OWE else
  if any_of akm WPA_KEY_MGMT_DPP then RSN_AUTH_KEY_MGMT_DPP else
  0.

Definition wpa_cipher_to_suite (proto cipher : Z) : Z :=
  if any_of cipher WPA_CIPHER_CCMP_256 then RSN_CIPHER_SUITE_CCMP_256 else
  if any_of cipher WPA_CIPHER_GCMP_256 then RSN_CIPHER_SUITE_GCMP_256 else
  if any_of cipher WPA_CIPHER_CCMP then
    (if bool_decide (proto = WPA_PROTO_RSN) then RSN_CIPHER_SUITE_CCMP
     else WPA_CIPHER_SUITE_CCMP) else
  if any_of cipher WPA_CIPHER_GCMP then RSN_CIPHER_SUITE_GCMP else
  if any_of cipher WPA_CIPHER_TKIP then
    (if bool_decide (proto = WPA_PROTO_RSN) then RSN_CIPHER_SUITE_TKIP
     else WPA_CIPHER_SUITE_TKIP) else
  if any_of cipher WPA_CIPHER_NONE then
    (if bool_decide (proto = WPA_PROTO_RSN) then RSN_CIPHER_SUITE_NONE
     else WPA_CIPHER_SUITE_NONE) else
  if any_of cipher WPA_CIPHER_GTK_NOT_USED then RSN_CIPHER_SUITE_NO_GROUP_ADDRESSED else
  if any_of cipher WPA_CIPHER_AES_128_CMAC then RSN_CIPHER_SUITE_AES_128_CMAC else
  if any_of cipher WPA_CIPHER_BIP_GMAC_128 then RSN_CIPHER_SUITE_BIP_GMAC_128 else
  if any_of cipher WPA_CIPHER_BIP_GMAC_256 then RSN_CIPHER_SUITE_BIP_GMAC_256 else
  if any_of cipher WPA_CIPHER_BIP_CMAC_256 then RSN_CIPHER_SUITE_BIP_CMAC_256 else
  0.

Definition wpa_pick_pairwise_cipher (ciphers : Z) (none_allowed : bool) : Z :=
  if any_of ciphers WPA_CIPHER_CCMP_256 then WPA_CIPHER_CCMP_256 else
  if any_of ciphers WPA_CIPHER_GCMP_256 then WPA_CIPHER_GCMP_256 else
  if any_of ciphers WPA_CIPHER_CCMP then WPA_CIPHER_CCMP else
  if any_of ciphers WPA_CIPHER_GCMP then WPA_CIPHER_GCMP else
  if any_of ciphers WPA_CIPHER_TKIP then WPA_CIPHER_TKIP else
  if none_allowed && any_of ciphers WPA_CIPHER_NONE then WPA_CIPHER_NONE else
  -1.

Definition wpa_pick_group_cipher (ciphers : Z) : Z :=
  if any_of ciphers WPA_CIPHER_CCMP_256 then WPA_CIPHER_CCMP_256 else
  if any_of ciphers WPA_CIPHER_GCMP_256 then WPA_CIPHER_GCMP_256 else
  if any_of ciphers WPA_CIPHER_CCMP then WPA_CIPHER_CCMP else
  if any_of ciphers WPA_CIPHER_GCMP then WPA_CIPHER_GCMP else
  if any_of ciphers WPA_CIPHER_GTK_NOT_USED then WPA_CIPHER_GTK_NOT_USED else
  if any_of ciphers WPA_CIPHER_TKIP then WPA_CIPHER_TKIP else
  -1.

Definition wpa_cipher_key_len (cipher : Z) : Z :=
  if bool_decide (cipher ∈ [WPA_CIPHER_CCMP_256; WPA_CIPHER_GCMP_256; WPA_CIPHER_BIP_GMAC_256;
                            WPA_CIPHER_BIP_CMAC_256]) then 32 else
  if bool_decide (cipher ∈ [WPA_CIPHER_CCMP; WPA_CIPHER_GCMP; WPA_CIPHER_AES_128_CMAC;
                            WPA_CIPHER_BIP_GMAC_128]) then 16 else
  if bool_decide (cipher = WPA_CIPHER_TKIP) then 32 else
  0.

Definition wpa_cipher_rsc_len (cipher : Z) : Z :=
  if bool_decide (cipher ∈ [WPA_CIPHER_CCMP_256; WPA_CIPHER_GCMP_256; WPA_CIPHER_CCMP;
                            WPA_CIPHER_GCMP; WPA_CIPHER_TKIP]) then 6 else
  0.

Inductive wpa_alg :=
| WPA_ALG_NONE | WPA_ALG_WEP | WPA_ALG_TKIP | WPA_ALG_CCMP | WPA_ALG_BIP_CMAC_128
| WPA_ALG_GCMP | WPA_ALG_SMS4 | WPA_ALG_KRK | WPA_ALG_GCMP_256 | WPA_ALG_CCMP_256
| WPA_ALG_BIP_GMAC_128 | WPA_ALG_BIP_GMAC_256 | WPA_ALG_BIP_CMAC_256.
#[export] Instance wpa_alg_eq_dec : EqDecision wpa_alg.
Proof. solve_decision. Defined.

Definition wpa_cipher_to_alg (cipher : Z) : wpa_alg :=
  if bool_decide (cipher = WPA_CIPHER_CCMP_256) then WPA_ALG_CCMP_256 else
  if bool_decide (cipher = WPA_CIPHER_GCMP_256) then WPA_ALG_GCMP_256 else
  if bool_decide (cipher = WPA_CIPHER_CCMP) then WPA_ALG_CCMP else
  if bool_decide (cipher = WPA_CIPHER_GCMP) then WPA_ALG_GCMP else
  if bool_decide (cipher = WPA_CIPHER_TKIP) then WPA_ALG_TKIP else
  if bool_decide (cipher = WPA_CIPHER_AES_128_CMAC) then WPA_ALG_BIP_CMAC_128 else
  if bool_decide (cipher = WPA_CIPHER_BIP_GMAC_128) then WPA_ALG_BIP_GMAC_128 else
  if bool_decide (cipher = WPA_CIPHER_BIP_GMAC_256) then WPA_ALG_BIP_GMAC_256 else
  if bool_decide (cipher = WPA_CIPHER_BIP_CMAC_256) then WPA_ALG_BIP_CMAC_256 else
  WPA_ALG_NONE.

Definition wpa_cipher_valid_pairwise (cipher : Z) : bool :=
  bool_decide (cipher ∈ [WPA_CIPHER_CCMP_256; WPA_CIPHER_GCMP_256; WPA_CIPHER_CCMP;
                         WPA_CIPHER_GCMP; WPA_CIPHER_TKIP]).
Definition wpa_cipher_valid_group (cipher : Z) : bool :=
  wpa_cipher_valid_pairwise cipher || bool_decide (cipher = WPA_CIPHER_GTK_NOT_USED).
Definition wpa_cipher_valid_mgmt_group (cipher : Z) : bool :=
  bool_decide (cipher ∈ [WPA_CIPHER_GTK_NOT_USED; WPA_CIPHER_AES_128_CMAC;
                         WPA_CIPHER_BIP_GMAC_128; WPA_CIPHER_BIP_GMAC_256;
                         WPA_CIPHER_BIP_CMAC_256]).

Definition wpa_select_ap_group_cipher (wpa wpa_pairwise rsn_pairwise : Z) : Z :=
  let pairwise := Z.lor (if any_of wpa 1 then wpa_pairwise else 0)
                        (if any_of wpa 2 then rsn_pairwise else 0) in
  let among mask c := bool_decide (Z.land pairwise (lors mask) = c) in
  if any_of pairwise WPA_CIPHER_TKIP then WPA_CIPHER_TKIP else
  if among [WPA_CIPHER_CCMP; WPA_CIPHER_GCMP] WPA_CIPHER_GCMP then WPA_CIPHER_GCMP else
  if among [WPA_CIPHER_GCMP_256; WPA_CIPHER_CCMP; WPA_CIPHER_GCMP] WPA_CIPHER_GCMP_256
  then WPA_CIPHER_GCMP_256 else
  if among [WPA_CIPHER_CCMP_256; WPA_CIPHER_CCMP; WPA_CIPHER_GCMP] WPA_CIPHER_CCMP_256
  then WPA_CIPHER_CCMP_256 else
  WPA_CIPHER_CCMP.

(** ** Lists of suites

    One [if (ciphers & c)] of the [put_suites] functions after the other; the result
    is the memory and the number of suites written. *)
Fixpoint put_suites (table : list (Z * Z)) (b : list Z) (pos ciphers : Z) :
    option (list Z * Z) :=
  match table with
  | [] => Some (b, 0)
  | (c, suite) :: table =>
      if any_of ciphers c then
        b ← RSN_SELECTOR_PUT b pos suite;
        '(b, n) ← put_suites table b (pos + RSN_SELECTOR_LEN) ciphers;
        Some (b, n + 1)
      else put_suites table b pos ciphers
  end.

Definition rsn_put_table : list (Z * Z) :=
  [(WPA_CIPHER_CCMP_256, RSN_CIPHER_SUITE_CCMP_256);
   (WPA_CIPHER_GCMP_256, RSN_CIPHER_SUITE_GCMP_256);
   (WPA_CIPHER_CCMP, RSN_CIPHER_SUITE_CCMP); (WPA_CIPHER_GCMP, RSN_CIPHER_SUITE_GCMP);
   (WPA_CIPHER_TKIP, RSN_CIPHER_SUITE_TKIP); (WPA_CIPHER_NONE, RSN_CIPHER_SUITE_NONE)].
Definition wpa_put_table : list (Z * Z) :=
  [(WPA_CIPHER_CCMP, WPA_CIPHER_SUITE_CCMP); (WPA_CIPHER_TKIP, WPA_CIPHER_SUITE_TKIP);
   (WPA_CIPHER_NONE, WPA_CIPHER_SUITE_NONE)].

Definition rsn_cipher_put_suites := put_suites rsn_put_table.
Definition wpa_cipher_put_suites := put_suites wpa_put_table.

(** Reading [count] suites: the [for] loops of the parsers. *)
Fixpoint read_suites (to_bitfield : list Z → Z → option Z) (b : list Z) (count : nat)
    (pos bits : Z) : option Z :=
  match count with
  | O => Some bits
  | S count =>
      v ← to_bitfield b pos;
      read_suites to_bitfield b count (pos + RSN_SELECTOR_LEN) (Z.lor bits v)
  end.
