(* ===== verification/RsnIe.v ===== *)
(** WPA and RSN elements (src/common/wpa_common.c, src/rsn_supp/wpa_ie.c)

    The parsers of the WPA and RSN elements, their generation from the configuration
    of the supplicant, the insertion of a PMKID into an RSN element and the
    comparison of two elements.  An element is the list of its octets; pointers into
    it are offsets.  A read or write outside the memory is [None] in a parser and
    [Undef] in a writer. *)
From S2P Require Import Prelude Bytes Defs Suites.

Definition WLAN_EID_RSN := 48.
Definition WLAN_EID_VENDOR_SPECIFIC := 221.
Definition WLAN_EID_RSNX := 244.
Definition OSEN_IE_VENDOR_TYPE := 0x506f9a12.
Definition RSNE_OVERRIDE_IE_VENDOR_TYPE := 0x506f9a29.
Definition RSNE_OVERRIDE_2_IE_VENDOR_TYPE := 0x506f9a2a.

(** [sizeof] of struct wpa_ie_hdr and struct rsn_ie_hdr *)
Definition sizeof_wpa_ie_hdr := 8.
Definition sizeof_rsn_ie_hdr := 4.

(** ** Parsing *)
Record wpa_ie_data := mk_ie_data {
  ie_proto : Z;
  ie_pairwise_cipher : Z;
  ie_has_pairwise : bool;
  ie_group_cipher : Z;
  ie_has_group : bool;
  ie_key_mgmt : Z;
  ie_capabilities : Z;
  ie_num_pmkid : Z;
  ie_pmkid : option Z;
  ie_mgmt_group_cipher : Z;
}.
#[export] Instance eta_ie_data : Eta wpa_ie_data := λ d,
  mk_ie_data (ie_proto d) (ie_pairwise_cipher d) (ie_has_pairwise d) (ie_group_cipher d)
    (ie_has_group d) (ie_key_mgmt d) (ie_capabilities d) (ie_num_pmkid d) (ie_pmkid d)
    (ie_mgmt_group_cipher d).

(** What a part of a parser does: [Stop] is a [return] with the data filled so far,
    [Go] continues with the pointer, the octets left and the data. *)
Record cursor := mk_cursor { pos : Z; left : Z; data : wpa_ie_data }.
Inductive parsed :=
| Stop (ret : Z) (d : wpa_ie_data)
| Go (c : cursor).

Definition then_parse (p : option parsed) (f : cursor → option parsed) : option parsed :=
  match p with
  | Some (Go c) => f c
  | _ => p
  end.
Notation "p ⨾ f" := (then_parse p f) (at level 62, left associativity).

(** The count and the list of suites of the pairwise and key management parts, once
    [left >= 2]: the bits, or [None] for a count that is zero or too large. *)
Definition read_suite_list (to_bitfield : list Z → Z → option Z) (b : list Z) (c : cursor) :
    option (option (Z * cursor)) :=
  count ← WPA_GET_LE16 b (pos c);
  let pos' := pos c + 2 in
  let left' := left c - 2 in
  if bool_decide (count = 0) || bool_decide (left' / RSN_SELECTOR_LEN < count) then Some None
  else
    bits ← read_suites to_bitfield b (Z.to_nat count) pos' 0;
    Some (Some (bits, mk_cursor (pos' + count * RSN_SELECTOR_LEN)
                                (left' - count * RSN_SELECTOR_LEN) (data c))).

Definition with_data (c : cursor) (d : wpa_ie_data) : cursor := mk_cursor (pos c) (left c) d.

Definition parse_key_mgmt (to_bitfield : list Z → Z → option Z) (b : list Z) (c : cursor) :
    option parsed :=
  if bool_decide (2 ≤ left c) then
    l ← read_suite_list to_bitfield b c;
    match l with
    | None => Some (Stop (-6) ((data c) <| ie_key_mgmt := 0 |>))
    | Some (bits, c) => Some (Go (with_data c ((data c) <| ie_key_mgmt := bits |>)))
    end
  else if bool_decide (left c = 1) then Some (Stop (-7) (data c))
  else Some (Go c).

Definition parse_capabilities (b : list Z) (c : cursor) : option parsed :=
  if bool_decide (2 ≤ left c) then
    v ← WPA_GET_LE16 b (pos c);
    Some (Go (mk_cursor (pos c + 2) (left c - 2) ((data c) <| ie_capabilities := v |>)))
  else Some (Go c).

(** *** RSN *)
Definition rsn_defaults : wpa_ie_data :=
  mk_ie_data WPA_PROTO_RSN WPA_CIPHER_CCMP false WPA_CIPHER_CCMP false WPA_KEY_MGMT_IEEE8021X
    0 0 None WPA_CIPHER_AES_128_CMAC.

(** [rsn_ie_len >= n && rsn_ie[1] >= m && rsn_ie[1] == rsn_ie_len - 2] and the vendor
    type *)
Definition vendor_header (b : list Z) (len n m : Z) (types : list Z) : option bool :=
  if bool_decide (n ≤ len) then
    l ← rd b 1;
    if bool_decide (m ≤ l ∧ l = len - 2) then
      ty ← WPA_GET_BE32 b 2;
      Some (bool_decide (ty ∈ types))
    else Some false
  else Some false.

Definition parse_rsn_header (b : list Z) (len : Z) (d : wpa_ie_data) : option parsed :=
  osen ← vendor_header b len 6 4 [OSEN_IE_VENDOR_TYPE];
  if osen : bool then
    Some (Go (mk_cursor 6 (len - 6)
      (d <| ie_group_cipher := WPA_CIPHER_GTK_NOT_USED |> <| ie_has_group := true |>
         <| ie_key_mgmt := WPA_KEY_MGMT_OSEN |> <| ie_proto := WPA_PROTO_OSEN |>)))
  else
    override ← vendor_header b len (2 + 4 + 2) (4 + 2)
                 [RSNE_OVERRIDE_IE_VENDOR_TYPE; RSNE_OVERRIDE_2_IE_VENDOR_TYPE];
    override ← (if override : bool then
                  v ← WPA_GET_LE16 b (2 + 4); Some (bool_decide (v = RSN_VERSION))
                else Some false);
    if override : bool then Some (Go (mk_cursor (2 + 4 + 2) (len - 2 - 4 - 2) d))
    else
      id ← rd b 0;
      l ← rd b 1;
      v ← WPA_GET_LE16 b 2;
      if bool_decide (id ≠ WLAN_EID_RSN) || bool_decide (l ≠ len - 2) ||
         bool_decide (v ≠ RSN_VERSION)
      then Some (Stop (-2) d)
      else Some (Go (mk_cursor sizeof_rsn_ie_hdr (len - sizeof_rsn_ie_hdr) d)).

Definition parse_rsn_group (b : list Z) (c : cursor) : option parsed :=
  if bool_decide (RSN_SELECTOR_LEN ≤ left c) then
    g ← rsn_selector_to_bitfield b (pos c);
    let d := (data c) <| ie_group_cipher := g |> <| ie_has_group := true |> in
    if negb (wpa_cipher_valid_group g) then Some (Stop (-1) d)
    else Some (Go (mk_cursor (pos c + RSN_SELECTOR_LEN) (left c - RSN_SELECTOR_LEN) d))
  else if bool_decide (0 < left c) then Some (Stop (-3) (data c))
  else Some (Go c).

Definition parse_rsn_pairwise (b : list Z) (c : cursor) : option parsed :=
  if bool_decide (2 ≤ left c) then
    l ← read_suite_list rsn_selector_to_bitfield b c;
    match l with
    | None => Some (Stop (-4) ((data c) <| ie_pairwise_cipher := 0 |>))
    | Some (bits, c) =>
        let d := (data c) <| ie_has_pairwise := true |> <| ie_pairwise_cipher := bits |> in
        if any_of bits WPA_CIPHER_AES_128_CMAC then Some (Stop (-1) d)
        else Some (Go (with_data c d))
    end
  else if bool_decide (left c = 1) then Some (Stop (-5) (data c))
  else Some (Go c).

Definition parse_rsn_pmkids (b : list Z) (c : cursor) : option parsed :=
  if bool_decide (2 ≤ left c) then
    n ← WPA_GET_LE16 b (pos c);
    let pos' := pos c + 2 in
    let left' := left c - 2 in
    if bool_decide (left' / PMKID_LEN < n) then
      Some (Stop (-9) ((data c) <| ie_num_pmkid := 0 |>))
    else Some (Go (mk_cursor (pos' + n * PMKID_LEN) (left' - n * PMKID_LEN)
                 ((data c) <| ie_num_pmkid := n |> <| ie_pmkid := Some pos' |>)))
  else Some (Go c).

Definition parse_rsn_mgmt_group (b : list Z) (c : cursor) : option parsed :=
  if bool_decide (4 ≤ left c) then
    g ← rsn_selector_to_bitfield b (pos c);
    let d := (data c) <| ie_mgmt_group_cipher := g |> in
    if negb (wpa_cipher_valid_mgmt_group g) then Some (Stop (-10) d)
    else Some (Go (mk_cursor (pos c + RSN_SELECTOR_LEN) (left c - RSN_SELECTOR_LEN) d))
  else Some (Go c).

(** [return 0] after the last part. *)
Definition finish (p : option parsed) : option (Z * wpa_ie_data) :=
  r ← p;
  match r with
  | Stop ret d => Some (ret, d)
  | Go c => Some (0, data c)
  end.

Definition wpa_parse_wpa_ie_rsn (rsn_ie : list Z) (rsn_ie_len : Z) :
    option (Z * wpa_ie_data) :=
  if bool_decide (rsn_ie_len = 0) then Some (-1, rsn_defaults)
  else if bool_decide (rsn_ie_len < sizeof_rsn_ie_hdr) then Some (-1, rsn_defaults)
  else finish (parse_rsn_header rsn_ie rsn_ie_len rsn_defaults
                 ⨾ parse_rsn_group rsn_ie ⨾ parse_rsn_pairwise rsn_ie
                 ⨾ parse_key_mgmt rsn_key_mgmt_to_bitfield rsn_ie ⨾ parse_capabilities rsn_ie
                 ⨾ parse_rsn_pmkids rsn_ie ⨾ parse_rsn_mgmt_group rsn_ie).

(** *** WPA version 1 *)
Definition wpa_defaults : wpa_ie_data :=
  mk_ie_data WPA_PROTO_WPA WPA_CIPHER_TKIP false WPA_CIPHER_TKIP false WPA_KEY_MGMT_IEEE8021X
    0 0 None 0.

Definition parse_wpa_header (b : list Z) (len : Z) (d : wpa_ie_data) : option parsed :=
  id ← rd b 0;
  l ← rd b 1;
  oui ← RSN_SELECTOR_GET b 2;
  v ← WPA_GET_LE16 b 6;
  if bool_decide (id ≠ WLAN_EID_VENDOR_SPECIFIC) || bool_decide (l ≠ len - 2) ||
     bool_decide (oui ≠ WPA_OUI_TYPE) || bool_decide (v ≠ WPA_VERSION)
  then Some (Stop (-2) d)
  else Some (Go (mk_cursor sizeof_wpa_ie_hdr (len - sizeof_wpa_ie_hdr) d)).

Definition parse_wpa_group (b : list Z) (c : cursor) : option parsed :=
  if bool_decide (WPA_SELECTOR_LEN ≤ left c) then
    g ← wpa_selector_to_bitfield b (pos c);
    Some (Go (mk_cursor (pos c + WPA_SELECTOR_LEN) (left c - WPA_SELECTOR_LEN)
                ((data c) <| ie_group_cipher := g |>)))
  else if bool_decide (0 < left c) then Some (Stop (-3) (data c))
  else Some (Go c).

Definition parse_wpa_pairwise (b : list Z) (c : cursor) : option parsed :=
  if bool_decide (2 ≤ left c) then
    l ← read_suite_list wpa_selector_to_bitfield b c;
    match l with
    | None => Some (Stop (-4) ((data c) <| ie_pairwise_cipher := 0 |>))
    | Some (bits, c) => Some (Go (with_data c ((data c) <| ie_pairwise_cipher := bits |>)))
    end
  else if bool_decide (left c = 1) then Some (Stop (-5) (data c))
  else Some (Go c).

Definition wpa_parse_wpa_ie_wpa (wpa_ie : list Z) (wpa_ie_len : Z) :
    option (Z * wpa_ie_data) :=
  if bool_decide (wpa_ie_len < sizeof_wpa_ie_hdr) then Some (-1, wpa_defaults)
  else finish (parse_wpa_header wpa_ie wpa_ie_len wpa_defaults
                 ⨾ parse_wpa_group wpa_ie ⨾ parse_wpa_pairwise wpa_ie
                 ⨾ parse_key_mgmt wpa_key_mgmt_to_bitfield wpa_ie ⨾ parse_capabilities wpa_ie).

(** *** Either element *)
Definition wpa_parse_wpa_ie (wpa_ie : list Z) (wpa_ie_len : Z) : option (Z * wpa_ie_data) :=
  id ← (if bool_decide (1 ≤ wpa_ie_len) then rd wpa_ie 0 else Some 0);
  if bool_decide (1 ≤ wpa_ie_len) && bool_decide (id = WLAN_EID_RSN)
  then wpa_parse_wpa_ie_rsn wpa_ie wpa_ie_len
  else
    vendor ← (if bool_decide (6 ≤ wpa_ie_len) && bool_decide (id = WLAN_EID_VENDOR_SPECIFIC)
              then
                l ← rd wpa_ie 1;
                if bool_decide (4 ≤ l) then
                  ty ← WPA_GET_BE32 wpa_ie 2;
                  Some (bool_decide (ty ∈ [OSEN_IE_VENDOR_TYPE; RSNE_OVERRIDE_IE_VENDOR_TYPE;
                                           RSNE_OVERRIDE_2_IE_VENDOR_TYPE]))
                else Some false
              else Some false);
    if vendor : bool then wpa_parse_wpa_ie_rsn wpa_ie wpa_ie_len
    else wpa_parse_wpa_ie_wpa wpa_ie wpa_ie_len.

(** Arguments that are [NULL] are [None]. *)
Definition wpa_compare_rsn_ie (ft_initial_assoc : bool) (ie1 ie2 : option (list Z)) :
    option Z :=
  match ie1, ie2 with
  | Some ie1, Some ie2 =>
      if bool_decide (ie1 = ie2) then Some 0
      else if ft_initial_assoc then
        '(r1, d1) ← wpa_parse_wpa_ie_rsn ie1 (blen ie1);
        if bool_decide (r1 < 0) then Some (-1)
        else
          '(r2, d2) ← wpa_parse_wpa_ie_rsn ie2 (blen ie2);
          if bool_decide (r2 < 0) then Some (-1)
          else if bool_decide (ie_proto d1 = ie_proto d2) &&
                  bool_decide (ie_pairwise_cipher d1 = ie_pairwise_cipher d2) &&
                  bool_decide (ie_group_cipher d1 = ie_group_cipher d2) &&
                  bool_decide (ie_key_mgmt d1 = ie_key_mgmt d2) &&
                  bool_decide (ie_capabilities d1 = ie_capabilities d2) &&
                  bool_decide (ie_mgmt_group_cipher d1 = ie_mgmt_group_cipher d2)
          then Some 0
          else Some (-1)
      else Some (-1)
  | _, _ => Some (-1)
  end.

(** ** Generation

    [rsn_params] has the fields of struct wpa_sm that the generators use; the PMKID is
    the one of [cur_pmksa]. *)
Record rsn_params := mk_params {
  sm_proto : Z;
  sm_pairwise_cipher : Z;
  sm_group_cipher : Z;
  sm_key_mgmt : Z;
  sm_mgmt_group_cipher : Z;
  sm_mfp : Z;
  sm_ocv : bool;
  sm_ext_key_id : bool;
  sm_cur_pmkid : option (list Z);
  sm_sae_pwe : Z;
  sm_sae_pk : bool;
  sm_secure_ltf : bool;
  sm_secure_rtt : bool;
  sm_prot_range_neg : bool;
}.

Definition WPA_CAPABILITY_MFPR := BIT 6.
Definition WPA_CAPABILITY_MFPC := BIT 7.
Definition WPA_CAPABILITY_EXT_KEY_ID_FOR_UNICAST := BIT 13.
Definition WPA_CAPABILITY_OCVC := BIT 14.
Definition WLAN_RSNX_CAPAB_SAE_H2E := 5.
Definition WLAN_RSNX_CAPAB_SECURE_LTF := 8.
Definition WLAN_RSNX_CAPAB_SECURE_RTT := 9.
Definition WLAN_RSNX_CAPAB_PROT_RANGE_NEG := 10.

(** [if (c) x |= bit;] *)
Definition or_if (c : bool) (bit x : Z) : Z := if c then Z.lor x bit else x.

Definition rsn_supp_capab (sm : rsn_params) : Z :=
  or_if (sm_ext_key_id sm) WPA_CAPABILITY_EXT_KEY_ID_FOR_UNICAST
    (or_if (sm_ocv sm) WPA_CAPABILITY_OCVC
      (or_if (bool_decide (sm_mfp sm = 2)) WPA_CAPABILITY_MFPR
        (or_if (bool_decide (sm_mfp sm ≠ 0)) WPA_CAPABILITY_MFPC 0))).

(** The writer: the memory, and [pos] into it. *)
Definition writer : Type := list Z * Z.
Definition put (w : writer) (octets : list Z) : outcome writer :=
  b ← access (blit w.1 w.2 octets); Ret (b, w.2 + blen octets).
Definition put_selector (w : writer) (suite : Z) : outcome writer := put w (be32_bytes suite).

(** A [return -1] leaves what was written so far. *)
Definition gen_result : Type := Z * list Z.

(** Group cipher, [1, 0] and pairwise cipher, as both generators write them.  The
    inner [inl] is the early return. *)
Definition put_group_pairwise (proto pairwise_cipher group_cipher : Z) (w : writer) :
    outcome (list Z + writer) :=
  let suite := wpa_cipher_to_suite proto group_cipher in
  if bool_decide (suite = 0) then Ret (inl w.1)
  else
    w ← put_selector w suite;
    w ← put w [1; 0];
    let suite := wpa_cipher_to_suite proto pairwise_cipher in
    if bool_decide (suite = 0) ||
       (negb (wpa_cipher_valid_pairwise pairwise_cipher) &&
        bool_decide (pairwise_cipher ≠ WPA_CIPHER_NONE))
    then Ret (inl w.1)
    else
      w ← put_selector w suite;
      w ← put w [1; 0];
      Ret (inr w).

(** The selector that the generator writes for a key management suite, or [None]. *)
Definition wpa_gen_akm (key_mgmt : Z) : option Z :=
  if bool_decide (key_mgmt = WPA_KEY_MGMT_IEEE8021X) then Some WPA_AUTH_KEY_MGMT_UNSPEC_802_1X
  else if bool_decide (key_mgmt = WPA_KEY_MGMT_PSK)
  then Some WPA_AUTH_KEY_MGMT_PSK_OVER_802_1X
  else if bool_decide (key_mgmt = WPA_KEY_MGMT_WPA_NONE) then Some WPA_AUTH_KEY_MGMT_NONE
  else if bool_decide (key_mgmt = WPA_KEY_MGMT_CCKM) then Some WPA_AUTH_KEY_MGMT_CCKM
  else None.

Definition rsn_gen_akm (key_mgmt : Z) : option Z :=
  if bool_decide (key_mgmt = WPA_KEY_MGMT_IEEE8021X) then Some RSN_AUTH_KEY_MGMT_UNSPEC_802_1X
  else if bool_decide (key_mgmt = WPA_KEY_MGMT_PSK)
  then Some RSN_AUTH_KEY_MGMT_PSK_OVER_802_1X
  else if bool_decide (key_mgmt = WPA_KEY_MGMT_CCKM) then Some RSN_AUTH_KEY_MGMT_CCKM
  else if bool_decide (key_mgmt = WPA_KEY_MGMT_FT_IEEE8021X)
  then Some RSN_AUTH_KEY_MGMT_FT_802_1X
  else if bool_decide (key_mgmt = WPA_KEY_MGMT_FT_IEEE8021X_SHA384)
  then Some RSN_AUTH_KEY_MGMT_FT_802_1X_SHA384
  else if bool_decide (key_mgmt = WPA_KEY_MGMT_FT_PSK) then Some RSN_AUTH_KEY_MGMT_FT_PSK
  else if bool_decide (key_mgmt = WPA_KEY_MGMT_IEEE8021X_SHA256)
  then Some RSN_AUTH_KEY_MGMT_802_1X_SHA256
  else if bool_decide (key_mgmt = WPA_KEY_MGMT_PSK_SHA256)
  then Some RSN_AUTH_KEY_MGMT_PSK_SHA256
  else if bool_decide (key_mgmt = WPA_KEY_MGMT_SAE) then Some RSN_AUTH_KEY_MGMT_SAE
  else if bool_decide (key_mgmt = WPA_KEY_MGMT_SAE_EXT_KEY)
  then Some RSN_AUTH_KEY_MGMT_SAE_EXT_KEY
  else if bool_decide (key_mgmt = WPA_KEY_MGMT_FT_SAE) then Some RSN_AUTH_KEY_MGMT_FT_SAE
  else if bool_decide (key_mgmt = WPA_KEY_MGMT_IEEE8021X_SUITE_B_192)
  then Some RSN_AUTH_KEY_MGMT_802_1X_SUITE_B_192
  else if bool_decide (key_mgmt = WPA_KEY_MGMT_IEEE8021X_SUITE_B)
  then Some RSN_AUTH_KEY_MGMT_802_1X_SUITE_B
  else if any_of key_mgmt WPA_KEY_MGMT_DPP then Some RSN_AUTH_KEY_MGMT_DPP
  else None.

Definition wpa_gen_wpa_ie_wpa (wpa_ie : list Z) (wpa_ie_len : Z)
    (pairwise_cipher group_cipher key_mgmt : Z) : outcome gen_result :=
  if bool_decide (wpa_ie_len < sizeof_wpa_ie_hdr + WPA_SELECTOR_LEN + 2 + WPA_SELECTOR_LEN +
                               2 + WPA_SELECTOR_LEN)
  then Ret (-1, wpa_ie)
  else
    b ← access (wr wpa_ie 0 WLAN_EID_VENDOR_SPECIFIC);
    b ← access (RSN_SELECTOR_PUT b 2 WPA_OUI_TYPE);
    b ← access (WPA_PUT_LE16 b 6 WPA_VERSION);
    r ← put_group_pairwise WPA_PROTO_WPA pairwise_cipher group_cipher (b, sizeof_wpa_ie_hdr);
    match r, wpa_gen_akm key_mgmt with
    | inl b, _ => Ret (-1, b)
    | inr w, None => Ret (-1, w.1)
    | inr w, Some suite =>
        w ← put_selector w suite;
        b ← access (wr w.1 1 (u8 (w.2 - 2)));
        Ret (w.2, b)
    end.

Definition wpa_gen_wpa_ie_rsn (rsn_ie : list Z) (rsn_ie_len : Z)
    (pairwise_cipher group_cipher key_mgmt mgmt_group_cipher : Z) (sm : rsn_params) :
    outcome gen_result :=
  if bool_decide (rsn_ie_len < sizeof_rsn_ie_hdr + RSN_SELECTOR_LEN + 2 + RSN_SELECTOR_LEN + 2 +
                  RSN_SELECTOR_LEN + 2 +
                  (if sm_cur_pmkid sm is Some _ then 2 + PMKID_LEN else 0))
  then Ret (-1, rsn_ie)
  else
    b ← access (wr rsn_ie 0 WLAN_EID_RSN);
    b ← access (WPA_PUT_LE16 b 2 RSN_VERSION);
    r ← put_group_pairwise WPA_PROTO_RSN pairwise_cipher group_cipher (b, sizeof_rsn_ie_hdr);
    match r, rsn_gen_akm key_mgmt with
    | inl b, _ => Ret (-1, b)
    | inr w, None => Ret (-1, w.1)
    | inr w, Some suite =>
        w ← put_selector w suite;
        w ← put w (le16_bytes (rsn_supp_capab sm));
        w ← (match sm_cur_pmkid sm with
             | Some pmkid => w ← put w [1; 0]; put w pmkid
             | None => Ret w
             end);
        w ← (if wpa_cipher_valid_mgmt_group mgmt_group_cipher then
               w ← (if sm_cur_pmkid sm is Some _ then Ret w else put w (le16_bytes 0));
               put_selector w (wpa_cipher_to_suite WPA_PROTO_RSN mgmt_group_cipher)
             else Ret w);
        b ← access (wr w.1 1 (u8 (w.2 - 2)));
        Ret (w.2, b)
    end.

Definition wpa_gen_wpa_ie (sm : rsn_params) (wpa_ie : list Z) (wpa_ie_len : Z) :
    outcome gen_result :=
  if bool_decide (sm_proto sm = WPA_PROTO_RSN)
  then wpa_gen_wpa_ie_rsn wpa_ie wpa_ie_len (sm_pairwise_cipher sm) (sm_group_cipher sm)
         (sm_key_mgmt sm) (sm_mgmt_group_cipher sm) sm
  else wpa_gen_wpa_ie_wpa wpa_ie wpa_ie_len (sm_pairwise_cipher sm) (sm_group_cipher sm)
         (sm_key_mgmt sm).

Definition rsnxe_capab (sm : rsn_params) : Z :=
  or_if (sm_prot_range_neg sm) (BIT WLAN_RSNX_CAPAB_PROT_RANGE_NEG)
    (or_if (sm_secure_rtt sm) (BIT WLAN_RSNX_CAPAB_SECURE_RTT)
      (or_if (sm_secure_ltf sm) (BIT WLAN_RSNX_CAPAB_SECURE_LTF)
        (or_if (wpa_key_mgmt_sae (sm_key_mgmt sm) &&
                (bool_decide (sm_sae_pwe sm = 1) || bool_decide (sm_sae_pwe sm = 2) ||
                 sm_sae_pk sm))
           (BIT WLAN_RSNX_CAPAB_SAE_H2E) 0))).

Definition wpa_gen_rsnxe (sm : rsn_params) (rsnxe : list Z) (rsnxe_len : Z) :
    outcome gen_result :=
  let capab := rsnxe_capab sm in
  let flen := if any_of capab 0xff00 then 2 else 1 in
  if bool_decide (capab = 0) then Ret (0, rsnxe)
  else if bool_decide (rsnxe_len < 2 + flen) then Ret (-1, rsnxe)
  else
    let capab := Z.lor capab (flen - 1) in
    w ← put (rsnxe, 0) [WLAN_EID_RSNX; flen; Z.land capab 0x00ff];
    let capab := Z.shiftr capab 8 in
    w ← (if bool_decide (capab ≠ 0) then put w [capab] else Ret w);
    Ret (w.2, w.1).

(** ** Inserting a PMKID *)

(** [while (start < end)]: the offset of the first RSN element.  [fuel] bounds the
    passes; an element is two octets or more, so [ies_len] of them are enough. *)
Fixpoint find_rsne (fuel : nat) (ies : list Z) (start end_ : Z) : option Z :=
  if bool_decide (start < end_) then
    match fuel with
    | O => None
    | S fuel =>
        id ← rd ies start;
        if bool_decide (id = WLAN_EID_RSN) then Some start
        else l ← rd ies (start + 1); find_rsne fuel ies (start + (2 + l)) end_
    end
  else Some start.

(** [os_memmove(ies + dst, ies + src, n)] *)
Definition memmove (ies : list Z) (dst src n : Z) : option (list Z) :=
  s ← slice ies src n; blit ies dst s.

(** [start[1] += n] *)
Definition add_len (ies : list Z) (start n : Z) : option (list Z) :=
  l ← rd ies (start + 1); wr ies (start + 1) (u8 (l + n)).

(** The part that deals with the PMKID list at [rpos], with [added] octets added
    before; the result is the return value, the memory and the octets added. *)
Definition put_pmkid (ies : list Z) (start rpos rend end_ added : Z) (pmkid : list Z) :
    option (Z * list Z * Z) :=
  if bool_decide (rpos = rend) then
    ies ← memmove ies (rpos + 2 + PMKID_LEN) rpos (end_ + added - rpos);
    ies ← WPA_PUT_LE16 ies rpos 1;
    ies ← blit ies (rpos + 2) pmkid;
    ies ← add_len ies start (2 + PMKID_LEN);
    Some (0, ies, added + (2 + PMKID_LEN))
  else if bool_decide (rend - rpos < 2) then Some (-1, ies, added)
  else
    num_pmkid ← WPA_GET_LE16 ies rpos;
    if bool_decide (num_pmkid ≠ 0) && bool_decide (rend - rpos - 2 < num_pmkid * PMKID_LEN)
    then Some (-1, ies, added)
    else
      '(ies, added) ← (if bool_decide (num_pmkid ≠ 0) then
                          let after := rpos + 2 + num_pmkid * PMKID_LEN in
                          ies ← memmove ies (rpos + 2) after (end_ - after);
                          ies ← add_len ies start (- (num_pmkid * PMKID_LEN));
                          Some (ies, added - num_pmkid * PMKID_LEN)
                        else Some (ies, added));
      ies ← WPA_PUT_LE16 ies rpos 1;
      let rpos := rpos + 2 in
      ies ← memmove ies (rpos + PMKID_LEN) rpos (end_ + added - rpos);
      ies ← blit ies rpos pmkid;
      ies ← add_len ies start PMKID_LEN;
      Some (0, ies, added + PMKID_LEN).

(** The result is the return value, the memory and [*ies_len]. *)
Definition wpa_insert_pmkid (ies : list Z) (ies_len : Z) (pmkid : list Z) :
    option (Z * list Z * Z) :=
  let end_ := ies_len in
  start ← find_rsne (Z.to_nat ies_len) ies 0 end_;
  if bool_decide (end_ ≤ start) then Some (-1, ies, ies_len)
  else
    l ← rd ies (start + 1);
    let rpos := start + 2 in
    let rend := rpos + l in
    let rpos := rpos + (2 + 4) in
    n ← WPA_GET_LE16 ies rpos;
    let rpos := rpos + (2 + n * RSN_SELECTOR_LEN) in
    n ← WPA_GET_LE16 ies rpos;
    let rpos := rpos + (2 + n * RSN_SELECTOR_LEN) in
    if bool_decide (rpos = rend) then
      ies ← memmove ies (rpos + 2) rpos (end_ - rpos);
      ies ← blit ies rpos [0; 0];
      ies ← add_len ies start 2;
      '(r, ies, added) ← put_pmkid ies start (rpos + 2) (rpos + 2) end_ 2 pmkid;
      Some (r, ies, if bool_decide (r = 0) then ies_len + added else ies_len)
    else
      let rpos := rpos + 2 in
      if bool_decide (rend < rpos) then Some (-1, ies, ies_len)
      else
        '(r, ies, added) ← put_pmkid ies start rpos rend end_ 0 pmkid;
        Some (r, ies, if bool_decide (r = 0) then ies_len + added else ies_len).
