(* ===== verification/RsnProofs.v ===== *)
(** Properties of the WPA and RSN elements (RsnIe)

    A reference grammar of the RSN element, the parser as its exact recognizer, the
    round trip from the generators, and the effect of inserting a PMKID. *)
From S2P Require Import Prelude Bytes Defs Suites RsnIe.

Abbreviation word z := (0 ≤ z < 4294967296).
Abbreviation half z := (0 ≤ z < 65536).

(** ** Lists of suites *)
Section suites.
Variable to_bitfield : list Z → Z → option Z.
Variable decode : Z → Z.
Hypothesis to_bitfield_decodes :
  ∀ b s, to_bitfield b s = (v ← RSN_SELECTOR_GET b s; Some (decode v)).

Definition bits_of (acc : Z) (l : list Z) : Z := fold_left (λ a v, Z.lor a (decode v)) l acc.

Lemma decode_at p v s : word v → to_bitfield (p ++ be32_bytes v ++ s) (blen p) = Some (decode v).
Proof.
  intros. rewrite to_bitfield_decodes. unfold RSN_SELECTOR_GET.
  by rewrite get_be32_app by (lia || done).
Qed.

Lemma read_suites_list l : ∀ p s acc, Forall (λ v, word v) l →
  read_suites to_bitfield (p ++ flat_map be32_bytes l ++ s) (length l) (blen p) acc =
  Some (bits_of acc l).
Proof.
  induction l as [|v l IH]; intros p s acc; [done|].
  intros [Hv Hl]%Forall_cons. cbn [flat_map length read_suites].
  rewrite <- (assoc_L (++)), decode_at by done. cbn [mbind option_bind].
  assert (E : blen p + RSN_SELECTOR_LEN = blen (p ++ be32_bytes v)).
  { rewrite length_app. change (length (be32_bytes v)) with 4%nat. unfold RSN_SELECTOR_LEN. lia. }
  rewrite E, (assoc_L (++)). by apply IH.
Qed.

(** The octets of a count and a list of suites. *)
Definition suites_octets (l : list Z) : list Z :=
  le16_bytes (blen l) ++ flat_map be32_bytes l.

Lemma flat_map_be32_length l : length (flat_map be32_bytes l) = (4 * length l)%nat.
Proof. induction l; simpl; lia. Qed.

Lemma suites_octets_length l : blen (suites_octets l) = 2 + 4 * blen l.
Proof. unfold suites_octets. rewrite length_app, flat_map_be32_length. simpl. lia. Qed.

(** The count that the C code accepts. *)
Definition suites_ok (l : list Z) : Prop := l ≠ [] ∧ Forall (λ v, word v) l ∧ blen l < 65536.

Lemma read_suite_list_at p l s d : suites_ok l →
  read_suite_list to_bitfield (p ++ suites_octets l ++ s)
    (mk_cursor (blen p) (blen (suites_octets l ++ s)) d) =
  Some (Some (bits_of 0 l, mk_cursor (blen (p ++ suites_octets l)) (blen s) d)).
Proof.
  intros (Hne & Hl & Hlen). unfold read_suite_list. cbn [pos left data].
  rewrite !length_app, !Nat2Z.inj_add, suites_octets_length. unfold suites_octets.
  rewrite <- (assoc_L (++)), get_le16_app by lia. cbn [mbind option_bind].
  assert (blen l ≠ 0) by (destruct l; simpl; [done|lia]).
  rewrite !bool_decide_eq_false_2; [|unfold RSN_SELECTOR_LEN; div_lia|done]. cbn [orb].
  assert (E : blen p + 2 = blen (p ++ le16_bytes (blen l))) by (rewrite length_app; simpl; lia).
  rewrite E, (assoc_L (++)), Nat2Z.id, read_suites_list by done. cbn [mbind option_bind].
  rewrite length_app. unfold RSN_SELECTOR_LEN. do 3 f_equal.
  f_equal; simpl; lia.
Qed.

(** Two octets or more start with a count; it is refused, or the list is there. *)
Lemma be32_list_split (n : nat) : ∀ s, bytes_ok s → 4 * Z.of_nat n ≤ blen s →
  ∃ l s', length l = n ∧ Forall (λ v, word v) l ∧ s = flat_map be32_bytes l ++ s'.
Proof.
  induction n as [|n IH]; intros s Hok Hlen; [by exists [], s|].
  destruct (be32_split s) as (v & s1 & Hv & ->); [done|lia|].
  apply Forall_app in Hok as [_ Hok]. rewrite length_app in Hlen. simpl in Hlen.
  destruct (IH s1) as (l & s' & <- & Hl & ->); [done|lia|].
  exists (v :: l), s'. split_and!; [done|by constructor|]. simpl. done.
Qed.

Lemma read_suite_list_cases p s d : bytes_ok s → 2 ≤ blen s →
  read_suite_list to_bitfield (p ++ s) (mk_cursor (blen p) (blen s) d) = Some None ∨
  ∃ l s', suites_ok l ∧ s = suites_octets l ++ s'.
Proof.
  intros Hok Hlen. destruct (le16_split s) as (n & s1 & Hn & ->); [done..|].
  destruct (decide (n = 0 ∨ blen s1 / 4 < n)) as [Hbad|Hgood].
  - left. unfold read_suite_list. cbn [pos left]. rewrite get_le16_app by lia.
    cbn [mbind option_bind]. rewrite length_app.
    destruct Hbad as [->|Hbad]; [done|].
    rewrite (bool_decide_eq_true_2 (_ < n)), orb_true_r; [done|].
    unfold RSN_SELECTOR_LEN. simpl. by replace (Z.of_nat _ - 2) with (blen s1) by lia.
  - right. apply Forall_app in Hok as [_ Hok].
    destruct (be32_list_split (Z.to_nat n) s1) as (l & s' & Hln & Hl & ->); [done|div_lia|].
    exists l, s'. split.
    + split_and!; [intros ->; simpl in Hln; lia|done|lia].
    + unfold suites_octets. rewrite <- (assoc_L (++)). by replace (blen l) with n by lia.
Qed.

End suites.

(** ** Parts of an element

    A part [st] of a parser reads the octets [oct x] of a value [x] and updates the
    data with [upd]; [ok x s] says that [x] may be followed by [s], and [codes] are its
    error codes.  Parts in sequence are a part. *)
Record part {X} (st : list Z → cursor → option parsed) (oct : X → list Z)
    (ok : X → list Z → Prop) (upd : Z → X → wpa_ie_data → wpa_ie_data) (codes : list Z) : Prop :=
  mk_part {
  part_at : ∀ p x s d, ok x s →
    st (p ++ oct x ++ s) (mk_cursor (blen p) (blen (oct x ++ s)) d) =
    Some (Go (mk_cursor (blen (p ++ oct x)) (blen s) (upd (blen p) x d)));
  part_cases : ∀ p s d, bytes_ok s →
    (∃ ret d', st (p ++ s) (mk_cursor (blen p) (blen s) d) = Some (Stop ret d') ∧ ret ∈ codes) ∨
    ∃ x s', ok x s' ∧ s = oct x ++ s';
}.

Lemma part_seq {X Y} st1 st2 (oct1 : X → list Z) (oct2 : Y → list Z) ok1 ok2 upd1 upd2 codes1 codes2 :
  part st1 oct1 ok1 upd1 codes1 → part st2 oct2 ok2 upd2 codes2 →
  part (λ b c, st1 b c ⨾ st2 b) (λ xy, oct1 xy.1 ++ oct2 xy.2)
    (λ xy s, ok1 xy.1 (oct2 xy.2 ++ s) ∧ ok2 xy.2 s)
    (λ pos xy d, upd2 (pos + blen (oct1 xy.1)) xy.2 (upd1 pos xy.1 d))
    (codes1 ++ codes2).
Proof.
  intros P1 P2. split.
  - intros p [x y] s d [H1 H2]. cbn [fst snd] in *.
    rewrite <- (assoc_L (++)), (part_at _ _ _ _ _ P1) by done. cbn [then_parse].
    rewrite (assoc_L (++)), (part_at _ _ _ _ _ P2) by done.
    by rewrite <- (assoc_L (++)), (length_app p (oct1 x)), Nat2Z.inj_add.
  - intros p s d Hok.
    destruct (part_cases _ _ _ _ _ P1 p s d Hok) as [(ret & d' & -> & Hr)|(x & s1 & H1 & ->)].
    { left. exists ret, d'. split; [done|]. set_solver. }
    apply Forall_app in Hok as [Hx Hok].
    rewrite (part_at _ _ _ _ _ P1) by done. cbn [then_parse].
    destruct (part_cases _ _ _ _ _ P2 (p ++ oct1 x) s1 (upd1 (blen p) x d) Hok)
      as [(ret & d' & E & Hr)|(y & s' & H2 & ->)].
    { left. rewrite (assoc_L (++)), E. exists ret, d'. split; [done|]. set_solver. }
    right. exists (x, y), s'. cbn [fst snd]. by rewrite (assoc_L (++)).
Qed.

(** *** The optional parts *)
Definition opt_octets {A} (f : A → list Z) (o : option A) : list Z :=
  match o with Some a => f a | None => [] end.
Definition opt_ok {A} (P : A → Prop) (o : option A) : Prop :=
  match o with Some a => P a | None => True end.
Definition opt_set {A} (f : A → wpa_ie_data → wpa_ie_data) (_ : Z) (o : option A)
    (d : wpa_ie_data) : wpa_ie_data :=
  match o with Some a => f a d | None => d end.

(** Absent only when fewer than [n] octets follow. *)
Definition munch {A} (n : Z) (P : A → Prop) (o : option A) (s : list Z) : Prop :=
  opt_ok P o ∧ (o = None → blen s < n).

Lemma part_key_mgmt to_bitfield decode :
  (∀ b s, to_bitfield b s = (v ← RSN_SELECTOR_GET b s; Some (decode v))) →
  part (parse_key_mgmt to_bitfield) (opt_octets suites_octets) (munch 1 suites_ok)
    (opt_set (λ l d, d <| ie_key_mgmt := bits_of decode 0 l |>)) [-6; -7].
Proof.
  intros Hd. split.
  - intros p x s d [Hx Hs]. unfold parse_key_mgmt.
    destruct x as [l|]; cbn [opt_octets opt_ok opt_set] in *.
    + rewrite bool_decide_eq_true_2.
      * by rewrite (read_suite_list_at _ _ Hd).
      * cbn [left]. rewrite length_app, Nat2Z.inj_add, suites_octets_length. lia.
    + destruct s; [by rewrite !app_nil_r|]. simpl in Hs. specialize (Hs eq_refl). lia.
  - intros p s d Hok. unfold parse_key_mgmt. cbn [left].
    destruct (decide (blen s = 0)).
    { right. exists None, s. repeat split; intros; lia. }
    destruct (decide (blen s = 1)) as [E|].
    { left. rewrite E. simpl. eexists _, _. split; [done|]. set_solver. }
    destruct (read_suite_list_cases to_bitfield p s d) as [E|(l & s' & Hl & ->)]; [done|lia| |].
    + left. rewrite bool_decide_eq_true_2 by lia. rewrite E. simpl.
      eexists _, _. split; [done|]. set_solver.
    + right. exists (Some l), s'. split; [by split|done].
Qed.

Lemma part_capabilities :
  part parse_capabilities (opt_octets le16_bytes) (munch 2 (λ v, half v))
    (opt_set (λ v d, d <| ie_capabilities := v |>)) [].
Proof.
  split.
  - intros p x s d [Hx Hs]. unfold parse_capabilities.
    destruct x as [v|]; cbn [opt_octets opt_ok opt_set left pos data] in *.
    + rewrite bool_decide_eq_true_2 by (rewrite length_app; simpl; lia).
      rewrite get_le16_app by lia. cbn [mbind option_bind].
      do 2 f_equal. rewrite !length_app. f_equal; simpl; lia.
    + rewrite bool_decide_eq_false_2 by (simpl; specialize (Hs eq_refl); lia).
      by rewrite app_nil_r.
  - intros p s d Hok. right. destruct (decide (blen s < 2)).
    { exists None, s. repeat split; auto. }
    destruct (le16_split s) as (v & s' & Hv & ->); [done|lia|].
    exists (Some v), s'. split; [by split|done].
Qed.

Lemma part_rsn_group :
  part parse_rsn_group (opt_octets be32_bytes)
    (munch 1 (λ g, word g ∧ wpa_cipher_valid_group (rsn_suite_cipher g) = true))
    (opt_set (λ g d, d <| ie_group_cipher := rsn_suite_cipher g |> <| ie_has_group := true |>))
    [-1; -3].
Proof.
  split.
  - intros p x s d [Hx Hs]. unfold parse_rsn_group.
    destruct x as [g|]; cbn [opt_octets opt_ok opt_set left pos data] in *.
    + destruct Hx as [Hg Hv].
      rewrite bool_decide_eq_true_2 by (rewrite length_app; simpl; unfold RSN_SELECTOR_LEN; lia).
      rewrite (decode_at _ rsn_suite_cipher) by done. cbn [mbind option_bind].
      rewrite Hv. cbn [negb].
      do 2 f_equal. rewrite !length_app. unfold RSN_SELECTOR_LEN. f_equal; simpl; lia.
    + destruct s; [by rewrite !app_nil_r|]. simpl in Hs. specialize (Hs eq_refl). lia.
  - intros p s d Hok. unfold parse_rsn_group. cbn [left pos data].
    destruct (decide (blen s = 0)).
    { right. exists None, s. repeat split; intros; lia. }
    destruct (decide (blen s < 4)) as [E|].
    { left. rewrite bool_decide_eq_false_2 by (unfold RSN_SELECTOR_LEN; lia).
      rewrite bool_decide_eq_true_2 by lia. eexists _, _. split; [done|]. set_solver. }
    destruct (be32_split s) as (g & s' & Hg & ->); [done|lia|].
    destruct (wpa_cipher_valid_group (rsn_suite_cipher g)) eqn:Hv.
    { right. exists (Some g), s'. split; [by split|done]. }
    left. rewrite bool_decide_eq_true_2 by (unfold RSN_SELECTOR_LEN; lia).
    rewrite (decode_at _ rsn_suite_cipher) by done. cbn [mbind option_bind]. rewrite Hv.
    eexists _, _. split; [done|]. set_solver.
Qed.

Lemma part_rsn_mgmt_group :
  part parse_rsn_mgmt_group (opt_octets be32_bytes)
    (munch 4 (λ g, word g ∧ wpa_cipher_valid_mgmt_group (rsn_suite_cipher g) = true))
    (opt_set (λ g d, d <| ie_mgmt_group_cipher := rsn_suite_cipher g |>)) [-10].
Proof.
  split.
  - intros p x s d [Hx Hs]. unfold parse_rsn_mgmt_group.
    destruct x as [g|]; cbn [opt_octets opt_ok opt_set left pos data] in *.
    + destruct Hx as [Hg Hv].
      rewrite bool_decide_eq_true_2 by (rewrite length_app; simpl; lia).
      rewrite (decode_at _ rsn_suite_cipher) by done. cbn [mbind option_bind].
      rewrite Hv. cbn [negb].
      do 2 f_equal. rewrite !length_app. unfold RSN_SELECTOR_LEN. f_equal; simpl; lia.
    + rewrite bool_decide_eq_false_2 by (simpl; specialize (Hs eq_refl); lia).
      by rewrite app_nil_r.
  - intros p s d Hok. unfold parse_rsn_mgmt_group. cbn [left pos data].
    destruct (decide (blen s < 4)).
    { right. exists None, s. repeat split; auto. }
    destruct (be32_split s) as (g & s' & Hg & ->); [done|lia|].
    destruct (wpa_cipher_valid_mgmt_group (rsn_suite_cipher g)) eqn:Hv.
    { right. exists (Some g), s'. split; [by split|done]. }
    left. rewrite bool_decide_eq_true_2 by lia.
    rewrite (decode_at _ rsn_suite_cipher) by done. cbn [mbind option_bind]. rewrite Hv.
    eexists _, _. split; [done|]. set_solver.
Qed.

(** The PMKID list, each PMKID of sixteen octets. *)
Definition pmkids_octets (l : list (list Z)) : list Z := le16_bytes (blen l) ++ concat l.
Definition pmkids_ok (l : list (list Z)) : Prop :=
  Forall (λ k, length k = 16%nat) l ∧ blen l < 65536.

Lemma concat_16_length (l : list (list Z)) :
  Forall (λ k, length k = 16%nat) l → blen (concat l) = 16 * blen l.
Proof. induction 1 as [|k l Hk _ IH]; [done|]. simpl. rewrite length_app, Hk. lia. Qed.

Lemma concat_16_split (n : nat) : ∀ s : list Z, (16 * n ≤ length s)%nat →
  ∃ l s', length l = n ∧ Forall (λ k, length k = 16%nat) l ∧ s = concat l ++ s'.
Proof.
  induction n as [|m IH]; intros s Hs; [by exists [], s|].
  destruct (IH (drop 16 s)) as (l & s' & <- & Hl & E); [rewrite length_drop; lia|].
  exists (take 16 s :: l), s'. split_and!; [done|constructor; [rewrite length_take; lia|done]|].
  simpl. by rewrite <- (assoc_L (++)), <- E, take_drop.
Qed.

Lemma part_rsn_pmkids :
  part parse_rsn_pmkids (opt_octets pmkids_octets) (munch 2 pmkids_ok)
    (λ pos x d, match x with
                | Some l => d <| ie_num_pmkid := blen l |> <| ie_pmkid := Some (pos + 2) |>
                | None => d
                end) [-9].
Proof.
  split.
  - intros p x s d [Hx Hs]. unfold parse_rsn_pmkids.
    destruct x as [l|]; cbn [opt_octets opt_ok left pos data] in *.
    + destruct Hx as [Hl Hn]. unfold pmkids_octets.
      pose proof (concat_16_length l Hl).
      rewrite bool_decide_eq_true_2 by (rewrite !length_app; simpl; lia).
      rewrite <- (assoc_L (++)), get_le16_app by lia. cbn [mbind option_bind].
      rewrite !length_app, !Nat2Z.inj_add.
      rewrite bool_decide_eq_false_2 by (unfold PMKID_LEN; simpl length; div_lia).
      unfold PMKID_LEN. do 2 f_equal. f_equal; simpl length; lia.
    + rewrite bool_decide_eq_false_2 by (simpl; specialize (Hs eq_refl); lia).
      by rewrite app_nil_r.
  - intros p s d Hok. unfold parse_rsn_pmkids. cbn [left pos data].
    destruct (decide (blen s < 2)).
    { right. exists None, s. repeat split; auto. }
    destruct (le16_split s) as (k & s1 & Hn & ->); [done|lia|].
    destruct (decide (blen s1 / 16 < k)).
    + left. rewrite bool_decide_eq_true_2 by lia. rewrite get_le16_app by lia.
      cbn [mbind option_bind]. rewrite length_app.
      rewrite (bool_decide_eq_true_2 (_ < k)).
      * eexists _, _. split; [done|]. set_solver.
      * unfold PMKID_LEN. simpl. by replace (Z.of_nat _ - 2) with (blen s1) by lia.
    + right. destruct (concat_16_split (Z.to_nat k) s1) as (l & s' & Hln & Hl & ->); [div_lia|].
      exists (Some l), s'. split; [split; [split; [done|lia]|done]|].
      cbn [opt_octets]. unfold pmkids_octets. rewrite <- (assoc_L (++)).
      by replace (blen l) with k by lia.
Qed.

Lemma part_rsn_pairwise :
  part parse_rsn_pairwise (opt_octets suites_octets)
    (munch 1 (λ l, suites_ok l ∧
       any_of (bits_of rsn_suite_cipher 0 l) WPA_CIPHER_AES_128_CMAC = false))
    (opt_set (λ l d, d <| ie_has_pairwise := true |>
                       <| ie_pairwise_cipher := bits_of rsn_suite_cipher 0 l |>))
    [-4; -1; -5].
Proof.
  assert (Hd : ∀ b s, rsn_selector_to_bitfield b s =
                      (v ← RSN_SELECTOR_GET b s; Some (rsn_suite_cipher v))) by done.
  split.
  - intros p x s d [Hx Hs]. unfold parse_rsn_pairwise.
    destruct x as [l|]; cbn [opt_octets opt_ok opt_set] in *.
    + destruct Hx as [Hl Hc]. rewrite bool_decide_eq_true_2.
      * rewrite (read_suite_list_at _ _ Hd) by done. cbn [mbind option_bind]. by rewrite Hc.
      * cbn [left]. rewrite length_app, Nat2Z.inj_add, suites_octets_length. lia.
    + destruct s; [by rewrite !app_nil_r|]. simpl in Hs. specialize (Hs eq_refl). lia.
  - intros p s d Hok. unfold parse_rsn_pairwise. cbn [left].
    destruct (decide (blen s = 0)).
    { right. exists None, s. repeat split; intros; lia. }
    destruct (decide (blen s = 1)) as [E|].
    { left. rewrite E. simpl. eexists _, _. split; [done|]. set_solver. }
    destruct (read_suite_list_cases rsn_selector_to_bitfield p s d)
      as [E|(l & s' & Hl & ->)]; [done|lia| |].
    + left. rewrite bool_decide_eq_true_2 by lia. rewrite E. simpl.
      eexists _, _. split; [done|]. set_solver.
    + destruct (any_of (bits_of rsn_suite_cipher 0 l) WPA_CIPHER_AES_128_CMAC) eqn:Hc.
      * left. rewrite bool_decide_eq_true_2 by lia.
        rewrite (read_suite_list_at _ _ Hd) by done. cbn [mbind option_bind]. rewrite Hc.
        eexists _, _. split; [done|]. set_solver.
      * right. exists (Some l), s'. split; [by split|done].
Qed.

(** ** The grammar of the RSN element

    The optional parts after the version field, as selectors and integers. *)
Record rsne := mk_rsne {
  r_group : option Z;
  r_pairwise : option (list Z);
  r_akms : option (list Z);
  r_capab : option Z;
  r_pmkids : option (list (list Z));
  r_mgmt : option Z;
}.

Definition rsne_octets (e : rsne) : list Z :=
  ((((opt_octets be32_bytes (r_group e) ++ opt_octets suites_octets (r_pairwise e)) ++
     opt_octets suites_octets (r_akms e)) ++ opt_octets le16_bytes (r_capab e)) ++
   opt_octets pmkids_octets (r_pmkids e)) ++ opt_octets be32_bytes (r_mgmt e).

(** An element is well-formed before the octets [rest]: each part is in range, its
    ciphers are those that may be used there, and it is absent only when what follows
    is too short for it. *)
Definition rsne_ok (e : rsne) (rest : list Z) : Prop :=
  let s5 := opt_octets be32_bytes (r_mgmt e) ++ rest in
  let s4 := opt_octets pmkids_octets (r_pmkids e) ++ s5 in
  let s3 := opt_octets le16_bytes (r_capab e) ++ s4 in
  let s2 := opt_octets suites_octets (r_akms e) ++ s3 in
  let s1 := opt_octets suites_octets (r_pairwise e) ++ s2 in
  (((((munch 1 (λ g, word g ∧ wpa_cipher_valid_group (rsn_suite_cipher g) = true) (r_group e) s1 ∧
       munch 1 (λ l, suites_ok l ∧
         any_of (bits_of rsn_suite_cipher 0 l) WPA_CIPHER_AES_128_CMAC = false)
         (r_pairwise e) s2) ∧
      munch 1 suites_ok (r_akms e) s3) ∧
     munch 2 (λ v, half v) (r_capab e) s4) ∧
    munch 2 pmkids_ok (r_pmkids e) s5) ∧
   munch 4 (λ g, word g ∧ wpa_cipher_valid_mgmt_group (rsn_suite_cipher g) = true)
     (r_mgmt e) rest).

(** What the element says, when its parts start at [start]. *)
Definition rsne_data (start : Z) (e : rsne) (d : wpa_ie_data) : wpa_ie_data :=
  let before_pmkids :=
    ((opt_octets be32_bytes (r_group e) ++ opt_octets suites_octets (r_pairwise e)) ++
     opt_octets suites_octets (r_akms e)) ++ opt_octets le16_bytes (r_capab e) in
  let bits f o default := match o with Some l => bits_of f 0 l | None => default end in
  mk_ie_data (ie_proto d)
    (bits rsn_suite_cipher (r_pairwise e) (ie_pairwise_cipher d))
    (if r_pairwise e is Some _ then true else ie_has_pairwise d)
    (from_option rsn_suite_cipher (ie_group_cipher d) (r_group e))
    (if r_group e is Some _ then true else ie_has_group d)
    (bits rsn_suite_key_mgmt (r_akms e) (ie_key_mgmt d))
    (default (ie_capabilities d) (r_capab e))
    (match r_pmkids e with Some l => blen l | None => ie_num_pmkid d end)
    (if r_pmkids e is Some _ then Some (start + blen before_pmkids + 2) else ie_pmkid d)
    (from_option rsn_suite_cipher (ie_mgmt_group_cipher d) (r_mgmt e)).

(** The parts after the header, in the order of the parser. *)
Definition parse_rsn_body (b : list Z) (c : cursor) : option parsed :=
  parse_rsn_group b c ⨾ parse_rsn_pairwise b ⨾ parse_key_mgmt rsn_key_mgmt_to_bitfield b
    ⨾ parse_capabilities b ⨾ parse_rsn_pmkids b ⨾ parse_rsn_mgmt_group b.

Definition rsn_codes : list Z := [-1; -2; -3; -4; -5; -6; -7; -9; -10].

Lemma codes_negative r : r ∈ rsn_codes → r < 0.
Proof. revert r. apply Forall_forall. repeat constructor. Qed.

Lemma part_rsn_body :
  part parse_rsn_body rsne_octets rsne_ok rsne_data rsn_codes.
Proof.
  assert (Hk : ∀ b s, rsn_key_mgmt_to_bitfield b s =
                      (v ← RSN_SELECTOR_GET b s; Some (rsn_suite_key_mgmt v))) by done.
  pose proof (part_seq _ _ _ _ _ _ _ _ _ _ (part_seq _ _ _ _ _ _ _ _ _ _
    (part_seq _ _ _ _ _ _ _ _ _ _ (part_seq _ _ _ _ _ _ _ _ _ _ (part_seq _ _ _ _ _ _ _ _ _ _
      part_rsn_group part_rsn_pairwise) (part_key_mgmt _ _ Hk)) part_capabilities)
      part_rsn_pmkids) part_rsn_mgmt_group) as [Hat Hcases].
  split.
  - intros p e s d He.
    specialize (Hat p (r_group e, r_pairwise e, r_akms e, r_capab e, r_pmkids e, r_mgmt e) s d He).
    etransitivity; [exact Hat|]. do 3 f_equal.
    destruct e as [g pw k c pm m], d, g, pw, k, c, pm, m; reflexivity.
  - intros p s d Hok. destruct (Hcases p s d Hok)
      as [(ret & d' & E & Hr)|([[[[[g pw] k] c] pm] m] & s' & Hx & E)].
    + left. exists ret, d'. split; [exact E|].
      eapply (proj1 (Forall_forall (.∈ rsn_codes) _)), Hr.
      cbn [app]. unfold rsn_codes. repeat constructor.
    + right. by exists (mk_rsne g pw k c pm m), s'.
Qed.

(** ** The RSN parser *)

(** The parser of a whole element is one of the headers, then the body. *)
Lemma rsn_parse_body b len : 4 ≤ len → wpa_parse_wpa_ie_rsn b len =
  finish (h ← parse_rsn_header b len rsn_defaults;
          match h with Go c => parse_rsn_body b c | Stop r d => Some (Stop r d) end).
Proof.
  intros. unfold wpa_parse_wpa_ie_rsn. rewrite !bool_decide_eq_false_2 by (unfold sizeof_rsn_ie_hdr; lia).
  by destruct (parse_rsn_header b len rsn_defaults) as [[]|].
Qed.

Definition rsne_header (n : Z) : list Z := [WLAN_EID_RSN; n + 2; 1; 0].

Lemma vendor_header_cases b n m types :
  bytes_ok b → 6 ≤ n →
  ∃ r, vendor_header b (blen b) n m types = Some r ∧ (r = true → n ≤ blen b).
Proof.
  intros Hb Hn. unfold vendor_header. case_bool_decide; [|by exists false].
  destruct (rd_in b 1) as [l ->]; [lia|]. cbn [mbind option_bind].
  case_bool_decide; [|by exists false].
  destruct (WPA_GET_BE32_in b 2) as [v ->]; [lia..|]. cbn [mbind option_bind]. eauto.
Qed.

(** Every header is read inside the element, and leaves a position inside it. *)
Definition at_body (b : list Z) (r : option parsed) : Prop :=
  ∃ p s d, b = p ++ s ∧ ie_num_pmkid d = 0 ∧ ie_pmkid d = None ∧
    r = Some (Go (mk_cursor (blen p) (blen s) d)).

Lemma at_body_at b k d :
  0 ≤ k ≤ blen b → ie_num_pmkid d = 0 → ie_pmkid d = None →
  at_body b (Some (Go (mk_cursor k (blen b - k) d))).
Proof.
  intros. exists (take (Z.to_nat k) b), (drop (Z.to_nat k) b), d.
  rewrite take_drop, length_take, length_drop. split_and!; try done. do 3 f_equal; lia.
Qed.

Lemma rsn_header_cases b : bytes_ok b → 4 ≤ blen b →
  (∃ d, parse_rsn_header b (blen b) rsn_defaults = Some (Stop (-2) d)) ∨
  at_body b (parse_rsn_header b (blen b) rsn_defaults).
Proof.
  intros Hb Hlen. unfold parse_rsn_header.
  destruct (vendor_header_cases b 6 4 [OSEN_IE_VENDOR_TYPE]) as ([] & -> & H1); [done|lia| |];
    cbn [mbind option_bind].
  { right. apply at_body_at; [specialize (H1 eq_refl); lia|done..]. }
  destruct (vendor_header_cases b (2 + 4 + 2) (4 + 2)
    [RSNE_OVERRIDE_IE_VENDOR_TYPE; RSNE_OVERRIDE_2_IE_VENDOR_TYPE]) as (r & -> & H2); [done|lia|].
  cbn [mbind option_bind].
  assert (Hr : ∃ r', (if r then v ← WPA_GET_LE16 b (2 + 4); Some (bool_decide (v = RSN_VERSION))
                     else Some false) = Some r' ∧ (r' = true → 8 ≤ blen b)).
  { destruct r; [|by exists false]. specialize (H2 eq_refl).
    destruct (WPA_GET_LE16_in b (2 + 4)) as [v ->]; [lia..|]. eexists; split; [done|lia]. }
  destruct Hr as ([] & -> & H3); cbn [mbind option_bind].
  { right. replace (blen b - 2 - 4 - 2) with (blen b - 8) by lia.
    apply at_body_at; [specialize (H3 eq_refl); lia|done..]. }
  destruct (rd_in b 0) as [id ->]; [lia|]. destruct (rd_in b 1) as [l ->]; [lia|].
  destruct (WPA_GET_LE16_in b 2) as [v ->]; [lia..|]. cbn [mbind option_bind].
  destruct (_ || _); [by left; eauto|]. right. apply at_body_at; [|done..].
  unfold sizeof_rsn_ie_hdr. lia.
Qed.

Lemma rsn_parse_ok b :
  bytes_ok b →
  ∃ ret d, wpa_parse_wpa_ie_rsn b (blen b) = Some (ret, d) ∧
    (ret = 0 ∨ ret ∈ rsn_codes) ∧
    (ret = 0 → 0 ≤ ie_num_pmkid d < 65536 ∧
       match ie_pmkid d with
       | Some pos => 0 ≤ pos ∧ pos + 16 * ie_num_pmkid d ≤ blen b
       | None => ie_num_pmkid d = 0
       end).
Proof.
  intros Hb. destruct (decide (blen b < 4)).
  { exists (-1), rsn_defaults. split; [|split; [right; unfold rsn_codes; set_solver|done]].
    unfold wpa_parse_wpa_ie_rsn, sizeof_rsn_ie_hdr. case_bool_decide; [done|].
    by rewrite bool_decide_eq_true_2. }
  rewrite rsn_parse_body by lia.
  destruct (rsn_header_cases b) as [(d & ->)|(p & s & d & -> & Hn & Hp & ->)]; [done|lia| |].
  { exists (-2), d. split; [done|]. split; [right; unfold rsn_codes; set_solver|done]. }
  cbn [mbind option_bind].
  apply Forall_app in Hb as [_ Hs].
  destruct (part_cases _ _ _ _ _ part_rsn_body p s d Hs) as [(ret & d' & -> & Hr)|(e & s' & He & ->)].
  { exists ret, d'. split; [done|]. split; [by right|]. intros ->. by apply codes_negative in Hr. }
  rewrite (part_at _ _ _ _ _ part_rsn_body) by done.
  eexists _, _. split; [done|]. split; [by left|]. intros _.
  cbn [data rsne_data ie_num_pmkid ie_pmkid]. destruct e as [g pw k c [pm|] m]; cbn [r_pmkids].
  - destruct He as [[[[[_ _] _] _] [[Hpm Hlt] _]] _]. split; [lia|].
    unfold rsne_octets. cbn [r_group r_pairwise r_akms r_capab r_pmkids r_mgmt opt_octets].
    rewrite !length_app. unfold pmkids_octets. rewrite !length_app.
    pose proof (concat_16_length pm Hpm). simpl length. lia.
  - rewrite Hn, Hp. lia.
Qed.

(** C30: wpa_parse_wpa_ie_rsn on any octets, in each of its header forms, reads only
    inside them and returns one of its codes; with success the PMKID list that it
    reports lies inside them. *)
Theorem rsn_parse_safe b :
  bytes_ok b →
  ∃ ret d, wpa_parse_wpa_ie_rsn b (blen b) = Some (ret, d) ∧
    (ret = 0 ∨ ret ∈ rsn_codes) ∧
    (ret = 0 → 0 ≤ ie_num_pmkid d < 65536 ∧
       match ie_pmkid d with
       | Some pos => 0 ≤ pos ∧ pos + 16 * ie_num_pmkid d ≤ blen b
       | None => ie_num_pmkid d = 0
       end).
Proof. apply rsn_parse_ok. Qed.

(** The version field rules out the vendor types. *)
Lemma rsne_not_vendor k s n m types :
  bytes_ok s → 6 ≤ n → Forall (λ t, 0x01010000 ≤ t) types →
  vendor_header (rsne_header k ++ s) (blen (rsne_header k ++ s)) n m types = Some false.
Proof.
  intros Hs Hn Ht. unfold vendor_header. case_bool_decide as Hlen; [|done].
  change (rd (rsne_header k ++ s) 1) with (Some (k + 2)). cbn [mbind option_bind].
  case_bool_decide; [|done].
  destruct s as [|a2 [|a3 s]]; [simpl in Hlen; lia..|].
  apply Forall_cons in Hs as [H2 [H3 _]%Forall_cons].
  change (WPA_GET_BE32 (rsne_header k ++ a2 :: a3 :: s) 2) with
    (Some (u32 (Z.lor (Z.lor (Z.lor (Z.shiftl 1 24) (Z.shiftl 0 16)) (Z.shiftl a2 8)) a3))).
  rewrite be32_value by (done || (unfold is_byte; lia)). cbn [mbind option_bind].
  rewrite bool_decide_eq_false_2; [done|]. intros Hin.
  eapply Forall_forall in Ht; [|exact Hin]. unfold is_byte in *. lia.
Qed.

Lemma rsn_header_at s : bytes_ok s →
  parse_rsn_header (rsne_header (blen s) ++ s) (blen (rsne_header (blen s) ++ s)) rsn_defaults =
  Some (Go (mk_cursor (blen (rsne_header (blen s))) (blen s) rsn_defaults)).
Proof.
  intros Hs. unfold parse_rsn_header.
  rewrite !rsne_not_vendor by (done || lia || (repeat constructor; done)).
  cbn [mbind option_bind].
  change (rd (rsne_header (blen s) ++ s) 0) with (Some WLAN_EID_RSN).
  change (rd (rsne_header (blen s) ++ s) 1) with (Some (blen s + 2)).
  change (WPA_GET_LE16 (rsne_header (blen s) ++ s) 2) with (Some 1).
  cbn [mbind option_bind]. rewrite !bool_decide_eq_false_2 by (cbn [length app rsne_header]; rewrite ?length_app; lia || naive_solver).
  cbn [orb]. unfold sizeof_rsn_ie_hdr. do 3 f_equal. simpl length. lia.
Qed.

(** C31: the parser accepts exactly the octets of the grammar.  An element with
    version 1 is parsed successfully just when its body is that of a well-formed
    element, up to trailing octets too short to mean anything, and the data are what
    that element says. *)
Theorem rsn_parse_exact s d :
  bytes_ok s → blen s ≤ 253 →
  let b := rsne_header (blen s) ++ s in
  wpa_parse_wpa_ie_rsn b (blen b) = Some (0, d) ↔
  ∃ e rest, s = rsne_octets e ++ rest ∧ rsne_ok e rest ∧ d = rsne_data 4 e rsn_defaults.
Proof.
  intros Hs Hlen b. unfold b. rewrite rsn_parse_body by (simpl; lia).
  rewrite rsn_header_at by done. cbn [mbind option_bind].
  change 4 with (blen (rsne_header (blen s))). generalize (rsne_header (blen s)). intros h. split.
  - destruct (part_cases _ _ _ _ _ part_rsn_body h s rsn_defaults Hs)
      as [(ret & d' & -> & Hr)|(e & s' & He & E)].
    + intros [= -> _]. by apply codes_negative in Hr.
    + subst s. rewrite (part_at _ _ _ _ _ part_rsn_body) by done.
      intros [= <-]. by exists e, s'.
  - intros (e & rest & -> & He & ->).
    by rewrite (part_at _ _ _ _ _ part_rsn_body).
Qed.

(** ** The generators *)

(** Writing after [p] into the room [r]. *)
Lemma put_after p r o : blen o ≤ blen r →
  put (p ++ r, blen p) o = Ret ((p ++ o) ++ drop (length o) r, blen (p ++ o)).
Proof.
  intros Hr. unfold put. cbn [fst snd].
  rewrite blit_in by (rewrite ?length_app; lia). rewrite access_bind. f_equal. f_equal.
  - rewrite Nat2Z.id, take_app_length, <- (assoc_L (++)). f_equal. f_equal.
    by rewrite drop_app_add.
  - rewrite length_app. lia.
Qed.

(** One more write after [put_after] has put the earlier ones in front. *)
Ltac write_next :=
  rewrite put_after by (rewrite ?length_drop; simpl length; lia); rewrite ?ret_bind;
  rewrite ?drop_drop; cbn [fst snd].

Lemma group_pairwise_written proto p r pairwise group :
  12 ≤ blen r →
  wpa_cipher_to_suite proto group ≠ 0 → wpa_cipher_to_suite proto pairwise ≠ 0 →
  wpa_cipher_valid_pairwise pairwise = true ∨ pairwise = WPA_CIPHER_NONE →
  let o := be32_bytes (wpa_cipher_to_suite proto group) ++
           suites_octets [wpa_cipher_to_suite proto pairwise] ++ [1; 0] in
  put_group_pairwise proto pairwise group (p ++ r, blen p) =
  Ret (inr ((p ++ o) ++ drop (length o) r, blen (p ++ o))).
Proof.
  intros Hr Hg Hp Hv o. unfold put_group_pairwise, put_selector.
  rewrite bool_decide_eq_false_2 by done.
  write_next. write_next.
  rewrite bool_decide_eq_false_2 by done.
  replace (negb _ && _) with false by (destruct Hv as [->| ->]; done). cbn [orb].
  write_next. write_next.
  subst o. unfold suites_octets. cbn [flat_map app length]. rewrite <- ?(assoc_L (++)). done.
Qed.

(** Filling in the length octet after the rest. *)
Lemma finish_element id x1 v0 v1 (w o r r' : list Z) n l :
  w = [id; x1; v0; v1] ++ o → r = r' → n = 4 + blen o → l = blen o + 2 → blen o + 2 < 256 →
  (b ← access (wr (w ++ r) 1 (u8 (blen w - 2))); Ret (blen w, b)) =
  Ret (n, [id; l; v0; v1] ++ o ++ r').
Proof.
  intros -> -> -> -> Hl. rewrite wr_in by (cbn [length app]; lia). rewrite access_bind.
  rewrite length_app. f_equal. f_equal; [simpl length; lia|].
  rewrite <- (assoc_L (++)). cbn [app]. simpl. do 2 f_equal.
  rewrite wrap_small by (change (2 ^ 8) with 256; lia). lia.
Qed.

(** The RSN element that the configuration asks for. *)
Definition sm_rsne (pairwise group suite mgmt : Z) (sm : rsn_params) : rsne :=
  let mfp := wpa_cipher_valid_mgmt_group mgmt in
  mk_rsne (Some (wpa_cipher_to_suite WPA_PROTO_RSN group))
    (Some [wpa_cipher_to_suite WPA_PROTO_RSN pairwise]) (Some [suite])
    (Some (rsn_supp_capab sm))
    (match sm_cur_pmkid sm with
     | Some k => Some [k]
     | None => if mfp then Some [] else None
     end)
    (if mfp then Some (wpa_cipher_to_suite WPA_PROTO_RSN mgmt) else None).

Lemma sm_rsne_length pairwise group suite mgmt sm :
  opt_ok (λ k, length k = 16%nat) (sm_cur_pmkid sm) →
  blen (rsne_octets (sm_rsne pairwise group suite mgmt sm)) =
  18 + (if sm_cur_pmkid sm is Some _ then 18 else 0) +
  (if wpa_cipher_valid_mgmt_group mgmt
   then 4 + (if sm_cur_pmkid sm is Some _ then 0 else 2) else 0).
Proof.
  intros Hk. unfold rsne_octets, sm_rsne. rewrite !length_app.
  destruct (sm_cur_pmkid sm) as [k|], (wpa_cipher_valid_mgmt_group mgmt);
    cbn [opt_ok] in Hk; cbn [r_group r_pairwise r_akms r_capab r_pmkids r_mgmt opt_octets];
    unfold pmkids_octets; cbn [concat]; rewrite ?length_app, ?Hk; simpl length; lia.
Qed.

Lemma gen_rsn_written b pairwise group akm mgmt suite sm :
  let o := rsne_octets (sm_rsne pairwise group suite mgmt sm) in
  opt_ok (λ k, length k = 16%nat) (sm_cur_pmkid sm) →
  4 + blen o ≤ blen b →
  wpa_cipher_to_suite WPA_PROTO_RSN group ≠ 0 →
  wpa_cipher_to_suite WPA_PROTO_RSN pairwise ≠ 0 →
  wpa_cipher_valid_pairwise pairwise = true ∨ pairwise = WPA_CIPHER_NONE →
  rsn_gen_akm akm = Some suite →
  wpa_gen_wpa_ie_rsn b (blen b) pairwise group akm mgmt sm =
  Ret (4 + blen o, rsne_header (blen o) ++ o ++ drop (4 + length o) b).
Proof.
  intros o Hk Hlen Hg Hp Hv Ha. unfold wpa_gen_wpa_ie_rsn.
  pose proof (sm_rsne_length pairwise group suite mgmt sm Hk) as Ho. fold o in Ho.
  rewrite bool_decide_eq_false_2.
  2: { unfold sizeof_rsn_ie_hdr, RSN_SELECTOR_LEN, PMKID_LEN.
       destruct (sm_cur_pmkid sm), (wpa_cipher_valid_mgmt_group mgmt); lia. }
  destruct b as [|x0 [|x1 [|x2 [|x3 r]]]]; [simpl in Hlen; lia..|].
  set (p := [WLAN_EID_RSN; x1; 1; 0]).
  change (wr (x0 :: x1 :: x2 :: x3 :: r) 0 WLAN_EID_RSN) with
    (Some (WLAN_EID_RSN :: x1 :: x2 :: x3 :: r)). rewrite access_bind.
  unfold WPA_PUT_LE16 at 1. rewrite blit_in by (simpl length; lia). rewrite access_bind.
  change (take _ _ ++ _ ++ _, sizeof_rsn_ie_hdr) with (p ++ r, blen p).
  assert (Hr : blen o ≤ blen r) by (cbn [length] in Hlen; lia).
  rewrite group_pairwise_written, ret_bind, Ha by
    (done || (destruct (sm_cur_pmkid sm), (wpa_cipher_valid_mgmt_group mgmt); lia)).
  set (gp := be32_bytes _ ++ _).
  assert (Hgp : o = gp ++ be32_bytes suite ++ le16_bytes (rsn_supp_capab sm) ++
    opt_octets (λ k, [1; 0] ++ k) (sm_cur_pmkid sm) ++
    (if wpa_cipher_valid_mgmt_group mgmt then
       (if sm_cur_pmkid sm is Some _ then [] else le16_bytes 0) ++
       be32_bytes (wpa_cipher_to_suite WPA_PROTO_RSN mgmt)
     else [])).
  { subst o gp. unfold rsne_octets, sm_rsne, suites_octets, pmkids_octets.
    cbn [r_group r_pairwise r_akms r_capab r_pmkids r_mgmt opt_octets flat_map].
    destruct (sm_cur_pmkid sm), (wpa_cipher_valid_mgmt_group mgmt);
      cbn [opt_octets concat]; rewrite ?app_nil_r, <- ?(assoc_L (++)); done. }
  assert (Hlgp : blen gp = 12) by done.
  clearbody o gp. subst o. unfold put_selector.
  rewrite !length_app in *.
  destruct (sm_cur_pmkid sm) as [k|], (wpa_cipher_valid_mgmt_group mgmt);
    cbn [opt_octets opt_ok app length] in *; rewrite ?Hk in *.
  all: repeat write_next; apply (finish_element _ x1); rewrite <- ?(assoc_L (++)), ?app_nil_r;
    try done; rewrite ?length_app in *; cbn [app length be32_bytes le16_bytes Nat.add drop] in *;
    rewrite ?length_app, ?Hk; cbn [length be32_bytes]; lia || (f_equal; lia).
Qed.

(** ** The suites that are written are the suites that are read *)
Lemma in_list_cases {A} (P : A → Prop) (l : list A) x : Forall P l → x ∈ l → P x.
Proof. intros HP Hx. by eapply (proj1 (Forall_forall P l)). Qed.

(** What the round trip of a cipher needs. *)
Definition suite_ok (c : Z) : Prop :=
  let suite := wpa_cipher_to_suite WPA_PROTO_RSN c in
  word suite ∧ suite ≠ 0 ∧ rsn_suite_cipher suite = c.

Ltac on_list x H := pattern x; eapply in_list_cases; [|exact H]; clear.

Lemma valid_pairwise_suite c :
  wpa_cipher_valid_pairwise c = true ∨ c = WPA_CIPHER_NONE →
  suite_ok c ∧ any_of c WPA_CIPHER_AES_128_CMAC = false.
Proof.
  intros [Hc%bool_decide_eq_true_1| ->].
  - on_list c Hc. unfold suite_ok. repeat constructor; vm_compute; done.
  - unfold suite_ok. repeat constructor; vm_compute; done.
Qed.

Lemma valid_group_suite c : wpa_cipher_valid_group c = true → suite_ok c.
Proof.
  unfold wpa_cipher_valid_group. intros [H|H%bool_decide_eq_true_1]%orb_true_iff.
  - by apply valid_pairwise_suite; left.
  - subst c. unfold suite_ok. repeat constructor; vm_compute; done.
Qed.

Lemma valid_mgmt_suite c : wpa_cipher_valid_mgmt_group c = true → suite_ok c.
Proof.
  intros Hc%bool_decide_eq_true_1. on_list c Hc. unfold suite_ok.
  repeat constructor; vm_compute; done.
Qed.

(** The key management suites of RSN that the generator writes and the parser knows. *)
Definition rsn_akms : list Z :=
  [WPA_KEY_MGMT_IEEE8021X; WPA_KEY_MGMT_PSK; WPA_KEY_MGMT_FT_IEEE8021X;
   WPA_KEY_MGMT_FT_IEEE8021X_SHA384; WPA_KEY_MGMT_FT_PSK; WPA_KEY_MGMT_IEEE8021X_SHA256;
   WPA_KEY_MGMT_PSK_SHA256; WPA_KEY_MGMT_SAE; WPA_KEY_MGMT_SAE_EXT_KEY; WPA_KEY_MGMT_FT_SAE;
   WPA_KEY_MGMT_IEEE8021X_SUITE_B_192; WPA_KEY_MGMT_IEEE8021X_SUITE_B; WPA_KEY_MGMT_DPP].

Lemma rsn_akm_suite akm : akm ∈ rsn_akms →
  ∃ suite, rsn_gen_akm akm = Some suite ∧ word suite ∧ rsn_suite_key_mgmt suite = akm.
Proof.
  intros Hakm. on_list akm Hakm. repeat constructor; (eexists; split; [reflexivity|]); vm_compute; done.
Qed.

Lemma supp_capab_half sm : half (rsn_supp_capab sm).
Proof.
  unfold rsn_supp_capab, or_if.
  destruct (sm_ext_key_id sm), (sm_ocv sm), (bool_decide (sm_mfp sm = 2)),
    (bool_decide (sm_mfp sm ≠ 0)); vm_compute; done.
Qed.

(** The element of the configuration is one that the parser accepts. *)
Definition sm_ok (sm : rsn_params) : Prop :=
  wpa_cipher_valid_group (sm_group_cipher sm) = true ∧
  (wpa_cipher_valid_pairwise (sm_pairwise_cipher sm) = true ∨
   sm_pairwise_cipher sm = WPA_CIPHER_NONE) ∧
  opt_ok (λ k, length k = 16%nat ∧ bytes_ok k) (sm_cur_pmkid sm).

Lemma sm_rsne_ok sm suite : sm_ok sm → word suite →
  rsne_ok (sm_rsne (sm_pairwise_cipher sm) (sm_group_cipher sm) suite
             (sm_mgmt_group_cipher sm) sm) [].
Proof.
  intros (Hg & Hp & Hk) Hs.
  destruct (valid_group_suite _ Hg) as (Hg1 & _ & Hg3).
  destruct (valid_pairwise_suite _ Hp) as [(Hp1 & _ & Hp3) Hp4].
  unfold rsne_ok, munch, sm_rsne.
  cbn [r_group r_pairwise r_akms r_capab r_pmkids r_mgmt opt_ok].
  assert (Hsel : ∀ v, word v → suites_ok [v]).
  { intros v Hv. split; [done|]. split; [by apply Forall_singleton|done]. }
  split; [split; [split; [split; [split|]|]|]|].
  - split; [by rewrite Hg3|done].
  - split; [|done]. split; [by apply Hsel|].
    unfold bits_of. cbn [fold_left]. rewrite Z.lor_0_l. by rewrite Hp3.
  - split; [by apply Hsel|done].
  - split; [apply supp_capab_half|done].
  - destruct (sm_cur_pmkid sm) as [k|]; cbn [opt_ok] in *.
    + split; [|done]. split; [apply Forall_singleton; tauto|done].
    + destruct (wpa_cipher_valid_mgmt_group _); [|done]. split; [by split|done].
  - destruct (wpa_cipher_valid_mgmt_group (sm_mgmt_group_cipher sm)) eqn:Hm; [|done].
    destruct (valid_mgmt_suite _ Hm) as (Hm1 & _ & Hm3). cbn [opt_ok]. by rewrite Hm3.
Qed.

Lemma flat_map_be32_ok l : bytes_ok (flat_map be32_bytes l).
Proof. induction l; cbn [flat_map]; [done|]. apply Forall_app. auto with byte. Qed.

Lemma sm_rsne_bytes pairwise group suite mgmt sm :
  opt_ok (λ k, length k = 16%nat ∧ bytes_ok k) (sm_cur_pmkid sm) →
  bytes_ok (rsne_octets (sm_rsne pairwise group suite mgmt sm)).
Proof.
  intros Hk. unfold rsne_octets, sm_rsne, suites_octets, pmkids_octets.
  cbn [r_group r_pairwise r_akms r_capab r_pmkids r_mgmt].
  destruct (sm_cur_pmkid sm) as [k|], (wpa_cipher_valid_mgmt_group mgmt);
    cbn [opt_octets opt_ok concat] in *;
    rewrite ?Forall_app; split_and!; auto using flat_map_be32_ok with byte; tauto.
Qed.

(** C32: for every policy that uses a group cipher, a pairwise cipher and one of these
    key management suites, wpa_gen_wpa_ie succeeds in a buffer of 46 octets or more,
    writes only at its start, and the parser reads back the ciphers, the key
    management suite, the capabilities and the PMKID of the policy. *)
Theorem gen_rsn_roundtrip sm b :
  sm_proto sm = WPA_PROTO_RSN → sm_ok sm → sm_key_mgmt sm ∈ rsn_akms → 46 ≤ blen b →
  ∃ n e d, wpa_gen_wpa_ie sm b (blen b) = Ret (n, e ++ drop (length e) b) ∧
    n = blen e ∧ 0 < n ≤ 46 ∧
    wpa_parse_wpa_ie e n = Some (0, d) ∧
    ie_proto d = sm_proto sm ∧
    ie_pairwise_cipher d = sm_pairwise_cipher sm ∧
    ie_group_cipher d = sm_group_cipher sm ∧
    ie_key_mgmt d = sm_key_mgmt sm ∧
    ie_capabilities d = rsn_supp_capab sm ∧
    ie_mgmt_group_cipher d =
      (if wpa_cipher_valid_mgmt_group (sm_mgmt_group_cipher sm)
       then sm_mgmt_group_cipher sm else WPA_CIPHER_AES_128_CMAC) ∧
    match sm_cur_pmkid sm with
    | Some k => ie_num_pmkid d = 1 ∧ (pos ← ie_pmkid d; slice e pos PMKID_LEN) = Some k
    | None => ie_num_pmkid d = 0
    end.
Proof.
  intros Hproto Hok Hakm Hlen.
  destruct (rsn_akm_suite _ Hakm) as (suite & Ha & Hs & Hk).
  destruct (id Hok) as (Hg & Hp & Hpmk).
  destruct (valid_group_suite _ Hg) as (_ & Hg2 & Hg3).
  destruct (valid_pairwise_suite _ Hp) as [(_ & Hp2 & Hp3) _].
  pose proof (sm_rsne_ok sm suite Hok Hs) as Hr.
  pose proof (sm_rsne_bytes (sm_pairwise_cipher sm) (sm_group_cipher sm) suite
    (sm_mgmt_group_cipher sm) sm Hpmk) as Hb.
  assert (Hpl : opt_ok (λ k, length k = 16%nat) (sm_cur_pmkid sm))
    by (destruct (sm_cur_pmkid sm); [apply Hpmk|done]).
  set (e := sm_rsne _ _ _ _ _) in *.
  assert (Hl : 0 ≤ blen (rsne_octets e) ≤ 42).
  { subst e. rewrite sm_rsne_length by done.
    destruct (sm_cur_pmkid sm), (wpa_cipher_valid_mgmt_group _); lia. }
  exists (4 + blen (rsne_octets e)), (rsne_header (blen (rsne_octets e)) ++ rsne_octets e),
    (rsne_data 4 e rsn_defaults).
  unfold wpa_gen_wpa_ie. rewrite bool_decide_eq_true_2 by done.
  rewrite (gen_rsn_written b _ _ _ _ suite) by (done || (fold e; lia)). fold e.
  assert (Hn : 4 + blen (rsne_octets e) =
               blen (rsne_header (blen (rsne_octets e)) ++ rsne_octets e))
    by (rewrite length_app; simpl length; lia).
  split. { by rewrite <- (assoc_L (++)). }
  split; [done|]. split; [lia|]. split.
  { unfold wpa_parse_wpa_ie. rewrite bool_decide_eq_true_2 by lia.
    change (rd (rsne_header _ ++ _) 0) with (Some WLAN_EID_RSN). cbn [mbind option_bind].
    rewrite bool_decide_eq_true_2 by done. cbn [andb]. rewrite Hn.
    apply rsn_parse_exact; [done|lia|]. exists e, []. by rewrite app_nil_r. }
  subst e. clear Hl Hn. unfold rsne_data, sm_rsne, bits_of.
  cbn [ie_proto ie_pairwise_cipher ie_group_cipher ie_key_mgmt ie_capabilities
       ie_mgmt_group_cipher ie_num_pmkid ie_pmkid fold_left from_option default
       r_group r_pairwise r_akms r_capab r_pmkids r_mgmt opt_octets].
  rewrite !Z.lor_0_l, Hp3, Hg3, Hk. split_and!; try done.
  - destruct (wpa_cipher_valid_mgmt_group (sm_mgmt_group_cipher sm)) eqn:Hm; [|done].
    by apply valid_mgmt_suite.
  - destruct (sm_cur_pmkid sm) as [k|]; cbn [opt_ok] in *.
    + split; [done|]. cbn [mbind option_bind].
      unfold rsne_octets, pmkids_octets, suites_octets.
      cbn [r_group r_pairwise r_akms r_capab r_pmkids r_mgmt opt_octets concat].
      rewrite app_nil_r.
      match goal with |- slice (?h ++ ((?a ++ ?c ++ k) ++ ?m)) ?o ?n = _ =>
        enough (slice ((h ++ a ++ c) ++ k ++ m) o n = Some k) as E
          by (rewrite <- E; f_equal; by rewrite <- !(assoc_L (++)));
        rewrite (slice_app_mid (h ++ a ++ c) k m); [done| |unfold PMKID_LEN; lia]
      end.
      rewrite !length_app. simpl length. lia.
    + by destruct (wpa_cipher_valid_mgmt_group _).
Qed.

(** CCMP, SAE and management frame protection, without a PMKID. *)
Definition pmf_params : rsn_params :=
  mk_params WPA_PROTO_RSN WPA_CIPHER_CCMP WPA_CIPHER_CCMP WPA_KEY_MGMT_SAE
    WPA_CIPHER_AES_128_CMAC 2 false false None 0 false false false false.

(** C33: the size check of wpa_gen_wpa_ie_rsn does not count the management group cipher:
    with a buffer of 22 octets, which the check accepts, the generator writes beyond
    the buffer when such a cipher is configured.  WPA_ASSERT, which follows the writes,
    checks nothing outside EAPOL_TEST. *)
Theorem gen_rsn_overruns b : blen b = 22 → wpa_gen_wpa_ie pmf_params b (blen b) = Undef.
Proof.
  intros Hb. do 22 (destruct b as [|? b]; [simpl in Hb; lia|]).
  destruct b; [reflexivity|simpl in Hb; lia].
Qed.

(** ** WPA version 1 *)
Definition wpa_header (n : Z) : list Z :=
  [WLAN_EID_VENDOR_SPECIFIC; n] ++ be32_bytes WPA_OUI_TYPE ++ [1; 0].

Definition wpa_octets (group pairwise suite : Z) : list Z :=
  be32_bytes (wpa_cipher_to_suite WPA_PROTO_WPA group) ++
  suites_octets [wpa_cipher_to_suite WPA_PROTO_WPA pairwise] ++ suites_octets [suite].

Lemma gen_wpa_written b pairwise group akm suite :
  24 ≤ blen b →
  wpa_cipher_to_suite WPA_PROTO_WPA group ≠ 0 →
  wpa_cipher_to_suite WPA_PROTO_WPA pairwise ≠ 0 →
  wpa_cipher_valid_pairwise pairwise = true ∨ pairwise = WPA_CIPHER_NONE →
  wpa_gen_akm akm = Some suite →
  wpa_gen_wpa_ie_wpa b (blen b) pairwise group akm =
  Ret (24, wpa_header 22 ++ wpa_octets group pairwise suite ++ drop 24 b).
Proof.
  intros Hlen Hg Hp Hv Ha. unfold wpa_gen_wpa_ie_wpa.
  rewrite bool_decide_eq_false_2 by (unfold sizeof_wpa_ie_hdr, WPA_SELECTOR_LEN; lia).
  do 8 (destruct b as [|? b]; [simpl in Hlen; lia|]).
  unfold RSN_SELECTOR_PUT, WPA_PUT_BE32, WPA_PUT_LE16.
  rewrite wr_in, access_bind by (simpl length; lia).
  rewrite blit_in, access_bind by (simpl length; lia).
  rewrite blit_in, access_bind by (simpl length; lia).
  match goal with |- (put_group_pairwise _ _ _ (?m, _) ≫= _) = _ =>
    change m with ((221 :: z0 :: be32_bytes WPA_OUI_TYPE ++ [1; 0]) ++ b) end.
  set (p := 221 :: z0 :: _). change sizeof_wpa_ie_hdr with (blen p).
  cbn [length] in Hlen. rewrite group_pairwise_written, ret_bind, Ha by (done || lia).
  set (gp := be32_bytes _ ++ _). unfold put_selector.
  assert (blen gp = 12) by done. write_next.
  rewrite (finish_element 221 z0 0 0x50 _ ([0xf2; 1; 1; 0] ++ gp ++ be32_bytes suite) _
    (drop (length gp + 4) b) 24 22).
  - unfold wpa_octets, suites_octets. subst gp. cbn [flat_map].
    rewrite <- ?(assoc_L (++)). done.
  - subst p. rewrite <- ?(assoc_L (++)). done.
  - done.
  - rewrite !length_app. simpl length. lia.
  - rewrite !length_app. simpl length. lia.
  - rewrite !length_app. simpl length. lia.
Qed.

Definition wpa_akms : list Z := [WPA_KEY_MGMT_IEEE8021X; WPA_KEY_MGMT_PSK; WPA_KEY_MGMT_WPA_NONE].

Definition wpa_suite_ok (c : Z) : Prop :=
  let suite := wpa_cipher_to_suite WPA_PROTO_WPA c in
  word suite ∧ suite ≠ 0 ∧ wpa_suite_cipher suite = c.

Lemma wpa_cipher_suite c :
  c ∈ [WPA_CIPHER_CCMP; WPA_CIPHER_TKIP; WPA_CIPHER_NONE] → wpa_suite_ok c.
Proof. intros Hc. on_list c Hc. unfold wpa_suite_ok. repeat constructor; vm_compute; done. Qed.

Lemma wpa_akm_suite akm : akm ∈ wpa_akms →
  ∃ suite, wpa_gen_akm akm = Some suite ∧ word suite ∧ wpa_suite_key_mgmt suite = akm.
Proof.
  intros Hakm. on_list akm Hakm.
  repeat constructor; (eexists; split; [reflexivity|]); vm_compute; done.
Qed.

(** *** The parser *)
Lemma part_wpa_group :
  part parse_wpa_group (opt_octets be32_bytes) (munch 1 (λ g, word g))
    (opt_set (λ g d, d <| ie_group_cipher := wpa_suite_cipher g |>)) [-3].
Proof.
  split.
  - intros p x s d [Hx Hs]. unfold parse_wpa_group.
    destruct x as [g|]; cbn [opt_octets opt_ok opt_set left pos data] in *.
    + rewrite bool_decide_eq_true_2 by (rewrite length_app; simpl; unfold WPA_SELECTOR_LEN; lia).
      rewrite (decode_at _ wpa_suite_cipher) by done. cbn [mbind option_bind].
      do 2 f_equal. rewrite !length_app. unfold WPA_SELECTOR_LEN. f_equal; simpl; lia.
    + destruct s; [by rewrite !app_nil_r|]. simpl in Hs. specialize (Hs eq_refl). lia.
  - intros p s d Hok. unfold parse_wpa_group. cbn [left pos data].
    destruct (decide (blen s = 0)).
    { right. exists None, s. repeat split; intros; lia. }
    destruct (decide (blen s < 4)) as [E|].
    { left. rewrite bool_decide_eq_false_2 by (unfold WPA_SELECTOR_LEN; lia).
      rewrite bool_decide_eq_true_2 by lia. eexists _, _. split; [done|]. set_solver. }
    destruct (be32_split s) as (g & s' & Hg & ->); [done|lia|].
    right. exists (Some g), s'. split; [by split|done].
Qed.

Lemma part_wpa_pairwise :
  part parse_wpa_pairwise (opt_octets suites_octets) (munch 1 suites_ok)
    (opt_set (λ l d, d <| ie_pairwise_cipher := bits_of wpa_suite_cipher 0 l |>)) [-4; -5].
Proof.
  assert (Hd : ∀ b s, wpa_selector_to_bitfield b s =
                      (v ← RSN_SELECTOR_GET b s; Some (wpa_suite_cipher v))) by done.
  split.
  - intros p x s d [Hx Hs]. unfold parse_wpa_pairwise.
    destruct x as [l|]; cbn [opt_octets opt_ok opt_set] in *.
    + rewrite bool_decide_eq_true_2.
      * by rewrite (read_suite_list_at _ _ Hd).
      * cbn [left]. rewrite length_app, Nat2Z.inj_add, suites_octets_length. lia.
    + destruct s; [by rewrite !app_nil_r|]. simpl in Hs. specialize (Hs eq_refl). lia.
  - intros p s d Hok. unfold parse_wpa_pairwise. cbn [left].
    destruct (decide (blen s = 0)).
    { right. exists None, s. repeat split; intros; lia. }
    destruct (decide (blen s = 1)) as [E|].
    { left. rewrite E. simpl. eexists _, _. split; [done|]. set_solver. }
    destruct (read_suite_list_cases wpa_selector_to_bitfield p s d)
      as [E|(l & s' & Hl & ->)]; [done|lia| |].
    + left. rewrite bool_decide_eq_true_2 by lia. rewrite E. simpl.
      eexists _, _. split; [done|]. set_solver.
    + right. exists (Some l), s'. split; [by split|done].
Qed.

Definition part_wpa_body := part_seq _ _ _ _ _ _ _ _ _ _ (part_seq _ _ _ _ _ _ _ _ _ _
  (part_seq _ _ _ _ _ _ _ _ _ _ part_wpa_group part_wpa_pairwise)
  (part_key_mgmt wpa_key_mgmt_to_bitfield wpa_suite_key_mgmt (λ _ _, eq_refl)))
  part_capabilities.

Lemma wpa_parse_body b len : 8 ≤ len → wpa_parse_wpa_ie_wpa b len =
  finish (h ← parse_wpa_header b len wpa_defaults;
          match h with
          | Go c => parse_wpa_group b c ⨾ parse_wpa_pairwise b
                      ⨾ parse_key_mgmt wpa_key_mgmt_to_bitfield b ⨾ parse_capabilities b
          | Stop r d => Some (Stop r d)
          end).
Proof.
  intros. unfold wpa_parse_wpa_ie_wpa. rewrite !bool_decide_eq_false_2 by (unfold sizeof_wpa_ie_hdr; lia).
  by destruct (parse_wpa_header b len wpa_defaults) as [[]|].
Qed.

Lemma wpa_parse_written group pairwise suite :
  wpa_suite_ok group → wpa_suite_ok pairwise → word suite →
  wpa_parse_wpa_ie (wpa_header 22 ++ wpa_octets group pairwise suite) 24 =
  Some (0, mk_ie_data WPA_PROTO_WPA pairwise false group false (wpa_suite_key_mgmt suite) 0 0 None 0).
Proof.
  intros (Hg1 & _ & Hg3) (Hp1 & _ & Hp3) Hs. unfold wpa_parse_wpa_ie, wpa_octets.
  set (rest := be32_bytes _ ++ _).
  change (rd (wpa_header 22 ++ rest) 0) with (Some WLAN_EID_VENDOR_SPECIFIC).
  change (rd (wpa_header 22 ++ rest) 1) with (Some 22).
  change (WPA_GET_BE32 (wpa_header 22 ++ rest) 2) with (Some WPA_OUI_TYPE).
  rewrite wpa_parse_body by done. unfold parse_wpa_header, RSN_SELECTOR_GET.
  change (rd (wpa_header 22 ++ rest) 0) with (Some WLAN_EID_VENDOR_SPECIFIC).
  change (rd (wpa_header 22 ++ rest) 1) with (Some 22).
  change (WPA_GET_BE32 (wpa_header 22 ++ rest) 2) with (Some WPA_OUI_TYPE).
  change (WPA_GET_LE16 (wpa_header 22 ++ rest) 6) with (Some 1).
  assert (Hsel : ∀ v, word v → suites_ok [v]).
  { intros v Hv. split; [done|]. split; [by apply Forall_singleton|done]. }
  pose proof (part_at _ _ _ _ _ part_wpa_body (wpa_header 22)
    (Some (wpa_cipher_to_suite WPA_PROTO_WPA group),
     Some [wpa_cipher_to_suite WPA_PROTO_WPA pairwise], Some [suite], None) [] wpa_defaults) as E.
  cbn [fst snd opt_octets] in E. rewrite !app_nil_r, <- (assoc_L (++)) in E. fold rest in E.
  change (blen (wpa_header 22)) with 8 in E. change (blen rest) with 16 in E.
  clearbody rest. etransitivity; [exact (f_equal finish (E ltac:(split; [split; [split|]|]; (split; [|done]); cbn [opt_ok fst snd]; auto)))|].
  unfold opt_set, bits_of. cbn [fold_left finish mbind option_bind data].
  by rewrite !Z.lor_0_l, Hg3, Hp3.
Qed.

(** C10: with a protocol other than RSN, a group and a pairwise cipher of CCMP, TKIP and none,
    one of the key management suites of version 1 ([wpa_akms]) and a buffer of at least 24
    octets, [wpa_gen_wpa_ie] writes a version 1 element of 24 octets and nothing behind it,
    and the parser reads the same ciphers and key management suite back. *)
Theorem gen_wpa_roundtrip sm b :
  sm_proto sm ≠ WPA_PROTO_RSN →
  sm_group_cipher sm ∈ [WPA_CIPHER_CCMP; WPA_CIPHER_TKIP; WPA_CIPHER_NONE] →
  sm_pairwise_cipher sm ∈ [WPA_CIPHER_CCMP; WPA_CIPHER_TKIP; WPA_CIPHER_NONE] →
  sm_key_mgmt sm ∈ wpa_akms → 24 ≤ blen b →
  ∃ e, wpa_gen_wpa_ie sm b (blen b) = Ret (24, e ++ drop 24 b) ∧ blen e = 24 ∧
    wpa_parse_wpa_ie e 24 =
    Some (0, mk_ie_data WPA_PROTO_WPA (sm_pairwise_cipher sm) false (sm_group_cipher sm) false
               (sm_key_mgmt sm) 0 0 None 0).
Proof.
  intros Hproto Hg%wpa_cipher_suite Hp Hakm Hlen.
  destruct (wpa_akm_suite _ Hakm) as (suite & Ha & Hs & <-).
  pose proof (wpa_cipher_suite _ Hp) as Hps.
  exists (wpa_header 22 ++ wpa_octets (sm_group_cipher sm) (sm_pairwise_cipher sm) suite).
  split; [|split; [done|by apply wpa_parse_written]].
  unfold wpa_gen_wpa_ie. rewrite bool_decide_eq_false_2 by done.
  rewrite <- (assoc_L (++)). apply gen_wpa_written; [done|apply Hg|apply Hps| |done].
  clear -Hp. on_list (sm_pairwise_cipher sm) Hp.
  repeat (apply Forall_cons; split); [by left|by left|by right|constructor].
Qed.

(** ** Concrete elements *)
Definition sae_params : rsn_params :=
  mk_params WPA_PROTO_RSN WPA_CIPHER_CCMP WPA_CIPHER_CCMP WPA_KEY_MGMT_SAE
    WPA_CIPHER_AES_128_CMAC 2 false false (Some (replicate 16 7)) 1 false false false false.

(** CCMP, SAE, management frame protection and a PMKID. *)
Definition sae_body : list Z :=
  [0; 15; 172; 4; 1; 0; 0; 15; 172; 4; 1; 0; 0; 15; 172; 8; 192; 0; 1; 0] ++
  replicate 16 7 ++ [0; 15; 172; 6].

Lemma sae_body_ok : bytes_ok sae_body.
Proof. apply (bool_decide_unpack _). vm_compute. done. Qed.

Lemma rsn_parse_safe_witness :
  bytes_ok (rsne_header 40 ++ sae_body) ∧
  ∃ ret d, wpa_parse_wpa_ie_rsn (rsne_header 40 ++ sae_body) (blen (rsne_header 40 ++ sae_body)) =
           Some (ret, d) ∧ (ret = 0 ∨ ret ∈ rsn_codes) ∧
    (ret = 0 → 0 ≤ ie_num_pmkid d < 65536 ∧
       match ie_pmkid d with
       | Some pos => 0 ≤ pos ∧ pos + 16 * ie_num_pmkid d ≤ blen (rsne_header 40 ++ sae_body)
       | None => ie_num_pmkid d = 0
       end).
Proof.
  assert (H : bytes_ok (rsne_header 40 ++ sae_body)).
  { apply Forall_app. split; [apply (bool_decide_unpack _); vm_compute; done|apply sae_body_ok]. }
  split; [exact H|]. exact (rsn_parse_safe _ H).
Defined.

Lemma rsn_parse_exact_witness :
  let b := rsne_header (blen sae_body) ++ sae_body in
  wpa_parse_wpa_ie_rsn b (blen b) =
    Some (0, rsne_data 4 (sm_rsne WPA_CIPHER_CCMP WPA_CIPHER_CCMP RSN_AUTH_KEY_MGMT_SAE
                            WPA_CIPHER_AES_128_CMAC sae_params) rsn_defaults) ∧
  ∃ e rest, sae_body = rsne_octets e ++ rest ∧ rsne_ok e rest ∧
    rsne_data 4 (sm_rsne WPA_CIPHER_CCMP WPA_CIPHER_CCMP RSN_AUTH_KEY_MGMT_SAE
                   WPA_CIPHER_AES_128_CMAC sae_params) rsn_defaults = rsne_data 4 e rsn_defaults.
Proof.
  assert (E : wpa_parse_wpa_ie_rsn (rsne_header (blen sae_body) ++ sae_body)
                (blen (rsne_header (blen sae_body) ++ sae_body)) =
    Some (0, rsne_data 4 (sm_rsne WPA_CIPHER_CCMP WPA_CIPHER_CCMP RSN_AUTH_KEY_MGMT_SAE
                            WPA_CIPHER_AES_128_CMAC sae_params) rsn_defaults))
    by (vm_compute; reflexivity).
  split; [exact E|]. refine (proj1 (rsn_parse_exact sae_body _ sae_body_ok _) E).
  vm_compute. discriminate.
Defined.

Lemma sae_params_ok : sm_ok sae_params.
Proof. split; [|split]; [reflexivity|left; reflexivity|]. split; [done|].
  apply (bool_decide_unpack _). vm_compute. done. Qed.
Lemma sae_params_akm : sm_key_mgmt sae_params ∈ rsn_akms.
Proof. apply (bool_decide_unpack _). vm_compute. done. Qed.

Lemma gen_rsn_roundtrip_witness :
  ∃ n e d, wpa_gen_wpa_ie sae_params (replicate 50 0) 50 = Ret (n, e ++ drop (length e) (replicate 50 0)) ∧
    wpa_parse_wpa_ie e n = Some (0, d) ∧ ie_num_pmkid d = 1.
Proof.
  destruct (gen_rsn_roundtrip sae_params (replicate 50 0) eq_refl sae_params_ok sae_params_akm)
    as (n & e & d & H1 & _ & _ & H2 & _ & _ & _ & _ & _ & _ & H3 & _); [simpl; lia|].
  exists n, e, d. split; [exact H1|]. split; [exact H2|exact H3].
Defined.

Lemma gen_rsn_overruns_witness :
  blen (replicate 22 0) = 22 ∧ wpa_gen_wpa_ie pmf_params (replicate 22 0) 22 = Undef.
Proof. split; [reflexivity|]. exact (gen_rsn_overruns (replicate 22 0) eq_refl). Defined.

Definition wpa_psk_params : rsn_params :=
  mk_params WPA_PROTO_WPA WPA_CIPHER_CCMP WPA_CIPHER_TKIP WPA_KEY_MGMT_PSK
    0 0 false false None 0 false false false false.

Lemma wpa_psk_params_ok :
  sm_proto wpa_psk_params ≠ WPA_PROTO_RSN ∧
  sm_group_cipher wpa_psk_params ∈ [WPA_CIPHER_CCMP; WPA_CIPHER_TKIP; WPA_CIPHER_NONE] ∧
  sm_pairwise_cipher wpa_psk_params ∈ [WPA_CIPHER_CCMP; WPA_CIPHER_TKIP; WPA_CIPHER_NONE] ∧
  sm_key_mgmt wpa_psk_params ∈ wpa_akms.
Proof. split; [done|]. apply (bool_decide_unpack _). vm_compute. done. Qed.

Lemma gen_wpa_roundtrip_witness :
  ∃ e, wpa_gen_wpa_ie wpa_psk_params (replicate 24 0) 24 = Ret (24, e ++ []) ∧ blen e = 24 ∧
    wpa_parse_wpa_ie e 24 =
    Some (0, mk_ie_data WPA_PROTO_WPA WPA_CIPHER_CCMP false WPA_CIPHER_TKIP false
               WPA_KEY_MGMT_PSK 0 0 None 0).
Proof.
  destruct wpa_psk_params_ok as (H1 & H2 & H3 & H4).
  refine (gen_wpa_roundtrip wpa_psk_params (replicate 24 0) H1 H2 H3 H4 _).
  simpl. lia.
Defined.
