(* ===== verification/RsnInsert.v ===== *)
(** Writing into elements: suite lists and the insertion of a PMKID

    What [rsn_cipher_put_suites] and [wpa_cipher_put_suites] write is what the
    parsers read, and [wpa_insert_pmkid] replaces the PMKID list of the RSN element
    and nothing else. *)
From S2P Require Import Prelude Bytes Defs Suites RsnIe RsnProofs.

(** ** Suite lists *)
Lemma any_of_bit x k : 0 ≤ k → any_of x (2 ^ k) = Z.testbit x k.
Proof.
  intros Hk. unfold any_of. destruct (Z.testbit x k) eqn:E.
  - rewrite bool_decide_eq_false_2; [done|]. intros H0.
    assert (Hb : Z.testbit (Z.land x (2 ^ k)) k = true) by
      (rewrite Z.land_spec, E, Z.pow2_bits_true by done; done).
    by rewrite H0, Z.bits_0 in Hb.
  - rewrite bool_decide_eq_true_2; [done|]. apply Z.bits_inj'. intros i Hi.
    rewrite Z.land_spec, Z.bits_0. destruct (decide (i = k)) as [->|].
    + by rewrite E.
    + rewrite Z.pow2_bits_false by done. apply andb_false_r.
Qed.

Lemma land_bit x k : 0 ≤ k → Z.land x (2 ^ k) = if any_of x (2 ^ k) then 2 ^ k else 0.
Proof.
  intros Hk. rewrite any_of_bit by done. apply Z.bits_inj'. intros i Hi. rewrite Z.land_spec.
  destruct (decide (i = k)) as [->|].
  - destruct (Z.testbit x k); rewrite ?Z.pow2_bits_true, ?Z.bits_0 by done; done.
  - rewrite Z.pow2_bits_false, andb_false_r by done.
    destruct (Z.testbit x k); rewrite ?Z.pow2_bits_false, ?Z.bits_0 by done; done.
Qed.

Section put_suites.
Variable to_bitfield : list Z → Z → option Z.
Variable decode : Z → Z.
Hypothesis to_bitfield_decodes :
  ∀ b s, to_bitfield b s = (v ← RSN_SELECTOR_GET b s; Some (decode v)).

(** A table of single bits and the selectors that decode to them. *)
Definition table_ok : list (Z * Z) → Prop :=
  Forall (λ '(c, suite), word suite ∧ decode suite = c ∧ ∃ k, 0 ≤ k ∧ c = 2 ^ k).

Definition chosen (ciphers : Z) (table : list (Z * Z)) : list Z :=
  flat_map (λ '(c, suite), if any_of ciphers c then [suite] else []) table.

Lemma chosen_cons ciphers c suite table :
  chosen ciphers ((c, suite) :: table) =
  (if any_of ciphers c then [suite] else []) ++ chosen ciphers table.
Proof. done. Qed.

Lemma chosen_length ciphers table : (length (chosen ciphers table) ≤ length table)%nat.
Proof.
  induction table as [|[c suite] table IH]; [done|].
  rewrite chosen_cons, length_app. destruct (any_of ciphers c); simpl; lia.
Qed.

Lemma put_suites_written ciphers table : ∀ p r,
  4 * blen table ≤ blen r →
  let l := chosen ciphers table in
  put_suites table (p ++ r) (blen p) ciphers =
  Some (p ++ flat_map be32_bytes l ++ drop (4 * length l) r, blen l).
Proof.
  induction table as [|[c suite] table IH]; intros p r Hr l.
  { subst l. cbn. by rewrite drop_0. }
  subst l. rewrite chosen_cons. cbn [put_suites]. cbn [length] in Hr.
  destruct (any_of ciphers c); cbn [app]; [|apply IH; lia].
  unfold RSN_SELECTOR_PUT, WPA_PUT_BE32.
  rewrite blit_in by (rewrite ?length_app; simpl length; lia). cbn [mbind option_bind].
  rewrite Nat2Z.id, take_app_length, drop_app_add, (assoc_L (++)).
  assert (E : blen p + RSN_SELECTOR_LEN = blen (p ++ be32_bytes suite)).
  { rewrite length_app. unfold RSN_SELECTOR_LEN. simpl length. lia. }
  rewrite E, IH by (rewrite length_drop; simpl length; lia). cbn [mbind option_bind].
  rewrite drop_drop. cbn [flat_map length]. rewrite <- !(assoc_L (++)).
  do 3 f_equal; [|lia]. do 2 f_equal. f_equal. simpl length. lia.
Qed.

Lemma chosen_words ciphers table : table_ok table → Forall (λ v, word v) (chosen ciphers table).
Proof.
  induction 1 as [|[c suite] table (Hw & _) _ IH]; [done|]. rewrite chosen_cons.
  destruct (any_of ciphers c); [by constructor|done].
Qed.

Lemma chosen_bits ciphers table : table_ok table → ∀ acc,
  bits_of decode acc (chosen ciphers table) = Z.lor acc (Z.land ciphers (lors table.*1)).
Proof.
  induction 1 as [|[c suite] table (_ & Hd & k & Hk & Hc) _ IH]; intros acc.
  { cbn. by rewrite Z.land_0_r, Z.lor_0_r. }
  rewrite chosen_cons. cbn [fmap list_fmap fst lors foldr]. fold (lors table.*1).
  rewrite Z.land_lor_distr_r. rewrite Hc, land_bit by done. rewrite <- Hc.
  destruct (any_of ciphers c); cbn [app].
  - unfold bits_of. cbn [fold_left]. fold (bits_of decode (Z.lor acc (decode suite)) (chosen ciphers table)).
    by rewrite IH, Hd, Z.lor_assoc.
  - by rewrite IH, Z.lor_0_l.
Qed.

Lemma put_then_read ciphers table p r :
  table_ok table → 4 * blen table ≤ blen r →
  ∃ w n, put_suites table (p ++ r) (blen p) ciphers = Some (p ++ w ++ drop (length w) r, n) ∧
    blen w = 4 * n ∧ 0 ≤ n ≤ blen table ∧
    read_suites to_bitfield (p ++ w ++ drop (length w) r) (Z.to_nat n) (blen p) 0 =
    Some (Z.land ciphers (lors table.*1)).
Proof.
  intros Ht Hr. rewrite put_suites_written by done.
  eexists (flat_map be32_bytes (chosen ciphers table)), _. split.
  { by rewrite flat_map_be32_length. }
  rewrite flat_map_be32_length, Nat2Z.id. split; [lia|]. split.
  { pose proof (chosen_length ciphers table). lia. }
  rewrite (read_suites_list _ _ to_bitfield_decodes) by auto using chosen_words.
  by rewrite chosen_bits, Z.lor_0_l.
Qed.
End put_suites.

(** Rsn_cipher_put_suites and wpa_cipher_put_suites write a list that the loops of
    the parsers read back as the ciphers of the set that can be listed, and touch
    only the octets of that list. *)
Theorem put_suites_roundtrip ciphers p r :
  (24 ≤ blen r →
   ∃ w n, rsn_cipher_put_suites (p ++ r) (blen p) ciphers = Some (p ++ w ++ drop (length w) r, n) ∧
     blen w = 4 * n ∧ 0 ≤ n ≤ 6 ∧
     read_suites rsn_selector_to_bitfield (p ++ w ++ drop (length w) r) (Z.to_nat n) (blen p) 0 =
     Some (Z.land ciphers (lors [WPA_CIPHER_CCMP_256; WPA_CIPHER_GCMP_256; WPA_CIPHER_CCMP;
             WPA_CIPHER_GCMP; WPA_CIPHER_TKIP; WPA_CIPHER_NONE]))) ∧
  (12 ≤ blen r →
   ∃ w n, wpa_cipher_put_suites (p ++ r) (blen p) ciphers = Some (p ++ w ++ drop (length w) r, n) ∧
     blen w = 4 * n ∧ 0 ≤ n ≤ 3 ∧
     read_suites wpa_selector_to_bitfield (p ++ w ++ drop (length w) r) (Z.to_nat n) (blen p) 0 =
     Some (Z.land ciphers (lors [WPA_CIPHER_CCMP; WPA_CIPHER_TKIP; WPA_CIPHER_NONE]))).
Proof.
  split; intros Hr.
  - apply (put_then_read _ rsn_suite_cipher (λ _ _, eq_refl) ciphers rsn_put_table); [|done].
    unfold table_ok, rsn_put_table.
    repeat (apply Forall_cons; split; [split; [vm_compute; done|split; [reflexivity|]]|]); [..|constructor].
    all: [> exists 9 | exists 8 | exists 4 | exists 6 | exists 3 | exists 0].
    all: split; [lia|reflexivity].
  - apply (put_then_read _ wpa_suite_cipher (λ _ _, eq_refl) ciphers wpa_put_table); [|done].
    unfold table_ok, wpa_put_table.
    repeat (apply Forall_cons; split; [split; [vm_compute; done|split; [reflexivity|]]|]); [..|constructor].
    all: [> exists 4 | exists 3 | exists 0].
    all: split; [lia|reflexivity].
Qed.

(** ** Moving octets *)
Lemma memmove_up a c r j :
  0 ≤ j → j ≤ blen r →
  memmove (a ++ c ++ r) (blen a + j) (blen a) (blen c) =
  Some (a ++ take (Z.to_nat j) (c ++ r) ++ c ++ drop (Z.to_nat j) r).
Proof.
  intros Hj Hr. unfold memmove. rewrite (slice_app_mid a c r) by done. cbn [mbind option_bind].
  rewrite blit_in by (rewrite ?length_app; lia). f_equal.
  replace (Z.to_nat (blen a + j)) with (length a + Z.to_nat j)%nat by lia.
  rewrite take_app_add, <- (assoc_L (++)). do 3 f_equal.
  rewrite <- Nat.add_assoc, drop_app_add, Nat.add_comm. by rewrite drop_app_add.
Qed.

Lemma memmove_down a x c r :
  memmove (a ++ x ++ c ++ r) (blen a) (blen a + blen x) (blen c) =
  Some (a ++ c ++ drop (length c) (x ++ c ++ r)).
Proof.
  unfold memmove. rewrite (assoc_L (++)).
  rewrite (slice_app_mid (a ++ x) c r) by (rewrite ?length_app; lia). cbn [mbind option_bind].
  rewrite <- (assoc_L (++)), blit_in by (rewrite ?length_app; lia). f_equal.
  by rewrite Nat2Z.id, take_app_length, drop_app_add.
Qed.

Lemma blit_mid (a x c o : list Z) p :
  p = blen a → length x = length o → blit (a ++ x ++ c) p o = Some (a ++ o ++ c).
Proof.
  intros -> Hx. rewrite blit_in by (rewrite ?length_app; lia). f_equal.
  by rewrite Nat2Z.id, take_app_length, drop_app_add, <- Hx, drop_app_length.
Qed.

(** A gap is opened in front of [c] and filled. *)
Lemma gap_filled a c r o1 o2 :
  blen o1 + blen o2 ≤ blen r →
  ∃ i1 i2,
    memmove (a ++ c ++ r) (blen a + (blen o1 + blen o2)) (blen a) (blen c) = Some i1 ∧
    blit i1 (blen a) o1 = Some i2 ∧
    blit i2 (blen a + blen o1) o2 =
      Some (a ++ o1 ++ o2 ++ c ++ drop (length o1 + length o2) r).
Proof.
  intros Hr. rewrite memmove_up by lia.
  replace (Z.to_nat (blen o1 + blen o2)) with (length o1 + length o2)%nat by lia.
  set (x := take _ _).
  assert (Hx : length x = (length o1 + length o2)%nat).
  { subst x. rewrite length_take, length_app. lia. }
  eexists _, (a ++ o1 ++ drop (length o1) x ++ c ++ drop _ r). split; [done|]. split.
  - rewrite <- (take_drop (length o1) x) at 1. rewrite <- (assoc_L (++)).
    apply blit_mid; [done|]. rewrite length_take. lia.
  - rewrite (assoc_L (++)), (assoc_L (++) a o1 (o2 ++ _)).
    apply blit_mid; rewrite ?length_app, ?length_drop; lia.
Qed.

Lemma blit_nil (b b' : list Z) o : blit b o [] = Some b' → b' = b.
Proof.
  intros (_ & _ & ->)%blit_Some. cbn [length app]. by rewrite Nat.add_0_r, take_drop.
Qed.

Lemma add_len_at pre id l q n :
  add_len (pre ++ [id; l] ++ q) (blen pre) n = Some (pre ++ [id; u8 (l + n)] ++ q).
Proof.
  unfold add_len. rewrite rd_app_plus by lia. cbn [mbind option_bind app].
  change (rd (id :: l :: q) 1) with (Some l). cbn [mbind option_bind].
  replace (pre ++ id :: l :: q) with ((pre ++ [id]) ++ l :: q) by (by rewrite <- (assoc_L (++))).
  rewrite wr_mid by (rewrite length_app; simpl length; lia).
  by rewrite <- (assoc_L (++)).
Qed.

Lemma u8_add_u8 a b : u8 (u8 a + b) = u8 (a + b).
Proof. unfold wrap. by rewrite Zplus_mod_idemp_l. Qed.

(** *** The PMKID list

    [t] is the rest of the element and [post] the elements after it. *)
Lemma put_pmkid_spec pre id l body x t post r end_ added k :
  let a := pre ++ [id; l] ++ body in
  opt_ok pmkids_ok x → (x = None → t = []) → (x ≠ None → added = 0) →
  blen k = 16 → 18 ≤ blen r →
  end_ + added = blen a + blen (opt_octets pmkids_octets x ++ t ++ post) →
  ∃ r',
    put_pmkid (a ++ (opt_octets pmkids_octets x ++ t) ++ post ++ r) (blen pre) (blen a)
      (blen a + blen (opt_octets pmkids_octets x ++ t)) end_ added k =
    Some (0, pre ++ [id; u8 (l + (18 - blen (opt_octets pmkids_octets x)))] ++ body ++
               (pmkids_octets [k] ++ t) ++ post ++ r',
          added + (18 - blen (opt_octets pmkids_octets x))).
Proof.
  intros a Hx Ht Hadd Hk Hr Hend. unfold put_pmkid.
  destruct x as [l1|]; cbn [opt_octets opt_ok] in *.
  - destruct Hx as [Hl1 Hn]. pose proof (concat_16_length l1 Hl1) as Hc.
    unfold pmkids_octets in *. rewrite !length_app in *. simpl length in *.
    rewrite bool_decide_eq_false_2 by lia. rewrite bool_decide_eq_false_2 by lia.
    rewrite <- !(assoc_L (++)), get_le16_app by lia. cbn [mbind option_bind].
    rewrite (bool_decide_eq_false_2 (blen a + _ - _ - _ < _)) by (unfold PMKID_LEN; lia).
    rewrite andb_false_r.
    (* the old PMKIDs go *)
    assert (Hold : ∃ l' r2, u8 (l' + 16) = u8 (l + (18 - (2 + blen (concat l1)))) ∧
      18 + blen (concat l1) ≤ blen r2 + 2 ∧
      (if bool_decide (blen l1 ≠ 0) then
         ies ← memmove (a ++ le16_bytes (blen l1) ++ concat l1 ++ t ++ post ++ r)
                 (blen a + 2) (blen a + 2 + blen l1 * PMKID_LEN)
                 (end_ - (blen a + 2 + blen l1 * PMKID_LEN));
         ies ← add_len ies (blen pre) (- (blen l1 * PMKID_LEN));
         Some (ies, added - blen l1 * PMKID_LEN)
       else Some (a ++ le16_bytes (blen l1) ++ concat l1 ++ t ++ post ++ r, added)) =
      Some (pre ++ [id; l'] ++ body ++ le16_bytes (blen l1) ++ t ++ post ++ r2,
            added - blen (concat l1))).
    { case_bool_decide as Hz.
      - rewrite Hadd in * by done. unfold PMKID_LEN.
        pose proof (memmove_down (a ++ le16_bytes (blen l1)) (concat l1) (t ++ post) r) as Em.
        rewrite <- !(assoc_L (++)) in Em.
        replace (blen (a ++ le16_bytes (blen l1))) with (blen a + 2) in Em
          by (rewrite length_app; simpl length; lia).
        rewrite length_app in Em.
        replace (end_ - (blen a + 2 + blen l1 * 16)) with (Z.of_nat (length t + length post)) by lia.
        replace (blen l1 * 16) with (blen (concat l1)) by lia.
        rewrite Em. cbn [mbind option_bind]. unfold a. rewrite <- !(assoc_L (++)), add_len_at.
        cbn [mbind option_bind]. eexists _, _. split; [|split; [|reflexivity]].
        + rewrite u8_add_u8. f_equal. lia.
        + rewrite length_drop, !length_app. lia.
      - exists l, r. destruct l1; [|simpl in Hz; lia]. simpl length. split_and!; [f_equal; lia|lia|].
        unfold a. rewrite <- !(assoc_L (++)). cbn [concat app length]. repeat f_equal. lia. }
    destruct Hold as (l' & r2 & Hl' & Hr2 & ->). cbn [mbind option_bind].
    replace (pre ++ [id; l'] ++ body ++ le16_bytes (blen l1) ++ t ++ post ++ r2) with
      ((pre ++ [id; l'] ++ body) ++ le16_bytes (blen l1) ++ t ++ post ++ r2)
      by (by rewrite <- !(assoc_L (++))).
    set (a' := pre ++ [id; l'] ++ body).
    assert (Ha : blen a' = blen a) by (subst a' a; rewrite !length_app; simpl length; lia).
    rewrite <- Ha. unfold WPA_PUT_LE16.
    rewrite (blit_mid a' (le16_bytes (blen l1))) by done. cbn [mbind option_bind].
    destruct (gap_filled (a' ++ le16_bytes 1) (t ++ post) r2 k []) as (i1 & i2 & E1 & E2 & E3);
      [simpl length; lia|].
    replace (blen (a' ++ le16_bytes 1)) with (blen a' + 2) in * by (rewrite length_app; simpl length; lia).
    replace (blen k + blen []) with PMKID_LEN in E1 by (unfold PMKID_LEN; simpl length; lia).
    rewrite <- !(assoc_L (++)) in E1, E3. rewrite length_app in E1.
    replace (end_ + (added - blen (concat l1)) - (blen a' + 2)) with
      (Z.of_nat (length t + length post)) by lia.
    rewrite E1. cbn [mbind option_bind]. rewrite E2. cbn [mbind option_bind].
    apply blit_nil in E3 as <-.
    unfold a' at 1. rewrite <- !(assoc_L (++)), add_len_at. cbn [mbind option_bind].
    exists (drop (length k + 0) r2). unfold pmkids_octets. cbn [concat app length].
    rewrite ?app_nil_r. unfold PMKID_LEN. rewrite Hl', <- !(assoc_L (++)), Nat2Z.inj_add.
    do 2 f_equal. lia.
  - rewrite Ht in * by done. cbn [app length] in *. rewrite bool_decide_eq_true_2 by lia.
    destruct (gap_filled a post r (le16_bytes 1) k) as (i1 & i2 & E1 & E2 & E3);
      [simpl length; lia|].
    replace (blen a + 2 + PMKID_LEN) with (blen a + (blen (le16_bytes 1) + blen k))
      by (unfold PMKID_LEN; simpl length; lia).
    replace (end_ + added - blen a) with (blen post) by lia.
    rewrite E1. cbn [mbind option_bind]. unfold WPA_PUT_LE16. rewrite E2. cbn [mbind option_bind].
    change (blen a + 2) with (blen a + blen (le16_bytes 1)). rewrite E3. cbn [mbind option_bind].
    change a with (pre ++ [id; l] ++ body). rewrite <- !(assoc_L (++)), add_len_at. cbn [mbind option_bind].
    exists (drop (length (le16_bytes 1) + length k) r).
    unfold pmkids_octets. cbn [concat]. rewrite !app_nil_r, <- !(assoc_L (++)). done.
Qed.

(** *** Finding the element *)
Definition element (x : Z * list Z) : list Z := x.1 :: blen x.2 :: x.2.

Lemma element_length x : blen (element x) = 2 + blen x.2.
Proof. unfold element. simpl. lia. Qed.

(** The elements before the first RSN element are skipped. *)
Lemma find_rsne_skip l : ∀ fuel p q end_,
  Forall (λ x, x.1 ≠ WLAN_EID_RSN) l → (length l < fuel)%nat →
  blen (p ++ flat_map element l) < end_ →
  find_rsne fuel (p ++ flat_map element l ++ WLAN_EID_RSN :: q) (blen p) end_ =
  Some (blen (p ++ flat_map element l)).
Proof.
  induction l as [|x l IH]; intros fuel p q end_ Hl Hf Hend.
  - destruct fuel as [|fuel]; [simpl in Hf; lia|]. cbn [flat_map app] in *.
    rewrite app_nil_r in *. cbn [find_rsne]. rewrite bool_decide_eq_true_2 by done.
    rewrite rd_app_at. change (rd (WLAN_EID_RSN :: q) 0) with (Some WLAN_EID_RSN).
    cbn [mbind option_bind]. by rewrite bool_decide_eq_true_2.
  - destruct fuel as [|fuel]; [simpl in Hf; lia|]. cbn [flat_map] in *.
    apply Forall_cons in Hl as [Hx Hl]. cbn [find_rsne].
    rewrite bool_decide_eq_true_2 by (rewrite length_app in Hend; lia).
    rewrite <- !(assoc_L (++)).
    assert (E0 : ∀ z, rd (p ++ element x ++ z) (blen p) = Some x.1) by (intros; by rewrite rd_app_at).
    assert (E1 : ∀ z, rd (p ++ element x ++ z) (blen p + 1) = Some (blen x.2))
      by (intros; by rewrite rd_app_plus).
    rewrite E0. cbn [mbind option_bind]. rewrite bool_decide_eq_false_2 by done.
    rewrite E1. cbn [mbind option_bind].
    specialize (IH fuel (p ++ element x) q end_ Hl). cbn [length] in Hf.
    rewrite <- !(assoc_L (++)) in IH.
    replace (blen p + (2 + blen x.2)) with (blen (p ++ element x))
      by (rewrite length_app, Nat2Z.inj_add, element_length; lia).
    apply IH; [lia|done].
Qed.

(** ** The operation *)
Definition rsn_element (e : rsne) (rest : list Z) : list Z :=
  rsne_header (blen (rsne_octets e ++ rest)) ++ rsne_octets e ++ rest.

(** The element with one PMKID, and with capabilities, which must come before. *)
Definition with_pmkid (e : rsne) (k : list Z) : rsne :=
  mk_rsne (r_group e) (r_pairwise e) (r_akms e) (Some (default 0 (r_capab e))) (Some [k]) (r_mgmt e).

Definition insertable (e : rsne) (rest : list Z) : Prop :=
  (∃ g p a, r_group e = Some g ∧ r_pairwise e = Some p ∧ r_akms e = Some a ∧
            blen p < 65536 ∧ blen a < 65536) ∧
  opt_ok pmkids_ok (r_pmkids e) ∧
  (r_capab e = None → r_pmkids e = None) ∧
  (r_pmkids e = None → r_mgmt e = None ∧ rest = []).

(** From the start of the RSN element [id; l] with the suites [body] and what follows:
    the capabilities, the PMKID list, the rest [t] of the element and [q]. *)
Lemma insert_at_capab pre l g p a c t post spare k n :
  let body := [1; 0] ++ be32_bytes g ++ suites_octets p ++ suites_octets a in
  blen p < 65536 → blen a < 65536 →
  l = blen body + blen (opt_octets le16_bytes c ++ t) →
  n = blen (pre ++ [WLAN_EID_RSN; l] ++ body ++ opt_octets le16_bytes c ++ t ++ post) →
  (∀ q, find_rsne (Z.to_nat n) (pre ++ WLAN_EID_RSN :: q) 0 n = Some (blen pre)) →
  let mem := pre ++ [WLAN_EID_RSN; l] ++ body ++ opt_octets le16_bytes c ++ t ++ post ++ spare in
  let start := blen pre in
  let rpos := blen (pre ++ [WLAN_EID_RSN; l] ++ body) in
  wpa_insert_pmkid mem n k =
    (if bool_decide (rpos = start + 2 + l) then
       ies ← memmove mem (rpos + 2) rpos (n - rpos);
       ies ← blit ies rpos [0; 0];
       ies ← add_len ies start 2;
       '(r, ies, added) ← put_pmkid ies start (rpos + 2) (rpos + 2) n 2 k;
       Some (r, ies, if bool_decide (r = 0) then n + added else n)
     else if bool_decide (start + 2 + l < rpos + 2) then Some (-1, mem, n)
     else
       '(r, ies, added) ← put_pmkid mem start (rpos + 2) (start + 2 + l) n 0 k;
       Some (r, ies, if bool_decide (r = 0) then n + added else n)).
Proof.
  intros body Hp Ha Hl Hn Hfind mem start rpos. unfold wpa_insert_pmkid.
  assert (E0 : find_rsne (Z.to_nat n) mem 0 n = Some (blen pre)) by exact (Hfind _).
  rewrite E0. cbn [mbind option_bind].
  rewrite bool_decide_eq_false_2 by (rewrite Hn, !length_app; simpl length; lia).
  assert (E1 : rd mem (blen pre + 1) = Some l).
  { unfold mem. by rewrite rd_app_plus. }
  rewrite E1. cbn [mbind option_bind].
  assert (E2 : WPA_GET_LE16 mem (blen pre + 2 + (2 + 4)) = Some (blen p)).
  { unfold mem, body, suites_octets.
    match goal with |- context [?x ++ ?y ++ ([1; 0] ++ ?z ++ (le16_bytes ?c ++ ?w) ++ ?v) ++ ?u] =>
      replace (x ++ y ++ ([1; 0] ++ z ++ (le16_bytes c ++ w) ++ v) ++ u) with
        ((x ++ y ++ [1; 0] ++ z) ++ le16_bytes c ++ w ++ v ++ u)
        by (by rewrite <- !(assoc_L (++))) end.
    apply get_le16_app; [lia|]. rewrite !length_app. simpl length. lia. }
  rewrite E2. cbn [mbind option_bind].
  assert (E3 : WPA_GET_LE16 mem (blen pre + 2 + (2 + 4) + (2 + blen p * RSN_SELECTOR_LEN)) =
               Some (blen a)).
  { unfold mem, body, suites_octets at 2.
    match goal with |- context [?x ++ ?y ++ ([1; 0] ++ ?z ++ ?s ++ (le16_bytes ?c ++ ?w)) ++ ?u] =>
      replace (x ++ y ++ ([1; 0] ++ z ++ s ++ (le16_bytes c ++ w)) ++ u) with
        ((x ++ y ++ [1; 0] ++ z ++ s) ++ le16_bytes c ++ w ++ u)
        by (by rewrite <- !(assoc_L (++))) end.
    apply get_le16_app; [lia|].
    rewrite !length_app. unfold RSN_SELECTOR_LEN. simpl length. rewrite flat_map_be32_length. lia. }
  rewrite E3. cbn [mbind option_bind].
  assert (Hr : blen pre + 2 + (2 + 4) + (2 + blen p * RSN_SELECTOR_LEN) +
               (2 + blen a * RSN_SELECTOR_LEN) = rpos).
  { unfold rpos, body, RSN_SELECTOR_LEN. rewrite !length_app. simpl length.
    rewrite !flat_map_be32_length. lia. }
  rewrite Hr. done.
Qed.

Lemma insert_pmkid_into l e rest post spare k :
  Forall (λ x, x.1 ≠ WLAN_EID_RSN) l → insertable e rest →
  blen k = 16 → 20 ≤ blen spare →
  blen (rsne_octets (with_pmkid e k) ++ rest) ≤ 253 →
  let pre := flat_map element l in
  ∃ spare',
    wpa_insert_pmkid (pre ++ rsn_element e rest ++ post ++ spare)
      (blen (pre ++ rsn_element e rest ++ post)) k =
    Some (0, pre ++ rsn_element (with_pmkid e k) rest ++ post ++ spare',
          blen (pre ++ rsn_element (with_pmkid e k) rest ++ post)).
Proof.
  intros Hl ((g & p & a & Hg & Hp & Ha & Hnp & Hna) & Hpm & Hcap & Hno) Hk Hsp Hlen pre.
  destruct e as [eg ep ea c pm m]. cbn in Hg, Hp, Ha, Hpm, Hcap, Hno. subst eg ep ea.
  set (body := [1; 0] ++ be32_bytes g ++ suites_octets p ++ suites_octets a).
  set (T pm' := opt_octets pmkids_octets pm' ++ opt_octets be32_bytes m ++ rest).
  assert (Helem : ∀ c' pm' q, rsn_element (mk_rsne (Some g) (Some p) (Some a) c' pm' m) rest ++ q =
    [WLAN_EID_RSN; blen body + blen (opt_octets le16_bytes c' ++ T pm')] ++
    body ++ opt_octets le16_bytes c' ++ T pm' ++ q).
  { intros c' pm' q. unfold rsn_element, rsne_header, rsne_octets, body, T.
    cbn [r_group r_pairwise r_akms r_capab r_pmkids r_mgmt opt_octets].
    rewrite <- !(assoc_L (++)). cbn [app]. f_equal. f_equal.
    unfold body. cbn [length app]. rewrite ?length_app. lia. }
  assert (Hnew : with_pmkid (mk_rsne (Some g) (Some p) (Some a) c pm m) k =
                 mk_rsne (Some g) (Some p) (Some a) (Some (default 0 c)) (Some [k]) m) by done.
  rewrite Hnew in *. clear Hnew. rewrite !Helem.
  set (L := blen body + _). set (n := blen (pre ++ [WLAN_EID_RSN; L] ++ _)).
  assert (Hfind : ∀ q, find_rsne (Z.to_nat n) (pre ++ WLAN_EID_RSN :: q) 0 n = Some (blen pre)).
  { intros q. apply (find_rsne_skip l (Z.to_nat n) [] q n Hl); subst n; rewrite !length_app;
      cbn [length app]; fold pre; [|lia].
    assert (length l ≤ length pre)%nat; [|lia]. subst pre. clear.
    induction l; simpl; [lia|]. rewrite length_app. simpl. lia. }
  pose proof (insert_at_capab pre L g p a c (T pm) post spare k n Hnp Hna eq_refl eq_refl Hfind) as E.
  cbv zeta in E. fold body in E. rewrite E. clear E.
  set (rpos := blen (pre ++ [WLAN_EID_RSN; L] ++ body)).
  assert (Hpos : rpos = blen pre + 2 + blen body)
    by (subst rpos; rewrite !length_app; cbn [length]; lia).
  assert (HL : L = blen body + blen (opt_octets le16_bytes c) + blen (T pm))
    by (subst L; rewrite length_app; lia).
  assert (Hn : n = blen pre + 2 + L + blen post)
    by (subst n; rewrite HL, !length_app; cbn [length]; lia).
  assert (Hnewlen : blen body + 2 + blen (T (Some [k])) < 256).
  { revert Hlen. unfold rsne_octets, T, body.
    cbn [r_group r_pairwise r_akms r_capab r_pmkids r_mgmt opt_octets].
    rewrite !length_app. cbn [length be32_bytes le16_bytes]. lia. }
  assert (Hk18 : blen (pmkids_octets [k]) = 18).
  { unfold pmkids_octets. cbn [concat]. rewrite app_nil_r, length_app. cbn [length le16_bytes]. lia. }
  assert (HT : blen (T (Some [k])) = blen (T pm) + (18 - blen (opt_octets pmkids_octets pm))).
  { unfold T. cbn [opt_octets]. rewrite !(length_app (_ : list Z) (_ ++ rest)). lia. }
  destruct c as [c|]; cbn [opt_octets default] in *.
  - destruct (put_pmkid_spec pre WLAN_EID_RSN L (body ++ le16_bytes c) pm
      (opt_octets be32_bytes m ++ rest) post spare n 0 k) as (r' & E).
    + done.
    + intros Hnone. by destruct (Hno Hnone) as [-> ->].
    + done.
    + done.
    + lia.
    + rewrite Hn, HL. unfold T. rewrite !length_app. cbn [length le16_bytes]. lia.
    + rewrite !bool_decide_eq_false_2 by (rewrite ?length_app; cbn [length le16_bytes] in *; lia).
      rewrite <- !(assoc_L (++)) in E. unfold T at 1. rewrite <- !(assoc_L (++)).
      assert (HTl : blen (T pm) = blen (opt_octets pmkids_octets pm) +
                    blen (opt_octets be32_bytes m ++ rest)) by (unfold T; rewrite length_app; lia).
      assert (HBa : blen (pre ++ [WLAN_EID_RSN; L] ++ body ++ le16_bytes c) =
                    blen pre + 2 + blen body + 2)
        by (rewrite !length_app; cbn [length le16_bytes]; lia).
      change (blen (le16_bytes c)) with 2 in HL.
      replace (rpos + 2) with (blen (pre ++ [WLAN_EID_RSN; L] ++ body ++ le16_bytes c)) by lia.
      replace (blen pre + 2 + L) with (blen (pre ++ [WLAN_EID_RSN; L] ++ body ++ le16_bytes c) +
        blen (opt_octets pmkids_octets pm ++ opt_octets be32_bytes m ++ rest))
        by (rewrite (length_app (opt_octets pmkids_octets pm)); lia).
      rewrite E. cbn [mbind option_bind]. exists r'. rewrite Helem. cbn [opt_octets id].
      rewrite wrap_small by (change (2 ^ 8) with 256; cbn [length le16_bytes] in *; lia).
      rewrite bool_decide_eq_true_2 by done.
      replace (L + (18 - blen (opt_octets pmkids_octets pm))) with
        (blen body + blen (le16_bytes c ++ T (Some [k])))
        by (rewrite length_app, Nat2Z.inj_add, HT; change (blen (le16_bytes c)) with 2; lia).
      f_equal. f_equal; [f_equal|].
      * unfold T. cbn [opt_octets]. by rewrite <- !(assoc_L (++)).
      * rewrite Hn, HL, !length_app, !Nat2Z.inj_add, HT.
        change (blen (le16_bytes c)) with 2. cbn [length]. lia.
  - destruct (Hno (Hcap eq_refl)) as [-> ->]. rewrite Hcap in * by done.
    unfold T in HL, HT |- *. cbn [opt_octets app length] in HL, HT |- *.
    rewrite bool_decide_eq_true_2 by lia.
    destruct (gap_filled (pre ++ [WLAN_EID_RSN; L] ++ body) post spare [0; 0] []) as (i1 & i2 & E1 & E2 & E3);
      [cbn [length]; lia|].
    apply blit_nil in E3 as <-. rewrite <- !(assoc_L (++)) in E1, E2.
    fold rpos in E1, E2. cbn [length] in E1, E2. cbn [app] in E1, E2 |- *.
    change (Z.of_nat 2 + Z.of_nat 0) with 2 in E1.
    replace (n - rpos) with (blen post) by lia. rewrite E1. cbn [mbind option_bind].
    rewrite E2. cbn [mbind option_bind].
    pose proof (add_len_at pre WLAN_EID_RSN L (body ++ [0; 0] ++ post ++ drop 2 spare) 2) as E4.
    cbn [app] in E4. cbn [Nat.add]. rewrite E4. cbn [mbind option_bind].
    destruct (put_pmkid_spec pre WLAN_EID_RSN (u8 (L + 2)) (body ++ [0; 0]) None [] post (drop 2 spare)
      n 2 k) as (r' & E).
    + done.
    + done.
    + done.
    + done.
    + rewrite length_drop. lia.
    + cbn [opt_octets app]. rewrite Hn, HL, !length_app. cbn [length]. rewrite length_app. cbn [length]. lia.
    + rewrite <- !(assoc_L (++)) in E. cbn [opt_octets app length] in E.
      assert (Ha0 : blen (pre ++ WLAN_EID_RSN :: u8 (L + 2) :: body ++ [0; 0]) = rpos + 2)
        by (rewrite Hpos, length_app; cbn [length]; rewrite length_app; cbn [length]; lia).
      rewrite Ha0 in E. change (Z.of_nat 0) with 0 in *. rewrite Z.add_0_r in E.
      rewrite E. cbn [mbind option_bind]. exists r'.
      pose proof (Helem (Some 0) (Some [k]) (post ++ r')) as Enew.
      unfold T in Enew. cbn [opt_octets app] in Enew. rewrite Enew.
      unfold T in Hnewlen. cbn [opt_octets app] in Hnewlen. rewrite app_nil_r in Hnewlen.
      rewrite u8_add_u8, wrap_small by (change (2 ^ 8) with 256; lia).
      rewrite bool_decide_eq_true_2 by done. rewrite !app_nil_r.
      replace (L + 2 + (18 - 0)) with (blen body + blen (le16_bytes 0 ++ pmkids_octets [k]))
        by (rewrite length_app; change (length (le16_bytes 0)) with 2%nat; lia).
      f_equal. f_equal.
      rewrite Hn, HL, length_app. cbn [length]. rewrite !length_app.
      change (length (le16_bytes 0)) with 2%nat. lia.
Qed.

(** C34: wpa_insert_pmkid finds the first RSN element among other elements and gives it
    the PMKID as the only one of its list, with zero capabilities when it had none.
    Every other octet of the elements keeps its value, the length is updated, and no
    more than twenty octets of room are needed. *)
Theorem insert_pmkid_replaces l e rest post spare k :
  Forall (λ x, x.1 ≠ WLAN_EID_RSN) l → insertable e rest →
  blen k = 16 → 20 ≤ blen spare →
  blen (rsne_octets (with_pmkid e k) ++ rest) ≤ 253 →
  let pre := flat_map element l in
  ∃ spare',
    wpa_insert_pmkid (pre ++ rsn_element e rest ++ post ++ spare)
      (blen (pre ++ rsn_element e rest ++ post)) k =
    Some (0, pre ++ rsn_element (with_pmkid e k) rest ++ post ++ spare',
          blen (pre ++ rsn_element (with_pmkid e k) rest ++ post)).
Proof. apply insert_pmkid_into. Qed.

(** The memory keeps its size. *)
Ltac same_length := repeat match goal with
  | H : (_ ← ?m; _) = Some _ |- _ => destruct m eqn:?; [|done]; cbn [mbind option_bind] in H
  | H : (let '(_, _) := ?p in _) = Some _ |- _ => destruct p
  | H : (if ?c then _ else _) = Some _ |- _ => destruct c
  | H : Some _ = Some _ |- _ => injection H as ? ?; subst
  | H : blit _ _ _ = Some _ |- _ => apply blit_length in H
  | H : wr _ _ _ = Some _ |- _ => apply wr_length in H
  end.
Lemma memmove_length ies dst src n ies' : memmove ies dst src n = Some ies' → length ies' = length ies.
Proof. unfold memmove. intros H. by same_length. Qed.
Lemma add_len_length ies st n ies' : add_len ies st n = Some ies' → length ies' = length ies.
Proof. unfold add_len. intros H. by same_length. Qed.
Lemma put_pmkid_length ies st rpos rend end_ added k r ies' n :
  put_pmkid ies st rpos rend end_ added k = Some (r, ies', n) → length ies' = length ies.
Proof.
  unfold put_pmkid, WPA_PUT_LE16. intros H. same_length;
  repeat match goal with
  | H : memmove _ _ _ _ = Some _ |- _ => apply memmove_length in H
  | H : add_len _ _ _ = Some _ |- _ => apply add_len_length in H
  end; congruence.
Qed.
Lemma insert_pmkid_length ies n k r ies' n' :
  wpa_insert_pmkid ies n k = Some (r, ies', n') → length ies' = length ies.
Proof.
  unfold wpa_insert_pmkid. intros H. same_length;
  repeat match goal with
  | H : memmove _ _ _ _ = Some _ |- _ => apply memmove_length in H
  | H : add_len _ _ _ = Some _ |- _ => apply add_len_length in H
  | H : put_pmkid _ _ _ _ _ _ _ = Some _ |- _ => apply put_pmkid_length in H
  end; congruence.
Qed.

(** ** Comparing elements *)
Lemma rsn_element_parsed e rest :
  bytes_ok (rsne_octets e ++ rest) → blen (rsne_octets e ++ rest) ≤ 253 → rsne_ok e rest →
  wpa_parse_wpa_ie_rsn (rsn_element e rest) (blen (rsn_element e rest)) =
  Some (0, rsne_data 4 e rsn_defaults).
Proof. intros Hb Hl He. apply rsn_parse_exact; [done..|]. by exists e, rest. Qed.

Lemma with_pmkid_ok e rest k :
  insertable e rest → rsne_ok e rest → length k = 16%nat → rsne_ok (with_pmkid e k) rest.
Proof.
  intros ((g & p & a & Hg & Hp & Ha & _) & _ & Hcap & Hno) Hok Hk.
  destruct e as [eg ep ea c pm m]. cbn in Hg, Hp, Ha, Hcap, Hno. subst eg ep ea.
  destruct Hok as [[[[[H1 H2] H3] H4] H5] H6]. unfold munch in *.
  cbn [r_group r_pairwise r_akms r_capab r_pmkids r_mgmt opt_ok with_pmkid] in *.
  unfold rsne_ok, munch, with_pmkid.
  cbn [r_group r_pairwise r_akms r_capab r_pmkids r_mgmt opt_ok].
  split; [split; [split; [split; [split|]|]|]|].
  - split; [apply H1|done].
  - split; [apply H2|done].
  - split; [apply H3|done].
  - split; [|done]. destruct c; [apply H4|done].
  - split; [|done]. split; [by apply Forall_singleton|done].
  - exact H6.
Qed.

(** In the initial mobility domain association, an RSN element and the one that
    wpa_insert_pmkid makes of it compare as equal. *)
Theorem ft_compare_ignores_pmkid e rest k :
  insertable e rest → rsne_ok e rest → length k = 16%nat →
  bytes_ok (rsne_octets e ++ rest) → bytes_ok (rsne_octets (with_pmkid e k) ++ rest) →
  blen (rsne_octets e ++ rest) ≤ 253 → blen (rsne_octets (with_pmkid e k) ++ rest) ≤ 253 →
  wpa_compare_rsn_ie true (Some (rsn_element e rest)) (Some (rsn_element (with_pmkid e k) rest)) =
  Some 0.
Proof.
  intros Hi Hok Hk Hb Hb' Hl Hl'. unfold wpa_compare_rsn_ie. case_bool_decide; [done|].
  rewrite !rsn_element_parsed by auto using with_pmkid_ok. cbn [mbind option_bind].
  rewrite bool_decide_eq_false_2 by done.
  unfold rsne_data, with_pmkid.
  cbn [r_group r_pairwise r_akms r_capab r_pmkids r_mgmt ie_proto ie_pairwise_cipher
       ie_group_cipher ie_key_mgmt ie_capabilities ie_mgmt_group_cipher].
  rewrite !bool_decide_eq_true_2 by (try done; by destruct (r_capab e)). done.
Qed.

(** ** Concrete elements *)
Lemma put_suites_roundtrip_witness :
  24 ≤ blen (replicate 24 0) ∧
  ∃ w n, rsn_cipher_put_suites ([1; 2] ++ replicate 24 0) 2 (Z.lor WPA_CIPHER_CCMP WPA_CIPHER_TKIP) =
         Some ([1; 2] ++ w ++ drop (length w) (replicate 24 0), n) ∧ blen w = 4 * n.
Proof.
  assert (H : 24 ≤ blen (replicate 24 0)) by (simpl; lia). split; [exact H|].
  destruct (proj1 (put_suites_roundtrip (Z.lor WPA_CIPHER_CCMP WPA_CIPHER_TKIP) [1; 2]
    (replicate 24 0)) H) as (w & n & H1 & H2 & _).
  exists w, n. split; [exact H1|exact H2].
Defined.

(** CCMP and PSK without capabilities, after a supported rates element. *)
Definition psk_rsne : rsne :=
  mk_rsne (Some RSN_CIPHER_SUITE_CCMP) (Some [RSN_CIPHER_SUITE_CCMP])
    (Some [RSN_AUTH_KEY_MGMT_FT_PSK]) None None None.
Definition some_elements : list (Z * list Z) := [(1, [130; 132; 139; 150])].

Lemma psk_insertable : insertable psk_rsne [].
Proof. split; [by eexists _, _, _|]. by repeat split. Qed.
Lemma psk_rsne_ok : rsne_ok psk_rsne [].
Proof.
  assert (H : ∀ v, word v → suites_ok [v]).
  { intros v Hv. split; [done|]. split; [by apply Forall_singleton|done]. }
  split; [split; [split; [split; [split|]|]|]|]; (split; [|done]); try done.
  - split; [apply H|]; done.
  - by apply H.
Qed.
Lemma some_elements_ok : Forall (λ x, x.1 ≠ WLAN_EID_RSN) some_elements.
Proof. by apply Forall_singleton. Qed.

Lemma insert_pmkid_replaces_witness :
  ∃ spare',
    wpa_insert_pmkid (flat_map element some_elements ++ rsn_element psk_rsne [] ++ [54; 3; 1; 2; 0] ++
                      replicate 20 0)
      (blen (flat_map element some_elements ++ rsn_element psk_rsne [] ++ [54; 3; 1; 2; 0]))
      (replicate 16 9) =
    Some (0, flat_map element some_elements ++ rsn_element (with_pmkid psk_rsne (replicate 16 9)) [] ++
             [54; 3; 1; 2; 0] ++ spare',
          blen (flat_map element some_elements ++
                rsn_element (with_pmkid psk_rsne (replicate 16 9)) [] ++ [54; 3; 1; 2; 0])).
Proof.
  refine (insert_pmkid_replaces some_elements psk_rsne [] [54; 3; 1; 2; 0] (replicate 20 0)
    (replicate 16 9) some_elements_ok psk_insertable eq_refl _ _); vm_compute; discriminate.
Defined.

Lemma psk_octets_ok :
  bytes_ok (rsne_octets psk_rsne ++ []) ∧
  bytes_ok (rsne_octets (with_pmkid psk_rsne (replicate 16 9)) ++ []).
Proof. apply (bool_decide_unpack _). vm_compute. done. Qed.

Lemma ft_compare_ignores_pmkid_witness :
  wpa_compare_rsn_ie true (Some (rsn_element psk_rsne []))
    (Some (rsn_element (with_pmkid psk_rsne (replicate 16 9)) [])) = Some 0.
Proof.
  refine (ft_compare_ignores_pmkid psk_rsne [] (replicate 16 9) psk_insertable psk_rsne_ok eq_refl
    (proj1 psk_octets_ok) (proj2 psk_octets_ok) _ _); vm_compute; discriminate.
Defined.
