(* ===== verification/Kde.v ===== *)
(** Key data of EAPOL-Key frames (src/common/wpa_common.c)

    [wpa_parse_kde_ies] walks over the elements and KDEs of the key data and records
    where each known one is.  Members of struct wpa_eapol_ie_parse that are pointers
    are offsets into the key data, and a length member belongs to its pointer.  A read
    outside the key data is [None]. *)
From stdpp Require Import functions.
From S2P Require Import Prelude Bytes Wpabuf Defs Suites RsnIe.

(** ** Constants *)
Definition WLAN_EID_SUPP_RATES := 1.
Definition WLAN_EID_SUPPORTED_CHANNELS := 36.
Definition WLAN_EID_HT_CAP := 45.
Definition WLAN_EID_QOS := 46.
Definition WLAN_EID_EXT_SUPP_RATES := 50.
Definition WLAN_EID_MOBILITY_DOMAIN := 54.
Definition WLAN_EID_FAST_BSS_TRANSITION := 55.
Definition WLAN_EID_TIMEOUT_INTERVAL := 56.
Definition WLAN_EID_SUPPORTED_OPERATING_CLASSES := 59.
Definition WLAN_EID_LINK_ID := 101.
Definition WLAN_EID_EXT_CAPAB := 127.
Definition WLAN_EID_VHT_CAP := 191.
Definition WLAN_EID_VHT_AID := 197.
Definition WLAN_EID_EXTENSION := 255.
Definition WLAN_EID_EXT_HE_CAPABILITIES := 35.
Definition WLAN_EID_EXT_HE_6GHZ_BAND_CAP := 59.
Definition WLAN_TIMEOUT_REASSOC_DEADLINE := 1.
Definition WLAN_TIMEOUT_KEY_LIFETIME := 2.
Definition IEEE80211_HE_CAPAB_MIN_LEN := 6 + 11.
Definition OUI_MICROSOFT := 0x0050f2.
Definition WMM_OUI_TYPE := 2.
Definition WMM_OUI_SUBTYPE_INFORMATION_ELEMENT := 0.
Definition WMM_OUI_SUBTYPE_PARAMETER_ELEMENT := 1.
Definition RSNXE_OVERRIDE_IE_VENDOR_TYPE := 0x506f9a2b.
Definition RSN_SELECTION_IE_VENDOR_TYPE := 0x506f9a2c.

(** [sizeof] of the packed structures of ieee802_11_defs.h *)
Definition sizeof_ht_capabilities := 26.
Definition sizeof_vht_capabilities := 12.
Definition sizeof_he_6ghz_band_cap := 2.

Definition RSN_KEY_DATA_GROUPKEY := RSN_SELECTOR 0x00 0x0f 0xac 1.
Definition RSN_KEY_DATA_MAC_ADDR := RSN_SELECTOR 0x00 0x0f 0xac 3.
Definition RSN_KEY_DATA_PMKID := RSN_SELECTOR 0x00 0x0f 0xac 4.
Definition RSN_KEY_DATA_IGTK := RSN_SELECTOR 0x00 0x0f 0xac 9.
Definition RSN_KEY_DATA_KEYID := RSN_SELECTOR 0x00 0x0f 0xac 10.
Definition RSN_KEY_DATA_OCI := RSN_SELECTOR 0x00 0x0f 0xac 13.
Definition RSN_KEY_DATA_BIGTK := RSN_SELECTOR 0x00 0x0f 0xac 14.
Definition WFA_KEY_DATA_IP_ADDR_REQ := RSN_SELECTOR 0x50 0x6f 0x9a 4.
Definition WFA_KEY_DATA_IP_ADDR_ALLOC := RSN_SELECTOR 0x50 0x6f 0x9a 5.
Definition WFA_KEY_DATA_TRANSITION_DISABLE := RSN_SELECTOR 0x50 0x6f 0x9a 0x20.
Definition WFA_KEY_DATA_DPP := RSN_SELECTOR 0x50 0x6f 0x9a 0x21.

(** ** Data *)

(** The pointer members of struct wpa_eapol_ie_parse. *)
Inductive kde :=
| k_wpa_ie | k_rsn_ie | k_pmkid | k_key_id | k_gtk | k_mac_addr | k_igtk | k_bigtk
| k_mdie | k_ftie | k_ip_addr_req | k_ip_addr_alloc | k_transition_disable | k_dpp_kde
| k_oci | k_osen | k_rsnxe | k_reassoc_deadline | k_key_lifetime | k_lnkid | k_ext_capab
| k_supp_rates | k_ext_supp_rates | k_ht_capabilities | k_vht_capabilities
| k_he_capabilities | k_he_6ghz_capabilities | k_supp_channels | k_supp_oper_classes
| k_wmm | k_rsn_selection | k_rsne_override | k_rsne_override_2 | k_rsnxe_override.
#[export] Instance kde_eq_dec : EqDecision kde.
Proof. solve_decision. Defined.

(** [ptr k] is the pointer ([None] for NULL) and [plen k] its length member, which is
    zero for the pointers that have none. *)
Record wpa_eapol_ie_parse := mk_kde_parse {
  ptr : kde → option Z;
  plen : kde → Z;
  qosinfo : Z;
  aid : Z;
}.
#[export] Instance eta_kde_parse : Eta wpa_eapol_ie_parse := λ ie,
  mk_kde_parse (ptr ie) (plen ie) (qosinfo ie) (aid ie).

(** After [os_memset(ie, 0, sizeof( *ie))]. *)
Definition kde_zero : wpa_eapol_ie_parse := mk_kde_parse (λ _, None) (λ _, 0) 0 0.

Definition set_ptr (k : kde) (p : Z) (ie : wpa_eapol_ie_parse) : wpa_eapol_ie_parse :=
  ie <| ptr ::= <[k := Some p]> |>.
Definition set_ie (k : kde) (p len : Z) (ie : wpa_eapol_ie_parse) : wpa_eapol_ie_parse :=
  (set_ptr k p ie) <| plen ::= <[k := len]> |>.

(** ** Vendor-specific elements *)
Definition wpa_parse_vendor_specific (b : list Z) (pos : Z) (ie : wpa_eapol_ie_parse) :
    option wpa_eapol_ie_parse :=
  l ← rd b (pos + 1);
  if bool_decide (l < 4) then Some ie
  else
    oui ← WPA_GET_BE24 b (pos + 2);
    ty ← (if bool_decide (oui = OUI_MICROSOFT) then rd b (pos + 5) else Some 0);
    if bool_decide (oui = OUI_MICROSOFT) && bool_decide (ty = WMM_OUI_TYPE) &&
       bool_decide (4 < l)
    then
      subtype ← rd b (pos + 6);
      if bool_decide (subtype = WMM_OUI_SUBTYPE_INFORMATION_ELEMENT) then
        Some (set_ie k_wmm (pos + 2) l ie)
      else if bool_decide (subtype = WMM_OUI_SUBTYPE_PARAMETER_ELEMENT) then
        Some (set_ie k_wmm (pos + 2) l ie)
      else Some ie
    else Some ie.

(** One [if (pos[1] >= row_min && RSN_SELECTOR_GET(pos + 2) == row_selector)] after the
    other: the member points to [pos + row_off], and its length is
    [pos[1] + row_len]. *)
Record kde_row := mk_row {
  row_min : Z; row_selector : Z; row_member : kde; row_off : Z; row_len : option Z;
}.

Definition kde_rows : list kde_row :=
  [mk_row 4 OSEN_IE_VENDOR_TYPE k_osen 0 (Some 2);
   mk_row (RSN_SELECTOR_LEN + PMKID_LEN) RSN_KEY_DATA_PMKID k_pmkid (2 + RSN_SELECTOR_LEN) None;
   mk_row (RSN_SELECTOR_LEN + 2) RSN_KEY_DATA_KEYID k_key_id (2 + RSN_SELECTOR_LEN) None;
   mk_row (RSN_SELECTOR_LEN + 3) RSN_KEY_DATA_GROUPKEY k_gtk (2 + RSN_SELECTOR_LEN)
     (Some (- RSN_SELECTOR_LEN));
   mk_row (RSN_SELECTOR_LEN + 3) RSN_KEY_DATA_MAC_ADDR k_mac_addr (2 + RSN_SELECTOR_LEN)
     (Some (- RSN_SELECTOR_LEN));
   mk_row (RSN_SELECTOR_LEN + 3) RSN_KEY_DATA_IGTK k_igtk (2 + RSN_SELECTOR_LEN)
     (Some (- RSN_SELECTOR_LEN));
   mk_row (RSN_SELECTOR_LEN + 3) RSN_KEY_DATA_BIGTK k_bigtk (2 + RSN_SELECTOR_LEN)
     (Some (- RSN_SELECTOR_LEN));
   mk_row (RSN_SELECTOR_LEN + 1) WFA_KEY_DATA_IP_ADDR_REQ k_ip_addr_req (2 + RSN_SELECTOR_LEN) None;
   mk_row (RSN_SELECTOR_LEN + 3 * 4) WFA_KEY_DATA_IP_ADDR_ALLOC k_ip_addr_alloc
     (2 + RSN_SELECTOR_LEN) None;
   mk_row (RSN_SELECTOR_LEN + 3) RSN_KEY_DATA_OCI k_oci (2 + RSN_SELECTOR_LEN)
     (Some (- RSN_SELECTOR_LEN));
   mk_row (RSN_SELECTOR_LEN + 1) WFA_KEY_DATA_TRANSITION_DISABLE k_transition_disable
     (2 + RSN_SELECTOR_LEN) (Some (- RSN_SELECTOR_LEN));
   mk_row (RSN_SELECTOR_LEN + 2) WFA_KEY_DATA_DPP k_dpp_kde (2 + RSN_SELECTOR_LEN)
     (Some (- RSN_SELECTOR_LEN));
   mk_row 0 RSNE_OVERRIDE_IE_VENDOR_TYPE k_rsne_override 0 (Some 2);
   mk_row 0 RSNE_OVERRIDE_2_IE_VENDOR_TYPE k_rsne_override_2 0 (Some 2);
   mk_row 0 RSNXE_OVERRIDE_IE_VENDOR_TYPE k_rsnxe_override 0 (Some 2);
   mk_row 0 RSN_SELECTION_IE_VENDOR_TYPE k_rsn_selection (2 + RSN_SELECTOR_LEN)
     (Some (- RSN_SELECTOR_LEN))].

Fixpoint try_rows (rows : list kde_row) (b : list Z) (pos l : Z) (ie : wpa_eapol_ie_parse) :
    option (Z * wpa_eapol_ie_parse) :=
  match rows with
  | [] => Some (2, ie)
  | r :: rows =>
      if bool_decide (row_min r ≤ l) then
        v ← RSN_SELECTOR_GET b (pos + 2);
        if bool_decide (v = row_selector r) then
          Some (0, match row_len r with
                   | Some n => set_ie (row_member r) (pos + row_off r) (size_t (l + n)) ie
                   | None => set_ptr (row_member r) (pos + row_off r) ie
                   end)
        else try_rows rows b pos l ie
      else try_rows rows b pos l ie
  end.

(** 0 for a known KDE, 1 for the end mark, 2 for an unknown one. *)
Definition wpa_parse_generic (b : list Z) (pos : Z) (ie : wpa_eapol_ie_parse) :
    option (Z * wpa_eapol_ie_parse) :=
  l ← rd b (pos + 1);
  if bool_decide (l = 0) then Some (1, ie)
  else
    wpa ← (if bool_decide (6 ≤ l) then
             v ← RSN_SELECTOR_GET b (pos + 2);
             if bool_decide (v = WPA_OUI_TYPE) then
               v0 ← rd b (pos + 2 + WPA_SELECTOR_LEN);
               v1 ← rd b (pos + 2 + WPA_SELECTOR_LEN + 1);
               Some (bool_decide (v0 = 1) && bool_decide (v1 = 0))
             else Some false
           else Some false);
    if wpa : bool then Some (0, set_ie k_wpa_ie pos (l + 2) ie)
    else try_rows kde_rows b pos l ie.

(** ** The loop *)

(** What an element other than a vendor-specific one sets. *)
Definition parse_element (b : list Z) (pos id l : Z) (ie : wpa_eapol_ie_parse) :
    option wpa_eapol_ie_parse :=
  if bool_decide (id = WLAN_EID_RSN) then Some (set_ie k_rsn_ie pos (l + 2) ie)
  else if bool_decide (id = WLAN_EID_RSNX) then Some (set_ie k_rsnxe pos (l + 2) ie)
  else if bool_decide (id = WLAN_EID_MOBILITY_DOMAIN) then Some (set_ie k_mdie pos (l + 2) ie)
  else if bool_decide (id = WLAN_EID_FAST_BSS_TRANSITION)
  then Some (set_ie k_ftie pos (l + 2) ie)
  else if bool_decide (id = WLAN_EID_TIMEOUT_INTERVAL) && bool_decide (5 ≤ l) then
    t ← rd b (pos + 2);
    Some (if bool_decide (t = WLAN_TIMEOUT_REASSOC_DEADLINE)
          then set_ptr k_reassoc_deadline pos ie
          else if bool_decide (t = WLAN_TIMEOUT_KEY_LIFETIME) then set_ptr k_key_lifetime pos ie
          else ie)
  else if bool_decide (id = WLAN_EID_LINK_ID) then
    Some (if bool_decide (18 ≤ l) then set_ie k_lnkid pos (l + 2) ie else ie)
  else if bool_decide (id = WLAN_EID_EXT_CAPAB) then Some (set_ie k_ext_capab pos (l + 2) ie)
  else if bool_decide (id = WLAN_EID_SUPP_RATES) then Some (set_ie k_supp_rates pos (l + 2) ie)
  else if bool_decide (id = WLAN_EID_EXT_SUPP_RATES)
  then Some (set_ie k_ext_supp_rates pos (l + 2) ie)
  else if bool_decide (id = WLAN_EID_HT_CAP) && bool_decide (sizeof_ht_capabilities ≤ l)
  then Some (set_ptr k_ht_capabilities (pos + 2) ie)
  else if bool_decide (id = WLAN_EID_VHT_AID) then
    if bool_decide (2 ≤ l) then
      v ← WPA_GET_LE16 b (pos + 2); Some (ie <| aid := Z.land v 0x3fff |>)
    else Some ie
  else if bool_decide (id = WLAN_EID_VHT_CAP) && bool_decide (sizeof_vht_capabilities ≤ l)
  then Some (set_ptr k_vht_capabilities (pos + 2) ie)
  else
    ext ← (if bool_decide (id = WLAN_EID_EXTENSION) &&
              bool_decide (1 + sizeof_he_6ghz_band_cap ≤ l)
           then rd b (pos + 2) else Some (-1));
    if bool_decide (id = WLAN_EID_EXTENSION) &&
       bool_decide (1 + IEEE80211_HE_CAPAB_MIN_LEN ≤ l) &&
       bool_decide (ext = WLAN_EID_EXT_HE_CAPABILITIES)
    then Some (set_ie k_he_capabilities (pos + 3) (l - 1) ie)
    else if bool_decide (id = WLAN_EID_EXTENSION) &&
            bool_decide (1 + sizeof_he_6ghz_band_cap ≤ l) &&
            bool_decide (ext = WLAN_EID_EXT_HE_6GHZ_BAND_CAP)
    then Some (set_ptr k_he_6ghz_capabilities (pos + 3) ie)
    else if bool_decide (id = WLAN_EID_QOS) && bool_decide (1 ≤ l) then
      v ← rd b (pos + 2); Some (ie <| qosinfo := v |>)
    else if bool_decide (id = WLAN_EID_SUPPORTED_CHANNELS)
    then Some (set_ie k_supp_channels (pos + 2) l ie)
    else if bool_decide (id = WLAN_EID_SUPPORTED_OPERATING_CLASSES) then
      Some (if bool_decide (2 ≤ l ≤ 253) then set_ie k_supp_oper_classes (pos + 2) l ie else ie)
    else Some ie.

(** [fuel] bounds the passes; a pass advances by two octets or more. *)
Fixpoint kde_loop (fuel : nat) (b : list Z) (pos end_ : Z) (ie : wpa_eapol_ie_parse) :
    option (Z * wpa_eapol_ie_parse) :=
  if bool_decide (1 < end_ - pos) then
    match fuel with
    | O => None
    | S fuel =>
        id ← rd b pos;
        l ← rd b (pos + 1);
        if bool_decide (id = 0xdd) && bool_decide (l = 0) then Some (0, ie)
        else if bool_decide (end_ - pos < 2 + l) then Some (-1, ie)
        else if bool_decide (id = WLAN_EID_VENDOR_SPECIFIC) then
          '(ret, ie) ← wpa_parse_generic b pos ie;
          if bool_decide (ret = 1) then Some (0, ie)
          else
            ie ← (if bool_decide (ret = 2) then wpa_parse_vendor_specific b pos ie else Some ie);
            kde_loop fuel b (pos + (2 + l)) end_ ie
        else
          ie ← parse_element b pos id l ie;
          kde_loop fuel b (pos + (2 + l)) end_ ie
    end
  else Some (0, ie).

Definition wpa_parse_kde_ies (buf : list Z) (len : Z) : option (Z * wpa_eapol_ie_parse) :=
  kde_loop (Z.to_nat len) buf 0 len kde_zero.
