(* ===== verification/KdeProofs.v ===== *)
(** Properties of the key data parser (Kde)

    Where the members of the result point, and what elements shorter than a selector
    do to the parser. *)
From stdpp Require Import functions.
From S2P Require Import Prelude Bytes Wpabuf Defs Suites RsnIe Kde.

(** ** Members inside the key data *)

(** The octets behind a pointer that its user may read: the ones that the parser
    checked, when the pointer has no length member. *)
Definition need (k : kde) : Z :=
  match k with
  | k_pmkid => PMKID_LEN
  | k_key_id | k_dpp_kde | k_mdie | k_ftie => 2
  | k_transition_disable => 1
  | k_ip_addr_req => 1
  | k_ip_addr_alloc => 12
  | k_reassoc_deadline | k_key_lifetime => 2 + 5
  | k_ht_capabilities => sizeof_ht_capabilities
  | k_vht_capabilities => sizeof_vht_capabilities
  | k_he_6ghz_capabilities => sizeof_he_6ghz_band_cap
  | _ => 0
  end.
Definition no_len (k : kde) : bool :=
  bool_decide (k ∈ [k_pmkid; k_key_id; k_ip_addr_req; k_ip_addr_alloc; k_reassoc_deadline;
                    k_key_lifetime; k_ht_capabilities; k_vht_capabilities;
                    k_he_6ghz_capabilities]).

Definition inside (n : Z) (ie : wpa_eapol_ie_parse) : Prop :=
  ∀ k, 0 ≤ plen ie k ∧ (no_len k = true → plen ie k = 0) ∧
       ∀ p, ptr ie k = Some p → 0 ≤ p ∧ p + plen ie k ≤ n ∧ p + need k ≤ n.

Lemma inside_zero n : inside n kde_zero.
Proof. intros k. by split. Qed.

Lemma inside_set_ie n ie k p len :
  inside n ie → no_len k = false → 0 ≤ p → 0 ≤ len → p + len ≤ n → p + need k ≤ n →
  inside n (set_ie k p len ie).
Proof.
  intros Hie Hk Hp Hl Hn Hneed k'. specialize (Hie k').
  change (plen (set_ie k p len ie) k') with ((<[k := len]> (plen ie)) k').
  change (ptr (set_ie k p len ie) k') with ((<[k := Some p]> (ptr ie)) k').
  destruct (decide (k = k')) as [<-|]; [|by rewrite !fn_lookup_insert_ne].
  rewrite !fn_lookup_insert. split; [done|]. split; [congruence|]. intros ? [= <-]. lia.
Qed.

Lemma inside_set_ptr n ie k p :
  inside n ie → no_len k = true → 0 ≤ p → p + need k ≤ n → inside n (set_ptr k p ie).
Proof.
  intros Hie Hk Hp Hneed k'. specialize (Hie k').
  change (plen (set_ptr k p ie) k') with (plen ie k').
  change (ptr (set_ptr k p ie) k') with ((<[k := Some p]> (ptr ie)) k').
  destruct (decide (k = k')) as [<-|]; [|by rewrite fn_lookup_insert_ne].
  rewrite fn_lookup_insert. destruct Hie as (H1 & H2 & _). split; [done|]. split; [done|].
  intros ? [= <-]. rewrite H2 by done. assert (0 ≤ need k) by (by destruct k). lia.
Qed.

(** ** The parts of the parser *)
Section parts.
Variable b : list Z.
Hypothesis Hb : bytes_ok b.

(** The element at [pos] has [l] octets after its header, all in the key data. *)
Definition element_at (pos l : Z) : Prop :=
  0 ≤ pos ∧ rd b (pos + 1) = Some l ∧ 0 ≤ l < 256 ∧ pos + 2 + l ≤ blen b.

Lemma in_element pos l i : element_at pos l → 2 ≤ i < 2 + l → ∃ v, rd b (pos + i) = Some v ∧ is_byte v.
Proof.
  intros (? & _ & ? & ?) Hi. destruct (rd_in b (pos + i)) as [v Hv]; [lia|].
  exists v. split; [done|]. by eapply rd_Forall.
Qed.

(** A row that reads nothing but what is there, for an element of four octets or more. *)
Definition row_ok (r : kde_row) : Prop :=
  let least := Z.max 4 (row_min r) in
  0 ≤ row_off r ∧ row_off r + need (row_member r) ≤ least + 2 ∧
  match row_len r with
  | Some n => no_len (row_member r) = false ∧ row_off r + n ≤ 2 ∧ 0 ≤ least + n ∧ n ≤ 2
  | None => no_len (row_member r) = true
  end.

Lemma kde_rows_ok : Forall row_ok kde_rows.
Proof.
  unfold kde_rows. repeat (apply Forall_cons; split; [vm_compute; intuition congruence|]). constructor.
Qed.

Lemma try_rows_inside rows pos l ie :
  Forall row_ok rows → element_at pos l → 4 ≤ l → inside (blen b) ie →
  ∃ ret ie', try_rows rows b pos l ie = Some (ret, ie') ∧ (ret = 0 ∨ ret = 2) ∧ inside (blen b) ie'.
Proof.
  intros Hrows Hel Hl Hie. destruct (id Hel) as (Hpos & _ & Hlen & Hend).
  induction Hrows as [|r rows Hr _ IH]; cbn [try_rows]; [by eauto 10|].
  case_bool_decide as Hmin; [|done].
  destruct (WPA_GET_BE32_in b (pos + 2)) as [v Hv]; [lia..|].
  unfold RSN_SELECTOR_GET. rewrite Hv. cbn [mbind option_bind].
  case_bool_decide; [|done]. eexists _, _. split; [done|]. split; [by left|].
  destruct Hr as (H1 & H2 & H3). destruct (row_len r) as [n|].
  - destruct H3 as (? & ? & ? & ?).
    rewrite wrap_small by (change (2 ^ 32) with 4294967296; lia).
    apply inside_set_ie; try done; lia.
  - apply inside_set_ptr; try done; lia.
Qed.

Lemma parse_generic_inside pos l ie :
  element_at pos l → l = 0 ∨ 4 ≤ l → inside (blen b) ie →
  ∃ ret ie', wpa_parse_generic b pos ie = Some (ret, ie') ∧ (ret = 0 ∨ ret = 1 ∨ ret = 2) ∧
    inside (blen b) ie'.
Proof.
  intros Hel Hl Hie. destruct (id Hel) as (Hpos & Hrd & Hlen & Hend).
  unfold wpa_parse_generic. rewrite Hrd. cbn [mbind option_bind].
  case_bool_decide as Hz; [by eauto 10|].
  assert (Hw : ∃ w, (if bool_decide (6 ≤ l) then
      v ← RSN_SELECTOR_GET b (pos + 2);
      if bool_decide (v = WPA_OUI_TYPE) then
        v0 ← rd b (pos + 2 + WPA_SELECTOR_LEN);
        v1 ← rd b (pos + 2 + WPA_SELECTOR_LEN + 1);
        Some (bool_decide (v0 = 1) && bool_decide (v1 = 0))
      else Some false
    else Some false) = Some w ∧ (w = true → 6 ≤ l)).
  { case_bool_decide; [|by exists false].
    destruct (WPA_GET_BE32_in b (pos + 2)) as [v Hv]; [lia..|].
    unfold RSN_SELECTOR_GET. rewrite Hv. cbn [mbind option_bind].
    case_bool_decide; [|by exists false]. unfold WPA_SELECTOR_LEN.
    destruct (rd_in b (pos + 2 + 4)) as [v0 ->]; [lia|].
    destruct (rd_in b (pos + 2 + 4 + 1)) as [v1 ->]; [lia|]. by eexists. }
  destruct Hw as ([] & -> & Hw); cbn [mbind option_bind].
  - eexists _, _. split; [done|]. split; [by left|].
    apply inside_set_ie; try done; simpl; lia.
  - destruct (try_rows_inside kde_rows pos l ie) as (ret & ie' & -> & Hr & H);
      [apply kde_rows_ok|done|lia|done|]. eexists _, _. split; [done|]. naive_solver.
Qed.

Lemma parse_vendor_inside pos l ie :
  element_at pos l → inside (blen b) ie →
  ∃ ie', wpa_parse_vendor_specific b pos ie = Some ie' ∧ inside (blen b) ie'.
Proof.
  intros Hel Hie. destruct (id Hel) as (Hpos & Hrd & Hlen & Hend).
  unfold wpa_parse_vendor_specific. rewrite Hrd. cbn [mbind option_bind].
  case_bool_decide; [by eauto|].
  destruct (WPA_GET_BE24_in b (pos + 2)) as [oui ->]; [lia..|]. cbn [mbind option_bind].
  assert (Ht : is_Some (if bool_decide (oui = OUI_MICROSOFT) then rd b (pos + 5) else Some 0)).
  { case_bool_decide; [|by eauto]. destruct (rd_in b (pos + 5)) as [v ->]; [lia|by eauto]. }
  destruct Ht as [ty ->]. cbn [mbind option_bind].
  destruct (_ && _ && bool_decide (4 < l)) eqn:E; [|by eauto].
  apply andb_true_iff in E as [_ E%bool_decide_eq_true_1].
  destruct (rd_in b (pos + 6)) as [st ->]; [lia|]. cbn [mbind option_bind].
  repeat case_bool_decide; eexists; (split; [done|]); try done; apply inside_set_ie; try done; simpl; lia.
Qed.

(** One condition of the chain of [parse_element]. *)
Ltac next_case :=
  match goal with
  | |- ∃ _, (if ?c then _ else _) = _ ∧ _ => destruct c eqn:?
  end;
  repeat match goal with
  | H : _ && _ = true |- _ => apply andb_true_iff in H as [? ?]
  | H : _ = false |- _ => clear H
  | H : bool_decide _ = true |- _ => apply bool_decide_eq_true_1 in H
  end.
Ltac member_in :=
  eexists; split; [reflexivity|];
  first [assumption | apply inside_set_ie; [assumption|done|cbn; lia..]
    | apply inside_set_ptr; [assumption|done|cbn; unfold sizeof_ht_capabilities,
        sizeof_vht_capabilities, sizeof_he_6ghz_band_cap; lia..]].
Ltac read_at i :=
  let v := fresh "v" in let E := fresh in
  match goal with |- context [rd b (?pos + i)] =>
    destruct (rd_in b (pos + i)) as [v E]; [lia|]; rewrite E; cbn [mbind option_bind] end.

Lemma parse_element_inside pos id l ie :
  element_at pos l → inside (blen b) ie →
  ∃ ie', parse_element b pos id l ie = Some ie' ∧ inside (blen b) ie'.
Proof.
  intros (Hpos & Hrd & Hlen & Hend) Hie.
  unfold parse_element, sizeof_ht_capabilities, sizeof_vht_capabilities, sizeof_he_6ghz_band_cap,
    IEEE80211_HE_CAPAB_MIN_LEN.
  do 4 (next_case; [member_in|]).
  next_case.
  { read_at 2. case_bool_decide; [member_in|]. case_bool_decide; member_in. }
  next_case. { case_bool_decide; member_in. }
  do 4 (next_case; [member_in|]).
  next_case.
  { next_case; [|member_in]. destruct (WPA_GET_LE16_in b (pos + 2)) as [v ->]; [lia..|].
    cbn [mbind option_bind]. by eexists. }
  next_case; [member_in|].
  assert (Hext : is_Some (if bool_decide (id = WLAN_EID_EXTENSION) && bool_decide (1 + 2 ≤ l)
                          then rd b (pos + 2) else Some (-1))).
  { destruct (_ && _) eqn:E; [|by eauto]. apply andb_true_iff in E as [_ E%bool_decide_eq_true_1].
    destruct (rd_in b (pos + 2)) as [v ->]; [lia|by eauto]. }
  destruct Hext as [ext ->]. cbn [mbind option_bind].
  next_case; [member_in|]. next_case; [member_in|].
  next_case. { read_at 2. by eexists. }
  next_case; [member_in|].
  next_case. { case_bool_decide; member_in. }
  member_in.
Qed.
End parts.

(** ** The parser *)

(** The parser, at the element at [p], comes to the one at [q]: it goes on after an element
    that is not an end mark and lies inside the key data. *)
Inductive visits (b : list Z) (p : Z) : Z → Prop :=
| visits_here : visits b p p
| visits_next id l q :
    rd b p = Some id → rd b (p + 1) = Some l → ¬ (id = 0xdd ∧ l = 0) → p + (2 + l) ≤ blen b →
    visits b (p + (2 + l)) q → visits b p q.

(** Every vendor-specific element that the parser comes to, and that lies inside the key
    data, is empty or has a selector. *)
Definition selectors_from (b : list Z) (p : Z) : Prop :=
  ∀ q l, visits b p q → rd b q = Some WLAN_EID_VENDOR_SPECIFIC → rd b (q + 1) = Some l →
    q + (2 + l) ≤ blen b → l = 0 ∨ 4 ≤ l.
Definition vendor_selectors (b : list Z) : Prop := selectors_from b 0.

Lemma kde_loop_inside b fuel : ∀ pos ie,
  bytes_ok b → selectors_from b pos → 0 ≤ pos → blen b - pos ≤ Z.of_nat fuel →
  inside (blen b) ie →
  ∃ ret ie', kde_loop fuel b pos (blen b) ie = Some (ret, ie') ∧ (ret = 0 ∨ ret = -1) ∧
    inside (blen b) ie'.
Proof.
  induction fuel as [|fuel IH]; intros pos ie Hb Hv Hpos Hf Hie; cbn [kde_loop];
    (case_bool_decide as Hend; [|by eauto 10]); [lia|].
  destruct (rd_in b pos) as [id Hid]; [lia|]. destruct (rd_in b (pos + 1)) as [l Hl]; [lia|].
  rewrite Hid, Hl. cbn [mbind option_bind].
  destruct (_ && _) eqn:Emark; [by eauto 10|].
  destruct (bool_decide_reflect (blen b - pos < 2 + l)) as [|Hlen]; [by eauto 10|].
  assert (Hmark : ¬ (id = 0xdd ∧ l = 0)).
  { intros [-> ->]. by rewrite !bool_decide_eq_true_2 in Emark. }
  clear Emark. assert (Hnext : selectors_from b (pos + (2 + l))).
  { intros q k Hq. apply Hv. eapply visits_next; [done|done|done|lia|exact Hq]. }
  assert (Hbyte : is_byte l) by (by eapply rd_Forall). unfold is_byte in Hbyte.
  assert (Hel : element_at b pos l) by (repeat split; try done; lia).
  case_bool_decide as Hvs.
  - destruct (parse_generic_inside b pos l ie) as (ret & ie1 & -> & Hr & H1); [done|subst id; exact (Hv pos l (visits_here b pos) Hid Hl ltac:(lia))|done|].
    cbn [mbind option_bind]. case_bool_decide; [by eauto 10|].
    assert (Hie2 : ∃ ie2, (if bool_decide (ret = 2) then wpa_parse_vendor_specific b pos ie1
                           else Some ie1) = Some ie2 ∧ inside (blen b) ie2).
    { case_bool_decide; [|by eauto]. by apply (parse_vendor_inside b pos l). }
    destruct Hie2 as (ie2 & -> & H2). cbn [mbind option_bind]. apply IH; try done; lia.
  - destruct (parse_element_inside b pos id l ie) as (ie1 & -> & H1); [done..|].
    cbn [mbind option_bind]. apply IH; try done; lia.
Qed.

(** A pointer to an element of the MDE or the FTE goes with its length octet. *)
Definition whole (b : list Z) (ie : wpa_eapol_ie_parse) : Prop :=
  ∀ k p, k ∈ [k_mdie; k_ftie] → ptr ie k = Some p →
    ∃ l, rd b (p + 1) = Some l ∧ plen ie k = l + 2.

Lemma whole_set_ie b ie k p len :
  whole b ie → (k ∈ [k_mdie; k_ftie] → ∃ l, rd b (p + 1) = Some l ∧ len = l + 2) →
  whole b (set_ie k p len ie).
Proof.
  intros Hie Hk k' p' Hin.
  change (plen (set_ie k p len ie) k') with ((<[k := len]> (plen ie)) k').
  change (ptr (set_ie k p len ie) k') with ((<[k := Some p]> (ptr ie)) k').
  destruct (decide (k = k')) as [<-|]; [|rewrite !fn_lookup_insert_ne by done; by apply Hie].
  rewrite !fn_lookup_insert. intros [= <-]. by apply Hk.
Qed.
Lemma whole_set_ptr b ie k p : whole b ie → k ∉ [k_mdie; k_ftie] → whole b (set_ptr k p ie).
Proof.
  intros Hie Hk k' p' Hin. change (plen (set_ptr k p ie) k') with (plen ie k').
  change (ptr (set_ptr k p ie) k') with ((<[k := Some p]> (ptr ie)) k').
  rewrite fn_lookup_insert_ne by congruence. by apply Hie.
Qed.

Ltac not_member H :=
  exfalso; rewrite !elem_of_cons, elem_of_nil in H; destruct H as [H|[H|[]]]; discriminate.
Ltac whole_step :=
  repeat match goal with
  | H : (_ ← ?m; _) = Some _ |- _ => destruct m eqn:?; [|done]; cbn [mbind option_bind] in H
  | H : (if ?c then _ else _) = Some _ |- _ => destruct c
  | H : Some _ = Some _ |- _ => injection H as ?; subst
  end;
  repeat match goal with |- context [if ?c then _ else _] => destruct c end;
  first [assumption
    | apply whole_set_ie; [assumption|intros Hin; try not_member Hin; by eauto]
    | apply whole_set_ptr; [assumption|apply (bool_decide_unpack _); vm_compute; done]].

Lemma try_rows_whole b rows pos l ie r ie' :
  Forall (λ r, row_member r ∉ [k_mdie; k_ftie]) rows → whole b ie →
  try_rows rows b pos l ie = Some (r, ie') → whole b ie'.
Proof.
  intros Hrows Hie. induction Hrows as [|x rows Hx _ IH]; cbn [try_rows]; [by intros [= _ <-]|].
  case_bool_decide; [|done]. destruct (RSN_SELECTOR_GET _ _); [|done]. cbn [mbind option_bind].
  case_bool_decide; [|done]. intros [= _ <-]. destruct (row_len x).
  - by apply whole_set_ie.
  - by apply whole_set_ptr.
Qed.

Lemma parse_generic_whole b pos ie r ie' :
  whole b ie → wpa_parse_generic b pos ie = Some (r, ie') → whole b ie'.
Proof.
  intros Hie. unfold wpa_parse_generic. destruct (rd b (pos + 1)) as [l|]; [|done].
  cbn [mbind option_bind]. case_bool_decide; [by intros [= _ <-]|].
  match goal with |- (x ← ?m; _) = _ → _ => destruct m as [[]|] end; [| |done]; cbn [mbind option_bind].
  - intros [= _ <-]. apply whole_set_ie; [done|]. intros Hin. not_member Hin.
  - apply try_rows_whole; [|done]. apply (bool_decide_unpack _). vm_compute. done.
Qed.

Lemma parse_vendor_whole b pos ie ie' :
  whole b ie → wpa_parse_vendor_specific b pos ie = Some ie' → whole b ie'.
Proof. intros Hie H. unfold wpa_parse_vendor_specific in H. whole_step. Qed.

Lemma parse_element_whole b pos id l ie ie' :
  rd b (pos + 1) = Some l → whole b ie → parse_element b pos id l ie = Some ie' → whole b ie'.
Proof. intros Hl Hie H. unfold parse_element in H. whole_step. Qed.

Lemma kde_loop_whole b fuel : ∀ pos end_ ie r ie',
  whole b ie → kde_loop fuel b pos end_ ie = Some (r, ie') → whole b ie'.
Proof.
  induction fuel as [|fuel IH]; intros pos end_ ie r ie' Hie; cbn [kde_loop];
    (case_bool_decide; [|by intros [= _ <-]]); [done|].
  destruct (rd b pos) as [id|]; [|done]. destruct (rd b (pos + 1)) as [l|] eqn:El; [|done].
  cbn [mbind option_bind]. destruct (_ && _); [by intros [= _ <-]|].
  case_bool_decide; [by intros [= _ <-]|]. case_bool_decide.
  - destruct (wpa_parse_generic b pos ie) as [[g ie1]|] eqn:Eg; [|done]. cbn [mbind option_bind].
    apply parse_generic_whole in Eg; [|done]. case_bool_decide; [by intros [= _ <-]|].
    destruct (if bool_decide (g = 2) then _ else _) as [ie2|] eqn:E2; [|done].
    cbn [mbind option_bind]. apply IH.
    destruct (bool_decide (g = 2)); [by eapply parse_vendor_whole|by injection E2 as <-].
  - destruct (parse_element b pos id l ie) as [ie1|] eqn:E1; [|done]. cbn [mbind option_bind].
    apply IH. by eapply parse_element_whole.
Qed.

(** What the users of the parsed key data rely on. *)
Definition parsed_ok (b : list Z) (ie : wpa_eapol_ie_parse) : Prop :=
  inside (blen b) ie ∧ whole b ie.

Lemma parse_kde_ok b :
  bytes_ok b → vendor_selectors b →
  ∃ ret ie, wpa_parse_kde_ies b (blen b) = Some (ret, ie) ∧ (ret = 0 ∨ ret = -1) ∧ parsed_ok b ie.
Proof.
  intros Hb Hv. unfold wpa_parse_kde_ies.
  destruct (kde_loop_inside b (Z.to_nat (blen b)) 0 kde_zero) as (ret & ie & E & Hr & H);
    [done|done|lia|lia|apply inside_zero|].
  exists ret, ie. split; [done|]. split; [done|]. split; [done|].
  eapply kde_loop_whole; [|exact E]. by intros k p _.
Qed.

(** C35: when every vendor-specific element that the parser comes to is empty or long enough
    for a selector, wpa_parse_kde_ies ends, reads only inside the key data and returns 0 or
    -1, and every member that it sets points to octets that lie inside with the length
    that goes with it, or with the octets that the users of the pointer read. *)
Theorem kde_parse_inside b :
  bytes_ok b → vendor_selectors b →
  ∃ ret ie, wpa_parse_kde_ies b (blen b) = Some (ret, ie) ∧ (ret = 0 ∨ ret = -1) ∧
    ∀ k p, ptr ie k = Some p → 0 ≤ p ∧ 0 ≤ plen ie k ∧ p + plen ie k ≤ blen b ∧ p + need k ≤ blen b.
Proof.
  intros Hb Hv. destruct (parse_kde_ok b Hb Hv) as (ret & ie & -> & Hr & H & _).
  exists ret, ie. split; [done|]. split; [done|]. intros k p Hp.
  destruct (H k) as (H1 & _ & H2). destruct (H2 p Hp) as (?&?&?). done.
Qed.

(** C36: the selectors of the last four kinds of elements are read without looking at the
    length: a vendor-specific element with one octet at the end of the key data is read
    beyond the key data, and with two octets it gives the RSN Selection pointer a length
    of almost the whole address space. *)
Theorem kde_short_vendor_elements :
  wpa_parse_kde_ies [221; 1; 5] 3 = None ∧
  ∃ ie, wpa_parse_kde_ies ([221; 2; 0x50; 0x6f; 0x9a; 0x2c] ++ replicate 44 0) 50 = Some (0, ie) ∧
    ptr ie k_rsn_selection = Some 6 ∧ plen ie k_rsn_selection = 2 ^ 32 - 2.
Proof.
  split; [vm_compute; done|]. eexists. split; [vm_compute; reflexivity|].
  vm_compute. done.
Qed.

(** ** A concrete key data field: RSN element, GTK KDE, padding

    The GTK has octets like those of a vendor-specific element without a selector. *)
Definition key_data : list Z :=
  [48; 2; 1; 0; 221; 22; 0; 15; 172; 1; 1; 0] ++ [221; 1] ++ replicate 14 5 ++ [221; 0; 0; 0].

(** [selectors_from], computed. *)
Fixpoint check_from (fuel : nat) (b : list Z) (p : Z) : bool :=
  match fuel with
  | O => false
  | S fuel =>
      match rd b p, rd b (p + 1) with
      | Some id, Some l =>
          if bool_decide (blen b < p + (2 + l)) then true
          else if bool_decide (id = 0xdd) && bool_decide (l = 0) then true
          else if bool_decide (id = WLAN_EID_VENDOR_SPECIFIC) && bool_decide (l < 4) then false
          else check_from fuel b (p + (2 + l))
      | _, _ => true
      end
  end.
Definition check_vendors (b : list Z) : bool := check_from (S (length b)) b 0.

Lemma check_from_sound b fuel : ∀ p, check_from fuel b p = true → selectors_from b p.
Proof.
  induction fuel as [|fuel IH]; intros p; cbn [check_from]; [done|]. intros Hc q l Hq Hid Hl Hin.
  destruct Hq as [|id k q Hi Hk Hmark Hend Hq].
  - rewrite Hid, Hl, bool_decide_eq_false_2 in Hc by lia. unfold WLAN_EID_VENDOR_SPECIFIC in Hc.
    rewrite !bool_decide_eq_true_2, !andb_true_l in Hc by done.
    destruct (bool_decide_reflect (l = 0)); [by left|]. right.
    case_bool_decide; [done|lia].
  - rewrite Hi, Hk, bool_decide_eq_false_2 in Hc by lia.
    destruct (bool_decide (id = 0xdd) && bool_decide (k = 0)) eqn:Em.
    { apply andb_true_iff in Em as [?%bool_decide_eq_true_1 ?%bool_decide_eq_true_1].
      by destruct Hmark. }
    destruct (bool_decide (id = WLAN_EID_VENDOR_SPECIFIC) && bool_decide (k < 4)); [done|]. exact (IH _ Hc q l Hq Hid Hl Hin).
Qed.
Lemma check_vendors_sound b : check_vendors b = true → vendor_selectors b.
Proof. apply check_from_sound. Qed.

Lemma key_data_ok : bytes_ok key_data ∧ vendor_selectors key_data.
Proof.
  split; [apply (bool_decide_unpack _); vm_compute; done|].
  apply check_vendors_sound. vm_compute. done.
Qed.

Lemma kde_parse_inside_witness :
  ∃ ie, wpa_parse_kde_ies key_data (blen key_data) = Some (0, ie) ∧
    ptr ie k_gtk = Some 10 ∧ plen ie k_gtk = 18 ∧ 10 + plen ie k_gtk ≤ blen key_data.
Proof.
  destruct key_data_ok as [H1 H2].
  destruct (kde_parse_inside key_data H1 H2) as (ret & ie & E & _ & H).
  assert (Hg : ret = 0 ∧ ptr ie k_gtk = Some 10 ∧ plen ie k_gtk = 18).
  { vm_compute in E. injection E as <- <-. vm_compute. done. }
  exists ie. destruct Hg as (-> & Hp & Hl). split; [exact E|]. split; [exact Hp|]. split; [exact Hl|].
  apply (H k_gtk 10 Hp).
Defined.
