(* ===== verification/PmksaCache.v ===== *)
(** PMKSA cache of the supplicant (src/rsn_supp/pmksa_cache.c)

    The cache is a linked list of entries ordered by expiration time, with at most
    one entry per authenticator and a pointer [cur_pmksa] of struct wpa_sm into it.
    An entry carries its address [e_id]; the list is the list of its entries, and
    [loose] is an entry that was unlinked and is not freed yet.  Reading an entry
    through [cur_pmksa] fails ([Undef]) when it was freed.

    [pmksa_sm] has the cache and the fields of struct wpa_sm that it uses, with the
    callbacks of wpa.c.  Calls to the driver are recorded in [calls], newest first.
    [now] is the time in seconds, which stands still during an operation.  Timeouts are
    registered successfully. *)
From S2P Require Import Prelude Defs.

Definition PMK_LEN_MAX := 64.
Definition pmksa_cache_max_entries := 32.

(** Conversion of an unsigned value to [int]. *)
Definition to_int (z : Z) : Z :=
  let w := u32 z in if bool_decide (w < 2 ^ 31) then w else w - 2 ^ 32.

(** ** State *)
Inductive pmksa_free_reason := PMKSA_FREE | PMKSA_REPLACE | PMKSA_EXPIRE.
#[export] Instance pmksa_free_reason_eq_dec : EqDecision pmksa_free_reason.
Proof. solve_decision. Defined.

(** struct rsn_pmksa_cache_entry; [pmk] has [pmk_len] octets, and a FILS Cache
    Identifier that is not set is [None]. *)
Record rsn_pmksa_cache_entry := mk_entry {
  e_id : nat;
  pmkid : list Z;
  pmk : list Z;
  expiration : Z;
  akmp : Z;
  aa : list Z;
  fils_cache_id : option (list Z);
  reauth_time : Z;
  network_ctx : option Z;
  opportunistic : bool;
  external : bool;
}.
#[export] Instance eta_entry : Eta rsn_pmksa_cache_entry := λ e,
  mk_entry (e_id e) (pmkid e) (pmk e) (expiration e) (akmp e) (aa e) (fils_cache_id e)
    (reauth_time e) (network_ctx e) (opportunistic e) (external e).

Inductive driver_call :=
| AddPmkid (ctx : option Z) (bssid pmkid : list Z) (cache_id : option (list Z)) (pmk : list Z)
    (lifetime threshold akmp : Z)
| RemovePmkid (ctx : option Z) (bssid pmkid : list Z) (cache_id : option (list Z))
| Deauthenticate
| RequestReauth.

(** The array [pmk] of struct wpa_sm is [sm_pmk], its first [pmk_len] octets, and
    [pmk_rest]. *)
Record pmksa_sm := mk_pmksa {
  pmksa : list rsn_pmksa_cache_entry;
  pmksa_count : Z;
  loose : option rsn_pmksa_cache_entry;
  cur_pmksa : option nat;
  sm_pmk : list Z;
  pmk_rest : list Z;
  bssid : list Z;
  own_addr : list Z;
  dot11RSNAConfigPMKLifetime : Z;
  dot11RSNAConfigPMKReauthThreshold : Z;
  expire_timer : option Z;
  reauth_timer : option Z;
  next_id : nat;
  calls : list driver_call;
}.
#[export] Instance eta_pmksa : Eta pmksa_sm := λ s,
  mk_pmksa (pmksa s) (pmksa_count s) (loose s) (cur_pmksa s) (sm_pmk s) (pmk_rest s) (bssid s) (own_addr s)
    (dot11RSNAConfigPMKLifetime s) (dot11RSNAConfigPMKReauthThreshold s) (expire_timer s)
    (reauth_timer s) (next_id s) (calls s).

(** The octets [k] copied to the array, its length set, and both cleared. *)
Definition pmk_array (s : pmksa_sm) : list Z := sm_pmk s ++ pmk_rest s.
Definition set_pmk_len (n : nat) (s : pmksa_sm) : pmksa_sm :=
  s <| sm_pmk := take n (pmk_array s) |> <| pmk_rest := drop n (pmk_array s) |>.
Definition write_pmk (k : list Z) (s : pmksa_sm) : pmksa_sm :=
  let a := k ++ drop (length k) (pmk_array s) in
  let n := length (sm_pmk s) in
  s <| sm_pmk := take n a |> <| pmk_rest := drop n a |>.
Definition put_pmk (k : list Z) (s : pmksa_sm) : pmksa_sm :=
  s <| sm_pmk := k |> <| pmk_rest := drop (length k) (pmk_array s) |>.
Definition clear_pmk (s : pmksa_sm) : pmksa_sm :=
  s <| sm_pmk := [] |> <| pmk_rest := replicate 64 0 |>.

Definition call (c : driver_call) (s : pmksa_sm) : pmksa_sm := s <| calls ::= cons c |>.

(** ** PMKID derivation (rsn_pmkid in src/common/wpa_common.c) *)
Inductive hash_alg := SHA1 | SHA256 | SHA384.

Section pmksa_cache.
(** [hmac_sha1_vector] and its like on the concatenated elements: whether they succeed, and
    what the caller's array [hash] holds afterwards.  When they fail, that may be what was
    on the stack before. *)
Variable hmac : hash_alg → list Z → list Z → bool * list Z.

Implicit Types (s : pmksa_sm) (e : rsn_pmksa_cache_entry).

(** "PMK Name" *)
Definition pmk_name : list Z := [80; 77; 75; 32; 78; 97; 109; 101].

(** The result of the hash function is not looked at. *)
Definition rsn_pmkid (pmk aa spa : list Z) (akmp : Z) : option (list Z) :=
  let alg := if wpa_key_mgmt_sha384 akmp then SHA384
             else if wpa_key_mgmt_sha256 akmp then SHA256 else SHA1 in
  slice (snd (hmac alg pmk (pmk_name ++ aa ++ spa))) 0 PMKID_LEN.

(** The octets at [pmkid] afterwards; they stay zero when the hash fails. *)
Definition rsn_pmkid_suite_b (alg : hash_alg) (kck aa spa : list Z) : option (list Z) :=
  let (ok, hash) := hmac alg kck (pmk_name ++ aa ++ spa) in
  if ok : bool then slice hash 0 PMKID_LEN else Some (replicate 16 0).

(** ** Freeing an entry *)
Definition is_current s e : bool := bool_decide (cur_pmksa s = Some (e_id e)).

(** [wpa_sm_pmksa_free_cb] of wpa.c *)
Definition wpa_sm_pmksa_free_cb e (reason : pmksa_free_reason) s : pmksa_sm :=
  let cur := is_current s e in
  let s := if cur then s <| cur_pmksa := None |> else s in
  let deauth := cur && bool_decide (reason ≠ PMKSA_REPLACE) in
  let expired_pmk := bool_decide (reason = PMKSA_EXPIRE) && bool_decide (sm_pmk s = pmk e) in
  let s := if expired_pmk then s <| cur_pmksa := None |> else s in
  if deauth || expired_pmk then call Deauthenticate (clear_pmk s) else s.

Definition pmksa_cache_free_entry e (reason : pmksa_free_reason) s : pmksa_sm :=
  let s := call (RemovePmkid (network_ctx e) (aa e) (pmkid e) (fils_cache_id e)) s in
  let s := s <| pmksa_count ::= λ n, n - 1 |> in
  wpa_sm_pmksa_free_cb e reason s.

(** ** Lookup *)
Definition matches (aa' : option (list Z)) (pmkid' : option (list Z)) (ctx : option Z) (akm : Z) e :
    bool :=
  match aa' with Some a => bool_decide (aa e = a) | None => true end &&
  match pmkid' with Some p => bool_decide (pmkid e = p) | None => true end &&
  (bool_decide (akm = 0) || bool_decide (akm = akmp e)) &&
  match ctx with Some _ => bool_decide (ctx = network_ctx e) | None => true end.

Definition pmksa_cache_get s (aa' pmkid' : option (list Z)) (ctx : option Z) (akm : Z) :
    option rsn_pmksa_cache_entry :=
  List.find (matches aa' pmkid' ctx akm) (pmksa s).

Definition pmksa_cache_get_fils_cache_id s (ctx : option Z) (cache_id : list Z) :
    option rsn_pmksa_cache_entry :=
  List.find (λ e, bool_decide (network_ctx e = ctx) &&
                  bool_decide (fils_cache_id e = Some cache_id)) (pmksa s).

(** The entry behind a pointer, while it is allocated. *)
Definition allocated s : list rsn_pmksa_cache_entry := pmksa s ++ option_list (loose s).
Definition deref s (id : nat) : option rsn_pmksa_cache_entry :=
  List.find (λ e, bool_decide (e_id e = id)) (allocated s).

(** ** Timers *)
Definition pmksa_cache_set_expiration (now : Z) s : outcome pmksa_sm :=
  let s := s <| expire_timer := None |> <| reauth_timer := None |> in
  match pmksa s with
  | [] => Ret s
  | head :: tail =>
      let sec := to_int (expiration head - now) in
      let sec :=
        if bool_decide (sec < 0) then
          if wpa_key_mgmt_sae (akmp head) && is_current s head then
            match tail with
            | e :: _ =>
                let sec := to_int (expiration e - now) in
                if bool_decide (sec < 0) then 0
                else if bool_decide (600 < sec) then 600 else sec
            | [] => 600
            end
          else 0
        else sec in
      let s := s <| expire_timer := Some (sec + 1) |> in
      entry ← match cur_pmksa s with
              | Some id => e ← access (deref s id); Ret (Some e)
              | None => Ret (pmksa_cache_get s (Some (bssid s)) None None 0)
              end;
      Ret match entry with
          | Some e =>
              if negb (wpa_key_mgmt_sae (akmp e)) then
                let sec := to_int (reauth_time head - now) in
                s <| reauth_timer := Some (if bool_decide (sec < 0) then 0 else sec) |>
              else s
          | None => s
          end
  end.

(** The loop of [pmksa_cache_expire]: the entries that stay linked. *)
Fixpoint expire_loop (now : Z) (l : list rsn_pmksa_cache_entry) s :
    list rsn_pmksa_cache_entry * pmksa_sm :=
  match l with
  | [] => ([], s)
  | e :: l' =>
      if bool_decide (expiration e ≤ now) then
        if wpa_key_mgmt_sae (akmp e) && is_current s e then
          let (r, s) := expire_loop now l' s in (e :: r, s)
        else expire_loop now l' (pmksa_cache_free_entry e PMKSA_EXPIRE s)
      else (l, s)
  end.

Definition pmksa_cache_expire (now : Z) s : outcome pmksa_sm :=
  let (l, s) := expire_loop now (pmksa s) s in
  pmksa_cache_set_expiration now (s <| pmksa := l |>).

Definition pmksa_cache_reauth s : pmksa_sm :=
  call RequestReauth (s <| cur_pmksa := None |>).

(** ** Flushing *)
Definition flush_matches (ctx : option Z) (pmk' : option (list Z)) (external_only : bool) e : bool :=
  (bool_decide (network_ctx e = ctx) || bool_decide (ctx = None)) &&
  match pmk' with Some p => bool_decide (p = pmk e) | None => true end &&
  (negb external_only || external e).

(** The entries that stay, and whether one was removed. *)
Fixpoint flush_loop (ctx : option Z) (pmk' : option (list Z)) (ext : bool)
    (l : list rsn_pmksa_cache_entry) (removed : bool) s :
    list rsn_pmksa_cache_entry * bool * pmksa_sm :=
  match l with
  | [] => ([], removed, s)
  | e :: l =>
      if flush_matches ctx pmk' ext e
      then flush_loop ctx pmk' ext l true (pmksa_cache_free_entry e PMKSA_FREE s)
      else let '(r, removed, s) := flush_loop ctx pmk' ext l removed s in (e :: r, removed, s)
  end.

Definition pmksa_cache_flush (now : Z) (ctx : option Z) (pmk' : option (list Z)) (ext : bool) s :
    outcome pmksa_sm :=
  let '(l, removed, s) := flush_loop ctx pmk' ext (pmksa s) false s in
  let s := s <| pmksa := l |> in
  if removed : bool then pmksa_cache_set_expiration now s else Ret s.

(** ** Adding an entry *)

(** The list around the first entry for an authenticator. *)
Fixpoint split_aa (a : list Z) (l : list rsn_pmksa_cache_entry) :
    option (list rsn_pmksa_cache_entry * rsn_pmksa_cache_entry * list rsn_pmksa_cache_entry) :=
  match l with
  | [] => None
  | e :: l =>
      if bool_decide (aa e = a) then Some ([], e, l)
      else match split_aa a l with
           | Some (before, pos, after) => Some (e :: before, pos, after)
           | None => None
           end
  end.

(** Unlinks and frees the oldest entry, or the second one when the oldest is in use. *)
Definition make_room s : pmksa_sm :=
  if bool_decide (pmksa_cache_max_entries ≤ pmksa_count s) then
    match pmksa s with
    | [] => s
    | head :: tail =>
        if is_current s head then
          match tail with
          | pos :: tail => pmksa_cache_free_entry pos PMKSA_FREE (s <| pmksa := head :: tail |>)
          | [] => s
          end
        else pmksa_cache_free_entry head PMKSA_FREE (s <| pmksa := tail |>)
    end
  else s.

Fixpoint insert_by_expiration e (l : list rsn_pmksa_cache_entry) : list rsn_pmksa_cache_entry :=
  match l with
  | [] => [e]
  | pos :: l' =>
      if bool_decide (expiration e < expiration pos) then e :: l
      else pos :: insert_by_expiration e l'
  end.

Definition at_head e (l : list rsn_pmksa_cache_entry) : bool :=
  match l with [] => true | pos :: _ => bool_decide (expiration e < expiration pos) end.

Definition link_entry (now : Z) e s : outcome pmksa_sm :=
  let first := at_head e (pmksa s) in
  let s := s <| pmksa ::= insert_by_expiration e |> in
  s ← (if first then pmksa_cache_set_expiration now s else Ret s);
  let s := s <| pmksa_count ::= λ n, n + 1 |> in
  Ret (call (AddPmkid (network_ctx e) (aa e) (pmkid e) (fils_cache_id e) (pmk e)
               (dot11RSNAConfigPMKLifetime s) (u8 (dot11RSNAConfigPMKReauthThreshold s))
               (akmp e)) s).

(** The address of the entry in the cache: the new one, or one that was there. *)
Definition pmksa_cache_add_entry (now : Z) e s : outcome (nat * pmksa_sm) :=
  match split_aa (aa e) (pmksa s) with
  | Some (before, pos, after) =>
      if bool_decide (pmk pos = pmk e) && bool_decide (pmkid pos = pmkid e)
      then Ret (e_id pos, s)
      else
        let s := s <| pmksa := before ++ after |> <| loose := Some pos |> in
        s ← (if opportunistic pos then Ret s
             else pmksa_cache_flush now (network_ctx e) (Some (pmk pos)) false s);
        let s := pmksa_cache_free_entry pos PMKSA_REPLACE (s <| loose := None |>) in
        s ← link_entry now e (make_room s);
        Ret (e_id e, s)
  | None => s ← link_entry now e (make_room s); Ret (e_id e, s)
  end.

(** [ok] is whether the allocation succeeds. *)
Definition pmksa_cache_add (ok : bool) (now : Z) (pmk' : list Z) (pmkid' : option (list Z))
    (kck : option (list Z)) (aa' spa : list Z) (ctx : option Z) (akm : Z)
    (cache_id : option (list Z)) s : outcome (option nat * pmksa_sm) :=
  if bool_decide (PMK_LEN_MAX < blen pmk') then Ret (None, s)
  else if wpa_key_mgmt_suite_b akm && bool_decide (kck = None) then Ret (None, s)
  else if negb ok then Ret (None, s)
  else
    id ← match pmkid' with
         | Some p => Ret p
         | None =>
             let kck := default [] kck in
             access (if bool_decide (akm = WPA_KEY_MGMT_IEEE8021X_SUITE_B_192)
                     then rsn_pmkid_suite_b SHA384 kck aa' spa
                     else if wpa_key_mgmt_suite_b akm then rsn_pmkid_suite_b SHA256 kck aa' spa
                     else rsn_pmkid pmk' aa' spa akm)
         end;
    let life := dot11RSNAConfigPMKLifetime s in
    let e := mk_entry (next_id s) id pmk' (u64 (now + life)) akm aa' cache_id
               (u64 (now + u32 (life * dot11RSNAConfigPMKReauthThreshold s) / 100))
               ctx false false in
    '(r, s) ← pmksa_cache_add_entry now e (s <| next_id ::= S |>);
    Ret (Some r, s).

(** ** Opportunistic key caching *)
Definition update_entry (id : nat) (f : rsn_pmksa_cache_entry → rsn_pmksa_cache_entry) s :
    pmksa_sm :=
  s <| pmksa ::= map (λ e, if bool_decide (e_id e = id) then f e else e) |>.

Definition pmksa_cache_clone_entry (ok : bool) (now : Z) (old : rsn_pmksa_cache_entry)
    (aa' : list Z) s : outcome (option nat * pmksa_sm) :=
  let id := if wpa_key_mgmt_sae (akmp old) || wpa_key_mgmt_fils (akmp old)
            then Some (pmkid old) else None in
  '(r, s) ← pmksa_cache_add ok now (pmk old) id None aa' (own_addr s) (network_ctx old)
              (akmp old) (fils_cache_id old) s;
  match r with
  | None => Ret (None, s)
  | Some id =>
      Ret (Some id, update_entry id (λ e, e <| expiration := expiration old |>
                                            <| reauth_time := reauth_time old |>
                                            <| opportunistic := true |>) s)
  end.

(** The entry of the network whose key may be shared. *)
Definition okc_candidate (now : Z) (ctx : option Z) (akm : Z) e : bool :=
  bool_decide (network_ctx e = ctx) && (bool_decide (akm = 0) || bool_decide (akmp e = akm)) &&
  negb (wpa_key_mgmt_sae (akmp e) && bool_decide (reauth_time e < now)).

Definition pmksa_cache_get_opportunistic (ok : bool) (now : Z) (ctx : option Z) (aa' : list Z)
    (akm : Z) s : outcome (option nat * pmksa_sm) :=
  match ctx with
  | None => Ret (None, s)
  | Some _ =>
      match List.find (okc_candidate now ctx akm) (pmksa s) with
      | Some e => pmksa_cache_clone_entry ok now e aa' s
      | None => Ret (None, s)
      end
  end.

(** ** The current entry *)
Definition pmksa_cache_clear_current s : pmksa_sm := s <| cur_pmksa := None |>.

Definition pmksa_cache_set_current (ok : bool) (now : Z) (pmkid' bssid' : option (list Z))
    (ctx : option Z) (try_opportunistic : bool) (cache_id : option (list Z)) (akm : Z) s :
    outcome (Z * pmksa_sm) :=
  let cur := match pmkid' with
             | Some _ => e_id <$> pmksa_cache_get s None pmkid' ctx akm
             | None => None
             end in
  let cur := match cur, bssid' with
             | None, Some _ => e_id <$> pmksa_cache_get s bssid' None ctx akm
             | _, _ => cur
             end in
  let s := s <| cur_pmksa := cur |> in
  s ← match cur, bssid' with
      | None, Some b =>
          if try_opportunistic then
            '(r, s) ← pmksa_cache_get_opportunistic ok now ctx b akm s;
            Ret (s <| cur_pmksa := r |>)
          else Ret s
      | _, _ => Ret s
      end;
  let s := match cur_pmksa s, cache_id with
           | None, Some c => s <| cur_pmksa := e_id <$> pmksa_cache_get_fils_cache_id s ctx c |>
           | _, _ => s
           end in
  match cur_pmksa s with
  | None => Ret (-1, s)
  | Some id =>
      e ← access (deref s id);
      if wpa_key_mgmt_sae (akmp e) && bool_decide (reauth_time e < now)
      then Ret (-1, s <| cur_pmksa := None |>)
      else Ret (0, s)
  end.

(** ** Telling the driver again *)
Fixpoint reconfig_loop (now : Z) (l : list rsn_pmksa_cache_entry) s : outcome pmksa_sm :=
  match l with
  | [] => Ret s
  | e :: l =>
      if bool_decide (u64 (expiration e - now) < 1) || bool_decide (u64 (reauth_time e - now) < 1)
      then reconfig_loop now l s
      else
        let life_time := u32 (u64 (expiration e - now)) in
        if bool_decide (life_time = 0) then Undef
        else
          let threshold := u8 (u64 (u64 (reauth_time e - now) * 100) / life_time) in
          if bool_decide (threshold = 0) then reconfig_loop now l s
          else reconfig_loop now l
                 (call (AddPmkid (network_ctx e) (aa e) (pmkid e) (fils_cache_id e) (pmk e)
                          life_time threshold (akmp e)) s)
  end.

Definition pmksa_cache_reconfig (now : Z) s : outcome pmksa_sm := reconfig_loop now (pmksa s) s.

Definition pmksa_cache_head s : option rsn_pmksa_cache_entry := head (pmksa s).
Definition pmksa_cache_get_current s : option nat := cur_pmksa s.

(** The cache of [wpa_sm_init], for the addresses and settings of struct wpa_sm. *)
Definition pmksa_cache_init (bssid own_addr : list Z) (lifetime threshold : Z) : pmksa_sm :=
  {| pmksa := []; pmksa_count := 0; loose := None; cur_pmksa := None; sm_pmk := [];
     pmk_rest := replicate 64 0; bssid := bssid; own_addr := own_addr; dot11RSNAConfigPMKLifetime := lifetime;
     dot11RSNAConfigPMKReauthThreshold := threshold; expire_timer := None;
     reauth_timer := None; next_id := 0; calls := [] |}.

(** ** The operations that other modules use

    [OpAddEntry] is for an entry that the caller allocated, at a new address.
    [pmksa_cache_clone_entry] is a static function, of [OpOpportunistic] and
    [OpSetCurrent]. *)
Inductive pmksa_op :=
| OpExpire
| OpReauth
| OpAdd (ok : bool) (pmk' : list Z) (pmkid' kck : option (list Z)) (aa' spa : list Z)
    (ctx : option Z) (akm : Z) (cache_id : option (list Z))
| OpAddEntry (e : rsn_pmksa_cache_entry)
| OpReconfig
| OpFlush (ctx : option Z) (pmk' : option (list Z)) (ext : bool)
| OpOpportunistic (ok : bool) (ctx : option Z) (aa' : list Z) (akm : Z)
| OpSetCurrent (ok : bool) (pmkid' bssid' : option (list Z)) (ctx : option Z) (okc : bool)
    (cache_id : option (list Z)) (akm : Z)
| OpClearCurrent
| OpSetPmk (pmk' : list Z)
| OpSetBssid (bssid' : list Z).

Definition pmksa_do (s : pmksa_sm) (o : Z * pmksa_op) : outcome pmksa_sm :=
  let now := fst o in
  match snd o with
  | OpExpire => pmksa_cache_expire now s
  | OpReauth => Ret (pmksa_cache_reauth s)
  | OpAdd ok p id kck a spa ctx akm c =>
      r ← pmksa_cache_add ok now p id kck a spa ctx akm c s; Ret (snd r)
  | OpAddEntry e =>
      r ← pmksa_cache_add_entry now (e <| e_id := next_id s |>) (s <| next_id ::= S |>);
      Ret (snd r)
  | OpReconfig => pmksa_cache_reconfig now s
  | OpFlush ctx p ext => pmksa_cache_flush now ctx p ext s
  | OpOpportunistic ok ctx a akm =>
      r ← pmksa_cache_get_opportunistic ok now ctx a akm s; Ret (snd r)
  | OpSetCurrent ok id b ctx okc c akm =>
      r ← pmksa_cache_set_current ok now id b ctx okc c akm s; Ret (snd r)
  | OpClearCurrent => Ret (pmksa_cache_clear_current s)
  | OpSetPmk p => Ret (put_pmk p s)
  | OpSetBssid b => Ret (s <| bssid := b |>)
  end.

Fixpoint pmksa_run (s : pmksa_sm) (os : list (Z * pmksa_op)) : outcome pmksa_sm :=
  match os with
  | [] => Ret s
  | o :: os => s ← pmksa_do s o; pmksa_run s os
  end.
End pmksa_cache.
