(* ===== verification/PmksaProofs.v ===== *)
(** Properties of the PMKSA cache of [PmksaCache]

    - [cache_ok]: the count, the limit, one entry per authenticator, no pointer to a
      freed entry, and a scheduled expiry check; kept by every operation;
    - the order by expiration time and what the expiry check removes;
    - lookup after insertion, and the choice of the current entry;
    - two places where the code does not do what it means to do. *)
From stdpp Require Import sorting.
From S2P Require Import Prelude Defs PmksaCache.

Abbreviation ids l := (e_id <$> l).

Section proofs.
Variable hmac : hash_alg → list Z → list Z → bool * list Z.
(** The array for the hash has at least the 16 octets that are used of it. *)
Hypothesis Hhmac : ∀ alg k d, PMKID_LEN ≤ blen (snd (hmac alg k d)).

Implicit Types (s : pmksa_sm) (e : rsn_pmksa_cache_entry).

(** ** Removing entries *)

(** What no removal changes. *)
Definition settings s :=
  (loose s, next_id s, bssid s, own_addr s, dot11RSNAConfigPMKLifetime s,
   dot11RSNAConfigPMKReauthThreshold s).

(** [l'] is what is left of [l], with the entries and [cur_pmksa] accounted for. *)
Record removal s (l : list rsn_pmksa_cache_entry) s' (l' : list rsn_pmksa_cache_entry) := {
  rem_sub : l' `sublist_of` l;
  rem_settings : settings s' = settings s;
  rem_count : pmksa_count s' - blen l' = pmksa_count s - blen l;
  rem_timer : expire_timer s' = expire_timer s;
  rem_cur id : cur_pmksa s' = Some id →
    cur_pmksa s = Some id ∧ (id ∈ ids l → id ∈ ids l');
}.

Lemma free_entry_spec e r s :
  let s' := pmksa_cache_free_entry e r s in
  settings s' = settings s ∧ pmksa s' = pmksa s ∧ pmksa_count s' = pmksa_count s - 1 ∧
  expire_timer s' = expire_timer s ∧
  (cur_pmksa s' = cur_pmksa s ∨ cur_pmksa s' = None) ∧ cur_pmksa s' ≠ Some (e_id e).
Proof.
  intros s'. subst s'. unfold pmksa_cache_free_entry, wpa_sm_pmksa_free_cb, is_current. simpl.
  case_bool_decide as Hc; simpl; destruct (bool_decide (r = PMKSA_EXPIRE)); simpl;
    repeat case_bool_decide; simpl; split_and!; auto.
Qed.

Lemma removal_refl s l : removal s l s l.
Proof. split; auto. Qed.

Lemma removal_keep s s' e l l' : removal s l s' l' → removal s (e :: l) s' (e :: l').
Proof.
  intros [? ? Hcount ? Hcur]. split; try done.
  - by constructor.
  - simpl. lia.
  - intros id Hid. destruct (Hcur id Hid) as [? Hin]. split; [done|].
    rewrite !fmap_cons, !elem_of_cons. naive_solver.
Qed.

Lemma removal_free r s s' e l l' :
  removal (pmksa_cache_free_entry e r s) l s' l' → removal s (e :: l) s' l'.
Proof.
  destruct (free_entry_spec e r s) as (E1 & E2 & E3 & E4 & E5 & E6).
  intros [? Es Hcount Ht Hcur]. split; try congruence.
  - by constructor.
  - simpl. lia.
  - intros id Hid. destruct (Hcur id Hid) as [Hid' Hin].
    destruct E5 as [E5|E5]; [|congruence]. rewrite <- E5. split; [done|].
    rewrite fmap_cons, elem_of_cons. intros [->|]; [by rewrite Hid' in E6|auto].
Qed.

Lemma expire_loop_removal now l s :
  removal s l (snd (expire_loop now l s)) (fst (expire_loop now l s)).
Proof.
  revert s. induction l as [|e l IH]; intros s; simpl; [apply removal_refl|].
  case_bool_decide; [|apply removal_refl]. destruct (_ && _).
  - specialize (IH s). destruct (expire_loop now l s) as [r s']. by apply removal_keep.
  - eapply removal_free, IH.
Qed.

Lemma flush_loop_removal ctx p ext l b s :
  let '(l', _, s') := flush_loop ctx p ext l b s in removal s l s' l'.
Proof.
  revert b s. induction l as [|e l IH]; intros b s; simpl; [apply removal_refl|].
  destruct (flush_matches ctx p ext e).
  - specialize (IH true (pmksa_cache_free_entry e PMKSA_FREE s)).
    destruct (flush_loop _ _ _ _ _ _) as [[l' b'] s']. eapply removal_free, IH.
  - specialize (IH b s). destruct (flush_loop _ _ _ _ _ _) as [[l' b'] s'].
    by apply removal_keep.
Qed.

Lemma flush_loop_kept ctx p ext l b s :
  fst (flush_loop ctx p ext l b s) =
    (filter (λ e, flush_matches ctx p ext e = false) l,
     b || existsb (flush_matches ctx p ext) l).
Proof.
  revert b s. induction l as [|e l IH]; intros b s; simpl; [by rewrite orb_false_r|].
  rewrite filter_cons. destruct (flush_matches ctx p ext e); simpl.
  - by rewrite IH, orb_true_r.
  - specialize (IH b s). destruct (flush_loop _ _ _ _ _ _) as [[l' b'] s']. simpl in *.
    by injection IH as -> ->.
Qed.

(** ** The invariant *)
Definition entry_ok s e : Prop := (e_id e < next_id s)%nat ∧ blen (pmk e) ≤ PMK_LEN_MAX.

Record list_ok s (l : list rsn_pmksa_cache_entry) : Prop := {
  lo_ids : NoDup (ids l);
  lo_aas : NoDup (aa <$> l);
  lo_entries : Forall (entry_ok s) l;
}.

(** With an unlinked entry that is not freed yet. *)
Record heap_ok s : Prop := {
  ok_list : list_ok s (allocated s);
  ok_count : pmksa_count s = blen (allocated s);
  ok_max : blen (allocated s) ≤ pmksa_cache_max_entries;
  ok_cur id : cur_pmksa s = Some id → id ∈ ids (allocated s);
  ok_timer : pmksa s ≠ [] → expire_timer s ≠ None;
}.
Definition cache_ok s : Prop := heap_ok s ∧ loose s = None.

Lemma list_ok_sub s s' l l' :
  list_ok s l → l' `sublist_of` l → (next_id s <= next_id s')%nat → list_ok s' l'.
Proof.
  intros [Hi Ha He] Hs Hn. split.
  - eapply sublist_NoDup; [exact Hi|]. by apply fmap_sublist.
  - eapply sublist_NoDup; [exact Ha|]. by apply fmap_sublist.
  - apply Forall_forall. intros e Hin. rewrite Forall_forall in He.
    destruct (He e) as [? ?]; [by eapply elem_of_sublist|]. split; [lia|done].
Qed.

Lemma deref_in s id : id ∈ ids (allocated s) → is_Some (deref s id).
Proof.
  intros (e & -> & He)%list_elem_of_fmap. unfold deref.
  destruct (List.find _ _) eqn:E; [by eexists|].
  eapply List.find_none in E; [|by apply list_elem_of_In].
  by apply bool_decide_eq_false_1 in E.
Qed.

Lemma set_expiration_spec now s :
  (∀ id, cur_pmksa s = Some id → id ∈ ids (allocated s)) →
  ∃ a b, pmksa_cache_set_expiration now s =
           Ret (s <| expire_timer := a |> <| reauth_timer := b |>) ∧
         (pmksa s ≠ [] → a ≠ None).
Proof.
  intros Hcur. unfold pmksa_cache_set_expiration. simpl.
  destruct (pmksa s) as [|h t] eqn:El; [by exists None, None|].
  destruct (cur_pmksa s) as [id|] eqn:Ec.
  - destruct (deref_in s id) as [e He]; [by apply Hcur|].
    match goal with |- context [deref ?x id] => assert (deref x id = Some e) as -> end.
    { rewrite <- He. unfold deref, allocated. simpl. by rewrite El. }
    rewrite access_bind, ret_bind.
    destruct (negb _); by eexists _, _.
  - rewrite ret_bind. destruct (pmksa_cache_get _ _ _ _ _) as [e|]; [|by eexists _, _].
    destruct (negb _); by eexists _, _.
Qed.

Lemma list_ok_perm s l l' : list_ok s l → l ≡ₚ l' → list_ok s l'.
Proof. intros [Hi Ha He] Hp. split; by rewrite <- Hp. Qed.

Lemma allocated_linked s : loose s = None → allocated s = pmksa s.
Proof. intros E. unfold allocated. by rewrite E, app_nil_r. Qed.

(** A list that shrinks keeps the invariant. *)
Lemma removal_heap s s' l' :
  heap_ok s → removal s (pmksa s) s' l' →
  list_ok s (l' ++ option_list (loose s)) ∧
  pmksa_count s' = blen (l' ++ option_list (loose s)) ∧
  blen (l' ++ option_list (loose s)) ≤ pmksa_cache_max_entries ∧
  (∀ id, cur_pmksa s' = Some id → id ∈ ids (l' ++ option_list (loose s))).
Proof.
  intros [Hl Hc Hm Hin _] [Hsub Es Hcount Ht Hcur].
  pose proof (sublist_length _ _ Hsub) as Hlen. unfold allocated in *.
  rewrite !length_app in *. split_and!.
  - eapply list_ok_sub; [exact Hl| |lia]. by apply sublist_app.
  - lia.
  - lia.
  - intros id Hid. destruct (Hcur id Hid) as [Hid' Hk]. specialize (Hin id Hid').
    rewrite fmap_app, elem_of_app in *. naive_solver.
Qed.

Lemma removal_timed now s s' l' :
  heap_ok s → removal s (pmksa s) s' l' →
  ∃ s2, pmksa_cache_set_expiration now (s' <| pmksa := l' |>) = Ret s2 ∧ heap_ok s2 ∧
        pmksa s2 = l' ∧ settings s2 = settings s.
Proof.
  intros Hs Hr. destruct (removal_heap _ _ _ Hs Hr) as (Hl & Hc & Hm & Hin).
  destruct Hr as [_ [= E1 E2 E3 E4 E5 E6] _ _ _].
  destruct (set_expiration_spec now (s' <| pmksa := l' |>)) as (a & b & -> & Hab).
  { unfold allocated. simpl. by rewrite E1. }
  eexists. split; [done|]. split_and!; [|done|unfold settings; simpl; congruence].
  split; unfold allocated; simpl; rewrite ?E1; try done.
  eapply list_ok_sub; [exact Hl|done|simpl; lia].
Qed.

Lemma expire_ok now s :
  cache_ok s → ∃ s', pmksa_cache_expire now s = Ret s' ∧ cache_ok s' ∧
    pmksa s' = fst (expire_loop now (pmksa s) s) ∧ settings s' = settings s.
Proof.
  intros [Hs Hlo]. unfold pmksa_cache_expire.
  pose proof (expire_loop_removal now (pmksa s) s) as Hr.
  destruct (expire_loop now (pmksa s) s) as [l' s']. simpl in *.
  destruct (removal_timed now s s' l' Hs Hr) as (s2 & ? & ? & ? & E).
  exists s2. split_and!; try done. split; [done|]. by injection E as ->.
Qed.

Lemma flush_loop_unchanged ctx p ext l s :
  existsb (flush_matches ctx p ext) l = false → flush_loop ctx p ext l false s = (l, false, s).
Proof.
  induction l as [|e l IH]; simpl; [done|]. intros [-> Hl]%orb_false_iff. by rewrite IH.
Qed.

Lemma flush_ok now ctx p ext s :
  heap_ok s → ∃ s', pmksa_cache_flush now ctx p ext s = Ret s' ∧ heap_ok s' ∧
    pmksa s' = filter (λ e, flush_matches ctx p ext e = false) (pmksa s) ∧
    settings s' = settings s.
Proof.
  intros Hs. unfold pmksa_cache_flush.
  pose proof (flush_loop_removal ctx p ext (pmksa s) false s) as Hr.
  pose proof (flush_loop_kept ctx p ext (pmksa s) false s) as Hk. simpl in Hk.
  destruct (existsb _ (pmksa s)) eqn:Ex.
  - destruct (flush_loop _ _ _ _ _ _) as [[l' b'] s']. simpl in Hk. injection Hk as <- ->.
    destruct (removal_timed now s s' l' Hs Hr) as (s2 & -> & ? & <- & ?). by exists s2.
  - rewrite flush_loop_unchanged in * by done. simpl in Hk. injection Hk as Hk.
    exists s. rewrite <- Hk. split_and!; try done. by destruct s.
Qed.

(** ** Adding *)
Lemma insert_perm e l : insert_by_expiration e l ≡ₚ e :: l.
Proof.
  induction l as [|x l IH]; simpl; [done|]. case_bool_decide; [done|].
  rewrite IH. apply Permutation_swap.
Qed.

Lemma settings_next s s' : settings s' = settings s → next_id s' = next_id s.
Proof. by intros [= _ ->]. Qed.

Lemma removal_relink s k l s' l' : removal (s <| pmksa := k |>) l s' l' → removal s l s' l'.
Proof. by intros [? ? ? ? ?]; split. Qed.

(** Unlinking and freeing one entry. *)
Lemma free_linked_ok e r s l' :
  let s' := pmksa_cache_free_entry e r (s <| pmksa := l' |>) in
  cache_ok s → pmksa s ≠ [] → removal s (pmksa s) s' l' →
  cache_ok s' ∧ pmksa s' = l' ∧ settings s' = settings s.
Proof.
  intros s' [Hs Hlo] Hne Hr.
  destruct (free_entry_spec e r (s <| pmksa := l' |>)) as (_ & El & _). fold s' in El.
  destruct (removal_heap _ _ _ Hs Hr) as (Hl & Hc & Hm & Hin).
  destruct Hr as [_ Es _ Et _]. rewrite Hlo, app_nil_r in *. clearbody s'.
  assert (Hlo' : loose s' = None) by (by injection Es as ->).
  split; [|split; done]. split; [|done].
  split; rewrite ?allocated_linked, ?El by done; try done.
  - eapply list_ok_sub; [exact Hl|done|]. by rewrite (settings_next _ _ Es).
  - intros _. rewrite Et. by destruct Hs as [_ _ _ _ ?]; auto.
Qed.

Lemma make_room_ok s :
  cache_ok s → cache_ok (make_room s) ∧ pmksa (make_room s) `sublist_of` pmksa s ∧
    blen (pmksa (make_room s)) < pmksa_cache_max_entries ∧ settings (make_room s) = settings s.
Proof.
  intros Hok. pose proof Hok as [[Hl Hc Hm Hin Ht] Hlo]. unfold make_room.
  rewrite allocated_linked in * by done.
  case_bool_decide as Hfull; [|split_and!; [done|done|lia|done]].
  unfold pmksa_cache_max_entries in *.
  destruct (pmksa s) as [|h tl] eqn:El; [simpl in *; lia|].
  assert (Hfree : ∀ e l',
    let s' := pmksa_cache_free_entry e PMKSA_FREE (s <| pmksa := l' |>) in
    removal s (pmksa s) s' l' → (length l' < length (pmksa s))%nat →
    cache_ok s' ∧ pmksa s' `sublist_of` (h :: tl) ∧ blen (pmksa s') < 32 ∧
    settings s' = settings s).
  { intros e l' s' Hr Hlt. destruct (free_linked_ok e PMKSA_FREE s l') as (Ho & E & Es);
      [done|by rewrite El|done|]. fold s' in Ho, E, Es. clearbody s'. rewrite E, El in *.
    split_and!; [done| |simpl in *; lia|done]. by destruct Hr. }
  rewrite El in Hfree. destruct (is_current s h).
  - destruct tl as [|pos tl]; [simpl in *; lia|]. apply Hfree; [|simpl; lia].
    apply removal_keep. eapply removal_relink, removal_free, removal_refl.
  - apply Hfree; [|simpl; lia]. eapply removal_relink, removal_free, removal_refl.
Qed.

Lemma link_entry_ok now e s :
  cache_ok s → entry_ok s e → e_id e ∉ ids (pmksa s) → aa e ∉ aa <$> pmksa s →
  blen (pmksa s) < pmksa_cache_max_entries →
  ∃ s', link_entry now e s = Ret s' ∧ cache_ok s' ∧
    pmksa s' = insert_by_expiration e (pmksa s) ∧ settings s' = settings s.
Proof.
  intros [[Hl Hc Hm Hin Ht] Hlo] He Hid Ha Hlt. unfold link_entry. cbv zeta.
  rewrite allocated_linked in * by done.
  pose proof (insert_perm e (pmksa s)) as Hp.
  set (s1 := s <| pmksa ::= insert_by_expiration e |>).
  assert (Hin1 : ∀ id, cur_pmksa s1 = Some id → id ∈ ids (allocated s1)).
  { intros id E. rewrite allocated_linked by done. simpl. rewrite Hp, fmap_cons.
    apply elem_of_cons. right. by apply Hin. }
  assert (Hs2 : ∃ s2, (if at_head e (pmksa s) then pmksa_cache_set_expiration now s1 else Ret s1)
    = Ret s2 ∧ pmksa s2 = pmksa s1 ∧ settings s2 = settings s1 ∧
    pmksa_count s2 = pmksa_count s1 ∧ cur_pmksa s2 = cur_pmksa s1 ∧ expire_timer s2 ≠ None).
  { destruct (at_head e (pmksa s)) eqn:Eh.
    - destruct (set_expiration_spec now s1 Hin1) as (a & b & -> & Hab).
      eexists. split; [done|]. split_and!; try done. apply Hab. simpl.
      intros Hnil. rewrite Hnil in Hp. by apply Permutation_nil_cons in Hp.
    - exists s1. split_and!; try done. apply Ht. by intros E; rewrite E in Eh. }
  destruct Hs2 as (s2 & -> & E1 & E2 & E3 & E4 & E5). rewrite ret_bind.
  eexists. split; [done|]. unfold settings in *. simpl in *. simplify_eq.
  split; [|split; [done|congruence]]. split; [|by simpl; congruence].
  assert (Hal : loose s2 = None) by congruence.
  split; rewrite ?allocated_linked by done; simpl; rewrite ?E1.
  - eapply list_ok_perm; [|symmetry; exact Hp].
    destruct Hl as [? ? Hf]. split; [by apply NoDup_cons|by apply NoDup_cons|].
    apply Forall_cons. unfold entry_ok. simpl.
    replace (next_id s2) with (next_id s) by congruence. by split.
  - rewrite Hp. simpl. lia.
  - rewrite Hp. simpl. lia.
  - intros id E. rewrite E4 in E. specialize (Hin1 id E).
    by rewrite allocated_linked in Hin1.
  - done.
Qed.

Lemma split_aa_spec a l :
  match split_aa a l with
  | Some (before, pos, after) => l = before ++ pos :: after ∧ aa pos = a
  | None => a ∉ aa <$> l
  end.
Proof.
  induction l as [|e l IH]; simpl; [by apply not_elem_of_nil|]. case_bool_decide; [done|].
  destruct (split_aa a l) as [[[b p] af]|]; [by destruct IH as [-> ?]|].
  rewrite not_elem_of_cons. by split.
Qed.

(** What the list is after an addition: as before, or with the new entry linked into
    what is left of it. *)
Definition added e (l l' : list rsn_pmksa_cache_entry) : Prop :=
  l' = l ∨ ∃ l0, l0 `sublist_of` l ∧ l' = insert_by_expiration e l0.

(** The entry that is found at an address. *)
Definition found_at (id : nat) (l : list rsn_pmksa_cache_entry) (a k i : list Z) : Prop :=
  ∃ x, x ∈ l ∧ e_id x = id ∧ aa x = a ∧ pmk x = k ∧ pmkid x = i.

Lemma found_new e l : found_at (e_id e) (insert_by_expiration e l) (aa e) (pmk e) (pmkid e).
Proof. exists e. rewrite insert_perm. split; [by left|done]. Qed.

Lemma not_elem_sublist {A B} (f : A → B) x l l' :
  l' `sublist_of` l → x ∉ f <$> l → x ∉ f <$> l'.
Proof. intros Hs Hx Hin. apply Hx. eapply elem_of_sublist; [exact Hin|]. by apply fmap_sublist. Qed.

(** Linking the entry into a cache that lost some entries. *)
Lemma room_and_link_ok now e s l :
  cache_ok s → pmksa s `sublist_of` l → entry_ok s e → e_id e ∉ ids l →
  aa e ∉ aa <$> pmksa s →
  ∃ s', link_entry now e (make_room s) = Ret s' ∧ cache_ok s' ∧ added e l (pmksa s') ∧
    found_at (e_id e) (pmksa s') (aa e) (pmk e) (pmkid e) ∧ settings s' = settings s.
Proof.
  intros Hok Hsub He Hid Ha. destruct (make_room_ok s Hok) as (Hm & Hms & Hlt & Es).
  destruct (link_entry_ok now e (make_room s)) as (s' & -> & Hok' & E & Es'); [done|..|done|].
  - unfold entry_ok in *. by rewrite (settings_next _ _ Es).
  - eapply not_elem_sublist; [|exact Hid]. by etrans.
  - by eapply not_elem_sublist.
  - exists s'. rewrite E. split_and!; [done|done| |apply found_new|congruence].
    right. exists (pmksa (make_room s)). split; [by etrans|done].
Qed.

Lemma filter_sublist_of {A} (P : A → Prop) `{∀ x, Decision (P x)} l l' :
  l' = filter P l → l' `sublist_of` l.
Proof. intros ->. apply sublist_filter. Qed.

Lemma add_entry_ok now e s :
  cache_ok s → entry_ok s e → e_id e ∉ ids (pmksa s) →
  ∃ id s', pmksa_cache_add_entry now e s = Ret (id, s') ∧ cache_ok s' ∧
    added e (pmksa s) (pmksa s') ∧ found_at id (pmksa s') (aa e) (pmk e) (pmkid e) ∧
    settings s' = settings s.
Proof.
  intros Hok He Hid. unfold pmksa_cache_add_entry.
  pose proof (split_aa_spec (aa e) (pmksa s)) as Hsp.
  destruct (split_aa (aa e) (pmksa s)) as [[[bef pos] aft]|].
  2: { destruct (room_and_link_ok now e s (pmksa s)) as (s' & -> & H); [done..|].
       rewrite ret_bind. eexists _, _. split; [done|]. exact H. }
  destruct Hsp as [El Ea]. destruct (bool_decide (pmk pos = pmk e) && _) eqn:Esame.
  { apply andb_true_iff in Esame as [?%bool_decide_eq_true_1 ?%bool_decide_eq_true_1].
    eexists _, _. split; [done|]. split_and!; [done|by left| |done].
    exists pos. rewrite El. split; [|done]. apply elem_of_app. right. by left. }
  clear Esame. cbv zeta. set (s1 := s <| pmksa := bef ++ aft |> <| loose := Some pos |>).
  pose proof Hok as [[Hl Hc Hm Hin Ht] Hlo].
  assert (Hp : allocated s1 ≡ₚ allocated s).
  { rewrite (allocated_linked s) by done. unfold allocated. simpl. rewrite El. solve_Permutation. }
  assert (Hs1 : heap_ok s1).
  { split; [eapply (list_ok_sub s); [eapply list_ok_perm; [exact Hl|by symmetry]|done|done]|by rewrite Hp..| |].
    - intros id Hi. rewrite Hp. by apply Hin.
    - intros _. apply Ht. rewrite El. by destruct bef. }
  assert (Hfl : ∃ s2, (if opportunistic pos then Ret s1
      else pmksa_cache_flush now (network_ctx e) (Some (pmk pos)) false s1) = Ret s2 ∧
    heap_ok s2 ∧ pmksa s2 `sublist_of` bef ++ aft ∧ settings s2 = settings s1).
  { destruct (opportunistic pos); [by exists s1|].
    destruct (flush_ok now (network_ctx e) (Some (pmk pos)) false s1 Hs1)
      as (s2 & -> & ? & ?%filter_sublist_of & ?). by exists s2. }
  destruct Hfl as (s2 & -> & [Hl2 Hc2 Hm2 Hin2 Ht2] & Hsub2 & Es2). rewrite ret_bind.
  assert (Elo2 : loose s2 = Some pos) by (by injection Es2 as ->).
  set (s3 := pmksa_cache_free_entry _ _ _).
  destruct (free_entry_spec pos PMKSA_REPLACE (s2 <| loose := None |>))
    as (Es3 & El3 & Hc3 & Ht3 & Hcur3 & Hne3). fold s3 in Es3, El3, Hc3, Ht3, Hcur3, Hne3.
  simpl in *. unfold allocated in Hl2, Hc2, Hm2, Hin2. rewrite Elo2 in *.
  assert (Hn3 : next_id s3 = next_id s).
  { apply settings_next in Es3, Es2. by rewrite Es3. }
  assert (Hlo3 : loose s3 = None) by (by injection Es3).
  assert (Hok3 : cache_ok s3).
  { split; [|done]. split; rewrite ?allocated_linked, ?El3 by done.
    - eapply list_ok_sub; [exact Hl2|by apply sublist_inserts_r|].
      rewrite Hn3. apply settings_next in Es2. rewrite Es2. done.
    - rewrite length_app in Hc2. simpl in Hc2. lia.
    - rewrite length_app in Hm2. simpl in Hm2. lia.
    - intros id Hi. destruct Hcur3 as [Hcur3|Hcur3]; [|congruence].
      rewrite Hi in Hcur3. specialize (Hin2 id (eq_sym Hcur3)).
      rewrite fmap_app, elem_of_app in Hin2. destruct Hin2 as [|Hin2]; [done|].
      apply list_elem_of_singleton in Hin2. congruence.
    - rewrite Ht3. exact Ht2. }
  assert (Hsub : pmksa s3 `sublist_of` pmksa s).
  { rewrite El3, El. etrans; [exact Hsub2|]. apply sublist_app; [done|]. by constructor. }
  destruct (room_and_link_ok now e s3 (pmksa s)) as (s' & -> & Hok' & ? & ? & Es'); try done.
  - unfold entry_ok. by rewrite Hn3.
  - rewrite El3. eapply not_elem_sublist; [exact Hsub2|].
    destruct Hl as [_ Haa _]. rewrite allocated_linked, El in Haa by done.
    rewrite <- Ea. rewrite fmap_app, fmap_cons in Haa. rewrite fmap_app.
    apply NoDup_app in Haa as (_ & Hd & [Hn _]%NoDup_cons).
    rewrite not_elem_of_app. split; [|done]. intros Hi. apply (Hd _ Hi). by left.
  - rewrite ret_bind. eexists _, _. split; [done|]. split_and!; try done.
    rewrite Es', Es3. injection Es2 as _ E2 E3 E4 E5 E6. unfold settings. simpl.
    by rewrite E2, E3, E4, E5, E6, Hlo.
Qed.

(** [settings] without the counter of addresses. *)
Definition own_settings s :=
  (bssid s, own_addr s, dot11RSNAConfigPMKLifetime s, dot11RSNAConfigPMKReauthThreshold s).
Lemma settings_own s s' : settings s' = settings s → own_settings s' = own_settings s.
Proof. unfold settings, own_settings. intros [= _ _ -> -> -> ->]. done. Qed.

Lemma suite_b_pmkid alg kck a spa : ∃ i, rsn_pmkid_suite_b hmac alg kck a spa = Some i.
Proof.
  unfold rsn_pmkid_suite_b. pose proof (Hhmac alg kck (pmk_name ++ a ++ spa)) as Hh.
  destruct (hmac _ _ _) as [[|] h]; [|by eexists]. unfold PMKID_LEN in *. simpl in Hh.
  by destruct (slice_is_Some h 0 16) as [i ->]; [lia..|exists i].
Qed.

Lemma rsn_pmkid_some k a spa akm : ∃ i, rsn_pmkid hmac k a spa akm = Some i.
Proof.
  unfold rsn_pmkid. cbv zeta. set (alg := if wpa_key_mgmt_sha384 akm then _ else _). clearbody alg.
  pose proof (Hhmac alg k (pmk_name ++ a ++ spa)) as Hh. unfold PMKID_LEN in *.
  by destruct (slice_is_Some (snd (hmac alg k (pmk_name ++ a ++ spa))) 0 16) as [i ->];
    [lia..|exists i].
Qed.

Lemma fresh_id s : cache_ok s → next_id s ∉ ids (pmksa s).
Proof.
  intros [[[_ _ Hf] _ _ _ _] Hlo] (e & E & He)%list_elem_of_fmap.
  rewrite allocated_linked, Forall_forall in Hf by done. destruct (Hf e He). lia.
Qed.

Lemma next_ok s : cache_ok s → cache_ok (s <| next_id ::= S |>).
Proof.
  intros [[Hl ? ? ? ?] ?]. split; [|done]. split; try done.
  eapply list_ok_sub; [exact Hl|done|simpl; lia].
Qed.

(** The lifetime and the reauthentication time of a new entry. *)
Definition new_expiration (now : Z) s : Z := u64 (now + dot11RSNAConfigPMKLifetime s).

Lemma add_ok ok now k i kck a spa ctx akm c s :
  cache_ok s →
  ∃ r s', pmksa_cache_add hmac ok now k i kck a spa ctx akm c s = Ret (r, s') ∧
    cache_ok s' ∧ own_settings s' = own_settings s ∧
    match r with
    | None => s' = s
    | Some id => ∃ e, expiration e = new_expiration now s ∧ aa e = a ∧ added e (pmksa s) (pmksa s') ∧
        (∀ p, i = Some p → pmkid e = p) ∧ found_at id (pmksa s') a k (pmkid e) ∧
        (next_id s <= next_id s')%nat
    end.
Proof.
  intros Hok. unfold pmksa_cache_add.
  case_bool_decide as Hk; [by exists None, s|].
  destruct (_ && _); [by exists None, s|]. destruct ok; [|by exists None, s]. change (negb true) with false. cbv iota zeta.
  assert (Hid : ∃ p, match i with
     | Some p => Ret p
     | None => access (if bool_decide (akm = WPA_KEY_MGMT_IEEE8021X_SUITE_B_192)
         then rsn_pmkid_suite_b hmac SHA384 (default [] kck) a spa
         else if wpa_key_mgmt_suite_b akm then rsn_pmkid_suite_b hmac SHA256 (default [] kck) a spa
         else rsn_pmkid hmac k a spa akm) end = Ret p ∧ (∀ p', i = Some p' → p = p')).
  { destruct i as [p|]; [exists p; split; [done|congruence]|].
    destruct (bool_decide _);
      [destruct (suite_b_pmkid SHA384 (default [] kck) a spa) as [p ->]; by exists p|].
    destruct (wpa_key_mgmt_suite_b akm);
      [destruct (suite_b_pmkid SHA256 (default [] kck) a spa) as [p ->]; by exists p|].
    destruct (rsn_pmkid_some k a spa akm) as [p ->]. by exists p. }
  destruct Hid as (p & -> & Hp). rewrite ret_bind.
  set (e := mk_entry _ _ _ _ _ _ _ _ _ _ _). clear kck Hhmac.
  destruct (add_entry_ok now e (s <| next_id ::= S |>)) as (id & s' & -> & Hok' & Ha & Hf & Es).
  - by apply next_ok.
  - split; simpl; lia.
  - by apply (fresh_id s).
  - rewrite ret_bind. exists (Some id), s'. split_and!; [done|done|by apply settings_own in Es|].
    exists e. split_and!; try done. apply settings_next in Es. rewrite Es. simpl. lia.
Qed.

(** ** Opportunistic entries *)
Lemma ids_map f l : (∀ e, e_id (f e) = e_id e) → ids (map f l) = ids l.
Proof. intros Hf. induction l; simpl; [done|]. f_equal; [apply Hf|done]. Qed.

Lemma update_entry_ok id f s :
  (∀ e, e_id (f e) = e_id e ∧ aa (f e) = aa e ∧ pmk (f e) = pmk e ∧ pmkid (f e) = pmkid e) →
  cache_ok s → cache_ok (update_entry id f s).
Proof.
  intros Hf [[[Hi Ha He] Hc Hm Hin Ht] Hlo]. rewrite allocated_linked in * by done.
  set (g := λ e, if bool_decide (e_id e = id) then f e else e).
  assert (Hg : ∀ e, e_id (g e) = e_id e ∧ aa (g e) = aa e ∧ pmk (g e) = pmk e).
  { intros e. subst g. simpl. case_bool_decide; [|done]. by destruct (Hf e) as (?&?&?&?). }
  assert (Hi' : ids (map g (pmksa s)) = ids (pmksa s)) by (apply ids_map, Hg).
  assert (Ha' : aa <$> map g (pmksa s) = aa <$> pmksa s).
  { generalize (pmksa s). intros l. induction l as [|x l IH]; simpl; [done|].
    f_equal; [apply Hg|done]. }
  split; [|done]. split; rewrite ?allocated_linked by done; simpl; fold g.
  - split; [by rewrite Hi'|by rewrite Ha'|]. apply Forall_map. eapply Forall_impl; [exact He|].
    intros e [? ?]. unfold entry_ok. simpl. by destruct (Hg e) as (-> & _ & ->).
  - by rewrite length_map.
  - by rewrite length_map.
  - intros x. rewrite Hi'. apply Hin.
  - intros Hne. apply Ht. by intros E; rewrite E in Hne.
Qed.

Lemma clone_ok ok now old a s :
  cache_ok s →
  ∃ r s', pmksa_cache_clone_entry hmac ok now old a s = Ret (r, s') ∧ cache_ok s' ∧
    own_settings s' = own_settings s ∧
    (∀ id, r = Some id → ∃ i, found_at id (pmksa s') a (pmk old) i).
Proof.
  intros Hok. unfold pmksa_cache_clone_entry. cbv zeta.
  destruct (add_ok ok now (pmk old) (if wpa_key_mgmt_sae (akmp old) || wpa_key_mgmt_fils (akmp old)
    then Some (pmkid old) else None) None a (own_addr s) (network_ctx old) (akmp old)
    (fils_cache_id old) s Hok) as (r & s1 & -> & Hok1 & Es & Hr).
  rewrite ret_bind. destruct r as [id|]; [|by exists None, s1].
  destruct Hr as (e & _ & _ & _ & _ & (x & Hx & E1 & E2 & E3 & E4) & _).
  eexists _, _. split; [done|]. split_and!; [by apply update_entry_ok|done|].
  intros ? [= <-]. exists (pmkid x). eexists. split_and!.
  - simpl. apply list_elem_of_fmap. exists x. by split.
  - simpl. by case_bool_decide.
  - by case_bool_decide.
  - by case_bool_decide.
  - by case_bool_decide.
Qed.

Lemma opportunistic_ok ok now ctx a akm s :
  cache_ok s →
  ∃ r s', pmksa_cache_get_opportunistic hmac ok now ctx a akm s = Ret (r, s') ∧ cache_ok s' ∧
    own_settings s' = own_settings s ∧
    (∀ id, r = Some id → ∃ k i, found_at id (pmksa s') a k i).
Proof.
  intros Hok. unfold pmksa_cache_get_opportunistic.
  destruct ctx as [ctx|]; [|by exists None, s]. destruct (List.find _ _) as [e|]; [|by exists None, s].
  destruct (clone_ok ok now e a s Hok) as (r & s' & -> & ? & ? & Hr). exists r, s'.
  split_and!; try done. intros id E. destruct (Hr id E) as [i ?]. by eexists _, _.
Qed.

(** ** The current entry *)
Lemma set_cur_ok s cur :
  cache_ok s → (∀ id, cur = Some id → id ∈ ids (pmksa s)) → cache_ok (s <| cur_pmksa := cur |>).
Proof.
  intros [[Hl Hc Hm _ Ht] Hlo] Hcur. split; [|done].
  split; rewrite ?allocated_linked in * by done; try done.
  eapply list_ok_sub; [exact Hl|done|simpl; lia].
Qed.

Lemma deref_entry s id e :
  cache_ok s → e ∈ pmksa s → e_id e = id → deref s id = Some e.
Proof.
  intros [[[Hi _ _] _ _ _ _] Hlo] He <-. unfold deref. rewrite allocated_linked in * by done.
  revert He Hi. generalize (pmksa s). intros l. induction l as [|x l IH]; simpl.
  - intros H. by apply elem_of_nil in H.
  - intros Hin [Hn Hd]%NoDup_cons. case_bool_decide as E.
    + apply elem_of_cons in Hin as [->|Hin]; [done|]. destruct Hn.
      apply list_elem_of_fmap. by exists e.
    + apply elem_of_cons in Hin as [->|Hin]; [done|]. by apply IH.
Qed.

Section choice.
Context (pmkid' bssid' cache_id : option (list Z)).

(** Why an entry may be the current one. *)
Definition chosen e : Prop :=
  pmkid' = Some (pmkid e) ∨ bssid' = Some (aa e) ∨
  (is_Some cache_id ∧ fils_cache_id e = cache_id).

Definition choice_ok s (cur : option nat) : Prop :=
  ∀ id, cur = Some id → ∃ e, e ∈ pmksa s ∧ e_id e = id ∧ chosen e.

Lemma choice_ids s cur : choice_ok s cur → ∀ id, cur = Some id → id ∈ ids (pmksa s).
Proof. intros H id E. destruct (H id E) as (e & ? & <- & _). by apply list_elem_of_fmap_2. Qed.

Lemma get_choice s a p ctx akm :
  (∀ e, matches a p ctx akm e = true → chosen e) →
  choice_ok s (e_id <$> pmksa_cache_get s a p ctx akm).
Proof.
  intros Hm id (e & E & He)%fmap_Some. unfold pmksa_cache_get in E.
  apply List.find_some in E as [Hin Hmt]. exists e.
  split_and!; [by apply list_elem_of_In|done|by apply Hm].
Qed.

Lemma set_current_finish now s :
  cache_ok s → choice_ok s (cur_pmksa s) →
  ∃ r s', (match cur_pmksa s with
    | None => Ret (-1, s)
    | Some id =>
        e ← access (deref s id);
        if wpa_key_mgmt_sae (akmp e) && bool_decide (reauth_time e < now)
        then Ret (-1, s <| cur_pmksa := None |>)
        else Ret (0, s)
    end) = Ret (r, s') ∧ cache_ok s' ∧ own_settings s' = own_settings s ∧
    (r = 0 ∧ (∃ e, e ∈ pmksa s' ∧ cur_pmksa s' = Some (e_id e) ∧ chosen e ∧
                   (wpa_key_mgmt_sae (akmp e) = true → now ≤ reauth_time e)) ∨
     r = -1 ∧ cur_pmksa s' = None).
Proof.
  intros Hok Hch. destruct (cur_pmksa s) as [id|] eqn:Ec.
  - destruct (Hch id eq_refl) as (e & Hin & Hid & He). rewrite (deref_entry s id e) by done.
    rewrite access_bind. destruct (_ && _) eqn:Es.
    + eexists _, _. split; [done|]. split_and!; [by apply set_cur_ok|done|by right].
    + eexists _, _. split; [done|]. split_and!; [done|done|]. left. split; [done|].
      exists e. split_and!; [done|congruence|done|]. intros Hsae. rewrite Hsae in Es.
      apply bool_decide_eq_false_1 in Es. lia.
  - eexists _, _. split; [done|]. split_and!; [done|done|by right].
Qed.
End choice.

Lemma matches_pmkid p ctx akm e : matches None (Some p) ctx akm e = true → pmkid e = p.
Proof. unfold matches. rewrite !andb_true_iff, bool_decide_eq_true. naive_solver. Qed.
Lemma matches_aa a ctx akm e : matches (Some a) None ctx akm e = true → aa e = a.
Proof. unfold matches. rewrite !andb_true_iff, bool_decide_eq_true. naive_solver. Qed.

Lemma set_current_ok ok now i b ctx okc c akm s :
  cache_ok s →
  ∃ r s', pmksa_cache_set_current hmac ok now i b ctx okc c akm s = Ret (r, s') ∧ cache_ok s' ∧
    own_settings s' = own_settings s ∧
    (r = 0 ∧ (∃ e, e ∈ pmksa s' ∧ cur_pmksa s' = Some (e_id e) ∧ chosen i b c e ∧
                   (wpa_key_mgmt_sae (akmp e) = true → now ≤ reauth_time e)) ∨
     r = -1 ∧ cur_pmksa s' = None).
Proof.
  intros Hok. unfold pmksa_cache_set_current. cbv zeta.
  set (cur1 := match i with Some _ => _ | None => None end).
  assert (H1 : choice_ok i b c s cur1).
  { subst cur1. destruct i as [i|]; [|done]. apply get_choice.
    intros e E%matches_pmkid. left. congruence. }
  clearbody cur1.
  set (cur2 := match cur1, b with None, Some _ => _ | _, _ => cur1 end).
  assert (H2 : choice_ok i b c s cur2).
  { subst cur2. destruct cur1 as [id|]; [done|]. destruct b as [b|]; [|done].
    apply get_choice. intros e E%matches_aa. right. left. congruence. }
  clearbody cur2. set (s1 := s <| cur_pmksa := cur2 |>).
  assert (Hs1 : cache_ok s1) by (apply set_cur_ok; [done|by eapply choice_ids]).
  assert (Hs2 : ∃ s2, (match cur2, b with
      | None, Some b => if okc then
          '(r, s) ← pmksa_cache_get_opportunistic hmac ok now ctx b akm s1;
          Ret (s <| cur_pmksa := r |>) else Ret s1
      | _, _ => Ret s1 end) = Ret s2 ∧ cache_ok s2 ∧ own_settings s2 = own_settings s ∧
      choice_ok i b c s2 (cur_pmksa s2)).
  { destruct cur2 as [id|]; [by exists s1|]. destruct b as [b|]; [|by exists s1].
    destruct okc; [|by exists s1].
    destruct (opportunistic_ok ok now ctx b akm s1 Hs1) as (r & s2 & -> & Hs2 & Es & Hr).
    rewrite ret_bind.
    assert (Hch : choice_ok i (Some b) c s2 r).
    { intros id E. destruct (Hr id E) as (k & p & x & ? & ? & <- & _). exists x.
      split_and!; [done|done|right; by left]. }
    eexists. split; [done|]. split_and!; [|done|done].
    apply set_cur_ok; [done|by eapply choice_ids]. }
  destruct Hs2 as (s2 & -> & Hs2 & Es2 & Hch2). rewrite ret_bind. rewrite <- Es2.
  set (s3 := match cur_pmksa s2, c with None, Some c => _ | _, _ => s2 end).
  assert (Hs3 : cache_ok s3 ∧ choice_ok i b c s3 (cur_pmksa s3) ∧
                own_settings s3 = own_settings s2).
  { subst s3. destruct (cur_pmksa s2) as [id|] eqn:Ec; [by rewrite Ec|].
    destruct c as [c|]; [|by rewrite Ec].
    assert (Hch : choice_ok i b (Some c) s2 (e_id <$> pmksa_cache_get_fils_cache_id s2 ctx c)).
    { intros id (e & E & He)%fmap_Some. unfold pmksa_cache_get_fils_cache_id in E.
      apply List.find_some in E as [Hin [_ Hc]%andb_true_iff]. exists e.
      apply bool_decide_eq_true_1 in Hc.
      split_and!; [by apply list_elem_of_In|done|]. right. by right. }
    split_and!; [|done|done]. apply set_cur_ok; [done|by eapply choice_ids]. }
  clearbody s3. destruct Hs3 as (Hs3 & Hch3 & <-). by apply set_current_finish.
Qed.

(** ** All operations *)
Lemma cache_ok_same s s' :
  (pmksa s', pmksa_count s', loose s', cur_pmksa s', expire_timer s', next_id s') =
  (pmksa s, pmksa_count s, loose s, cur_pmksa s, expire_timer s, next_id s) →
  cache_ok s → cache_ok s'.
Proof.
  intros [= E1 E2 E3 E4 E5 E6] [[Hl ? ? ? ?] ?]. split; [|congruence]. unfold allocated in *.
  split; unfold allocated; rewrite ?E1, ?E2, ?E3, ?E4, ?E5; try done.
  eapply list_ok_sub; [exact Hl|done|lia].
Qed.

(** The PMK of an entry is in an array of [PMK_LEN_MAX] octets. *)
Definition op_fits (o : pmksa_op) : Prop :=
  match o with OpAddEntry e => blen (pmk e) ≤ PMK_LEN_MAX | _ => True end.

Lemma new_entry_ok now e s :
  cache_ok s → blen (pmk e) ≤ PMK_LEN_MAX →
  ∃ id s', pmksa_cache_add_entry now (e <| e_id := next_id s |>) (s <| next_id ::= S |>) =
             Ret (id, s') ∧ cache_ok s' ∧ own_settings s' = own_settings s ∧
           added (e <| e_id := next_id s |>) (pmksa s) (pmksa s').
Proof.
  intros Hok He.
  destruct (add_entry_ok now (e <| e_id := next_id s |>) (s <| next_id ::= S |>))
    as (id & s' & -> & Hok' & Ha & _ & Es).
  - by apply next_ok.
  - split; simpl; [lia|done].
  - by apply (fresh_id s).
  - exists id, s'. split_and!; [done|done| |done]. by apply settings_own in Es.
Qed.

Lemma reconfig_same now l s s' : reconfig_loop now l s = Ret s' → ∃ c, s' = s <| calls := c |>.
Proof.
  revert s. induction l as [|e l IH]; intros s; simpl; [intros [= <-]; exists (calls s); by destruct s|].
  destruct (_ || _); [apply IH|]. case_bool_decide; [done|]. case_bool_decide; [apply IH|].
  intros [c ->]%IH. by exists c.
Qed.

Lemma do_ok s o :
  cache_ok s → op_fits (snd o) →
  (snd o = OpReconfig → ∃ s', pmksa_cache_reconfig (fst o) s = Ret s') →
  ∃ s', pmksa_do hmac s o = Ret s' ∧ cache_ok s' ∧
        dot11RSNAConfigPMKLifetime s' = dot11RSNAConfigPMKLifetime s.
Proof.
  assert (Hlife : ∀ x y, own_settings x = own_settings y →
    dot11RSNAConfigPMKLifetime x = dot11RSNAConfigPMKLifetime y) by (by intros x y [=]).
  intros Hok Hfit Hre. destruct o as [now o]. unfold pmksa_do.
  destruct o; cbn [fst snd op_fits] in *; cbv zeta.
  - destruct (expire_ok now s Hok) as (s' & -> & ? & _ & E%settings_own). exists s'. auto.
  - eexists. split; [done|]. split; [|done]. apply (cache_ok_same (s <| cur_pmksa := None |>)); [done|].
    by apply (set_cur_ok s None).
  - destruct (add_ok ok now pmk' pmkid' kck aa' spa ctx akm cache_id s Hok)
      as (r & s' & -> & ? & ? & _). exists s'. auto.
  - destruct (new_entry_ok now e s Hok Hfit) as (id & s' & -> & ? & ? & _). exists s'. auto.
  - destruct (Hre eq_refl) as [s' E]. rewrite E. exists s'. split; [done|].
    apply reconfig_same in E as [c ->]. split; [by apply (cache_ok_same s)|done].
  - destruct Hok as [Hs Hlo].
    destruct (flush_ok now ctx pmk' ext s Hs) as (s' & -> & ? & _ & E).
    exists s'. split; [done|]. split; [split; [done|by injection E as ->]|].
    by apply Hlife, settings_own.
  - destruct (opportunistic_ok ok now ctx aa' akm s Hok) as (r & s' & -> & ? & ? & _).
    exists s'. auto.
  - destruct (set_current_ok ok now pmkid' bssid' ctx okc cache_id akm s Hok)
      as (r & s' & -> & ? & ? & _). exists s'. auto.
  - eexists. split; [done|]. split; [|done]. by apply (set_cur_ok s None).
  - eexists. split; [done|]. split; [|done]. by apply (cache_ok_same s).
  - eexists. split; [done|]. split; [|done]. by apply (cache_ok_same s).
Qed.

(** ** Times

    [pmksa_cache_reconfig] divides by the lifetime that is left, an [os_time_t] that was
    cut to 32 bits, so that times must be small for it. *)
Definition in_time e : Prop := 0 ≤ expiration e < 2 ^ 32.

Record timely s : Prop := {
  tm_entries : Forall in_time (pmksa s);
  tm_life : 0 ≤ dot11RSNAConfigPMKLifetime s < 2 ^ 31;
}.

Definition op_timely (o : Z * pmksa_op) : Prop :=
  0 ≤ fst o < 2 ^ 31 ∧ op_fits (snd o) ∧
  match snd o with OpAddEntry e => in_time e | _ => True end.

Lemma reconfig_returns now l s :
  0 ≤ now < 2 ^ 31 → Forall in_time l → ∃ s', reconfig_loop now l s = Ret s'.
Proof.
  intros Hn Hl. revert s. induction Hl as [|e l He Hl IH]; intros s; simpl; [by eexists|].
  destruct (bool_decide (u64 (expiration e - now) < 1) || _) eqn:Ex; [apply IH|].
  apply orb_false_iff in Ex as [Ex%bool_decide_eq_false_1 _].
  rewrite bool_decide_eq_false_2; [case_bool_decide; apply IH|].
  unfold in_time, wrap in *. Z.div_mod_to_equations. lia.
Qed.

Lemma Forall_sub {A} (P : A → Prop) l l' : Forall P l → l' `sublist_of` l → Forall P l'.
Proof.
  rewrite !Forall_forall. intros Hl Hs x Hx. apply Hl. by eapply elem_of_sublist.
Qed.

Lemma timely_added e s s' :
  timely s → in_time e → added e (pmksa s) (pmksa s') →
  dot11RSNAConfigPMKLifetime s' = dot11RSNAConfigPMKLifetime s → timely s'.
Proof.
  intros [Hl Hb] He Ha E. split; [|lia]. destruct Ha as [->|(l0 & Hs & ->)]; [done|].
  rewrite insert_perm. constructor; [done|]. by eapply Forall_sub.
Qed.

Lemma timely_sub s s' :
  timely s → pmksa s' `sublist_of` pmksa s →
  dot11RSNAConfigPMKLifetime s' = dot11RSNAConfigPMKLifetime s → timely s'.
Proof. intros [Hl Hb] Hs E. split; [by eapply Forall_sub|lia]. Qed.

Lemma add_timely ok now k i kck a spa ctx akm c s r s' :
  cache_ok s → timely s → 0 ≤ now < 2 ^ 31 →
  pmksa_cache_add hmac ok now k i kck a spa ctx akm c s = Ret (r, s') → timely s'.
Proof.
  intros Hok Ht Hn E.
  destruct (add_ok ok now k i kck a spa ctx akm c s Hok) as (r' & s1 & E1 & _ & [= _ _ El _] & Hr).
  rewrite E1 in E. injection E as -> ->. destruct r as [id|]; [|by subst].
  destruct Hr as (e & Ee & _ & Ha & _). apply (timely_added e s); [done| |done|done].
  unfold in_time. rewrite Ee. destruct Ht as [_ Hl]. unfold new_expiration, wrap.
  Z.div_mod_to_equations. lia.
Qed.

Lemma opportunistic_timely ok now ctx a akm s r s' :
  cache_ok s → timely s → 0 ≤ now < 2 ^ 31 →
  pmksa_cache_get_opportunistic hmac ok now ctx a akm s = Ret (r, s') → timely s'.
Proof.
  intros Hok Ht Hn. unfold pmksa_cache_get_opportunistic.
  destruct ctx as [ctx|]; [|by intros [= _ <-]].
  destruct (List.find _ _) as [old|] eqn:Ef; [|by intros [= _ <-]].
  apply List.find_some in Ef as [Hin%list_elem_of_In _].
  assert (Hold : in_time old) by (destruct Ht as [Hl _]; rewrite Forall_forall in Hl; auto).
  unfold pmksa_cache_clone_entry. cbv zeta.
  destruct (pmksa_cache_add _ _ _ _ _ _ _ _ _ _ _ _) as [[r1 s1]| |] eqn:Ea; [|done..].
  rewrite ret_bind. apply add_timely in Ea as [Hl Hb]; [|done..].
  destruct r1 as [id|]; intros [= _ <-]; split; try done.
  simpl. apply Forall_map. eapply Forall_impl; [exact Hl|]. intros e He. simpl.
  by case_bool_decide.
Qed.

Lemma set_current_timely ok now i b ctx okc c akm s r s' :
  cache_ok s → timely s → 0 ≤ now < 2 ^ 31 →
  pmksa_cache_set_current hmac ok now i b ctx okc c akm s = Ret (r, s') → timely s'.
Proof.
  intros Hok Ht Hn. unfold pmksa_cache_set_current. cbv zeta.
  match goal with |- context [s <| cur_pmksa := ?c |>] => set (cur := c) end.
  assert (Hin : ∀ id, cur = Some id → id ∈ ids (pmksa s)).
  { assert (Hget : ∀ x y, ∀ id, e_id <$> pmksa_cache_get s x y ctx akm = Some id → id ∈ ids (pmksa s)).
    { intros x y id (e & He & ->)%fmap_Some. apply List.find_some in He as [He _].
      by apply list_elem_of_fmap_2, list_elem_of_In. }
    subst cur. destruct i as [i|]; [destruct (pmksa_cache_get s None (Some i) ctx akm) eqn:E|].
    - intros id. simpl. intros [= <-]. apply (Hget None (Some i)). by rewrite E.
    - destruct b; [apply Hget|done].
    - destruct b; [apply Hget|done]. }
  clearbody cur. set (s1 := s <| cur_pmksa := cur |>).
  assert (Hok1 : cache_ok s1) by (by apply set_cur_ok).
  assert (Ht1 : timely s1) by (by destruct Ht).
  destruct (match cur, b with None, Some _ => _ | _, _ => _ end) as [s2| |] eqn:E2; [|done..].
  assert (Ht2 : timely s2).
  { destruct cur; [by injection E2 as <-|]. destruct b; [|by injection E2 as <-].
    destruct okc; [|by injection E2 as <-].
    destruct (pmksa_cache_get_opportunistic _ _ _ _ _ _ _) as [[r3 s3]| |] eqn:E3; [|done..].
    rewrite ret_bind in E2. injection E2 as <-.
    apply opportunistic_timely in E3 as [? ?]; [|done..]. by split. }
  rewrite ret_bind. clear E2.
  assert (Hfin : ∀ x, timely x → (match cur_pmksa x with
    | Some id => e ← access (deref x id);
        if wpa_key_mgmt_sae (akmp e) && bool_decide (reauth_time e < now)
        then Ret (-1, x <| cur_pmksa := None |>) else Ret (0, x)
    | None => Ret (-1, x) end) = Ret (r, s') → timely s').
  { intros x [? ?]. destruct (cur_pmksa x) as [id|]; [|by intros [= _ <-]].
    destruct (deref x id) as [e|]; [|done]. rewrite access_bind.
    by destruct (_ && _); intros [= _ <-]. }
  apply Hfin. destruct Ht2 as [? ?]. destruct (cur_pmksa s2); [by split|]. by destruct c.
Qed.

Lemma do_timely s o s' :
  cache_ok s → timely s → op_timely o → pmksa_do hmac s o = Ret s' → timely s'.
Proof.
  intros Hok Ht (Hn & Hfit & He). destruct o as [now o]. unfold pmksa_do.
  destruct o; cbn [fst snd op_fits] in *; cbv zeta.
  - destruct (expire_ok now s Hok) as (s1 & -> & _ & El & [= _ _ Es _]%settings_own).
    intros [= <-]. apply (timely_sub s); [done| |done]. rewrite El.
    by destruct (expire_loop_removal now (pmksa s) s).
  - intros [= <-]. by destruct Ht.
  - destruct (pmksa_cache_add _ _ _ _ _ _ _ _ _ _ _ _) as [[r1 s1]| |] eqn:E; [|done..].
    rewrite ret_bind. intros [= <-]. by eapply add_timely.
  - destruct (new_entry_ok now e s Hok Hfit) as (id & s1 & -> & _ & [= _ _ Es _] & Ha).
    rewrite ret_bind. intros [= <-]. by refine (timely_added _ s s1 Ht _ Ha Es); exact He.
  - intros [c ->]%reconfig_same. by destruct Ht.
  - destruct Hok as [Hs _].
    destruct (flush_ok now ctx pmk' ext s Hs) as (s1 & -> & _ & El%filter_sublist_of & [= _ _ Es _]%settings_own).
    intros [= <-]. by apply (timely_sub s).
  - destruct (pmksa_cache_get_opportunistic _ _ _ _ _ _ _) as [[r1 s1]| |] eqn:E; [|done..].
    rewrite ret_bind. intros [= <-]. by eapply opportunistic_timely.
  - destruct (pmksa_cache_set_current _ _ _ _ _ _ _ _ _ _) as [[r1 s1]| |] eqn:E; [|done..].
    rewrite ret_bind. intros [= <-]. by eapply set_current_timely.
  - intros [= <-]. by destruct Ht.
  - intros [= <-]. by destruct Ht.
  - intros [= <-]. by destruct Ht.
Qed.

Lemma run_ok os s :
  cache_ok s → timely s → Forall op_timely os →
  ∃ s', pmksa_run hmac s os = Ret s' ∧ cache_ok s'.
Proof.
  intros Hok Ht Hos. revert s Hok Ht.
  induction Hos as [|o os Ho Hos IH]; intros s Hok Ht; simpl; [by exists s|].
  destruct (do_ok s o Hok) as (s1 & E & Hok1 & _); [by destruct Ho as (_ & ? & _)| |].
  { intros _. apply reconfig_returns; [exact (proj1 Ho)|by destruct Ht]. }
  rewrite E, ret_bind. apply IH; [done|]. exact (do_timely s o s1 Hok Ht Ho E).
Qed.

Lemma init_ok b own life thr : cache_ok (pmksa_cache_init b own life thr).
Proof. split; [|done]. split; try done. split; constructor. Qed.











(** ** Lookup *)
Lemma get_by_aa s e : cache_ok s → e ∈ pmksa s → pmksa_cache_get s (Some (aa e)) None None 0 = Some e.
Proof.
  intros [[[_ Ha _] _ _ _ _] Hlo] He. unfold pmksa_cache_get.
  rewrite allocated_linked in * by done. revert He Ha. generalize (pmksa s). intros l.
  induction l as [|x l IH]; simpl; [intros H; by apply elem_of_nil in H|].
  intros Hin [Hn Hd]%NoDup_cons. unfold matches at 1. case_bool_decide as E; simpl.
  - apply elem_of_cons in Hin as [->|Hin]; [done|]. destruct Hn. rewrite E.
    by apply list_elem_of_fmap_2.
  - apply elem_of_cons in Hin as [->|Hin]; [done|]. by apply IH.
Qed.

(** C26: whatever operations are run, in any order, the cache never follows a pointer to a
    freed entry, divides by zero or reads outside a hash, also when allocations or hash
    functions fail; its count is right and at most 32, there is one entry per
    authenticator, the current entry is in the cache, and while there is an entry an expiry
    check is scheduled (registering a timeout succeeds in the model).  The times are below
    2^31 seconds, the configured lifetime below 2^31 and expiration times of entries from
    elsewhere below 2^32, their PMKs fit into their arrays, and so do hashes. *)
Theorem pmksa_run_safe b own life thr os :
  0 ≤ life < 2 ^ 31 → Forall op_timely os →
  ∃ s, pmksa_run hmac (pmksa_cache_init b own life thr) os = Ret s ∧ cache_ok s.
Proof. intros Hl Hos. apply run_ok; [apply init_ok|by split|done]. Qed.


(** C29: after an entry was added for an access point to a well-formed cache, a search by its
    address finds an entry with that PMK and, if one was given, that PMKID; entries of other
    access points are old ones.  Hash functions may fail: their array only has its size. *)
Theorem pmksa_add_then_get ok now k i kck a spa ctx akm c s id s' :
  cache_ok s → pmksa_cache_add hmac ok now k i kck a spa ctx akm c s = Ret (Some id, s') →
  (∃ e, pmksa_cache_get s' (Some a) None None 0 = Some e ∧ e_id e = id ∧ pmk e = k ∧
        (∀ p, i = Some p → pmkid e = p)) ∧
  (∀ x, x ∈ pmksa s' → aa x ≠ a → x ∈ pmksa s).
Proof.
  intros Hok Ea. destruct (add_ok ok now k i kck a spa ctx akm c s Hok)
    as (r & s1 & E & Hok' & _ & Hr). rewrite E in Ea. simplify_eq.
  destruct Hr as (e & _ & Ea & Had & Hp & (x & Hx & E1 & E2 & E3 & E4) & _). split.
  - exists x. rewrite <- E2. split_and!; [by apply get_by_aa|done|done|].
    intros p Hi. rewrite E4. by apply Hp.
  - intros y Hy Hne. destruct Had as [Hl|(l0 & Hs & Hl)]; [by rewrite Hl in Hy|].
    rewrite Hl, insert_perm in Hy. apply elem_of_cons in Hy as [->|Hy]; [done|].
    by eapply elem_of_sublist.
Qed.

(** C28: in a well-formed cache, selecting the current entry succeeds exactly when it leaves
    one selected, also when hash functions or allocations fail; it is then in the cache, has
    the requested PMKID, access point or FILS Cache Identifier, and is not an SAE entry past
    its reauthentication time. *)
Theorem pmksa_set_current_sound ok now i b ctx okc c akm s :
  cache_ok s →
  ∃ r s', pmksa_cache_set_current hmac ok now i b ctx okc c akm s = Ret (r, s') ∧
    (r = 0 ∧ (∃ e, e ∈ pmksa s' ∧ cur_pmksa s' = Some (e_id e) ∧ chosen i b c e ∧
                   (wpa_key_mgmt_sae (akmp e) = true → now ≤ reauth_time e)) ∨
     r = -1 ∧ cur_pmksa s' = None).
Proof.
  intros Hok. destruct (set_current_ok ok now i b ctx okc c akm s Hok) as (r & s' & ? & _ & _ & ?).
  by exists r, s'.
Qed.

Lemma flush_matches_iff ctx p ext e :
  flush_matches ctx p ext e = true ↔
  (network_ctx e = ctx ∨ ctx = None) ∧ (∀ k, p = Some k → pmk e = k) ∧
  (ext = true → external e = true).
Proof.
  unfold flush_matches. rewrite !andb_true_iff, !orb_true_iff.
  rewrite (bool_decide_eq_true (network_ctx e = ctx)), (bool_decide_eq_true (ctx = None)).
  assert (Hp : match p with Some k => bool_decide (k = pmk e) | None => true end = true ↔
               (∀ k, p = Some k → pmk e = k)).
  { destruct p; [rewrite bool_decide_eq_true|]; naive_solver. }
  rewrite Hp. destruct ext, (external e); simpl; naive_solver.
Qed.

(** C8: from a well-formed cache [pmksa_cache_flush] returns, leaves a well-formed cache, and
    removes exactly the entries of the network (of every network when none is given), with
    the given PMK if there is one, and only those that external applications configured if
    only they are asked for.  It does not depend on what HMAC or the timers answer. *)
Theorem pmksa_flush_exact now ctx p ext s :
  cache_ok s →
  ∃ s', pmksa_cache_flush now ctx p ext s = Ret s' ∧ cache_ok s' ∧
    ∀ e, e ∈ pmksa s' ↔ e ∈ pmksa s ∧
      ¬ ((network_ctx e = ctx ∨ ctx = None) ∧ (∀ k, p = Some k → pmk e = k) ∧
         (ext = true → external e = true)).
Proof.
  clear Hhmac. intros [Hs Hlo].
  destruct (flush_ok now ctx p ext s Hs) as (s' & -> & ? & El & E).
  exists s'. split; [done|]. split; [split; [done|by injection E as ->]|].
  intros e. rewrite El, list_elem_of_filter, <- flush_matches_iff.
  destruct (flush_matches ctx p ext e); naive_solver.
Qed.
End proofs.

(** ** Concrete runs *)
Module Example_cache.
(** With an empty key the hash function fails and leaves what the array held. *)
Definition hmac (_ : hash_alg) (k d : list Z) : bool * list Z :=
  (bool_decide (k ≠ []), replicate 48 (blen k)).
Lemma hmac_ok alg k d : PMKID_LEN ≤ blen (snd (hmac alg k d)).
Proof. done. Qed.
Definition ap (n : Z) : list Z := replicate 6 n.
Definition key (n : Z) : list Z := replicate 32 n.
Definition add (k a ctx : Z) : pmksa_op :=
  OpAdd true (key k) None None (ap a) (ap 0) (Some ctx) WPA_KEY_MGMT_IEEE8021X None.
(** Lifetime 100 seconds. *)
Definition start : pmksa_sm := pmksa_cache_init (ap 9) (ap 0) 100 70.
(** Two networks, then the first key is shared with another access point. *)
Definition ops : list (Z * pmksa_op) := [(100, add 1 1 1); (150, add 2 2 2)].
Definition okc : Z * pmksa_op := (160, OpOpportunistic true (Some 1) (ap 3) 0).
Definition two : pmksa_sm :=
  match pmksa_run hmac start ops with Ret s => s | _ => start end.
Lemma two_run : pmksa_run hmac start ops = Ret two.
Proof. vm_compute. reflexivity. Qed.
Lemma two_ok : cache_ok two.
Proof.
  destruct (run_ok hmac hmac_ok ops start (init_ok _ _ _ _)) as (s & E & Hs).
  { by split. }
  { repeat constructor; by vm_compute. }
  rewrite two_run in E. assert (two = s) as -> by congruence. done.
Qed.
Definition third : pmksa_sm :=
  match pmksa_run hmac two [(170, add 3 3 1)] with Ret s => s | _ => start end.
Lemma third_run :
  pmksa_cache_add hmac true 170 (key 3) None None (ap 3) (ap 0) (Some 1)
    WPA_KEY_MGMT_IEEE8021X None two = Ret (Some 2%nat, third).
Proof. vm_compute. reflexivity. Qed.
End Example_cache.
Import Example_cache.

(** With an entry from an external application, and a driver restart. *)
Definition more_ops : list (Z * pmksa_op) :=
  [(170, OpAddEntry (mk_entry 0 (replicate 16 7) [] 900 0 (ap 4) None 800 (Some 1) false true));
   (180, add 0 5 1); okc; (200, OpReconfig); (220, OpExpire)].

Example pmksa_run_safe_witness :
  ∃ s, pmksa_run hmac start (ops ++ more_ops) = Ret s ∧ cache_ok s.
Proof.
  apply (pmksa_run_safe hmac hmac_ok (ap 9) (ap 0) 100 70 (ops ++ more_ops)); [lia|].
  repeat constructor; by vm_compute.
Defined.


Example pmksa_add_then_get_witness :
  (∃ e, pmksa_cache_get third (Some (ap 3)) None None 0 = Some e ∧ e_id e = 2%nat ∧
        pmk e = key 3 ∧ (∀ p, None = Some p → pmkid e = p)) ∧
  (∀ x, x ∈ pmksa third → aa x ≠ ap 3 → x ∈ pmksa two).
Proof.
  exact (pmksa_add_then_get hmac hmac_ok true 170 (key 3) None None (ap 3) (ap 0) (Some 1)
    WPA_KEY_MGMT_IEEE8021X None two 2%nat third two_ok third_run).
Defined.

Example pmksa_set_current_sound_witness :
  ∃ r s', pmksa_cache_set_current hmac true 160 None (Some (ap 3)) (Some 1) true None 0 two
          = Ret (r, s') ∧
    (r = 0 ∧ (∃ e, e ∈ pmksa s' ∧ cur_pmksa s' = Some (e_id e) ∧
                   chosen None (Some (ap 3)) None e ∧
                   (wpa_key_mgmt_sae (akmp e) = true → 160 ≤ reauth_time e)) ∨
     r = -1 ∧ cur_pmksa s' = None).
Proof. apply (pmksa_set_current_sound hmac hmac_ok). apply two_ok. Defined.

Example pmksa_flush_exact_witness :
  ∃ s', pmksa_cache_flush 170 (Some 1) None false two = Ret s' ∧ cache_ok s' ∧
    ∀ e, e ∈ pmksa s' ↔ e ∈ pmksa two ∧
      ¬ ((network_ctx e = Some 1 ∨ Some 1 = None) ∧ (∀ k, None = Some k → pmk e = k) ∧
         (false = true → external e = true)).
Proof. apply (pmksa_flush_exact 170 (Some 1) None false two two_ok). Defined.

(** ** What the code does not mean to do *)

(** An entry made by opportunistic key caching is linked by the lifetime of a new entry
    and then given the old expiration time, so that the list is out of order and the
    expiry check stops before it: at second 220 the entry that expired at 200 is still
    found, and selected for the next association. *)
Theorem okc_entry_outlives_expiration :
  ∃ s e, pmksa_run hmac start (ops ++ [okc; (220, OpExpire)]) = Ret s ∧
    pmksa_cache_get s (Some (ap 3)) None None 0 = Some e ∧ expiration e = 200 ∧
    pmk e = key 1 ∧
    ∃ s', pmksa_cache_set_current hmac true 220 None (Some (ap 3)) (Some 1) false None 0 s
          = Ret (0, s') ∧ cur_pmksa s' = Some (e_id e).
Proof.
  eexists _, _. split; [vm_compute; reflexivity|]. split; [vm_compute; reflexivity|].
  split; [reflexivity|]. split; [reflexivity|].
  eexists. split; [vm_compute; reflexivity|]. reflexivity.
Qed.

(** [os_time_t] is unsigned, so [expiration - now < 1] is false for a time in the past:
    after a driver restart at second 260 an entry that expired at 200 is given to the
    driver again, with a lifetime of more than a hundred years. *)
Theorem reconfig_announces_expired :
  ∃ s, pmksa_run hmac start [(100, add 1 1 1)] = Ret s ∧
    (∃ e, pmksa s = [e] ∧ expiration e = 200) ∧
    ∃ s' l t, pmksa_cache_reconfig 260 s = Ret s' ∧ 2 ^ 31 < l ∧
      head (calls s') = Some (AddPmkid (Some 1) (ap 1) (replicate 16 32) None (key 1) l t
                                WPA_KEY_MGMT_IEEE8021X).
Proof.
  eexists. split; [vm_compute; reflexivity|].
  split; [eexists; split; reflexivity|].
  eexists _, _, _. split; [vm_compute; reflexivity|]. split; [|reflexivity]. lia.
Qed.
