(* ===== verification/WpaKey.v ===== *)
(** Keys of the 4-way handshake (src/common/wpa_common.c, src/rsn_supp/wpa_ft.c)

    Lengths of the parts of the PTK, the MIC of an EAPOL-Key frame and the key
    derivations of RSN and of the FT protocol.  The hash functions, PRFs and ciphers of
    the crypto library are the class [wpa_crypto]; [None] stands for a failure. *)
From Stdlib Require Import Ascii String.
From Stdlib Require Import List.
From S2P Require Import Prelude Bytes Defs Suites RsnIe.

Definition pairwise_key_expansion : string := "Pairwise key expansion".

Definition ETH_ALEN := 6.
Definition PMK_LEN := 32.
Definition PMK_LEN_SUITE_B_192 := 48.
Definition SHA384_MAC_LEN := 48.
Definition MD5_MAC_LEN := 16.
Definition WPA_NONCE_LEN := 32.
Definition WPA_REPLAY_COUNTER_LEN := 8.
Definition WPA_KCK_MAX_LEN := 32.
Definition WPA_KEK_MAX_LEN := 64.
Definition WPA_TK_MAX_LEN := 32.
Definition WPA_KDK_MAX_LEN := 32.
Definition WPA_PMK_NAME_LEN := 16.
Definition SSID_MAX_LEN := 32.
Definition FT_R0KH_ID_MAX_LEN := 48.
Definition MAX_Z_LEN := 66.

Definition WPA_KEY_INFO_TYPE_MASK := 7.
Definition WPA_KEY_INFO_TYPE_AKM_DEFINED := 0.
Definition WPA_KEY_INFO_TYPE_HMAC_MD5_RC4 := BIT 0.
Definition WPA_KEY_INFO_TYPE_HMAC_SHA1_AES := BIT 1.
Definition WPA_KEY_INFO_TYPE_AES_128_CMAC := 3.
Definition WPA_KEY_INFO_KEY_TYPE := BIT 3.
Definition WPA_KEY_INFO_KEY_INDEX_MASK := Z.lor (BIT 4) (BIT 5).
Definition WPA_KEY_INFO_KEY_INDEX_SHIFT := 4.
Definition WPA_KEY_INFO_INSTALL := BIT 6.
Definition WPA_KEY_INFO_TXRX := BIT 6.
Definition WPA_KEY_INFO_ACK := BIT 7.
Definition WPA_KEY_INFO_MIC := BIT 8.
Definition WPA_KEY_INFO_SECURE := BIT 9.
Definition WPA_KEY_INFO_ERROR := BIT 10.
Definition WPA_KEY_INFO_REQUEST := BIT 11.
Definition WPA_KEY_INFO_ENCR_KEY_DATA := BIT 12.
Definition WPA_KEY_INFO_SMK_MESSAGE := BIT 13.

(** ** Octets *)
Definition str (s : string) : list Z :=
  map (λ a, Z.of_N (N_of_ascii a)) (list_ascii_of_string s).
Definition zeros (n : Z) : list Z := replicate (Z.to_nat n) 0.

(** [os_memcmp] of areas of the same length: the difference of the first octets that
    differ. *)
Fixpoint os_memcmp (a b : list Z) : Z :=
  match a, b with
  | x :: a, y :: b => if bool_decide (x = y) then os_memcmp a b else x - y
  | _, _ => 0
  end.

(** [inc_byte_array] of src/utils/common.c: the loop from the last octet, on the
    reversed counter. *)
Fixpoint inc_reversed (c : list Z) : list Z :=
  match c with
  | [] => []
  | x :: c => if bool_decide (u8 (x + 1) = 0) then u8 (x + 1) :: inc_reversed c
              else u8 (x + 1) :: c
  end.
Definition inc_byte_array (counter : list Z) : list Z := reverse (inc_reversed (reverse counter)).

(** ** Lengths *)
Definition wpa_kck_len (akmp pmk_len : Z) : Z :=
  if bool_decide (akmp ∈ [WPA_KEY_MGMT_IEEE8021X_SUITE_B_192; WPA_KEY_MGMT_FT_IEEE8021X_SHA384])
  then 24
  else if bool_decide (akmp ∈ [WPA_KEY_MGMT_FILS_SHA256; WPA_KEY_MGMT_FT_FILS_SHA256;
                               WPA_KEY_MGMT_FILS_SHA384; WPA_KEY_MGMT_FT_FILS_SHA384]) then 0
  else if bool_decide (akmp ∈ [WPA_KEY_MGMT_DPP; WPA_KEY_MGMT_OWE; WPA_KEY_MGMT_SAE_EXT_KEY])
  then pmk_len / 2
  else 16.

Definition wpa_kck2_len (akmp : Z) : Z :=
  if bool_decide (akmp = WPA_KEY_MGMT_FT_FILS_SHA256) then 16
  else if bool_decide (akmp = WPA_KEY_MGMT_FT_FILS_SHA384) then 24
  else 0.

Definition wpa_kek_len (akmp pmk_len : Z) : Z :=
  if bool_decide (akmp ∈ [WPA_KEY_MGMT_FILS_SHA384; WPA_KEY_MGMT_FT_FILS_SHA384]) then 64
  else if bool_decide (akmp ∈ [WPA_KEY_MGMT_IEEE8021X_SUITE_B_192; WPA_KEY_MGMT_FILS_SHA256;
                               WPA_KEY_MGMT_FT_FILS_SHA256; WPA_KEY_MGMT_FT_IEEE8021X_SHA384])
  then 32
  else if bool_decide (akmp ∈ [WPA_KEY_MGMT_DPP; WPA_KEY_MGMT_OWE; WPA_KEY_MGMT_SAE_EXT_KEY])
  then (if bool_decide (pmk_len ≤ 32) then 16 else 32)
  else 16.

Definition wpa_kek2_len (akmp : Z) : Z :=
  if bool_decide (akmp = WPA_KEY_MGMT_FT_FILS_SHA256) then 16
  else if bool_decide (akmp = WPA_KEY_MGMT_FT_FILS_SHA384) then 32
  else 0.

Definition wpa_mic_len (akmp pmk_len : Z) : Z :=
  if bool_decide (akmp ∈ [WPA_KEY_MGMT_IEEE8021X_SUITE_B_192; WPA_KEY_MGMT_FT_IEEE8021X_SHA384])
  then 24
  else if bool_decide (akmp ∈ [WPA_KEY_MGMT_FILS_SHA256; WPA_KEY_MGMT_FILS_SHA384;
                               WPA_KEY_MGMT_FT_FILS_SHA256; WPA_KEY_MGMT_FT_FILS_SHA384]) then 0
  else if bool_decide (akmp ∈ [WPA_KEY_MGMT_DPP; WPA_KEY_MGMT_OWE; WPA_KEY_MGMT_SAE_EXT_KEY])
  then pmk_len / 2
  else 16.

Definition wpa_use_akm_defined (akmp : Z) : bool :=
  bool_decide (akmp = WPA_KEY_MGMT_OSEN) || bool_decide (akmp = WPA_KEY_MGMT_OWE) ||
  bool_decide (akmp = WPA_KEY_MGMT_DPP) || bool_decide (akmp = WPA_KEY_MGMT_FT_IEEE8021X_SHA384) ||
  wpa_key_mgmt_sae akmp || wpa_key_mgmt_suite_b akmp || wpa_key_mgmt_fils akmp.

Definition wpa_use_cmac (akmp : Z) : bool :=
  bool_decide (akmp = WPA_KEY_MGMT_OSEN) || bool_decide (akmp = WPA_KEY_MGMT_OWE) ||
  bool_decide (akmp = WPA_KEY_MGMT_DPP) || wpa_key_mgmt_ft akmp || wpa_key_mgmt_sha256 akmp ||
  wpa_key_mgmt_sae akmp || wpa_key_mgmt_suite_b akmp.

Definition wpa_use_aes_key_wrap (akmp : Z) : bool :=
  bool_decide (akmp = WPA_KEY_MGMT_OSEN) || bool_decide (akmp = WPA_KEY_MGMT_OWE) ||
  bool_decide (akmp = WPA_KEY_MGMT_DPP) || wpa_key_mgmt_ft akmp || wpa_key_mgmt_sha256 akmp ||
  wpa_key_mgmt_sae akmp || wpa_key_mgmt_suite_b akmp.

(** ** struct wpa_ptk: the arrays and the lengths in use *)
Record wpa_ptk := mk_ptk {
  kck : list Z;
  kek : list Z;
  tk : list Z;
  kck2 : list Z;
  kek2 : list Z;
  kdk : list Z;
  kck_len : Z;
  kek_len : Z;
  tk_len : Z;
  kck2_len : Z;
  kek2_len : Z;
  kdk_len : Z;
  installed : bool;
}.
#[export] Instance eta_ptk : Eta wpa_ptk := λ p,
  mk_ptk (kck p) (kek p) (tk p) (kck2 p) (kek2 p) (kdk p) (kck_len p) (kek_len p) (tk_len p)
    (kck2_len p) (kek2_len p) (kdk_len p) (installed p).

Definition ptk_zero : wpa_ptk :=
  mk_ptk (zeros WPA_KCK_MAX_LEN) (zeros WPA_KEK_MAX_LEN) (zeros WPA_TK_MAX_LEN)
    (zeros WPA_KCK_MAX_LEN) (zeros WPA_KEK_MAX_LEN) (zeros WPA_KDK_MAX_LEN) 0 0 0 0 0 0 false.

(** ** The crypto library

    [None] is a return of -1.  [hash_residue] is what a caller's array of
    [SHA384_MAC_LEN] octets holds after an HMAC failed on a key and its data: whatever was
    there before or was written. *)
Class wpa_crypto := {
  hmac_md5 : list Z → list Z → option (list Z);
  hmac_sha1 : list Z → list Z → option (list Z);
  hmac_sha256 : list Z → list Z → option (list Z);
  hmac_sha384 : list Z → list Z → option (list Z);
  hmac_sha512 : list Z → list Z → option (list Z);
  omac1_aes_128 : list Z → list Z → option (list Z);
  sha256_vector : list Z → option (list Z);
  sha384_vector : list Z → option (list Z);
  sha1_prf : list Z → string → list Z → Z → option (list Z);
  sha256_prf : list Z → string → list Z → Z → option (list Z);
  sha384_prf : list Z → string → list Z → Z → option (list Z);
  sha512_prf : list Z → string → list Z → Z → option (list Z);
  aes_unwrap : list Z → Z → list Z → option (list Z);
  rc4_skip : list Z → Z → list Z → option (list Z);
  hash_residue : list Z → list Z → list Z;
}.

(** What the library documents: the results are octets, of these lengths. *)
Definition octets_len (n : Z) (m : list Z) : Prop := blen m = n ∧ bytes_ok m.
Class wpa_crypto_laws (C : wpa_crypto) : Prop := {
  hmac_md5_len k d m : hmac_md5 k d = Some m → octets_len 16 m;
  hmac_sha1_len k d m : hmac_sha1 k d = Some m → octets_len 20 m;
  hmac_sha256_len k d m : hmac_sha256 k d = Some m → octets_len 32 m;
  hmac_sha384_len k d m : hmac_sha384 k d = Some m → octets_len 48 m;
  hmac_sha512_len k d m : hmac_sha512 k d = Some m → octets_len 64 m;
  omac1_aes_128_len k d m : omac1_aes_128 k d = Some m → octets_len 16 m;
  hash_residue_len k d : octets_len SHA384_MAC_LEN (hash_residue k d);
  sha256_vector_len d m : sha256_vector d = Some m → blen m = 32;
  sha384_vector_len d m : sha384_vector d = Some m → blen m = 48;
  sha1_prf_len k l d n m : 0 ≤ n → sha1_prf k l d n = Some m → blen m = n;
  sha256_prf_len k l d n m : 0 ≤ n → sha256_prf k l d n = Some m → blen m = n;
  sha384_prf_len k l d n m : 0 ≤ n → sha384_prf k l d n = Some m → blen m = n;
  sha512_prf_len k l d n m : 0 ≤ n → sha512_prf k l d n = Some m → blen m = n;
  aes_unwrap_len k n c m : 0 ≤ n → bytes_ok c → aes_unwrap k n c = Some m → octets_len (8 * n) m;
  rc4_skip_len k n d m : bytes_ok d → rc4_skip k n d = Some m → octets_len (blen d) m;
}.

Section keys.
Context `{C : wpa_crypto}.

(** ** The MIC

    [Ret (Some mic)] has the octets written to [mic]; [Ret None] is a return of -1. *)
Definition mac_prefix (hash : option (list Z)) (n : Z) : outcome (option (list Z)) :=
  match hash with
  | None => Ret None
  | Some h => m ← access (slice h 0 n); Ret (Some m)
  end.

Definition hmac_by_kck_len (key buf : list Z) : outcome (option (list Z)) :=
  let key_len := blen key in
  if bool_decide (key_len = 128 / 8) then mac_prefix (hmac_sha256 key buf) key_len
  else if bool_decide (key_len = 192 / 8) then mac_prefix (hmac_sha384 key buf) key_len
  else if bool_decide (key_len = 256 / 8) then mac_prefix (hmac_sha512 key buf) key_len
  else Ret None.

Definition akm_defined_mic (key : list Z) (akmp : Z) (buf : list Z) : outcome (option (list Z)) :=
  if bool_decide (akmp ∈ [WPA_KEY_MGMT_SAE; WPA_KEY_MGMT_FT_SAE]) then
    Ret (omac1_aes_128 key buf)
  else if bool_decide (akmp = WPA_KEY_MGMT_SAE_EXT_KEY) then hmac_by_kck_len key buf
  else if bool_decide (akmp = WPA_KEY_MGMT_IEEE8021X_SUITE_B) then
    mac_prefix (hmac_sha256 key buf) MD5_MAC_LEN
  else if bool_decide (akmp = WPA_KEY_MGMT_IEEE8021X_SUITE_B_192) then
    mac_prefix (hmac_sha384 key buf) 24
  else if bool_decide (akmp = WPA_KEY_MGMT_DPP) then hmac_by_kck_len key buf
  else if bool_decide (akmp = WPA_KEY_MGMT_FT_IEEE8021X_SHA384) then
    mac_prefix (hmac_sha384 key buf) 24
  else Ret None.

Definition wpa_eapol_key_mic (key : list Z) (akmp ver : Z) (buf : list Z) :
    outcome (option (list Z)) :=
  if bool_decide (blen key = 0) then Ret None
  else if bool_decide (ver = WPA_KEY_INFO_TYPE_HMAC_MD5_RC4) then Ret (hmac_md5 key buf)
  else if bool_decide (ver = WPA_KEY_INFO_TYPE_HMAC_SHA1_AES) then
    mac_prefix (hmac_sha1 key buf) MD5_MAC_LEN
  else if bool_decide (ver = WPA_KEY_INFO_TYPE_AES_128_CMAC) then Ret (omac1_aes_128 key buf)
  else if bool_decide (ver = WPA_KEY_INFO_TYPE_AKM_DEFINED) then akm_defined_mic key akmp buf
  else Ret None.

(** ** The PTK of RSN *)
Definition min_max (a b : list Z) : list Z :=
  if bool_decide (os_memcmp a b < 0) then a ++ b else b ++ a.

(** The PRF that [akmp] and the length of the PMK select. *)
Definition ptk_prf (akmp : Z) (pmk data : list Z) (len : Z) (label : string) : option (list Z) :=
  let pmk_len := blen pmk in
  if wpa_key_mgmt_sha384 akmp then sha384_prf pmk label data len
  else if wpa_key_mgmt_sha256 akmp then sha256_prf pmk label data len
  else if bool_decide (akmp = WPA_KEY_MGMT_DPP) || wpa_key_mgmt_sae_ext_key akmp then
    if bool_decide (pmk_len = 32) then sha256_prf pmk label data len
    else if bool_decide (pmk_len = 48) then sha384_prf pmk label data len
    else if bool_decide (pmk_len = 64) then sha512_prf pmk label data len
    else None
  else sha1_prf pmk label data len.

(** Copies the parts of [tmp] into the arrays of the PTK. *)
Definition split_ptk (tmp : list Z) (ptk : wpa_ptk) : option wpa_ptk :=
  c ← slice tmp 0 (kck_len ptk);
  k ← slice tmp (kck_len ptk) (kek_len ptk);
  t ← slice tmp (kck_len ptk + kek_len ptk) (tk_len ptk);
  d ← slice tmp (kck_len ptk + kek_len ptk + tk_len ptk) (kdk_len ptk);
  c ← blit (kck ptk) 0 c;
  k ← blit (kek ptk) 0 k;
  t ← blit (tk ptk) 0 t;
  d ← blit (kdk ptk) 0 d;
  Some (ptk <| kck := c |> <| kek := k |> <| tk := t |> <| kdk := d |>).

Definition sizeof_ptk_tmp := WPA_KCK_MAX_LEN + WPA_KEK_MAX_LEN + WPA_TK_MAX_LEN + WPA_KDK_MAX_LEN.

Definition wpa_pmk_to_ptk (pmk : list Z) (label : string) (addr1 addr2 nonce1 nonce2 : list Z)
    (ptk : wpa_ptk) (akmp cipher : Z) (z : list Z) (kdk_len' : Z) : outcome (Z * wpa_ptk) :=
  if bool_decide (blen pmk = 0) then Ret (-1, ptk)
  else if bool_decide (MAX_Z_LEN < blen z) then Ret (-1, ptk)
  else
    let data := min_max addr1 addr2 ++ min_max nonce1 nonce2 ++ z in
    if bool_decide (WPA_KDK_MAX_LEN < kdk_len') then Ret (-1, ptk)
    else
      let ptk := ptk <| kck_len := wpa_kck_len akmp (blen pmk) |>
                     <| kek_len := wpa_kek_len akmp (blen pmk) |>
                     <| tk_len := wpa_cipher_key_len cipher |>
                     <| kdk_len := kdk_len' |> in
      if bool_decide (tk_len ptk = 0) then Ret (-1, ptk)
      else
        let len := kck_len ptk + kek_len ptk + tk_len ptk + kdk_len ptk in
        if bool_decide (sizeof_ptk_tmp < len) then Undef
        else
          match ptk_prf akmp pmk data len label with
          | None => Ret (-1, ptk)
          | Some tmp =>
              ptk ← access (split_ptk tmp ptk);
              Ret (0, ptk <| kek2_len := 0 |> <| kck2_len := 0 |>)
          end.

(** ** The keys of FT *)
(** The octets written to [pmk_r0] and to [pmk_r0_name]; both for a return of 0. *)
Definition wpa_derive_pmk_r0 (xxkey ssid mdid r0kh_id s0kh_id : list Z) (use_sha384 : bool) :
    outcome (option (list Z) * option (list Z)) :=
  let q := if use_sha384 then 48 else 32 in
  if bool_decide (SSID_MAX_LEN < blen ssid) || bool_decide (FT_R0KH_ID_MAX_LEN < blen r0kh_id)
  then Ret (None, None)
  else
    let buf := blen ssid :: ssid ++ mdid ++ blen r0kh_id :: r0kh_id ++ s0kh_id in
    if bool_decide (blen xxkey ≠ q) then Ret (None, None)
    else
      match (if use_sha384 then sha384_prf else sha256_prf) xxkey "FT-R0"%string buf (q + 16) with
      | None => Ret (None, None)
      | Some key_data =>
          pmk_r0 ← access (slice key_data 0 q);
          salt ← access (slice key_data q 16);
          match (if use_sha384 then sha384_vector else sha256_vector) (str "FT-R0N" ++ salt) with
          | None => Ret (Some pmk_r0, None)
          | Some hash =>
              name ← access (slice hash 0 WPA_PMK_NAME_LEN);
              Ret (Some pmk_r0, Some name)
          end
      end.

Definition wpa_derive_pmk_r1_name (pmk_r0_name r1kh_id s1kh_id : list Z) (use_sha384 : bool) :
    outcome (option (list Z)) :=
  match (if use_sha384 then sha384_vector else sha256_vector)
          (str "FT-R1N" ++ pmk_r0_name ++ r1kh_id ++ s1kh_id) with
  | None => Ret None
  | Some hash => name ← access (slice hash 0 WPA_PMK_NAME_LEN); Ret (Some name)
  end.

(** The octets written to [pmk_r1] and to [pmk_r1_name]; both for a return of 0. *)
Definition wpa_derive_pmk_r1 (pmk_r0 pmk_r0_name r1kh_id s1kh_id : list Z) :
    outcome (option (list Z) * option (list Z)) :=
  let buf := r1kh_id ++ s1kh_id in
  let len := blen pmk_r0 in
  let sha384 := bool_decide (len = SHA384_MAC_LEN) in
  if sha384 || bool_decide (len = PMK_LEN) then
    match (if sha384 then sha384_prf else sha256_prf) pmk_r0 "FT-R1"%string buf len with
    | None => Ret (None, None)
    | Some r1 =>
        name ← wpa_derive_pmk_r1_name pmk_r0_name r1kh_id s1kh_id sha384;
        Ret (Some r1, name)
    end
  else Ret (None, None).

Definition split_ft_ptk (tmp : list Z) (ptk : wpa_ptk) : option wpa_ptk :=
  let offset2 := kck_len ptk + kek_len ptk + tk_len ptk in
  c ← slice tmp 0 (kck_len ptk);
  k ← slice tmp (kck_len ptk) (kek_len ptk);
  t ← slice tmp (kck_len ptk + kek_len ptk) (tk_len ptk);
  c2 ← slice tmp offset2 (kck2_len ptk);
  k2 ← slice tmp (offset2 + kck2_len ptk) (kek2_len ptk);
  d ← slice tmp (offset2 + kck2_len ptk + kek2_len ptk) (kdk_len ptk);
  c ← blit (kck ptk) 0 c;
  k ← blit (kek ptk) 0 k;
  t ← blit (tk ptk) 0 t;
  c2 ← blit (kck2 ptk) 0 c2;
  k2 ← blit (kek2 ptk) 0 k2;
  d ← blit (kdk ptk) 0 d;
  Some (ptk <| kck := c |> <| kek := k |> <| tk := t |> <| kck2 := c2 |> <| kek2 := k2 |>
            <| kdk := d |>).

Definition sizeof_ft_tmp :=
  2 * WPA_KCK_MAX_LEN + 2 * WPA_KEK_MAX_LEN + WPA_TK_MAX_LEN + WPA_KDK_MAX_LEN.

(** The caller does not use the PTKName, which is left out of the result. *)
Definition wpa_pmk_r1_to_ptk (pmk_r1 snonce anonce sta_addr bssid pmk_r1_name : list Z)
    (ptk : wpa_ptk) (akmp cipher kdk_len' : Z) : outcome (Z * wpa_ptk) :=
  let use_sha384 := wpa_key_mgmt_sha384 akmp in
  if bool_decide (WPA_KDK_MAX_LEN < kdk_len') then Ret (-1, ptk)
  else
    let buf := snonce ++ anonce ++ bssid ++ sta_addr in
    let ptk := ptk <| kck_len := wpa_kck_len akmp PMK_LEN |>
                   <| kck2_len := wpa_kck2_len akmp |>
                   <| kek_len := wpa_kek_len akmp PMK_LEN |>
                   <| kek2_len := wpa_kek2_len akmp |>
                   <| tk_len := wpa_cipher_key_len cipher |>
                   <| kdk_len := kdk_len' |> in
    let len := kck_len ptk + kek_len ptk + tk_len ptk + kck2_len ptk + kek2_len ptk +
               kdk_len ptk in
    if bool_decide (sizeof_ft_tmp < len) then Undef
    else if bool_decide (blen pmk_r1 ≠ if use_sha384 then SHA384_MAC_LEN else PMK_LEN)
    then Ret (-1, ptk)
    else
      match (if use_sha384 then sha384_prf else sha256_prf) pmk_r1 "FT-PTK"%string buf len with
      | None => Ret (-1, ptk)
      | Some tmp =>
          match sha256_vector (pmk_r1_name ++ str "FT-PTKN" ++ snonce ++ anonce ++ bssid ++
                               sta_addr) with
          | None => Ret (-1, ptk)
          | Some _ => ptk ← access (split_ft_ptk tmp ptk); Ret (0, ptk)
          end
      end.
End keys.

(** ** The SNonce cookie of RSN overriding *)
Definition OUI_WFA := 0x506f9a.
Definition rsn_set_snonce_cookie (snonce : list Z) : option (list Z) :=
  let pos := WPA_NONCE_LEN - 6 in
  b ← WPA_PUT_BE24 snonce pos OUI_WFA;
  WPA_PUT_BE24 b (pos + 3) 0x000029.
Definition rsn_is_snonce_cookie (snonce : list Z) : option bool :=
  let pos := WPA_NONCE_LEN - 6 in
  a ← WPA_GET_BE24 snonce pos;
  b ← WPA_GET_BE24 snonce (pos + 3);
  Some (bool_decide (a = OUI_WFA) && bool_decide (b = 0x000029)).
