(* ===== verification/WpaKeyProofs.v ===== *)
(** Properties of the keys of [WpaKey]

    - octets as numbers: [os_memcmp] is the order of big-endian numbers and
      [inc_byte_array] adds one;
    - the key derivations and the MIC stay inside their buffers, and the lengths that
      they produce;
    - both ends derive the same PTK. *)
From S2P Require Import Prelude Bytes Defs Suites RsnIe WpaKey.

(** ** Octets as numbers *)
Definition be_value (b : list Z) : Z := fold_left (λ a x, 256 * a + x) b 0.

Lemma be_fold b a : fold_left (λ a x, 256 * a + x) b a = 256 ^ blen b * a + be_value b.
Proof.
  unfold be_value. revert a. induction b as [|x b IH]; intros a.
  - cbn [fold_left length]. change (Z.of_nat 0) with 0. lia.
  - cbn [fold_left length]. rewrite (IH (256 * a + x)), (IH (256 * 0 + x)).
    rewrite Nat2Z.inj_succ, Z.pow_succ_r by lia. ring.
Qed.

Lemma be_cons x b : be_value (x :: b) = 256 ^ blen b * x + be_value b.
Proof. unfold be_value at 1. cbn [fold_left]. rewrite be_fold. f_equal. Qed.

Lemma be_range b : bytes_ok b → 0 ≤ be_value b < 256 ^ blen b.
Proof.
  induction 1 as [|x b Hx Hb IH]; [done|].
  rewrite be_cons. cbn [length]. rewrite Nat2Z.inj_succ, Z.pow_succ_r by lia.
  unfold is_byte in Hx. nia.
Qed.

Lemma be_app b x : be_value (b ++ [x]) = 256 * be_value b + x.
Proof. unfold be_value. rewrite fold_left_app. done. Qed.

(** [os_memcmp] orders octets of one length like numbers. *)
Lemma memcmp_sign a b :
  bytes_ok a → bytes_ok b → length a = length b →
  (os_memcmp a b < 0 ↔ be_value a < be_value b) ∧ (os_memcmp a b = 0 ↔ be_value a = be_value b).
Proof.
  intros Ha. revert b. induction Ha as [|x a Hx Ha IH]; intros b Hb Hl.
  { by destruct b. }
  destruct b as [|y b]; [done|]. apply Forall_cons in Hb as [Hy Hb]. injection Hl as Hl.
  cbn [os_memcmp]. rewrite !be_cons, Hl.
  destruct (IH b Hb Hl) as [H1 H2].
  pose proof (be_range a Ha) as Ra. pose proof (be_range b Hb) as Rb. rewrite Hl in Ra.
  set (k := 256 ^ blen b) in *. clearbody k. unfold is_byte in *.
  case_bool_decide as E; [subst y; split; lia|]. split; split; intros; nia.
Qed.

Lemma inc_reversed_value c :
  bytes_ok c →
  length (inc_reversed c) = length c ∧ bytes_ok (inc_reversed c) ∧
  be_value (reverse (inc_reversed c)) = (be_value (reverse c) + 1) mod 256 ^ blen c.
Proof.
  induction 1 as [|x c Hx Hc (IHl & IHb & IH)]; [done|].
  assert (Hr : bytes_ok (reverse c)) by (by apply Forall_reverse).
  pose proof (be_range _ Hr) as R. rewrite length_reverse in R.
  cbn [inc_reversed]. unfold wrap. change (2 ^ 8) with 256. unfold is_byte in Hx.
  assert (Hp : 256 ^ blen (x :: c) = 256 * 256 ^ blen c).
  { cbn [length]. by rewrite Nat2Z.inj_succ, Z.pow_succ_r by lia. }
  rewrite Hp, !reverse_cons, be_app. set (k := 256 ^ blen c) in *.
  case_bool_decide as E.
  - assert (x = 255) as -> by (Z.div_mod_to_equations; lia).
    split_and!; [cbn [length]; lia|constructor; [done|exact IHb]|].
    rewrite reverse_cons, be_app, IH. change ((255 + 1) mod 256) with 0.
    replace (256 * be_value (reverse c) + 255 + 1) with (256 * (be_value (reverse c) + 1)) by lia.
    rewrite Z.mul_mod_distr_l; lia.
  - assert (x < 255) by (destruct (decide (x = 255)) as [->|]; [done|lia]).
    rewrite (Z.mod_small (x + 1)) by lia.
    split_and!; [done|constructor; [unfold is_byte; lia|done]|].
    rewrite reverse_cons, be_app, Z.mod_small; nia.
Qed.

Lemma inc_length c : length (inc_byte_array c) = length c.
Proof.
  unfold inc_byte_array. rewrite length_reverse, <- (length_reverse c).
  induction (reverse c) as [|x l IH]; [done|]. cbn [inc_reversed].
  case_bool_decide; cbn [length]; congruence.
Qed.

(** Inc_byte_array keeps the length of a counter and adds one to its big-endian
    value, modulo 2^(8 n). *)
Theorem inc_byte_array_adds_one c :
  bytes_ok c →
  length (inc_byte_array c) = length c ∧ bytes_ok (inc_byte_array c) ∧
  be_value (inc_byte_array c) = (be_value c + 1) mod 256 ^ blen c.
Proof.
  intros Hc. unfold inc_byte_array.
  destruct (inc_reversed_value (reverse c)) as (Hl & Hb & Hv); [by apply Forall_reverse|].
  rewrite length_reverse in Hl, Hv. rewrite reverse_involutive in Hv.
  split_and!; [by rewrite length_reverse|by apply Forall_reverse|exact Hv].
Qed.

(** ** Both ends derive the same PTK *)
Lemma memcmp_refl a : os_memcmp a a = 0.
Proof. induction a as [|x a IH]; [done|]. cbn [os_memcmp]. rewrite bool_decide_eq_true_2 by done. apply IH. Qed.

Lemma memcmp_flip a b : os_memcmp b a = - os_memcmp a b.
Proof.
  revert b. induction a as [|x a IH]; intros [|y b]; cbn [os_memcmp]; try done.
  destruct (decide (x = y)) as [->|Hne].
  - rewrite !bool_decide_eq_true_2 by done. apply IH.
  - rewrite !bool_decide_eq_false_2 by congruence. lia.
Qed.

Lemma memcmp_eq a b : length a = length b → os_memcmp a b = 0 → a = b.
Proof.
  revert b. induction a as [|x a IH]; intros [|y b]; cbn [os_memcmp]; try done.
  intros [= Hl]. case_bool_decide as E; [subst; intros; f_equal; by apply IH|lia].
Qed.

Lemma min_max_comm a b : length a = length b → min_max a b = min_max b a.
Proof.
  intros Hl. unfold min_max. rewrite (memcmp_flip b a).
  destruct (decide (os_memcmp b a = 0)) as [E|E].
  - assert (b = a) as -> by (by apply memcmp_eq). by repeat case_bool_decide.
  - repeat case_bool_decide; try done; lia.
Qed.

(** C13: the PTK does not depend on which end derives it: with the addresses swapped and
    the nonces swapped, wpa_pmk_to_ptk gives the same result, for every AKM, cipher and
    PMK. *)
Theorem ptk_same_at_both_ends `{C : wpa_crypto} pmk label aa spa an sn keys akmp cipher z n :
  length aa = length spa → length an = length sn →
  wpa_pmk_to_ptk pmk label spa aa sn an keys akmp cipher z n =
  wpa_pmk_to_ptk pmk label aa spa an sn keys akmp cipher z n.
Proof.
  intros Ha Hn. unfold wpa_pmk_to_ptk. by rewrite (min_max_comm spa aa), (min_max_comm sn an).
Qed.

(** ** Lengths and safety *)
Record ptk_ok (p : wpa_ptk) : Prop := {
  ptk_kck : blen (kck p) = 32;
  ptk_kek : blen (kek p) = 64;
  ptk_tk : blen (tk p) = 32;
  ptk_kck2 : blen (kck2 p) = 32;
  ptk_kek2 : blen (kek2 p) = 64;
  ptk_kdk : blen (kdk p) = 32;
  ptk_kck_len : 0 ≤ kck_len p ≤ 32;
  ptk_kek_len : 0 ≤ kek_len p ≤ 64;
  ptk_tk_len : 0 ≤ tk_len p ≤ 32;
}.

Lemma ptk_zero_ok : ptk_ok ptk_zero.
Proof. by split. Qed.

Ltac akm_lens := unfold wpa_kck_len, wpa_kek_len, wpa_kck2_len, wpa_kek2_len, wpa_cipher_key_len,
  wpa_mic_len; repeat case_bool_decide; Z.div_mod_to_equations; lia.

Lemma kck_len_range akmp n : 0 ≤ n ≤ 64 → 0 ≤ wpa_kck_len akmp n ≤ 32.
Proof. intros. akm_lens. Qed.
Lemma kek_len_range akmp n : 0 ≤ wpa_kek_len akmp n ≤ 64.
Proof. akm_lens. Qed.
Lemma key_len_range cipher : 0 ≤ wpa_cipher_key_len cipher ≤ 32.
Proof. akm_lens. Qed.
Lemma mic_len_range akmp n : 0 ≤ n ≤ 64 → 0 ≤ wpa_mic_len akmp n ≤ 32.
Proof. intros. akm_lens. Qed.
Lemma mic_len_kck akmp n : wpa_mic_len akmp n = wpa_kck_len akmp n.
Proof.
  unfold wpa_mic_len, wpa_kck_len. repeat case_bool_decide; try done; set_solver.
Qed.

Lemma blit_start {A} (a o : list A) :
  blen o ≤ blen a → ∃ b, blit a 0 o = Some b ∧ blen b = blen a.
Proof.
  intros H. destruct (blit a 0 o) as [b|] eqn:E.
  - exists b. split; [done|]. by rewrite (blit_length _ _ _ _ E).
  - rewrite blit_in in E by lia. done.
Qed.

(** Copies a slice into the start of an array. *)
Ltac copy_part tmp off n :=
  let s := fresh "s" in let Hs := fresh "Hs" in let L := fresh "L" in
  destruct (slice_is_Some tmp off n) as [s Hs]; [lia..|]; rewrite Hs;
  pose proof (slice_length _ _ _ _ Hs) as L; cbn [mbind option_bind].
Ltac fill_array a o :=
  let b := fresh "b" in let Hb := fresh "Hb" in let L := fresh "L" in
  destruct (blit_start a o) as (b & Hb & L); [lia|]; rewrite Hb; cbn [mbind option_bind].

Lemma split_ptk_ok tmp p :
  ptk_ok p → 0 ≤ kdk_len p ≤ 32 →
  blen tmp = kck_len p + kek_len p + tk_len p + kdk_len p →
  ∃ p', split_ptk tmp p = Some p' ∧ ptk_ok p' ∧ kck_len p' = kck_len p ∧ installed p' = installed p.
Proof.
  intros [] Hd Hl. unfold split_ptk.
  copy_part tmp 0 (kck_len p). copy_part tmp (kck_len p) (kek_len p).
  copy_part tmp (kck_len p + kek_len p) (tk_len p).
  copy_part tmp (kck_len p + kek_len p + tk_len p) (kdk_len p).
  fill_array (kck p) s. fill_array (kek p) s0. fill_array (tk p) s1. fill_array (kdk p) s2.
  eexists. split; [done|]. split; [|by split]. split; cbn; lia.
Qed.

Lemma split_ft_ptk_ok tmp p :
  ptk_ok p → 0 ≤ kdk_len p ≤ 32 → 0 ≤ kck2_len p ≤ 32 → 0 ≤ kek2_len p ≤ 64 →
  blen tmp = kck_len p + kek_len p + tk_len p + kck2_len p + kek2_len p + kdk_len p →
  ∃ p', split_ft_ptk tmp p = Some p' ∧ ptk_ok p' ∧ kck_len p' = kck_len p ∧
        installed p' = installed p.
Proof.
  intros [] Hd H2 H3 Hl. unfold split_ft_ptk. cbv zeta.
  copy_part tmp 0 (kck_len p). copy_part tmp (kck_len p) (kek_len p).
  copy_part tmp (kck_len p + kek_len p) (tk_len p).
  copy_part tmp (kck_len p + kek_len p + tk_len p) (kck2_len p).
  copy_part tmp (kck_len p + kek_len p + tk_len p + kck2_len p) (kek2_len p).
  copy_part tmp (kck_len p + kek_len p + tk_len p + kck2_len p + kek2_len p) (kdk_len p).
  fill_array (kck p) s. fill_array (kek p) s0. fill_array (tk p) s1. fill_array (kck2 p) s2.
  fill_array (kek2 p) s3. fill_array (kdk p) s4.
  eexists. split; [done|]. split; [|by split]. split; cbn; lia.
Qed.

Section laws.
Context `{C : wpa_crypto} {L : wpa_crypto_laws C}.

Lemma ptk_prf_len akmp k d n label m : 0 ≤ n → ptk_prf akmp k d n label = Some m → blen m = n.
Proof.
  intros Hn. unfold ptk_prf. cbv zeta.
  repeat match goal with |- context [if ?c then _ else _] => destruct c end; try done;
    eauto using sha1_prf_len, sha256_prf_len, sha384_prf_len, sha512_prf_len.
Qed.

(** What a derivation leaves of the PTK: the arrays, the KCK of the AKM and the flag. *)
Definition derived (p : wpa_ptk) (n : Z) (r : Z) (p' : wpa_ptk) : Prop :=
  ptk_ok p' ∧ installed p' = installed p ∧ (r = 0 ∨ r = -1) ∧ (r = 0 → kck_len p' = n).

Lemma pmk_to_ptk_ok pmk label a1 a2 n1 n2 p akmp cipher z n :
  ptk_ok p → blen pmk ≤ 64 → 0 ≤ n →
  ∃ r p', wpa_pmk_to_ptk pmk label a1 a2 n1 n2 p akmp cipher z n = Ret (r, p') ∧
          derived p (wpa_kck_len akmp (blen pmk)) r p'.
Proof.
  intros Hp Hk Hn. unfold wpa_pmk_to_ptk, derived.
  assert (Hfail : ∀ p', ptk_ok p' → installed p' = installed p →
    ∃ r p'', Ret (-1, p') = Ret (r, p'') ∧ ptk_ok p'' ∧ installed p'' = installed p ∧
      (r = 0 ∨ r = -1) ∧ (r = 0 → kck_len p'' = wpa_kck_len akmp (blen pmk))).
  { intros p' ? ?. exists (-1), p'. split; [done|]. split_and!; [done|done|by right|done]. }
  repeat (case_bool_decide; [by apply Hfail|]). cbv zeta.
  pose proof (kck_len_range akmp (blen pmk) ltac:(lia)).
  pose proof (kek_len_range akmp (blen pmk)). pose proof (key_len_range cipher).
  unfold WPA_KDK_MAX_LEN in *.
  set (p1 := p <| kck_len := _ |> <| kek_len := _ |> <| tk_len := _ |> <| kdk_len := n |>).
  assert (Hp1 : ptk_ok p1 ∧ kdk_len p1 = n ∧ kck_len p1 = wpa_kck_len akmp (blen pmk) ∧
                installed p1 = installed p).
  { split; [|done]. destruct Hp. split; subst p1; cbn; lia. }
  clearbody p1. destruct Hp1 as (Hp1 & Hd & Hck & Hi). case_bool_decide; [by apply Hfail|].
  rewrite bool_decide_eq_false_2.
  2:{ destruct Hp1. unfold sizeof_ptk_tmp, WPA_KCK_MAX_LEN, WPA_KEK_MAX_LEN, WPA_TK_MAX_LEN,
      WPA_KDK_MAX_LEN. lia. }
  destruct (ptk_prf _ _ _ _ _) as [tmp|] eqn:E; [|by apply Hfail].
  apply ptk_prf_len in E; [|destruct Hp1; lia].
  destruct (split_ptk_ok tmp p1) as (p2 & -> & Hp2 & Hc2 & Hi2); [done|lia|done|].
  rewrite access_bind. eexists 0, _. split; [done|]. split_and!.
  - destruct Hp2. split; cbn; lia.
  - cbn. congruence.
  - by left.
  - cbn. congruence.
Qed.

Lemma prf_len_of (b : bool) k label d n m :
  0 ≤ n → (if b then sha384_prf else sha256_prf) k label d n = Some m → blen m = n.
Proof. destruct b; eauto using sha256_prf_len, sha384_prf_len. Qed.
Lemma vector_len_of (b : bool) d m :
  (if b then sha384_vector else sha256_vector) d = Some m → 32 ≤ blen m.
Proof.
  destruct b; intros E; [apply sha384_vector_len in E|apply sha256_vector_len in E]; lia.
Qed.

Definition opt_len (n : Z) (o : option (list Z)) : Prop :=
  match o with Some x => blen x = n | None => True end.

Lemma derive_pmk_r0_ok xx ssid' md r0 s0 (b : bool) :
  ∃ k name, wpa_derive_pmk_r0 xx ssid' md r0 s0 b = Ret (k, name) ∧
    opt_len (if b then 48 else 32) k ∧ opt_len 16 name ∧ (is_Some name → is_Some k).
Proof.
  unfold wpa_derive_pmk_r0. cbv zeta. set (q := if b then 48 else 32).
  assert (Hq : 0 ≤ q) by (by destruct b).
  assert (H0 : opt_len q None ∧ opt_len 16 None ∧ (is_Some (@None (list Z)) → is_Some (@None (list Z))))
    by done.
  destruct (_ || _); [by eexists _, _|]. case_bool_decide; [by eexists _, _|].
  destruct (_ xx _ _ (q + 16)) as [kd|] eqn:E; [|by eexists _, _].
  apply prf_len_of in E; [|lia].
  destruct (slice_is_Some kd 0 q) as [k Hk]; [lia..|]. rewrite Hk, access_bind.
  destruct (slice_is_Some kd q 16) as [salt Hs]; [lia..|]. rewrite Hs, access_bind.
  pose proof (slice_length _ _ _ _ Hk).
  destruct (_ (_ ++ salt)) as [h|] eqn:Eh; [|by eexists (Some k), None].
  apply vector_len_of in Eh. unfold WPA_PMK_NAME_LEN.
  destruct (slice_is_Some h 0 16) as [nm Hn]; [lia..|]. rewrite Hn, access_bind.
  pose proof (slice_length _ _ _ _ Hn). by eexists (Some k), (Some nm).
Qed.

Lemma derive_pmk_r1_ok r0 name r1 s1 :
  ∃ k nm, wpa_derive_pmk_r1 r0 name r1 s1 = Ret (k, nm) ∧
    opt_len (blen r0) k ∧ opt_len 16 nm ∧ (is_Some nm → is_Some k).
Proof.
  unfold wpa_derive_pmk_r1. cbv zeta. destruct (_ || _); [|by eexists None, None].
  destruct (_ r0 _ _ _) as [k|] eqn:E; [|by eexists None, None].
  apply prf_len_of in E; [|lia]. unfold wpa_derive_pmk_r1_name.
  destruct (_ (_ ++ _)) as [h|] eqn:Eh; [|by eexists (Some k), None].
  apply vector_len_of in Eh. unfold WPA_PMK_NAME_LEN.
  destruct (slice_is_Some h 0 16) as [n Hn]; [lia..|]. rewrite Hn. cbn.
  pose proof (slice_length _ _ _ _ Hn). by eexists (Some k), (Some n).
Qed.

Lemma pmk_r1_to_ptk_ok r1 sn an sta bs name p akmp cipher n :
  ptk_ok p → 0 ≤ n →
  ∃ r p', wpa_pmk_r1_to_ptk r1 sn an sta bs name p akmp cipher n = Ret (r, p') ∧
          derived p (wpa_kck_len akmp PMK_LEN) r p'.
Proof.
  intros Hp Hn. unfold wpa_pmk_r1_to_ptk, derived. cbv zeta.
  assert (Hfail : ∀ p', ptk_ok p' → installed p' = installed p →
    ∃ r p'', Ret (-1, p') = Ret (r, p'') ∧ ptk_ok p'' ∧ installed p'' = installed p ∧
      (r = 0 ∨ r = -1) ∧ (r = 0 → kck_len p'' = wpa_kck_len akmp PMK_LEN)).
  { intros p' ? ?. exists (-1), p'. split; [done|]. split_and!; [done|done|by right|done]. }
  case_bool_decide; [by apply Hfail|]. unfold WPA_KDK_MAX_LEN, PMK_LEN in *.
  pose proof (kck_len_range akmp 32 ltac:(lia)). pose proof (kek_len_range akmp 32).
  pose proof (key_len_range cipher).
  assert (0 ≤ wpa_kck2_len akmp ≤ 24) by akm_lens.
  assert (0 ≤ wpa_kek2_len akmp ≤ 32) by akm_lens.
  set (p1 := p <| kck_len := _ |> <| kck2_len := _ |> <| kek_len := _ |> <| kek2_len := _ |>
               <| tk_len := _ |> <| kdk_len := n |>).
  assert (Hp1 : ptk_ok p1 ∧ kdk_len p1 = n ∧ kck2_len p1 = wpa_kck2_len akmp ∧
                kek2_len p1 = wpa_kek2_len akmp ∧ kck_len p1 = wpa_kck_len akmp 32 ∧
                installed p1 = installed p).
  { split; [|done]. destruct Hp. split; subst p1; cbn; lia. }
  clearbody p1. destruct Hp1 as (Hp1 & Hd & Hq2 & Hq3 & Hck & Hi).
  rewrite bool_decide_eq_false_2.
  2:{ destruct Hp1. unfold sizeof_ft_tmp, WPA_KCK_MAX_LEN, WPA_KEK_MAX_LEN, WPA_TK_MAX_LEN,
      WPA_KDK_MAX_LEN. lia. }
  case_bool_decide; [by apply Hfail|].
  destruct (_ r1 _ _ _) as [tmp|] eqn:E; [|by apply Hfail].
  apply prf_len_of in E; [|destruct Hp1; lia].
  destruct (sha256_vector _); [|by apply Hfail].
  destruct (split_ft_ptk_ok tmp p1) as (p2 & -> & Hp2 & Hc2 & Hi2); [done|lia|lia|lia|done|].
  rewrite access_bind. exists 0, p2. split; [done|]. split_and!; [done|congruence|by left|congruence].
Qed.

(** ** The MIC *)

(** The octets of the MIC for a KCK of [n] octets. *)
Definition mic_octets (akmp ver n : Z) : Z :=
  if bool_decide (ver = WPA_KEY_INFO_TYPE_AKM_DEFINED) then
    if bool_decide (akmp ∈ [WPA_KEY_MGMT_SAE_EXT_KEY; WPA_KEY_MGMT_DPP]) then n
    else if bool_decide (akmp ∈ [WPA_KEY_MGMT_IEEE8021X_SUITE_B_192;
                                 WPA_KEY_MGMT_FT_IEEE8021X_SHA384]) then 24
    else if bool_decide (akmp ∈ [WPA_KEY_MGMT_SAE; WPA_KEY_MGMT_FT_SAE;
                                 WPA_KEY_MGMT_IEEE8021X_SUITE_B]) then 16
    else 0
  else 16.

(** They fit into the MIC field: the descriptor version is the one of the AKM, and a KCK
    whose length depends on the PMK is not longer than the field. *)
Lemma mic_octets_fit akmp ver n k :
  (wpa_use_akm_defined akmp = true → ver = WPA_KEY_INFO_TYPE_AKM_DEFINED) →
  (akmp ∈ [WPA_KEY_MGMT_SAE_EXT_KEY; WPA_KEY_MGMT_DPP] → n ≤ wpa_mic_len akmp k) → 0 ≤ k →
  mic_octets akmp ver n ≤ wpa_mic_len akmp k.
Proof.
  intros Hv Hn Hk. assert (H0 : 0 ≤ wpa_mic_len akmp k) by akm_lens.
  unfold mic_octets. case_bool_decide as Ev.
  - case_bool_decide as E; [by apply Hn|]. case_bool_decide as E1.
    { rewrite !elem_of_cons, elem_of_nil in E1. destruct E1 as [->|[->|[]]]; done. }
    case_bool_decide as E2; [|done].
    rewrite !elem_of_cons, elem_of_nil in E2. destruct E2 as [->|[->|[->|[]]]]; done.
  - assert (Hd : wpa_use_akm_defined akmp ≠ true) by (intros E; by apply Ev, Hv).
    unfold wpa_mic_len.
    case_bool_decide as E1.
    { rewrite !elem_of_cons, elem_of_nil in E1. destruct E1 as [->|[->|[]]]; done. }
    case_bool_decide as E2.
    { rewrite !elem_of_cons, elem_of_nil in E2. destruct E2 as [->|[->|[->|[->|[]]]]]; done. }
    case_bool_decide as E3; [|done].
    rewrite !elem_of_cons, elem_of_nil in E3. destruct E3 as [->|[->|[->|[]]]]; done.
Qed.

Definition mic_result (n : Z) (r : outcome (option (list Z))) : Prop :=
  ∃ m, r = Ret m ∧ match m with Some m => octets_len n m | None => True end.

Lemma mac_prefix_ok h n k :
  0 ≤ n ≤ k → (∀ m, h = Some m → octets_len k m) → mic_result n (mac_prefix h n).
Proof.
  intros Hn H. unfold mac_prefix, mic_result. destruct h as [h|]; [|by exists None].
  destruct (H h eq_refl) as [Hl Hb].
  destruct (slice_is_Some h 0 n) as [m Hm]; [lia..|]. rewrite Hm, access_bind.
  exists (Some m). split; [done|]. split; [by eapply slice_length|by eapply slice_Forall].
Qed.

Lemma mic_result_ret n (h : option (list Z)) :
  (∀ m, h = Some m → octets_len n m) → mic_result n (Ret h).
Proof. intros H. exists h. split; [done|]. destruct h; [by apply H|done]. Qed.

Lemma by_kck_len_ok k b : mic_result (blen k) (hmac_by_kck_len k b).
Proof.
  unfold hmac_by_kck_len. cbv zeta.
  case_bool_decide as E; [rewrite E; eapply mac_prefix_ok; [|intros m; apply hmac_sha256_len]; done|].
  clear E. case_bool_decide as E;
    [rewrite E; eapply mac_prefix_ok; [|intros m; apply hmac_sha384_len]; done|].
  clear E. case_bool_decide as E;
    [rewrite E; eapply mac_prefix_ok; [|intros m; apply hmac_sha512_len]; done|].
  by apply mic_result_ret.
Qed.

Lemma eapol_key_mic_ok k akmp ver b : mic_result (mic_octets akmp ver (blen k)) (wpa_eapol_key_mic k akmp ver b).
Proof.
  unfold wpa_eapol_key_mic.
  assert (H0 : ∀ n, mic_result n (Ret None)) by (intros; by apply mic_result_ret).
  case_bool_decide; [apply H0|].
  case_bool_decide as E; [subst; apply mic_result_ret; intros m; apply hmac_md5_len|]. clear E.
  case_bool_decide as E; [subst; eapply mac_prefix_ok; [|intros m; apply hmac_sha1_len]; done|]. clear E.
  case_bool_decide as E; [subst; apply mic_result_ret; intros m; apply omac1_aes_128_len|]. clear E.
  case_bool_decide as E; [subst|apply H0].
  remember (mic_octets akmp WPA_KEY_INFO_TYPE_AKM_DEFINED (blen k)) as n eqn:En.
  unfold akm_defined_mic. case_bool_decide as E1.
  { assert (E2 : akmp = WPA_KEY_MGMT_SAE ∨ akmp = WPA_KEY_MGMT_FT_SAE) by set_solver.
    subst n. apply mic_result_ret. intros m Hm. apply omac1_aes_128_len in Hm.
    by destruct E2 as [->| ->]. }
  case_bool_decide as E2; [subst; apply by_kck_len_ok|].
  case_bool_decide as E3; [subst; eapply mac_prefix_ok; [|intros m; apply hmac_sha256_len]; done|].
  case_bool_decide as E4; [subst; eapply mac_prefix_ok; [|intros m; apply hmac_sha384_len]; done|].
  case_bool_decide as E5; [subst; apply by_kck_len_ok|].
  case_bool_decide as E6; [subst; eapply mac_prefix_ok; [|intros m; apply hmac_sha384_len]; done|].
  apply H0.
Qed.
End laws.
