(* ===== verification/WpaSm.v ===== *)
(** State of the supplicant's RSN state machine (src/rsn_supp/wpa_i.h, wpa.c)

    [wpa_sm] is struct wpa_sm without the fields of components that are not modelled
    (TDLS, FILS, OWE, preauthentication).  [pm] has the PMK, the addresses and the PMKSA
    cache.  A member that is a pointer is an option, and its length member is the length
    of the octets, except where the code uses the length of a null pointer.

    The handlers are written in the monad [M] over the state and the trace of the calls
    that leave the state machine, newest first; [wpa_env] answers the calls.  An answer
    may depend on the whole trace, so any behaviour of the environment is covered.  The
    callbacks do not call back into the state machine. *)
From S2P Require Import Prelude Bytes Defs Suites RsnIe Kde PmksaCache WpaKey.

(** ** The state *)
Record wpa_sm := mk_sm {
  pm : pmksa_sm;
  ptk : wpa_ptk;
  tptk : wpa_ptk;
  ptk_set : bool;
  tptk_set : bool;
  msg_3_of_4_ok : bool;
  snonce : list Z;
  anonce : list Z;
  renew_snonce : bool;
  rx_replay_counter : list Z;
  rx_replay_counter_set : bool;
  request_counter : list Z;
  gtk : list Z;
  gtk_wnm_sleep : list Z;
  igtk : list Z;
  igtk_wnm_sleep : list Z;
  bigtk : list Z;
  bigtk_wnm_sleep : list Z;
  eapol : bool;
  pmksa_candidates : bool;
  rekey_timer : option Z;
  preauth_timer : bool;
  config_ctx : option Z;
  ssid : list Z;
  wpa_ptk_rekey : Z;
  wpa_deny_ptk0_rekey : bool;
  wpa_rsc_relaxation : bool;
  beacon_prot : bool;
  ext_key_id : bool;
  use_ext_key_id : bool;
  keyidx_active : Z;
  force_kdk_derivation : bool;
  secure_ltf : bool;
  secure_rtt : bool;
  prot_range_neg : bool;
  mfp : Z;
  ocv : bool;
  sae_pwe : Z;
  sae_pk : bool;
  dot11RSNAConfigSATimeout : Z;
  proto : Z;
  pairwise_cipher : Z;
  group_cipher : Z;
  key_mgmt : Z;
  mgmt_group_cipher : Z;
  rsn_enabled : bool;
  assoc_wpa_ie : option (list Z);
  assoc_wpa_ie_len : Z;
  assoc_rsnxe : option (list Z);
  ap_wpa_ie : option (list Z);
  ap_rsn_ie : option (list Z);
  ap_rsnxe : option (list Z);
  ap_rsne_override : option (list Z);
  ap_rsne_override_2 : option (list Z);
  ap_rsnxe_override : option (list Z);
  xxkey : list Z;
  pmk_r0 : list Z;
  pmk_r0_len : Z;
  pmk_r0_name : list Z;
  pmk_r1 : list Z;
  pmk_r1_len : Z;
  pmk_r1_name : list Z;
  mobility_domain : list Z;
  r0kh_id : list Z;
  r1kh_id : list Z;
  ft_completed : bool;
  ft_reassoc_completed : bool;
  ft_protocol : bool;
  assoc_resp_ies : option (list Z);
  dpp_z : option (list Z);
  dpp_pfs : Z;
  rsn_override_support : bool;
  rsn_override : Z;
  handshake_failures : Z;
}.
#[export] Instance eta_sm : Eta wpa_sm := λ s,
  mk_sm (pm s) (ptk s) (tptk s) (ptk_set s) (tptk_set s) (msg_3_of_4_ok s) (snonce s) (anonce s)
    (renew_snonce s) (rx_replay_counter s) (rx_replay_counter_set s) (request_counter s) (gtk s)
    (gtk_wnm_sleep s) (igtk s) (igtk_wnm_sleep s) (bigtk s) (bigtk_wnm_sleep s) (eapol s)
    (pmksa_candidates s) (rekey_timer s) (preauth_timer s) (config_ctx s) (ssid s)
    (wpa_ptk_rekey s) (wpa_deny_ptk0_rekey s) (wpa_rsc_relaxation s) (beacon_prot s)
    (ext_key_id s) (use_ext_key_id s) (keyidx_active s) (force_kdk_derivation s) (secure_ltf s)
    (secure_rtt s) (prot_range_neg s) (mfp s) (ocv s) (sae_pwe s) (sae_pk s)
    (dot11RSNAConfigSATimeout s) (proto s) (pairwise_cipher s) (group_cipher s) (key_mgmt s) (mgmt_group_cipher s)
    (rsn_enabled s) (assoc_wpa_ie s) (assoc_wpa_ie_len s) (assoc_rsnxe s) (ap_wpa_ie s)
    (ap_rsn_ie s) (ap_rsnxe s) (ap_rsne_override s) (ap_rsne_override_2 s) (ap_rsnxe_override s)
    (xxkey s) (pmk_r0 s) (pmk_r0_len s) (pmk_r0_name s) (pmk_r1 s) (pmk_r1_len s) (pmk_r1_name s)
    (mobility_domain s) (r0kh_id s) (r1kh_id s) (ft_completed s) (ft_reassoc_completed s)
    (ft_protocol s) (assoc_resp_ies s) (dpp_z s) (dpp_pfs s) (rsn_override_support s)
    (rsn_override s) (handshake_failures s).

Definition sm_bssid (s : wpa_sm) : list Z := bssid (pm s).
Definition sm_own_addr (s : wpa_sm) : list Z := own_addr (pm s).
Definition pmk_of (s : wpa_sm) : list Z := sm_pmk (pm s).

(** enum wpa_states *)
Inductive wpa_states :=
| WPA_DISCONNECTED | WPA_INTERFACE_DISABLED | WPA_INACTIVE | WPA_SCANNING
| WPA_AUTHENTICATING | WPA_ASSOCIATING | WPA_ASSOCIATED | WPA_4WAY_HANDSHAKE
| WPA_GROUP_HANDSHAKE | WPA_COMPLETED.
#[export] Instance wpa_states_eq_dec : EqDecision wpa_states.
Proof. solve_decision. Defined.

(** ** Calls that leave the state machine *)
Record key_params := mk_key {
  k_alg : wpa_alg;
  k_addr : option (list Z);
  k_idx : Z;
  k_set_tx : Z;
  k_seq : option (list Z);
  k_key : option (list Z);
  k_flag : Z;
}.

Inductive event :=
| Malloc (n : Z) (ok : bool)
| RandomBytes (r : option (list Z))
| SetState (state : wpa_states)
| Deauth (reason : Z)
| Reconnect
| GetBssid (r : option (list Z))
| GetBss (found : bool)
| UpdateScanResults (res : Z)
| SetKey (k : key_params) (res : Z)
| EtherSend (dest : list Z) (eth_type : Z) (buf : list Z) (res : Z)
| CancelAuthTimeout
| SetProtection (addr : list Z) (protect_type : Z)
| EapolKey (len : Z) (res : list Z + Z)
| PortValid (valid : bool)
| EapSuccess (success : bool)
| EapFail (fail : bool)
| EapolCached
| LowerLayerSuccess
| TxEapolKey
| StorePtk (addr : list Z) (cipher lifetime : Z) (keys : wpa_ptk)
| KeyMgmtSetPmk (pmk : list Z)
| RekeyOffload (kek kck replay : list Z)
| TransitionDisable (bitmap : Z)
| FtPrepareAuthRequest
| PreauthDeinit.

(** The elements of a BSS that [wpa_get_beacon_ie] looks up: WPA, RSN, RSNX, RSNE
    override, RSNE override 2 and RSNX override. *)
Record bss_ies := mk_bss {
  bss_wpa : option (list Z);
  bss_rsn : option (list Z);
  bss_rsnx : option (list Z);
  bss_rsne_override : option (list Z);
  bss_rsne_override_2 : option (list Z);
  bss_rsnx_override : option (list Z);
}.

Class wpa_env := {
  env_malloc : list event → Z → bool;
  env_random : list event → option (list Z);
  env_set_key : list event → key_params → Z;
  env_ether_send : list event → list Z → list Z → Z;
  env_get_bssid : list event → option (list Z);
  env_get_state : list event → wpa_states;
  env_network_ctx : list event → option Z;
  env_bss : list event → option bss_ies;
  env_scan_results : list event → Z;
  env_eapol_key : list event → Z → list Z + Z;
  env_now : list event → Z;
  env_preauth_bssid : list event → list Z;
  eapol_version : Z;
}.

(** ** The monad *)
Record world := mk_world { sm : wpa_sm; tr : list event }.

Definition M (A : Type) : Type := world → outcome (A * world).
#[export] Instance M_ret : MRet M := λ A a w, Ret (a, w).
#[export] Instance M_bind : MBind M := λ A B f m w,
  match m w with Ret (a, w') => f a w' | Abort => Abort | Undef => Undef end.

Definition get_sm : M wpa_sm := λ w, Ret (sm w, w).
Definition upd (f : wpa_sm → wpa_sm) : M unit := λ w, Ret (tt, mk_world (f (sm w)) (tr w)).
Definition ask {A} (f : list event → A) : M A := λ w, Ret (f (tr w), w).
Definition emit (e : event) : M unit := λ w, Ret (tt, mk_world (sm w) (e :: tr w)).
Definition lift {A} (o : outcome A) : M A := λ w,
  match o with Ret a => Ret (a, w) | Abort => Abort | Undef => Undef end.
Definition acc {A} (o : option A) : M A := lift (access o).

(** An operation of the PMKSA cache. *)
Definition with_pm {A} (f : pmksa_sm → outcome (A * pmksa_sm)) : M A := λ w,
  match f (pm (sm w)) with
  | Ret (a, p) => Ret (a, mk_world ((sm w) <| pm := p |>) (tr w))
  | Abort => Abort
  | Undef => Undef
  end.

Definition EAPOL_KEY_TYPE_RSN := 2.
Definition EAPOL_KEY_TYPE_WPA := 254.
Definition IEEE802_1X_TYPE_EAPOL_START := 1.
Definition IEEE802_1X_TYPE_EAPOL_KEY := 3.
Definition ETH_P_EAPOL := 0x888e.
Definition WLAN_REASON_UNSPECIFIED := 1.
Definition WLAN_REASON_IE_IN_4WAY_DIFFERS := 17.
Definition RSN_OVERRIDE_NOT_USED := 0.
Definition RSN_OVERRIDE_RSNE := 1.
Definition RSN_OVERRIDE_RSNE_OVERRIDE := 2.
Definition RSN_OVERRIDE_RSNE_OVERRIDE_2 := 3.
Definition MLME_SETPROTECTION_PROTECT_TYPE_RX := 1.
Definition MLME_SETPROTECTION_PROTECT_TYPE_RX_TX := 3.
Definition null_rsc : list Z := zeros 8.
Definition broadcast_ether_addr : list Z := replicate 6 0xff.
Definition is_zero_ether_addr (a : list Z) : bool := bool_decide (a = zeros ETH_ALEN).

(** ** The layout of an EAPOL-Key frame

    struct ieee802_1x_hdr (4 octets), struct wpa_eapol_key (77 octets), the MIC, the
    length of the key data and the key data. *)
Definition sizeof_hdr := 4.
Definition sizeof_key := 77.
Definition off_type := 4.
Definition off_key_info := 5.
Definition off_key_length := 7.
Definition off_replay := 9.
Definition off_nonce := 17.
Definition off_iv := 49.
Definition off_rsc := 65.
Definition off_mic := 81.
Definition frame_key_info (b : list Z) : option Z := WPA_GET_BE16 b off_key_info.
Definition frame_key_length (b : list Z) : option (list Z) := slice b off_key_length 2.
Definition frame_replay (b : list Z) : option (list Z) := slice b off_replay WPA_REPLAY_COUNTER_LEN.
Definition frame_nonce (b : list Z) : option (list Z) := slice b off_nonce WPA_NONCE_LEN.
Definition frame_iv (b : list Z) : option (list Z) := slice b off_iv 16.
Definition frame_rsc (b : list Z) : option (list Z) := slice b off_rsc 8.

Section sm.
Context `{C : wpa_crypto} `{E : wpa_env}.

(** ** The calls *)
Definition os_malloc (n : Z) : M bool :=
  ok ← ask (λ t, env_malloc t n); _ ← emit (Malloc n ok); mret ok.
Definition wpa_sm_set_state (st : wpa_states) : M unit := emit (SetState st).
Definition wpa_sm_get_state : M wpa_states := ask env_get_state.
Definition wpa_sm_deauthenticate (reason : Z) : M unit := emit (Deauth reason).
Definition wpa_sm_reconnect : M unit := emit Reconnect.
Definition wpa_sm_get_network_ctx : M (option Z) := ask env_network_ctx.
Definition random_get_bytes : M (option (list Z)) :=
  r ← ask env_random; _ ← emit (RandomBytes r); mret r.
Definition wpa_sm_get_bssid : M (option (list Z)) :=
  r ← ask env_get_bssid; _ ← emit (GetBssid r); mret r.
Definition wpa_sm_set_key (k : key_params) : M Z :=
  res ← ask (λ t, env_set_key t k); _ ← emit (SetKey k res); mret res.
Definition wpa_sm_ether_send (dest : list Z) (eth_type : Z) (buf : list Z) : M Z :=
  res ← ask (λ t, env_ether_send t dest buf);
  _ ← emit (EtherSend dest eth_type buf res); mret res.
Definition eapol_sm_get_key (len : Z) : M (list Z + Z) :=
  res ← ask (λ t, env_eapol_key t len); _ ← emit (EapolKey len res); mret res.

(** [wpa_alloc_eapol] of wpa_supplicant/wpas_glue.c, without data *)
Definition wpa_alloc_eapol (ty data_len : Z) : M (option (list Z)) :=
  let data_len := u16 data_len in
  ok ← os_malloc (sizeof_hdr + data_len);
  mret (if ok : bool then Some ([eapol_version; ty] ++ be16_bytes data_len ++ zeros data_len)
        else None).

(** ** Elements of the AP *)
Definition set_element (set : option (list Z) → wpa_sm → wpa_sm) (ie : option (list Z)) : M Z :=
  match ie with
  | None | Some [] => _ ← upd (set None); mret 0
  | Some ie =>
      ok ← os_malloc (blen ie);
      if ok : bool then _ ← upd (set (Some ie)); mret 0
      else _ ← upd (set None); mret (-1)
  end.
Definition wpa_sm_set_ap_wpa_ie := set_element (λ ie s, s <| ap_wpa_ie := ie |>).
Definition wpa_sm_set_ap_rsn_ie := set_element (λ ie s, s <| ap_rsn_ie := ie |>).
Definition wpa_sm_set_ap_rsnxe := set_element (λ ie s, s <| ap_rsnxe := ie |>).
Definition wpa_sm_set_ap_rsne_override := set_element (λ ie s, s <| ap_rsne_override := ie |>).
Definition wpa_sm_set_ap_rsne_override_2 :=
  set_element (λ ie s, s <| ap_rsne_override_2 := ie |>).
Definition wpa_sm_set_ap_rsnxe_override := set_element (λ ie s, s <| ap_rsnxe_override := ie |>).
Definition wpa_sm_set_assoc_rsnxe := set_element (λ ie s, s <| assoc_rsnxe := ie |>).

(** The length stays when the allocation fails. *)
Definition wpa_sm_set_assoc_wpa_ie (ie : option (list Z)) : M Z :=
  match ie with
  | None | Some [] => _ ← upd (λ s, s <| assoc_wpa_ie := None |> <| assoc_wpa_ie_len := 0 |>); mret 0
  | Some ie =>
      ok ← os_malloc (blen ie);
      if ok : bool
      then _ ← upd (λ s, s <| assoc_wpa_ie := Some ie |> <| assoc_wpa_ie_len := blen ie |>); mret 0
      else _ ← upd (λ s, s <| assoc_wpa_ie := None |>); mret (-1)
  end.

(** [wpa_get_beacon_ie] and [wpa_supplicant_get_beacon_ie] of wpas_glue.c; the search of
    the BSS table is the environment's. *)
Definition wpa_get_beacon_ie : M Z :=
  curr ← ask env_bss;
  _ ← emit (GetBss (bool_decide (is_Some curr)));
  match curr with
  | None => mret (-1)
  | Some bss =>
      r1 ← wpa_sm_set_ap_wpa_ie (bss_wpa bss);
      r2 ← wpa_sm_set_ap_rsn_ie (bss_rsn bss);
      r3 ← wpa_sm_set_ap_rsnxe (bss_rsnx bss);
      r4 ← wpa_sm_set_ap_rsne_override (bss_rsne_override bss);
      r5 ← wpa_sm_set_ap_rsne_override_2 (bss_rsne_override_2 bss);
      r6 ← wpa_sm_set_ap_rsnxe_override (bss_rsnx_override bss);
      mret (if bool_decide (r1 = 0 ∧ r2 = 0 ∧ r3 = 0 ∧ r4 = 0 ∧ r5 = 0 ∧ r6 = 0) then 0 else -1)
  end.
Definition wpa_sm_get_beacon_ie : M Z :=
  r ← wpa_get_beacon_ie;
  if bool_decide (r = 0) then mret 0
  else
    res ← ask env_scan_results;
    _ ← emit (UpdateScanResults res);
    if bool_decide (res < 0) then mret (-1) else wpa_get_beacon_ie.

Definition wpa_sm_get_ap_rsne (s : wpa_sm) : option (list Z) :=
  if bool_decide (rsn_override s = RSN_OVERRIDE_RSNE_OVERRIDE) then ap_rsne_override s
  else if bool_decide (rsn_override s = RSN_OVERRIDE_RSNE_OVERRIDE_2) then ap_rsne_override_2 s
  else ap_rsn_ie s.
Definition wpa_sm_rsn_overriding_supported (s : wpa_sm) : bool :=
  rsn_override_support s && bool_decide (is_Some (wpa_sm_get_ap_rsne s)).

(** The capabilities of an RSNXE ([ieee802_11_rsnx_capab] of ieee802_11_common.c) *)
Fixpoint rsnx_capabs (flen : nat) (b : list Z) (o i : Z) : option Z :=
  match flen with
  | O => Some 0
  | S flen =>
      v ← rd b (o + i);
      rest ← rsnx_capabs flen b o (i + 1);
      Some (Z.lor (u32 (Z.shiftl v (8 * i))) rest)
  end.
Definition ieee802_11_rsnx_capab_len (b : list Z) (o len capab : Z) : option bool :=
  if bool_decide (len = 0) then Some false
  else
    f ← rd b o;
    let flen := Z.land f 0x0f + 1 in
    if bool_decide (len < flen) then Some false
    else
      let flen := if bool_decide (4 < flen) then 4 else flen in
      capabs ← rsnx_capabs (Z.to_nat flen) b o 0;
      Some (any_of capabs (BIT capab)).
Definition ieee802_11_rsnx_capab (rsnxe : option (list Z)) (capab : Z) : option bool :=
  match rsnxe with
  | None => Some false
  | Some b =>
      id ← rd b 0;
      l ← rd b 1;
      if bool_decide (id = WLAN_EID_VENDOR_SPECIFIC) && bool_decide (4 + 1 ≤ l)
      then ieee802_11_rsnx_capab_len b (2 + 4) (l - 4) capab
      else ieee802_11_rsnx_capab_len b 2 l capab
  end.

(** ** Sending EAPOL-Key frames *)

(** [key_mic] is whether the caller has a MIC written, at the MIC field of [msg]. *)
Definition wpa_eapol_key_send (keys : wpa_ptk) (ver : Z) (dest : list Z) (eth_type : Z)
    (msg : list Z) (key_mic : bool) : M Z :=
  s ← get_sm;
  let mic_len := wpa_mic_len (key_mgmt s) (blen (pmk_of s)) in
  dest ← (if is_zero_ether_addr dest && is_zero_ether_addr (sm_bssid s) then
            r ← wpa_sm_get_bssid;
            match r with
            | None => mret dest
            | Some b => _ ← upd (λ s, s <| pm ::= λ p, p <| bssid := b |> |>); mret b
            end
          else mret dest);
  if bool_decide (mic_len ≠ 0) then
    if key_mic && bool_decide (kck_len keys = 0) then mret (-1)
    else
      k ← acc (slice (kck keys) 0 (kck_len keys));
      msg ← (if key_mic then
               mic ← lift (wpa_eapol_key_mic k (key_mgmt s) ver msg);
               match mic with
               | None => mret None
               | Some mic => msg ← acc (blit msg off_mic mic); mret (Some msg)
               end
             else mret (Some msg));
      match msg with
      | None => mret (-1)
      | Some msg =>
          ret ← wpa_sm_ether_send dest eth_type msg;
          _ ← emit TxEapolKey;
          mret ret
      end
  else mret (-1).

Definition is_rsn (s : wpa_sm) : bool :=
  bool_decide (proto s = WPA_PROTO_RSN) || bool_decide (proto s = WPA_PROTO_OSEN).
Definition reply_type (s : wpa_sm) : Z := if is_rsn s then EAPOL_KEY_TYPE_RSN else EAPOL_KEY_TYPE_WPA.

(** The fields that every reply to the frame [b] fills in. *)
Definition fill_reply (s : wpa_sm) (b : list Z) (key_info : Z) (msg : list Z) : option (list Z) :=
  msg ← wr msg off_type (reply_type s);
  msg ← WPA_PUT_BE16 msg off_key_info key_info;
  l ← (if is_rsn s then Some (be16_bytes 0) else frame_key_length b);
  msg ← blit msg off_key_length l;
  r ← frame_replay b;
  blit msg off_replay r.

Definition mic_or_encr (mic_len : Z) : Z :=
  if bool_decide (mic_len ≠ 0) then WPA_KEY_INFO_MIC else WPA_KEY_INFO_ENCR_KEY_DATA.

Definition reply_mic_len (s : wpa_sm) : Z := wpa_mic_len (key_mgmt s) (blen (pmk_of s)).

(** The RSNE of message 2/4 for FT: with the PMKR1Name, and the elements of the
    (Re)Association Response.  [None] is a return of -1. *)
Definition ft_2_of_4_ie (wpa_ie : list Z) : M (option (list Z)) :=
  s ← get_sm;
  let resp := default [] (assoc_resp_ies s) in
  let room := 2 + 2 + PMKID_LEN + blen resp in
  ok ← os_malloc (blen wpa_ie + room);
  if negb ok then mret None
  else
    '(res, buf, len) ← acc (wpa_insert_pmkid (wpa_ie ++ zeros room) (blen wpa_ie) (pmk_r1_name s));
    if bool_decide (res < 0) then mret None
    else
      buf ← acc (blit buf len resp);
      ie ← acc (slice buf 0 (len + blen resp));
      mret (Some ie).

(** The RSN Selection element after the elements of message 2/4. *)
Definition rsn_selection (s : wpa_sm) : option Z :=
  if bool_decide (rsn_override s = RSN_OVERRIDE_RSNE) then Some 0
  else if bool_decide (rsn_override s = RSN_OVERRIDE_RSNE_OVERRIDE) then Some 1
  else if bool_decide (rsn_override s = RSN_OVERRIDE_RSNE_OVERRIDE_2) then Some 2
  else None.
Definition add_rsn_selection (wpa_ie : list Z) : M (option (list Z)) :=
  s ← get_sm;
  if bool_decide (rsn_override s = RSN_OVERRIDE_NOT_USED) then mret (Some wpa_ie)
  else
    ok ← os_malloc (blen wpa_ie + 2 + 4 + 1);
    if negb ok then mret None
    else
      mret (v ← rsn_selection s;
            Some (wpa_ie ++ [WLAN_EID_VENDOR_SPECIFIC; 4 + 1] ++
                  be32_bytes RSN_SELECTION_IE_VENDOR_TYPE ++ [v])).

Definition wpa_supplicant_send_2_of_4 (dst b : list Z) (ver : Z) (nonce : list Z)
    (wpa_ie : option (list Z)) (keys : wpa_ptk) : M Z :=
  match wpa_ie with
  | None => mret (-1)
  | Some wpa_ie =>
      s ← get_sm;
      ie ← (if wpa_key_mgmt_ft (key_mgmt s) then ft_2_of_4_ie wpa_ie else mret (Some wpa_ie));
      ie ← match ie with None => mret None | Some ie => add_rsn_selection ie end;
      match ie with
      | None => mret (-1)
      | Some ie =>
          let mic_len := reply_mic_len s in
          let hdrlen := sizeof_key + mic_len + 2 in
          rbuf ← wpa_alloc_eapol IEEE802_1X_TYPE_EAPOL_KEY (hdrlen + blen ie);
          match rbuf with
          | None => mret (-1)
          | Some msg =>
              let key_info := Z.lor (Z.lor ver WPA_KEY_INFO_KEY_TYPE) (mic_or_encr mic_len) in
              msg ← acc (fill_reply s b key_info msg);
              msg ← acc (WPA_PUT_BE16 msg (off_mic + mic_len) (u16 (blen ie)));
              msg ← acc (blit msg (off_mic + mic_len + 2) ie);
              msg ← acc (blit msg off_nonce nonce);
              wpa_eapol_key_send keys ver dst ETH_P_EAPOL msg true
          end
      end
  end.

(** Messages 4/4 and 2/2 have no key data. *)
Definition send_empty_reply (dst b : list Z) (ver key_info : Z) (keys : wpa_ptk) : M Z :=
  s ← get_sm;
  let mic_len := reply_mic_len s in
  rbuf ← wpa_alloc_eapol IEEE802_1X_TYPE_EAPOL_KEY (sizeof_key + mic_len + 2);
  match rbuf with
  | None => mret (-1)
  | Some msg =>
      msg ← acc (fill_reply s b (Z.lor key_info (mic_or_encr mic_len)) msg);
      msg ← acc (WPA_PUT_BE16 msg (off_mic + mic_len) 0);
      wpa_eapol_key_send keys ver dst ETH_P_EAPOL msg true
  end.

Definition wpa_supplicant_send_4_of_4 (dst b : list Z) (ver key_info : Z) (keys : wpa_ptk) : M Z :=
  let key_info := Z.land key_info WPA_KEY_INFO_SECURE in
  send_empty_reply dst b ver (Z.lor key_info (Z.lor ver WPA_KEY_INFO_KEY_TYPE)) keys.

Definition wpa_supplicant_send_2_of_2 (b : list Z) (ver key_info : Z) : M Z :=
  s ← get_sm;
  let key_info := Z.land key_info WPA_KEY_INFO_KEY_INDEX_MASK in
  send_empty_reply (sm_bssid s) b ver (Z.lor key_info (Z.lor ver WPA_KEY_INFO_SECURE)) (ptk s).

(** ** Requests *)
Definition key_request_ver (s : wpa_sm) : Z :=
  if wpa_use_akm_defined (key_mgmt s) then WPA_KEY_INFO_TYPE_AKM_DEFINED
  else if wpa_key_mgmt_ft (key_mgmt s) || wpa_key_mgmt_sha256 (key_mgmt s)
  then WPA_KEY_INFO_TYPE_AES_128_CMAC
  else if bool_decide (pairwise_cipher s ≠ WPA_CIPHER_TKIP) then WPA_KEY_INFO_TYPE_HMAC_SHA1_AES
  else WPA_KEY_INFO_TYPE_HMAC_MD5_RC4.

Definition key_request_info (s : wpa_sm) (ver : Z) (error pairwise : bool) : Z :=
  or_if pairwise WPA_KEY_INFO_KEY_TYPE
    (or_if error WPA_KEY_INFO_ERROR
      (or_if (ptk_set s && bool_decide (reply_mic_len s ≠ 0)) WPA_KEY_INFO_MIC
        (or_if (ptk_set s) WPA_KEY_INFO_SECURE (Z.lor WPA_KEY_INFO_REQUEST ver)))).

Definition deny_ptk0_rekey : M bool :=
  s ← get_sm;
  if wpa_deny_ptk0_rekey s && negb (use_ext_key_id s) then
    st ← wpa_sm_get_state; mret (bool_decide (st = WPA_COMPLETED))
  else mret false.

Definition wpa_sm_key_request (error pairwise : bool) : M unit :=
  deny ← (if pairwise : bool then deny_ptk0_rekey else mret false);
  if deny : bool then wpa_sm_reconnect
  else
    s ← get_sm;
    let ver := key_request_ver s in
    r ← wpa_sm_get_bssid;
    match r with
    | None => mret tt
    | Some b =>
        let mic_len := reply_mic_len s in
        rbuf ← wpa_alloc_eapol IEEE802_1X_TYPE_EAPOL_KEY (sizeof_key + mic_len + 2);
        match rbuf with
        | None => mret tt
        | Some msg =>
            let key_info := key_request_info s ver error pairwise in
            msg ← acc (wr msg off_type (reply_type s));
            msg ← acc (WPA_PUT_BE16 msg off_key_info key_info);
            msg ← acc (WPA_PUT_BE16 msg off_key_length 0);
            msg ← acc (blit msg off_replay (request_counter s));
            _ ← upd (λ s, s <| request_counter ::= inc_byte_array |>);
            msg ← acc (WPA_PUT_BE16 msg (off_mic + mic_len) 0);
            _ ← wpa_eapol_key_send (ptk s) ver b ETH_P_EAPOL msg (any_of key_info WPA_KEY_INFO_MIC);
            mret tt
        end
    end.

(** ** The PMK *)
Definition pmkid_hmac (alg : hash_alg) (k d : list Z) : bool * list Z :=
  match match alg with
        | SHA1 => hmac_sha1 k d | SHA256 => hmac_sha256 k d | SHA384 => hmac_sha384 k d
        end with
  | Some h => (true, h)
  | None => (false, hash_residue k d)
  end.

(** [pmksa_cache_add] as the state machine calls it: its own address and network, and no
    FILS cache identifier.  The answer to its allocation is asked for before. *)
Definition pmksa_add (pmk' : list Z) (pmkid' kck' : option (list Z)) (aa' : list Z) : M (option nat) :=
  s ← get_sm;
  ok ← os_malloc (blen pmk');
  now ← ask env_now;
  with_pm (pmksa_cache_add pmkid_hmac ok now pmk' pmkid' kck' aa' (sm_own_addr s) (config_ctx s)
             (key_mgmt s) None).

Definition set_cur_pmksa (c : option nat) : M unit :=
  upd (λ s, s <| pm ::= λ p, p <| cur_pmksa := c |> |>).
Definition set_pmk (k : list Z) : M unit := upd (λ s, s <| pm ::= put_pmk k |>).

Definition cur_entry (s : wpa_sm) : option (option rsn_pmksa_cache_entry) :=
  match cur_pmksa (pm s) with
  | None => Some None
  | Some id => e ← deref (pm s) id; Some (Some e)
  end.

Definition wpa_sm_set_pmk (k : list Z) (pmkid' bssid' : option (list Z)) : M unit :=
  _ ← acc (if bool_decide (blen k ≤ PMK_LEN_MAX) then Some tt else None);
  _ ← set_pmk k;
  _ ← upd (λ s, s <| xxkey := k |>);
  match bssid' with
  | None => mret tt
  | Some a => r ← pmksa_add k pmkid' None a; set_cur_pmksa r
  end.

Definition wpa_sm_set_pmk_from_pmksa : M unit :=
  s ← get_sm;
  e ← acc (cur_entry s);
  match e with Some e => set_pmk (pmk e) | None => upd (λ s, s <| pm ::= clear_pmk |>) end.

Definition wpa_supplicant_key_mgmt_set_pmk : M unit :=
  s ← get_sm;
  emit (KeyMgmtSetPmk (if bool_decide (key_mgmt s = WPA_KEY_MGMT_FT_IEEE8021X)
                       then xxkey s else pmk_of s)).

(** The first part of [wpa_supplicant_get_pmk]: the entry of the PMKID of message 1/4.
    The result is [abort_cached]. *)
Definition find_pmksa (src_addr : list Z) (pmkid' : option (list Z)) : M bool :=
  s ← get_sm;
  match pmkid', cur_pmksa (pm s) with
  | Some p, None =>
      let c := e_id <$> pmksa_cache_get (pm s) (Some src_addr) (Some p) None 0 in
      _ ← set_cur_pmksa c;
      mret (bool_decide (c = None))
  | _, _ => mret false
  end.

Definition use_cached_pmk : M unit :=
  _ ← wpa_sm_set_pmk_from_pmksa;
  _ ← emit EapolCached;
  _ ← upd (λ s, s <| xxkey := [] |>);
  s ← get_sm;
  if bool_decide (key_mgmt s = WPA_KEY_MGMT_FT_SAE) && bool_decide (blen (pmk_of s) = PMK_LEN)
  then upd (λ s, s <| xxkey := pmk_of s |>)
  else mret tt.

(** The XXKey from the MSK, for the caches of FT. *)
Definition set_xxkey_from_msk (src_addr msk : list Z) : M unit :=
  s ← get_sm;
  k ← acc (if wpa_key_mgmt_sha384 (key_mgmt s) then slice msk 0 SHA384_MAC_LEN
           else slice msk PMK_LEN PMK_LEN);
  _ ← upd (λ s, s <| xxkey := k |>);
  if bool_decide (proto s = WPA_PROTO_RSN) && wpa_key_mgmt_ft (key_mgmt s) then
    sa ← pmksa_add k None None src_addr;
    s ← get_sm;
    if bool_decide (cur_pmksa (pm s) = None) then set_cur_pmksa sa else mret tt
  else mret tt.

(** The branch with a PMK [k] from the EAP method, which was copied to [sm->pmk] before;
    the result is whether to continue. *)
Definition use_msk (src_addr : list Z) (pmkid' : option (list Z)) (abort : bool) (k : list Z) :
    M (option bool) :=
  _ ← upd (λ s, s <| pm ::= set_pmk_len (length k) |>);
  _ ← wpa_supplicant_key_mgmt_set_pmk;
  s ← get_sm;
  sa ← (if bool_decide (proto s = WPA_PROTO_RSN) && negb (wpa_key_mgmt_suite_b (key_mgmt s)) &&
           negb (wpa_key_mgmt_ft (key_mgmt s))
        then pmksa_add (pmk_of s) None None src_addr else mret None);
  s ← get_sm;
  let known := match pmkid' with
               | Some p => bool_decide (is_Some (pmksa_cache_get (pm s) (Some src_addr) (Some p) None 0))
               | None => false
               end in
  let no_cur := bool_decide (cur_pmksa (pm s) = None) in
  if no_cur && known then
    _ ← set_cur_pmksa sa; mret (Some false)
  else if bool_decide (is_Some sa) && no_cur && bool_decide (is_Some pmkid') then mret None
  else
    _ ← (if no_cur then set_cur_pmksa sa else mret tt);
    mret (Some abort).

(** 0, -1 or -2 *)
Definition finish_get_pmk (abort : bool) : M Z :=
  s ← get_sm;
  let akm := key_mgmt s in
  if abort && wpa_key_mgmt_wpa_ieee8021x akm && negb (wpa_key_mgmt_suite_b akm) &&
     negb (wpa_key_mgmt_ft akm) && bool_decide (akm ≠ WPA_KEY_MGMT_OSEN)
  then
    buf ← wpa_alloc_eapol IEEE802_1X_TYPE_EAPOL_START 0;
    match buf with
    | None => mret (-1)
    | Some msg =>
        _ ← emit (EapFail true);
        _ ← emit (EapFail false);
        _ ← wpa_sm_ether_send (sm_bssid s) ETH_P_EAPOL msg;
        mret (-2)
    end
  else mret 0.

(** The PMK of [eapol_sm_get_key], with 16 octets for EAP-LEAP. *)
Definition get_msk_pmk (s : wpa_sm) : M (option (list Z)) :=
  let pmk_len := if wpa_key_mgmt_sha384 (key_mgmt s) then PMK_LEN_SUITE_B_192 else PMK_LEN in
  r ← eapol_sm_get_key pmk_len;
  match r with
  | inl k => mret (Some k)
  | inr _ =>
      if bool_decide (pmk_len = PMK_LEN) then
        r ← eapol_sm_get_key 16;
        mret match r with inl k => Some k | inr _ => None end
      else mret None
  end.

Definition no_msk (abort : bool) : M (option bool) :=
  s ← get_sm;
  if wpa_key_mgmt_ft (key_mgmt s) && ft_protocol s then mret (Some abort)
  else if bool_decide (is_Some (cur_pmksa (pm s))) then _ ← set_cur_pmksa None; mret (Some true)
  else if negb abort then mret None
  else mret (Some abort).

Definition get_eap_pmk (src_addr : list Z) (pmkid' : option (list Z)) (abort : bool) :
    M (option bool) :=
  s ← get_sm;
  r ← get_msk_pmk s;
  match r with
  | Some k =>
      _ ← upd (λ s, s <| pm ::= write_pmk k |>);
      m ← eapol_sm_get_key (2 * PMK_LEN);
      _ ← match m with inl msk => set_xxkey_from_msk src_addr msk | inr _ => mret tt end;
      use_msk src_addr pmkid' abort k
  | None => no_msk abort
  end.

Definition wpa_supplicant_get_pmk (src_addr : list Z) (pmkid' : option (list Z)) : M Z :=
  abort ← find_pmksa src_addr pmkid';
  s ← get_sm;
  e ← (if bool_decide (pmkid' = None) then mret None else acc (cur_entry s));
  let cached := match pmkid', e with
                | Some p, Some e => bool_decide (pmkid e = p)
                | _, _ => false
                end in
  if cached then _ ← use_cached_pmk; finish_get_pmk abort
  else if wpa_key_mgmt_wpa_ieee8021x (key_mgmt s) && eapol s then
    r ← get_eap_pmk src_addr pmkid' abort;
    match r with None => mret (-1) | Some abort => finish_get_pmk abort end
  else finish_get_pmk abort.

(** ** The PTK *)
Definition wanted_kdk_len (s : wpa_sm) : option Z :=
  if force_kdk_derivation s then Some WPA_KDK_MAX_LEN
  else if secure_ltf s then
    c ← ieee802_11_rsnx_capab (ap_rsnxe s) WLAN_RSNX_CAPAB_SECURE_LTF;
    Some (if c : bool then WPA_KDK_MAX_LEN else 0)
  else Some 0.

(** The octets at the start of an array, and the rest of it as it was. *)
Definition put_array (a : list Z) (octets : option (list Z)) : option (list Z) :=
  match octets with Some o => blit a 0 o | None => Some a end.

Definition wpa_derive_ptk_ft (anonce' : list Z) (keys : wpa_ptk) : M (Z * wpa_ptk) :=
  s ← get_sm;
  let use_sha384 := wpa_key_mgmt_sha384 (key_mgmt s) in
  mpmk ← (if bool_decide (xxkey s = []) then e ← acc (cur_entry s); mret (pmk <$> e)
          else mret (Some (xxkey s)));
  match mpmk with
  | None => mret (-1, keys)
  | Some mpmk =>
      let len := if use_sha384 then SHA384_MAC_LEN else PMK_LEN in
      _ ← upd (λ s, s <| pmk_r0_len := len |>);
      '(r0, name) ← lift (wpa_derive_pmk_r0 mpmk (ssid s) (mobility_domain s) (r0kh_id s)
                            (sm_own_addr s) use_sha384);
      a ← acc (put_array (pmk_r0 s) r0);
      _ ← upd (λ s, s <| pmk_r0 := a |> <| pmk_r0_name ::= λ n, default n name |>);
      if bool_decide (name = None) then mret (-1, keys)
      else
        s ← get_sm;
        _ ← upd (λ s, s <| pmk_r1_len := len |>);
        r0 ← acc (slice (pmk_r0 s) 0 (pmk_r0_len s));
        '(r1, name) ← lift (wpa_derive_pmk_r1 r0 (pmk_r0_name s) (r1kh_id s) (sm_own_addr s));
        a ← acc (put_array (pmk_r1 s) r1);
        _ ← upd (λ s, s <| pmk_r1 := a |> <| pmk_r1_name ::= λ n, default n name |>);
        if bool_decide (name = None) then mret (-1, keys)
        else
          s ← get_sm;
          kdk ← acc (wanted_kdk_len s);
          r1 ← acc (slice (pmk_r1 s) 0 (pmk_r1_len s));
          lift (wpa_pmk_r1_to_ptk r1 (snonce s) anonce' (sm_own_addr s) (sm_bssid s)
                  (pmk_r1_name s) keys (key_mgmt s) (pairwise_cipher s) kdk)
  end.

Definition wpa_derive_ptk (anonce' : list Z) (keys : wpa_ptk) : M (Z * wpa_ptk) :=
  s ← get_sm;
  if wpa_key_mgmt_ft (key_mgmt s) then wpa_derive_ptk_ft anonce' keys
  else
    let z := if bool_decide (key_mgmt s = WPA_KEY_MGMT_DPP) then default [] (dpp_z s) else [] in
    kdk ← acc (wanted_kdk_len s);
    lift (wpa_pmk_to_ptk (pmk_of s) pairwise_key_expansion (sm_own_addr s) (sm_bssid s)
            (snonce s) anonce' keys (key_mgmt s) (pairwise_cipher s) z kdk).
End sm.
