(* ===== verification/WpaHandshake.v ===== *)
(** The 4-way and the group key handshake (src/rsn_supp/wpa.c)

    Every handler of EAPOL-Key frames, from [wpa_sm_rx_eapol] down.  A frame is the
    buffer [b] that holds the copy of its octets; the key data that a handler gets is
    [kd], and a member of [wpa_eapol_ie_parse] is an offset into it. *)
From S2P Require Import Prelude Bytes Defs Suites RsnIe Kde PmksaCache WpaKey WpaSm.

Definition KEY_FLAG_MODIFY := BIT 0.
Definition KEY_FLAG_DEFAULT := BIT 1.
Definition KEY_FLAG_RX := BIT 2.
Definition KEY_FLAG_TX := BIT 3.
Definition KEY_FLAG_GROUP := BIT 4.
Definition KEY_FLAG_PAIRWISE := BIT 5.
Definition KEY_FLAG_RX_TX := Z.lor KEY_FLAG_RX KEY_FLAG_TX.
Definition KEY_FLAG_GROUP_RX := Z.lor KEY_FLAG_GROUP KEY_FLAG_RX.
Definition KEY_FLAG_GROUP_RX_TX_DEFAULT :=
  Z.lor (Z.lor KEY_FLAG_GROUP KEY_FLAG_RX_TX) KEY_FLAG_DEFAULT.
Definition KEY_FLAG_PAIRWISE_RX_TX_MODIFY :=
  Z.lor (Z.lor KEY_FLAG_PAIRWISE KEY_FLAG_RX_TX) KEY_FLAG_MODIFY.

Definition WPA_IGTK_KDE_PREFIX_LEN := 2 + 6.
Definition WPA_BIGTK_KDE_PREFIX_LEN := 2 + 6.
Definition DPP_VERSION := 2.
Definition DPP_KDE_PFS_ALLOWED := BIT 0.
Definition DPP_KDE_PFS_REQUIRED := BIT 1.

(** struct wpa_gtk_data; [gd_gtk] has the octets of the array, [gd_len] is [gtk_len]. *)
Record wpa_gtk_data := mk_gd {
  gd_alg : wpa_alg;
  gd_tx : bool;
  gd_key_rsc_len : Z;
  gd_keyidx : Z;
  gd_gtk : list Z;
  gd_len : Z;
}.
#[export] Instance eta_gd : Eta wpa_gtk_data := λ g,
  mk_gd (gd_alg g) (gd_tx g) (gd_key_rsc_len g) (gd_keyidx g) (gd_gtk g) (gd_len g).
Definition gd_zero : wpa_gtk_data := mk_gd WPA_ALG_NONE false 0 0 (zeros 32) 0.

Section handshake.
Context `{C : wpa_crypto} `{E : wpa_env}.

(** ** Installing keys *)

(** A key without octets or sequence counter. *)
Definition wpa_supplicant_install_ptk (b : list Z) (key_flag : Z) : M Z :=
  s ← get_sm;
  let p := ptk s in
  if installed p then mret 0
  else if bool_decide (pairwise_cipher s = WPA_CIPHER_NONE) then mret 0
  else if negb (wpa_cipher_valid_pairwise (pairwise_cipher s)) then mret (-1)
  else
    let alg := wpa_cipher_to_alg (pairwise_cipher s) in
    let keylen := wpa_cipher_key_len (pairwise_cipher s) in
    if bool_decide (keylen ≤ 0) || bool_decide (keylen ≠ tk_len p) then mret (-1)
    else
      let rsclen := wpa_cipher_rsc_len (pairwise_cipher s) in
      rsc ← acc (if is_rsn s then Some null_rsc else frame_rsc b);
      seq ← acc (slice rsc 0 rsclen);
      key ← acc (slice (tk p) 0 keylen);
      res ← wpa_sm_set_key (mk_key alg (Some (sm_bssid s)) (keyidx_active s) 1 (Some seq)
                              (Some key) (Z.lor KEY_FLAG_PAIRWISE key_flag));
      if bool_decide (res < 0) then mret (-1)
      else
        _ ← emit (StorePtk (sm_bssid s) (pairwise_cipher s) (dot11RSNAConfigPMKLifetime (pm s)) p);
        _ ← upd (λ s, s <| ptk ::= λ p, p <| tk := zeros WPA_TK_MAX_LEN |> <| tk_len := 0 |>
                                          <| installed := true |> |>);
        _ ← (if bool_decide (wpa_ptk_rekey s ≠ 0)
             then upd (λ s, s <| rekey_timer := Some (wpa_ptk_rekey s) |>) else mret tt);
        mret 0.

Definition wpa_supplicant_activate_ptk : M Z :=
  s ← get_sm;
  res ← wpa_sm_set_key (mk_key WPA_ALG_NONE (Some (sm_bssid s)) (keyidx_active s) 0 None None
                          KEY_FLAG_PAIRWISE_RX_TX_MODIFY);
  mret (if bool_decide (res < 0) then -1 else 0).

(** The length of the RSC and the algorithm, or a failure. *)
Definition wpa_supplicant_check_group_cipher (cipher keylen maxkeylen : Z) : option (Z * wpa_alg) :=
  let alg := wpa_cipher_to_alg cipher in
  if bool_decide (alg = WPA_ALG_NONE) then None
  else
    let klen := wpa_cipher_key_len cipher in
    if bool_decide (keylen ≠ klen) || bool_decide (maxkeylen < klen) then None
    else Some (wpa_cipher_rsc_len cipher, alg).

(** The GTK with the Michael MIC keys swapped. *)
Definition swap_mic_keys (k : list Z) : option (list Z) :=
  a ← slice k 0 16; b ← slice k 16 8; c ← slice k 24 8; Some (a ++ c ++ b).

Definition wpa_supplicant_install_gtk (gd : wpa_gtk_data) (key_rsc : list Z) (wnm_sleep : bool) :
    M Z :=
  s ← get_sm;
  key ← acc (slice (gd_gtk gd) 0 (gd_len gd));
  if bool_decide (gtk s = key) || bool_decide (gtk_wnm_sleep s = key) then mret 0
  else
    buf ← acc (if bool_decide (group_cipher s = WPA_CIPHER_TKIP) then swap_mic_keys (gd_gtk gd)
               else Some (gd_gtk gd));
    k ← acc (slice buf 0 (gd_len gd));
    seq ← acc (slice key_rsc 0 (gd_key_rsc_len gd));
    res ← (if bool_decide (pairwise_cipher s = WPA_CIPHER_NONE)
           then wpa_sm_set_key (mk_key (gd_alg gd) None (gd_keyidx gd) 1 (Some seq) (Some k)
                                  KEY_FLAG_GROUP_RX_TX_DEFAULT)
           else wpa_sm_set_key (mk_key (gd_alg gd) (Some broadcast_ether_addr) (gd_keyidx gd)
                                  (Z.b2z (gd_tx gd)) (Some seq) (Some k) KEY_FLAG_GROUP_RX));
    if bool_decide (res < 0) then mret (-1)
    else
      _ ← upd (λ s, if wnm_sleep then s <| gtk_wnm_sleep := key |> else s <| gtk := key |>);
      mret 0.

Definition wpa_supplicant_gtk_tx_bit_workaround (s : wpa_sm) (tx : bool) : bool :=
  if tx && bool_decide (pairwise_cipher s ≠ WPA_CIPHER_NONE) then false else tx.

Definition wpa_supplicant_rsc_relaxation (s : wpa_sm) (rsc : list Z) : option bool :=
  if negb (wpa_rsc_relaxation s) then Some false
  else
    let rsclen := wpa_cipher_rsc_len (group_cipher s) in
    r0 ← rd rsc 0; r5 ← rd rsc 5; r6 ← rd rsc 6; r7 ← rd rsc 7;
    Some (bool_decide (rsclen = 6) &&
          ((bool_decide (r5 ≠ 0) && bool_decide (r0 = 0)) || bool_decide (r6 ≠ 0) ||
           bool_decide (r7 ≠ 0))).

Definition gtk_rsc (b : list Z) : M (list Z) :=
  s ← get_sm;
  rsc ← acc (frame_rsc b);
  relax ← acc (wpa_supplicant_rsc_relaxation s rsc);
  mret (if relax : bool then null_rsc else rsc).

(** [gtk] with [gtk_len] octets is the GTK KDE. *)
Definition wpa_supplicant_pairwise_gtk (b : list Z) (g : list Z) : M Z :=
  s ← get_sm;
  let gtk_len := blen g in
  if bool_decide (gtk_len < 2) || bool_decide (32 < gtk_len - 2) then mret (-1)
  else
    g0 ← acc (rd g 0);
    let gtk_len := gtk_len - 2 in
    k ← acc (slice g 2 gtk_len);
    arr ← acc (blit (zeros 32) 0 k);
    rsc ← gtk_rsc b;
    if bool_decide (group_cipher s ≠ WPA_CIPHER_GTK_NOT_USED) then
      match wpa_supplicant_check_group_cipher (group_cipher s) gtk_len gtk_len with
      | None => mret (-1)
      | Some (rsclen, alg) =>
          r ← wpa_supplicant_install_gtk
                (mk_gd alg (wpa_supplicant_gtk_tx_bit_workaround s (any_of g0 (BIT 2))) rsclen
                   (Z.land g0 0x3) arr gtk_len) rsc false;
          mret (if bool_decide (r = 0) then 0 else -1)
      end
    else mret 0.

(** [igtk] is the KDE from the KeyID on; it has the key ID, the PN and [len] octets of
    the key. *)
Definition wpa_supplicant_install_igtk (kde : list Z) (wnm_sleep : bool) : M Z :=
  s ← get_sm;
  let len := wpa_cipher_key_len (mgmt_group_cipher s) in
  keyidx ← acc (WPA_GET_LE16 kde 0);
  pn ← acc (slice kde 2 6);
  key ← acc (slice kde 8 len);
  if bool_decide (igtk s = key) || bool_decide (igtk_wnm_sleep s = key) then mret 0
  else if bool_decide (4095 < keyidx) then mret (-1)
  else
    res ← wpa_sm_set_key (mk_key (wpa_cipher_to_alg (mgmt_group_cipher s))
                            (Some broadcast_ether_addr) keyidx 0 (Some pn) (Some key)
                            KEY_FLAG_GROUP_RX);
    if bool_decide (res < 0) && negb (bool_decide (keyidx = 0x0400) || bool_decide (keyidx = 0x0500))
    then mret (-1)
    else
      _ ← upd (λ s, if wnm_sleep then s <| igtk_wnm_sleep := key |> else s <| igtk := key |>);
      mret 0.

Definition wpa_supplicant_install_bigtk (kde : list Z) (wnm_sleep : bool) : M Z :=
  s ← get_sm;
  let len := wpa_cipher_key_len (mgmt_group_cipher s) in
  keyidx ← acc (WPA_GET_LE16 kde 0);
  pn ← acc (slice kde 2 6);
  key ← acc (slice kde 8 len);
  if bool_decide (bigtk s = key) || bool_decide (bigtk_wnm_sleep s = key) then mret 0
  else if bool_decide (keyidx < 6) || bool_decide (7 < keyidx) then mret (-1)
  else
    res ← wpa_sm_set_key (mk_key (wpa_cipher_to_alg (mgmt_group_cipher s))
                            (Some broadcast_ether_addr) keyidx 0 (Some pn) (Some key)
                            KEY_FLAG_GROUP_RX);
    if bool_decide (res < 0) then mret (-1)
    else
      _ ← upd (λ s, if wnm_sleep then s <| bigtk_wnm_sleep := key |> else s <| bigtk := key |>);
      mret 0.

(** The octets of a member of the parsed key data. *)
Definition member (kd : list Z) (ie : wpa_eapol_ie_parse) (k : kde) : option (option (list Z)) :=
  match ptr ie k with
  | None => Some None
  | Some p => o ← slice kd p (plen ie k); Some (Some o)
  end.
Definition has (ie : wpa_eapol_ie_parse) (k : kde) : bool := bool_decide (is_Some (ptr ie k)).

Definition mgmt_group_used (s : wpa_sm) : bool :=
  wpa_cipher_valid_mgmt_group (mgmt_group_cipher s) &&
  negb (bool_decide (mgmt_group_cipher s = WPA_CIPHER_GTK_NOT_USED)).

Definition ieee80211w_set_keys (kd : list Z) (ie : wpa_eapol_ie_parse) : M Z :=
  s ← get_sm;
  if negb (mgmt_group_used s) then mret 0
  else
    let len := wpa_cipher_key_len (mgmt_group_cipher s) in
    r ← (if has ie k_igtk then
           if bool_decide (plen ie k_igtk ≠ WPA_IGTK_KDE_PREFIX_LEN + len) then mret (-1)
           else k ← acc (member kd ie k_igtk); wpa_supplicant_install_igtk (default [] k) false
         else mret 0);
    if bool_decide (r < 0) then mret (-1)
    else
      r ← (if has ie k_bigtk && beacon_prot s then
             if bool_decide (plen ie k_bigtk ≠ WPA_BIGTK_KDE_PREFIX_LEN + len) then mret (-1)
             else k ← acc (member kd ie k_bigtk); wpa_supplicant_install_bigtk (default [] k) false
           else mret 0);
      mret (if bool_decide (r < 0) then -1 else 0).

(** ** Checking the elements of message 3/4 *)
Definition wpa_report_ie_mismatch : M unit := wpa_sm_deauthenticate WLAN_REASON_IE_IN_4WAY_DIFFERS.

(** The element at [p] of [kd], by its own length octet. *)
Definition element_at (kd : list Z) (p : Z) : option (list Z) :=
  l ← rd kd (p + 1); slice kd p (2 + l).

Definition ft_validate_mdie (s : wpa_sm) (kd : list Z) (ie : wpa_eapol_ie_parse)
    (assoc_resp_mdie : option (list Z)) : option Z :=
  match ptr ie k_mdie with
  | None => Some (-1)
  | Some p =>
      if bool_decide (plen ie k_mdie < 2 + 3) then Some (-1)
      else
        md ← slice kd (p + 2) 2;
        if bool_decide (md ≠ mobility_domain s) then Some (-1)
        else
          match assoc_resp_mdie with
          | None => Some 0
          | Some a => e ← element_at kd p; Some (if bool_decide (a = e) then 0 else -1)
          end
  end.

Definition ft_validate_ftie (kd : list Z) (ie : wpa_eapol_ie_parse)
    (assoc_resp_ftie : option (list Z)) : option Z :=
  match ptr ie k_ftie with
  | None => Some (-1)
  | Some p =>
      match assoc_resp_ftie with
      | None => Some 0
      | Some a => e ← element_at kd p; Some (if bool_decide (a = e) then 0 else -1)
      end
  end.

Definition ft_validate_rsnie (s : wpa_sm) (kd : list Z) (ie : wpa_eapol_ie_parse) : option Z :=
  m ← member kd ie k_rsn_ie;
  match m with
  | None => Some 0
  | Some e =>
      '(r, rsn) ← wpa_parse_wpa_ie_rsn e (blen e);
      if bool_decide (r < 0) || bool_decide (ie_num_pmkid rsn ≠ 1) then Some (-1)
      else
        match ie_pmkid rsn with
        | None => Some (-1)
        | Some p => k ← slice e p PMKID_LEN; Some (if bool_decide (k = pmk_r1_name s) then 0 else -1)
        end
  end.

(** The MDE and the FTE of the (Re)Association Response; [fuel] bounds the passes, which
    advance by two octets or more. *)
Fixpoint find_ft_elements (fuel : nat) (b : list Z) (pos : Z) (mdie ftie : option (list Z)) :
    option (option (list Z) * option (list Z)) :=
  if bool_decide (2 < blen b - pos) then
    match fuel with
    | O => None
    | S fuel =>
        l ← rd b (pos + 1);
        if bool_decide (blen b - pos < 2 + l) then Some (mdie, ftie)
        else
          id ← rd b pos;
          e ← slice b pos (2 + l);
          let mdie := if bool_decide (id = WLAN_EID_MOBILITY_DOMAIN) then Some e else mdie in
          let ftie := if bool_decide (id = WLAN_EID_FAST_BSS_TRANSITION) then Some e else ftie in
          find_ft_elements fuel b (pos + (2 + l)) mdie ftie
    end
  else Some (mdie, ftie).

Definition wpa_supplicant_validate_ie_ft (s : wpa_sm) (kd : list Z) (ie : wpa_eapol_ie_parse) :
    option Z :=
  '(mdie, ftie) ← match assoc_resp_ies s with
                  | None => Some (None, None)
                  | Some b => find_ft_elements (length b) b 0 None None
                  end;
  r ← ft_validate_mdie s kd ie mdie;
  if bool_decide (r < 0) then Some (-1)
  else
    r ← ft_validate_ftie kd ie ftie;
    if bool_decide (r < 0) then Some (-1)
    else r ← ft_validate_rsnie s kd ie; Some (if bool_decide (r < 0) then -1 else 0).

(** An element that is in one of Beacon and message 3/4 only, or differs. *)
Definition ie_mismatch (ap : option (list Z)) (m : option (list Z)) : bool :=
  match ap, m with
  | None, None => false
  | Some a, Some e => bool_decide (a ≠ e)
  | _, _ => true
  end.

(** The elements that are compared, from Beacon or Probe Response and from message 3/4:
    whether they differ. *)
Definition beacon_mismatch (s : wpa_sm) (wpa_ie rsn_ie : option (list Z)) : option bool :=
  rsn ← match rsn_ie, ap_rsn_ie s with
        | Some e, Some a =>
            r ← wpa_compare_rsn_ie (wpa_key_mgmt_ft (key_mgmt s)) (Some a) (Some e);
            Some (bool_decide (r ≠ 0))
        | _, _ => Some false
        end;
  Some (match wpa_ie, ap_wpa_ie s with
        | Some e, Some a => bool_decide (e ≠ a)
        | _, _ => false
        end || rsn).

Definition override_mismatch (s : wpa_sm) (kd : list Z) (ie : wpa_eapol_ie_parse) : option bool :=
  o ← member kd ie k_rsne_override;
  o2 ← member kd ie k_rsne_override_2;
  x ← member kd ie k_rsnxe_override;
  Some (ie_mismatch (ap_rsne_override s) o || ie_mismatch (ap_rsne_override_2 s) o2 ||
        ie_mismatch (ap_rsnxe_override s) x).

Definition wpa_supplicant_validate_ie (kd : list Z) (ie : wpa_eapol_ie_parse) : M Z :=
  s ← get_sm;
  r ← (if bool_decide (ap_wpa_ie s = None) && bool_decide (ap_rsn_ie s = None)
       then wpa_sm_get_beacon_ie else mret 0);
  if bool_decide (r < 0) then mret (-1)
  else
    s ← get_sm;
    wpa ← acc (member kd ie k_wpa_ie);
    rsn ← acc (member kd ie k_rsn_ie);
    rsnxe ← acc (member kd ie k_rsnxe);
    let mismatch := _ ← wpa_report_ie_mismatch; mret (-1) in
    if bool_decide (wpa = None) && bool_decide (rsn = None) &&
       (bool_decide (is_Some (ap_wpa_ie s)) || bool_decide (is_Some (ap_rsn_ie s)))
    then mismatch
    else
      differ ← acc (beacon_mismatch s wpa rsn);
      if differ : bool then mismatch
      else if bool_decide (proto s = WPA_PROTO_WPA) && bool_decide (is_Some rsn) &&
              bool_decide (ap_rsn_ie s = None) && rsn_enabled s
      then mismatch
      else if bool_decide (proto s = WPA_PROTO_RSN) && ie_mismatch (ap_rsnxe s) rsnxe
      then mismatch
      else
        override ← acc (if bool_decide (proto s = WPA_PROTO_RSN) && wpa_sm_rsn_overriding_supported s
                        then override_mismatch s kd ie else Some false);
        if override : bool then mismatch
        else if wpa_key_mgmt_ft (key_mgmt s) then
          r ← acc (wpa_supplicant_validate_ie_ft s kd ie);
          mret (if bool_decide (r < 0) then -1 else 0)
        else mret 0.

(** ** Extended Key ID *)
Definition wpa_handle_ext_key_id (kd : list Z) (ie : wpa_eapol_ie_parse) : M Z :=
  s ← get_sm;
  key_id ← acc (match ptr ie k_key_id with
                | None => Some None
                | Some p => v ← rd kd p; Some (Some (Z.land v 0x03))
                end);
  if ext_key_id s then
    match key_id with
    | None =>
        _ ← upd (λ s, s <| keyidx_active := 0 |>);
        mret (if use_ext_key_id s then -1 else 0)
    | Some k =>
        if bool_decide (1 < k) then mret (-1)
        else _ ← upd (λ s, s <| keyidx_active := k |> <| use_ext_key_id := true |>); mret 0
    end
  else
    match key_id with
    | Some k =>
        if bool_decide (k ≠ 0) then mret (-1)
        else _ ← upd (λ s, s <| keyidx_active := 0 |> <| use_ext_key_id := false |>); mret 0
    | None => _ ← upd (λ s, s <| keyidx_active := 0 |> <| use_ext_key_id := false |>); mret 0
    end.

(** ** Message 1/4 *)

(** [Some] of the parsed key data; [None] for a parse failure. *)
Definition wpa_supplicant_parse_ies (kd : list Z) : M (option wpa_eapol_ie_parse) :=
  '(r, ie) ← acc (wpa_parse_kde_ies kd (blen kd));
  mret (if bool_decide (r < 0) then None else Some ie).

Definition renew_nonce : M bool :=
  s ← get_sm;
  if renew_snonce s then
    r ← random_get_bytes;
    match r with
    | None => mret false
    | Some n =>
        n ← acc (if wpa_sm_rsn_overriding_supported s then rsn_set_snonce_cookie n else Some n);
        _ ← upd (λ s, s <| snonce := n |> <| renew_snonce := false |>);
        mret true
    end
  else mret true.

(** The Michael MIC keys of the TK swapped. *)
Definition swap_tk (s : wpa_sm) (keys : wpa_ptk) : option wpa_ptk :=
  if bool_decide (pairwise_cipher s = WPA_CIPHER_TKIP) then
    t ← swap_mic_keys (tk keys); Some (keys <| tk := t |>)
  else Some keys.

(** The temporary PTK; whether it was derived. *)
Definition derive_tptk (anonce' : list Z) : M bool :=
  s ← get_sm;
  '(r, p) ← wpa_derive_ptk anonce' (tptk s);
  _ ← upd (λ s, s <| tptk := p |>);
  if bool_decide (r < 0) then mret false
  else
    p ← acc (swap_tk s p);
    _ ← upd (λ s, s <| tptk := p |> <| tptk_set := true |>);
    mret true.

Definition dpp_kde (s : wpa_sm) : list Z :=
  if bool_decide (key_mgmt s = WPA_KEY_MGMT_DPP) then
    [WLAN_EID_VENDOR_SPECIFIC; RSN_SELECTOR_LEN + 2] ++ be32_bytes WFA_KEY_DATA_DPP ++
    [DPP_VERSION;
     if bool_decide (dpp_pfs s = 0) then DPP_KDE_PFS_ALLOWED
     else if bool_decide (dpp_pfs s = 1) then Z.lor DPP_KDE_PFS_ALLOWED DPP_KDE_PFS_REQUIRED
     else 0]
  else [].

(** The key data of message 2/4: the own element copied with its length, the RSNXE and
    the DPP KDE, in a buffer with room for them. *)
Definition kde_2_of_4 (s : wpa_sm) : option (list Z) :=
  ie ← match assoc_wpa_ie s with
       | Some e => slice e 0 (assoc_wpa_ie_len s)
       | None => if bool_decide (assoc_wpa_ie_len s = 0) then Some [] else None
       end;
  Some (ie ++ default [] (assoc_rsnxe s) ++ dpp_kde s).

Definition kde_2_of_4_size (s : wpa_sm) : Z :=
  assoc_wpa_ie_len s + 2 + RSN_SELECTOR_LEN + 3 + blen (default [] (assoc_rsnxe s)) +
  2 + RSN_SELECTOR_LEN + 1 + 2 + RSN_SELECTOR_LEN + 2.

(** Whether message 2/4 was sent. *)
Definition reply_1_of_4 (b : list Z) (ver : Z) : M bool :=
  s ← get_sm;
  ok ← os_malloc (kde_2_of_4_size s);
  if negb ok then mret false
  else
    kde ← acc (kde_2_of_4 s);
    _ ← acc (if bool_decide (blen kde ≤ kde_2_of_4_size s) then Some tt else None);
    r ← wpa_supplicant_send_2_of_4 (sm_bssid s) b ver (snonce s) (Some kde) (tptk s);
    if bool_decide (r < 0) then mret false
    else
      n ← acc (frame_nonce b);
      _ ← upd (λ s, s <| anonce := n |>);
      mret true.

(** What follows the return of [wpa_supplicant_get_pmk]; [false] is [goto failed]. *)
Definition after_pmk_1_of_4 (b : list Z) (ver : Z) : M bool :=
  ok ← renew_nonce;
  if negb ok then mret false
  else
    n ← acc (frame_nonce b);
    ok ← derive_tptk n;
    if negb ok then mret false else reply_1_of_4 b ver.

Definition body_1_of_4 (src_addr b : list Z) (ver : Z) (kd : list Z) : M bool :=
  s ← get_sm;
  ie ← (if is_rsn s then wpa_supplicant_parse_ies kd else mret (Some kde_zero));
  match ie with
  | None => mret false
  | Some ie =>
      pmkid' ← acc (match ptr ie k_pmkid with
                    | None => Some None
                    | Some p => k ← slice kd p PMKID_LEN; Some (Some k)
                    end);
      res ← wpa_supplicant_get_pmk src_addr pmkid';
      if bool_decide (res = -2) then mret true
      else if bool_decide (res ≠ 0) then mret false
      else after_pmk_1_of_4 b ver
  end.

(** [goto failed] *)
Definition or_deauthenticate (body : M bool) : M unit :=
  ok ← body;
  if ok : bool then mret tt else wpa_sm_deauthenticate WLAN_REASON_UNSPECIFIED.

Definition wpa_supplicant_process_1_of_4 (src_addr b : list Z) (ver : Z) (kd : list Z) : M unit :=
  ctx ← wpa_sm_get_network_ctx;
  if bool_decide (ctx = None) then mret tt
  else
    deny ← deny_ptk0_rekey;
    if deny : bool then wpa_sm_reconnect
    else
      _ ← wpa_sm_set_state WPA_4WAY_HANDSHAKE;
      or_deauthenticate (body_1_of_4 src_addr b ver kd).

(** ** Completion *)
Definition clear_opportunistic : M unit :=
  s ← get_sm;
  match cur_pmksa (pm s) with
  | None => mret tt
  | Some id =>
      e ← acc (deref (pm s) id);
      if opportunistic e
      then upd (λ s, s <| pm ::= update_entry id (λ e, e <| opportunistic := false |>) |>)
      else mret tt
  end.

Definition wpa_supplicant_key_neg_complete (addr : list Z) (secure : bool) : M unit :=
  _ ← emit CancelAuthTimeout;
  _ ← wpa_sm_set_state WPA_COMPLETED;
  s ← get_sm;
  _ ← (if secure then
         _ ← emit (SetProtection addr MLME_SETPROTECTION_PROTECT_TYPE_RX_TX);
         _ ← emit (PortValid true);
         _ ← (if wpa_key_mgmt_wpa_psk (key_mgmt s) || bool_decide (key_mgmt s = WPA_KEY_MGMT_DPP) ||
                 bool_decide (key_mgmt s = WPA_KEY_MGMT_OWE)
              then emit (EapSuccess true) else mret tt);
         if pmksa_candidates s then upd (λ s, s <| preauth_timer := true |>) else mret tt
       else mret tt);
  _ ← clear_opportunistic;
  if wpa_key_mgmt_ft (key_mgmt s) then emit FtPrepareAuthRequest else mret tt.

Definition wpa_sm_set_rekey_offload : M unit :=
  s ← get_sm;
  kk ← acc (slice (kek (ptk s)) 0 (kek_len (ptk s)));
  kc ← acc (slice (kck (ptk s)) 0 (kck_len (ptk s)));
  emit (RekeyOffload kk kc (rx_replay_counter s)).

(** [wpa_sm_rekey_ptk], when its timeout expires *)
Definition wpa_sm_rekey_ptk : M unit :=
  _ ← upd (λ s, s <| rekey_timer := None |>);
  wpa_sm_key_request false true.

(** ** Message 3/4 *)

(** The checks of the key data that come before those of the elements. *)
Definition bad_key_data (s : wpa_sm) (ie : wpa_eapol_ie_parse) (key_info : Z) : bool :=
  let encr := any_of key_info WPA_KEY_INFO_ENCR_KEY_DATA in
  (has ie k_gtk && negb encr) || (has ie k_igtk && negb encr) ||
  (has ie k_igtk && mgmt_group_used s &&
   bool_decide (plen ie k_igtk ≠ WPA_IGTK_KDE_PREFIX_LEN + wpa_cipher_key_len (mgmt_group_cipher s))).

(** The ANonce and the key length. *)
Definition nonce_and_length_ok (s : wpa_sm) (b : list Z) : option bool :=
  n ← frame_nonce b;
  if bool_decide (n ≠ anonce s) then Some false
  else
    l ← WPA_GET_BE16 b off_key_length;
    Some (bool_decide (l = wpa_cipher_key_len (pairwise_cipher s))).

(** PFS of DPP that the peer allows and the association did not use *)
Definition dpp_pfs_refused (s : wpa_sm) (kd : list Z) (ie : wpa_eapol_ie_parse) : option bool :=
  match ptr ie k_dpp_kde with
  | None => Some false
  | Some p =>
      v ← rd kd (p + 1);
      Some (bool_decide (key_mgmt s = WPA_KEY_MGMT_DPP) && bool_decide (dpp_pfs s ≠ 2) &&
            any_of v DPP_KDE_PFS_ALLOWED && bool_decide (dpp_z s = None))
  end.

Definition checks_3_of_4 (b kd : list Z) (ie : wpa_eapol_ie_parse) (key_info : Z) : M bool :=
  s ← get_sm;
  if bad_key_data s ie key_info then mret false
  else
    r ← wpa_supplicant_validate_ie kd ie;
    if bool_decide (r < 0) then mret false
    else
      r ← wpa_handle_ext_key_id kd ie;
      if bool_decide (r ≠ 0) then mret false
      else
        s ← get_sm;
        ok ← acc (nonce_and_length_ok s b);
        if negb ok then mret false
        else refused ← acc (dpp_pfs_refused s kd ie); mret (negb refused).

(** The pairwise key and message 4/4. *)
Definition ptk_3_of_4 (b : list Z) (ver key_info : Z) : M bool :=
  s ← get_sm;
  r ← (if use_ext_key_id s then wpa_supplicant_install_ptk b KEY_FLAG_RX else mret 0);
  if bool_decide (r ≠ 0) then mret false
  else
    s ← get_sm;
    r ← wpa_supplicant_send_4_of_4 (sm_bssid s) b ver key_info (ptk s);
    if bool_decide (r < 0) then mret false
    else
      _ ← upd (λ s, s <| renew_snonce := true |>);
      if any_of key_info WPA_KEY_INFO_INSTALL then
        r ← (if use_ext_key_id s then wpa_supplicant_activate_ptk
             else wpa_supplicant_install_ptk b KEY_FLAG_RX_TX);
        mret (bool_decide (r = 0))
      else mret true.

(** The group keys. *)
Definition group_keys_3_of_4 (b kd : list Z) (ie : wpa_eapol_ie_parse) (key_info : Z) : M bool :=
  s ← get_sm;
  r ← (if bool_decide (group_cipher s = WPA_CIPHER_GTK_NOT_USED) then mret 0
       else
         g ← acc (member kd ie k_gtk);
         match g with
         | None => mret (if bool_decide (proto s = WPA_PROTO_RSN) then -1 else 0)
         | Some g => wpa_supplicant_pairwise_gtk b g
         end);
  if bool_decide (r < 0) then mret false
  else r ← ieee80211w_set_keys kd ie; mret (bool_decide (0 ≤ r)).

(** The PMKSA cache entry of Suite B, whose PMKID needs the KCK. *)
Definition cache_suite_b : M unit :=
  s ← get_sm;
  if bool_decide (proto s = WPA_PROTO_RSN) && wpa_key_mgmt_suite_b (key_mgmt s) &&
     bool_decide (cur_pmksa (pm s) = None)
  then
    k ← acc (slice (kck (ptk s)) 0 (kck_len (ptk s)));
    sa ← pmksa_add (pmk_of s) None (Some k) (sm_bssid s);
    s ← get_sm;
    if bool_decide (cur_pmksa (pm s) = None) then set_cur_pmksa sa else mret tt
  else mret tt.

Definition finish_3_of_4 (kd : list Z) (ie : wpa_eapol_ie_parse) (secure : bool) : M unit :=
  s ← get_sm;
  _ ← (if bool_decide (group_cipher s = WPA_CIPHER_GTK_NOT_USED) || has ie k_gtk
       then wpa_supplicant_key_neg_complete (sm_bssid s) secure else mret tt);
  _ ← (if has ie k_gtk then wpa_sm_set_rekey_offload else mret tt);
  _ ← cache_suite_b;
  _ ← match ptr ie k_transition_disable with
      | None => mret tt
      | Some p => v ← acc (rd kd p); emit (TransitionDisable v)
      end;
  upd (λ s, s <| msg_3_of_4_ok := true |>).

(** What follows the checks; [false] is [goto failed]. *)
Definition accept_3_of_4 (b kd : list Z) (ie : wpa_eapol_ie_parse) (ver key_info : Z) : M bool :=
  ok ← ptk_3_of_4 b ver key_info;
  if negb ok then mret false
  else
    let secure := any_of key_info WPA_KEY_INFO_SECURE in
    s ← get_sm;
    _ ← (if secure then
           _ ← emit (SetProtection (sm_bssid s) MLME_SETPROTECTION_PROTECT_TYPE_RX);
           emit (PortValid true)
         else mret tt);
    _ ← wpa_sm_set_state WPA_GROUP_HANDSHAKE;
    ok ← group_keys_3_of_4 b kd ie key_info;
    if negb ok then mret false
    else _ ← finish_3_of_4 kd ie secure; mret true.

Definition body_3_of_4 (b : list Z) (ver : Z) (kd : list Z) : M bool :=
  key_info ← acc (frame_key_info b);
  ie ← wpa_supplicant_parse_ies kd;
  match ie with
  | None => mret false
  | Some ie =>
      ok ← checks_3_of_4 b kd ie key_info;
      if negb ok then mret false else accept_3_of_4 b kd ie ver key_info
  end.

Definition wpa_supplicant_process_3_of_4 (b : list Z) (ver : Z) (kd : list Z) : M unit :=
  _ ← wpa_sm_set_state WPA_4WAY_HANDSHAKE;
  or_deauthenticate (body_3_of_4 b ver kd).

(** ** The group key handshake *)
Definition wpa_supplicant_process_1_of_2_rsn (kd : list Z) (key_info : Z) :
    M (option wpa_gtk_data) :=
  ie ← wpa_supplicant_parse_ies kd;
  match ie with
  | None => mret None
  | Some ie =>
      g ← acc (member kd ie k_gtk);
      match g with
      | None => mret None
      | Some g =>
          let gtk_len := u16 (blen g) in
          if negb (any_of key_info WPA_KEY_INFO_ENCR_KEY_DATA) then mret None
          else if bool_decide (gtk_len < 2) then mret None
          else if bool_decide (32 < gtk_len - 2) then mret None
          else
            let gtk_len := gtk_len - 2 in
            s ← get_sm;
            match wpa_supplicant_check_group_cipher (group_cipher s) gtk_len gtk_len with
            | None => mret None
            | Some (rsclen, alg) =>
                g0 ← acc (rd g 0);
                k ← acc (slice g 2 gtk_len);
                arr ← acc (blit (zeros 32) 0 k);
                _ ← ieee80211w_set_keys kd ie;
                mret (Some (mk_gd alg (wpa_supplicant_gtk_tx_bit_workaround s (any_of g0 (BIT 2)))
                              rsclen (Z.land g0 0x3) arr gtk_len))
            end
      end
  end.

(** The key data of WPA: encrypted with RC4 or AES key wrap. *)
Definition decrypt_wpa_gtk (s : wpa_sm) (b : list Z) (ver : Z) (kd : list Z) (maxkeylen : Z) :
    outcome (option (list Z)) :=
  let p := ptk s in
  if bool_decide (ver = WPA_KEY_INFO_TYPE_HMAC_MD5_RC4) && bool_decide (kek_len p = 16) then
    if bool_decide (32 < blen kd) then Ret None
    else
      iv ← access (frame_iv b);
      k ← access (slice (kek p) 0 (kek_len p));
      match rc4_skip (iv ++ k) 256 kd with
      | None => Ret None
      | Some d => a ← access (blit (zeros 32) 0 d); Ret (Some a)
      end
  else if bool_decide (ver = WPA_KEY_INFO_TYPE_HMAC_SHA1_AES) then
    if bool_decide (maxkeylen mod 8 ≠ 0) then Ret None
    else if bool_decide (32 < maxkeylen) then Ret None
    else
      k ← access (slice (kek p) 0 (kek_len p));
      c ← access (slice kd 0 (8 * (maxkeylen / 8) + 8));
      match aes_unwrap k (maxkeylen / 8) c with
      | None => Ret None
      | Some d => a ← access (blit (zeros 32) 0 d); Ret (Some a)
      end
  else Ret None.

Definition wpa_supplicant_process_1_of_2_wpa (b : list Z) (kd : list Z) (key_info ver : Z) :
    M (option wpa_gtk_data) :=
  s ← get_sm;
  gtk_len ← acc (WPA_GET_BE16 b off_key_length);
  let aes := bool_decide (ver = WPA_KEY_INFO_TYPE_HMAC_SHA1_AES) in
  if aes && bool_decide (blen kd < 8) then mret None
  else
    let maxkeylen := if aes then blen kd - 8 else blen kd in
    if bool_decide (maxkeylen < gtk_len) then mret None
    else
      match wpa_supplicant_check_group_cipher (group_cipher s) gtk_len maxkeylen with
      | None => mret None
      | Some (rsclen, alg) =>
          let keyidx := Z.shiftr (Z.land key_info WPA_KEY_INFO_KEY_INDEX_MASK)
                          WPA_KEY_INFO_KEY_INDEX_SHIFT in
          d ← lift (decrypt_wpa_gtk s b ver kd maxkeylen);
          mret (d ← d;
                Some (mk_gd alg (wpa_supplicant_gtk_tx_bit_workaround s
                                   (any_of key_info WPA_KEY_INFO_TXRX)) rsclen keyidx d gtk_len))
      end.

Definition body_1_of_2 (b : list Z) (ver : Z) (kd : list Z) : M bool :=
  s ← get_sm;
  if negb (msg_3_of_4_ok s) then mret false
  else
    st ← wpa_sm_get_state;
    let rekey := bool_decide (st = WPA_COMPLETED) in
    key_info ← acc (frame_key_info b);
    gd ← (if is_rsn s then wpa_supplicant_process_1_of_2_rsn kd key_info
          else wpa_supplicant_process_1_of_2_wpa b kd key_info ver);
    _ ← wpa_sm_set_state WPA_GROUP_HANDSHAKE;
    match gd with
    | None => mret false
    | Some gd =>
        rsc ← gtk_rsc b;
        r ← wpa_supplicant_install_gtk gd rsc false;
        if bool_decide (r ≠ 0) then mret false
        else
          r ← wpa_supplicant_send_2_of_2 b ver key_info;
          if bool_decide (r < 0) then mret false
          else
            s ← get_sm;
            _ ← (if rekey then _ ← emit CancelAuthTimeout; wpa_sm_set_state WPA_COMPLETED
                 else wpa_supplicant_key_neg_complete (sm_bssid s)
                        (any_of key_info WPA_KEY_INFO_SECURE));
            _ ← wpa_sm_set_rekey_offload;
            mret true
    end.

Definition wpa_supplicant_process_1_of_2 (b : list Z) (ver : Z) (kd : list Z) : M unit :=
  or_deauthenticate (body_1_of_2 b ver kd).

(** ** Receiving *)

(** The MIC of [b] computed with the MIC field zeroed: the frame afterwards, and whether
    the MIC is the received one. *)
Definition check_mic (s : wpa_sm) (keys : wpa_ptk) (ver : Z) (b mic : list Z) :
    outcome (list Z * bool) :=
  let mic_len := reply_mic_len s in
  b ← access (blit b off_mic (zeros mic_len));
  k ← access (slice (kck keys) 0 (kck_len keys));
  m ← wpa_eapol_key_mic k (key_mgmt s) ver b;
  match m with
  | None => Ret (b, false)
  | Some m =>
      b ← access (blit b off_mic m);
      computed ← access (slice b off_mic mic_len);
      Ret (b, bool_decide (mic = computed))
  end.

(** [sm->tptk] becomes the PTK. *)
Definition take_tptk (s : wpa_sm) : wpa_sm :=
  s <| tptk_set := false |> <| ptk_set := true |> <| ptk := tptk s |> <| tptk := ptk_zero |>
    <| renew_snonce := true |>.

(** The frame afterwards, or [None] for a return of -1. *)
Definition wpa_supplicant_verify_eapol_key_mic (ver : Z) (b : list Z) : M (option (list Z)) :=
  s ← get_sm;
  mic ← acc (slice b off_mic (reply_mic_len s));
  '(b, ok) ← (if tptk_set s then
                '(b, ok) ← lift (check_mic s (tptk s) ver b mic);
                _ ← (if ok : bool then upd take_tptk else mret tt);
                mret (b, ok)
              else mret (b, false));
  '(b, ok) ← (if negb ok && ptk_set s then lift (check_mic s (ptk s) ver b mic)
              else mret (b, ok));
  if negb ok then mret None
  else
    r ← acc (frame_replay b);
    _ ← upd (λ s, s <| rx_replay_counter := r |> <| rx_replay_counter_set := true |>);
    mret (Some b).

(** The decrypted key data, or [None] for a return of -1. *)
Definition wpa_supplicant_decrypt_key_data (b : list Z) (ver : Z) (kd : list Z) :
    M (option (list Z)) :=
  s ← get_sm;
  let p := ptk s in
  if negb (ptk_set s) then mret None
  else if bool_decide (ver = WPA_KEY_INFO_TYPE_HMAC_MD5_RC4) && bool_decide (kek_len p = 16) then
    iv ← acc (frame_iv b);
    k ← acc (slice (kek p) 0 (kek_len p));
    mret (rc4_skip (iv ++ k) 256 kd)
  else if bool_decide (ver = WPA_KEY_INFO_TYPE_HMAC_SHA1_AES) ||
          bool_decide (ver = WPA_KEY_INFO_TYPE_AES_128_CMAC) || wpa_use_aes_key_wrap (key_mgmt s)
  then
    if bool_decide (blen kd < 8) || bool_decide (blen kd mod 8 ≠ 0) then mret None
    else
      let len := blen kd - 8 in
      ok ← os_malloc len;
      if negb ok then mret None
      else
        k ← acc (slice (kek p) 0 (kek_len p));
        mret (aes_unwrap k (len / 8) kd)
  else mret None.

(** The checks of the descriptor version; [key_info] is the one of the frame. *)
Definition version_ok (s : wpa_sm) (key_info ver : Z) : bool :=
  let akm := wpa_use_akm_defined (key_mgmt s) in
  let ver_is v := bool_decide (ver = v) in
  let cmac_or_akm := ver_is WPA_KEY_INFO_TYPE_AES_128_CMAC || akm in
  if negb (ver_is WPA_KEY_INFO_TYPE_HMAC_MD5_RC4) && negb (ver_is WPA_KEY_INFO_TYPE_AES_128_CMAC) &&
     negb (ver_is WPA_KEY_INFO_TYPE_HMAC_SHA1_AES) && negb akm
  then false
  else if akm && negb (ver_is WPA_KEY_INFO_TYPE_AKM_DEFINED) then false
  else if wpa_key_mgmt_ft (key_mgmt s) then cmac_or_akm
  else if wpa_key_mgmt_sha256 (key_mgmt s) then cmac_or_akm
  else if bool_decide (pairwise_cipher s = WPA_CIPHER_CCMP) && negb akm &&
          negb (ver_is WPA_KEY_INFO_TYPE_HMAC_SHA1_AES)
  then (bool_decide (group_cipher s ≠ WPA_CIPHER_CCMP) &&
        negb (any_of key_info WPA_KEY_INFO_KEY_TYPE)) || ver_is WPA_KEY_INFO_TYPE_AES_128_CMAC
  else negb (bool_decide (pairwise_cipher s = WPA_CIPHER_GCMP) && negb akm &&
             negb (ver_is WPA_KEY_INFO_TYPE_HMAC_SHA1_AES)).

(** The replay counter and the flags of the key information. *)
Definition replay_ok (s : wpa_sm) (replay : list Z) : bool :=
  negb (rx_replay_counter_set s && bool_decide (os_memcmp replay (rx_replay_counter s) ≤ 0)).
Definition flags_ok (key_info : Z) : bool :=
  negb (any_of key_info WPA_KEY_INFO_SMK_MESSAGE) && any_of key_info WPA_KEY_INFO_ACK &&
  negb (any_of key_info WPA_KEY_INFO_REQUEST).

(** The handler that the flags select; [ret] of [wpa_sm_rx_eapol]. *)
Definition dispatch (src_addr b : list Z) (key_info ver mic_len : Z) (kd : list Z) : M Z :=
  if any_of key_info WPA_KEY_INFO_KEY_TYPE then
    if any_of key_info WPA_KEY_INFO_KEY_INDEX_MASK then mret (-1)
    else
      _ ← (if any_of key_info (Z.lor WPA_KEY_INFO_MIC WPA_KEY_INFO_ENCR_KEY_DATA)
           then wpa_supplicant_process_3_of_4 b ver kd
           else wpa_supplicant_process_1_of_4 src_addr b ver kd);
      mret 1
  else
    _ ← (if (bool_decide (mic_len ≠ 0) && any_of key_info WPA_KEY_INFO_MIC) ||
            (bool_decide (mic_len = 0) && any_of key_info WPA_KEY_INFO_ENCR_KEY_DATA)
         then wpa_supplicant_process_1_of_2 b ver kd
         else mret tt);
    mret 1.

(** The frame after the MIC was verified, when it has one. *)
Definition verify_if_mic (b : list Z) (key_info ver : Z) : M (option (list Z)) :=
  if any_of key_info WPA_KEY_INFO_MIC then wpa_supplicant_verify_eapol_key_mic ver b
  else mret (Some b).

(** The key data after the decryption, when it is encrypted. *)
Definition decrypt_if_encrypted (b : list Z) (key_info ver mic_len : Z) (kd : list Z) :
    M (option (list Z)) :=
  s ← get_sm;
  if is_rsn s && any_of key_info WPA_KEY_INFO_ENCR_KEY_DATA && bool_decide (mic_len ≠ 0) then
    if negb (any_of key_info WPA_KEY_INFO_MIC) then mret None
    else wpa_supplicant_decrypt_key_data b ver kd
  else mret (Some kd).

(** From the notification of the lower layer on. *)
Definition rx_key (src_addr b : list Z) (mic_len key_data_len : Z) : M Z :=
  _ ← emit LowerLayerSuccess;
  key_info ← acc (frame_key_info b);
  let ver := Z.land key_info WPA_KEY_INFO_TYPE_MASK in
  s ← get_sm;
  replay ← acc (frame_replay b);
  if negb (version_ok s key_info ver) || negb (replay_ok s replay) || negb (flags_ok key_info)
  then mret (-1)
  else
    v ← verify_if_mic b key_info ver;
    match v with
    | None => mret (-1)
    | Some b =>
        kd ← acc (slice b (off_mic + mic_len + 2) key_data_len);
        kd ← decrypt_if_encrypted b key_info ver mic_len kd;
        match kd with
        | None => mret (-1)
        | Some kd => dispatch src_addr b key_info ver mic_len kd
        end
    end.

(** [sm->pmk_len], or the one of the PMKSA in use. *)
Definition rx_pmk_len (s : wpa_sm) : option Z :=
  if bool_decide (pmk_of s = []) then
    e ← cur_entry s; Some match e with Some e => blen (pmk e) | None => 0 end
  else Some (blen (pmk_of s)).

Definition wpa_sm_rx_eapol (src_addr buf : list Z) : M Z :=
  _ ← upd (λ s, s <| ft_completed := false |>);
  s ← get_sm;
  pmk_len ← acc (rx_pmk_len s);
  let mic_len := wpa_mic_len (key_mgmt s) pmk_len in
  let keyhdrlen := sizeof_key + mic_len + 2 in
  if bool_decide (blen buf < sizeof_hdr + keyhdrlen) then mret 0
  else
    plen' ← acc (WPA_GET_BE16 buf 2);
    ty ← acc (rd buf 1);
    if bool_decide (ty ≠ IEEE802_1X_TYPE_EAPOL_KEY) then mret 0
    else if bool_decide (blen buf - sizeof_hdr < plen') || bool_decide (plen' < keyhdrlen)
    then mret 0
    else
      let data_len := plen' + sizeof_hdr in
      ok ← os_malloc data_len;
      if negb ok then mret (-1)
      else
        b ← acc (slice buf 0 data_len);
        kt ← acc (rd b off_type);
        if bool_decide (kt ≠ EAPOL_KEY_TYPE_WPA) && bool_decide (kt ≠ EAPOL_KEY_TYPE_RSN)
        then mret 0
        else
          key_data_len ← acc (WPA_GET_BE16 b (off_mic + mic_len));
          if bool_decide (plen' - keyhdrlen < key_data_len) then mret (-1)
          else rx_key src_addr b mic_len key_data_len.
End handshake.
