(* ===== verification/WpaOps.v ===== *)
(** Other operations of the RSN state machine (src/rsn_supp/wpa.c)

    Initialisation, association and disassociation, configuration, own elements, the
    PMKSA cache as other components reach it, and the keys of WNM sleep mode.
    [wpa_sm_op] has the operations that change the state; [sm_do] performs one. *)
From S2P Require Import Prelude Bytes Defs Suites RsnIe PmksaCache WpaKey WpaSm WpaHandshake.

Section ops.
Context `{C : wpa_crypto} `{E : wpa_env}.

(** [wpa_sm_init]; the allocations succeed. *)
Definition wpa_sm_init : wpa_sm :=
  mk_sm (pmksa_cache_init (zeros 6) (zeros 6) 43200 70) ptk_zero ptk_zero false false false
    (zeros 32) (zeros 32) true (zeros 8) false (zeros 8) [] [] [] [] [] [] false false None false
    None [] 0 false false false false false 0 false false false false 0 false 0 false 60
    0 0 0 0 0 false None 0 None None None None None None None [] (zeros 64) 0 (zeros 16)
    (zeros 64) 0 (zeros 16) (zeros 2) [] (zeros 6) false false false None None 0 false
    RSN_OVERRIDE_NOT_USED 0.

(** ** Association *)
Definition wpa_ft_is_completed (s : wpa_sm) : bool := wpa_key_mgmt_ft (key_mgmt s) && ft_completed s.

Definition clear_old_ptk (s : wpa_sm) : wpa_sm :=
  s <| ptk_set := false |> <| ptk := ptk_zero |> <| tptk_set := false |> <| tptk := ptk_zero |>
    <| gtk := [] |> <| gtk_wnm_sleep := [] |> <| igtk := [] |> <| igtk_wnm_sleep := [] |>.

Definition rsn_preauth_deinit : M unit := emit PreauthDeinit.

Definition wpa_sm_notify_assoc (bssid' : list Z) : M unit :=
  _ ← upd (λ s, s <| pm ::= λ p, p <| bssid := bssid' |> |>
                  <| rx_replay_counter := zeros 8 |> <| rx_replay_counter_set := false |>
                  <| renew_snonce := true |>);
  pre ← ask env_preauth_bssid;
  _ ← (if bool_decide (pre = bssid') then rsn_preauth_deinit else mret tt);
  s ← get_sm;
  _ ← (if wpa_ft_is_completed s then
         _ ← emit (PortValid false);
         _ ← wpa_supplicant_key_neg_complete (sm_bssid s) true;
         _ ← emit FtPrepareAuthRequest;
         upd (λ s, s <| ft_protocol := true |>)
       else
         _ ← upd (λ s, s <| ft_protocol := false |>);
         upd clear_old_ptk);
  upd (λ s, s <| keyidx_active := 0 |>).

Definition wpa_sm_drop_sa : M unit :=
  upd (λ s, clear_old_ptk (s <| pm ::= clear_pmk |>)
              <| xxkey := [] |> <| pmk_r0 := zeros 64 |> <| pmk_r0_len := 0 |>
              <| pmk_r1 := zeros 64 |> <| pmk_r1_len := 0 |>).

Definition wpa_sm_notify_disassoc : M unit :=
  _ ← upd (λ s, s <| preauth_timer := false |> <| rekey_timer := None |>);
  _ ← rsn_preauth_deinit;
  _ ← upd (λ s, s <| pm ::= pmksa_cache_clear_current |>);
  st ← wpa_sm_get_state;
  _ ← (if bool_decide (st = WPA_4WAY_HANDSHAKE)
       then upd (λ s, s <| handshake_failures ::= λ n, u32 (n + 1) |>) else mret tt);
  _ ← upd (λ s, s <| ft_reassoc_completed := false |> <| ft_protocol := false |>);
  _ ← wpa_sm_drop_sa;
  upd (λ s, s <| keyidx_active := 0 |> <| msg_3_of_4_ok := false |>
              <| pm ::= λ p, p <| bssid := zeros 6 |> |>).

(** ** PMKSA caching *)
Definition wpa_sm_aborted_cached : M unit := set_cur_pmksa None.
Definition wpa_sm_aborted_external_cached : M unit :=
  s ← get_sm;
  e ← acc (cur_entry s);
  match e with
  | Some e => if external e then set_cur_pmksa None else mret tt
  | None => mret tt
  end.
Definition wpa_sm_pmksa_cache_add (k : list Z) (pmkid' : option (list Z)) (bssid' : list Z) : M unit :=
  r ← pmksa_add k pmkid' None bssid'; set_cur_pmksa r.
Definition wpa_sm_pmksa_exists (s : wpa_sm) (bssid' : list Z) (ctx : option Z) : bool :=
  bool_decide (is_Some (pmksa_cache_get (pm s) (Some bssid') None ctx 0)).
Definition pm_flush (ctx : option Z) (external_only : bool) : M unit :=
  now ← ask env_now;
  with_pm (λ p, p ← pmksa_cache_flush now ctx None external_only p; Ret (tt, p)).
Definition wpa_sm_pmksa_cache_flush (ctx : option Z) : M unit := pm_flush ctx false.
Definition wpa_sm_external_pmksa_cache_flush (ctx : option Z) : M unit := pm_flush ctx true.
Definition wpa_sm_pmksa_cache_reconfig : M unit :=
  now ← ask env_now; with_pm (λ p, p ← pmksa_cache_reconfig now p; Ret (tt, p)).
Definition sm_pmksa_expire : M unit :=
  now ← ask env_now; with_pm (λ p, p ← pmksa_cache_expire now p; Ret (tt, p)).

(** ** Configuration *)
Record rsn_supp_config := mk_config {
  c_network_ctx : option Z;
  c_ssid : list Z;
  c_wpa_ptk_rekey : Z;
  c_wpa_rsc_relaxation : bool;
  c_force_kdk_derivation : bool;
  c_beacon_prot : bool;
}.
Definition wpa_sm_set_config (c : option rsn_supp_config) : M unit :=
  match c with
  | Some c =>
      upd (λ s, s <| config_ctx := c_network_ctx c |> <| ssid := c_ssid c |>
                  <| wpa_ptk_rekey := c_wpa_ptk_rekey c |>
                  <| wpa_rsc_relaxation := c_wpa_rsc_relaxation c |>
                  <| force_kdk_derivation := c_force_kdk_derivation c |>
                  <| beacon_prot := c_beacon_prot c |>)
  | None =>
      upd (λ s, s <| config_ctx := None |> <| ssid := [] |> <| wpa_ptk_rekey := 0 |>
                  <| wpa_rsc_relaxation := false |> <| beacon_prot := false |>
                  <| force_kdk_derivation := false |>)
  end.

Definition wpa_sm_set_own_addr (a : list Z) : M unit :=
  upd (λ s, s <| pm ::= λ p, p <| own_addr := a |> |>).
Definition wpa_sm_set_eapol (e : bool) : M unit := upd (λ s, s <| eapol := e |>).
Definition wpa_sm_set_dpp_z (z : option (list Z)) : M unit := upd (λ s, s <| dpp_z := z |>).

Inductive wpa_sm_conf_params :=
| RSNA_PMK_LIFETIME | RSNA_PMK_REAUTH_THRESHOLD | RSNA_SA_TIMEOUT | WPA_PARAM_PROTO
| WPA_PARAM_PAIRWISE | WPA_PARAM_GROUP | WPA_PARAM_KEY_MGMT | WPA_PARAM_MGMT_GROUP
| WPA_PARAM_RSN_ENABLED | WPA_PARAM_MFP | WPA_PARAM_OCV | WPA_PARAM_SAE_PWE | WPA_PARAM_SAE_PK
| WPA_PARAM_DENY_PTK0_REKEY | WPA_PARAM_EXT_KEY_ID | WPA_PARAM_USE_EXT_KEY_ID
| WPA_PARAM_FT_RSNXE_USED | WPA_PARAM_DPP_PFS | WPA_PARAM_OCI_FREQ_EAPOL
| WPA_PARAM_OCI_FREQ_EAPOL_G2 | WPA_PARAM_OCI_FREQ_FT_ASSOC | WPA_PARAM_OCI_FREQ_FILS_ASSOC
| WPA_PARAM_RSN_OVERRIDE | WPA_PARAM_RSN_OVERRIDE_SUPPORT.

(** A one-bit field keeps the lowest bit of what is assigned. *)
Definition bit0 (v : Z) : bool := any_of v 1.
Definition nonzero (v : Z) : bool := bool_decide (v ≠ 0).

Definition set_if (c : bool) (f : wpa_sm → wpa_sm) : M Z :=
  if c then _ ← upd f; mret 0 else mret (-1).

Definition wpa_sm_set_param (param : wpa_sm_conf_params) (value : Z) : M Z :=
  match param with
  | RSNA_PMK_LIFETIME =>
      set_if (bool_decide (0 < value))
        (λ s, s <| pm ::= λ p, p <| dot11RSNAConfigPMKLifetime := value |> |>)
  | RSNA_PMK_REAUTH_THRESHOLD =>
      set_if (bool_decide (0 < value) && bool_decide (value ≤ 100))
        (λ s, s <| pm ::= λ p, p <| dot11RSNAConfigPMKReauthThreshold := value |> |>)
  | RSNA_SA_TIMEOUT =>
      set_if (bool_decide (0 < value)) (λ s, s <| dot11RSNAConfigSATimeout := value |>)
  | WPA_PARAM_PROTO => set_if true (λ s, s <| proto := value |>)
  | WPA_PARAM_PAIRWISE => set_if true (λ s, s <| pairwise_cipher := value |>)
  | WPA_PARAM_GROUP => set_if true (λ s, s <| group_cipher := value |>)
  | WPA_PARAM_KEY_MGMT => set_if true (λ s, s <| key_mgmt := value |>)
  | WPA_PARAM_MGMT_GROUP => set_if true (λ s, s <| mgmt_group_cipher := value |>)
  | WPA_PARAM_RSN_ENABLED => set_if true (λ s, s <| rsn_enabled := nonzero value |>)
  | WPA_PARAM_MFP => set_if true (λ s, s <| mfp := value |>)
  | WPA_PARAM_OCV => set_if true (λ s, s <| ocv := nonzero value |>)
  | WPA_PARAM_SAE_PWE => set_if true (λ s, s <| sae_pwe := value |>)
  | WPA_PARAM_SAE_PK => set_if true (λ s, s <| sae_pk := bit0 value |>)
  | WPA_PARAM_DENY_PTK0_REKEY => set_if true (λ s, s <| wpa_deny_ptk0_rekey := bit0 value |>)
  | WPA_PARAM_EXT_KEY_ID => set_if true (λ s, s <| ext_key_id := nonzero value |>)
  | WPA_PARAM_USE_EXT_KEY_ID => set_if true (λ s, s <| use_ext_key_id := nonzero value |>)
  | WPA_PARAM_DPP_PFS => set_if true (λ s, s <| dpp_pfs := value |>)
  | WPA_PARAM_RSN_OVERRIDE => set_if true (λ s, s <| rsn_override := value |>)
  | WPA_PARAM_RSN_OVERRIDE_SUPPORT =>
      set_if true (λ s, s <| rsn_override_support := nonzero value |>)
  | _ => mret 0
  end.

(** [wpa_sm_pmf_enabled] and [wpa_sm_ocv_enabled] from the capabilities of the AP *)
Definition ap_capab (s : wpa_sm) (mask : Z) : option bool :=
  match wpa_sm_get_ap_rsne s with
  | None => Some false
  | Some e =>
      '(r, d) ← wpa_parse_wpa_ie_rsn e (blen e);
      Some (bool_decide (0 ≤ r) && any_of (ie_capabilities d) mask)
  end.
Definition wpa_sm_pmf_enabled (s : wpa_sm) : option bool :=
  if bool_decide (mfp s = 0) then Some false
  else ap_capab s (Z.lor WPA_CAPABILITY_MFPR WPA_CAPABILITY_MFPC).
Definition wpa_sm_ocv_enabled (s : wpa_sm) : option bool :=
  if negb (ocv s) then Some false else ap_capab s WPA_CAPABILITY_OCVC.

(** ** Own elements *)
Definition rsn_params_of (s : wpa_sm) : option rsn_params :=
  e ← cur_entry s;
  Some (mk_params (proto s) (pairwise_cipher s) (group_cipher s) (key_mgmt s)
          (mgmt_group_cipher s) (mfp s) (ocv s) (ext_key_id s) (pmkid <$> e) (sae_pwe s) (sae_pk s)
          (secure_ltf s) (secure_rtt s) (prot_range_neg s)).

(** The return value and the buffer [wpa_ie]; the length is that of the result. *)
Definition wpa_sm_set_assoc_wpa_ie_default (wpa_ie : list Z) : M (Z * list Z * Z) :=
  s ← get_sm;
  p ← acc (rsn_params_of s);
  '(res, buf) ← lift (wpa_gen_wpa_ie p wpa_ie (blen wpa_ie));
  if bool_decide (res < 0) then mret (-1, buf, blen wpa_ie)
  else
    e ← acc (slice buf 0 res);
    match assoc_wpa_ie s with
    | Some _ => mret (0, buf, res)
    | None =>
        ok ← os_malloc res;
        if ok : bool then
          _ ← upd (λ s, s <| assoc_wpa_ie := Some e |> <| assoc_wpa_ie_len := res |>);
          mret (0, buf, res)
        else mret (-1, buf, res)
    end.

Definition wpa_sm_set_assoc_rsnxe_default (rsnxe : list Z) : M (Z * list Z * Z) :=
  s ← get_sm;
  p ← acc (rsn_params_of s);
  '(res, buf) ← lift (wpa_gen_rsnxe p rsnxe (blen rsnxe));
  if bool_decide (res < 0) then mret (-1, buf, blen rsnxe)
  else
    e ← acc (slice buf 0 res);
    if bool_decide (assoc_rsnxe s = None) && bool_decide (0 < res) then
      ok ← os_malloc res;
      if ok : bool then _ ← upd (λ s, s <| assoc_rsnxe := Some e |>); mret (0, buf, res)
      else mret (-1, buf, res)
    else mret (0, buf, res).

(** 0, -1 without an element and -2 for one that does not parse. *)
Definition wpa_sm_parse_own_wpa_ie (s : wpa_sm) : option (Z * option wpa_ie_data) :=
  match assoc_wpa_ie s with
  | None => Some (-1, None)
  | Some e =>
      '(r, d) ← wpa_parse_wpa_ie e (assoc_wpa_ie_len s);
      Some (if bool_decide (r ≠ 0) then -2 else 0, Some d)
  end.

(** ** Keys *)
Definition wpa_sm_has_ptk (s : wpa_sm) : bool := ptk_set s.
Definition wpa_sm_has_ptk_installed (s : wpa_sm) : bool := installed (ptk s).
Definition wpa_sm_update_replay_ctr (r : list Z) : M unit :=
  upd (λ s, s <| rx_replay_counter := r |>).
Definition wpa_sm_set_rx_replay_ctr (r : option (list Z)) : M unit :=
  match r with
  | None => mret tt
  | Some r => upd (λ s, s <| rx_replay_counter := r |> <| rx_replay_counter_set := true |>)
  end.
Definition set_kck (k : option (list Z)) (p : wpa_ptk) : option wpa_ptk :=
  match k with
  | Some k => if bool_decide (blen k ≤ WPA_KCK_MAX_LEN)
              then a ← blit (kck p) 0 k; Some (p <| kck := a |> <| kck_len := blen k |>)
              else Some p
  | None => Some p
  end.
Definition set_kek (k : option (list Z)) (p : wpa_ptk) : option wpa_ptk :=
  match k with
  | Some k => if bool_decide (blen k ≤ WPA_KEK_MAX_LEN)
              then a ← blit (kek p) 0 k; Some (p <| kek := a |> <| kek_len := blen k |>)
              else Some p
  | None => Some p
  end.
Definition wpa_sm_set_ptk_kck_kek (k k' : option (list Z)) : M unit :=
  s ← get_sm;
  p ← acc (set_kck k (ptk s));
  p ← acc (set_kek k' p);
  upd (λ s, s <| ptk := p |> <| ptk_set := true |>).

(** ** WNM sleep mode *)
Definition WNM_SLEEP_SUBELEM_GTK := 0.
Definition WNM_SLEEP_SUBELEM_IGTK := 1.
Definition WNM_SLEEP_SUBELEM_BIGTK := 2.

Definition wnmsleep_gtk (buf : list Z) : M Z :=
  s ← get_sm;
  let keylen := u8 (wpa_cipher_key_len (group_cipher s)) in
  let alg := wpa_cipher_to_alg (group_cipher s) in
  if bool_decide (alg = WPA_ALG_NONE) then mret (-1)
  else
    keyinfo ← acc (WPA_GET_LE16 buf 2);
    len ← acc (rd buf 4);
    if bool_decide (keylen ≠ len) then mret (-1)
    else
      k ← acc (slice buf 13 keylen);
      arr ← acc (blit (zeros 32) 0 k);
      rsc ← acc (slice buf 5 (wpa_cipher_rsc_len (group_cipher s)));
      r ← wpa_supplicant_install_gtk
            (mk_gd alg (wpa_supplicant_gtk_tx_bit_workaround s (any_of keyinfo WPA_KEY_INFO_TXRX))
               (wpa_cipher_rsc_len (group_cipher s)) (Z.land keyinfo 0x03) arr keylen) rsc true;
      mret (if bool_decide (r ≠ 0) then -1 else 0).

Definition wpa_wnmsleep_install_key (subelem_id : Z) (buf : list Z) : M Z :=
  s ← get_sm;
  if bool_decide (subelem_id = WNM_SLEEP_SUBELEM_GTK) then wnmsleep_gtk buf
  else if bool_decide (subelem_id = WNM_SLEEP_SUBELEM_IGTK) then
    r ← wpa_supplicant_install_igtk (drop 2 buf) true;
    mret (if bool_decide (r < 0) then -1 else 0)
  else if bool_decide (subelem_id = WNM_SLEEP_SUBELEM_BIGTK) then
    if beacon_prot s then
      r ← wpa_supplicant_install_bigtk (drop 2 buf) true;
      mret (if bool_decide (r < 0) then -1 else 0)
    else mret 0
  else mret (-1).

(** ** Sequences of operations *)
Inductive wpa_sm_op :=
| OpRxEapol (src_addr buf : list Z)
| OpKeyRequest (error pairwise : bool)
| OpRekeyPtk
| OpAssoc (bssid' : list Z)
| OpDisassoc
| OpDropSa
| OpSetPmk (k : list Z) (pmkid' bssid' : option (list Z))
| OpSetPmkFromPmksa
| OpSetParam (param : wpa_sm_conf_params) (value : Z)
| OpSetConfig (c : option rsn_supp_config)
| OpSetApIes (bss : bss_ies)
| OpAbortedCached
| OpFlushPmksa (ctx : option Z) (external_only : bool)
| OpExpirePmksa
| OpSetRxReplayCtr (r : option (list Z))
| OpWnmSleepKey (subelem_id : Z) (buf : list Z).

Definition sm_do (o : wpa_sm_op) : M unit :=
  match o with
  | OpRxEapol src buf => _ ← wpa_sm_rx_eapol src buf; mret tt
  | OpKeyRequest e p => wpa_sm_key_request e p
  | OpRekeyPtk => wpa_sm_rekey_ptk
  | OpAssoc b => wpa_sm_notify_assoc b
  | OpDisassoc => wpa_sm_notify_disassoc
  | OpDropSa => wpa_sm_drop_sa
  | OpSetPmk k p b => wpa_sm_set_pmk k p b
  | OpSetPmkFromPmksa => wpa_sm_set_pmk_from_pmksa
  | OpSetParam p v => _ ← wpa_sm_set_param p v; mret tt
  | OpSetConfig c => wpa_sm_set_config c
  | OpSetApIes b =>
      _ ← wpa_sm_set_ap_wpa_ie (bss_wpa b);
      _ ← wpa_sm_set_ap_rsn_ie (bss_rsn b);
      _ ← wpa_sm_set_ap_rsnxe (bss_rsnx b);
      _ ← wpa_sm_set_ap_rsne_override (bss_rsne_override b);
      _ ← wpa_sm_set_ap_rsne_override_2 (bss_rsne_override_2 b);
      _ ← wpa_sm_set_ap_rsnxe_override (bss_rsnx_override b);
      mret tt
  | OpAbortedCached => wpa_sm_aborted_cached
  | OpFlushPmksa ctx ext => pm_flush ctx ext
  | OpExpirePmksa => sm_pmksa_expire
  | OpSetRxReplayCtr r => wpa_sm_set_rx_replay_ctr r
  | OpWnmSleepKey id buf => _ ← wpa_wnmsleep_install_key id buf; mret tt
  end.

Fixpoint sm_run (os : list wpa_sm_op) : M unit :=
  match os with
  | [] => mret tt
  | o :: os => _ ← sm_do o; sm_run os
  end.
End ops.
