(* ===== verification/WpaLogic.v ===== *)
(** Reasoning about the monad of the RSN state machine

    [wp m Q w]: [m] from the world [w] returns, with a result and a world that satisfy
    [Q]; total correctness, which includes that no access leaves its object.
    [steps R m]: whenever [m] returns, the worlds before and after are related by the
    preorder [R]; for what holds of every step of a handler.
    [triple P m Q] and [keeps I m Q]: the same over the state alone. *)
From S2P Require Import Prelude PmksaCache WpaKey WpaSm.

(** ** Weakest preconditions *)
Definition wp {A} (m : M A) (Q : A → world → Prop) (w : world) : Prop :=
  match m w with Ret (a, w') => Q a w' | Abort => False | Undef => False end.

Section wp.
Context {A B : Type}.
Implicit Types (m : M A) (Q : A → world → Prop) (w : world).

Lemma wp_mono m Q Q' w : wp m Q w → (∀ a w', Q a w' → Q' a w') → wp m Q' w.
Proof. unfold wp. destruct (m w) as [[a w']| |]; auto. Qed.

Lemma wp_bind m (f : A → M B) (Q : B → world → Prop) w :
  wp m (λ a w', wp (f a) Q w') w → wp (m ≫= f) Q w.
Proof. unfold wp, mbind, M_bind. destruct (m w) as [[a w']| |]; done. Qed.

(** Through a call with a specification [P]. *)
Lemma wp_use m (f : A → M B) (P : A → world → Prop) (Q : B → world → Prop) w :
  wp m P w → (∀ a w', P a w' → wp (f a) Q w') → wp (m ≫= f) Q w.
Proof. intros H HP. apply wp_bind. eapply wp_mono; [exact H|exact HP]. Qed.

Lemma wp_ret (a : A) Q w : Q a w → wp (mret a) Q w.
Proof. done. Qed.
Lemma wp_ask (f : list event → A) Q w : Q (f (tr w)) w → wp (ask f) Q w.
Proof. done. Qed.
Lemma wp_acc o (a : A) Q w : o = Some a → Q a w → wp (acc o) Q w.
Proof. by intros ->. Qed.
Lemma wp_lift o (a : A) Q w : o = Ret a → Q a w → wp (lift o) Q w.
Proof. by intros ->. Qed.
Lemma wp_with_pm f (a : A) p Q w :
  f (pm (sm w)) = Ret (a, p) → Q a (mk_world ((sm w) <| pm := p |>) (tr w)) → wp (with_pm f) Q w.
Proof. unfold wp, with_pm. by intros ->. Qed.
Lemma wp_returns m Q w : wp m Q w → ∃ a w', m w = Ret (a, w') ∧ Q a w'.
Proof. unfold wp. destruct (m w) as [[a w']| |]; [eauto|done..]. Qed.
End wp.

Lemma wp_get Q w : Q (sm w) w → wp get_sm Q w.
Proof. done. Qed.
Lemma wp_upd f Q w : Q tt (mk_world (f (sm w)) (tr w)) → wp (upd f) Q w.
Proof. done. Qed.
Lemma wp_emit e Q w : Q tt (mk_world (sm w) (e :: tr w)) → wp (emit e) Q w.
Proof. done. Qed.

(** Runs the primitive operations at the head of the program. *)
Ltac wp_step :=
  lazymatch goal with
  | |- wp (mbind _ _) _ _ => apply wp_bind
  | |- wp get_sm _ _ => apply wp_get
  | |- wp (mret _) _ _ => apply wp_ret
  | |- wp (upd _) _ _ => apply wp_upd
  | |- wp (emit _) _ _ => apply wp_emit
  | |- wp (ask _) _ _ => apply wp_ask
  | |- wp (let '(_, _) := ?p in _) _ _ => destruct p
  end; cbv beta.
Ltac wp_run := repeat wp_step.

(** ** Triples

    [triple P m Q]: from every state that satisfies [P], [m] returns a result and a state
    that satisfy [Q].  [keeps I m Q]: [m] keeps [I] and its result satisfies [Q]. *)
Definition triple (P : wpa_sm → Prop) {A} (m : M A) (Q : A → wpa_sm → Prop) : Prop :=
  ∀ w, P (sm w) → wp m (λ a w', Q a (sm w')) w.
Definition keeps (I : wpa_sm → Prop) {A} (m : M A) (Q : A → Prop) : Prop :=
  triple I m (λ a s, I s ∧ Q a).

Section triple.
Context {A B : Type}.
Implicit Types (m : M A) (f : A → M B) (P I : wpa_sm → Prop) (Q : B → wpa_sm → Prop).

Lemma t_mono P m (R R' : A → wpa_sm → Prop) :
  triple P m R → (∀ a s, R a s → R' a s) → triple P m R'.
Proof. intros H HR w Hw. eapply wp_mono; [by apply H|]. intros a w'. apply HR. Qed.
Lemma t_pre P P' m (R : A → wpa_sm → Prop) :
  triple P' m R → (∀ s, P s → P' s) → triple P m R.
Proof. intros H HP w Hw. by apply H, HP. Qed.
Lemma t_seq P m f (R : A → wpa_sm → Prop) Q :
  triple P m R → (∀ a, triple (R a) (f a) Q) → triple P (m ≫= f) Q.
Proof. intros H Hf w Hw. eapply wp_use; [by apply H|]. intros a w' Ha. by apply Hf. Qed.
Lemma t_bind I m f (R : A → Prop) Q :
  keeps I m R → (∀ a, R a → triple I (f a) Q) → triple I (m ≫= f) Q.
Proof. intros H Hf. eapply t_seq; [exact H|]. intros a w [Hw Ha]. by apply Hf. Qed.
Lemma t_get I (f : wpa_sm → M B) Q : (∀ s, I s → triple I (f s) Q) → triple I (get_sm ≫= f) Q.
Proof. intros H w Hw. by apply H. Qed.
Lemma t_ask I (g : list event → A) f Q : (∀ a, triple I (f a) Q) → triple I (ask g ≫= f) Q.
Proof. intros H w Hw. by apply H. Qed.
Lemma t_emit I e (f : unit → M B) Q : triple I (f tt) Q → triple I (emit e ≫= f) Q.
Proof. intros H w Hw. by apply (H (mk_world (sm w) (e :: tr w))). Qed.
Lemma t_upd I g (f : unit → M B) Q :
  (∀ s, I s → I (g s)) → triple I (f tt) Q → triple I (upd g ≫= f) Q.
Proof. intros Hg H w Hw. apply (H (mk_world (g (sm w)) (tr w))). by apply Hg. Qed.
Lemma t_acc I o (a : A) f Q : o = Some a → triple I (f a) Q → triple I (acc o ≫= f) Q.
Proof. by intros ->. Qed.
Lemma t_lift I o (a : A) f Q : o = Ret a → triple I (f a) Q → triple I (lift o ≫= f) Q.
Proof. by intros ->. Qed.
Lemma t_mret I (a : A) f Q : triple I (f a) Q → triple I (mret a ≫= f) Q.
Proof. done. Qed.
Lemma t_assoc {X} I (m : M X) (g : X → M A) f Q :
  triple I (m ≫= λ x, g x ≫= f) Q → triple I ((m ≫= g) ≫= f) Q.
Proof.
  intros H w Hw. specialize (H w Hw). unfold wp, mbind, M_bind in *.
  destruct (m w) as [[x w']| |]; done.
Qed.
Lemma t_ret I (a : A) (R : A → wpa_sm → Prop) : (∀ s, I s → R a s) → triple I (mret a) R.
Proof. intros H w Hw. by apply H. Qed.
Lemma t_last I m (R : A → Prop) (R' : A → wpa_sm → Prop) :
  keeps I m R → (∀ a s, I s → R a → R' a s) → triple I m R'.
Proof. intros H HR. eapply t_mono; [exact H|]. intros a s [Hs Ha]. by apply HR. Qed.
Lemma t_pure (I : wpa_sm → Prop) (X : Prop) m (R : A → wpa_sm → Prop) :
  (X → triple I m R) → triple (λ s, X ∧ I s) m R.
Proof. intros H w [HX Hw]. by apply H. Qed.
End triple.

Lemma t_emit_last I e (R : unit → wpa_sm → Prop) :
  (∀ s, I s → R tt s) → triple I (emit e) R.
Proof. intros H w Hw. by apply H. Qed.
Lemma t_upd_last I g (R : unit → wpa_sm → Prop) :
  (∀ s, I s → R tt (g s)) → triple I (upd g) R.
Proof. intros H w Hw. by apply H. Qed.
Lemma t_ask_last {A} I (g : list event → A) (R : A → wpa_sm → Prop) :
  (∀ a s, I s → R a s) → triple I (ask g) R.
Proof. intros H w Hw. by apply H. Qed.

(** [safe] has the specifications of the calls.  [t_run] runs a program up to an access,
    an update or a call without a specification; the closing goals are left. *)
Create HintDb safe.
Ltac t_step :=
  lazymatch goal with
  | |- keeps _ _ _ => unfold keeps
  | |- triple _ (get_sm ≫= _) _ => apply t_get; intros ? ?
  | |- triple _ (ask _ ≫= _) _ => apply t_ask; intros ?
  | |- triple _ (emit _ ≫= _) _ => apply t_emit
  | |- triple _ (mret _ ≫= _) _ => apply t_mret
  | |- triple _ ((_ ≫= _) ≫= _) _ => apply t_assoc
  | |- triple _ ((if ?c then _ else _) ≫= _) _ => destruct c eqn:?
  | |- triple _ ((match ?x with _ => _ end) ≫= _) _ => destruct x eqn:?
  | |- triple _ (upd _ ≫= _) _ => apply t_upd; [by eauto with safe|]
  | |- triple _ (_ ≫= _) _ => eapply t_bind; [solve [eauto with safe]|intros ? ?]
  | |- triple _ (mret _) _ => apply t_ret; intros ? ?
  | |- triple _ (emit _) _ => apply t_emit_last; intros ? ?
  | |- triple _ (ask _) _ => apply t_ask_last; intros ? ? ?
  | |- triple _ (upd _) _ => apply t_upd_last; intros ? ?; split; [by eauto with safe|done]
  | |- triple _ (if ?c then _ else _) _ => destruct c eqn:?
  | |- triple _ (match ?x with _ => _ end) _ => destruct x eqn:?
  | |- triple _ _ _ => eapply t_last; [solve [eauto with safe]|intros ? ? ? ?]
  end; cbv beta zeta.
Ltac t_run := repeat t_step.

(** Through an access, in its continuation. *)
Ltac t_access L :=
  let x := fresh "x" in let Hx := fresh "Hx" in let Lx := fresh "Lx" in
  destruct L as (x & Hx & Lx); [..|eapply t_acc; [exact Hx|]].

(** ** Inversion of a run *)
Lemma run_bind {A B} (m : M A) (f : A → M B) w b w' :
  (m ≫= f) w = Ret (b, w') → ∃ a w1, m w = Ret (a, w1) ∧ f a w1 = Ret (b, w').
Proof.
  unfold mbind, M_bind. destruct (m w) as [[a w1]| |]; [|done..]. by exists a, w1.
Qed.
Lemma run_acc {A} (o : option A) w a w' : acc o w = Ret (a, w') → o = Some a ∧ w' = w.
Proof. unfold acc, lift, access. destruct o; [by intros [= -> ->]|done]. Qed.
Lemma run_lift {A} (o : outcome A) w a w' : lift o w = Ret (a, w') → o = Ret a ∧ w' = w.
Proof. unfold lift. destruct o; [by intros [= -> ->]|done..]. Qed.
Lemma run_ret {A} (x : A) w a w' : mret (M := M) x w = Ret (a, w') → a = x ∧ w' = w.
Proof. by intros [= -> ->]. Qed.

Section run.
Context {A B : Type} (w : world) (r : outcome (B * world)).
Lemma run_get (f : wpa_sm → M B) : (get_sm ≫= f) w = r → f (sm w) w = r.
Proof. done. Qed.
Lemma run_ask (g : list event → A) (f : A → M B) : (ask g ≫= f) w = r → f (g (tr w)) w = r.
Proof. done. Qed.
Lemma run_mret (a : A) (f : A → M B) : (mret a ≫= f) w = r → f a w = r.
Proof. done. Qed.
Lemma run_upd g (f : unit → M B) : (upd g ≫= f) w = r → f tt (mk_world (g (sm w)) (tr w)) = r.
Proof. done. Qed.
Lemma run_emit e (f : unit → M B) : (emit e ≫= f) w = r → f tt (mk_world (sm w) (e :: tr w)) = r.
Proof. done. Qed.
End run.

(** Inverts the first primitive operation of the run [H]. *)
Ltac run_step H :=
  lazymatch type of H with
  | (get_sm ≫= _) _ = _ => apply run_get in H; cbv beta zeta in H
  | (ask _ ≫= _) _ = _ => apply run_ask in H; cbv beta zeta in H
  | (mret _ ≫= _) _ = _ => apply run_mret in H; cbv beta zeta in H
  | (upd _ ≫= _) _ = _ => apply run_upd in H; cbv beta zeta in H
  | (emit _ ≫= _) _ = _ => apply run_emit in H; cbv beta zeta in H
  | (acc ?o ≫= _) ?w = _ =>
      let a := fresh "a" in let w1 := fresh "w" in let Ha := fresh "Ha" in
      apply run_bind in H as (a & w1 & [Ha ->]%run_acc & H)
  | (lift ?o ≫= _) ?w = _ =>
      let a := fresh "a" in let w1 := fresh "w" in let Ha := fresh "Ha" in
      apply run_bind in H as (a & w1 & [Ha ->]%run_lift & H)
  | (_ ≫= _) ?w = _ =>
      let a := fresh "a" in let w1 := fresh "w" in let Ha := fresh "Ha" in
      apply run_bind in H as (a & w1 & Ha & H)
  | mret _ _ = _ => apply run_ret in H as [-> ->]
  | (if ?c then _ else _) _ = _ => destruct c eqn:?
  end.

(** ** Relations that every step respects *)
Definition steps (R : world → world → Prop) {A} (m : M A) : Prop :=
  ∀ w a w', m w = Ret (a, w') → R w w'.

Section steps.
Context (R : world → world → Prop) `{!PreOrder R}.

Lemma steps_bind {A B} (m : M A) (f : A → M B) :
  steps R m → (∀ a, steps R (f a)) → steps R (m ≫= f).
Proof.
  intros Hm Hf w b w' E. unfold mbind, M_bind in E.
  destruct (m w) as [[a w1]| |] eqn:Em; try done.
  transitivity w1; [by eapply Hm|by eapply Hf].
Qed.
Lemma steps_ret {A} (a : A) : steps R (mret a).
Proof. by intros w ? w' [= _ <-]. Qed.
Lemma steps_get : steps R get_sm.
Proof. by intros w ? w' [= _ <-]. Qed.
Lemma steps_ask {A} (f : list event → A) : steps R (ask f).
Proof. by intros w ? w' [= _ <-]. Qed.
Lemma steps_lift {A} (o : outcome A) : steps R (lift o).
Proof. intros w a w'. unfold lift. destruct o; [by intros [= _ <-]|done..]. Qed.
Lemma steps_acc {A} (o : option A) : steps R (acc o).
Proof. apply steps_lift. Qed.
Lemma steps_upd f : (∀ w, R w (mk_world (f (sm w)) (tr w))) → steps R (upd f).
Proof. intros H w a w' [= _ <-]. apply H. Qed.
Lemma steps_emit e : (∀ w, R w (mk_world (sm w) (e :: tr w))) → steps R (emit e).
Proof. intros H w a w' [= _ <-]. apply H. Qed.
Lemma steps_with_pm {A} (f : pmksa_sm → outcome (A * pmksa_sm)) :
  (∀ w p, R w (mk_world ((sm w) <| pm := p |>) (tr w))) → steps R (with_pm f).
Proof.
  intros H w a w'. unfold with_pm. destruct (f (pm (sm w))) as [[? p]| |]; [|done..].
  intros [= _ <-]. apply H.
Qed.
Lemma steps_weaken (R' : world → world → Prop) {A} (m : M A) :
  (∀ w w', R' w w' → R w w') → steps R' m → steps R m.
Proof. intros H Hm w a w' E. eapply H, Hm, E. Qed.
End steps.

(** Walks over a program; [tac] closes the updates and the events, and the calls with a
    lemma of the hint database [steps]. *)
Create HintDb steps.
Ltac steps_walk tac :=
  lazymatch goal with
  | |- steps _ (mbind _ _) => apply steps_bind; [try apply _; done|steps_walk tac|intros ?; steps_walk tac]
  | |- steps _ (mret _) => apply steps_ret; apply _
  | |- steps _ get_sm => apply steps_get; apply _
  | |- steps _ (ask _) => apply steps_ask; apply _
  | |- steps _ (lift _) => apply steps_lift; apply _
  | |- steps _ (acc _) => apply steps_acc; apply _
  | |- steps _ (upd _) => first [solve [eauto with steps] | apply steps_upd; intros; tac]
  | |- steps _ (emit _) => first [solve [eauto with steps] | apply steps_emit; intros; tac]
  | |- steps _ (with_pm _) => apply steps_with_pm; intros; tac
  | |- steps _ (if ?c then _ else _) => destruct c; steps_walk tac
  | |- steps _ (match ?x with _ => _ end) => destruct x; steps_walk tac
  | |- steps _ _ => solve [eauto with steps]
  end.
