(* ===== verification/WpaSafe.v ===== *)
(** Memory safety of the RSN state machine: the state, sending and the keys

    [sm_ok] is the well-formedness of the state.  Each operation has one specification
    [<operation>_ok]: from a well-formed state it returns, leaves no buffer and keeps the
    state well-formed.  [WpaRxSafe] has the handlers of frames. *)
From S2P Require Import Prelude Bytes Defs Suites RsnIe RsnProofs RsnInsert PmksaCache PmksaProofs WpaKey WpaKeyProofs WpaSm WpaHandshake WpaLogic.

(** ** The PMK across operations of the PMKSA cache *)
Definition pmk_kept (s s' : pmksa_sm) : Prop := sm_pmk s' = sm_pmk s ∨ sm_pmk s' = [].

#[export] Instance pmk_kept_preorder : PreOrder pmk_kept.
Proof. split; [by left|]. intros a b c [E|E] [E'|E']; unfold pmk_kept; rewrite E'; auto. Qed.

Lemma pmk_kept_eq s s' : sm_pmk s' = sm_pmk s → pmk_kept s s'.
Proof. by left. Qed.

Lemma free_entry_pmk e r s : pmk_kept s (pmksa_cache_free_entry e r s).
Proof.
  unfold pmksa_cache_free_entry, wpa_sm_pmksa_free_cb. cbv zeta.
  destruct (_ || _); [by right|]. left.
  destruct (_ && _); destruct (is_current _ _); done.
Qed.

Lemma flush_loop_pmk ctx p ext l b s : pmk_kept s (flush_loop ctx p ext l b s).2.
Proof.
  revert b s. induction l as [|e l IH]; intros b s; cbn [flush_loop]; [done|].
  destruct (flush_matches _ _ _ _).
  - etrans; [apply (free_entry_pmk e PMKSA_FREE)|apply IH].
  - specialize (IH b s). destruct (flush_loop _ _ _ l b s) as [[? ?] ?]. exact IH.
Qed.

Lemma set_expiration_pmk now s s' : pmksa_cache_set_expiration now s = Ret s' → sm_pmk s' = sm_pmk s.
Proof.
  unfold pmksa_cache_set_expiration. cbv zeta. cbn [pmksa].
  destruct (pmksa _); [by intros [= <-]|].
  destruct (cur_pmksa _).
  - destruct (deref _ _); [|done]. rewrite access_bind, ret_bind. intros [= <-].
    by destruct (negb _).
  - rewrite ret_bind. intros [= <-]. destruct (pmksa_cache_get _ _ _ _ _); [|done].
    by destruct (negb _).
Qed.

Lemma flush_pmk now ctx p ext s s' : pmksa_cache_flush now ctx p ext s = Ret s' → pmk_kept s s'.
Proof.
  unfold pmksa_cache_flush. pose proof (flush_loop_pmk ctx p ext (pmksa s) false s) as H.
  destruct (flush_loop _ _ _ _ _ _) as [[l r] s1]. cbv zeta. destruct r.
  - intros E%set_expiration_pmk. etrans; [exact H|]. by left.
  - intros [= <-]. exact H.
Qed.

Lemma make_room_pmk s : pmk_kept s (make_room s).
Proof.
  unfold make_room. case_bool_decide; [|done]. destruct (pmksa s) as [|h [|p t]]; [done| |].
  - destruct (is_current s h); [done|].
    etrans; [|apply free_entry_pmk]. by left.
  - destruct (is_current s h); (etrans; [|apply free_entry_pmk]); by left.
Qed.

Lemma link_entry_pmk now e s s' : link_entry now e s = Ret s' → sm_pmk s' = sm_pmk s.
Proof.
  unfold link_entry. cbv zeta. destruct (at_head _ _).
  - destruct (pmksa_cache_set_expiration _ _) eqn:E; [|done..]. rewrite ret_bind.
    apply set_expiration_pmk in E. intros [= <-]. exact E.
  - rewrite ret_bind. by intros [= <-].
Qed.

Lemma add_entry_pmk now e s r s' : pmksa_cache_add_entry now e s = Ret (r, s') → pmk_kept s s'.
Proof.
  unfold pmksa_cache_add_entry. destruct (split_aa _ _) as [[[l p] l']|].
  - destruct (_ && _); [by intros [= _ <-]|]. cbv zeta. set (s1 := s <| pmksa := _ |> <| loose := _ |>).
    destruct (if opportunistic p then Ret s1 else _) as [s2| |] eqn:E1; [|done..].
    rewrite ret_bind. destruct (link_entry _ _ _) as [s3| |] eqn:E3; [|done..].
    rewrite ret_bind. intros [= _ <-]. apply link_entry_pmk in E3.
    assert (H2 : pmk_kept s s2).
    { destruct (opportunistic p); [injection E1 as <-; by left|].
      apply flush_pmk in E1. etrans; [|exact E1]. by left. }
    etrans; [exact H2|]. etrans; [|apply pmk_kept_eq, E3]. etrans; [|apply make_room_pmk].
    etrans; [|apply free_entry_pmk]. by left.
  - destruct (link_entry _ _ _) as [s3| |] eqn:E3; [|done..]. rewrite ret_bind.
    intros [= _ <-]. apply link_entry_pmk in E3.
    etrans; [apply make_room_pmk|by apply pmk_kept_eq].
Qed.

Lemma cache_add_pmk h ok now k i c a spa ctx akm f s r s' :
  pmksa_cache_add h ok now k i c a spa ctx akm f s = Ret (r, s') → pmk_kept s s'.
Proof.
  unfold pmksa_cache_add.
  destruct (bool_decide _); [by intros [= _ <-]|].
  destruct (_ && _); [by intros [= _ <-]|]. destruct (negb ok); [by intros [= _ <-]|].
  destruct (match i with Some p => Ret p | None => _ end) as [id| |]; [|done..].
  rewrite ret_bind. cbv zeta. set (e := mk_entry _ _ _ _ _ _ _ _ _ _ _).
  destruct (pmksa_cache_add_entry _ _ _) as [[x s1]| |] eqn:E; [|done..]. rewrite ret_bind.
  intros [= _ <-]. apply add_entry_pmk in E. etrans; [|exact E]. by left.
Qed.

(** ** The invariant *)
Definition opt_all {A} (P : A → Prop) (o : option A) : Prop :=
  match o with Some x => P x | None => True end.

(** An element has the length that its second octet says. *)
Definition element_ok (e : list Z) : Prop :=
  bytes_ok e ∧ ∃ l, rd e 1 = Some l ∧ blen e = 2 + l.

(** The own element of FT has an RSN element into which a PMKID can be inserted. *)
Definition own_ie_ok (ie : list Z) : Prop :=
  ∃ l e rest post, ie = flat_map element l ++ rsn_element e rest ++ post ∧
    Forall (λ x, x.1 ≠ WLAN_EID_RSN) l ∧ insertable e rest ∧
    ∀ k, blen k = 16 → blen (rsne_octets (with_pmkid e k) ++ rest) ≤ 253.

(** The elements of message 2/4, which have to fit into a frame. *)
Definition room_for (s : wpa_sm) : Z :=
  assoc_wpa_ie_len s + blen (default [] (assoc_rsnxe s)) + blen (default [] (assoc_resp_ies s)).

Definition own_elements_ok (s : wpa_sm) : Prop :=
  assoc_wpa_ie_len s = blen (default [] (assoc_wpa_ie s)) ∧ room_for s ≤ 60000 ∧
  (wpa_key_mgmt_ft (key_mgmt s) = true → opt_all own_ie_ok (assoc_wpa_ie s) ∧
                                         assoc_wpa_ie s ≠ None).

Record sm_ok (s : wpa_sm) : Prop := {
  so_pm : cache_ok (pm s);
  so_pmk : blen (pmk_of s) ≤ 64;
  so_ptk : ptk_ok (ptk s);
  so_tptk : ptk_ok (tptk s);
  so_snonce : blen (snonce s) = 32;
  so_replay : blen (rx_replay_counter s) = 8;
  so_request : blen (request_counter s) = 8;
  so_own : own_elements_ok s;
  so_rsnxe : opt_all element_ok (ap_rsnxe s);
  so_rsn : opt_all bytes_ok (ap_rsn_ie s);
  so_resp : opt_all bytes_ok (assoc_resp_ies s);
  so_r0 : blen (pmk_r0 s) = 64 ∧ 0 ≤ pmk_r0_len s ≤ 64;
  so_r1 : blen (pmk_r1 s) = 64 ∧ 0 ≤ pmk_r1_len s ≤ 64;
  so_name : blen (pmk_r1_name s) = 16;
}.

(** What most operations leave alone. *)
Record kept := mk_kept {
  v_pmk : list Z;
  v_akm : Z;
  v_ptk : wpa_ptk;
  v_tptk : wpa_ptk;
  v_resp : option (list Z);
  v_mgmt : Z;
  v_rsn : bool;
}.
Record keys_are (v : kept) (s : wpa_sm) : Prop := {
  ka_ok : sm_ok s;
  ka_pmk : pmk_of s = v_pmk v;
  ka_akm : key_mgmt s = v_akm v;
  ka_ptk : ptk s = v_ptk v;
  ka_tptk : tptk s = v_tptk v;
  ka_resp : assoc_resp_ies s = v_resp v;
  ka_mgmt : mgmt_group_cipher s = v_mgmt v;
  ka_rsn : is_rsn s = v_rsn v;
}.
(** The same without the PMK. *)
Record ptks_are (v : kept) (s : wpa_sm) : Prop := {
  pa_ok : sm_ok s;
  pa_akm : key_mgmt s = v_akm v;
  pa_ptk : ptk s = v_ptk v;
  pa_tptk : tptk s = v_tptk v;
  pa_resp : assoc_resp_ies s = v_resp v;
  pa_mgmt : mgmt_group_cipher s = v_mgmt v;
  pa_rsn : is_rsn s = v_rsn v;
}.

(** Splits a well-formed state into its parts, for an update of one of them. *)
Ltac sm_split :=
  intros; repeat match goal with
  | H : keys_are _ _ |- _ => destruct H
  | H : ptks_are _ _ |- _ => destruct H
  | H : sm_ok _ |- _ => destruct H
  | |- keys_are _ _ => split
  | |- ptks_are _ _ => split
  | |- sm_ok _ => split
  end; try done;
  try (lazymatch goal with |- cache_ok _ => by eapply cache_ok_same; [|eassumption] end).
#[export] Hint Extern 1 (keys_are _ (update _ _ _)) => solve [sm_split] : safe.
#[export] Hint Extern 1 (ptks_are _ (update _ _ _)) => solve [sm_split] : safe.
#[export] Hint Extern 1 (sm_ok (update _ _ _)) => solve [sm_split] : safe.
#[export] Hint Resolve ka_ok pa_ok : safe.

(** What the environment promises. *)
Class env_ok (E : wpa_env) : Prop := {
  random_len t r : env_random t = Some r → blen r = 32;
  eapol_key_len t n k : env_eapol_key t n = inl k → blen k = n;
  bss_rsn_ok t b : env_bss t = Some b → opt_all bytes_ok (bss_rsn b);
  bss_rsnx_ok t b : env_bss t = Some b → opt_all element_ok (bss_rsnx b);
}.

Section safe.
Context `{C : wpa_crypto} {L : wpa_crypto_laws C} `{E : wpa_env} {EO : env_ok E}.
Implicit Types (I : wpa_sm → Prop).

(** ** Calls *)
Definition any {A} (_ : A) : Prop := True.

Lemma os_malloc_ok I n : keeps I (os_malloc n) any.
Proof. unfold os_malloc. by t_run. Qed.
Lemma random_ok I : keeps I random_get_bytes (opt_all (λ n, blen n = 32)).
Proof.
  intros w Hw. unfold random_get_bytes. wp_run. split; [done|].
  destruct (env_random _) eqn:En; [by eapply random_len|done].
Qed.
Lemma get_bssid_ok I : keeps I wpa_sm_get_bssid any.
Proof. unfold wpa_sm_get_bssid. by t_run. Qed.
Lemma set_key_ok I k : keeps I (wpa_sm_set_key k) any.
Proof. unfold wpa_sm_set_key. by t_run. Qed.
Lemma ether_send_ok I d t b : keeps I (wpa_sm_ether_send d t b) any.
Proof. unfold wpa_sm_ether_send. by t_run. Qed.
Lemma eapol_key_ok I n : keeps I (eapol_sm_get_key n) (λ r, ∀ k, r = inl k → blen k = n).
Proof.
  intros w Hw. unfold eapol_sm_get_key. wp_run. split; [done|]. intros k. apply eapol_key_len.
Qed.

Lemma alloc_ok I ty n :
  keeps I (wpa_alloc_eapol ty n) (opt_all (λ b, blen b = 4 + u16 n)).
Proof using EO.
  unfold wpa_alloc_eapol. eapply t_bind; [apply os_malloc_ok|]. intros ok _.
  apply t_ret. intros s Hs. split; [done|]. destruct ok; [|done]. cbn [opt_all].
  rewrite !length_app. cbn [length]. change (length (be16_bytes (u16 n))) with 2%nat.
  unfold zeros. rewrite length_replicate.
  pose proof (wrap_range 16 n ltac:(lia)). lia.
Qed.
#[local] Hint Resolve os_malloc_ok random_ok get_bssid_ok set_key_ok ether_send_ok eapol_key_ok
  alloc_ok : safe.

(** ** Elements of the AP *)
Lemma set_element_ok I f ie :
  (∀ s, I s → I (f None s)) → (∀ e s, ie = Some e → I s → I (f (Some e) s)) →
  keeps I (set_element f ie) any.
Proof.
  intros H0 H1. unfold set_element, keeps. destruct ie as [[|x e]|]; [by t_run| |by t_run].
  t_step. t_step; (apply t_upd; [by eauto|t_run]); done.
Qed.

Definition bss_ok (b : bss_ies) : Prop :=
  opt_all bytes_ok (bss_rsn b) ∧ opt_all element_ok (bss_rsnx b).

Lemma set_elements_ok v b :
  bss_ok b →
  let I := keys_are v in
  keeps I (wpa_sm_set_ap_wpa_ie (bss_wpa b)) any ∧ keeps I (wpa_sm_set_ap_rsn_ie (bss_rsn b)) any ∧
  keeps I (wpa_sm_set_ap_rsnxe (bss_rsnx b)) any ∧
  keeps I (wpa_sm_set_ap_rsne_override (bss_rsne_override b)) any ∧
  keeps I (wpa_sm_set_ap_rsne_override_2 (bss_rsne_override_2 b)) any ∧
  keeps I (wpa_sm_set_ap_rsnxe_override (bss_rsnx_override b)) any.
Proof.
  intros [H1 H2]. cbv zeta. split_and!; apply set_element_ok; try by sm_split.
  - intros e s He Hs. rewrite He in H1. sm_split.
  - intros e s He Hs. rewrite He in H2. sm_split.
Qed.

Lemma ask_bss_ok I : keeps I (ask env_bss) (opt_all bss_ok).
Proof.
  intros w Hw. apply wp_ask. split; [done|]. destruct (env_bss _) eqn:Eb; [|done].
  split; [by eapply bss_rsn_ok|by eapply bss_rsnx_ok].
Qed.

Lemma get_beacon_ok v : keeps (keys_are v) wpa_get_beacon_ie any.
Proof using EO.
  unfold wpa_get_beacon_ie. eapply t_bind; [apply ask_bss_ok|]. intros [b|] Hb; t_run; try done.
  destruct (set_elements_ok v b Hb) as (?&?&?&?&?&?).
  do 6 (eapply t_bind; [by eauto|intros ? _]). by t_run.
Qed.

Lemma sm_get_beacon_ok v : keeps (keys_are v) wpa_sm_get_beacon_ie any.
Proof using EO. pose proof (get_beacon_ok v). unfold wpa_sm_get_beacon_ie. by t_run. Qed.

(** ** Sending *)

(** A MIC under these keys fits into the MIC field. *)
Definition fits (v : kept) (ver : Z) (p : wpa_ptk) : Prop :=
  mic_octets (v_akm v) ver (kck_len p) ≤ wpa_mic_len (v_akm v) (blen (v_pmk v)).

Lemma kck_slice p : ptk_ok p → ∃ k, slice (kck p) 0 (kck_len p) = Some k ∧ blen k = kck_len p.
Proof.
  intros []. destruct (slice_is_Some (kck p) 0 (kck_len p)) as [k Hk]; [lia..|].
  exists k. split; [done|]. by eapply slice_length.
Qed.
Lemma kek_slice p : ptk_ok p → ∃ k, slice (kek p) 0 (kek_len p) = Some k ∧ blen k = kek_len p.
Proof.
  intros []. destruct (slice_is_Some (kek p) 0 (kek_len p)) as [k Hk]; [lia..|].
  exists k. split; [done|]. by eapply slice_length.
Qed.

Lemma key_send_ok v keys ver dest ety msg (mic : bool) :
  ptk_ok keys →
  (mic = true → off_mic + mic_octets (v_akm v) ver (kck_len keys) ≤ blen msg) →
  keeps (keys_are v) (wpa_eapol_key_send keys ver dest ety msg mic) any.
Proof.
  intros Hp Hm. unfold wpa_eapol_key_send. t_step. t_step.
  eapply (t_bind _ _ _ any).
  { t_run; done. }
  intros d _. t_step; [|by t_run]. t_step; [by t_run|].
  destruct (kck_slice keys Hp) as (kc & Hkc & Hl). eapply t_acc; [exact Hkc|].
  destruct mic; [|by t_run].
  destruct (eapol_key_mic_ok kc (v_akm v) ver msg) as (m & Em & Hmic).
  destruct H as [_ _ -> _ _ _ _].
  t_step. eapply t_lift; [exact Em|]. destruct m as [m|]; [|by t_run].
  destruct Hmic as [Hlm _]. rewrite Hl in Hlm.
  t_step. destruct (blit msg off_mic m) as [msg'|] eqn:Eb.
  2:{ rewrite blit_in in Eb; [done|unfold off_mic in *; lia|]. specialize (Hm eq_refl). lia. }
  eapply t_acc; [done|]. by t_run.
Qed.

Lemma wr_ok (b : list Z) i x : 0 ≤ i < blen b → ∃ b', wr b i x = Some b' ∧ blen b' = blen b.
Proof.
  intros H. pose proof (wr_in b i x H) as Ew. eexists. split; [exact Ew|].
  by rewrite (wr_length _ _ _ _ Ew).
Qed.
Lemma blit_ok (b : list Z) o src :
  0 ≤ o → o + blen src ≤ blen b → ∃ b', blit b o src = Some b' ∧ blen b' = blen b.
Proof.
  intros Ho H. destruct (blit b o src) as [b'|] eqn:Eb.
  - exists b'. split; [done|]. by rewrite (blit_length _ _ _ _ Eb).
  - rewrite blit_in in Eb by lia. done.
Qed.
Lemma slice_ok (b : list Z) o n :
  0 ≤ o → 0 ≤ n → o + n ≤ blen b → ∃ x, slice b o n = Some x ∧ blen x = n.
Proof.
  intros Ho Hn H. destruct (slice_is_Some b o n) as [x Hx]; [lia..|]. exists x.
  split; [done|]. by eapply slice_length.
Qed.

Lemma fill_reply_ok s b key_info msg :
  81 ≤ blen b → 17 ≤ blen msg → ∃ msg', fill_reply s b key_info msg = Some msg' ∧ blen msg' = blen msg.
Proof.
  intros Hb Hm. unfold fill_reply, WPA_PUT_BE16.
  unfold off_type, off_key_info, off_key_length, off_replay, frame_key_length, frame_replay.
  destruct (wr_ok msg 4 (reply_type s)) as (m1 & -> & L1); [lia|]. cbn [mbind option_bind].
  destruct (blit_ok m1 5 (be16_bytes key_info)) as (m2 & -> & L2); [done|cbn; lia|]. cbn [mbind option_bind].
  destruct (slice_ok b off_key_length 2) as (l & -> & Ll); [done|done|unfold off_key_length; lia|].
  destruct (slice_ok b off_replay WPA_REPLAY_COUNTER_LEN) as (r & -> & Lr);
    [done|done|unfold off_replay, WPA_REPLAY_COUNTER_LEN; lia|].
  assert (Hl : ∃ x, (if is_rsn s then Some (be16_bytes 0) else Some l) = Some x ∧ blen x = 2)
    by (destruct (is_rsn s); eauto).
  destruct Hl as (x & -> & Lx). cbn [mbind option_bind].
  destruct (blit_ok m2 7 x) as (m3 & -> & L3); [lia..|]. cbn [mbind option_bind].
  destruct (blit_ok m3 9 r) as (m4 & -> & L4);
    [done|unfold WPA_REPLAY_COUNTER_LEN in *; lia|]. exists m4. split; [done|lia].
Qed.

Lemma v_mic_len v s : keys_are v s → reply_mic_len s = wpa_mic_len (v_akm v) (blen (v_pmk v)) ∧
  0 ≤ reply_mic_len s ≤ 32.
Proof.
  intros [Hok H1 H2 _ _ _ _]. unfold reply_mic_len. rewrite H1, H2. split; [done|].
  apply mic_len_range. pose proof (so_pmk s Hok). rewrite <- H1. lia.
Qed.

Lemma empty_reply_ok v dst b ver key_info keys :
  ptk_ok keys → fits v ver keys → 81 ≤ blen b →
  keeps (keys_are v) (send_empty_reply dst b ver key_info keys) any.
Proof using L EO.
  intros Hp Hf Hb. unfold send_empty_reply. t_step. t_step.
  destruct (v_mic_len v s H) as [Hm Hr]. unfold sizeof_key, off_mic in *.
  eapply t_bind; [apply alloc_ok|]. intros [msg|] Hl; [|by t_run]. cbn in Hl.
  rewrite wrap_small in Hl by (change (2 ^ 16) with 65536; lia).
  t_access (fill_reply_ok s b (Z.lor key_info (mic_or_encr (reply_mic_len s))) msg); [lia..|].
  unfold WPA_PUT_BE16. t_access (blit_ok x (81 + reply_mic_len s) (be16_bytes 0)); [lia|cbn; lia|].
  eapply t_last; [apply key_send_ok; [done|]|by split].
  intros _. unfold fits in Hf. unfold off_mic. lia.
Qed.

Lemma send_4_of_4_ok v dst b ver key_info keys :
  ptk_ok keys → fits v ver keys → 81 ≤ blen b →
  keeps (keys_are v) (wpa_supplicant_send_4_of_4 dst b ver key_info keys) any.
Proof using L EO. intros. by apply empty_reply_ok. Qed.

Lemma send_2_of_2_ok v b ver key_info :
  fits v ver (v_ptk v) → 81 ≤ blen b →
  keeps (keys_are v) (wpa_supplicant_send_2_of_2 b ver key_info) any.
Proof using L EO.
  intros Hf Hb. unfold wpa_supplicant_send_2_of_2. t_step. t_step.
  destruct (ka_ptk v s H). eapply t_last; [apply empty_reply_ok; try done|by split].
  apply (ka_ok v s H).
Qed.

(** ** Message 2/4 *)
Lemma with_pmkid_length e rest k :
  blen k = 16 → blen (rsn_element (with_pmkid e k) rest) ≤ blen (rsn_element e rest) + 20.
Proof.
  intros Hk. unfold rsn_element, rsne_octets, with_pmkid.
  cbn [r_group r_pairwise r_akms r_capab r_pmkids r_mgmt opt_octets].
  assert (Hp : blen (pmkids_octets [k]) = 18).
  { unfold pmkids_octets. cbn [concat]. rewrite app_nil_r, length_app.
    change (length (le16_bytes _)) with 2%nat. lia. }
  rewrite !length_app. change (length (le16_bytes _)) with 2%nat.
  unfold rsne_header. cbn [length]. lia.
Qed.

Lemma zeros_length n : 0 ≤ n → blen (zeros n) = n.
Proof. intros. unfold zeros. rewrite length_replicate. lia. Qed.

Lemma insert_room ie name n :
  own_ie_ok ie → blen name = 16 → 20 ≤ n →
  ∃ buf len, wpa_insert_pmkid (ie ++ zeros n) (blen ie) name = Some (0, buf, len) ∧
    blen buf = blen ie + n ∧ 0 ≤ len ≤ blen ie + 20.
Proof.
  intros (l & e & rest & post & -> & Hl & Hi & Hlen) Hn Hr.
  pose proof (zeros_length n ltac:(lia)) as Hz. pose proof (with_pmkid_length e rest name Hn) as Hw.
  destruct (insert_pmkid_into l e rest post (zeros n) name) as [sp Hins];
    [done|done|done|lia|by apply Hlen|].
  rewrite <- !(assoc_L (++)). pose proof (insert_pmkid_length _ _ _ _ _ _ Hins) as Hbl.
  eexists _, _. split; [exact Hins|]. rewrite !length_app in Hbl. rewrite !length_app.
lia.
Qed.

Lemma ft_ie_ok v ie :
  own_ie_ok ie →
  keeps (keys_are v) (ft_2_of_4_ie ie)
    (opt_all (λ e, blen e ≤ blen ie + 20 + blen (default [] (v_resp v)))).
Proof using EO.
  intros Hie. unfold ft_2_of_4_ie. t_step. t_step.
  eapply t_bind; [apply os_malloc_ok|]. intros ok _. t_step; [by t_run|].
  destruct (ka_resp v s H). set (resp := default [] _). unfold PMKID_LEN.
  destruct (insert_room ie (pmk_r1_name s) (2 + 2 + 16 + blen resp)) as (buf & len & Hins & Hb & Hl);
    [done|apply (ka_ok v s H)|lia|].
  eapply t_acc; [exact Hins|]. cbv beta iota. t_step; [by t_run|].
  t_access (blit_ok buf len resp); [lia..|].
  t_access (slice_ok x 0 (len + blen resp)); [lia..|].
  apply t_ret. intros s' Hs'. split; [done|]. cbn. lia.
Qed.

Lemma rsn_selection_ok v ie :
  keeps (keys_are v) (add_rsn_selection ie) (opt_all (λ e, blen e ≤ blen ie + 7)).
Proof using EO.
  unfold add_rsn_selection. t_step. t_step. t_step.
  { apply t_ret. intros s' Hs'. split; [done|]. cbn. lia. }
  eapply t_bind; [apply os_malloc_ok|]. intros ok _. t_step; [by t_run|].
  apply t_ret. intros s' Hs'. split; [done|].
  destruct (rsn_selection s) as [x|]; [|done]. cbn. rewrite length_app. cbn. lia.
Qed.

(** [room] is what is left for the own elements. *)
Lemma send_2_of_4_ok v dst b ver nonce ie keys :
  ptk_ok keys → fits v ver keys → 81 ≤ blen b → blen nonce = 32 →
  (wpa_key_mgmt_ft (v_akm v) = true → own_ie_ok ie) →
  blen ie + blen (default [] (v_resp v)) ≤ 65000 →
  keeps (keys_are v) (wpa_supplicant_send_2_of_4 dst b ver nonce (Some ie) keys) any.
Proof using L EO.
  intros Hp Hf Hb Hn Hft Hlen. unfold wpa_supplicant_send_2_of_4. t_step. t_step.
  eapply (t_bind _ _ _ (opt_all (λ e, blen e ≤ blen ie + 20 + blen (default [] (v_resp v))))).
  { destruct (ka_akm v s H). unfold keeps. t_step; [apply ft_ie_ok; auto|].
    apply t_ret. intros s' Hs'. split; [done|]. cbn. lia. }
  intros ie1 H1.
  eapply (t_bind _ _ _ (opt_all (λ e, blen e ≤ 65100))).
  { destruct ie1 as [ie1|]; [|by t_run]. cbn in H1. eapply t_last; [apply rsn_selection_ok|].
    intros [e|] s' Hs' He; [|done]. split; [done|]. cbn in He |- *. lia. }
  intros [ie2|] H2; [|by t_run]. cbn in H2.
  destruct (v_mic_len v s H) as [Hm Hr]. unfold sizeof_key, off_mic in *.
  eapply t_bind; [apply alloc_ok|]. intros [msg|] Hl; [|by t_run]. cbn in Hl.
  rewrite wrap_small in Hl by (change (2 ^ 16) with 65536; lia).
  match goal with |- context [fill_reply s b ?ki msg] => t_access (fill_reply_ok s b ki msg) end; [lia..|].
  unfold WPA_PUT_BE16. t_access (blit_ok x (81 + reply_mic_len s) (be16_bytes (u16 (blen ie2)))); [lia|cbn; lia|].
  t_access (blit_ok x0 (81 + reply_mic_len s + 2) ie2); [lia..|].
  t_access (blit_ok x1 off_nonce nonce); [done|unfold off_nonce; lia|].
  eapply t_last; [apply key_send_ok; [done|]|by split].
  intros _. unfold fits in Hf. unfold off_mic. lia.
Qed.

Lemma deny_ok I : keeps I deny_ptk0_rekey any.
Proof. unfold deny_ptk0_rekey, wpa_sm_get_state. by t_run. Qed.

(** A KCK whose length depends on the PMK is not longer than the MIC field. *)
Definition kck_fits (v : kept) (p : wpa_ptk) : Prop :=
  v_akm v ∈ [WPA_KEY_MGMT_SAE_EXT_KEY; WPA_KEY_MGMT_DPP] →
  kck_len p ≤ wpa_mic_len (v_akm v) (blen (v_pmk v)).
Lemma kck_fits_fits v ver p :
  kck_fits v p → (wpa_use_akm_defined (v_akm v) = true → ver = WPA_KEY_INFO_TYPE_AKM_DEFINED) →
  fits v ver p.
Proof. intros Hk Hv. apply mic_octets_fit; [done|exact Hk|lia]. Qed.

Lemma key_request_ok v error pairwise :
  kck_fits v (v_ptk v) → keeps (keys_are v) (wpa_sm_key_request error pairwise) any.
Proof using L EO.
  intros Hk. unfold wpa_sm_key_request. t_step.
  eapply (t_bind _ _ _ any).
  { destruct pairwise; [apply deny_ok|by t_run]. }
  intros deny _. t_step; [by t_run; unfold wpa_sm_reconnect; t_run|]. t_step.
  eapply t_bind; [apply get_bssid_ok|]. intros [bs|] _; [|by t_run].
  destruct (v_mic_len v s H) as [Hm Hr]. unfold sizeof_key, off_mic in *.
  eapply t_bind; [apply alloc_ok|]. intros [msg|] Hl; [|by t_run]. cbn in Hl.
  rewrite wrap_small in Hl by (change (2 ^ 16) with 65536; lia).
  pose proof (so_request s (ka_ok v s H)). unfold WPA_PUT_BE16, off_key_info, off_key_length.
  t_access (wr_ok msg off_type (reply_type s)); [unfold off_type; lia|].
  match goal with |- context [blit x 5 ?o] => t_access (blit_ok x 5 o); [done|cbn; lia|] end.
  t_access (blit_ok x0 7 (be16_bytes 0)); [done|cbn; lia|].
  t_access (blit_ok x1 off_replay (request_counter s)); [done|unfold off_replay; lia|].
  apply t_upd; [|].
  { intros s' Hs'. assert (Hi : blen (inc_byte_array (request_counter s')) = 8)
      by (rewrite inc_length; apply (ka_ok v s' Hs')). sm_split. }
  t_access (blit_ok x2 (81 + reply_mic_len s) (be16_bytes 0)); [lia|cbn; lia|].
  assert (Hf : fits v (key_request_ver s) (v_ptk v)).
  { apply kck_fits_fits; [done|]. unfold key_request_ver. rewrite (ka_akm v s H). by intros ->. }
  destruct (ka_ptk v s H). eapply t_bind; [apply key_send_ok; [apply (ka_ok v s H)|]|by t_run].
  intros _. unfold fits in Hf. unfold off_mic. lia.
Qed.

(** ** The PMK *)
Lemma pmkid_hmac_ok alg k d : PMKID_LEN ≤ blen (snd (pmkid_hmac alg k d)).
Proof using L.
  unfold PMKID_LEN, pmkid_hmac. destruct (hash_residue_len k d) as [Hr _]. unfold SHA384_MAC_LEN in Hr.
  destruct alg; case_match; simpl; try lia; simplify_eq.
  - match goal with H : hmac_sha1 _ _ = _ |- _ => apply hmac_sha1_len in H as [? _]; lia end.
  - match goal with H : hmac_sha256 _ _ = _ |- _ => apply hmac_sha256_len in H as [? _]; lia end.
  - match goal with H : hmac_sha384 _ _ = _ |- _ => apply hmac_sha384_len in H as [? _]; lia end.
Qed.

(** An entry of the cache or none. *)
Definition cur_ok (c : option nat) (p : pmksa_sm) : Prop := ∀ id, c = Some id → id ∈ ids (pmksa p).

Lemma keys_ptks v s : keys_are v s → ptks_are v s.
Proof. intros []. by split. Qed.

Lemma ptks_pm v s p :
  ptks_are v s → cache_ok p → blen (sm_pmk p) ≤ 64 → ptks_are v (s <| pm := p |>).
Proof. intros. sm_split. Qed.

Lemma with_pm_ok {A} v (f : pmksa_sm → outcome (A * pmksa_sm)) (Q : A → pmksa_sm → Prop) :
  (∀ p, cache_ok p → ∃ a p', f p = Ret (a, p') ∧ cache_ok p' ∧ pmk_kept p p' ∧ Q a p') →
  triple (ptks_are v) (with_pm f) (λ a s, ptks_are v s ∧ Q a (pm s)).
Proof.
  intros Hf w Hw. destruct (Hf (pm (sm w))) as (a & p & Ef & Hc & Hk & HQ); [apply Hw|].
  eapply wp_with_pm; [exact Ef|]. split; [|done]. apply ptks_pm; [done|done|].
  pose proof (so_pmk _ (pa_ok v _ Hw)) as Hp. unfold pmk_of in Hp.
  destruct Hk as [-> | ->]; [done|cbn; lia].
Qed.

Lemma pmksa_add_ok v k i kc a :
  triple (ptks_are v) (pmksa_add k i kc a) (λ r s, ptks_are v s ∧ cur_ok r (pm s)).
Proof using L EO.
  unfold pmksa_add. t_step. eapply t_bind; [apply os_malloc_ok|]. intros ok _. t_step.
  apply with_pm_ok. intros p Hp.
  destruct (add_ok pmkid_hmac pmkid_hmac_ok ok a0 k i kc a (sm_own_addr s) (config_ctx s)
    (key_mgmt s) None p Hp) as (r & p' & Ea & Hc & _ & Hr).
  exists r, p'. split; [done|]. split; [done|]. split; [by eapply cache_add_pmk|].
  intros id ->. destruct Hr as (e & _ & _ & _ & _ & (x & Hx & <- & _) & _).
  apply list_elem_of_fmap. by exists x.
Qed.

Lemma set_cur_pmksa_ok v c :
  triple (λ s, ptks_are v s ∧ cur_ok c (pm s)) (set_cur_pmksa c) (λ _ s, ptks_are v s).
Proof.
  apply t_upd_last. intros s [Hs Hc]. apply ptks_pm; [done| |].
  - by apply set_cur_ok; [apply Hs|].
  - apply (so_pmk _ (pa_ok v s Hs)).
Qed.
Lemma clear_cur_pmksa_ok v : keeps (ptks_are v) (set_cur_pmksa None) any.
Proof.
  eapply t_mono; [eapply t_pre; [apply set_cur_pmksa_ok|]|]; [by intros s Hs|by intros ? s Hs].
Qed.

Lemma upd_pmk_ok v f :
  (∀ p, (pmksa (f p), pmksa_count (f p), loose (f p), cur_pmksa (f p), expire_timer (f p), next_id (f p)) =
        (pmksa p, pmksa_count p, loose p, cur_pmksa p, expire_timer p, next_id p) ∧
        (blen (sm_pmk p) ≤ 64 → blen (sm_pmk (f p)) ≤ 64)) →
  keeps (ptks_are v) (upd (λ s, s <| pm ::= f |>)) any.
Proof.
  intros Hf. apply t_upd_last. intros s Hs. destruct (Hf (pm s)) as [Ef Hl]. split; [|done].
  apply ptks_pm; [done|eapply cache_ok_same; [exact Ef|apply Hs]|].
  apply Hl, (so_pmk _ (pa_ok v s Hs)).
Qed.
Lemma set_pmk_ok v k : blen k ≤ 64 → keeps (ptks_are v) (set_pmk k) any.
Proof.
  intros Hk. by apply upd_pmk_ok.
Qed.

Lemma cur_entry_ok s : cache_ok (pm s) →
  ∃ e, cur_entry s = Some e ∧ opt_all (λ e, blen (pmk e) ≤ 64) e.
Proof.
  intros [Hh Hl]. unfold cur_entry. destruct (cur_pmksa (pm s)) as [id|] eqn:Ec; [|by exists None].
  destruct (deref_in (pm s) id) as [e He]; [by apply ok_cur|]. rewrite He. exists (Some e).
  split; [done|]. unfold deref in He. apply List.find_some in He as [Hin _].
  destruct (ok_list _ Hh) as [_ _ Hf]. rewrite Forall_forall in Hf.
  apply list_elem_of_In, Hf in Hin as [_ Hp]. exact Hp.
Qed.

Lemma pmk_from_pmksa_ok v : keeps (ptks_are v) wpa_sm_set_pmk_from_pmksa any.
Proof.
  unfold wpa_sm_set_pmk_from_pmksa. t_step. t_step.
  destruct (cur_entry_ok s) as (e & He & Hp); [apply H|]. eapply t_acc; [exact He|].
  destruct e; [eapply t_last; [by apply set_pmk_ok|done]|]. apply upd_pmk_ok.
  intros p. split; [done|]. cbn. lia.
Qed.

Lemma set_pmk_op_ok v k i b : blen k ≤ 64 → keeps (ptks_are v) (wpa_sm_set_pmk k i b) any.
Proof using L EO.
  intros Hk. unfold wpa_sm_set_pmk. t_step. eapply (t_acc _ _ tt).
  { by rewrite bool_decide_eq_true_2. }
  eapply t_bind; [by apply set_pmk_ok|]. intros _ _. t_step. destruct b; [|by t_run].
  eapply t_seq; [apply pmksa_add_ok|]. intros r. eapply t_mono; [apply set_cur_pmksa_ok|by split].
Qed.

Lemma find_pmksa_ok v a i : keeps (ptks_are v) (find_pmksa a i) any.
Proof.
  intros w Hw. unfold find_pmksa. wp_run. destruct i as [i|]; [|by wp_run].
  destruct (cur_pmksa _); [by wp_run|]. cbv zeta. wp_run.
  set (c := e_id <$> _). eapply wp_mono; [apply (set_cur_pmksa_ok v c)|].
  - split; [done|]. intros id Hid. subst c. apply fmap_Some in Hid as (e & He & ->).
    unfold pmksa_cache_get in He. apply List.find_some in He as [Hin _].
    apply list_elem_of_fmap. exists e. split; [done|by apply list_elem_of_In].
  - intros ? w' Hw'. split; [exact Hw'|done].
Qed.

Lemma key_mgmt_set_pmk_ok I : keeps I wpa_supplicant_key_mgmt_set_pmk any.
Proof. unfold wpa_supplicant_key_mgmt_set_pmk. by t_run. Qed.

Lemma use_cached_ok v : keeps (ptks_are v) use_cached_pmk any.
Proof.
  unfold use_cached_pmk. t_step. eapply t_bind; [apply pmk_from_pmksa_ok|]. intros _ _. t_step.
  t_step. t_step. t_step; [|by t_run]. apply t_upd_last. intros s' Hs'. split; [sm_split|done].
Qed.

Lemma set_xxkey_ok v a msk : blen msk = 64 → keeps (ptks_are v) (set_xxkey_from_msk a msk) any.
Proof using L EO.
  intros Hm. unfold set_xxkey_from_msk. t_step. t_step.
  assert (Hk : ∃ k, (if wpa_key_mgmt_sha384 (key_mgmt s) then slice msk 0 SHA384_MAC_LEN
           else slice msk PMK_LEN PMK_LEN) = Some k).
  { unfold SHA384_MAC_LEN, PMK_LEN. destruct (wpa_key_mgmt_sha384 _); apply slice_is_Some; lia. }
  destruct Hk as [k Hk]. eapply t_acc; [exact Hk|]. t_step. t_step; [|by t_run].
  eapply t_seq; [apply pmksa_add_ok|]. intros r. t_step.
  t_step; [eapply t_mono; [apply set_cur_pmksa_ok|by split]|]. apply t_ret. by intros ? [? ?].
Qed.

Lemma use_msk_ok v a i (ab : bool) k : blen k ≤ 64 → keeps (ptks_are v) (use_msk a i ab k) any.
Proof using L EO.
  intros Hk. unfold use_msk. t_step. eapply t_bind.
  { apply (upd_pmk_ok _ (set_pmk_len (length k))). intros p. split; [done|]. cbn.
    rewrite length_take. lia. }
  intros _ _. eapply t_bind; [apply key_mgmt_set_pmk_ok|]. intros _ _. t_step.
  eapply (t_seq _ _ _ (λ sa s, ptks_are v s ∧ cur_ok sa (pm s))).
  { t_step; [apply pmksa_add_ok|]. apply t_ret. by intros s' Hs'. }
  intros sa. t_step. t_step.
  { eapply t_seq; [apply set_cur_pmksa_ok|]. intros ?. by t_run. }
  t_step; [by apply t_ret; intros ? [? ?]|].
  eapply (t_seq _ _ _ (λ _ s, ptks_are v s)); [|intros ?; by t_run].
  t_step; [apply set_cur_pmksa_ok|]. apply t_ret. by intros ? [? ?].
Qed.

Lemma finish_get_pmk_ok v ab : keeps (ptks_are v) (finish_get_pmk ab) any.
Proof using EO. unfold finish_get_pmk. by t_run. Qed.

Lemma get_msk_pmk_ok I s : keeps I (get_msk_pmk s) (opt_all (λ k, blen k ≤ 64)).
Proof using EO.
  unfold get_msk_pmk. unfold keeps. eapply t_bind; [apply eapol_key_ok|]. intros [k|z] Hk.
  - apply t_ret. intros s' Hs'. split; [done|]. cbn [opt_all].
    rewrite (Hk k eq_refl). by destruct (wpa_key_mgmt_sha384 _).
  - t_step; [|by t_run]. eapply t_bind; [apply eapol_key_ok|]. intros r Hr. apply t_ret.
    intros s' Hs'. split; [done|]. destruct r; [|done]. cbn [opt_all].
    by rewrite (Hr _ eq_refl).
Qed.

Lemma no_msk_ok v ab : keeps (ptks_are v) (no_msk ab) any.
Proof. pose proof (clear_cur_pmksa_ok v). unfold no_msk. by t_run. Qed.

Lemma get_eap_pmk_ok v a i ab : keeps (ptks_are v) (get_eap_pmk a i ab) any.
Proof using L EO.
  unfold get_eap_pmk. t_step. t_step. eapply t_bind; [apply get_msk_pmk_ok|].
  intros [k|] Hk; [|apply no_msk_ok]. eapply t_bind.
  { apply (upd_pmk_ok _ (write_pmk k)). intros p. split; [done|]. cbn. rewrite length_take. lia. }
  intros _ _.
  eapply t_bind; [apply eapol_key_ok|]. intros m Hm.
  eapply (t_bind _ _ _ any).
  { destruct m as [m|]; [|by t_run]. apply set_xxkey_ok. by rewrite (Hm m eq_refl). }
  intros _ _. by apply use_msk_ok.
Qed.

Lemma get_pmk_ok v a i : keeps (ptks_are v) (wpa_supplicant_get_pmk a i) any.
Proof using L EO.
  unfold wpa_supplicant_get_pmk. t_step. eapply t_bind; [apply find_pmksa_ok|]. intros ab _. t_step.
  eapply (t_bind _ _ _ any).
  { destruct (bool_decide _); [by t_run|]. destruct (cur_entry_ok s) as (e & He & _); [apply H|].
    apply (t_last _ _ any); [|done]. intros w Hw. by eapply wp_acc. }
  intros e _. t_step.
  - eapply t_bind; [apply use_cached_ok|]. intros _ _. apply finish_get_pmk_ok.
  - t_step; [|apply finish_get_pmk_ok]. eapply t_bind; [apply get_eap_pmk_ok|].
    intros [ab'|] _; [apply finish_get_pmk_ok|by t_run].
Qed.

(** ** The PTK *)
Lemma rsnx_capabs_ok n : ∀ b o i, 0 ≤ o + i → o + i + Z.of_nat n ≤ blen b →
  is_Some (rsnx_capabs n b o i).
Proof.
  induction n as [|n IH]; intros b o i Ho Hl; cbn [rsnx_capabs]; [done|].
  destruct (rd_in b (o + i)) as [x ->]; [lia|]. cbn [mbind option_bind].
  destruct (IH b o (i + 1)) as [r ->]; [lia..|]. done.
Qed.

Lemma rsnx_capab_len_ok b o len c :
  bytes_ok b → 0 ≤ o → 0 ≤ len → o + len ≤ blen b → is_Some (ieee802_11_rsnx_capab_len b o len c).
Proof.
  intros Hb Ho Hn Hl. unfold ieee802_11_rsnx_capab_len. case_bool_decide; [done|].
  destruct (rd_in b o) as [f Hf]; [lia|]. rewrite Hf. cbn [mbind option_bind].
  assert (Hr : 0 ≤ Z.land f 15) by (apply Z.land_nonneg; lia). case_bool_decide; [done|].
  destruct (rsnx_capabs_ok (Z.to_nat (if bool_decide (4 < Z.land f 15 + 1) then 4 else Z.land f 15 + 1)) b o 0)
    as [r ->]; [lia|case_bool_decide; lia|done].
Qed.

Lemma rsnx_capab_ok e c : opt_all element_ok e → is_Some (ieee802_11_rsnx_capab e c).
Proof.
  intros He. unfold ieee802_11_rsnx_capab. destruct e as [b|]; [|done].
  destruct He as (Hb & l & Hl & Hn). pose proof (rd_lt _ _ _ Hl).
  destruct (rd_in b 0) as [id ->]; [lia|]. rewrite Hl. cbn [mbind option_bind].
  assert (Hlb : is_byte l) by (by eapply rd_Forall). unfold is_byte in Hlb.
  destruct (_ && bool_decide (4 + 1 ≤ l)) eqn:Ec; apply rsnx_capab_len_ok; try done; try lia.
  apply andb_true_iff in Ec as [_ Ec]. apply bool_decide_eq_true_1 in Ec. lia.
Qed.

Lemma wanted_kdk_ok v s : keys_are v s → ∃ n, wanted_kdk_len s = Some n ∧ 0 ≤ n.
Proof.
  intros H. unfold wanted_kdk_len, WPA_KDK_MAX_LEN. destruct (force_kdk_derivation s); [by eexists|].
  destruct (secure_ltf s); [|by eexists].
  destruct (rsnx_capab_ok (ap_rsnxe s) WLAN_RSNX_CAPAB_SECURE_LTF) as [c ->]; [apply H|].
  eexists. split; [done|]. by destruct c.
Qed.

Lemma put_array_ok a o : blen a = 64 → opt_all (λ x, blen x ≤ 64) o →
  ∃ a', put_array a o = Some a' ∧ blen a' = 64.
Proof.
  intros Ha Ho. unfold put_array. destruct o as [x|]; [|by exists a]. cbn in Ho.
  destruct (blit_ok a 0 x) as (a' & Ea & La); [lia..|]. exists a'. split; [done|]. lia.
Qed.

(** What a derivation gives. *)
Definition ptk_result (v : kept) (keys : wpa_ptk) (x : Z * wpa_ptk) : Prop :=
  ptk_ok x.2 ∧ installed x.2 = installed keys ∧ (x.1 = 0 ∨ x.1 = -1) ∧ (x.1 = 0 → kck_fits v x.2).

Lemma ptk_result_fail v keys : ptk_ok keys → ptk_result v keys (-1, keys).
Proof. intros. split_and!; try done. by right. Qed.

Lemma derived_result v keys n r p :
  derived keys n r p →
  (v_akm v ∈ [WPA_KEY_MGMT_SAE_EXT_KEY; WPA_KEY_MGMT_DPP] →
   n ≤ wpa_mic_len (v_akm v) (blen (v_pmk v))) →
  ptk_result v keys (r, p).
Proof.
  intros (H1 & H2 & H3 & H4) Hn. split_and!; try done. intros Hr Ha. cbn in *. rewrite (H4 Hr). by apply Hn.
Qed.

Lemma len_q (b : bool) o n : opt_len (if b then 48 else 32) o → n = 64 → opt_all (λ x : list Z, blen x ≤ n) o.
Proof. intros H ->. destruct o; [|done]. cbn in *. destruct b; lia. Qed.

Lemma derive_ptk_ft_ok v an keys :
  wpa_key_mgmt_ft (v_akm v) = true → ptk_ok keys →
  keeps (keys_are v) (wpa_derive_ptk_ft an keys) (ptk_result v keys).
Proof using L EO.
  intros Hft Hk. pose proof (ptk_result_fail v keys Hk) as Hfail. unfold wpa_derive_ptk_ft. t_step. t_step.
  eapply (t_bind _ _ _ any).
  { unfold keeps. t_step; [|by t_run]. destruct (cur_entry_ok s) as (e & He & _); [apply H|].
    eapply t_acc; [exact He|]. by t_run. }
  intros [mpmk|] _; [|by t_run].
  set (len := if wpa_key_mgmt_sha384 (key_mgmt s) then SHA384_MAC_LEN else PMK_LEN).
  assert (Hlen : len = if wpa_key_mgmt_sha384 (key_mgmt s) then 48 else 32) by done.
  assert (Hl64 : 0 ≤ len ≤ 64) by (rewrite Hlen; destruct (wpa_key_mgmt_sha384 _); lia).
  apply t_upd. { intros s' Hs'. pose proof (so_r0 s' (ka_ok v s' Hs')) as [? ?]. sm_split. }
  destruct (derive_pmk_r0_ok mpmk (ssid s) (mobility_domain s) (r0kh_id s) (sm_own_addr s)
    (wpa_key_mgmt_sha384 (key_mgmt s))) as (r0 & name & E0 & Hr0 & Hname & Hsome).
  eapply t_lift; [exact E0|]. cbv beta iota.
  pose proof (so_r0 s (ka_ok v s H)) as [Ha0 _].
  t_access (put_array_ok (pmk_r0 s) r0); [done|by eapply len_q|].
  apply t_upd.
  { intros s' Hs'. pose proof (so_r0 s' (ka_ok v s' Hs')) as [? ?]. sm_split. }
  t_step; [by t_run|]. t_step.
  apply t_upd. { intros s' Hs'. pose proof (so_r1 s' (ka_ok v s' Hs')) as [? ?]. sm_split. }
  pose proof (so_r0 s0 (ka_ok v s0 H0)) as [Ha2 Hl2].
  t_access (slice_ok (pmk_r0 s0) 0 (pmk_r0_len s0)); [lia..|].
  destruct (derive_pmk_r1_ok x0 (pmk_r0_name s0) (r1kh_id s0) (sm_own_addr s0))
    as (r1 & name1 & E1 & Hr1 & Hname1 & Hsome1).
  eapply t_lift; [exact E1|]. cbv beta iota.
  pose proof (so_r1 s0 (ka_ok v s0 H0)) as [Ha1 _].
  t_access (put_array_ok (pmk_r1 s0) r1); [done|destruct r1; [cbn in *; lia|done]|].
  apply t_upd.
  { intros s' Hs'. pose proof (so_r1 s' (ka_ok v s' Hs')) as [? ?].
    pose proof (so_name s' (ka_ok v s' Hs')).
    assert (blen (default (pmk_r1_name s') name1) = 16) by (destruct name1; [exact Hname1|done]).
    sm_split. }
  t_step; [by t_run|]. t_step. 
  destruct (wanted_kdk_ok v s1 H1) as (n & Hn & Hn0). eapply t_acc; [exact Hn|].
  pose proof (so_r1 s1 (ka_ok v s1 H1)) as [Ha3 Hl3].
  t_access (slice_ok (pmk_r1 s1) 0 (pmk_r1_len s1)); [lia..|].
  destruct (pmk_r1_to_ptk_ok x2 (snonce s1) an (sm_own_addr s1) (sm_bssid s1) (pmk_r1_name s1) keys
    (key_mgmt s1) (pairwise_cipher s1) n Hk Hn0) as (r & p & Ep & Hp).
  intros w Hw. eapply wp_lift; [exact Ep|]. split; [done|].
  eapply derived_result; [exact Hp|]. intros Hin. exfalso.
  rewrite !elem_of_cons, elem_of_nil in Hin. destruct Hin as [Hq|[Hq|[]]]; rewrite Hq in Hft; done.
Qed.

Lemma derive_ptk_ok v an keys :
  ptk_ok keys → keeps (keys_are v) (wpa_derive_ptk an keys) (ptk_result v keys).
Proof using L EO.
  intros Hk. unfold wpa_derive_ptk. t_step. t_step. pose proof (ka_akm v s H) as Ha.
  t_step; [apply derive_ptk_ft_ok; congruence|].
  destruct (wanted_kdk_ok v s H) as (n & Hn & Hn0). eapply t_acc; [exact Hn|].
  match goal with |- context [wpa_pmk_to_ptk ?a ?b ?c ?d ?e ?f ?g ?h ?i ?j ?k] =>
    destruct (pmk_to_ptk_ok a b c d e f g h i j k Hk (so_pmk s (ka_ok v s H)) Hn0) as (r & p & Ep & Hp) end.
  intros w Hw. eapply wp_lift; [exact Ep|]. split; [done|].
  eapply derived_result; [exact Hp|]. intros _. rewrite mic_len_kck, Ha, (ka_pmk v s H). lia.
Qed.
End safe.
#[export] Hint Resolve os_malloc_ok random_ok get_bssid_ok set_key_ok ether_send_ok eapol_key_ok
  alloc_ok : safe.
