(* ===== verification/WpaRxSafe.v ===== *)
(** Memory safety of the RSN state machine: the handlers of EAPOL-Key frames

    The specifications of the installation of keys, of the checks of message 3/4 and of
    the handlers, up to [wpa_sm_rx_eapol]. *)
From S2P Require Import Prelude Bytes Defs Suites RsnIe RsnProofs Kde KdeProofs PmksaCache PmksaProofs WpaKey WpaKeyProofs WpaSm WpaHandshake WpaLogic WpaSafe.

Lemma t_exists {A X} (P : X → wpa_sm → Prop) (m : M A) (R : A → wpa_sm → Prop) :
  (∀ x, triple (P x) m R) → triple (λ s, ∃ x, P x s) m R.
Proof. intros H w [x Hw]. by apply (H x). Qed.

(** Ends with a result that needs nothing. *)
Ltac t_done := by t_run.

Section safe.
Context `{C : wpa_crypto} {L : wpa_crypto_laws C} `{E : wpa_env} {EO : env_ok E}.
Implicit Types (I : wpa_sm → Prop).

(** ** Fields of the frame *)
Lemma be16_ok b o : 0 ≤ o → o + 2 ≤ blen b → ∃ v, WPA_GET_BE16 b o = Some v.
Proof.
  intros Ho Hb. unfold WPA_GET_BE16. destruct (rd_in b o) as [x ->]; [lia|].
  destruct (rd_in b (o + 1)) as [y ->]; [lia|]. by eexists.
Qed.
Lemma le16_ok b o : 0 ≤ o → o + 2 ≤ blen b → ∃ x, WPA_GET_LE16 b o = Some x.
Proof. intros. destruct (WPA_GET_LE16_in b o) as [x Hx]; [lia..|by exists x]. Qed.
Lemma key_info_ok b : 81 ≤ blen b → ∃ i, frame_key_info b = Some i.
Proof. intros. apply be16_ok; unfold off_key_info; lia. Qed.
Lemma rsc_ok b : 81 ≤ blen b → ∃ r, frame_rsc b = Some r ∧ blen r = 8.
Proof. intros Hb. apply slice_ok; unfold off_rsc; lia. Qed.
Lemma nonce_ok b : 81 ≤ blen b → ∃ r, frame_nonce b = Some r ∧ blen r = 32.
Proof. intros Hb. unfold frame_nonce, WPA_NONCE_LEN. apply slice_ok; unfold off_nonce; lia. Qed.
Lemma replay_in b : 81 ≤ blen b → ∃ r, frame_replay b = Some r ∧ blen r = 8.
Proof. intros Hb. unfold frame_replay, WPA_REPLAY_COUNTER_LEN. apply slice_ok; unfold off_replay; lia. Qed.
Lemma iv_ok b : 81 ≤ blen b → ∃ r, frame_iv b = Some r ∧ blen r = 16.
Proof. intros Hb. apply slice_ok; unfold off_iv; lia. Qed.

Lemma rsc_len_range c : 0 ≤ wpa_cipher_rsc_len c ≤ 6.
Proof. unfold wpa_cipher_rsc_len. case_bool_decide; lia. Qed.

(** ** Installing keys *)

(** The same AKM, PMK and elements, and a PTK with a KCK of the same length. *)
Definition like (v v' : kept) : Prop :=
  v_pmk v' = v_pmk v ∧ v_akm v' = v_akm v ∧ v_resp v' = v_resp v ∧ v_mgmt v' = v_mgmt v ∧
  kck_len (v_ptk v') = kck_len (v_ptk v).
Lemma like_refl v : like v v.
Proof. done. Qed.
Lemma like_fits v v' : like v v' → kck_fits v (v_ptk v) → kck_fits v' (v_ptk v').
Proof. intros (H1 & H2 & _ & _ & H3). unfold kck_fits. by rewrite H1, H2, H3. Qed.
Definition keys_like (v : kept) (s : wpa_sm) : Prop := ∃ v', like v v' ∧ keys_are v' s.
Lemma keys_like_self v s : keys_are v s → keys_like v s.
Proof. by exists v. Qed.
Lemma t_like {A} v (m : M A) R :
  (∀ v', like v v' → triple (keys_are v') m R) → triple (keys_like v) m R.
Proof. intros H. apply t_exists. intros v'. apply t_pure. auto. Qed.
Lemma keys_like_ok v s : keys_like v s → sm_ok s.
Proof. intros (v' & _ & H). apply H. Qed.

Lemma install_ptk_ok v b flag :
  81 ≤ blen b → triple (keys_are v) (wpa_supplicant_install_ptk b flag) (λ _, keys_like v).
Proof using EO.
  intros Hb. unfold wpa_supplicant_install_ptk. cbv zeta. t_step.
  pose proof (so_ptk s (ka_ok v s H)) as Hp.
  assert (Hself : ∀ r : Z, triple (keys_are v) (mret r) (λ _, keys_like v))
    by (intros r; apply t_ret; apply keys_like_self).
  do 4 (t_step; [apply Hself|]).
  apply orb_false_iff in Heqb3 as [Hl1 Hl2]. apply bool_decide_eq_false_1 in Hl1, Hl2.
  assert (Hr : ∃ r, (if is_rsn s then Some null_rsc else frame_rsc b) = Some r ∧ blen r = 8).
  { destruct (is_rsn s); [by exists null_rsc|by apply rsc_ok]. }
  t_access Hr. pose proof (rsc_len_range (pairwise_cipher s)).
  t_access (slice_ok x 0 (wpa_cipher_rsc_len (pairwise_cipher s))); [lia..|].
  assert (Hk : ∃ k, slice (tk (ptk s)) 0 (wpa_cipher_key_len (pairwise_cipher s)) = Some k ∧
                    blen k = wpa_cipher_key_len (pairwise_cipher s)).
  { destruct Hp. apply slice_ok; lia. }
  t_access Hk. eapply t_bind; [apply set_key_ok|]. intros res _. t_step; [apply Hself|]. t_step.
  eapply (t_seq _ _ _ (λ _, keys_like v)).
  { apply t_upd_last. intros s' Hs'.
    exists (mk_kept (v_pmk v) (v_akm v)
      ((ptk s') <| tk := zeros WPA_TK_MAX_LEN |> <| tk_len := 0 |> <| installed := true |>)
      (v_tptk v) (v_resp v) (v_mgmt v) (v_rsn v)).
    pose proof (ka_ptk v s' Hs') as Hpt. split.
    - split_and!; try done. cbn. by rewrite Hpt.
    - assert (Hp' : ptk_ok ((ptk s') <| tk := zeros WPA_TK_MAX_LEN |> <| tk_len := 0 |> <| installed := true |>)).
      { destruct (so_ptk s' (ka_ok v s' Hs')). split; try done; cbn; lia. }
      sm_split. }
  intros ?. apply t_like. intros v' Hv'. eapply (t_bind _ _ _ any).
  { t_done. }
  intros ? _. apply t_ret. intros s' Hs'. by exists v'.
Qed.

Lemma activate_ptk_ok I : keeps I wpa_supplicant_activate_ptk any.
Proof. unfold wpa_supplicant_activate_ptk. t_run; done. Qed.

(** What [wpa_supplicant_install_gtk] gets. *)
Definition gd_ok (gd : wpa_gtk_data) : Prop :=
  blen (gd_gtk gd) = 32 ∧ 0 ≤ gd_len gd ≤ 32 ∧ 0 ≤ gd_key_rsc_len gd ≤ 8.

Lemma swap_mic_keys_ok k : blen k = 32 → ∃ k', swap_mic_keys k = Some k' ∧ blen k' = 32.
Proof.
  intros Hk. unfold swap_mic_keys.
  destruct (slice_ok k 0 16) as (a & -> & La); [lia..|].
  destruct (slice_ok k 16 8) as (b & -> & Lb); [lia..|].
  destruct (slice_ok k 24 8) as (c & -> & Lc); [lia..|]. cbn [mbind option_bind].
  eexists. split; [done|]. rewrite !length_app. lia.
Qed.

Lemma install_gtk_ok v gd rsc wnm :
  gd_ok gd → blen rsc = 8 → keeps (keys_are v) (wpa_supplicant_install_gtk gd rsc wnm) any.
Proof using EO.
  intros (H1 & H2 & H3) Hr. unfold wpa_supplicant_install_gtk. t_step. t_step.
  t_access (slice_ok (gd_gtk gd) 0 (gd_len gd)); [lia..|]. t_step; [t_done|].
  assert (Hb : ∃ k, (if bool_decide (group_cipher s = WPA_CIPHER_TKIP) then swap_mic_keys (gd_gtk gd)
               else Some (gd_gtk gd)) = Some k ∧ blen k = 32).
  { destruct (bool_decide (group_cipher s = _)); [by apply swap_mic_keys_ok|by eexists]. }
  t_access Hb. t_access (slice_ok x0 0 (gd_len gd)); [lia..|].
  t_access (slice_ok rsc 0 (gd_key_rsc_len gd)); [lia..|].
  eapply (t_bind _ _ _ any). { t_run; done. }
  intros res _. t_step; [t_done|]. apply t_upd; [intros s' Hs'; destruct wnm; sm_split|]. t_done.
Qed.

Lemma relaxation_ok s rsc : blen rsc = 8 → is_Some (wpa_supplicant_rsc_relaxation s rsc).
Proof.
  intros Hr. unfold wpa_supplicant_rsc_relaxation. destruct (negb _); [done|].
  destruct (rd_in rsc 0) as [? ->]; [lia|]. destruct (rd_in rsc 5) as [? ->]; [lia|].
  destruct (rd_in rsc 6) as [? ->]; [lia|]. by destruct (rd_in rsc 7) as [? ->]; [lia|].
Qed.

Lemma gtk_rsc_ok I b : 81 ≤ blen b → keeps I (gtk_rsc b) (λ r, blen r = 8).
Proof.
  intros Hb. unfold gtk_rsc. t_step. t_step. t_access (rsc_ok b); [done|].
  destruct (relaxation_ok s x Lx) as [r Hr]. eapply t_acc; [exact Hr|].
  apply t_ret. intros s' Hs'. by destruct r.
Qed.

Lemma check_group_ok c n m rl alg :
  wpa_supplicant_check_group_cipher c n m = Some (rl, alg) → 0 ≤ rl ≤ 8.
Proof.
  unfold wpa_supplicant_check_group_cipher. pose proof (rsc_len_range c). cbv zeta.
  destruct (bool_decide _); [done|]. destruct (_ || _); [done|]. intros [= <- _]. lia.
Qed.

Lemma key_array k : blen k ≤ 32 → ∃ a, blit (zeros 32) 0 k = Some a ∧ blen a = 32.
Proof.
  intros Hk. destruct (blit_ok (zeros 32) 0 k) as (a & Ha & La); [done| |by exists a].
  pose proof (zeros_length 32 ltac:(lia)). lia.
Qed.

Lemma pairwise_gtk_ok v b g :
  81 ≤ blen b → keeps (keys_are v) (wpa_supplicant_pairwise_gtk b g) any.
Proof using EO.
  intros Hb. unfold wpa_supplicant_pairwise_gtk. cbv zeta. t_step. t_step. t_step; [t_done|].
  apply orb_false_iff in Heqb0 as [Hl1%bool_decide_eq_false_1 Hl2%bool_decide_eq_false_1].
  destruct (rd_in g 0) as [g0 Hg0]; [lia|]. eapply t_acc; [exact Hg0|].
  t_access (slice_ok g 2 (blen g - 2)); [lia..|]. t_access (key_array x); [lia|].
  eapply t_bind; [by apply gtk_rsc_ok|]. intros rsc Hrsc. t_step; [|t_done].
  destruct (wpa_supplicant_check_group_cipher _ _ _) as [[rl alg]|] eqn:Ec; [|t_done].
  apply check_group_ok in Ec. eapply t_bind; [apply install_gtk_ok; [|done]|t_done].
  split; [done|]. cbn [gd_len gd_key_rsc_len]. lia.
Qed.

Lemma install_igtk_ok v kde wnm :
  8 + wpa_cipher_key_len (v_mgmt v) ≤ blen kde →
  keeps (keys_are v) (wpa_supplicant_install_igtk kde wnm) any.
Proof using EO.
  intros Hl. unfold wpa_supplicant_install_igtk. cbv zeta. t_step. t_step.
  pose proof (key_len_range (v_mgmt v)). rewrite (ka_mgmt v s H).
  destruct (le16_ok kde 0) as [i Hi]; [lia..|]. eapply t_acc; [exact Hi|].
  t_access (slice_ok kde 2 6); [lia..|]. t_access (slice_ok kde 8 (wpa_cipher_key_len (v_mgmt v))); [lia..|].
  t_step; [t_done|]. t_step; [t_done|]. eapply t_bind; [apply set_key_ok|]. intros r _. t_step; [t_done|].
  apply t_upd; [intros s' Hs'; destruct wnm; sm_split|]. t_done.
Qed.

Lemma install_bigtk_ok v kde wnm :
  8 + wpa_cipher_key_len (v_mgmt v) ≤ blen kde →
  keeps (keys_are v) (wpa_supplicant_install_bigtk kde wnm) any.
Proof using EO.
  intros Hl. unfold wpa_supplicant_install_bigtk. cbv zeta. t_step. t_step.
  pose proof (key_len_range (v_mgmt v)). rewrite (ka_mgmt v s H).
  destruct (le16_ok kde 0) as [i Hi]; [lia..|]. eapply t_acc; [exact Hi|].
  t_access (slice_ok kde 2 6); [lia..|]. t_access (slice_ok kde 8 (wpa_cipher_key_len (v_mgmt v))); [lia..|].
  t_step; [t_done|]. t_step; [t_done|]. eapply t_bind; [apply set_key_ok|]. intros r _. t_step; [t_done|].
  apply t_upd; [intros s' Hs'; destruct wnm; sm_split|]. t_done.
Qed.

(** The octets of a member. *)
Lemma member_ok kd ie k :
  bytes_ok kd → parsed_ok kd ie →
  ∃ m, member kd ie k = Some m ∧ opt_all (λ x, blen x = plen ie k ∧ bytes_ok x) m ∧
    (m = None ↔ ptr ie k = None).
Proof.
  intros Hb [Hi _]. unfold member. destruct (Hi k) as (Hl & _ & Hp).
  destruct (ptr ie k) as [p|]; [|by exists None].
  destruct (Hp p eq_refl) as (H1 & H2 & _).
  destruct (slice_is_Some kd p (plen ie k)) as [x Hx]; [lia..|]. rewrite Hx. cbn [mbind option_bind].
  exists (Some x). split; [done|]. split; [|done]. split; [by eapply slice_length|by eapply slice_Forall].
Qed.

Ltac t_member k :=
  let m := fresh "m" in let Hm := fresh "Hm" in let Lm := fresh "Lm" in let Nm := fresh "Nm" in
  match goal with
  | Hb : bytes_ok ?kd, Hp : parsed_ok ?kd ?ie |- _ =>
      destruct (member_ok kd ie k Hb Hp) as (m & Hm & Lm & Nm); eapply t_acc; [exact Hm|]
  end.

Lemma set_igtk_ok v kd ie k :
  bytes_ok kd → parsed_ok kd ie → has ie k = true → plen ie k = 8 + wpa_cipher_key_len (v_mgmt v) →
  ∃ m, member kd ie k = Some m ∧ 8 + wpa_cipher_key_len (v_mgmt v) ≤ blen (default [] m).
Proof.
  intros Hb Hp Hh Hl. destruct (member_ok kd ie k Hb Hp) as (m & Hm & Lm & Nm). exists m.
  split; [done|]. unfold has in Hh. apply bool_decide_eq_true_1 in Hh as [p Hptr].
  destruct m as [m|]; [cbn in *; lia|]. destruct Nm as [Nm _]. rewrite Nm in Hptr by done. done.
Qed.

Lemma set_keys_ok v kd ie :
  bytes_ok kd → parsed_ok kd ie → keeps (keys_are v) (ieee80211w_set_keys kd ie) any.
Proof using EO.
  intros Hb Hp. unfold ieee80211w_set_keys. cbv zeta. t_step. t_step. t_step; [t_done|].
  rewrite (ka_mgmt v s H).
  eapply (t_bind _ _ _ any).
  { unfold keeps. t_step; [|t_done]. t_step; [t_done|]. apply bool_decide_eq_false_1 in Heqb1.
    destruct (set_igtk_ok v kd ie k_igtk Hb Hp) as (m & Hm & Lm); [done| |].
    { unfold WPA_IGTK_KDE_PREFIX_LEN in Heqb1. lia. }
    eapply t_acc; [exact Hm|]. by apply install_igtk_ok. }
  intros r _. t_step; [t_done|].
  eapply (t_bind _ _ _ any); [|t_done].
  unfold keeps. t_step; [|t_done]. t_step; [t_done|].
  apply bool_decide_eq_false_1 in Heqb2. apply andb_true_iff in Heqb1 as [Hh _].
  destruct (set_igtk_ok v kd ie k_bigtk Hb Hp) as (m & Hm & Lm); [done| |].
  { unfold WPA_BIGTK_KDE_PREFIX_LEN in Heqb2. lia. }
  eapply t_acc; [exact Hm|]. by apply install_bigtk_ok.
Qed.

(** ** Checking the elements of message 3/4 *)
Lemma element_at_in kd ie k p :
  bytes_ok kd → parsed_ok kd ie → k ∈ [k_mdie; k_ftie] → ptr ie k = Some p →
  ∃ e, element_at kd p = Some e ∧ blen e = plen ie k.
Proof.
  intros Hb [Hi Hw] Hk Hp. destruct (Hw k p Hk Hp) as (l & Hl & El).
  destruct (Hi k) as (H0 & _ & Hin). destruct (Hin p Hp) as (H1 & H2 & _).
  unfold element_at. rewrite Hl. cbn [mbind option_bind].
  destruct (slice_ok kd p (2 + l)) as (e & He & Le); [lia..|]. exists e. split; [done|lia].
Qed.

Lemma mdie_ok s kd ie a : bytes_ok kd → parsed_ok kd ie → is_Some (ft_validate_mdie s kd ie a).
Proof.
  intros Hb Hp. unfold ft_validate_mdie. destruct (ptr ie k_mdie) as [p|] eqn:Ep; [|done].
  case_bool_decide; [done|]. destruct Hp as [Hi Hw]. destruct (Hi k_mdie) as (H0 & _ & Hin).
  destruct (Hin p Ep) as (H1 & H2 & _).
  destruct (slice_ok kd (p + 2) 2) as (md & -> & _); [lia..|]. cbn [mbind option_bind].
  case_bool_decide; [done|]. destruct a; [|done].
  destruct (element_at_in kd ie k_mdie p) as (e & -> & _); [done|done| |done|done].
  apply list_elem_of_here.
Qed.

Lemma ftie_ok kd ie a : bytes_ok kd → parsed_ok kd ie → is_Some (ft_validate_ftie kd ie a).
Proof.
  intros Hb Hp. unfold ft_validate_ftie. destruct (ptr ie k_ftie) as [p|] eqn:Ep; [|done].
  destruct a; [|done].
  destruct (element_at_in kd ie k_ftie p) as (e & -> & _); [done|done| |done|done].
  apply list_elem_of_further, list_elem_of_here.
Qed.

Lemma rsnie_ok s kd ie : bytes_ok kd → parsed_ok kd ie → is_Some (ft_validate_rsnie s kd ie).
Proof.
  intros Hb Hp. unfold ft_validate_rsnie.
  destruct (member_ok kd ie k_rsn_ie Hb Hp) as (m & -> & Lm & _). cbn [mbind option_bind].
  destruct m as [e|]; [|done]. destruct Lm as [_ He].
  destruct (rsn_parse_ok e He) as (r & d & -> & Hr & Hin). cbn [mbind option_bind].
  destruct (_ || _) eqn:Ec; [done|]. apply orb_false_iff in Ec as [Hr0 Hn].
  apply bool_decide_eq_false_1 in Hr0, Hn.
  assert (r = 0) as -> by (destruct Hr as [->|Hr]; [done|apply codes_negative in Hr; lia]).
  destruct (Hin eq_refl) as [_ Hpos]. destruct (ie_pmkid d) as [p|]; [|done].
  unfold PMKID_LEN. destruct (slice_ok e p 16) as (k & -> & _); [lia..|]. done.
Qed.

Lemma find_ft_ok b fuel : ∀ pos m f,
  bytes_ok b → 0 ≤ pos → blen b - pos ≤ Z.of_nat fuel → is_Some (find_ft_elements fuel b pos m f).
Proof.
  induction fuel as [|fuel IH]; intros pos m f Hb Hp Hf; cbn [find_ft_elements];
    (case_bool_decide; [|done]); [lia|].
  destruct (rd_in b (pos + 1)) as [l Hl]; [lia|]. rewrite Hl. cbn [mbind option_bind].
  assert (Hlb : is_byte l) by (by eapply rd_Forall). unfold is_byte in Hlb.
  case_bool_decide; [done|]. destruct (rd_in b pos) as [id ->]; [lia|]. cbn [mbind option_bind].
  destruct (slice_is_Some b pos (2 + l)) as [e ->]; [lia..|]. cbn [mbind option_bind].
  apply IH; [done|lia..].
Qed.

Lemma validate_ft_ok s kd ie :
  opt_all bytes_ok (assoc_resp_ies s) → bytes_ok kd → parsed_ok kd ie →
  is_Some (wpa_supplicant_validate_ie_ft s kd ie).
Proof.
  intros Hr Hb Hp. unfold wpa_supplicant_validate_ie_ft.
  assert (Hf : is_Some (match assoc_resp_ies s with
                  | None => Some (None, None)
                  | Some b => find_ft_elements (length b) b 0 None None end)).
  { destruct (assoc_resp_ies s) as [b|]; [|done]. apply find_ft_ok; [done|lia..]. }
  destruct Hf as [[m f] ->]. cbn [mbind option_bind].
  destruct (mdie_ok s kd ie m Hb Hp) as [r ->]. cbn [mbind option_bind]. case_bool_decide; [done|].
  destruct (ftie_ok kd ie f Hb Hp) as [r' ->]. cbn [mbind option_bind]. case_bool_decide; [done|].
  by destruct (rsnie_ok s kd ie Hb Hp) as [r'' ->].
Qed.

Lemma compare_ok ft a e : bytes_ok a → bytes_ok e → is_Some (wpa_compare_rsn_ie ft (Some a) (Some e)).
Proof.
  intros Ha He. unfold wpa_compare_rsn_ie. case_bool_decide; [done|]. destruct ft; [|done].
  destruct (rsn_parse_ok a Ha) as (r1 & d1 & -> & _). cbn [mbind option_bind]. case_bool_decide; [done|].
  destruct (rsn_parse_ok e He) as (r2 & d2 & -> & _). cbn [mbind option_bind]. case_bool_decide; [done|].
  by destruct (_ && _).
Qed.

Lemma beacon_mismatch_ok s w r n :
  opt_all bytes_ok (ap_rsn_ie s) → opt_all (λ x, blen x = n ∧ bytes_ok x) r →
  is_Some (beacon_mismatch s w r).
Proof.
  intros Hs Hr. unfold beacon_mismatch. destruct r as [r|]; [|by eexists].
  destruct (ap_rsn_ie s) as [a|]; [|by eexists]. destruct Hr as [_ Hr].
  destruct (compare_ok (wpa_key_mgmt_ft (key_mgmt s)) a r Hs Hr) as [c ->]. by eexists.
Qed.

Lemma override_ok s kd ie : bytes_ok kd → parsed_ok kd ie → is_Some (override_mismatch s kd ie).
Proof.
  intros Hb Hp. unfold override_mismatch.
  destruct (member_ok kd ie k_rsne_override Hb Hp) as (m1 & -> & _).
  destruct (member_ok kd ie k_rsne_override_2 Hb Hp) as (m2 & -> & _).
  by destruct (member_ok kd ie k_rsnxe_override Hb Hp) as (m3 & -> & _).
Qed.

Lemma validate_ie_ok v kd ie :
  bytes_ok kd → parsed_ok kd ie → keeps (keys_are v) (wpa_supplicant_validate_ie kd ie) any.
Proof using EO.
  intros Hb Hp. unfold wpa_supplicant_validate_ie. t_step. t_step.
  eapply (t_bind _ _ _ any).
  { unfold keeps. t_step; [|t_done]. apply sm_get_beacon_ok. }
  intros r _. t_step; [t_done|]. t_step.
  t_member k_wpa_ie. t_member k_rsn_ie. t_member k_rsnxe.
  assert (Hmis : keeps (keys_are v) (_ ← wpa_report_ie_mismatch; mret (-1)) any).
  { unfold wpa_report_ie_mismatch, wpa_sm_deauthenticate. t_done. }
  t_step; [exact Hmis|].
  destruct (beacon_mismatch_ok s0 m m0 (plen ie k_rsn_ie)) as [d Hd]; [apply H0|done|].
  eapply t_acc; [exact Hd|]. t_step; [exact Hmis|]. t_step; [exact Hmis|]. t_step; [exact Hmis|].
  assert (Ho : is_Some (if bool_decide (proto s0 = WPA_PROTO_RSN) && wpa_sm_rsn_overriding_supported s0
                        then override_mismatch s0 kd ie else Some false)).
  { destruct (_ && wpa_sm_rsn_overriding_supported s0); [by apply override_ok|done]. }
  destruct Ho as [o Ho]. eapply t_acc; [exact Ho|]. t_step; [exact Hmis|]. t_step; [|t_done].
  destruct (validate_ft_ok s0 kd ie) as [f Hf]; [apply H0|done|done|].
  eapply t_acc; [exact Hf|]. t_done.
Qed.

(** ** Message 1/4 *)
Lemma ext_key_id_ok v kd ie :
  parsed_ok kd ie → keeps (keys_are v) (wpa_handle_ext_key_id kd ie) any.
Proof.
  intros [Hi _]. unfold wpa_handle_ext_key_id. t_step. t_step.
  assert (Hk : ∃ k, match ptr ie k_key_id with
                    | None => Some None
                    | Some p => x ← rd kd p; Some (Some (Z.land x 0x03)) end = Some k).
  { destruct (ptr ie k_key_id) as [p|] eqn:Ep; [|by eexists].
    destruct (Hi k_key_id) as (_ & _ & Hin). destruct (Hin p Ep) as (H1 & _ & H2). cbn in H2.
    destruct (rd_in kd p) as [x ->]; [lia|]. by eexists. }
  destruct Hk as [k Hk]. eapply t_acc; [exact Hk|]. clear Hk. destruct (ext_key_id s), k; t_done.
Qed.

Lemma parse_ies_ok I kd :
  bytes_ok kd → vendor_selectors kd → keeps I (wpa_supplicant_parse_ies kd) (opt_all (parsed_ok kd)).
Proof.
  intros Hb Hv. unfold wpa_supplicant_parse_ies.
  destruct (parse_kde_ok kd Hb Hv) as (r & ie & Ep & _ & Hp).
  intros w Hw. eapply wp_use; [by eapply (wp_acc _ _ (λ a w', w' = w ∧ a = (r, ie)))|].
  intros a ? [-> ->]. apply wp_ret. split; [done|]. by case_bool_decide.
Qed.

Lemma cookie_ok n : blen n = 32 → ∃ n', rsn_set_snonce_cookie n = Some n' ∧ blen n' = 32.
Proof.
  intros Hn. unfold rsn_set_snonce_cookie, WPA_PUT_BE24, WPA_NONCE_LEN. cbv zeta.
  destruct (blit_ok n (32 - 6) (be24_bytes OUI_WFA)) as (a & -> & La); [lia|cbn; lia|]. cbn [mbind option_bind].
  destruct (blit_ok a (32 - 6 + 3) (be24_bytes 0x000029)) as (c & -> & Lc); [lia|cbn; lia|]. exists c. split; [done|lia].
Qed.

Lemma renew_nonce_ok v : keeps (keys_are v) renew_nonce any.
Proof using EO.
  unfold renew_nonce. t_step. t_step. t_step; [|t_done].
  eapply t_bind; [apply random_ok|]. intros [n|] Hn; [|t_done]. cbn in Hn.
  assert (Hc : ∃ c, (if wpa_sm_rsn_overriding_supported s then rsn_set_snonce_cookie n else Some n)
                    = Some c ∧ blen c = 32).
  { destruct (wpa_sm_rsn_overriding_supported s); [by apply cookie_ok|by exists n]. }
  t_access Hc. t_done.
Qed.

Lemma swap_tk_ok s p : ptk_ok p → ∃ p', swap_tk s p = Some p' ∧ ptk_ok p' ∧ kck_len p' = kck_len p.
Proof.
  intros Hp. unfold swap_tk. case_bool_decide; [|by exists p].
  destruct (swap_mic_keys_ok (tk p)) as (t & -> & Lt); [apply Hp|]. eexists. split; [done|].
  split; [|done]. destruct Hp. by split.
Qed.

Definition with_tptk (v : kept) (p : wpa_ptk) : kept :=
  mk_kept (v_pmk v) (v_akm v) (v_ptk v) p (v_resp v) (v_mgmt v) (v_rsn v).
Definition fresh_tptk (v : kept) (s : wpa_sm) : Prop :=
  ∃ p, (ptk_ok p ∧ kck_fits v p) ∧ keys_are (with_tptk v p) s.

Lemma derive_tptk_ok v an :
  triple (keys_are v) (derive_tptk an) (λ ok s, if ok then fresh_tptk v s else sm_ok s).
Proof using L EO.
  unfold derive_tptk. t_step. pose proof (so_tptk s (ka_ok v s H)) as Ht.
  eapply t_bind; [by apply derive_ptk_ok|]. intros [r p] (Hp & _ & Hr & Hfit). cbn in Hp, Hr, Hfit.
  eapply (t_seq _ _ _ (λ _, keys_are (with_tptk v p))).
  { apply t_upd_last. intros s' Hs'. sm_split. }
  intros ?. t_step. { apply t_ret. intros s' Hs'. apply Hs'. }
  apply bool_decide_eq_false_1 in Heqb.
  destruct (swap_tk_ok s p Hp) as (p' & Es & Hp' & Hk). eapply t_acc; [exact Es|].
  eapply (t_seq _ _ _ (λ _, keys_are (with_tptk v p'))).
  { apply t_upd_last. intros s' Hs'. sm_split. }
  intros ?. apply t_ret. intros s' Hs'. exists p'. split; [|done]. split; [done|].
  unfold kck_fits in *. rewrite Hk. apply Hfit. lia.
Qed.

Lemma own_ie_app e x : own_ie_ok e → own_ie_ok (e ++ x).
Proof.
  intros (l & r & rest & post & -> & Hl & Hi & Hn). exists l, r, rest, (post ++ x).
  by rewrite <- !(assoc_L (++)).
Qed.

Lemma kde_ok s :
  own_elements_ok s →
  ∃ kde, kde_2_of_4 s = Some kde ∧ blen kde ≤ kde_2_of_4_size s ∧
    blen kde + blen (default [] (assoc_resp_ies s)) ≤ 65000 ∧
    (wpa_key_mgmt_ft (key_mgmt s) = true → own_ie_ok kde).
Proof.
  intros (Hlen & Hroom & Hft). unfold room_for in Hroom.
  assert (Hd : blen (dpp_kde s) ≤ 8) by (unfold dpp_kde; case_bool_decide; cbn; lia).
  assert (Hk : kde_2_of_4 s = Some (default [] (assoc_wpa_ie s) ++ default [] (assoc_rsnxe s) ++ dpp_kde s)).
  { unfold kde_2_of_4. destruct (assoc_wpa_ie s) as [e|]; cbn in Hlen; rewrite Hlen.
    - by rewrite slice_all.
    - by rewrite bool_decide_eq_true_2. }
  eexists. split; [exact Hk|]. unfold kde_2_of_4_size, RSN_SELECTOR_LEN. rewrite !length_app.
  split; [lia|]. split; [lia|]. intros Hf. destruct (Hft Hf) as [Ho Hs].
  destruct (assoc_wpa_ie s) as [e|]; [|done]. by apply own_ie_app.
Qed.

(** The descriptor version that the checks of the frame leave. *)
Definition ver_ok (v : kept) (ver : Z) : Prop :=
  wpa_use_akm_defined (v_akm v) = true → ver = WPA_KEY_INFO_TYPE_AKM_DEFINED.

Lemma reply_1_of_4_ok v b ver :
  81 ≤ blen b → ver_ok v ver → kck_fits v (v_tptk v) → keeps (keys_are v) (reply_1_of_4 b ver) any.
Proof using L EO.
  intros Hb Hver Hf. unfold reply_1_of_4. t_step. t_step.
  eapply t_bind; [apply os_malloc_ok|]. intros ok _. t_step; [t_done|].
  destruct (kde_ok s (so_own s (ka_ok v s H))) as (kde & Hk & Hs & Hr & Hft).
  eapply t_acc; [exact Hk|]. eapply (t_acc _ _ tt); [by rewrite bool_decide_eq_true_2|].
  rewrite (ka_resp v s H) in Hr. rewrite (ka_akm v s H) in Hft.
  eapply t_bind.
  { apply send_2_of_4_ok; try done.
    - apply (ka_ok v s H).
    - rewrite (ka_tptk v s H). by apply kck_fits_fits.
    - apply (ka_ok v s H). }
  intros r _. t_step; [t_done|]. destruct (nonce_ok b Hb) as (n & Hn & _).
  eapply t_acc; [exact Hn|]. t_done.
Qed.

Lemma after_pmk_ok v b ver :
  81 ≤ blen b → ver_ok v ver → triple (keys_are v) (after_pmk_1_of_4 b ver) (λ _, sm_ok).
Proof using L EO.
  intros Hb Hver. unfold after_pmk_1_of_4.
  assert (Hend : ∀ x : bool, triple (keys_are v) (mret x) (λ _, sm_ok)) by (intros; apply t_ret; apply ka_ok).
  eapply t_bind; [apply renew_nonce_ok|]. intros ok _. t_step; [apply Hend|].
  destruct (nonce_ok b Hb) as (n & Hn & _). eapply t_acc; [exact Hn|].
  eapply t_seq; [apply derive_tptk_ok|]. intros [|]; cbn [negb].
  - apply t_exists. intros p. apply t_pure. intros [Hp Hf].
    eapply t_last; [by apply reply_1_of_4_ok|]. intros a s Hs _. apply Hs.
  - apply t_ret. auto.
Qed.

Lemma no_pmk v s : ptks_are v s →
  ∃ k, (True : Prop) ∧ keys_are (mk_kept k (v_akm v) (v_ptk v) (v_tptk v) (v_resp v) (v_mgmt v) (v_rsn v)) s.
Proof. intros []. exists (pmk_of s). split; [done|]. by split. Qed.

Lemma body_1_of_4_ok v src b ver kd :
  81 ≤ blen b → ver_ok v ver → bytes_ok kd → vendor_selectors kd →
  triple (keys_are v) (body_1_of_4 src b ver kd) (λ _, sm_ok).
Proof using L EO.
  intros Hb Hver Hkd Hvs. unfold body_1_of_4.
  assert (Hend : ∀ x : bool, triple (ptks_are v) (mret x) (λ _, sm_ok)) by (intros; apply t_ret; apply pa_ok).
  eapply (t_pre _ (ptks_are v)); [|apply keys_ptks]. t_step.
  eapply (t_bind _ _ _ (opt_all (parsed_ok kd))).
  { unfold keeps. t_step; [by apply parse_ies_ok|]. apply t_ret. intros s' Hs'. split; [done|].
    split; [|by intros k p _]. apply inside_zero. }
  intros [ie|] Hie; [|apply Hend]. cbn in Hie. destruct Hie as [Hi _].
  assert (Hp : ∃ k, match ptr ie k_pmkid with
                    | None => Some None
                    | Some p => k ← slice kd p PMKID_LEN; Some (Some k) end = Some k).
  { destruct (ptr ie k_pmkid) as [p|] eqn:Ep; [|by eexists].
    destruct (Hi k_pmkid) as (_ & _ & Hin). destruct (Hin p Ep) as (H1 & _ & H2). cbn in H2.
    unfold PMKID_LEN in *. destruct (slice_is_Some kd p 16) as [x ->]; [lia..|]. by eexists. }
  destruct Hp as [k Hk]. eapply t_acc; [exact Hk|].
  eapply t_bind; [apply get_pmk_ok|]. intros r _. t_step; [apply Hend|]. t_step; [apply Hend|].
  eapply t_pre; [|apply no_pmk]. apply t_exists. intros pk. apply t_pure. intros _.
  by apply after_pmk_ok.
Qed.

Lemma or_deauthenticate_ok P body :
  triple P body (λ _, sm_ok) → triple P (or_deauthenticate body) (λ _, sm_ok).
Proof.
  intros H. unfold or_deauthenticate. eapply t_seq; [exact H|]. intros ok.
  t_step; [by apply t_ret|]. by apply t_emit_last.
Qed.

Lemma process_1_of_4_ok v src b ver kd :
  81 ≤ blen b → ver_ok v ver → bytes_ok kd → vendor_selectors kd →
  triple (keys_are v) (wpa_supplicant_process_1_of_4 src b ver kd) (λ _, sm_ok).
Proof using L EO.
  intros Hb Hver Hkd Hvs.
  unfold wpa_supplicant_process_1_of_4, wpa_sm_get_network_ctx, wpa_sm_set_state, wpa_sm_reconnect.
  t_step. t_step; [apply t_ret; apply ka_ok|]. eapply t_bind; [apply deny_ok|]. intros d _.
  t_step; [apply t_emit_last; apply ka_ok|]. t_step. apply or_deauthenticate_ok. by apply body_1_of_4_ok.
Qed.

(** ** Message 3/4 *)
Lemma clear_opportunistic_ok v : keeps (keys_are v) clear_opportunistic any.
Proof.
  intros w Hw. unfold clear_opportunistic. wp_run.
  destruct (cur_pmksa (pm (sm w))) as [id|] eqn:Ec; [|by wp_run].
  pose proof (so_pm _ (ka_ok v _ Hw)) as Hc.
  destruct (deref_in (pm (sm w)) id) as [e He]; [by apply ok_cur, Ec; apply Hc|].
  wp_run. eapply wp_acc; [exact He|]. destruct (opportunistic e); [|by wp_run]. wp_run.
  split; [|done].
  assert (Hc' : cache_ok (update_entry id (λ e, e <| opportunistic := false |>) (pm (sm w)))).
  { by apply update_entry_ok. }
  revert Hw. cbn. clear Hc. generalize dependent (sm w). clear w. intros s _ _ Hc' Hw. sm_split.
Qed.

Lemma key_neg_complete_ok v a sec : keeps (keys_are v) (wpa_supplicant_key_neg_complete a sec) any.
Proof.
  unfold wpa_supplicant_key_neg_complete, wpa_sm_set_state. do 4 t_step.
  eapply (t_bind _ _ _ any).
  { unfold keeps. t_step; [|t_done]. do 2 t_step. eapply (t_bind _ _ _ any); [t_done|]. intros _ _. t_done. }
  intros _ _. eapply t_bind; [apply clear_opportunistic_ok|]. intros _ _. t_done.
Qed.

Lemma rekey_offload_ok v : keeps (keys_are v) wpa_sm_set_rekey_offload any.
Proof.
  unfold wpa_sm_set_rekey_offload. do 2 t_step.
  t_access (kek_slice (ptk s) (so_ptk s (ka_ok v s H))).
  t_access (kck_slice (ptk s) (so_ptk s (ka_ok v s H))). t_done.
Qed.

Lemma nonce_and_length_in s b : 81 ≤ blen b → is_Some (nonce_and_length_ok s b).
Proof.
  intros Hb. unfold nonce_and_length_ok. destruct (nonce_ok b Hb) as (n & -> & _). cbn [mbind option_bind].
  case_bool_decide; [done|]. destruct (be16_ok b off_key_length) as [l ->]; [done|unfold off_key_length; lia|].
  done.
Qed.

Lemma dpp_pfs_in s kd ie : parsed_ok kd ie → is_Some (dpp_pfs_refused s kd ie).
Proof.
  intros [Hi _]. unfold dpp_pfs_refused. destruct (ptr ie k_dpp_kde) as [p|] eqn:Ep; [|done].
  destruct (Hi k_dpp_kde) as (_ & _ & Hin). destruct (Hin p Ep) as (H1 & _ & H2). cbn in H2.
  by destruct (rd_in kd (p + 1)) as [x ->]; [lia|].
Qed.

Lemma checks_3_of_4_ok v b kd ie key_info :
  81 ≤ blen b → bytes_ok kd → parsed_ok kd ie →
  keeps (keys_are v) (checks_3_of_4 b kd ie key_info) any.
Proof using EO.
  intros Hb Hkd Hp. unfold checks_3_of_4. do 2 t_step. t_step; [t_done|].
  eapply t_bind; [by apply validate_ie_ok|]. intros r _. t_step; [t_done|].
  eapply t_bind; [by apply ext_key_id_ok|]. intros r' _. t_step; [t_done|]. t_step.
  destruct (nonce_and_length_in s0 b Hb) as [x Hx]. eapply t_acc; [exact Hx|]. t_step; [t_done|].
  destruct (dpp_pfs_in s0 kd ie Hp) as [y Hy]. eapply t_acc; [exact Hy|]. t_done.
Qed.

Lemma ptk_3_of_4_ok v b ver key_info :
  81 ≤ blen b → ver_ok v ver → kck_fits v (v_ptk v) →
  triple (keys_are v) (ptk_3_of_4 b ver key_info) (λ _, keys_like v).
Proof using L EO.
  intros Hb Hver Hf. unfold ptk_3_of_4. t_step.
  eapply (t_seq _ _ _ (λ _, keys_like v)).
  { t_step; [by apply install_ptk_ok|]. apply t_ret. apply keys_like_self. }
  intros r. apply t_like. intros v' Hv'.
  assert (Hend : ∀ x : bool, triple (keys_are v') (mret x) (λ _, keys_like v)).
  { intros x. apply t_ret. intros s' Hs'. by exists v'. }
  t_step; [apply Hend|]. t_step.
  assert (Hver' : ver_ok v' ver) by (unfold ver_ok; by rewrite (proj1 (proj2 Hv'))).
  eapply t_bind.
  { apply send_4_of_4_ok; [apply (ka_ok v' s0 H0)| |done].
    rewrite (ka_ptk v' s0 H0). apply kck_fits_fits; [by eapply like_fits|done]. }
  intros r' _. t_step; [apply Hend|]. t_step. t_step; [|apply Hend].
  eapply (t_seq _ _ _ (λ _, keys_like v')).
  { t_step; [|by apply install_ptk_ok]. eapply t_last; [apply activate_ptk_ok|].
    intros a s' Hs' _. by apply keys_like_self. }
  intros x. apply t_ret. intros s' (v'' & Hl & Hs'). exists v''. split; [|done].
  destruct Hv' as (?&?&?&?&?), Hl as (?&?&?&?&?). split_and!; congruence.
Qed.

Lemma group_keys_ok v b kd ie key_info :
  81 ≤ blen b → bytes_ok kd → parsed_ok kd ie →
  keeps (keys_are v) (group_keys_3_of_4 b kd ie key_info) any.
Proof using EO.
  intros Hb Hkd Hp. unfold group_keys_3_of_4. do 2 t_step.
  eapply (t_bind _ _ _ any).
  { unfold keeps. t_step; [t_done|]. t_member k_gtk. destruct m; [|t_done]. by apply pairwise_gtk_ok. }
  intros r _. t_step; [t_done|]. eapply t_bind; [by apply set_keys_ok|]. t_done.
Qed.

Lemma cache_suite_b_ok v : keeps (ptks_are v) cache_suite_b any.
Proof using L EO.
  unfold cache_suite_b. do 2 t_step. t_step; [|t_done].
  t_access (kck_slice (ptk s) (so_ptk s (pa_ok v s H))).
  eapply t_seq; [apply pmksa_add_ok|]. intros sa. t_step. t_step.
  - eapply t_mono; [apply set_cur_pmksa_ok|by split].
  - apply t_ret. by intros s' [Hs' _].
Qed.

Lemma finish_3_of_4_ok v kd ie sec :
  parsed_ok kd ie → triple (keys_are v) (finish_3_of_4 kd ie sec) (λ _, sm_ok).
Proof using L EO.
  intros [Hi _]. unfold finish_3_of_4. t_step.
  eapply (t_bind _ _ _ any). { unfold keeps. t_step; [apply key_neg_complete_ok|t_done]. }
  intros _ _. eapply (t_bind _ _ _ any). { unfold keeps. t_step; [apply rekey_offload_ok|t_done]. }
  intros _ _. eapply (t_pre _ (ptks_are v)); [|apply keys_ptks].
  eapply t_bind; [apply cache_suite_b_ok|]. intros _ _.
  eapply (t_bind _ _ _ any).
  { unfold keeps. destruct (ptr ie k_transition_disable) as [p|] eqn:Ep; [|t_done].
    destruct (Hi k_transition_disable) as (_ & _ & Hin). destruct (Hin p Ep) as (H1 & _ & H2). cbn in H2.
    destruct (rd_in kd p) as [x Hx]; [lia|]. eapply t_acc; [exact Hx|]. t_done. }
  intros _ _. apply t_upd_last. intros s' [Hs' _ _ _ _]. sm_split.
Qed.

Lemma body_3_of_4_ok v b ver kd :
  81 ≤ blen b → ver_ok v ver → bytes_ok kd → vendor_selectors kd → kck_fits v (v_ptk v) →
  triple (keys_are v) (body_3_of_4 b ver kd) (λ _, sm_ok).
Proof using L EO.
  intros Hb Hver Hkd Hvs Hf. unfold body_3_of_4.
  assert (Hend : ∀ v' (x : bool), triple (keys_are v') (mret x) (λ _, sm_ok)).
  { intros. apply t_ret. apply ka_ok. }
  destruct (key_info_ok b Hb) as [ki Hki]. eapply t_acc; [exact Hki|].
  eapply t_bind; [by apply parse_ies_ok|]. intros [ie|] Hie; [|apply Hend]. cbn in Hie.
  eapply t_bind; [by apply checks_3_of_4_ok|]. intros ok _. t_step; [apply Hend|].
  unfold accept_3_of_4, wpa_sm_set_state. eapply t_seq; [by apply ptk_3_of_4_ok|]. intros ok'.
  apply t_like. intros v' Hv'. t_step; [apply Hend|]. t_step.
  eapply (t_bind _ _ _ any). { t_done. }
  intros _ _. t_step. eapply t_bind; [by apply group_keys_ok|]. intros ok2 _. t_step; [apply Hend|].
  eapply t_seq; [by apply finish_3_of_4_ok|]. intros ?. by apply t_ret.
Qed.

Lemma process_3_of_4_ok v b ver kd :
  81 ≤ blen b → ver_ok v ver → bytes_ok kd → vendor_selectors kd → kck_fits v (v_ptk v) →
  triple (keys_are v) (wpa_supplicant_process_3_of_4 b ver kd) (λ _, sm_ok).
Proof using L EO.
  intros. unfold wpa_supplicant_process_3_of_4, wpa_sm_set_state. t_step.
  apply or_deauthenticate_ok. by apply body_3_of_4_ok.
Qed.

(** ** The group key handshake *)
Lemma u16_le x : 0 ≤ x → 0 ≤ u16 x ≤ x.
Proof. intros. unfold wrap. change (2 ^ 16) with 65536. div_lia. Qed.

Lemma process_1_of_2_rsn_ok v kd key_info :
  bytes_ok kd → vendor_selectors kd →
  keeps (keys_are v) (wpa_supplicant_process_1_of_2_rsn kd key_info) (opt_all gd_ok).
Proof using EO.
  intros Hkd Hvs. unfold wpa_supplicant_process_1_of_2_rsn, keeps.
  eapply t_bind; [by apply parse_ies_ok|]. intros [ie|] Hie; [|t_done]. cbn in Hie.
  t_member k_gtk. destruct m as [g|]; [|t_done]. cbv zeta. pose proof (u16_le (blen g) ltac:(lia)).
  t_step; [t_done|]. t_step; [t_done|]. t_step; [t_done|].
  apply bool_decide_eq_false_1 in Heqb0, Heqb1. t_step.
  destruct (wpa_supplicant_check_group_cipher _ _ _) as [[rl alg]|] eqn:Ec; [|t_done].
  apply check_group_ok in Ec. destruct (rd_in g 0) as [g0 Hg0]; [lia|]. eapply t_acc; [exact Hg0|].
  t_access (slice_ok g 2 (u16 (blen g) - 2)); [lia..|]. t_access (key_array x); [lia|].
  eapply t_bind; [by apply set_keys_ok|]. intros r _. apply t_ret. intros s' Hs'. split; [done|].
  split; [done|]. cbn [gd_len gd_key_rsc_len]. lia.
Qed.

Lemma decrypt_wpa_gtk_ok s b ver kd n :
  81 ≤ blen b → ptk_ok (ptk s) → bytes_ok kd →
  (ver = WPA_KEY_INFO_TYPE_HMAC_SHA1_AES → n = blen kd - 8 ∧ 0 ≤ n) →
  ∃ d, decrypt_wpa_gtk s b ver kd n = Ret d ∧ opt_all (λ d, blen d = 32) d.
Proof using L.
  intros Hb Hp Hkd Hn. unfold decrypt_wpa_gtk. cbv zeta.
  destruct (kek_slice (ptk s) Hp) as (k & Hk & _). destruct (iv_ok b Hb) as (iv & Hiv & _).
  destruct (_ && _).
  - case_bool_decide; [by eexists|]. rewrite Hiv, access_bind, Hk, access_bind.
    destruct (rc4_skip _ _ _) as [d|] eqn:Ed; [|by eexists].
    apply rc4_skip_len in Ed as [Ld _]; [|done].
    destruct (key_array d) as (a & -> & La); [lia|]. rewrite access_bind. by eexists.
  - case_bool_decide as Hv; [|by eexists]. destruct (Hn Hv) as [-> Hn0].
    case_bool_decide as Hm; [by eexists|]. case_bool_decide; [by eexists|].
    rewrite Hk, access_bind. 
    assert (Hmod : 8 * ((blen kd - 8) / 8) = blen kd - 8) by (Z.div_mod_to_equations; lia).
    rewrite Hmod, Z.sub_add, slice_all, access_bind by done.
    destruct (aes_unwrap _ _ _) as [d|] eqn:Ed; [|by eexists].
    apply aes_unwrap_len in Ed as [Ld _]; [|Z.div_mod_to_equations; lia|done].
    destruct (key_array d) as (a & -> & La); [lia|]. rewrite access_bind. by eexists.
Qed.

Lemma check_group_len c n m rl alg :
  wpa_supplicant_check_group_cipher c n m = Some (rl, alg) → 0 ≤ n ≤ 32.
Proof.
  unfold wpa_supplicant_check_group_cipher. pose proof (key_len_range c). cbv zeta.
  destruct (bool_decide _); [done|]. destruct (_ || _) eqn:Eo; [done|]. intros _.
  apply orb_false_iff in Eo as [Eo _]. apply bool_decide_eq_false_1 in Eo. lia.
Qed.

Lemma process_1_of_2_wpa_ok v b kd key_info ver :
  81 ≤ blen b → bytes_ok kd →
  keeps (keys_are v) (wpa_supplicant_process_1_of_2_wpa b kd key_info ver) (opt_all gd_ok).
Proof using L.
  intros Hb Hkd. unfold wpa_supplicant_process_1_of_2_wpa. do 2 t_step.
  destruct (be16_ok b off_key_length) as [n Hn]; [done|unfold off_key_length; lia|].
  eapply t_acc; [exact Hn|]. cbv zeta. t_step; [t_done|].
  set (maxlen := if bool_decide (ver = _) then _ else _). t_step; [t_done|].
  destruct (wpa_supplicant_check_group_cipher _ _ _) as [[rl alg]|] eqn:Ec; [|t_done].
  pose proof (check_group_len _ _ _ _ _ Ec). apply check_group_ok in Ec.
  destruct (decrypt_wpa_gtk_ok s b ver kd maxlen) as (d & Hd & Ld); [done|apply (ka_ok v s H)|done| |].
  { intros Hv. subst maxlen. rewrite bool_decide_eq_true_2 in Heqb0 |- * by done.
    apply bool_decide_eq_false_1 in Heqb0. lia. }
  eapply t_lift; [exact Hd|]. apply t_ret. intros s' Hs'. split; [done|]. destruct d as [d|]; [|done].
  cbn in Ld |- *. split; [done|]. cbn [gd_len gd_key_rsc_len]. lia.
Qed.

Lemma body_1_of_2_ok v b ver kd :
  81 ≤ blen b → ver_ok v ver → bytes_ok kd → vendor_selectors kd → kck_fits v (v_ptk v) →
  triple (keys_are v) (body_1_of_2 b ver kd) (λ _, sm_ok).
Proof using L EO.
  intros Hb Hver Hkd Hvs Hf. unfold body_1_of_2, wpa_sm_get_state, wpa_sm_set_state.
  assert (Hend : ∀ x : bool, triple (keys_are v) (mret x) (λ _, sm_ok)) by (intros; apply t_ret; apply ka_ok).
  t_step. t_step; [apply Hend|]. t_step.
  destruct (key_info_ok b Hb) as [ki Hki]. eapply t_acc; [exact Hki|].
  eapply (t_bind _ _ _ (opt_all gd_ok)).
  { unfold keeps. t_step; [by apply process_1_of_2_rsn_ok|by apply process_1_of_2_wpa_ok]. }
  intros gd Hgd. t_step. destruct gd as [gd|]; [|apply Hend].
  eapply t_bind; [by apply gtk_rsc_ok|]. intros rsc Hrsc.
  eapply t_bind; [by apply install_gtk_ok|]. intros r _. t_step; [apply Hend|].
  eapply t_bind; [apply send_2_of_2_ok; [by apply kck_fits_fits|done]|]. intros r' _.
  t_step; [apply Hend|]. t_step.
  eapply (t_bind _ _ _ any). { unfold keeps. t_step; [t_done|apply key_neg_complete_ok]. }
  intros _ _. eapply t_bind; [apply rekey_offload_ok|]. intros _ _. apply Hend.
Qed.

Lemma process_1_of_2_ok v b ver kd :
  81 ≤ blen b → ver_ok v ver → bytes_ok kd → vendor_selectors kd → kck_fits v (v_ptk v) →
  triple (keys_are v) (wpa_supplicant_process_1_of_2 b ver kd) (λ _, sm_ok).
Proof using L EO. intros. apply or_deauthenticate_ok. by apply body_1_of_2_ok. Qed.

(** ** Receiving *)
Lemma slice_blit (b b' src : list Z) off o n :
  blit b off src = Some b' → off + blen src ≤ o ∨ o + n ≤ off → slice b' o n = slice b o n.
Proof.
  intros Hb Ho. pose proof (blit_length _ _ _ _ Hb) as Hl.
  apply blit_Some in Hb as (H1 & H2 & ->). unfold slice. rewrite Hl. case_bool_decide as Hc; [|done].
  f_equal. destruct Ho as [Ho|Ho].
  2:{ rewrite drop_app_le by (rewrite length_take; lia).
      rewrite take_app_le by (rewrite length_drop, length_take; lia).
      rewrite !take_drop_commute, take_take.
      f_equal. f_equal. lia. }
  f_equal.
  rewrite (drop_app_ge (take _ b)) by (rewrite length_take; lia).
  rewrite drop_app_ge by (rewrite length_take; lia). rewrite drop_drop. f_equal.
  rewrite length_take. lia.
Qed.

(** A frame that differs from [b] in the MIC field only. *)
Definition same_but_mic (n : Z) (b b' : list Z) : Prop :=
  blen b' = blen b ∧ bytes_ok b' ∧
  ∀ o k, off_mic + n ≤ o ∨ o + k ≤ off_mic → slice b' o k = slice b o k.

Lemma write_mic n b m :
  bytes_ok b → bytes_ok m → blen m ≤ n → 81 + n ≤ blen b → 
  ∃ b', blit b off_mic m = Some b' ∧ same_but_mic n b b'.
Proof.
  intros Hb Hm Hn Hl. unfold off_mic. destruct (blit_ok b 81 m) as (b' & E' & L'); [done|lia|].
  exists b'. split; [done|]. split; [done|]. split.
  - pose proof E' as E2. apply blit_Some in E2 as (_ & _ & ->).
    apply Forall_app; split; [by apply Forall_take|]. apply Forall_app; split; [done|by apply Forall_drop].
  - intros o k Ho. eapply slice_blit; [exact E'|unfold off_mic in Ho; lia].
Qed.
Lemma same_but_mic_trans n a b c : same_but_mic n a b → same_but_mic n b c → same_but_mic n a c.
Proof.
  intros (H1 & H2 & H3) (H4 & H5 & H6). split; [lia|]. split; [done|]. intros o k Ho.
  by rewrite H6, H3.
Qed.

Lemma check_mic_ok v s keys ver b mic :
  keys_are v s → ptk_ok keys → fits v ver keys → bytes_ok b → 81 + reply_mic_len s ≤ blen b →
  ∃ b' ok, check_mic s keys ver b mic = Ret (b', ok) ∧ same_but_mic (reply_mic_len s) b b'.
Proof using L.
  intros H Hp Hf Hb Hl. unfold check_mic. cbv zeta. destruct (v_mic_len v s H) as [Hm Hr].
  unfold fits in Hf. rewrite <- Hm in Hf.
  pose proof (zeros_length (reply_mic_len s) ltac:(lia)) as Hz.
  destruct (write_mic (reply_mic_len s) b (zeros (reply_mic_len s))) as (b1 & -> & S1);
    [done|by apply Forall_replicate|lia|done|].
  rewrite access_bind. destruct (kck_slice keys Hp) as (k & -> & Lk). rewrite access_bind.
  destruct (eapol_key_mic_ok k (key_mgmt s) ver b1) as (m & -> & Hmic). rewrite ret_bind.
  destruct m as [m|]; [|by eexists _, _]. destruct Hmic as [Lm Hmb].
  rewrite (ka_akm v s H), Lk in Lm. destruct (id S1) as (L1 & B1 & _).
  destruct (write_mic (reply_mic_len s) b1 m) as (b2 & -> & S2); [done|done|lia|lia|].
  rewrite access_bind.
  destruct (slice_ok b2 off_mic (reply_mic_len s)) as (c & -> & _); [done|lia|destruct S2; unfold off_mic; lia|].
  rewrite access_bind. eexists _, _. split; [done|]. by eapply same_but_mic_trans.
Qed.

Definition took (v : kept) : kept :=
  mk_kept (v_pmk v) (v_akm v) (v_tptk v) ptk_zero (v_resp v) (v_mgmt v) (v_rsn v).

Lemma took_keys v s : keys_are v s → keys_are (took v) (take_tptk s).
Proof. intros H. pose proof ptk_zero_ok. sm_split. Qed.

Lemma verify_ok v ver b :
  let n := wpa_mic_len (v_akm v) (blen (v_pmk v)) in
  fits v ver (v_ptk v) → fits v ver (v_tptk v) → bytes_ok b → 83 + n ≤ blen b →
  triple (keys_are v) (wpa_supplicant_verify_eapol_key_mic ver b)
    (λ r s, match r with
            | None => sm_ok s
            | Some b' => same_but_mic n b b' ∧ ∃ v', (v' = v ∨ v' = took v) ∧ keys_are v' s
            end).
Proof using L.
  intros n Hf Hft Hb Hl. unfold wpa_supplicant_verify_eapol_key_mic. t_step.
  destruct (v_mic_len v s H) as [Hm Hr]. fold n in Hm. pose proof (ka_ok v s H) as Hok.
  t_access (slice_ok b off_mic (reply_mic_len s)); [done|lia|unfold off_mic; lia|].
  eapply (t_seq _ _ _ (λ r s', same_but_mic n b r.1 ∧ keys_are (if r.2 : bool then took v else v) s')).
  { assert (Hno : triple (keys_are v) (mret (b, false))
      (λ r s', same_but_mic n b r.1 ∧ keys_are (if r.2 : bool then took v else v) s')).
    { apply t_ret. intros s' Hs'. by split. }
    destruct (tptk_set s); [|exact Hno].
    destruct (check_mic_ok v s (tptk s) ver b x H) as (b1 & ok & Ec & S1); [apply Hok| |done|lia|].
    { by rewrite (ka_tptk v s H). }
    rewrite Hm in S1. eapply t_lift; [exact Ec|]. cbv beta iota. destruct ok.
    - intros w Hw. wp_run. split; [done|]. by apply took_keys.
    - t_step. apply t_ret. intros s' Hs'. by split. }
  intros [b1 ok]. apply t_pure. cbn [fst snd]. intros S1. destruct (id S1) as (L1 & B1 & _).
  eapply (t_seq _ _ _ (λ r s', same_but_mic n b r.1 ∧ keys_are (if ok then took v else v) s')).
  { destruct (negb ok && ptk_set s); [|apply t_ret; intros s' Hs'; by split].
    destruct (check_mic_ok v s (ptk s) ver b1 x H) as (b2 & ok2 & Ec & S2); [apply Hok| |done|lia|].
    { by rewrite (ka_ptk v s H). }
    rewrite Hm in S2. intros w Hw. eapply wp_lift; [exact Ec|]. split; [|done].
    by eapply same_but_mic_trans. }
  intros [b2 ok2]. apply t_pure. cbn [fst snd]. intros (L2 & B2 & S2).
  t_step. { apply t_ret. intros s' Hs'. apply Hs'. }
  t_access (replay_in b2); [lia|].
  eapply (t_seq _ _ _ (λ _, keys_are (if ok then took v else v))).
  { apply t_upd_last. intros s' Hs'. sm_split. }
  intros ?. apply t_ret. intros s' Hs'. split; [done|]. exists (if ok then took v else v).
  split; [destruct ok; auto|done].
Qed.

(** What a key encryption key makes of encrypted key data. *)
Definition decrypts (p : wpa_ptk) (iv kd d : list Z) : Prop :=
  ∃ k, slice (kek p) 0 (kek_len p) = Some k ∧
       (rc4_skip (iv ++ k) 256 kd = Some d ∨ aes_unwrap k ((blen kd - 8) / 8) kd = Some d).

Lemma decrypt_ok v b ver kd :
  81 ≤ blen b → bytes_ok kd →
  keeps (keys_are v) (wpa_supplicant_decrypt_key_data b ver kd)
    (opt_all (λ d, bytes_ok d ∧ ∃ iv, frame_iv b = Some iv ∧ decrypts (v_ptk v) iv kd d)).
Proof using L EO.
  intros Hb Hkd. unfold wpa_supplicant_decrypt_key_data. do 2 t_step. t_step; [t_done|].
  destruct (iv_ok b Hb) as (iv & Hiv & _).
  destruct (kek_slice (ptk s) (so_ptk s (ka_ok v s H))) as (k & Hk & _). pose proof (ka_ptk v s H) as Hp.
  t_step.
  - eapply t_acc; [exact Hiv|]. eapply t_acc; [exact Hk|]. apply t_ret. intros s' Hs'. split; [done|].
    destruct (rc4_skip (iv ++ k) 256 kd) as [d|] eqn:Ed; [|done]. cbn [opt_all].
    split; [by apply rc4_skip_len in Ed as [_ ?]|]. exists iv. split; [done|]. exists k.
    rewrite <- Hp. auto.
  - t_step; [|t_done]. t_step; [t_done|]. eapply t_bind; [apply os_malloc_ok|]. intros ok _.
    t_step; [t_done|]. eapply t_acc; [exact Hk|]. apply t_ret. intros s' Hs'. split; [done|].
    destruct (aes_unwrap k ((blen kd - 8) / 8) kd) as [d|] eqn:Ed; [|done]. cbn [opt_all].
    apply orb_false_iff in Heqb3 as [Hl%bool_decide_eq_false_1 _].
    split; [apply aes_unwrap_len in Ed as [_ ?]; [done|Z.div_mod_to_equations; lia|done]|].
    exists iv. split; [done|]. exists k. rewrite <- Hp. auto.
Qed.

Lemma dispatch_ok v src b key_info ver n kd :
  81 ≤ blen b → ver_ok v ver → bytes_ok kd → vendor_selectors kd → kck_fits v (v_ptk v) →
  triple (keys_are v) (dispatch src b key_info ver n kd) (λ r s, sm_ok s ∧ (r = 1 ∨ r = -1)).
Proof using L EO.
  intros. unfold dispatch.
  assert (Hone : ∀ u : unit, triple sm_ok (mret 1) (λ r s, sm_ok s ∧ (r = 1 ∨ r = -1))).
  { intros ?. apply t_ret. auto. }
  t_step; [t_step|].
  - apply t_ret. intros s' Hs'. split; [apply Hs'|by right].
  - eapply (t_seq _ _ _ (λ _, sm_ok)); [|exact Hone].
    t_step; [by apply process_3_of_4_ok|by apply process_1_of_4_ok].
  - eapply (t_seq _ _ _ (λ _, sm_ok)); [|exact Hone].
    t_step; [by apply process_1_of_2_ok|]. apply t_ret. apply ka_ok.
Qed.

Lemma version_akm s ki ver : version_ok s ki ver = true →
  wpa_use_akm_defined (key_mgmt s) = true → ver = WPA_KEY_INFO_TYPE_AKM_DEFINED.
Proof.
  unfold version_ok. cbv zeta. intros Hv Ha. rewrite Ha in Hv.
  destruct (_ && negb true) eqn:E1; [done|]. rewrite andb_true_l in Hv.
  destruct (bool_decide_reflect (ver = WPA_KEY_INFO_TYPE_AKM_DEFINED)) as [|]; [done|].
  by cbn [negb] in Hv.
Qed.

(** Whether key data are decrypted before they are parsed. *)
Definition is_encrypted (rsn : bool) (ki n : Z) : bool :=
  rsn && any_of ki WPA_KEY_INFO_ENCR_KEY_DATA && bool_decide (n ≠ 0).

(** What is parsed of the key data, which may have to be decrypted with either PTK, has
    selectors. *)
Definition clean (v : kept) (b : list Z) (n : Z) (kd : list Z) : Prop :=
  ∀ ki, frame_key_info b = Some ki →
    if is_encrypted (v_rsn v) ki n
    then ∀ iv d p, frame_iv b = Some iv → p = v_ptk v ∨ p = v_tptk v → decrypts p iv kd d →
           vendor_selectors d
    else vendor_selectors kd.

Lemma rx_key_ok v src b n len kd :
  let m := wpa_mic_len (v_akm v) (blen (v_pmk v)) in
  m ≤ n → bytes_ok b → 0 ≤ len → 83 + n ≤ blen b → slice b (off_mic + n + 2) len = Some kd →
  kck_fits v (v_ptk v) → kck_fits v (v_tptk v) → clean v b n kd →
  triple (keys_are v) (rx_key src b n len) (λ r s, sm_ok s ∧ (r = 1 ∨ r = -1)).
Proof using L EO.
  intros m Hm Hb Hlen Hbl Hkd Hf Hft Hcl. unfold rx_key. t_step.
  assert (H0 : 0 ≤ m) by (unfold m; akm_lens).
  assert (Hend : ∀ (P : wpa_sm → Prop), (∀ s, P s → sm_ok s) →
    triple P (mret (-1)) (λ r s, sm_ok s ∧ (r = 1 ∨ r = -1))).
  { intros P HP. apply t_ret. auto. }
  destruct (key_info_ok b ltac:(lia)) as [ki Hki]. eapply t_acc; [exact Hki|]. cbv zeta. t_step.
  destruct (replay_in b ltac:(lia)) as (r & Hr & _). eapply t_acc; [exact Hr|].
  set (ver := Z.land ki _). t_step; [apply Hend, ka_ok|].
  apply orb_false_iff in Heqb0 as [[Hv _]%orb_false_iff _]. apply negb_false_iff in Hv.
  assert (Hver : ver_ok v ver).
  { intros Ha. eapply version_akm; [exact Hv|]. by rewrite (ka_akm v s H). }
  eapply (t_seq _ _ _ (λ r s, match r with
    | None => sm_ok s
    | Some b' => same_but_mic m b b' ∧ ∃ v', (v' = v ∨ v' = took v) ∧ keys_are v' s end)).
  { unfold verify_if_mic. t_step.
    - apply verify_ok; try done; [by apply kck_fits_fits..|fold m; lia].
    - apply t_ret. intros s' Hs'. split; [by split|]. exists v. auto. }
  intros [b'|]; [|by apply Hend]. apply t_pure. intros (L' & B' & S'). apply t_exists. intros v'.
  apply t_pure. intros Hv'.
  assert (Hk' : kck_fits v' (v_ptk v') ∧ ver_ok v' ver ∧ (v_ptk v' = v_ptk v ∨ v_ptk v' = v_tptk v)).
  { destruct Hv' as [->| ->]; [by auto|]. split_and!; [exact Hft|exact Hver|by right]. }
  destruct Hk' as (Hf' & Hver' & Hp').
  assert (Hiv : frame_iv b' = frame_iv b) by (apply S'; right; unfold off_iv, off_mic; lia).
  destruct (iv_ok b ltac:(lia)) as (iv & Eiv & _).
  rewrite <- (S' (off_mic + n + 2) len) in Hkd by (left; unfold off_mic; lia).
  eapply t_acc; [exact Hkd|]. assert (Hkb : bytes_ok kd) by (by eapply slice_Forall).
  eapply (t_bind _ _ _ (opt_all (λ d, bytes_ok d ∧ vendor_selectors d))).
  { specialize (Hcl ki Hki). unfold decrypt_if_encrypted, keeps. t_step.
    assert (Hr' : is_rsn s0 = v_rsn v).
    { rewrite (ka_rsn v' s0 H1). by destruct Hv' as [->| ->]. }
    unfold is_encrypted in Hcl. rewrite <- Hr' in Hcl. t_step.
    - t_step; [t_done|]. eapply t_last; [apply decrypt_ok; [lia|done]|]. intros d s' Hs' Hd.
      split; [done|]. destruct d as [d|]; [|done]. destruct Hd as (Hdb & iv' & Hiv' & Hd).
      split; [done|]. eapply Hcl; [|exact Hp'|exact Hd]. by rewrite <- Hiv.
    - apply t_ret. intros s' Hs'. split; [done|]. split; [done|]. exact Hcl. }
  intros [d|] Hd; [|apply Hend, ka_ok]. destruct Hd as [Hdb Hdv]. apply dispatch_ok; try done. lia.
Qed.

(** The copy of the first octets of a buffer *)
Lemma slice_prefix (buf b : list Z) n o k :
  slice buf 0 n = Some b → o + k ≤ n → slice b o k = slice buf o k.
Proof.
  intros Hb Ho. pose proof (slice_length _ _ _ _ Hb) as Hl. apply slice_Some in Hb as (_ & H1 & H2 & ->).
  unfold slice. rewrite Hl. case_bool_decide as Hc.
  - rewrite bool_decide_eq_true_2 by lia. f_equal. change (Z.to_nat 0) with 0%nat.
    rewrite drop_0, !take_drop_commute, take_take. do 2 f_equal. lia.
  - by rewrite bool_decide_eq_false_2 by lia.
Qed.
Lemma rd_prefix (buf b : list Z) n i : slice buf 0 n = Some b → i < n → rd b i = rd buf i.
Proof.
  intros Hb Hi. pose proof (slice_length _ _ _ _ Hb) as Hl. apply slice_Some in Hb as (_ & H1 & H2 & ->).
  rewrite <- (take_drop (Z.to_nat n) buf) at 2. rewrite rd_app_l; [done|].
  change (Z.to_nat 0) with 0%nat in Hl. rewrite drop_0 in Hl. lia.
Qed.
Lemma be16_prefix (buf b : list Z) n o :
  slice buf 0 n = Some b → o + 2 ≤ n → WPA_GET_BE16 b o = WPA_GET_BE16 buf o.
Proof. intros Hb Ho. unfold WPA_GET_BE16. by rewrite !(rd_prefix buf b n) by (done || lia). Qed.

(** The key data field of a frame, as [wpa_sm_rx_eapol] finds it. *)
Definition rx_mic_len (s : wpa_sm) : option Z := n ← rx_pmk_len s; Some (wpa_mic_len (key_mgmt s) n).
Definition frame_key_data (s : wpa_sm) (buf : list Z) : option (list Z) :=
  n ← rx_mic_len s;
  l ← WPA_GET_BE16 buf (off_mic + n);
  slice buf (off_mic + n + 2) l.

(** A KCK of a length that depends on the PMK was derived from a PMK of this length. *)
Definition mic_fits (s : wpa_sm) (p : wpa_ptk) : Prop :=
  key_mgmt s ∈ [WPA_KEY_MGMT_SAE_EXT_KEY; WPA_KEY_MGMT_DPP] → kck_len p ≤ reply_mic_len s.

(** Every vendor-specific element that is parsed has a selector: those of the key data, or
    of what one of the PTKs decrypts it to where the frame says that it is encrypted. *)
Definition clean_frame (s : wpa_sm) (buf : list Z) : Prop :=
  ∀ n kd ki, rx_mic_len s = Some n → frame_key_data s buf = Some kd → frame_key_info buf = Some ki →
    if is_encrypted (is_rsn s) ki n
    then ∀ iv d p, frame_iv buf = Some iv → p = ptk s ∨ p = tptk s → decrypts p iv kd d →
           vendor_selectors d
    else vendor_selectors kd.

Lemma rx_pmk_len_ok s : sm_ok s → ∃ n, rx_pmk_len s = Some n ∧ 0 ≤ n ≤ 64 ∧
  (pmk_of s = [] ∨ n = blen (pmk_of s)).
Proof.
  intros Hs. unfold rx_pmk_len. pose proof (so_pmk s Hs). case_bool_decide as Hp.
  - destruct (cur_entry_ok s (so_pm s Hs)) as (e & -> & He). cbn [mbind option_bind].
    eexists. split; [done|]. split; [|by left]. destruct e as [e|]; [cbn in He|]; lia.
  - eexists. split; [done|]. split; [lia|by right].
Qed.

Lemma mic_len_zero akm n : 0 ≤ n → wpa_mic_len akm 0 ≤ wpa_mic_len akm n.
Proof. intros. akm_lens. Qed.

Lemma rx_frame_ok v src buf n b len :
  81 + n + 2 ≤ len → 0 ≤ n → bytes_ok buf → slice buf 0 len = Some b →
  wpa_mic_len (v_akm v) (blen (v_pmk v)) ≤ n →
  kck_fits v (v_ptk v) → kck_fits v (v_tptk v) →
  (∀ kd, (l ← WPA_GET_BE16 buf (off_mic + n); slice buf (off_mic + n + 2) l) = Some kd → clean v buf n kd) →
  triple (keys_are v)
    (key_data_len ← acc (WPA_GET_BE16 b (off_mic + n));
     if bool_decide (len - sizeof_hdr - (sizeof_key + n + 2) < key_data_len) then mret (-1)
     else rx_key src b n key_data_len) (λ r s, sm_ok s ∧ (r = 0 ∨ r = 1 ∨ r = -1)).
Proof using L EO.
  intros Hlen Hn Hb Hs Hm Hf Hft Hcl. pose proof (slice_length _ _ _ _ Hs) as Lb.
  assert (Hbb : bytes_ok b) by (by eapply slice_Forall).
  unfold sizeof_hdr, sizeof_key. 
  destruct (WPA_GET_BE16_in b (off_mic + n)) as (l & Hl & Hl0); [unfold off_mic; lia|unfold off_mic; lia|done|].
  eapply t_acc; [exact Hl|]. t_step.
  { apply t_ret. intros s' Hs'. split; [apply Hs'|auto]. }
  apply bool_decide_eq_false_1 in Heqb0.
  destruct (slice_is_Some b (off_mic + n + 2) l) as [kd Hkd]; [unfold off_mic; lia..|].
  rewrite (be16_prefix buf b len) in Hl by (done || unfold off_mic; lia).
  assert (Hc : clean v buf n kd).
  { apply Hcl. rewrite Hl. cbn [mbind option_bind].
    by rewrite <- (slice_prefix buf b len) by (done || unfold off_mic; lia). }
  apply (t_mono _ _ (λ r s, sm_ok s ∧ (r = 1 ∨ r = -1))); [|naive_solver].
  eapply rx_key_ok; [done|done|lia|lia|exact Hkd|done|done|].
  intros ki Hki. specialize (Hc ki). unfold frame_key_info, frame_iv in *.
  rewrite (be16_prefix buf b len) in Hki by (done || unfold off_key_info; lia). specialize (Hc Hki).
  destruct (is_encrypted _ _ _); [|done]. intros iv d p Hiv. apply Hc.
  by rewrite <- (slice_prefix buf b len) by (done || unfold off_iv; lia).
Qed.
End safe.

(** C3: memory safety of the reception of EAPOL-Key frames.  From a well-formed state, and
    whatever the environment answers, wpa_sm_rx_eapol returns 0, 1 or -1 for every frame,
    without an access outside a buffer and without a use of a freed PMKSA entry, and the
    state is well-formed afterwards.  Three conditions are needed: the KCK of an AKM
    whose KCK length depends on the PMK is not longer than the MIC field ([mic_fits]); in the
    key data that are parsed, those of the frame or, when they are encrypted, those that a
    PTK decrypts them to, every vendor-specific element that the parser comes to has a
    selector or is empty ([clean_frame]); and the answers of the environment have the sizes
    of their arrays ([env_ok]).  HMACs may fail. *)
Theorem rx_eapol_safe `{C : wpa_crypto} {L : wpa_crypto_laws C} `{E : wpa_env} {EO : env_ok E} s t src buf :
  sm_ok s → mic_fits s (ptk s) → mic_fits s (tptk s) → bytes_ok buf → clean_frame s buf →
  ∃ r w, wpa_sm_rx_eapol src buf (mk_world s t) = Ret (r, w) ∧ (r = 0 ∨ r = 1 ∨ r = -1) ∧ sm_ok (sm w).
Proof.
  intros Hs Hf Hft Hb Hc.
  set (v := mk_kept (pmk_of s) (key_mgmt s) (ptk s) (tptk s) (assoc_resp_ies s) (mgmt_group_cipher s)
    (is_rsn s)).
  destruct (rx_pmk_len_ok s Hs) as (n & Hn & Hr & Hpmk).
  set (m := wpa_mic_len (key_mgmt s) n). assert (Hm0 : 0 ≤ m) by (subst m; akm_lens).
  assert (Hm : wpa_mic_len (v_akm v) (blen (v_pmk v)) ≤ m).
  { subst m. change (wpa_mic_len (key_mgmt s) (blen (pmk_of s)) ≤ wpa_mic_len (key_mgmt s) n).
    destruct Hpmk as [Hp| ->]; [rewrite Hp; apply mic_len_zero; lia|lia]. }
  assert (Hkeep : ∀ f : wpa_sm → M Z,
    (∀ s', keys_are v s' → rx_pmk_len s' = Some n → key_mgmt s' = key_mgmt s →
       triple (keys_are v) (f s') (λ r s, sm_ok s ∧ (r = 0 ∨ r = 1 ∨ r = -1))) →
    wp (_ ← upd (λ s, s <| ft_completed := false |>); s' ← get_sm; f s')
      (λ r w', sm_ok (sm w') ∧ (r = 0 ∨ r = 1 ∨ r = -1)) (mk_world s t)).
  { intros f H. do 3 wp_step. assert (H0 : keys_are v (s <| ft_completed := false |>)).
    { split; try done. clear -Hs. sm_split. }
    apply (H _ H0 Hn eq_refl (mk_world _ t) H0). }
  assert (Hend : ∀ x, x = 0 ∨ x = 1 ∨ x = -1 →
    triple (keys_are v) (mret x) (λ r s, sm_ok s ∧ (r = 0 ∨ r = 1 ∨ r = -1))).
  { intros x Hx. apply t_ret. intros s' Hs'. split; [apply Hs'|done]. }
  assert (Hkd : ∀ kd, (l ← WPA_GET_BE16 buf (off_mic + m); slice buf (off_mic + m + 2) l) = Some kd →
    clean v buf m kd).
  { intros kd Hk ki Hki. apply Hc; [|unfold frame_key_data|exact Hki];
      unfold rx_mic_len; rewrite Hn; [done|exact Hk]. }
  destruct (wp_returns (wpa_sm_rx_eapol src buf) (λ r w', sm_ok (sm w') ∧ (r = 0 ∨ r = 1 ∨ r = -1))
    (mk_world s t)) as (r & w & Er & Hw & Hres); [|by exists r, w].
  unfold wpa_sm_rx_eapol. apply Hkeep. intros s' Hs' Hn' Hakm.
  eapply t_acc; [exact Hn'|]. cbv zeta. rewrite Hakm. fold m. clearbody m.
  unfold sizeof_hdr, sizeof_key. t_step; [by apply Hend; auto|]. apply bool_decide_eq_false_1 in Heqb.
  destruct (WPA_GET_BE16_in buf 2) as (l & Hl & Hl0); [lia|lia|done|]. eapply t_acc; [exact Hl|].
  destruct (rd_in buf 1) as [ty Hty]; [lia|]. eapply t_acc; [exact Hty|].
  t_step; [by apply Hend; auto|]. t_step; [by apply Hend; auto|].
  apply orb_false_iff in Heqb1 as [Hl1%bool_decide_eq_false_1 Hl2%bool_decide_eq_false_1].
  eapply t_bind; [apply os_malloc_ok|]. intros ok _. t_step; [by apply Hend; auto|].
  destruct (slice_is_Some buf 0 (l + 4)) as [b Hbb]; [lia..|]. eapply t_acc; [exact Hbb|].
  pose proof (slice_length _ _ _ _ Hbb) as Lb.
  destruct (rd_in b off_type) as [kt Hkt]; [unfold off_type; lia|]. eapply t_acc; [exact Hkt|].
  t_step; [by apply Hend; auto|].
  eapply t_mono; [|intros ? ? Hx; exact Hx].
  replace (l - (77 + m + 2)) with (l + 4 - sizeof_hdr - (sizeof_key + m + 2))
    by (unfold sizeof_hdr, sizeof_key; lia).
  by eapply (rx_frame_ok v src buf m b (l + 4)); try done; lia.
Qed.
