(* ===== verification/WpaAnswer.v ===== *)
(** Message 1/4 is answered

    The layout of EAPOL-Key frames as a concatenation of their fields, message 2/4 as
    [wpa_supplicant_send_2_of_4] builds it, and that a supplicant of WPA2-PSK answers
    message 1/4 with it when its calls succeed. *)
From S2P Require Import Prelude Bytes Defs Suites RsnIe RsnInsert Kde PmksaCache WpaKey WpaKeyProofs WpaSm WpaHandshake WpaLogic WpaSafe WpaRxSafe.

(** ** Frames as their fields *)
Record key_fields := mk_fields {
  f_version : Z;
  f_type : Z;
  f_info : Z;
  f_key_length : list Z;
  f_replay : list Z;
  f_nonce : list Z;
  f_mic : list Z;
  f_data : list Z;
}.
Definition frame_front (f : key_fields) : list Z :=
  [f_version f; IEEE802_1X_TYPE_EAPOL_KEY] ++
  be16_bytes (sizeof_key + blen (f_mic f) + 2 + blen (f_data f)) ++
  [f_type f] ++ be16_bytes (f_info f) ++ f_key_length f ++ f_replay f ++ f_nonce f ++
  zeros 32.
Definition key_frame (f : key_fields) : list Z :=
  frame_front f ++ f_mic f ++ be16_bytes (blen (f_data f)) ++ f_data f.

Record fields_ok (f : key_fields) : Prop := {
  fo_key_length : length (f_key_length f) = 2%nat;
  fo_replay : length (f_replay f) = 8%nat;
  fo_nonce : length (f_nonce f) = 32%nat;
  fo_room : blen (f_mic f) + blen (f_data f) ≤ 65000;
  fo_info : 0 ≤ f_info f < 65536;
}.

Lemma be16_length v : length (be16_bytes v) = 2%nat.
Proof. done. Qed.
Ltac blens := rewrite ?length_app, ?be16_length, ?length_replicate; cbn [length]; lia.

Lemma front_length f : fields_ok f → length (frame_front f) = 81%nat.
Proof.
  intros [H1 H2 H3 _ _]. unfold frame_front, zeros. rewrite !length_app, length_replicate, H1, H2, H3. done.
Qed.

Section layout.
Context (f : key_fields) (Hf : fields_ok f).

Lemma frame_length : blen (key_frame f) = 83 + blen (f_mic f) + blen (f_data f).
Proof. unfold key_frame. rewrite !length_app, (front_length f Hf), be16_length. lia. Qed.

Lemma frame_split_replay : ∃ pre post, blen pre = 9 ∧ key_frame f = pre ++ f_replay f ++ post.
Proof.
  exists ([f_version f; IEEE802_1X_TYPE_EAPOL_KEY] ++
    be16_bytes (sizeof_key + blen (f_mic f) + 2 + blen (f_data f)) ++
    [f_type f] ++ be16_bytes (f_info f) ++ f_key_length f).
  eexists. destruct Hf as [H1 _ _ _ _]. split; [rewrite !length_app, H1; done|].
  unfold key_frame, frame_front. rewrite <- !(assoc_L (++)). done.
Qed.
Lemma frame_split_nonce : ∃ pre post, blen pre = 17 ∧ key_frame f = pre ++ f_nonce f ++ post.
Proof.
  exists ([f_version f; IEEE802_1X_TYPE_EAPOL_KEY] ++
    be16_bytes (sizeof_key + blen (f_mic f) + 2 + blen (f_data f)) ++
    [f_type f] ++ be16_bytes (f_info f) ++ f_key_length f ++ f_replay f).
  eexists. destruct Hf as [H1 H2 _ _ _]. split; [rewrite !length_app, H1, H2; done|].
  unfold key_frame, frame_front. rewrite <- !(assoc_L (++)). done.
Qed.

Lemma frame_replay_at : frame_replay (key_frame f) = Some (f_replay f).
Proof.
  destruct frame_split_replay as (pre & post & Hl & ->). apply slice_app_mid; [done|].
  by rewrite (fo_replay f Hf).
Qed.
Lemma frame_nonce_at : frame_nonce (key_frame f) = Some (f_nonce f).
Proof.
  destruct frame_split_nonce as (pre & post & Hl & ->). apply slice_app_mid; [done|].
  by rewrite (fo_nonce f Hf).
Qed.
Lemma frame_info_at : frame_key_info (key_frame f) = Some (f_info f).
Proof. apply (get_be16_app (_ :: _ :: _ :: _ :: _ :: [])); [apply (fo_info f Hf)|done]. Qed.
Lemma frame_body_length_at :
  WPA_GET_BE16 (key_frame f) 2 = Some (sizeof_key + blen (f_mic f) + 2 + blen (f_data f)).
Proof.
  apply (get_be16_app (_ :: _ :: [])); [|done]. destruct Hf. unfold sizeof_key. lia.
Qed.
Lemma frame_data_length_at n :
  n = blen (f_mic f) → WPA_GET_BE16 (key_frame f) (off_mic + n) = Some (blen (f_data f)).
Proof.
  intros ->. unfold key_frame. rewrite (assoc_L (++)). destruct Hf.
  apply get_be16_app; [lia|]. rewrite length_app, front_length by done. unfold off_mic. lia.
Qed.
Lemma frame_data_at n :
  n = blen (f_mic f) → slice (key_frame f) (off_mic + n + 2) (blen (f_data f)) = Some (f_data f).
Proof.
  intros ->. replace (key_frame f) with
    ((frame_front f ++ f_mic f ++ be16_bytes (blen (f_data f))) ++ f_data f ++ [])
    by (unfold key_frame; rewrite app_nil_r, <- !(assoc_L (++)); done).
  apply slice_app_mid; [|done]. rewrite !length_app, front_length, be16_length by done.
  unfold off_mic. lia.
Qed.
Lemma frame_whole n : n = blen (key_frame f) → slice (key_frame f) 0 n = Some (key_frame f).
Proof. apply slice_all. Qed.
End layout.

Definition with_mic (f : key_fields) (mic : list Z) : key_fields :=
  mk_fields (f_version f) (f_type f) (f_info f) (f_key_length f) (f_replay f) (f_nonce f) mic (f_data f).

Lemma frame_mic_written f mic :
  fields_ok f → length mic = length (f_mic f) →
  blit (key_frame f) off_mic mic = Some (key_frame (with_mic f mic)).
Proof.
  intros Hf Hl. unfold key_frame at 1. rewrite (blit_mid (frame_front f)).
  - unfold key_frame, frame_front. cbn [with_mic f_version f_type f_info f_key_length f_replay f_nonce f_mic f_data].
    by rewrite Hl.
  - by rewrite front_length.
  - done.
Qed.

(** ** Writing a field

    A buffer as the sequence of its parts, of which a write replaces one. *)
Lemma blit_part (l : list (list Z)) i x o p :
  l !! i = Some x → length x = length o → p = blen (concat (take i l)) →
  blit (concat l) p o = Some (concat (<[i:=o]> l)).
Proof.
  intros Hi Hx Hp. pose proof (lookup_lt_Some _ _ _ Hi). rewrite insert_take_drop by done.
  rewrite <- (take_drop_middle l i x Hi) at 1. rewrite !concat_app. by apply blit_mid.
Qed.

Lemma wr_part (l : list (list Z)) i x v p :
  l !! i = Some [x] → p = blen (concat (take i l)) →
  wr (concat l) p v = Some (concat (<[i:=[v]]> l)).
Proof.
  intros Hi Hp. pose proof (lookup_lt_Some _ _ _ Hi). rewrite insert_take_drop by done.
  rewrite <- (take_drop_middle l i [x] Hi) at 1. rewrite !concat_app. by apply wr_mid.
Qed.

Lemma zeros_app n m : 0 ≤ n → 0 ≤ m → zeros (n + m) = zeros n ++ zeros m.
Proof. intros. unfold zeros. by rewrite Z2Nat.inj_add, replicate_add. Qed.

(** The parts of an empty frame. *)
Definition empty_parts (v m n : Z) : list (list Z) :=
  [[v; IEEE802_1X_TYPE_EAPOL_KEY] ++ be16_bytes (sizeof_key + m + 2 + n); [0]; zeros 2; zeros 2;
   zeros 8; zeros 32; zeros 32; zeros m; zeros 2; zeros n].

Lemma empty_frame v m n :
  0 ≤ m → 0 ≤ n → m + n ≤ 65000 →
  [v; IEEE802_1X_TYPE_EAPOL_KEY] ++ be16_bytes (u16 (sizeof_key + m + 2 + n)) ++
    zeros (u16 (sizeof_key + m + 2 + n)) = concat (empty_parts v m n).
Proof.
  intros Hm Hn Hl. rewrite wrap_small by (unfold sizeof_key; lia).
  replace (sizeof_key + m + 2 + n) with (1 + (2 + (2 + (8 + (32 + (32 + (m + (2 + n)))))))) at 2
    by (unfold sizeof_key; lia).
  rewrite !zeros_app by lia. unfold empty_parts. cbn [concat]. by rewrite app_nil_r, <- !(assoc_L (++)).
Qed.

Section reply.
Context `{C : wpa_crypto} {L : wpa_crypto_laws C} `{E : wpa_env}.

(** The reply to the frame [q] before its MIC is computed. *)
Definition reply_fields (s : wpa_sm) (info : Z) (kl replay nonce mic kd : list Z) : key_fields :=
  mk_fields eapol_version (reply_type s) info kl replay nonce mic kd.

Ltac parts :=
  unfold empty_parts, off_mic, off_nonce; cbn [insert list_insert take concat];
  rewrite ?length_app, ?be16_length; unfold zeros; rewrite ?length_replicate; cbn [length]; lia.

Lemma reply_written s q info replay nonce kd m :
  is_rsn s = true → frame_replay q = Some replay → length nonce = 32%nat → 0 ≤ m →
  m + blen kd ≤ 65000 →
  (msg ← fill_reply s q info (concat (empty_parts eapol_version m (blen kd)));
   msg ← WPA_PUT_BE16 msg (off_mic + m) (u16 (blen kd));
   msg ← blit msg (off_mic + m + 2) kd;
   blit msg off_nonce nonce) =
  Some (key_frame (reply_fields s info (be16_bytes 0) replay nonce (zeros m) kd)).
Proof.
  intros Hr Hq Hn Hm Hl. unfold fill_reply, WPA_PUT_BE16.
  rewrite Hr, Hq. pose proof (slice_length _ _ _ _ Hq) as Hlr.
  assert (Hlr' : length replay = 8%nat) by (unfold WPA_REPLAY_COUNTER_LEN in Hlr; lia). clear Hlr.
  rewrite (wrap_small 16 (blen kd)) by lia. cbn [mbind option_bind].
  rewrite (wr_part _ 1 0) by done. cbn [mbind option_bind].
  rewrite (blit_part _ 2 (zeros 2)) by done. cbn [mbind option_bind].
  rewrite (blit_part _ 3 (zeros 2)) by done. cbn [mbind option_bind].
  rewrite (blit_part _ 4 (zeros 8)) by (done || by rewrite Hlr'). cbn [mbind option_bind].
  rewrite (blit_part _ 8 (zeros 2)); [|done|done|parts]. cbn [mbind option_bind].
  rewrite (blit_part _ 9 (zeros (blen kd))); [|done|parts|parts]. cbn [mbind option_bind].
  rewrite (blit_part _ 5 (zeros 32)); [|done|by rewrite Hn|parts].
  f_equal. unfold empty_parts, key_frame, frame_front, reply_fields. cbn.
  rewrite zeros_length by done. by rewrite app_nil_r, <- !(assoc_L (++)).
Qed.

(** An environment in which the calls succeed. *)
Class obliging : Prop := {
  ob_malloc t n : env_malloc t n = true;
  ob_random t : ∃ n, env_random t = Some n ∧ blen n = 32;
  ob_send t d b : 0 ≤ env_ether_send t d b;
  ob_ctx t : env_network_ctx t ≠ None;
  ob_hmac k d : is_Some (hmac_sha1 k d);
}.
Context {O : obliging}.

Lemma sha1_mic k akm b :
  blen k ≠ 0 →
  ∃ mic, wpa_eapol_key_mic k akm WPA_KEY_INFO_TYPE_HMAC_SHA1_AES b = Ret (Some mic) ∧ length mic = 16%nat.
Proof using L O.
  intros Hk. unfold wpa_eapol_key_mic. rewrite (bool_decide_eq_false_2 (blen k = 0)) by done.
  destruct (ob_hmac k b) as [h Hh]. destruct (hmac_sha1_len k b h Hh) as [Hl _]. cbn. rewrite Hh.
  unfold mac_prefix, MD5_MAC_LEN. destruct (slice_is_Some h 0 16) as [m Hm]; [lia..|]. rewrite Hm.
  exists m. split; [done|]. apply slice_length in Hm. lia.
Qed.

(** The frame with the MIC of [keys]. *)
Definition signed_by (s : wpa_sm) (keys : wpa_ptk) (f : key_fields) (mic : list Z) : Prop :=
  wpa_eapol_key_mic (take (Z.to_nat (kck_len keys)) (kck keys)) (key_mgmt s)
    WPA_KEY_INFO_TYPE_HMAC_SHA1_AES (key_frame f) = Ret (Some mic).

Lemma key_send_run keys dest f w Q :
  ptk_ok keys → kck_len keys ≠ 0 → key_mgmt (sm w) = WPA_KEY_MGMT_PSK →
  is_zero_ether_addr dest = false → fields_ok f → length (f_mic f) = 16%nat →
  (∀ mic r, length mic = 16%nat → signed_by (sm w) keys f mic → 0 ≤ r →
    Q r (mk_world (sm w)
           (TxEapolKey :: EtherSend dest ETH_P_EAPOL (key_frame (with_mic f mic)) r :: tr w))) →
  wp (wpa_eapol_key_send keys WPA_KEY_INFO_TYPE_HMAC_SHA1_AES dest ETH_P_EAPOL (key_frame f) true) Q w.
Proof using L O.
  intros Hp Hk Ha Hd Hf Hm HQ. unfold wpa_eapol_key_send. do 2 wp_step. rewrite Hd. cbn [andb].
  do 2 wp_step. cbv zeta.
  rewrite (bool_decide_eq_true_2 (_ ≠ 0)) by (by rewrite Ha).
  rewrite (bool_decide_eq_false_2 (kck_len keys = 0)) by done. cbn [andb].
  assert (Hs : slice (kck keys) 0 (kck_len keys) = Some (take (Z.to_nat (kck_len keys)) (kck keys))).
  { destruct Hp. by rewrite slice_in by lia. }
  pose proof (slice_length _ _ _ _ Hs) as Hl.
  destruct (sha1_mic (take (Z.to_nat (kck_len keys)) (kck keys)) (key_mgmt (sm w)) (key_frame f))
    as (mic & Hmic & Lm); [lia|].
  wp_step. eapply wp_acc; [exact Hs|]. do 2 wp_step. eapply wp_lift; [exact Hmic|]. cbv beta iota.
  wp_step. eapply wp_acc; [apply frame_mic_written; [done|congruence]|]. cbv beta. wp_step. wp_step.
  unfold wpa_sm_ether_send. wp_run. apply HQ; [done|done|apply ob_send].
Qed.

(** A supplicant of WPA2-PSK that does not use RSN overriding or FT. *)
Record psk_supplicant (s : wpa_sm) : Prop := {
  ps_akm : key_mgmt s = WPA_KEY_MGMT_PSK;
  ps_proto : proto s = WPA_PROTO_RSN;
  ps_cipher : pairwise_cipher s = WPA_CIPHER_CCMP;
  ps_override : rsn_override s = RSN_OVERRIDE_NOT_USED;
  ps_support : rsn_override_support s = false;
  ps_rekey : wpa_deny_ptk0_rekey s = false;
  ps_bssid : is_zero_ether_addr (sm_bssid s) = false;
  ps_pmk : blen (pmk_of s) = 32;
}.

Lemma psk_rsn s : psk_supplicant s → is_rsn s = true.
Proof. intros H. unfold is_rsn. by rewrite (ps_proto s H). Qed.
Lemma psk_mic_len s : psk_supplicant s → reply_mic_len s = 16.
Proof. intros H. unfold reply_mic_len. by rewrite (ps_akm s H). Qed.

(** The key information of message 2/4: HMAC-SHA1-AES, pairwise, MIC. *)
Definition info_2_of_4 : Z := 0x010a.
Definition message_2 (s : wpa_sm) (replay nonce mic ie : list Z) : key_fields :=
  reply_fields s info_2_of_4 (be16_bytes 0) replay nonce mic ie.

Lemma message_2_ok s replay nonce mic ie :
  length replay = 8%nat → length nonce = 32%nat → length mic = 16%nat → blen ie ≤ 60000 →
  fields_ok (message_2 s replay nonce mic ie).
Proof. intros. split; cbn; try done. rewrite H1. lia. Qed.

Lemma send_2_of_4_run dst q replay nonce ie keys w Q :
  psk_supplicant (sm w) → frame_replay q = Some replay → length nonce = 32%nat → ptk_ok keys →
  kck_len keys ≠ 0 → blen ie ≤ 60000 → is_zero_ether_addr dst = false →
  (∀ mic r n, length mic = 16%nat → signed_by (sm w) keys (message_2 (sm w) replay nonce (zeros 16) ie) mic →
    0 ≤ r →
    Q r (mk_world (sm w) (TxEapolKey :: EtherSend dst ETH_P_EAPOL
           (key_frame (message_2 (sm w) replay nonce mic ie)) r :: Malloc n true :: tr w))) →
  wp (wpa_supplicant_send_2_of_4 dst q WPA_KEY_INFO_TYPE_HMAC_SHA1_AES nonce (Some ie) keys) Q w.
Proof using L O.
  intros Hs Hq Hn Hp Hk Hi Hd HQ. unfold wpa_supplicant_send_2_of_4, add_rsn_selection. do 2 wp_step.
  rewrite (ps_akm _ Hs) at 1. change (wpa_key_mgmt_ft WPA_KEY_MGMT_PSK) with false.
  wp_run. cbv iota. wp_run. rewrite (ps_override _ Hs), bool_decide_eq_true_2 by done. wp_run.
  rewrite (psk_mic_len _ Hs). unfold wpa_alloc_eapol, os_malloc. cbv iota zeta. wp_run. rewrite ob_malloc.
  rewrite empty_frame by lia.
  pose proof (reply_written (sm w) q info_2_of_4 replay nonce ie 16 (psk_rsn _ Hs) Hq Hn) as Hw.
  apply bind_Some in Hw as (m1 & H1 & Hw); [|lia..].
  apply bind_Some in Hw as (m2 & H2 & Hw). apply bind_Some in Hw as (m3 & H3 & H4).
  cbv iota. wp_step. eapply wp_acc; [exact H1|]. wp_step. eapply wp_acc; [exact H2|].
  wp_step. eapply wp_acc; [exact H3|]. wp_step. eapply wp_acc; [exact H4|].
  assert (Hr : length replay = 8%nat).
  { apply slice_length in Hq. unfold WPA_REPLAY_COUNTER_LEN in Hq. lia. }
  apply key_send_run; [done|done|apply (ps_akm _ Hs)|done|by apply message_2_ok|done|].
  intros mic r Hm Hsig Hr0. apply HQ; done.
Qed.

(** The PRF of HMAC-SHA-1 does not fail. *)
Context (prf : ∀ k l d n, is_Some (sha1_prf k l d n)).

(** The PTK of the nonces. *)
Definition ptk_of (s : wpa_sm) (an : list Z) (p : wpa_ptk) : Prop :=
  ∃ kdk, wanted_kdk_len s = Some kdk ∧
    wpa_pmk_to_ptk (pmk_of s) pairwise_key_expansion (sm_own_addr s) (sm_bssid s) (snonce s) an
      (tptk s) WPA_KEY_MGMT_PSK WPA_CIPHER_CCMP [] kdk = Ret (0, p).

Lemma psk_derives s an :
  psk_supplicant s → sm_ok s →
  ∃ kdk p, wanted_kdk_len s = Some kdk ∧
    wpa_pmk_to_ptk (pmk_of s) pairwise_key_expansion (sm_own_addr s) (sm_bssid s) (snonce s) an
      (tptk s) WPA_KEY_MGMT_PSK WPA_CIPHER_CCMP [] kdk = Ret (0, p) ∧
    ptk_ok p ∧ kck_len p = 16.
Proof using L prf.
  intros Hs Hok.
  assert (Hk : ∃ kdk, wanted_kdk_len s = Some kdk ∧ 0 ≤ kdk ≤ 32).
  { unfold wanted_kdk_len, WPA_KDK_MAX_LEN. destruct (force_kdk_derivation s); [by eexists|].
    destruct (secure_ltf s); [|by eexists].
    destruct (rsnx_capab_ok (ap_rsnxe s) WLAN_RSNX_CAPAB_SECURE_LTF) as [c ->]; [apply Hok|].
    eexists. split; [done|]. by destruct c. }
  destruct Hk as (kdk & Hk & Hk0). exists kdk.
  destruct (pmk_to_ptk_ok (pmk_of s) pairwise_key_expansion (sm_own_addr s) (sm_bssid s) (snonce s) an
    (tptk s) WPA_KEY_MGMT_PSK WPA_CIPHER_CCMP [] kdk) as (r & p & Hp & Hd); [apply Hok..|lia|].
  exists p. split; [done|]. assert (Hr : r = 0); [|destruct Hd as (Hd & _ & _ & Hl); subst r].
  2:{ split; [done|]. split; [done|]. rewrite (Hl eq_refl), (ps_pmk s Hs). done. }
  revert Hp. unfold wpa_pmk_to_ptk. rewrite (bool_decide_eq_false_2 (blen (pmk_of s) = 0)) by (rewrite (ps_pmk s Hs); done).
  rewrite (bool_decide_eq_false_2 (MAX_Z_LEN < _)) by (unfold MAX_Z_LEN; cbn; lia).
  cbv zeta. rewrite (bool_decide_eq_false_2 (WPA_KDK_MAX_LEN < kdk)) by (unfold WPA_KDK_MAX_LEN; lia).
  rewrite (bool_decide_eq_false_2 (tk_len _ = 0)) by done.
  destruct (bool_decide (sizeof_ptk_tmp < _)); [done|].
  assert (Hprf : ∀ k d n l, is_Some (ptk_prf WPA_KEY_MGMT_PSK k d n l)) by (intros; apply prf).
  match goal with |- context [ptk_prf ?a ?b ?c ?d ?e] => destruct (Hprf b c d e) as [tmp Ht]; rewrite Ht end.
  destruct (split_ptk _ _); [|done]. by intros [= <- _].
Qed.

(** The state after the nonce and after the temporary PTK. *)
Definition with_tptk (s : wpa_sm) (p : wpa_ptk) : wpa_sm := s <| tptk := p |> <| tptk_set := true |>.

Lemma derive_tptk_run an w Q :
  psk_supplicant (sm w) → sm_ok (sm w) →
  (∀ p, ptk_of (sm w) an p → ptk_ok p → kck_len p = 16 →
     Q true (mk_world (with_tptk (sm w) p) (tr w))) →
  wp (derive_tptk an) Q w.
Proof using L prf.
  intros Hs Hok HQ. destruct (psk_derives _ an Hs Hok) as (kdk & p & Hk & Hp & Hpok & Hl).
  unfold derive_tptk, wpa_derive_ptk. wp_run. rewrite (ps_akm _ Hs), (ps_cipher _ Hs).
  change (wpa_key_mgmt_ft WPA_KEY_MGMT_PSK) with false. cbv iota zeta. wp_step.
  eapply wp_acc; [exact Hk|]. eapply wp_lift; [exact Hp|]. cbv beta iota. wp_run.
  change (bool_decide (0 < 0)) with false. cbv iota. wp_step. eapply wp_acc.
  { unfold swap_tk. by rewrite (ps_cipher _ Hs). }
  wp_run. apply (HQ p); [by exists kdk|done|done].
Qed.

(** The elements of message 2/4: those of the association request. *)
Definition own_ies (s : wpa_sm) : list Z :=
  default [] (assoc_wpa_ie s) ++ default [] (assoc_rsnxe s).

Lemma psk_kde s :
  psk_supplicant s → sm_ok s →
  kde_2_of_4 s = Some (own_ies s) ∧ blen (own_ies s) ≤ kde_2_of_4_size s ∧ blen (own_ies s) ≤ 60000.
Proof.
  intros Hs Hok. destruct (so_own s Hok) as (Hl & Hr & _). unfold room_for in Hr.
  unfold kde_2_of_4, dpp_kde, kde_2_of_4_size, own_ies. rewrite (ps_akm s Hs), app_nil_r, Hl.
  split; [|rewrite length_app; unfold RSN_SELECTOR_LEN; lia].
  destruct (assoc_wpa_ie s) as [e|]; cbn [default]; [|done]. by rewrite slice_all.
Qed.

Lemma reply_1_of_4_run q replay an w Q :
  psk_supplicant (sm w) → sm_ok (sm w) → frame_replay q = Some replay → frame_nonce q = Some an →
  kck_len (tptk (sm w)) = 16 →
  (∀ mic r l, length mic = 16%nat →
     signed_by (sm w) (tptk (sm w)) (message_2 (sm w) replay (snonce (sm w)) (zeros 16) (own_ies (sm w))) mic →
     0 ≤ r → (∀ c, Deauth c ∉ (l : list event)) →
     Q true (mk_world ((sm w) <| anonce := an |>) (TxEapolKey :: EtherSend (sm_bssid (sm w)) ETH_P_EAPOL
       (key_frame (message_2 (sm w) replay (snonce (sm w)) mic (own_ies (sm w)))) r :: l ++ tr w))) →
  wp (reply_1_of_4 q WPA_KEY_INFO_TYPE_HMAC_SHA1_AES) Q w.
Proof using L O.
  intros Hs Hok Hq Hn Hk HQ. destruct (psk_kde _ Hs Hok) as (Hd & Hsz & Hlen).
  unfold reply_1_of_4, os_malloc. wp_run. rewrite ob_malloc. cbn [negb]. wp_step.
  eapply wp_acc; [exact Hd|]. wp_step. eapply wp_acc; [by rewrite bool_decide_eq_true_2|]. wp_step.
  eapply send_2_of_4_run; [exact Hs|exact Hq| |apply Hok|by rewrite Hk|done|apply Hs|].
  { pose proof (so_snonce _ Hok). cbn [sm]. lia. }
  intros mic r n Hm Hsig Hr. rewrite bool_decide_eq_false_2 by lia. wp_step.
  eapply wp_acc; [exact Hn|]. wp_run.
  apply (HQ mic r [Malloc n true; Malloc (kde_2_of_4_size (sm w)) true]); try done. clear. set_solver.
Qed.

Lemma renew_nonce_run w Q :
  psk_supplicant (sm w) → sm_ok (sm w) →
  (∀ n (l : list event), blen n = 32 → (∀ c, Deauth c ∉ l) →
     (renew_snonce (sm w) = true → RandomBytes (Some n) ∈ l) →
     (renew_snonce (sm w) = false → n = snonce (sm w)) →
     Q true (mk_world ((sm w) <| snonce := n |> <| renew_snonce := false |>) (l ++ tr w))) →
  wp renew_nonce Q w.
Proof using O.
  intros Hs Hok HQ. unfold renew_nonce. wp_step. wp_step. destruct (renew_snonce (sm w)) eqn:Er.
  - unfold random_get_bytes, wpa_sm_rsn_overriding_supported. rewrite (ps_support _ Hs). wp_run.
    destruct (ob_random (tr w)) as (n & Hn & Hl). rewrite Hn. wp_run. eapply wp_acc; [done|]. wp_run.
    apply (HQ n [RandomBytes (Some n)]); try done; clear; set_solver.
  - wp_run. destruct w as [s t]. cbn [sm tr] in *.
    pose proof (HQ (snonce s) []) as H. cbn [app] in H.
    replace s with (s <| snonce := snonce s |> <| renew_snonce := false |>) at 1; [|by destruct s; cbn in Er; subst].
    apply H; try done; [apply Hok|clear; set_solver].
Qed.

Lemma get_pmk_run src w Q :
  psk_supplicant (sm w) → Q 0 w → wp (wpa_supplicant_get_pmk src None) Q w.
Proof.
  intros Hs HQ. unfold wpa_supplicant_get_pmk, find_pmksa, finish_get_pmk. wp_run.
  rewrite (bool_decide_eq_true_2 (None = None)) by done. wp_run. rewrite (ps_akm _ Hs). by wp_run.
Qed.

(** What a supplicant in the state [s] has done when it has answered message 1/4 with the
    replay counter [replay] and the ANonce [an]. *)
Record answered (s : wpa_sm) (replay an : list Z) (t : list event) (w : world) : Prop := {
  an_nonce : blen (snonce (sm w)) = 32 ∧ (renew_snonce s = false → snonce (sm w) = snonce s);
  an_anonce : anonce (sm w) = an;
  an_set : tptk_set (sm w) = true;
  an_ptk : ∃ kdk, wanted_kdk_len s = Some kdk ∧
    wpa_pmk_to_ptk (pmk_of s) pairwise_key_expansion (sm_own_addr s) (sm_bssid s) (snonce (sm w)) an
      (tptk s) WPA_KEY_MGMT_PSK WPA_CIPHER_CCMP [] kdk = Ret (0, tptk (sm w));
  an_sent : ∃ mic r l,
    signed_by s (tptk (sm w)) (message_2 s replay (snonce (sm w)) (zeros 16) (own_ies s)) mic ∧
    tr w = TxEapolKey :: EtherSend (sm_bssid s) ETH_P_EAPOL
             (key_frame (message_2 s replay (snonce (sm w)) mic (own_ies s))) r :: l ++ t ∧
    (∀ c, Deauth c ∉ l) ∧ (renew_snonce s = true → RandomBytes (Some (snonce (sm w))) ∈ l);
}.

Lemma body_1_of_4_run src q replay an w :
  psk_supplicant (sm w) → sm_ok (sm w) → frame_replay q = Some replay → frame_nonce q = Some an →
  wp (body_1_of_4 src q WPA_KEY_INFO_TYPE_HMAC_SHA1_AES [])
    (λ ok w', ok = true ∧ answered (sm w) replay an (tr w) w') w.
Proof using L O prf.
  intros Hs Hok Hq Hn. unfold body_1_of_4, wpa_supplicant_parse_ies. wp_run. rewrite (psk_rsn _ Hs).
  wp_step. eapply wp_acc; [vm_compute; reflexivity|]. cbv beta iota. wp_step.
  rewrite bool_decide_eq_false_2 by lia. wp_step. eapply wp_acc; [reflexivity|]. wp_step.
  apply get_pmk_run; [done|]. rewrite (bool_decide_eq_false_2 (0 = -2)), (bool_decide_eq_false_2 (0 ≠ 0)) by lia.
  unfold after_pmk_1_of_4. wp_step. apply renew_nonce_run; [done..|].
  intros n l Hl Hd Hnew Hold. cbn [negb]. wp_step. eapply wp_acc; [exact Hn|]. wp_step.
  set (s1 := (sm w) <| snonce := n |> <| renew_snonce := false |>).
  assert (Hs1 : psk_supplicant s1) by (destruct Hs; by split).
  assert (Hok1 : sm_ok s1) by (subst s1; clear -Hok Hl; sm_split).
  apply derive_tptk_run; [exact Hs1|exact Hok1|]. cbn [sm tr negb].
  intros p (kdk & Hk & Hp) Hpok Hpl.
  apply (reply_1_of_4_run q replay an); [by destruct Hs; split| |done|done|done|].
  { cbn [sm]. unfold with_tptk. clear -Hok1 Hpok. sm_split. }
  cbn [sm tr]. intros mic r l' Hm Hsig Hr Hd'. split; [done|].
  split; [done|done|done|by exists kdk|]. exists mic, r, (l' ++ l). cbn [sm tr].
  split; [exact Hsig|]. split; [by rewrite <- (assoc_L (++))|].
  split; [intros c; rewrite elem_of_app; clear -Hd Hd'; naive_solver|].
  intros Hr'. apply elem_of_app. right. by apply Hnew.
Qed.

(** Message 1/4: pairwise, with ACK and without MIC, HMAC-SHA1-AES, no key data, and a replay
    counter that is new. *)
Record message_1 (s : wpa_sm) (f : key_fields) : Prop := {
  m1_ok : fields_ok f;
  m1_type : f_type f = EAPOL_KEY_TYPE_RSN;
  m1_info : f_info f = 0x008a;
  m1_mic : length (f_mic f) = 16%nat;
  m1_data : f_data f = [];
  m1_replay : replay_ok s (f_replay f) = true;
}.

Lemma process_1_of_4_run src f w :
  psk_supplicant (sm w) → sm_ok (sm w) → fields_ok f →
  wp (wpa_supplicant_process_1_of_4 src (key_frame f) WPA_KEY_INFO_TYPE_HMAC_SHA1_AES [])
    (λ _ w', answered (sm w) (f_replay f) (f_nonce f) (SetState WPA_4WAY_HANDSHAKE :: tr w) w') w.
Proof using L O prf.
  intros Hs Hok Hf. unfold wpa_supplicant_process_1_of_4, wpa_sm_get_network_ctx. wp_run.
  rewrite bool_decide_eq_false_2 by apply ob_ctx.
  unfold deny_ptk0_rekey. wp_run. rewrite (ps_rekey _ Hs). cbn [andb]. wp_run.
  unfold wpa_sm_set_state, or_deauthenticate. wp_run.
  eapply wp_mono; [by apply (body_1_of_4_run src _ (f_replay f) (f_nonce f)); [| |apply frame_replay_at|apply frame_nonce_at]|].
  intros ok w' [-> Ha]. by wp_run.
Qed.

Lemma rx_key_run src f w :
  psk_supplicant (sm w) → sm_ok (sm w) → message_1 (sm w) f →
  wp (rx_key src (key_frame f) 16 0)
    (λ r w', r = 1 ∧ answered (sm w) (f_replay f) (f_nonce f)
                       (SetState WPA_4WAY_HANDSHAKE :: LowerLayerSuccess :: tr w) w') w.
Proof using L O prf.
  intros Hs Hok [Hf Ht Hi Hm Hd Hr]. unfold rx_key. wp_run. eapply wp_acc; [by apply frame_info_at|].
  rewrite Hi. change (Z.land 0x008a WPA_KEY_INFO_TYPE_MASK) with WPA_KEY_INFO_TYPE_HMAC_SHA1_AES.
  cbv zeta. wp_run. eapply wp_acc; [by apply frame_replay_at|]. cbn [sm]. rewrite Hr.
  assert (Hv : version_ok (sm w) 0x008a WPA_KEY_INFO_TYPE_HMAC_SHA1_AES = true).
  { unfold version_ok. by rewrite (ps_akm _ Hs), (ps_cipher _ Hs). }
  rewrite Hv. change (flags_ok 0x008a) with true. cbn [negb orb]. unfold verify_if_mic.
  change (any_of 0x008a WPA_KEY_INFO_MIC) with false. wp_run.
  pose proof (frame_data_at f Hf 16) as Hk. rewrite Hd in Hk. eapply wp_acc; [apply Hk; lia|].
  unfold decrypt_if_encrypted. change (any_of 0x008a WPA_KEY_INFO_ENCR_KEY_DATA) with false.
  wp_run. rewrite andb_false_r. cbn [andb]. wp_run.
  unfold dispatch. change (any_of 0x008a WPA_KEY_INFO_KEY_TYPE) with true.
  change (any_of 0x008a WPA_KEY_INFO_KEY_INDEX_MASK) with false.
  change (any_of 0x008a (Z.lor WPA_KEY_INFO_MIC WPA_KEY_INFO_ENCR_KEY_DATA)) with false. cbv iota.
  wp_step. eapply wp_mono; [by apply (process_1_of_4_run src f (mk_world (sm w) (LowerLayerSuccess :: tr w)))|].
  intros ? w' Ha. by wp_run.
Qed.

(** The length checks of a frame without key data. *)
Lemma rx_eapol_run src f w (Q : Z → world → Prop) :
  psk_supplicant (sm w) → fields_ok f → f_type f = EAPOL_KEY_TYPE_RSN → length (f_mic f) = 16%nat →
  f_data f = [] →
  (∀ n, wp (rx_key src (key_frame f) 16 0) Q
          (mk_world ((sm w) <| ft_completed := false |>) (Malloc n true :: tr w))) →
  wp (wpa_sm_rx_eapol src (key_frame f)) Q w.
Proof using O.
  intros Hs Hf Ht Hm Hd HQ.
  pose proof (frame_length f Hf) as Hlen. rewrite Hm, Hd in Hlen. cbn [length] in Hlen.
  pose proof (frame_body_length_at f Hf) as Hbl. rewrite Hm, Hd in Hbl. cbn [length] in Hbl.
  pose proof (frame_data_length_at f Hf 16) as Hdl. rewrite Hm, Hd in Hdl.
  set (s1 := (sm w) <| ft_completed := false |>) in *.
  assert (Hs1 : psk_supplicant s1) by (destruct Hs; by split).
  unfold wpa_sm_rx_eapol. wp_run. cbn [sm tr]. fold s1. eapply wp_acc.
  { unfold rx_pmk_len. rewrite bool_decide_eq_false_2; [reflexivity|]. intros H0.
    pose proof (ps_pmk s1 Hs1) as Hp. by rewrite H0 in Hp. }
  rewrite (ps_pmk s1 Hs1), (ps_akm s1 Hs1). change (wpa_mic_len WPA_KEY_MGMT_PSK 32) with 16. cbv zeta.
  unfold sizeof_hdr, sizeof_key in *. rewrite bool_decide_eq_false_2 by lia.
  wp_step. eapply wp_acc; [exact Hbl|]. wp_step. eapply wp_acc; [reflexivity|].
  rewrite (bool_decide_eq_false_2 (_ ≠ IEEE802_1X_TYPE_EAPOL_KEY)) by (by intros []).
  rewrite !bool_decide_eq_false_2 by lia. cbn [orb]. unfold os_malloc. wp_run. rewrite ob_malloc. cbn [negb].
  wp_step. eapply wp_acc; [apply frame_whole; lia|]. wp_step. eapply wp_acc; [reflexivity|]. rewrite Ht.
  rewrite (bool_decide_eq_false_2 (EAPOL_KEY_TYPE_RSN ≠ EAPOL_KEY_TYPE_RSN)) by (by intros []).
  rewrite andb_false_r. wp_step. eapply wp_acc; [by apply Hdl|]. rewrite bool_decide_eq_false_2 by (cbn; lia).
  apply HQ.
Qed.
End reply.

(** C11: message 1/4 is answered.  In an environment in which the calls and the hash functions
    succeed ([obliging]), a supplicant of WPA2-PSK that receives message 1/4 with a new replay
    counter returns 1, has derived the temporary PTK from its SNonce and the ANonce, with a
    new SNonce when one is due, and has sent message 2/4 to the BSSID without
    deauthenticating: the frame with the replay counter of message 1/4, its SNonce and the
    elements of its association request, and with the MIC of that PTK. *)
Theorem message_1_answered `{C : wpa_crypto} {L : wpa_crypto_laws C} `{E : wpa_env} {O : obliging} src f s t :
  (∀ k l d n, is_Some (sha1_prf k l d n)) → psk_supplicant s → sm_ok s → message_1 s f →
  ∃ w' pre, wpa_sm_rx_eapol src (key_frame f) (mk_world s t) = Ret (1, w') ∧
    answered s (f_replay f) (f_nonce f) (pre ++ t) w' ∧ (∀ c, Deauth c ∉ pre).
Proof.
  intros prf Hs Hok H1. pose proof H1 as [Hf Ht _ Hm Hd _].
  set (s1 := s <| ft_completed := false |>).
  destruct (wp_returns (wpa_sm_rx_eapol src (key_frame f))
    (λ r w', r = 1 ∧ ∃ n, answered s (f_replay f) (f_nonce f)
       ([SetState WPA_4WAY_HANDSHAKE; LowerLayerSuccess; Malloc n true] ++ t) w') (mk_world s t))
    as (r & w' & E1 & -> & n & Ha).
  - apply rx_eapol_run; [done..|]. intros n. cbn [sm tr]. fold s1.
    eapply wp_mono; [apply (rx_key_run prf src f (mk_world s1 _))|]; cbn [sm tr].
    + by destruct Hs.
    + subst s1. clear -Hok. sm_split.
    + by destruct H1.
    + intros r w' [-> [? ? ? ? ?]]. split; [done|]. exists n. by split.
  - exists w'. eexists. split; [exact E1|]. split; [exact Ha|]. clear. set_solver.
Qed.
