(* ===== verification/WpaSteps.v ===== *)
(** What the operations of the RSN state machine leave alone

    [within P w w']: the fields of the keys, the nonces and the replay counter are the
    same, and every new event of the trace satisfies [P].  Most operations are steps of
    [within plain]: they install no key, draw no nonce and do not open the port. *)
From S2P Require Import Prelude Bytes Defs Suites RsnIe Kde PmksaCache WpaKey WpaSm WpaHandshake WpaLogic.

(** The fields that only a few operations change. *)
Definition guarded (s : wpa_sm) :=
  ((ptk s, tptk s, ptk_set s, tptk_set s, snonce s, renew_snonce s),
   (rx_replay_counter s, rx_replay_counter_set s)).

Definition within (P : event → Prop) (w w' : world) : Prop :=
  guarded (sm w') = guarded (sm w) ∧ ∃ l, tr w' = l ++ tr w ∧ Forall P l.

#[export] Instance within_preorder P : PreOrder (within P).
Proof.
  split.
  - intros w. split; [done|]. by exists [].
  - intros w1 w2 w3 [G1 (l1 & E1 & F1)] [G2 (l2 & E2 & F2)]. split; [congruence|].
    exists (l2 ++ l1). rewrite E2, E1, (assoc_L (++)). split; [done|]. by apply Forall_app.
Qed.

Lemma within_mono (P P' : event → Prop) w w' : (∀ e, P e → P' e) → within P w w' → within P' w w'.
Proof.
  intros H [G (l & E & F)]. split; [done|]. exists l. split; [done|]. by eapply Forall_impl.
Qed.

Lemma within_upd P w s : guarded s = guarded (sm w) → within P w (mk_world s (tr w)).
Proof. intros. split; [done|]. by exists []. Qed.
Lemma within_emit (P : event → Prop) w e : P e → within P w (mk_world (sm w) (e :: tr w)).
Proof. intros. split; [done|]. exists [e]. split; [done|]. by apply Forall_singleton. Qed.

(** ** Events *)

(** A pairwise key was given to the driver, which took it. *)
Definition installed_key (e : event) : option (list Z) :=
  match e with
  | SetKey k res => if any_of (k_flag k) KEY_FLAG_PAIRWISE && bool_decide (0 ≤ res) then k_key k else None
  | _ => None
  end.
Definition drawn_nonce (e : event) : option (list Z) :=
  match e with RandomBytes r => r | _ => None end.

(** No key, no nonce, no opening of the port. *)
Definition plain (e : event) : Prop :=
  match e with
  | RandomBytes _ | SetKey _ _ | PortValid true | SetState WPA_COMPLETED | SetProtection _ _
  | RekeyOffload _ _ _ | StorePtk _ _ _ _ => False
  | _ => True
  end.
(** No pairwise key and no nonce. *)
Definition not_pairwise (e : event) : Prop := installed_key e = None ∧ drawn_nonce e = None.

Lemma plain_not_pairwise e : plain e → not_pairwise e.
Proof. by destruct e. Qed.

Lemma steps_plain {A} (m : M A) : steps (within plain) m → steps (within not_pairwise) m.
Proof. apply steps_weaken. intros w w'. apply within_mono, plain_not_pairwise. Qed.

Ltac in_within :=
  first [ apply within_upd; reflexivity
        | apply within_emit; exact I
        | apply within_emit; done ].
Ltac walk := steps_walk in_within.

Section steps.
Context `{C : wpa_crypto} `{E : wpa_env}.

(** ** Calls and sending *)
Lemma os_malloc_steps n : steps (within plain) (os_malloc n).
Proof. unfold os_malloc. walk. Qed.
Lemma set_state_steps st : st ≠ WPA_COMPLETED → steps (within plain) (wpa_sm_set_state st).
Proof. intros H. unfold wpa_sm_set_state. apply steps_emit. intros w. apply within_emit. by destruct st. Qed.
Lemma deauth_steps r : steps (within plain) (wpa_sm_deauthenticate r).
Proof. unfold wpa_sm_deauthenticate. walk. Qed.
Lemma reconnect_steps : steps (within plain) wpa_sm_reconnect.
Proof. unfold wpa_sm_reconnect. walk. Qed.
Lemma get_bssid_steps : steps (within plain) wpa_sm_get_bssid.
Proof. unfold wpa_sm_get_bssid. walk. Qed.
Lemma ether_send_steps d t b : steps (within plain) (wpa_sm_ether_send d t b).
Proof. unfold wpa_sm_ether_send. walk. Qed.
Lemma eapol_key_steps n : steps (within plain) (eapol_sm_get_key n).
Proof. unfold eapol_sm_get_key. walk. Qed.
#[local] Hint Resolve os_malloc_steps deauth_steps reconnect_steps get_bssid_steps ether_send_steps
  eapol_key_steps : steps.
Lemma alloc_steps t n : steps (within plain) (wpa_alloc_eapol t n).
Proof. unfold wpa_alloc_eapol. walk. Qed.
#[local] Hint Resolve alloc_steps : steps.

Lemma set_element_steps f ie :
  (∀ e s, guarded (f e s) = guarded s) → steps (within plain) (set_element f ie).
Proof.
  intros Hf. unfold set_element.
  assert (Hu : ∀ e, steps (within plain) (upd (f e))).
  { intros e. apply steps_upd. intros w. apply within_upd, Hf. }
  destruct ie as [[|x ie]|]; walk.
Qed.
Lemma beacon_steps : steps (within plain) wpa_get_beacon_ie.
Proof.
  assert (H : ∀ f ie, (∀ e s, guarded (f e s) = guarded s) → steps (within plain) (set_element f ie))
    by exact set_element_steps.
  unfold wpa_get_beacon_ie, wpa_sm_set_ap_wpa_ie, wpa_sm_set_ap_rsn_ie, wpa_sm_set_ap_rsnxe,
    wpa_sm_set_ap_rsne_override, wpa_sm_set_ap_rsne_override_2, wpa_sm_set_ap_rsnxe_override.
  walk.
Qed.
#[local] Hint Resolve beacon_steps : steps.
Lemma sm_beacon_steps : steps (within plain) wpa_sm_get_beacon_ie.
Proof. unfold wpa_sm_get_beacon_ie. walk. Qed.

Lemma key_send_steps k ver d t m b : steps (within plain) (wpa_eapol_key_send k ver d t m b).
Proof. unfold wpa_eapol_key_send. walk. Qed.
#[local] Hint Resolve sm_beacon_steps key_send_steps : steps.
Lemma empty_reply_steps d b ver ki k : steps (within plain) (send_empty_reply d b ver ki k).
Proof. unfold send_empty_reply. walk. Qed.
Lemma ft_ie_steps ie : steps (within plain) (ft_2_of_4_ie ie).
Proof. unfold ft_2_of_4_ie. walk. Qed.
Lemma selection_steps ie : steps (within plain) (add_rsn_selection ie).
Proof. unfold add_rsn_selection. walk. Qed.
#[local] Hint Resolve empty_reply_steps ft_ie_steps selection_steps : steps.
Lemma send_2_of_4_steps d b ver n ie k : steps (within plain) (wpa_supplicant_send_2_of_4 d b ver n ie k).
Proof. unfold wpa_supplicant_send_2_of_4. walk. Qed.
Lemma deny_steps : steps (within plain) deny_ptk0_rekey.
Proof. unfold deny_ptk0_rekey, wpa_sm_get_state. walk. Qed.
#[local] Hint Resolve send_2_of_4_steps deny_steps : steps.
Lemma key_request_steps e p : steps (within plain) (wpa_sm_key_request e p).
Proof. unfold wpa_sm_key_request. walk. Qed.

(** ** The PMK and the derivation of keys *)
Lemma pmksa_add_steps k i c a : steps (within plain) (pmksa_add k i c a).
Proof. unfold pmksa_add. walk. Qed.
Lemma set_cur_steps c : steps (within plain) (set_cur_pmksa c).
Proof. unfold set_cur_pmksa. walk. Qed.
Lemma set_pmk_steps k : steps (within plain) (set_pmk k).
Proof. unfold set_pmk. walk. Qed.
Lemma from_pmksa_steps : steps (within plain) wpa_sm_set_pmk_from_pmksa.
Proof. pose proof set_pmk_steps. unfold wpa_sm_set_pmk_from_pmksa. walk. Qed.
#[local] Hint Resolve pmksa_add_steps set_cur_steps set_pmk_steps from_pmksa_steps : steps.
Lemma set_pmk_op_steps k i b : steps (within plain) (wpa_sm_set_pmk k i b).
Proof. unfold wpa_sm_set_pmk. walk. Qed.
Lemma find_pmksa_steps a i : steps (within plain) (find_pmksa a i).
Proof. unfold find_pmksa. walk. Qed.
Lemma use_cached_steps : steps (within plain) use_cached_pmk.
Proof. unfold use_cached_pmk. walk. Qed.
Lemma key_mgmt_set_pmk_steps : steps (within plain) wpa_supplicant_key_mgmt_set_pmk.
Proof. unfold wpa_supplicant_key_mgmt_set_pmk. walk. Qed.
Lemma set_xxkey_steps a m : steps (within plain) (set_xxkey_from_msk a m).
Proof. unfold set_xxkey_from_msk. walk. Qed.
#[local] Hint Resolve find_pmksa_steps use_cached_steps key_mgmt_set_pmk_steps set_xxkey_steps : steps.
Lemma use_msk_steps a i b k : steps (within plain) (use_msk a i b k).
Proof. unfold use_msk. walk. Qed.
Lemma finish_get_pmk_steps b : steps (within plain) (finish_get_pmk b).
Proof. unfold finish_get_pmk. walk. Qed.
Lemma get_msk_pmk_steps s : steps (within plain) (get_msk_pmk s).
Proof. unfold get_msk_pmk. walk. Qed.
Lemma no_msk_steps b : steps (within plain) (no_msk b).
Proof. unfold no_msk. walk. Qed.
#[local] Hint Resolve use_msk_steps finish_get_pmk_steps get_msk_pmk_steps no_msk_steps : steps.
Lemma get_eap_pmk_steps a i b : steps (within plain) (get_eap_pmk a i b).
Proof. unfold get_eap_pmk. walk. Qed.
#[local] Hint Resolve get_eap_pmk_steps : steps.
Lemma get_pmk_steps a i : steps (within plain) (wpa_supplicant_get_pmk a i).
Proof. unfold wpa_supplicant_get_pmk. walk. Qed.

Lemma derive_ft_steps an k : steps (within plain) (wpa_derive_ptk_ft an k).
Proof. unfold wpa_derive_ptk_ft. walk. Qed.
#[local] Hint Resolve derive_ft_steps : steps.
Lemma derive_steps an k : steps (within plain) (wpa_derive_ptk an k).
Proof. unfold wpa_derive_ptk. walk. Qed.

(** ** Message 3/4 *)
Lemma validate_ie_steps kd ie : steps (within plain) (wpa_supplicant_validate_ie kd ie).
Proof. unfold wpa_supplicant_validate_ie, wpa_report_ie_mismatch. walk. Qed.
Lemma ext_key_id_steps kd ie : steps (within plain) (wpa_handle_ext_key_id kd ie).
Proof. unfold wpa_handle_ext_key_id. walk. Qed.
Lemma parse_ies_steps kd : steps (within plain) (wpa_supplicant_parse_ies kd).
Proof. unfold wpa_supplicant_parse_ies. walk. Qed.
#[local] Hint Resolve validate_ie_steps ext_key_id_steps parse_ies_steps : steps.
Lemma checks_steps b kd ie ki : steps (within plain) (checks_3_of_4 b kd ie ki).
Proof. unfold checks_3_of_4. walk. Qed.
Lemma reply_1_of_4_steps b ver : steps (within plain) (reply_1_of_4 b ver).
Proof. unfold reply_1_of_4. walk. Qed.
Lemma clear_opportunistic_steps : steps (within plain) clear_opportunistic.
Proof. unfold clear_opportunistic. walk. Qed.
Lemma cache_suite_b_steps : steps (within plain) cache_suite_b.
Proof. unfold cache_suite_b. walk. Qed.
Lemma gtk_rsc_steps b : steps (within plain) (gtk_rsc b).
Proof. unfold gtk_rsc. walk. Qed.
Lemma decrypt_steps b ver kd : steps (within plain) (wpa_supplicant_decrypt_key_data b ver kd).
Proof. unfold wpa_supplicant_decrypt_key_data. walk. Qed.
#[local] Hint Resolve decrypt_steps : steps.
Lemma decrypt_if_steps b ki ver n kd : steps (within plain) (decrypt_if_encrypted b ki ver n kd).
Proof. unfold decrypt_if_encrypted. walk. Qed.
End steps.

#[export] Hint Resolve os_malloc_steps deauth_steps reconnect_steps get_bssid_steps ether_send_steps
  eapol_key_steps alloc_steps sm_beacon_steps key_send_steps empty_reply_steps ft_ie_steps
  selection_steps send_2_of_4_steps deny_steps key_request_steps pmksa_add_steps set_cur_steps
  set_pmk_steps from_pmksa_steps set_pmk_op_steps get_pmk_steps derive_steps validate_ie_steps
  ext_key_id_steps parse_ies_steps checks_steps reply_1_of_4_steps clear_opportunistic_steps
  cache_suite_b_steps gtk_rsc_steps decrypt_if_steps : steps.

(** ** Steps that install group keys, complete the handshake or open the port *)
#[export] Hint Extern 2 (steps (within not_pairwise) _) =>
  apply steps_plain; solve [eauto with steps] : steps.

Ltac in_within_np :=
  first [ apply within_upd; reflexivity
        | apply within_emit; split; reflexivity ].
Ltac walk_np := steps_walk in_within_np.

Section group.
Context `{C : wpa_crypto} `{E : wpa_env}.
Notation np := (within not_pairwise).

Lemma set_key_steps k : any_of (k_flag k) KEY_FLAG_PAIRWISE = false ∨ k_key k = None →
  steps np (wpa_sm_set_key k).
Proof.
  intros H. unfold wpa_sm_set_key. apply steps_bind; [apply _|apply steps_ask; apply _|intros r].
  apply steps_bind; [apply _|apply steps_emit|intros ?; apply steps_ret; apply _].
  intros w. apply within_emit. split; [|done]. cbn [installed_key].
  destruct H as [->| ->]; [done|]. by destruct (_ && _).
Qed.
Lemma set_state_np st : steps np (wpa_sm_set_state st).
Proof. unfold wpa_sm_set_state. walk_np. Qed.
#[local] Hint Resolve set_state_np : steps.

Lemma group_key_steps alg a idx tx seq key :
  steps np (wpa_sm_set_key (mk_key alg a idx tx seq key KEY_FLAG_GROUP_RX)).
Proof. apply set_key_steps. by left. Qed.
Lemma default_key_steps alg a idx tx seq key :
  steps np (wpa_sm_set_key (mk_key alg a idx tx seq key KEY_FLAG_GROUP_RX_TX_DEFAULT)).
Proof. apply set_key_steps. by left. Qed.
Lemma activate_steps : steps np wpa_supplicant_activate_ptk.
Proof.
  unfold wpa_supplicant_activate_ptk.
  assert (H : ∀ a i, steps np (wpa_sm_set_key (mk_key WPA_ALG_NONE a i 0 None None
    KEY_FLAG_PAIRWISE_RX_TX_MODIFY))) by (intros; apply set_key_steps; by right).
  walk_np.
Qed.
#[local] Hint Resolve group_key_steps default_key_steps activate_steps : steps.

Lemma install_gtk_steps gd r b : steps np (wpa_supplicant_install_gtk gd r b).
Proof. unfold wpa_supplicant_install_gtk. destruct b; walk_np. Qed.
Lemma install_igtk_steps k b : steps np (wpa_supplicant_install_igtk k b).
Proof. unfold wpa_supplicant_install_igtk. destruct b; walk_np. Qed.
Lemma install_bigtk_steps k b : steps np (wpa_supplicant_install_bigtk k b).
Proof. unfold wpa_supplicant_install_bigtk. destruct b; walk_np. Qed.
#[local] Hint Resolve install_gtk_steps install_igtk_steps install_bigtk_steps : steps.
Lemma pairwise_gtk_steps b g : steps np (wpa_supplicant_pairwise_gtk b g).
Proof. unfold wpa_supplicant_pairwise_gtk. walk_np. Qed.
Lemma set_keys_steps kd ie : steps np (ieee80211w_set_keys kd ie).
Proof. unfold ieee80211w_set_keys. walk_np. Qed.
#[local] Hint Resolve pairwise_gtk_steps set_keys_steps : steps.
Lemma group_keys_steps b kd ie ki : steps np (group_keys_3_of_4 b kd ie ki).
Proof. unfold group_keys_3_of_4. walk_np. Qed.
Lemma key_neg_complete_steps a b : steps np (wpa_supplicant_key_neg_complete a b).
Proof. unfold wpa_supplicant_key_neg_complete. walk_np. Qed.
Lemma rekey_offload_steps : steps np wpa_sm_set_rekey_offload.
Proof. unfold wpa_sm_set_rekey_offload. walk_np. Qed.
#[local] Hint Resolve key_neg_complete_steps rekey_offload_steps : steps.
Lemma finish_steps kd ie b : steps np (finish_3_of_4 kd ie b).
Proof. unfold finish_3_of_4. walk_np. Qed.
Lemma rsn_1_of_2_steps kd ki : steps np (wpa_supplicant_process_1_of_2_rsn kd ki).
Proof. unfold wpa_supplicant_process_1_of_2_rsn. walk_np. Qed.
Lemma wpa_1_of_2_steps b kd ki ver : steps np (wpa_supplicant_process_1_of_2_wpa b kd ki ver).
Proof. unfold wpa_supplicant_process_1_of_2_wpa. walk_np. Qed.
#[local] Hint Resolve rsn_1_of_2_steps wpa_1_of_2_steps : steps.
Lemma process_1_of_2_steps b ver kd : steps np (wpa_supplicant_process_1_of_2 b ver kd).
Proof.
  unfold wpa_supplicant_process_1_of_2, or_deauthenticate, body_1_of_2, wpa_supplicant_send_2_of_2,
    wpa_sm_get_state. walk_np.
Qed.
End group.
#[export] Hint Resolve set_state_np activate_steps group_keys_steps finish_steps process_1_of_2_steps
  key_neg_complete_steps install_gtk_steps install_igtk_steps install_bigtk_steps : steps.
