(* ===== verification/WpaReplay.v ===== *)
(** Replay protection and authentication of EAPOL-Key frames

    A frame counts only when its replay counter is above the last one, and in RSN no
    key is installed, and the port is not opened, without a MIC under the PTK. *)
From S2P Require Import Prelude Bytes Defs Suites RsnIe Kde PmksaCache PmksaProofs WpaKey WpaKeyProofs WpaSm WpaHandshake WpaLogic WpaSafe WpaRxSafe WpaSteps.

Section replay.
Context `{C : wpa_crypto} `{E : wpa_env}.

(** ** The way to a handler *)

(** Only the flag of the last FT exchange changes. *)
Definition not_completed (s : wpa_sm) : wpa_sm := s <| ft_completed := false |>.
Definition harmless (e : event) : Prop :=
  match e with Malloc _ _ | LowerLayerSuccess => True | _ => False end.
Definition ignored (w w' : world) : Prop :=
  sm w' = not_completed (sm w) ∧ ∃ l, tr w' = l ++ tr w ∧ Forall harmless l.

(** The frame [b] of the buffer [buf] gets to [rx_key] in the world [w1]. *)
Record received (w : world) (buf : list Z) (m len n : Z) (b : list Z) (w1 : world) : Prop := {
  rc_mic : rx_mic_len (sm w) = Some m;
  rc_frame : slice buf 0 len = Some b;
  rc_len : 83 + m ≤ len;
  rc_world : ignored w w1;
}.

Lemma rx_inv w src buf r w' :
  wpa_sm_rx_eapol src buf w = Ret (r, w') →
  ((r = 0 ∨ r = -1) ∧ ignored w w') ∨
  ∃ m len n b w1, received w buf m len n b w1 ∧ rx_key src b m n w1 = Ret (r, w').
Proof.
  unfold wpa_sm_rx_eapol. intros H. do 3 run_step H.
  change (rx_pmk_len (sm w) = Some a) in Ha. cbn [sm] in H.
  set (w0 := mk_world _ _) in H.
  assert (H0 : ignored w w0) by (split; [done|by exists []]).
  run_step H; [run_step H; auto|]. apply bool_decide_eq_false_1 in Heqb.
  run_step H. run_step H. run_step H; [run_step H; auto|]. run_step H; [run_step H; auto|].
  apply orb_false_iff in Heqb1 as [Hl1%bool_decide_eq_false_1 Hl2%bool_decide_eq_false_1].
  run_step H. rename w1 into w2.
  assert (H2 : ignored w w2).
  { unfold os_malloc in Ha2. do 2 run_step Ha2. run_step Ha2. split; [done|]. eexists [_].
    split; [done|]. by apply Forall_singleton. }
  run_step H; [run_step H; auto|]. run_step H. run_step H. run_step H; [run_step H; auto|].
  run_step H. run_step H; [run_step H; auto|]. right.
  eexists _, _, _, _, _. split; [|exact H]. split; [|exact Ha3| |exact H2].
  - unfold rx_mic_len. rewrite Ha. done.
  - unfold sizeof_key, sizeof_hdr in *. change (key_mgmt (sm w0)) with (key_mgmt (sm w)) in *. lia.
Qed.

(** ** The replay counter *)
Definition counter (s : wpa_sm) := (rx_replay_counter s, rx_replay_counter_set s).
Definition same_counter (w w' : world) : Prop := counter (sm w') = counter (sm w).
#[local] Instance same_counter_preorder : PreOrder same_counter.
Proof. split; [done|]. unfold same_counter. congruence. Qed.

Lemma within_counter P w w' : within P w w' → same_counter w w'.
Proof. intros [G _]. unfold same_counter, counter. unfold guarded in G. congruence. Qed.
Lemma np_counter {A} (m : M A) : steps (within not_pairwise) m → steps same_counter m.
Proof. apply steps_weaken. intros w w'. apply within_counter. Qed.
#[local] Hint Extern 2 (steps same_counter _) => apply np_counter; solve [eauto with steps] : steps.
Ltac walk_counter := steps_walk ltac:(unfold same_counter; reflexivity).

Lemma renew_counter : steps same_counter renew_nonce.
Proof. unfold renew_nonce, random_get_bytes. walk_counter. Qed.
Lemma derive_counter n : steps same_counter (derive_tptk n).
Proof. unfold derive_tptk. walk_counter. Qed.
#[local] Hint Resolve renew_counter derive_counter : steps.
Lemma process_1_of_4_counter src b ver kd : steps same_counter (wpa_supplicant_process_1_of_4 src b ver kd).
Proof.
  unfold wpa_supplicant_process_1_of_4, or_deauthenticate, body_1_of_4, after_pmk_1_of_4, wpa_sm_get_network_ctx.
  walk_counter.
Qed.
Lemma set_key_counter k : steps same_counter (wpa_sm_set_key k).
Proof. unfold wpa_sm_set_key. walk_counter. Qed.
#[local] Hint Resolve set_key_counter : steps.
Lemma install_ptk_counter b f : steps same_counter (wpa_supplicant_install_ptk b f).
Proof. unfold wpa_supplicant_install_ptk. walk_counter. Qed.
#[local] Hint Resolve install_ptk_counter : steps.
Lemma process_3_of_4_counter b ver kd : steps same_counter (wpa_supplicant_process_3_of_4 b ver kd).
Proof.
  unfold wpa_supplicant_process_3_of_4, or_deauthenticate, body_3_of_4, accept_3_of_4, ptk_3_of_4,
    wpa_supplicant_send_4_of_4. walk_counter.
Qed.
#[local] Hint Resolve process_1_of_4_counter process_3_of_4_counter : steps.
Lemma dispatch_counter src b ki ver n kd : steps same_counter (dispatch src b ki ver n kd).
Proof. unfold dispatch. walk_counter. Qed.

(** The check of the MIC leaves the octets before the MIC alone. *)
Definition same_front (b b' : list Z) : Prop := ∀ o k, o + k ≤ off_mic → slice b' o k = slice b o k.

Lemma blit_front (b b' o : list Z) : blit b off_mic o = Some b' → same_front b b'.
Proof. intros H i k Hk. eapply slice_blit; [exact H|by right]. Qed.

Lemma check_mic_front s keys ver b mic b' ok :
  check_mic s keys ver b mic = Ret (b', ok) → same_front b b'.
Proof.
  unfold check_mic. cbv zeta. destruct (blit b _ _) as [b1|] eqn:E1; [|done]. rewrite access_bind.
  destruct (slice (kck keys) _ _); [|done]. rewrite access_bind.
  destruct (wpa_eapol_key_mic _ _ _ _) as [m| |]; [|done..]. rewrite ret_bind.
  destruct m as [m|]; [|intros [= <- _]; by eapply blit_front].
  destruct (blit b1 off_mic m) as [b2|] eqn:E2; [|done]. rewrite access_bind.
  destruct (slice b2 _ _); [|done]. rewrite access_bind. intros [= <- _].
  apply blit_front in E1, E2. intros o k Hk. by rewrite E2, E1.
Qed.

(** A MIC of the frame [b] that the PTK [p] of the state confirms. *)
Definition mic_valid (s : wpa_sm) (p : wpa_ptk) (ver : Z) (b : list Z) : Prop :=
  ∃ mic b', slice b off_mic (reply_mic_len s) = Some mic ∧ check_mic s p ver b mic = Ret (b', true).

Definition same_keys (w w' : world) : Prop := sm w' = sm w ∨ sm w' = take_tptk (sm w).

(** What the verification of the MIC did, when it passed. *)
Record verified (w : world) (ver : Z) (b b' : list Z) (w' : world) : Prop := {
  vf_front : same_front b b';
  vf_trace : tr w' = tr w;
  vf_counter : ∃ c, frame_replay b = Some c ∧ counter (sm w') = (c, true);
  vf_first : mic_valid (sm w) (tptk (sm w)) ver b ∧ tptk_set (sm w) = true ∨
    ∃ mic b1, slice b off_mic (reply_mic_len (sm w)) = Some mic ∧ ptk_set (sm w) = true ∧
      check_mic (sm w) (ptk (sm w)) ver b1 mic = Ret (b', true) ∧
      (b1 = b ∨ check_mic (sm w) (tptk (sm w)) ver b mic = Ret (b1, false));
}.

Lemma verify_inv ver b w r w' :
  wpa_supplicant_verify_eapol_key_mic ver b w = Ret (r, w') →
  match r with
  | None => same_counter w w' ∧ tr w' = tr w
  | Some b' => verified w ver b b' w'
  end.
Proof.
  unfold wpa_supplicant_verify_eapol_key_mic. intros H. do 2 run_step H. run_step H.
  destruct a0 as [b1 ok].
  assert (H1 : tr w0 = tr w ∧ same_counter w w0 ∧ same_front b b1 ∧
    if ok then tptk_set (sm w) = true ∧ mic_valid (sm w) (tptk (sm w)) ver b
    else w0 = w ∧ (b1 = b ∨ check_mic (sm w) (tptk (sm w)) ver b a = Ret (b1, false))).
  { destruct (tptk_set (sm w)) eqn:Et; [|injection Ha0 as <- <- <-; split_and!; try done; by left].
    run_step Ha0. destruct a0 as [b2 ok2]. pose proof (check_mic_front _ _ _ _ _ _ _ Ha1) as Hf.
    destruct ok2.
    - run_step Ha0. injection Ha0 as <- <- <-. split_and!; try done. exists a, b2. by split.
    - run_step Ha0. injection Ha0 as <- <- <-. split_and!; try done. by right. }
  destruct H1 as (T1 & C1 & F1 & H1). run_step H. destruct a0 as [b2 ok2].
  assert (H2 : w1 = w0 ∧ same_front b b2 ∧ (ok2 = true →
    if ok then b2 = b1 else ptk_set (sm w) = true ∧ check_mic (sm w) (ptk (sm w)) ver b1 a = Ret (b2, true))).
  { destruct (negb ok && ptk_set (sm w)) eqn:Ec.
    - apply run_lift in Ha1 as [Hc ->]. apply andb_true_iff in Ec as [Hok Hp].
      pose proof (check_mic_front _ _ _ _ _ _ _ Hc) as Hf. split; [done|].
      split; [intros o k Hk; by rewrite Hf, F1|]. intros ->. by destruct ok.
    - injection Ha1 as <- <- <-. split; [done|]. split; [done|]. intros ->. done. }
  destruct H2 as (-> & F2 & H2). destruct ok2; [|run_step H; [by run_step H|done]].
  run_step H; [done|]. do 3 run_step H. specialize (H2 eq_refl). split.
  - done.
  - exact T1.
  - exists a0. split; [|done]. rewrite <- Ha2. symmetry. apply F2. done.
  - destruct ok; [left; by destruct H1|right]. destruct H1 as [-> H1], H2 as [Hp Hc].
    by exists a, b1.
Qed.

(** ** The checks of a frame *)
Definition notified (w : world) : world := mk_world (sm w) (LowerLayerSuccess :: tr w).

(** The frame passed the checks of version, counter and flags; then the MIC, then the
    decryption, then the handler. *)
Definition handled (src b : list Z) (m n ki : Z) (w : world) (r : Z) (w' : world) : Prop :=
  let ver := Z.land ki WPA_KEY_INFO_TYPE_MASK in
  ∃ v w1, verify_if_mic b ki ver w = Ret (v, w1) ∧
    match v with
    | None => r = -1 ∧ w' = w1
    | Some b' => ∃ kd d w2, slice b' (off_mic + m + 2) n = Some kd ∧
        decrypt_if_encrypted b' ki ver m kd w1 = Ret (d, w2) ∧
        match d with
        | None => r = -1 ∧ w' = w2
        | Some d => dispatch src b' ki ver m d w2 = Ret (r, w')
        end
    end.

Lemma rx_key_inv src b m n w r w' :
  rx_key src b m n w = Ret (r, w') →
  ∃ ki c, frame_key_info b = Some ki ∧ frame_replay b = Some c ∧
    (r = -1 ∧ w' = notified w ∨
     version_ok (sm w) ki (Z.land ki WPA_KEY_INFO_TYPE_MASK) = true ∧ replay_ok (sm w) c = true ∧
     flags_ok ki = true ∧ handled src b m n ki (notified w) r w').
Proof.
  unfold rx_key. intros H. do 4 run_step H. exists a, a0. split; [done|]. split; [done|].
  run_step H; [run_step H; by left|]. right.
  apply orb_false_iff in Heqb0 as [[H1 H2]%orb_false_iff H3]. apply negb_false_iff in H1, H2, H3.
  split; [done|]. split; [done|]. split; [done|].
  run_step H. eexists _, _. split; [exact Ha1|]. destruct a1 as [b'|]; [|by run_step H].
  run_step H. run_step H. eexists _, _, _. split; [done|]. split; [exact Ha3|].
  destruct a2 as [d|]; [exact H|by run_step H].
Qed.

Lemma verify_if_inv b ki ver w v w' :
  verify_if_mic b ki ver w = Ret (v, w') →
  tr w' = tr w ∧
  match v with
  | None => same_counter w w'
  | Some b' => any_of ki WPA_KEY_INFO_MIC = false ∧ b' = b ∧ w' = w ∨
               any_of ki WPA_KEY_INFO_MIC = true ∧ verified w ver b b' w'
  end.
Proof.
  unfold verify_if_mic. destruct (any_of ki WPA_KEY_INFO_MIC).
  - intros H%verify_inv. destruct v as [b'|]; [|by destruct H].
    split; [by apply vf_trace in H|]. by right.
  - intros H. run_step H. split; [done|]. by left.
Qed.

Lemma handled_counter src b m n ki w r w' :
  handled src b m n ki w r w' →
  same_counter w w' ∨ ∃ c, frame_replay b = Some c ∧ counter (sm w') = (c, true).
Proof.
  intros (v & w1 & Hv & H). apply verify_if_inv in Hv as [_ Hv]. destruct v as [b'|].
  2:{ destruct H as [_ ->]. by left. }
  destruct H as (kd & d & w2 & _ & Hd & H).
  assert (H12 : same_counter w1 w2) by (eapply np_counter; [|exact Hd]; eauto with steps).
  assert (Hw : same_counter w1 w').
  { destruct d as [d|]; [|by destruct H as [_ ->]]. etrans; [exact H12|].
    eapply dispatch_counter, H. }
  destruct Hv as [(_ & -> & ->)|[_ Hv]]; [by left|]. right.
  destruct (vf_counter _ _ _ _ _ Hv) as (c & Hc & Ec). exists c. split; [done|].
  unfold same_counter in Hw. congruence.
Qed.

Lemma ignored_counter w w' : ignored w w' → same_counter w w'.
Proof. intros [Es _]. unfold same_counter, counter. by rewrite Es. Qed.
Lemma ignored_notified w w1 : ignored w w1 → ignored w (notified w1).
Proof.
  intros [Es (l & El & Hl)]. split; [exact Es|]. exists (LowerLayerSuccess :: l).
  cbn [notified tr]. rewrite El. split; [done|]. by constructor.
Qed.

Lemma rx_mic_len_pos s m : rx_mic_len s = Some m → 0 ≤ m.
Proof.
  unfold rx_mic_len, rx_pmk_len. intros H.
  assert (Hp : ∃ n, 0 ≤ n ∧ m = wpa_mic_len (key_mgmt s) n).
  { destruct (bool_decide (pmk_of s = [])).
    - destruct (cur_entry s) as [e|]; [|done]. cbn in H. injection H as <-.
      eexists. split; [|done]. destruct e; lia.
    - cbn in H. injection H as <-. eexists. split; [|done]. lia. }
  destruct Hp as (n & Hn & ->). akm_lens.
Qed.

Lemma received_replay w buf m len n b w1 :
  received w buf m len n b w1 → frame_replay b = frame_replay buf.
Proof.
  intros [Hm Hf Hl _]. apply rx_mic_len_pos in Hm. apply (slice_prefix buf b len); [done|].
  unfold off_replay, WPA_REPLAY_COUNTER_LEN. lia.
Qed.
End replay.

(** The number in the replay counter field of a frame *)
Definition replay_value (buf : list Z) : option Z := be_value <$> frame_replay buf.

(** C9: replay protection.  Receiving a frame leaves the replay counter alone, or sets it
    to the one of the frame, which is above it as a number when there was one.  A frame
    whose counter is not above the last one has no effect: the state stays as it is,
    apart from the flag of a completed FT exchange, and nothing is sent or installed. *)
Theorem replay_protected `{C : wpa_crypto} `{E : wpa_env} src buf w r w' :
  bytes_ok buf → bytes_ok (rx_replay_counter (sm w)) → blen (rx_replay_counter (sm w)) = 8 →
  wpa_sm_rx_eapol src buf w = Ret (r, w') →
  let last := be_value (rx_replay_counter (sm w)) in
  (counter (sm w') = counter (sm w) ∨
   rx_replay_counter_set (sm w') = true ∧
   replay_value buf = Some (be_value (rx_replay_counter (sm w'))) ∧
   (rx_replay_counter_set (sm w) = true → last < be_value (rx_replay_counter (sm w')))) ∧
  (∀ n, replay_value buf = Some n → rx_replay_counter_set (sm w) = true → n ≤ last →
   (r = 0 ∨ r = -1) ∧ ignored w w').
Proof.
  intros Hb Hc Hl H last.
  destruct (rx_inv w src buf r w' H) as [[Hr Hi]|(m & len & n & b & w1 & Hrc & Hk)].
  { split; [left; by apply ignored_counter|]. intros. by split. }
  pose proof (received_replay _ _ _ _ _ _ _ Hrc) as Hrb. destruct Hrc as [_ _ _ Hw1].
  destruct (id Hw1) as [Es _].
  destruct (rx_key_inv _ _ _ _ _ _ _ Hk) as (ki & c & _ & Hrep & Hcase). rewrite Hrb in Hrep.
  assert (Hcl : bytes_ok c ∧ length c = length (rx_replay_counter (sm w))).
  { pose proof (slice_length _ _ _ _ Hrep) as Lc. unfold WPA_REPLAY_COUNTER_LEN in Lc.
    split; [by apply (slice_Forall is_byte buf off_replay WPA_REPLAY_COUNTER_LEN c)|lia]. }
  destruct Hcl as [Hcb Hcl].
  destruct (memcmp_sign c (rx_replay_counter (sm w)) Hcb Hc Hcl) as [Hlt Heq].
  unfold replay_value. rewrite Hrep. cbn [fmap option_fmap option_map].
  destruct Hcase as [[-> ->]|(_ & Hok & _ & Hh)].
  { split; [left; by apply ignored_counter, ignored_notified|]. intros. split; [by right|].
    by apply ignored_notified. }
  unfold replay_ok in Hok. rewrite Es in Hok. cbn [not_completed rx_replay_counter rx_replay_counter_set] in Hok.
  assert (Habove : rx_replay_counter_set (sm w) = true → last < be_value c).
  { intros Hset. change (negb (rx_replay_counter_set (sm w) &&
      bool_decide (os_memcmp c (rx_replay_counter (sm w)) ≤ 0)) = true) in Hok.
    rewrite Hset in Hok. apply negb_true_iff, bool_decide_eq_false_1 in Hok. lia. }
  split; [|intros ? [= <-] Hset Hle; specialize (Habove Hset); lia].
  apply handled_counter in Hh as [Hs|(c' & Hc' & Hcnt)].
  - left. unfold same_counter in Hs. rewrite Hs. apply (ignored_counter w w1 Hw1).
  - right. rewrite Hrb, Hrep in Hc'. injection Hc' as <-. unfold counter in Hcnt.
    injection Hcnt as -> ->. done.
Qed.

(** ** Authentication *)

(** The events that install a key, open the port or complete the handshake. *)
Definition opens (e : event) : Prop :=
  match e with
  | SetKey _ _ | PortValid true | SetState WPA_COMPLETED | SetProtection _ _
  | RekeyOffload _ _ _ | StorePtk _ _ _ _ => True
  | _ => False
  end.
Definition adds (P : event → Prop) (w w' : world) : Prop := ∃ l, tr w' = l ++ tr w ∧ Forall P l.
#[export] Instance adds_preorder P : PreOrder (adds P).
Proof.
  split; [by exists []|]. intros w1 w2 w3 (l1 & E1 & F1) (l2 & E2 & F2). exists (l2 ++ l1).
  rewrite E2, E1, (assoc_L (++)). split; [done|]. by apply Forall_app.
Qed.
Definition closed (e : event) : Prop := ¬ opens e.

Lemma plain_closed e : plain e → closed e.
Proof.
  unfold closed. destruct e; cbn [plain opens]; try tauto;
    match goal with
    | x : wpa_states |- _ => destruct x; tauto
    | x : bool |- _ => destruct x; tauto
    end.
Qed.
Lemma harmless_closed e : harmless e → closed e.
Proof. unfold closed. destruct e; cbn [harmless opens]; tauto. Qed.
Lemma within_adds w w' : within plain w w' → adds closed w w'.
Proof. intros [_ (l & El & F)]. exists l. split; [done|]. eapply Forall_impl; [exact F|]. apply plain_closed. Qed.
Lemma plain_adds {A} (m : M A) : steps (within plain) m → steps (adds closed) m.
Proof. apply steps_weaken, within_adds. Qed.
#[local] Hint Extern 2 (steps (adds closed) _) => apply plain_adds; solve [eauto with steps] : steps.
Lemma emit_adds w e : closed e → adds closed w (mk_world (sm w) (e :: tr w)).
Proof. intros. exists [e]. split; [done|]. by apply Forall_singleton. Qed.
Ltac walk_adds := steps_walk ltac:(first [by exists [] | apply emit_adds; exact id]).

Section auth.
Context `{C : wpa_crypto} `{E : wpa_env}.

Lemma renew_adds : steps (adds closed) renew_nonce.
Proof. unfold renew_nonce, random_get_bytes. walk_adds. Qed.
Lemma derive_tptk_adds n : steps (adds closed) (derive_tptk n).
Proof. unfold derive_tptk. walk_adds. Qed.
#[local] Hint Resolve renew_adds derive_tptk_adds : steps.
Lemma process_1_of_4_adds src b ver kd : steps (adds closed) (wpa_supplicant_process_1_of_4 src b ver kd).
Proof.
  unfold wpa_supplicant_process_1_of_4, or_deauthenticate, body_1_of_4, after_pmk_1_of_4,
    wpa_sm_get_network_ctx, wpa_sm_set_state. walk_adds.
Qed.

(** The frame has a MIC that the PTK, or the one of the handshake under way, confirms. *)
Definition authentic (s : wpa_sm) (ver : Z) (b : list Z) : Prop :=
  tptk_set s = true ∧ mic_valid s (tptk s) ver b ∨ ptk_set s = true ∧ mic_valid s (ptk s) ver b.

Lemma any_of_lor a x y : any_of a (Z.lor x y) = any_of a x || any_of a y.
Proof.
  unfold any_of. rewrite Z.land_lor_distr_r.
  destruct (decide (Z.land a x = 0)) as [->|Hx].
  - rewrite Z.lor_0_l, (bool_decide_eq_true_2 (0 = 0)) by done. done.
  - rewrite (bool_decide_eq_false_2 (Z.land a x = 0)) by done.
    rewrite bool_decide_eq_false_2; [done|]. intros [? _]%Z.lor_eq_0_iff. done.
Qed.

(** Without a MIC, RSN gets no further than message 1/4. *)
Lemma unsigned_adds src b m n ki w r w' :
  is_rsn (sm w) = true → m ≠ 0 → any_of ki WPA_KEY_INFO_MIC = false →
  handled src b m n ki w r w' → adds closed w w'.
Proof.
  intros Hrsn Hm Hmic (v & w1 & Hv & H). unfold verify_if_mic in Hv. rewrite Hmic in Hv. run_step Hv.
  destruct H as (kd & d & w2 & _ & Hd & H).
  assert (Ha : adds closed w w2).
  { eapply (plain_adds (decrypt_if_encrypted b ki (Z.land ki WPA_KEY_INFO_TYPE_MASK) m kd)), Hd. eauto with steps. }
  destruct d as [d|]; [|by destruct H as [_ ->]]. etrans; [exact Ha|].
  assert (He : any_of ki WPA_KEY_INFO_ENCR_KEY_DATA = false).
  { destruct (any_of ki WPA_KEY_INFO_ENCR_KEY_DATA) eqn:He; [|done].
    unfold decrypt_if_encrypted in Hd. run_step Hd.
    rewrite Hrsn, He, Hmic, bool_decide_eq_true_2 in Hd by done. by run_step Hd. }
  unfold dispatch in H. rewrite any_of_lor, Hmic, He in H.
  rewrite (bool_decide_eq_false_2 (m = 0)) in H by done. rewrite andb_false_r, andb_false_l in H.
  cbn [orb] in H. destruct (any_of ki WPA_KEY_INFO_KEY_TYPE).
  - run_step H; [by run_step H|]. run_step H. run_step H. by eapply process_1_of_4_adds.
  - do 2 run_step H. done.
Qed.

Lemma blit_same_but_mic n b b1 : same_but_mic n b b1 → 0 ≤ n →
  blit b1 off_mic (zeros n) = blit b off_mic (zeros n).
Proof.
  intros (Hl & _ & Hs) Hn. unfold blit. rewrite Hl. case_bool_decide as Hc; [|done]. destruct Hc as [_ Hc].
  rewrite zeros_length in Hc by done. unfold off_mic in *. f_equal. f_equal; [|f_equal].
  - specialize (Hs 0 81). unfold slice in Hs. rewrite Hl, bool_decide_eq_true_2 in Hs by lia.
    specialize (Hs ltac:(lia)). injection Hs as Hs. exact Hs.
  - specialize (Hs (81 + n) (blen b - (81 + n))). unfold slice in Hs.
    rewrite Hl, bool_decide_eq_true_2 in Hs by lia. specialize (Hs ltac:(lia)). injection Hs as Hs.
    assert (Hd : ∀ x : list Z, blen x = blen b →
      take (Z.to_nat (blen b - (81 + n))) (drop (Z.to_nat (81 + n)) x) =
      drop (Z.to_nat 81 + length (zeros n)) x).
    { intros x Hx. rewrite take_ge by (rewrite length_drop; lia). f_equal.
      pose proof (zeros_length n Hn). lia. }
    by rewrite !Hd in Hs.
Qed.

Lemma check_mic_same s keys ver b b1 mic :
  same_but_mic (reply_mic_len s) b b1 → 0 ≤ reply_mic_len s →
  check_mic s keys ver b1 mic = check_mic s keys ver b mic.
Proof. intros Hs Hn. unfold check_mic. cbv zeta. by rewrite (blit_same_but_mic _ _ _ Hs Hn). Qed.
End auth.

Section signed.
Context `{C : wpa_crypto} {L : wpa_crypto_laws C} `{E : wpa_env}.

(** The second PTK is tried on the frame as the first try left it. *)
Lemma verified_authentic w ver b b' w' v :
  keys_are v (sm w) → ptk_ok (tptk (sm w)) → fits v ver (tptk (sm w)) → bytes_ok b →
  81 + reply_mic_len (sm w) ≤ blen b →
  verified w ver b b' w' → authentic (sm w) ver b.
Proof using L.
  intros Hk Hp Hf Hb Hl [_ _ _ [[Hm Ht]|(mic & b1 & Hs & Hset & Hc & Hb1)]]; [by left|]. right.
  split; [done|]. exists mic, b'. split; [done|]. destruct Hb1 as [->|Ht]; [done|].
  destruct (check_mic_ok v (sm w) (tptk (sm w)) ver b mic Hk Hp Hf Hb Hl) as (b2 & ok & E2 & S2).
  rewrite Ht in E2. injection E2 as <- <-. destruct (v_mic_len v _ Hk) as [_ Hr].
  rewrite <- (check_mic_same _ _ _ _ _ mic S2); [done|lia].
Qed.
End signed.

(** C2: nothing is keyed by an unauthenticated frame.  In RSN, from a well-formed state whose
    AKM has a MIC for the PMK that the machine holds ([reply_mic_len] is not 0) and whose PTKs
    have KCKs that are not longer than their MIC ([mic_fits]), when a received frame makes the
    supplicant install a key, offload rekeying, open the port or complete the handshake, the
    frame has the MIC bit, and its MIC is the one that the PTK in use, or the one of the
    handshake under way, gives for it.  The first condition excludes FILS, and DPP, OWE and
    SAE-EXT-KEY while the machine has no PMK: their MIC has no octets, and wpa.c:2684 then
    takes a frame for an authenticated one without having verified anything.  The second
    only speaks of DPP and SAE-EXT-KEY, where the length of a KCK is that of half the PMK
    from which it was derived. *)
Theorem keys_need_mic `{C : wpa_crypto} {L : wpa_crypto_laws C} `{E : wpa_env} src buf w r w' l e :
  sm_ok (sm w) → mic_fits (sm w) (ptk (sm w)) → mic_fits (sm w) (tptk (sm w)) → bytes_ok buf →
  is_rsn (sm w) = true → reply_mic_len (sm w) ≠ 0 →
  wpa_sm_rx_eapol src buf w = Ret (r, w') → tr w' = l ++ tr w → e ∈ l → opens e →
  ∃ len b ki, slice buf 0 len = Some b ∧ frame_key_info b = Some ki ∧
    any_of ki WPA_KEY_INFO_MIC = true ∧ authentic (sm w) (Z.land ki WPA_KEY_INFO_TYPE_MASK) b.
Proof.
  intros Hok Hf Hft Hb Hrsn Hne H Hl He Ho.
  assert (Hclosed : adds closed w w' → False).
  { intros (l' & El & Fl). rewrite Hl in El. apply app_inv_tail in El as ->.
    rewrite Forall_forall in Fl. by apply (Fl e). }
  destruct (rx_inv w src buf r w' H) as [[_ [_ Hi]]|(m & len & n & b & w1 & Hrc & Hk)].
  { exfalso. apply Hclosed. destruct Hi as (l' & El & Fl). exists l'. split; [done|].
    eapply Forall_impl; [exact Fl|]. apply harmless_closed. }
  destruct (rx_key_inv _ _ _ _ _ _ _ Hk) as (ki & c & Hki & _ & Hcase).
  destruct Hrc as [Hm Hbuf Hlen Hw1]. pose proof Hw1 as [Es (l1 & El1 & Fl1)].
  assert (Ha1 : adds closed w (notified w1)).
  { destruct (ignored_notified _ _ Hw1) as [_ (l2 & El2 & Fl2)]. exists l2. split; [done|].
    eapply Forall_impl; [exact Fl2|]. apply harmless_closed. }
  destruct Hcase as [[_ ->]|(Hv & _ & _ & Hh)]; [by destruct Hclosed|].
  exists len, b, ki. split; [done|]. split; [done|].
  set (s := sm w) in *. set (v := mk_kept (pmk_of s) (key_mgmt s) (ptk s) (tptk s) (assoc_resp_ies s)
    (mgmt_group_cipher s) (is_rsn s)).
  assert (Hmic : 0 ≤ reply_mic_len s ≤ m ∧ m ≠ 0).
  { destruct (rx_pmk_len_ok s Hok) as (k & Hk' & Hk0 & Hp). unfold rx_mic_len in Hm. rewrite Hk' in Hm.
    injection Hm as <-. unfold reply_mic_len in *.
    assert (H0 : 0 ≤ wpa_mic_len (key_mgmt s) (blen (pmk_of s)) ≤ wpa_mic_len (key_mgmt s) k).
    { split; [akm_lens|]. destruct Hp as [Hp| ->]; [rewrite Hp; apply mic_len_zero; lia|lia]. }
    lia. }
  destruct (any_of ki WPA_KEY_INFO_MIC) eqn:Emic.
  2:{ exfalso. apply Hclosed. etrans; [exact Ha1|]. eapply unsigned_adds; [|apply Hmic|exact Emic|exact Hh].
      cbn [notified sm]. rewrite Es. exact Hrsn. }
  split; [done|]. destruct Hh as (x & w2 & Hver & Hrest). pose proof Hver as Hver0.
  apply verify_if_inv in Hver as [Htr Hver]. destruct x as [b'|].
  2:{ exfalso. apply Hclosed. destruct Hrest as [_ ->]. destruct Ha1 as (l2 & El2 & Fl2).
      exists l2. split; [congruence|done]. }
  destruct Hver as [[? _]|[_ Hver]]; [congruence|].
  assert (Hk1 : keys_are v (sm (notified w1))).
  { cbn [notified sm]. rewrite Es. fold s. assert (Hk0 : keys_are v s) by (split; [exact Hok|done..]).
    unfold not_completed. revert Hk0. clear. intros. sm_split. }
  assert (Hver1 : wpa_use_akm_defined (v_akm v) = true →
    Z.land ki WPA_KEY_INFO_TYPE_MASK = WPA_KEY_INFO_TYPE_AKM_DEFINED).
  { intros Ha. eapply version_akm; [exact Hv|]. rewrite Es. exact Ha. }
  assert (Haut : authentic (sm (notified w1)) (Z.land ki WPA_KEY_INFO_TYPE_MASK) b).
  { eapply (verified_authentic _ _ _ _ _ v); [exact Hk1|apply Hk1| | | |exact Hver].
    - rewrite (ka_tptk v _ Hk1). apply kck_fits_fits; [exact Hft|exact Hver1].
    - by eapply slice_Forall.
    - pose proof (slice_length _ _ _ _ Hbuf). cbn [notified sm]. rewrite Es.
      change (reply_mic_len (not_completed s)) with (reply_mic_len s). destruct Hmic. lia. }
  cbn [notified sm] in Haut. rewrite Es in Haut. exact Haut.
Qed.
