(* ===== verification/WpaNonce.v ===== *)
(** No key is installed twice

    Every pairwise key that the supplicant gives to the driver was derived with an SNonce
    of its own: the keys installed in a run and the nonces drawn in it correspond one to
    one.  A message 3/4 that is repeated, after any sequence of operations, therefore never
    installs the key of an earlier one again. *)
From S2P Require Import Prelude Bytes Defs Suites RsnIe Kde PmksaCache WpaKey WpaSm WpaHandshake WpaOps WpaLogic WpaSteps.

(** The keys installed and the nonces drawn, newest first. *)
Definition installs (t : list event) : list (list Z) := omap installed_key t.
Definition draws (t : list event) : list (list Z) := omap drawn_nonce t.

Lemma np_omap l : Forall not_pairwise l → omap installed_key l = [] ∧ omap drawn_nonce l = [].
Proof.
  induction 1 as [|e l [H1 H2] _ [IH1 IH2]]; [done|]. cbn [omap list_omap]. by rewrite H1, H2.
Qed.

Section nonce.
Context `{C : wpa_crypto} `{E : wpa_env}.

(** [a] is the array of the temporal key of a derivation with the SNonce [sn], with the
    Michael MIC keys swapped for TKIP. *)
Definition tk_from (sn a : list Z) : Prop :=
  ∃ w an keys r p w', snonce (sm w) = sn ∧ wpa_derive_ptk an keys w = Ret (r, p, w') ∧ 0 ≤ r ∧
    (tk p = a ∨ swap_mic_keys (tk p) = Some a).
(** The SNonce made of the octets drawn. *)
Definition nonce_of (n sn : list Z) : Prop := sn = n ∨ rsn_set_snonce_cookie n = Some sn.
Definition keyed (n a : list Z) : Prop := ∃ sn, nonce_of n sn ∧ tk_from sn a.
(** The key is the start of such an array. *)
Definition key_of_nonce (key n : list Z) : Prop :=
  ∃ a k, keyed n a ∧ 0 < k ∧ slice a 0 k = Some key.

(** Each key has used up a nonce; one more belongs to a PTK that can still be installed,
    one to the PTK of the handshake under way, and one is the current SNonce, which may be
    the one before. *)
Definition nonce_inv (w : world) : Prop :=
  ∃ used pn tn cn : list (list Z),
    used ++ pn ++ tn ++ cn ⊆+ draws (tr w) ∧
    Forall2 key_of_nonce (installs (tr w)) used ∧
    (installed (ptk (sm w)) = false → tk_len (ptk (sm w)) ≠ 0 →
       ∃ n, pn = [n] ∧ keyed n (tk (ptk (sm w)))) ∧
    (tptk_set (sm w) = true → ∃ n, tn = [n] ∧ keyed n (tk (tptk (sm w)))) ∧
    (renew_snonce (sm w) = false → ∃ n, nonce_of n (snonce (sm w)) ∧ n ∈ tn ++ cn).

Definition keeps_inv (w w' : world) : Prop := nonce_inv w → nonce_inv w'.
#[local] Instance keeps_inv_preorder : PreOrder keeps_inv.
Proof. split; unfold keeps_inv; auto. Qed.

Definition nonce_view (s : wpa_sm) := (ptk s, tptk s, tptk_set s, snonce s, renew_snonce s).

Lemma inv_same w w' :
  nonce_view (sm w') = nonce_view (sm w) → installs (tr w') = installs (tr w) →
  draws (tr w') = draws (tr w) → keeps_inv w w'.
Proof.
  intros V EI ED (used & pn & tn & cn & H). unfold nonce_view in V. injection V as V1 V2 V3 V4 V5.
  exists used, pn, tn, cn. by rewrite EI, ED, V1, V2, V3, V4, V5.
Qed.

Lemma inv_within w w' : within not_pairwise w w' → keeps_inv w w'.
Proof.
  intros [G (l & El & Fl)]. apply np_omap in Fl as [F1 F2]. apply inv_same.
  - unfold guarded in G. unfold nonce_view. congruence.
  - unfold installs. by rewrite El, omap_app, F1.
  - unfold draws. by rewrite El, omap_app, F2.
Qed.
Lemma np_inv {A} (m : M A) : steps (within not_pairwise) m → steps keeps_inv m.
Proof. apply steps_weaken, inv_within. Qed.

(** An update that clears nonces or keys. *)
Lemma inv_clear w s' :
  (ptk s' = ptk (sm w) ∨ tk_len (ptk s') = 0) →
  (tptk s' = tptk (sm w) ∧ tptk_set s' = tptk_set (sm w) ∨ tptk_set s' = false) →
  renew_snonce s' = true ∨ (renew_snonce s' = renew_snonce (sm w) ∧ snonce s' = snonce (sm w)) →
  keeps_inv w (mk_world s' (tr w)).
Proof.
  intros H1 H2 H3 (used & pn & tn & cn & Hs & Hf & Hp & Ht & Hc).
  exists used, pn, tn, cn. cbn [sm tr]. split; [done|]. split; [done|]. split_and!.
  - destruct H1 as [->|H1]; [done|]. congruence.
  - destruct H2 as [[-> ->]|H2]; [done|]. congruence.
  - destruct H3 as [H3|[-> ->]]; [congruence|done].
Qed.

(** ** The operations that matter *)
Lemma take_inv w : tptk_set (sm w) = true → keeps_inv w (mk_world (take_tptk (sm w)) (tr w)).
Proof.
  intros Hset (used & pn & tn & cn & Hs & Hf & Hp & Ht & Hc).
  destruct (Ht Hset) as (n & -> & Hk). exists used, [n], [], []. cbn [sm tr].
  split; [|split; [done|split_and!; try done]].
  - etrans; [|exact Hs]. apply submseteq_app; [done|]. rewrite app_nil_r.
    apply submseteq_inserts_l, submseteq_inserts_r. done.
  - intros _ _. by exists n.
Qed.

Lemma verify_steps ver b : steps keeps_inv (wpa_supplicant_verify_eapol_key_mic ver b).
Proof.
  unfold wpa_supplicant_verify_eapol_key_mic. intros w r w' H. do 2 run_step H. run_step H.
  destruct a0 as [b1 ok].
  assert (H1 : keeps_inv w w0).
  { destruct (tptk_set (sm w)) eqn:Et; [|by injection Ha0 as <- <- <-].
    run_step Ha0. destruct a0 as [b2 ok2]. run_step Ha0. injection Ha0 as <- <- <-.
    destruct ok2; [|by injection Ha2 as _ <-]. injection Ha2 as _ <-. by apply take_inv. }
  etrans; [exact H1|]. clear H1 Ha0. run_step H. destruct a0 as [b2 ok2].
  assert (w1 = w0) as ->.
  { destruct (negb ok && ptk_set (sm w)); [by apply run_lift in Ha0 as [_ ->]|by injection Ha0 as _ _ <-]. }
  run_step H; [by run_step H|]. run_step H. do 2 run_step H. by apply inv_same.
Qed.

Lemma draw_inv w n sn :
  nonce_of n sn → renew_snonce (sm w) = true →
  keeps_inv w (mk_world ((sm w) <| snonce := sn |> <| renew_snonce := false |>) (RandomBytes (Some n) :: tr w)).
Proof.
  intros Hn Hr (used & pn & tn & cn & Hs & Hf & Hp & Ht & _).
  exists used, pn, tn, [n]. cbn [sm tr]. split; [|split; [done|split; [done|split; [done|]]]].
  - change (draws (_ :: tr w)) with (n :: draws (tr w)).
    assert (Hsub : used ++ pn ++ tn ⊆+ draws (tr w)).
    { etrans; [|exact Hs]. apply submseteq_app; [done|]. apply submseteq_app; [done|].
      by apply submseteq_inserts_r. }
    rewrite !(assoc_L (++)).
    etrans; [|by apply submseteq_skip, Hsub]. rewrite Permutation_app_comm. cbn [app].
    by rewrite (assoc_L (++)).
  - intros _. exists n. split; [exact Hn|]. apply elem_of_app. right. by apply list_elem_of_singleton.
Qed.

Lemma renew_ok w ok w' :
  renew_nonce w = Ret (ok, w') → keeps_inv w w' ∧ (ok = true → renew_snonce (sm w') = false).
Proof.
  unfold renew_nonce. intros H. run_step H. destruct (renew_snonce (sm w)) eqn:Hr.
  2:{ run_step H. by split. }
  run_step H. unfold random_get_bytes in Ha. do 2 run_step Ha. run_step Ha.
  destruct (env_random (tr w)) as [n|].
  - run_step H. do 2 run_step H. split; [|done]. apply (draw_inv w); [|done]. unfold nonce_of.
    cbn [sm] in Ha. destruct (wpa_sm_rsn_overriding_supported (sm w)); [by right|]. injection Ha as ->. by left.
  - run_step H. split; [|done]. by apply inv_same.
Qed.

(** A failed derivation leaves the temporal key alone. *)
Lemma derive_fails an keys w r p w' :
  wpa_derive_ptk an keys w = Ret (r, p, w') → r < 0 → tk p = tk keys.
Proof.
  intros H Hr.
  assert (Hpmk : ∀ k l a1 a2 n1 n2 akm c z n,
    wpa_pmk_to_ptk k l a1 a2 n1 n2 keys akm c z n = Ret (r, p) → tk p = tk keys).
  { intros k l a1 a2 n1 n2 akm c z n. unfold wpa_pmk_to_ptk. cbv zeta.
    repeat (case_bool_decide; [by intros [= <- <-]|]).
    repeat (case_bool_decide; [done || (by intros [= <- <-])|]).
    destruct (ptk_prf _ _ _ _ _); [|by intros [= <- <-]].
    destruct (split_ptk _ _); [|done]. rewrite access_bind. intros [= <- <-]. lia. }
  assert (Hr1 : ∀ k sn a1 a2 b nm akm c n,
    wpa_pmk_r1_to_ptk k sn a1 a2 b nm keys akm c n = Ret (r, p) → tk p = tk keys).
  { intros k sn a1 a2 b nm akm c n. unfold wpa_pmk_r1_to_ptk. cbv zeta.
    case_bool_decide; [by intros [= <- <-]|]. case_bool_decide; [done|].
    case_bool_decide; [by intros [= <- <-]|].
    destruct (_ k _ _ _); [|by intros [= <- <-]].
    destruct (sha256_vector _); [|by intros [= <- <-]].
    destruct (split_ft_ptk _ _); [|done]. rewrite access_bind. intros [= <- <-]. lia. }
  unfold wpa_derive_ptk in H. run_step H. destruct (wpa_key_mgmt_ft _).
  - unfold wpa_derive_ptk_ft in H. run_step H. run_step H. destruct a as [mpmk|]; [|by injection H as <- <- <-].
    do 2 run_step H. destruct a as [r0 name]. do 3 run_step H; [by injection H as <- <- <-|].
    do 4 run_step H. destruct a1 as [r1 name1]. do 3 run_step H; [by injection H as <- <- <-|].
    do 3 run_step H. apply run_lift in H as [H _]. by eapply Hr1.
  - run_step H. apply run_lift in H as [H _]. by eapply Hpmk.
Qed.

Lemma swap_tk_tk s p p' : swap_tk s p = Some p' → tk p = tk p' ∨ swap_mic_keys (tk p) = Some (tk p').
Proof.
  unfold swap_tk. case_bool_decide; [|intros [= <-]; by left].
  destruct (swap_mic_keys (tk p)) as [t|]; [|done]. intros [= <-]. by right.
Qed.

Lemma derive_inv n w ok w' :
  renew_snonce (sm w) = false → derive_tptk n w = Ret (ok, w') → keeps_inv w w'.
Proof.
  intros Hr H. unfold derive_tptk in H. run_step H. run_step H. destruct a as [r p].
  assert (Hst : within plain w w0) by (eapply derive_steps, Ha).
  assert (V : nonce_view (sm w0) = nonce_view (sm w)).
  { destruct Hst as [G _]. unfold guarded in G. unfold nonce_view. congruence. }
  unfold nonce_view in V. injection V as V1 V2 V3 V4 V5.
  apply (within_mono _ not_pairwise), inv_within in Hst; [|apply plain_not_pairwise].
  etrans; [exact Hst|]. intros (used & pn & tn & cn & Hs & Hf & Hp & Ht & Hc).
  run_step H. run_step H.
  - run_step H. apply bool_decide_eq_true_1 in Heqb. exists used, pn, tn, cn. cbn [sm tr].
    split; [done|]. split; [done|]. split; [done|]. split; [|done]. intros Hset.
    destruct (Ht Hset) as (k & -> & Hk). exists k. split; [done|].
    rewrite V2 in Hk. rewrite <- (derive_fails _ _ _ _ _ _ Ha Heqb) in Hk. exact Hk.
  - apply bool_decide_eq_false_1 in Heqb. run_step H. do 2 run_step H.
    destruct (Hc ltac:(congruence)) as (k & Hk & Hin).
    exists used, pn, [k], []. cbn [sm tr]. split; [|split; [done|split; [done|split]]].
    + etrans; [|exact Hs]. apply submseteq_app; [done|]. apply submseteq_app; [done|].
      rewrite app_nil_r. by apply singleton_submseteq_l.
    + intros _. exists k. split; [done|]. exists (snonce (sm w)). split; [congruence|].
      apply swap_tk_tk in Ha0. exists w, n, (tptk (sm w)), r, p, w0.
      split; [done|]. split; [done|]. split; [lia|exact Ha0].
    + intros _. exists k. split; [exact Hk|]. rewrite app_nil_r. by apply list_elem_of_singleton.
Qed.

Lemma pairwise_flag f : any_of (Z.lor KEY_FLAG_PAIRWISE f) KEY_FLAG_PAIRWISE = true.
Proof.
  unfold any_of, KEY_FLAG_PAIRWISE. rewrite bool_decide_eq_false_2; [done|]. intros H.
  assert (Hb : Z.testbit (Z.land (Z.lor (BIT 5) f) (BIT 5)) 5 = true).
  { by rewrite Z.land_spec, Z.lor_spec. }
  by rewrite H in Hb.
Qed.

Lemma install_inv b flag : steps keeps_inv (wpa_supplicant_install_ptk b flag).
Proof.
  intros w r w' H. unfold wpa_supplicant_install_ptk in H. run_step H.
  do 4 (run_step H; [by run_step H|]).
  apply orb_false_iff in Heqb3 as [Hlen0 Hlen]. apply bool_decide_eq_false_1 in Hlen0, Hlen.
  do 3 run_step H. run_step H. unfold wpa_sm_set_key in Ha2. do 2 run_step Ha2. run_step Ha2.
  set (k := mk_key _ _ _ _ _ _ _) in H. set (res := env_set_key _ _) in H.
  run_step H.
  { run_step H. apply inv_same; [done| |done]. unfold installs. cbn [tr omap list_omap installed_key].
    apply bool_decide_eq_true_1 in Heqb3. rewrite (bool_decide_eq_false_2 (0 ≤ res)) by lia.
    by rewrite andb_false_r. }
  apply bool_decide_eq_false_1 in Heqb3. do 2 run_step H.
  set (w1 := mk_world _ _) in H.
  assert (H1 : keeps_inv w w1).
  { intros (used & pn & tn & cn & Hs & Hf & Hp & Ht & Hc).
    destruct (Hp ltac:(assumption) ltac:(lia)) as (n & -> & Hk). exists (n :: used), [], tn, cn.
    subst w1. cbn [sm tr]. split; [|split; [|split; [done|split; [done|done]]]].
    - change (draws _) with (draws (tr w)). etrans; [|exact Hs]. cbn [app].
      apply Permutation_submseteq. cbn [app]. apply Permutation_middle.
    - replace (installs _) with (a1 :: installs (tr w)).
      + constructor; [|done]. eexists _, _. split; [exact Hk|]. split; [|exact Ha1]. lia.
      + unfold installs. cbn [omap list_omap installed_key k k_flag k_key].
        rewrite pairwise_flag, bool_decide_eq_true_2 by lia. done. }
  etrans; [exact H1|]. clearbody w1. clear H1. run_step H. run_step H.
  destruct (bool_decide _) in Ha2; [injection Ha2 as _ <-; by apply inv_same|by injection Ha2 as _ <-].
Qed.

(** ** All operations *)
#[local] Hint Extern 2 (steps keeps_inv _) => apply np_inv; solve [eauto with steps] : steps.
#[local] Hint Resolve verify_steps install_inv : steps.
Ltac inv_upd :=
  first [ apply inv_same; reflexivity
        | apply inv_clear; cbn; auto ].
Ltac walk_inv := steps_walk inv_upd.

Lemma after_pmk_inv b ver : steps keeps_inv (after_pmk_1_of_4 b ver).
Proof.
  intros w r w' H. unfold after_pmk_1_of_4 in H. run_step H.
  apply renew_ok in Ha as [H1 Hr]. etrans; [exact H1|].
  run_step H; [by run_step H|]. apply negb_false_iff in Heqb0. specialize (Hr Heqb0).
  run_step H. run_step H. etrans; [eapply derive_inv; [exact Hr|exact Ha0]|].
  run_step H; [by run_step H|]. eapply np_inv; [|exact H]. eauto with steps.
Qed.
#[local] Hint Resolve after_pmk_inv : steps.

Lemma process_1_of_4_inv src b ver kd : steps keeps_inv (wpa_supplicant_process_1_of_4 src b ver kd).
Proof.
  unfold wpa_supplicant_process_1_of_4, or_deauthenticate, body_1_of_4, wpa_sm_get_network_ctx. walk_inv.
Qed.
Lemma process_3_of_4_inv b ver kd : steps keeps_inv (wpa_supplicant_process_3_of_4 b ver kd).
Proof.
  unfold wpa_supplicant_process_3_of_4, or_deauthenticate, body_3_of_4, accept_3_of_4, ptk_3_of_4,
    wpa_supplicant_send_4_of_4. walk_inv.
Qed.
#[local] Hint Resolve process_1_of_4_inv process_3_of_4_inv : steps.
Lemma rx_nonce_inv src buf : steps keeps_inv (wpa_sm_rx_eapol src buf).
Proof. unfold wpa_sm_rx_eapol, rx_key, dispatch, verify_if_mic. walk_inv. Qed.

Lemma assoc_inv a : steps keeps_inv (wpa_sm_notify_assoc a).
Proof. unfold wpa_sm_notify_assoc, rsn_preauth_deinit. walk_inv. Qed.
Lemma drop_inv : steps keeps_inv wpa_sm_drop_sa.
Proof. unfold wpa_sm_drop_sa. walk_inv. Qed.
#[local] Hint Resolve rx_nonce_inv assoc_inv drop_inv : steps.
Lemma disassoc_inv : steps keeps_inv wpa_sm_notify_disassoc.
Proof. unfold wpa_sm_notify_disassoc, rsn_preauth_deinit, wpa_sm_get_state. walk_inv. Qed.
Lemma rekey_inv : steps keeps_inv wpa_sm_rekey_ptk.
Proof. unfold wpa_sm_rekey_ptk. walk_inv. Qed.
Lemma set_param_inv p v : steps keeps_inv (wpa_sm_set_param p v).
Proof. unfold wpa_sm_set_param, set_if. destruct p; walk_inv. Qed.
Lemma set_config_inv c : steps keeps_inv (wpa_sm_set_config c).
Proof. unfold wpa_sm_set_config. walk_inv. Qed.
Lemma pm_flush_inv c e : steps keeps_inv (pm_flush c e).
Proof. unfold pm_flush. walk_inv. Qed.
Lemma wnm_inv id buf : steps keeps_inv (wpa_wnmsleep_install_key id buf).
Proof. unfold wpa_wnmsleep_install_key, wnmsleep_gtk. walk_inv. Qed.
Lemma set_element_inv f ie : (∀ e s, guarded (f e s) = guarded s) → steps keeps_inv (set_element f ie).
Proof. intros. by apply np_inv, steps_plain, set_element_steps. Qed.
#[local] Hint Resolve disassoc_inv rekey_inv set_param_inv set_config_inv pm_flush_inv wnm_inv : steps.

Lemma do_inv o : steps keeps_inv (sm_do o).
Proof.
  pose proof set_element_inv.
  destruct o; cbn [sm_do]; unfold wpa_sm_set_ap_wpa_ie, wpa_sm_set_ap_rsn_ie, wpa_sm_set_ap_rsnxe,
    wpa_sm_set_ap_rsne_override, wpa_sm_set_ap_rsne_override_2, wpa_sm_set_ap_rsnxe_override,
    wpa_sm_aborted_cached, sm_pmksa_expire, wpa_sm_set_rx_replay_ctr; walk_inv.
Qed.

Lemma run_inv os : steps keeps_inv (sm_run os).
Proof.
  induction os as [|o os IH]; cbn [sm_run]; [apply steps_ret; apply _|].
  apply steps_bind; [apply _|apply do_inv|by intros _].
Qed.
End nonce.

(** A state without keys that draws an SNonce first, as [wpa_sm_init] makes it. *)
Definition unkeyed (s : wpa_sm) : Prop :=
  tk_len (ptk s) = 0 ∧ tptk_set s = false ∧ renew_snonce s = true.

(** C1: no key is installed twice.  In every run of operations from a state without keys,
    frames of an attacker included, the pairwise keys that the driver takes correspond one
    to one to nonces drawn in the run: each key was derived with an SNonce of its own.
    Repeating message 3/4 does not install a key again, and no SNonce serves two
    installations. *)
Theorem installs_use_own_nonce `{C : wpa_crypto} `{E : wpa_env} os s u w :
  unkeyed s → sm_run os (mk_world s []) = Ret (u, w) →
  ∃ used, used ⊆+ draws (tr w) ∧ Forall2 key_of_nonce (installs (tr w)) used.
Proof.
  intros (H1 & H2 & H3) H.
  assert (H0 : nonce_inv (mk_world s [])).
  { exists [], [], [], []. cbn [sm tr]. split; [done|]. split; [constructor|]. split_and!; congruence. }
  destruct (run_inv _ _ _ _ H H0) as (used & pn & tn & cn & Hs & Hf & _).
  exists used. split; [|exact Hf]. etrans; [|exact Hs]. by apply submseteq_inserts_r.
Qed.
