(* ===== verification/WpaExample.v ===== *)
(** A concrete association for the examples of the RSN state machine

    A crypto library that satisfies its laws, an environment in which every call
    succeeds, and the frames of a 4-way handshake of WPA2-PSK and of a WPA association. *)
From S2P Require Import Prelude Bytes Defs Suites RsnIe Kde PmksaCache WpaKey WpaSm WpaHandshake WpaOps.

(** ** A crypto library *)
Definition toy_sum (l : list Z) : Z := fold_left (λ a x, (a * 31 + x) mod 65521) l 7.
Definition toy_octets (n seed : Z) : list Z :=
  map (λ i, (seed + Z.of_nat i * (seed / 256 + 3)) mod 256) (seq 0 (Z.to_nat n)).
Definition toy_mac (n : Z) (k d : list Z) : option (list Z) :=
  Some (toy_octets n (toy_sum (k ++ d))).
Definition toy_prf (k : list Z) (_ : String.string) (d : list Z) (n : Z) : option (list Z) :=
  Some (toy_octets n (toy_sum (k ++ d))).
Definition toy_unwrap (_ : list Z) (n : Z) (c : list Z) : option (list Z) :=
  if bool_decide (blen c = 8 * n + 8) && bool_decide (take 8 c = replicate 8 0xa6)
  then Some (drop 8 c) else None.

#[export] Instance toy_crypto : wpa_crypto := {|
  hmac_md5 := toy_mac 16;
  hmac_sha1 := toy_mac 20;
  hmac_sha256 := toy_mac 32;
  hmac_sha384 := toy_mac 48;
  hmac_sha512 := toy_mac 64;
  omac1_aes_128 := toy_mac 16;
  sha256_vector := toy_mac 32 [];
  sha384_vector := toy_mac 48 [];
  sha1_prf := toy_prf;
  sha256_prf := toy_prf;
  sha384_prf := toy_prf;
  sha512_prf := toy_prf;
  aes_unwrap := toy_unwrap;
  rc4_skip := λ _ _ d, Some d;
  hash_residue := λ _ _, replicate 48 0;
|}.

Lemma toy_octets_len n seed : 0 ≤ n → blen (toy_octets n seed) = n.
Proof. intros. unfold toy_octets. rewrite length_map, length_seq. lia. Qed.

Lemma toy_octets_ok n seed : bytes_ok (toy_octets n seed).
Proof. apply Forall_map, Forall_true. intros i. apply Z.mod_pos_bound. lia. Qed.

#[export] Instance toy_laws : wpa_crypto_laws toy_crypto.
Proof.
  assert (Hmac : ∀ n k d m, 0 ≤ n → toy_mac n k d = Some m → octets_len n m).
  { intros n k d m Hn [= <-]. split; [by apply toy_octets_len|apply toy_octets_ok]. }
  split; try (intros k d m; apply Hmac; lia); 
    try (intros d m H; apply (Hmac _ [] d m) in H; [apply H|lia]);
    try (intros k l d n m Hn [= <-]; by apply toy_octets_len).
  - intros k d. split; [done|]. by repeat constructor.
  - intros k n c m Hn Hb. cbn. unfold toy_unwrap. case_bool_decide as Hc; [|done].
    case_bool_decide; [|done]. intros [= <-].
    split; [rewrite length_drop; lia|by apply Forall_drop].
  - by intros k n d m Hd [= <-].
Qed.

(** ** An environment *)
#[export] Instance toy_env : wpa_env := {|
  env_malloc := λ _ _, true;
  env_random := λ t, Some (replicate 32 (Z.of_nat (length t)));
  env_set_key := λ _ _, 0;
  env_ether_send := λ _ _ _, 0;
  env_get_bssid := λ _, None;
  env_get_state := λ t,
    default WPA_ASSOCIATED (head (omap (λ e, match e with SetState s => Some s | _ => None end) t));
  env_network_ctx := λ _, Some 1;
  env_bss := λ _, None;
  env_scan_results := λ _, -1;
  env_eapol_key := λ _ _, inr (-1);
  env_now := λ _, 1000;
  env_preauth_bssid := λ _, zeros 6;
  eapol_version := 1;
|}.

Definition own : list Z := [2; 0; 0; 0; 0; 1].
Definition ap : list Z := [2; 0; 0; 0; 0; 2].

(** RSNE of a WPA2-PSK network with CCMP *)
Definition ap_rsne : list Z :=
  [48; 20; 1; 0; 0; 15; 172; 4; 1; 0; 0; 15; 172; 4; 1; 0; 0; 15; 172; 2; 0; 0].

Definition wpa2_sm : wpa_sm :=
  wpa_sm_init <| pm ::= λ p, put_pmk (replicate 32 0x11) (p <| bssid := ap |> <| own_addr := own |>) |>
    <| proto := WPA_PROTO_RSN |> <| pairwise_cipher := WPA_CIPHER_CCMP |>
    <| group_cipher := WPA_CIPHER_CCMP |> <| key_mgmt := WPA_KEY_MGMT_PSK |>
    <| mgmt_group_cipher := WPA_CIPHER_AES_128_CMAC |> <| beacon_prot := true |>
    <| assoc_wpa_ie := Some ap_rsne |> <| assoc_wpa_ie_len := 22 |> <| ap_rsn_ie := Some ap_rsne |>.

(** An EAPOL-Key frame with a MIC of 16 octets. *)
Definition frame_head (key_info key_length replay : Z) (nonce : list Z) (ty : Z) (len : Z) : list Z :=
  [2; 3] ++ be16_bytes (77 + 16 + 2 + len) ++ [ty] ++ be16_bytes key_info ++
  be16_bytes key_length ++ be64_bytes replay ++ nonce ++ zeros 16 ++ zeros 8 ++ zeros 8.
Definition frame (key_info key_length replay : Z) (nonce : list Z) (ty : Z) (mic kd : list Z) : list Z :=
  frame_head key_info key_length replay nonce ty (blen kd) ++ mic ++ be16_bytes (blen kd) ++ kd.

Definition a_nonce : list Z := replicate 32 0xaa.
Definition msg1 : list Z := frame 0x008a 16 1 a_nonce 2 (zeros 16) [].

(** The PTK that the AP derives from the SNonce of message 2/4, the one of [toy_env] *)
Definition s_nonce : list Z := replicate 32 3.
Definition ap_ptk : wpa_ptk :=
  match wpa_pmk_to_ptk (replicate 32 0x11) pairwise_key_expansion ap own a_nonce s_nonce ptk_zero
          WPA_KEY_MGMT_PSK WPA_CIPHER_CCMP [] 0 with
  | Ret (_, p) => p
  | _ => ptk_zero
  end.
Definition ap_kck : list Z := take 16 (kck ap_ptk).

(** A frame with the MIC of the AP. *)
Definition signed (key_info key_length replay : Z) (nonce kd : list Z) : list Z :=
  let unsigned := frame key_info key_length replay nonce 2 (zeros 16) kd in
  match wpa_eapol_key_mic ap_kck WPA_KEY_MGMT_PSK (Z.land key_info 7) unsigned with
  | Ret (Some mic) => frame key_info key_length replay nonce 2 mic kd
  | _ => []
  end.

Definition a_gtk : list Z := replicate 16 0x77.
Definition a_bigtk : list Z := replicate 16 0x66.
Definition gtk_kde : list Z := [0xdd; 22; 0; 15; 172; 1; 1; 0] ++ a_gtk.
Definition igtk_kde : list Z := [0xdd; 28; 0; 15; 172; 9; 4; 0] ++ zeros 6 ++ replicate 16 0x55.
Definition bigtk_kde : list Z := [0xdd; 28; 0; 15; 172; 14; 6; 0] ++ zeros 6 ++ a_bigtk.
Definition padded (kd : list Z) : list Z :=
  kd ++ (if bool_decide (blen kd mod 8 = 0) then [] else 0xdd :: zeros (7 - blen kd mod 8)).
Definition msg3_kd : list Z := padded (ap_rsne ++ gtk_kde ++ igtk_kde ++ bigtk_kde).
Definition msg3 : list Z := signed 0x13ca 16 2 a_nonce (replicate 8 0xa6 ++ msg3_kd).

Definition run {A} (m : M A) (w : world) : outcome (A * world) := m w.
Definition start : world := mk_world wpa2_sm [].
