(* ===== verification/WpaFacts.v ===== *)
(** Further facts about the RSN state machine, and the concrete runs

    The check of the elements of message 3/4, the handshake of WPA2-PSK from start to end,
    concrete inputs for the theorems of the other files, and runs that show behaviour of
    the code that its comments do not expect. *)
From S2P Require Import Prelude Bytes Defs Suites RsnIe RsnInsert Kde KdeProofs PmksaCache PmksaProofs WpaKey WpaKeyProofs WpaSm WpaHandshake WpaOps WpaLogic WpaSafe WpaRxSafe WpaAnswer WpaSteps WpaReplay WpaNonce WpaExample.

(** ** The check of the elements of message 3/4 *)
Section elements.
Context `{C : wpa_crypto} `{E : wpa_env}.

Lemma ie_mismatch_eq a m : ie_mismatch a m = false ↔ m = a.
Proof.
  destruct a, m; cbn [ie_mismatch]; rewrite ?bool_decide_eq_false; try done.
  split; [intros H|intros [= ->] H; done]. by destruct (decide (l = l0)) as [->|].
Qed.

(** The member [k] of message 3/4. *)
Definition sent (kd : list Z) (ie : wpa_eapol_ie_parse) (k : kde) : option (list Z) :=
  default None (member kd ie k).

(** The elements are equal when both are there; when one or none is, nothing is compared, as
    in wpa.c. *)
Definition same_if_both (a m : option (list Z)) : Prop :=
  ∀ x y, a = Some x → m = Some y → y = x.

(** The elements of message 3/4 agree with those of Beacon or Probe Response: one of WPA and
    RSN element is there, each of the two is the one of the Beacon if the Beacon has one
    too, and the RSNXE and, with RSN overriding, the override elements are those of the
    Beacon, present and absent alike. *)
Record elements_agree (s : wpa_sm) (kd : list Z) (ie : wpa_eapol_ie_parse) : Prop := {
  ea_some : is_Some (sent kd ie k_wpa_ie) ∨ is_Some (sent kd ie k_rsn_ie);
  ea_wpa : same_if_both (ap_wpa_ie s) (sent kd ie k_wpa_ie);
  ea_rsn : same_if_both (ap_rsn_ie s) (sent kd ie k_rsn_ie);
  ea_rsnxe : sent kd ie k_rsnxe = ap_rsnxe s;
  ea_override : wpa_sm_rsn_overriding_supported s = true →
    sent kd ie k_rsne_override = ap_rsne_override s ∧
    sent kd ie k_rsne_override_2 = ap_rsne_override_2 s ∧
    sent kd ie k_rsnxe_override = ap_rsnxe_override s;
}.

Lemma sent_member kd ie k :
  bytes_ok kd → parsed_ok kd ie → member kd ie k = Some (sent kd ie k).
Proof. intros Hb Hp. unfold sent. by destruct (member_ok kd ie k Hb Hp) as (m & -> & _). Qed.

Lemma beacon_mismatch_spec s wpa rsn :
  wpa_key_mgmt_ft (key_mgmt s) = false →
  ∃ d, beacon_mismatch s wpa rsn = Some d ∧
    (d = false ↔ same_if_both (ap_wpa_ie s) wpa ∧ same_if_both (ap_rsn_ie s) rsn).
Proof.
  intros Hft. unfold beacon_mismatch, same_if_both. rewrite Hft. unfold wpa_compare_rsn_ie.
  destruct wpa as [e|], (ap_wpa_ie s) as [a|], rsn as [e'|], (ap_rsn_ie s) as [a'|]; cbn [mbind option_bind];
    repeat case_bool_decide; cbn [mbind option_bind orb]; eexists; (split; [reflexivity|]);
    naive_solver.
Qed.

Lemma override_mismatch_spec s kd ie :
  bytes_ok kd → parsed_ok kd ie →
  ∃ d, override_mismatch s kd ie = Some d ∧
    (d = false ↔ sent kd ie k_rsne_override = ap_rsne_override s ∧
                 sent kd ie k_rsne_override_2 = ap_rsne_override_2 s ∧
                 sent kd ie k_rsnxe_override = ap_rsnxe_override s).
Proof.
  intros Hb Hp. unfold override_mismatch. rewrite !sent_member by done. cbn [mbind option_bind].
  eexists. split; [reflexivity|]. rewrite !orb_false_iff, !ie_mismatch_eq. tauto.
Qed.

Definition refused (s : wpa_sm) (t : list event) : outcome (Z * world) :=
  Ret (-1, mk_world s (Deauth WLAN_REASON_IE_IN_4WAY_DIFFERS :: t)).
Definition element_checks (s : wpa_sm) (kd : list Z) (ie : wpa_eapol_ie_parse) (t : list event) :
    outcome (Z * world) :=
  match beacon_mismatch s (sent kd ie k_wpa_ie) (sent kd ie k_rsn_ie) with
  | Some true => refused s t
  | Some false =>
      if ie_mismatch (ap_rsnxe s) (sent kd ie k_rsnxe) then refused s t
      else if wpa_sm_rsn_overriding_supported s then
        match override_mismatch s kd ie with
        | Some true => refused s t
        | Some false => Ret (0, mk_world s t)
        | None => Undef
        end
      else Ret (0, mk_world s t)
  | None => Undef
  end.

Lemma validate_ie_run s kd ie t :
  bytes_ok kd → parsed_ok kd ie → proto s = WPA_PROTO_RSN → wpa_key_mgmt_ft (key_mgmt s) = false →
  is_Some (ap_wpa_ie s) ∨ is_Some (ap_rsn_ie s) →
  wpa_supplicant_validate_ie kd ie (mk_world s t) =
  if bool_decide (sent kd ie k_wpa_ie = None) && bool_decide (sent kd ie k_rsn_ie = None)
  then refused s t else element_checks s kd ie t.
Proof.
  intros Hb Hp Hproto Hft Hap.
  unfold wpa_supplicant_validate_ie, acc. rewrite !sent_member by done.
  assert (Hn : bool_decide (ap_wpa_ie s = None) && bool_decide (ap_rsn_ie s = None) = false ∧
    bool_decide (is_Some (ap_wpa_ie s)) || bool_decide (is_Some (ap_rsn_ie s)) = true).
  { destruct Hap as [[? ->]|[? ->]]; [done|]. by rewrite andb_false_r, orb_true_r. }
  destruct Hn as [Hn Hs].
  unfold mbind, M_bind, get_sm, lift, access, mret, M_ret. cbn [sm tr]. rewrite Hn.
  change (bool_decide (0 < 0)) with false. cbn [sm tr]. rewrite Hs, andb_true_r.
  destruct (bool_decide (sent kd ie k_wpa_ie = None) && _); [done|]. unfold element_checks.
  destruct (beacon_mismatch _ _ _) as [[]|]; [done| |done].
  rewrite Hproto. change (bool_decide (WPA_PROTO_RSN = WPA_PROTO_WPA)) with false.
  change (bool_decide (WPA_PROTO_RSN = WPA_PROTO_RSN)) with true. cbn [andb].
  destruct (ie_mismatch _ _); [done|]. destruct (wpa_sm_rsn_overriding_supported s).
  - destruct (override_mismatch s kd ie) as [[]|]; [done| |done]. by rewrite Hft.
  - by rewrite Hft.
Qed.
End elements.

(** C12: the check of message 3/4 against downgrade is exact.  In RSN without FT, and with the
    elements of Beacon or Probe Response known, wpa_supplicant_validate_ie accepts the key
    data if and only if it has a WPA or RSN element, neither differs from the one of the
    Beacon (an element that only one side has is not compared), and its RSNXE and, with RSN
    overriding, its override elements are exactly those of the Beacon, and it changes
    nothing; otherwise it returns -1, and all that it does is to deauthenticate with the
    reason that the elements differ. *)
Theorem validate_ie_exact `{C : wpa_crypto} `{E : wpa_env} kd ie w :
  let s := sm w in
  bytes_ok kd → parsed_ok kd ie → proto s = WPA_PROTO_RSN → wpa_key_mgmt_ft (key_mgmt s) = false →
  is_Some (ap_wpa_ie s) ∨ is_Some (ap_rsn_ie s) →
  (elements_agree s kd ie ∧ wpa_supplicant_validate_ie kd ie w = Ret (0, w)) ∨
  (¬ elements_agree s kd ie ∧ wpa_supplicant_validate_ie kd ie w =
     Ret (-1, mk_world s (Deauth WLAN_REASON_IE_IN_4WAY_DIFFERS :: tr w))).
Proof.
  intros s Hb Hp Hproto Hft Hap. subst s. destruct w as [s t]. cbn [sm tr] in *.
  set (a := wpa_supplicant_validate_ie kd ie _).
  assert (Ha : a = if bool_decide (sent kd ie k_wpa_ie = None) && bool_decide (sent kd ie k_rsn_ie = None)
                   then refused s t else element_checks s kd ie t).
  { subst a. by apply validate_ie_run. }
  rewrite Ha. clear a Ha. unfold element_checks.
  destruct (beacon_mismatch_spec s (sent kd ie k_wpa_ie) (sent kd ie k_rsn_ie) Hft) as (d & -> & Hd).
  destruct (override_mismatch_spec s kd ie Hb Hp) as (d' & Hd'0 & Hd'). rewrite Hd'0.
  pose proof (ie_mismatch_eq (ap_rsnxe s) (sent kd ie k_rsnxe)) as Hx.
  assert (Hany : bool_decide (sent kd ie k_wpa_ie = None) && bool_decide (sent kd ie k_rsn_ie = None) = false ↔
    is_Some (sent kd ie k_wpa_ie) ∨ is_Some (sent kd ie k_rsn_ie)).
  { rewrite andb_false_iff, !bool_decide_eq_false, !not_eq_None_Some. done. }
  destruct (_ && bool_decide (sent kd ie k_rsn_ie = None)).
  { right. split; [|done]. intros [Hs _ _ _ _]. by apply Hany in Hs. }
  destruct d; [right; split; [|done]; intros [_ H1 H2 _ _]; by pose proof (proj2 Hd (conj H1 H2))|].
  destruct (ie_mismatch _ _); [right; split; [|done]; by intros [_ _ _ H _]; apply Hx in H|].
  destruct (wpa_sm_rsn_overriding_supported s) eqn:Eo; [destruct d'|];
    [right; split; [|done]; intros [_ _ _ _ H]; by pose proof (proj2 Hd' (H Eo))| |];
    left; (split; [|done]); split; try tauto; congruence || naive_solver.
Qed.

(** ** The concrete association *)
#[export] Instance toy_env_ok : env_ok toy_env.
Proof. by split; intros ? *; try intros [= <-]. Qed.
#[export] Instance toy_obliging : obliging.
Proof. split; try done. intros t. by eexists. Qed.

Lemma wpa2_sm_ok : sm_ok wpa2_sm.
Proof.
  split; try done.
  - split; [|done]. split; try done. split; constructor.
  - by apply (bool_decide_unpack _).
Qed.

Lemma wpa2_psk : psk_supplicant wpa2_sm.
Proof. by split. Qed.

Definition msg1_fields : key_fields :=
  mk_fields 2 EAPOL_KEY_TYPE_RSN 0x008a (be16_bytes 16) (be64_bytes 1) a_nonce (zeros 16) [].
Lemma msg1_is : key_frame msg1_fields = msg1 ∧ message_1 wpa2_sm msg1_fields.
Proof. split; [done|]. by split. Qed.

Lemma frames_ok : bytes_ok msg1 ∧ bytes_ok msg3.
Proof. split; apply (bool_decide_unpack _); vm_compute; done. Qed.

(** The state after message 1/4, and after message 3/4. *)
Definition world_after (frames : list (list Z)) (w : world) : world :=
  match run (sm_run (map (OpRxEapol ap) frames)) w with Ret (_, w') => w' | _ => w end.
Definition waiting : world := world_after [msg1] start.
Definition done_world : world := world_after [msg3] waiting.

Lemma msg1_run : wpa_sm_rx_eapol ap msg1 start = Ret (1, waiting).
Proof. vm_compute. done. Qed.
Lemma msg3_run : wpa_sm_rx_eapol ap msg3 waiting = Ret (1, done_world).
Proof. vm_compute. done. Qed.

(** The keys given to the driver, in order. *)
Definition set_keys (t : list event) : list (wpa_alg * Z * option (list Z)) :=
  omap (λ e, match e with SetKey k _ => Some (k_alg k, k_idx k, k_key k) | _ => None end) (rev t).
Definition frames_sent (t : list event) : list (list Z) :=
  omap (λ e, match e with EtherSend _ _ b _ => Some b | _ => None end) (rev t).
Definition tk_of (p : wpa_ptk) : list Z := take (Z.to_nat (tk_len p)) (tk p).

(** The handshake of WPA2-PSK: messages 2/4 and 4/4 are sent, the pairwise key, which is
    that of the AP, the GTK, the IGTK and the BIGTK are installed in this order, the port
    is opened and completion is reported. *)
Example wpa2_handshake_completes :
  let t := tr done_world in
  set_keys t = [(WPA_ALG_CCMP, 0, Some (tk_of ap_ptk)); (WPA_ALG_CCMP, 1, Some a_gtk);
                (WPA_ALG_BIP_CMAC_128, 4, Some (replicate 16 0x55));
                (WPA_ALG_BIP_CMAC_128, 6, Some a_bigtk)] ∧
  length (frames_sent t) = 2%nat ∧ 
  head (omap (λ e, match e with PortValid v => Some v | _ => None end) t) = Some true ∧
  head (omap (λ e, match e with SetState s => Some s | _ => None end) t) = Some WPA_COMPLETED.
Proof. vm_compute. done. Qed.

(** ** The theorems on the concrete association *)
Lemma clean_msg1 : clean_frame wpa2_sm msg1.
Proof.
  intros n kd ki Hn Hk Hi. vm_compute in Hn, Hk, Hi. injection Hn as <-. injection Hk as <-.
  injection Hi as <-. apply check_vendors_sound. vm_compute. reflexivity.
Qed.

Lemma waiting_cache : pm (sm waiting) = pm wpa2_sm.
Proof. vm_compute. reflexivity. Qed.
Lemma waiting_rsne : ap_rsn_ie (sm waiting) = Some ap_rsne.
Proof. vm_compute. reflexivity. Qed.

Lemma waiting_ok : sm_ok (sm waiting).
Proof.
  constructor; [rewrite waiting_cache; apply (so_pm _ wpa2_sm_ok)|vm_compute; done|split; vm_compute; done|
    split; vm_compute; done|vm_compute; reflexivity|vm_compute; reflexivity|vm_compute; reflexivity| |
    vm_compute; done|rewrite waiting_rsne; apply (so_rsn _ wpa2_sm_ok)|vm_compute; done|
    split; [vm_compute; reflexivity|vm_compute; done]|split; [vm_compute; reflexivity|vm_compute; done]|
    vm_compute; reflexivity].
  split; [vm_compute; reflexivity|]. split; [vm_compute; done|]. intros Hft. by vm_compute in Hft.
Qed.

Lemma inc_byte_array_adds_one_witness :
  bytes_ok [1; 255] ∧ be_value (inc_byte_array [1; 255]) = 512.
Proof.
  assert (H : bytes_ok [1; 255]) by (apply (bool_decide_unpack _); done).
  split; [exact H|]. apply (inc_byte_array_adds_one [1; 255] H).
Defined.

Lemma ptk_same_at_both_ends_witness :
  wpa_pmk_to_ptk (replicate 32 0x11) pairwise_key_expansion own ap s_nonce a_nonce ptk_zero
    WPA_KEY_MGMT_PSK WPA_CIPHER_CCMP [] 0 = Ret (0, ap_ptk).
Proof.
  rewrite (ptk_same_at_both_ends (replicate 32 0x11) pairwise_key_expansion ap own a_nonce s_nonce
    ptk_zero WPA_KEY_MGMT_PSK WPA_CIPHER_CCMP [] 0) by reflexivity.
  vm_compute. reflexivity.
Defined.

Lemma rx_eapol_safe_witness :
  sm_ok wpa2_sm ∧ clean_frame wpa2_sm msg1 ∧
  ∃ r w, wpa_sm_rx_eapol ap msg1 start = Ret (r, w) ∧ (r = 0 ∨ r = 1 ∨ r = -1) ∧ sm_ok (sm w).
Proof.
  split; [exact wpa2_sm_ok|]. split; [exact clean_msg1|].
  apply (rx_eapol_safe wpa2_sm [] ap msg1); [exact wpa2_sm_ok| | |apply frames_ok|exact clean_msg1];
    intros _; vm_compute; done.
Defined.

Lemma message_1_answered_witness :
  ∃ w, wpa_sm_rx_eapol ap (key_frame msg1_fields) start = Ret (1, w) ∧ anonce (sm w) = a_nonce.
Proof.
  destruct (message_1_answered ap msg1_fields wpa2_sm []) as (w & pre & E & Ha & _).
  - intros. by eexists.
  - exact wpa2_psk.
  - exact wpa2_sm_ok.
  - apply msg1_is.
  - exists w. split; [exact E|]. apply (an_anonce _ _ _ _ _ Ha).
Defined.

(** Message 3/4 again, after the handshake. *)
Lemma done_counter :
  bytes_ok (rx_replay_counter (sm done_world)) ∧ blen (rx_replay_counter (sm done_world)) = 8 ∧
  rx_replay_counter_set (sm done_world) = true ∧
  replay_value msg3 = Some (be_value (rx_replay_counter (sm done_world))).
Proof.
  split; [apply (bool_decide_unpack _); vm_compute; done|]. vm_compute. done.
Qed.
Definition replayed : world := world_after [msg3] done_world.
Lemma replayed_run : wpa_sm_rx_eapol ap msg3 done_world = Ret (-1, replayed).
Proof. vm_compute. reflexivity. Qed.

Lemma replay_protected_witness : wpa_sm_rx_eapol ap msg3 done_world = Ret (-1, replayed) ∧ ignored done_world replayed.
Proof.
  split; [exact replayed_run|]. destruct done_counter as (H1 & H2 & H3 & H4).
  apply (replay_protected ap msg3 done_world (-1) replayed (proj2 frames_ok) H1 H2 replayed_run) in H4;
    [apply H4|exact H3|reflexivity].
Defined.

(** The events of message 3/4 after those of message 1/4. *)
Definition new_events : list event := take (length (tr done_world) - length (tr waiting)) (tr done_world).
Lemma msg3_events : tr done_world = new_events ++ tr waiting ∧ RekeyOffload (take 16 (kek ap_ptk)) ap_kck (be64_bytes 2) ∈ new_events.
Proof. split; [vm_compute; reflexivity|]. vm_compute. left. Qed.
Lemma waiting_facts : is_rsn (sm waiting) = true ∧ reply_mic_len (sm waiting) ≠ 0 ∧
  mic_fits (sm waiting) (ptk (sm waiting)) ∧ mic_fits (sm waiting) (tptk (sm waiting)).
Proof. split; [vm_compute; reflexivity|]. split; [vm_compute; done|]. split; intros _; vm_compute; done. Qed.

Lemma keys_need_mic_witness :
  ∃ len b ki, slice msg3 0 len = Some b ∧ frame_key_info b = Some ki ∧
    any_of ki WPA_KEY_INFO_MIC = true ∧ authentic (sm waiting) (Z.land ki WPA_KEY_INFO_TYPE_MASK) b.
Proof.
  destruct waiting_facts as (H1 & H2 & H3 & H4). destruct msg3_events as [He Hin].
  exact (keys_need_mic ap msg3 waiting 1 done_world new_events _ waiting_ok H3 H4 (proj2 frames_ok) H1 H2
    msg3_run He Hin I).
Defined.

Lemma shake_run : sm_run [OpRxEapol ap msg1; OpRxEapol ap msg3; OpRxEapol ap msg3] start = Ret (tt, replayed).
Proof. vm_compute. reflexivity. Qed.

Lemma one_install : installs (tr replayed) = [tk_of ap_ptk].
Proof. vm_compute. reflexivity. Qed.

Lemma installs_use_own_nonce_witness :
  installs (tr replayed) = [tk_of ap_ptk] ∧
  ∃ used, used ⊆+ draws (tr replayed) ∧ Forall2 key_of_nonce (installs (tr replayed)) used.
Proof.
  split; [exact one_install|].
  apply (installs_use_own_nonce [OpRxEapol ap msg1; OpRxEapol ap msg3; OpRxEapol ap msg3] wpa2_sm tt replayed);
    [done|exact shake_run].
Defined.

(** Key data that fit the Beacon. *)
Definition good_kd : list Z := ap_rsne ++ gtk_kde.
Lemma good_kd_ok : bytes_ok good_kd ∧ vendor_selectors good_kd.
Proof. split; [apply (bool_decide_unpack _); vm_compute; done|]. apply check_vendors_sound. vm_compute. done. Qed.
Definition good_ie : wpa_eapol_ie_parse :=
  match wpa_parse_kde_ies good_kd (blen good_kd) with Some (_, ie) => ie | None => kde_zero end.
Lemma good_parsed : parsed_ok good_kd good_ie.
Proof.
  destruct good_kd_ok as [H1 H2]. destruct (parse_kde_ok good_kd H1 H2) as (r & ie & E & _ & Hp).
  unfold good_ie. by rewrite E.
Qed.
Lemma good_checked : wpa_supplicant_validate_ie good_kd good_ie start = Ret (0, start).
Proof. vm_compute. reflexivity. Qed.

Lemma validate_ie_exact_witness : elements_agree wpa2_sm good_kd good_ie.
Proof.
  destruct (validate_ie_exact good_kd good_ie start) as [[H _]|[_ H]].
  - apply good_kd_ok.
  - exact good_parsed.
  - reflexivity.
  - reflexivity.
  - right. by eexists.
  - exact H.
  - rewrite good_checked in H. discriminate H.
Defined.

(** ** Behaviour that the code's comments do not expect *)

(** A WPA (not RSN) association. *)
Definition ap_wpa : list Z :=
  [0xdd; 22; 0; 0x50; 0xf2; 1; 1; 0; 0; 0x50; 0xf2; 4; 1; 0; 0; 0x50; 0xf2; 4; 1; 0; 0; 0x50; 0xf2; 2].
Definition wpa1_sm : wpa_sm :=
  wpa2_sm <| proto := WPA_PROTO_WPA |> <| assoc_wpa_ie := Some ap_wpa |> <| assoc_wpa_ie_len := 24 |>
    <| ap_wpa_ie := Some ap_wpa |> <| ap_rsn_ie := None |> <| mgmt_group_cipher := 0 |>.
Definition wpa1_msg1 : list Z := frame 0x008a 16 1 a_nonce 254 (zeros 16) [].
Definition wpa1_msg3 : list Z :=
  match wpa_eapol_key_mic ap_kck WPA_KEY_MGMT_PSK 2 (frame 0x01ca 16 2 a_nonce 254 (zeros 16) ap_wpa) with
  | Ret (Some mic) => frame 0x01ca 16 2 a_nonce 254 mic ap_wpa
  | _ => []
  end.
Definition wpa1_done : world := world_after [wpa1_msg1; wpa1_msg3] (mk_world wpa1_sm []).

(** A frame without the MIC bit, with the bit of encrypted key data and the ANonce of the
    handshake. *)
Definition forged : list Z := frame 0x10ca 16 3 a_nonce 254 (zeros 16) (ap_wpa ++ gtk_kde).

(** C25: unauthenticated GTK.  With the WPA protocol a frame without a MIC and with the Encrypted Key Data bit is
    taken for message 3/4, and the GTK of its key data is installed. *)
Theorem wpa_unauthenticated_gtk :
  any_of 0x10ca WPA_KEY_INFO_MIC = false ∧ gtk (sm wpa1_done) = [] ∧
  ∃ w, wpa_sm_rx_eapol ap forged wpa1_done = Ret (1, w) ∧ gtk (sm w) = a_gtk ∧
    last (set_keys (tr w)) = Some (WPA_ALG_CCMP, 1, Some a_gtk).
Proof. split; [done|]. split; [vm_compute; done|]. eexists. split; [vm_compute; reflexivity|]. by vm_compute. Qed.

(** Dropping the SA and a new association forget the GTK and the IGTK, but not the BIGTK,
    so the BIGTK of the next association is not installed when it has the same octets. *)
Definition reassociated : world :=
  match run (sm_run [OpDisassoc; OpAssoc ap]) done_world with Ret (_, w) => w | _ => done_world end.
Example bigtk_survives :
  gtk (sm reassociated) = [] ∧ igtk (sm reassociated) = [] ∧ bigtk (sm reassociated) = a_bigtk ∧
  wpa_supplicant_install_bigtk ([6; 0] ++ zeros 6 ++ a_bigtk) false reassociated = Ret (0, reassociated).
Proof. by vm_compute. Qed.

(** Message 1/4 has no MIC, so anyone can send it: with a vendor-specific element that is
    shorter than its selector at the end of the key data it is read beyond the frame. *)
Example short_vendor_element_overreads :
  wpa_sm_rx_eapol ap (frame 0x008a 16 1 a_nonce 2 (zeros 16) [221; 1; 5]) start = Undef.
Proof. by vm_compute. Qed.

(** An allocation that fails leaves the length of the own element as it was. *)
Definition no_memory : wpa_env := {|
  env_malloc := λ _ _, false;
  env_random := @env_random toy_env;
  env_set_key := @env_set_key toy_env;
  env_ether_send := @env_ether_send toy_env;
  env_get_bssid := @env_get_bssid toy_env;
  env_get_state := @env_get_state toy_env;
  env_network_ctx := @env_network_ctx toy_env;
  env_bss := @env_bss toy_env;
  env_scan_results := @env_scan_results toy_env;
  env_eapol_key := @env_eapol_key toy_env;
  env_now := @env_now toy_env;
  env_preauth_bssid := @env_preauth_bssid toy_env;
  eapol_version := 1;
|}.
Example own_element_length_kept :
  ∃ w, wpa_sm_set_assoc_wpa_ie (E := no_memory) (Some ap_rsne) start = Ret (-1, w) ∧
    assoc_wpa_ie (sm w) = None ∧ assoc_wpa_ie_len (sm w) = 22 ∧
    wpa_sm_rx_eapol ap msg1 w = Undef.
Proof. eexists. split; [vm_compute; reflexivity|]. by vm_compute. Qed.
