(* ===== verification/AuthSm.v ===== *)
(** State of the authenticator (src/ap/wpa_auth.c, src/ap/wpa_auth_i.h)

    [wpa_authenticator] has the configuration, the group key state and the stations.  A
    pointer to a station is its number in [stas]; following the pointer of a freed
    station is [Undef].  [sta_list] is the list of hostapd_data that the callback
    [for_each_sta] walks.  The port is built with CONFIG_NO_VLAN, so that the group of
    every station is the group of the authenticator.

    A PMK is its octets in use; the length member is their number.  The handlers are in
    the monad [AM] over the authenticator and the trace of the calls that leave it, newest
    first; [auth_env] answers the calls and may look at the whole trace. *)
From S2P Require Import Prelude Bytes Defs Suites RsnIe Kde PmksaCache WpaKey WpaSm WpaHandshake.

(** ** Constants *)
Definition RSNA_MAX_EAPOL_RETRIES := 4%nat.
Definition WPA_GMK_LEN := 32.
Definition WPA_KEY_RSC_LEN := 8.
Definition WPA_GTK_MAX_LEN := 32.
Definition WPA_IGTK_MAX_LEN := 32.
Definition AES_BLOCK_SIZE := 16.
Definition eapol_key_timeout_first := 100.
Definition eapol_key_timeout_subseq := 1000.
Definition eapol_key_timeout_first_group := 500.
Definition eapol_key_timeout_no_retrans := 4000.
Definition KEY_FLAG_GROUP_TX_DEFAULT :=
  Z.lor (Z.lor KEY_FLAG_GROUP KEY_FLAG_TX) KEY_FLAG_DEFAULT.
Definition KEY_FLAG_PAIRWISE_RX_TX := Z.lor KEY_FLAG_PAIRWISE KEY_FLAG_RX_TX.
Definition KEY_FLAG_PAIRWISE_RX := Z.lor KEY_FLAG_PAIRWISE KEY_FLAG_RX.
Definition WLAN_REASON_PREV_AUTH_NOT_VALID := 2.
Definition WLAN_REASON_CLASS3_FRAME_FROM_NONASSOC_STA := 7.
Definition WLAN_REASON_4WAY_HANDSHAKE_TIMEOUT := 15.
Definition WLAN_REASON_GROUP_KEY_UPDATE_TIMEOUT := 16.
Definition WLAN_REASON_INVALID_PMKID := 49.
Definition FT_R1KH_ID_LEN := 6.
Definition FTIE_SUBELEM_R1KH_ID := 1.
Definition FTIE_SUBELEM_R0KH_ID := 3.

(** ** Data *)
Record wpa_auth_config := mk_conf {
  conf_wpa : Z;
  wpa_group : Z;
  wpa_group_rekey : Z;
  wpa_strict_rekey : bool;
  wpa_gmk_rekey : Z;
  conf_ptk_rekey : Z;
  conf_deny_ptk0_rekey : bool;
  wpa_group_update_count : Z;
  wpa_pairwise_update_count : Z;
  wpa_disable_eapol_key_retries : bool;
  conf_eapol_version : Z;
  tx_status : bool;
  ieee80211w : Z;
  conf_beacon_prot : bool;
  group_mgmt_cipher : Z;
  conf_ssid : list Z;
  conf_mobility_domain : list Z;
  r0_key_holder : list Z;
  r1_key_holder : list Z;
  r0_key_lifetime : Z;
  reassociation_deadline : Z;
  ft_psk_generate_local : bool;
  disable_gtk : bool;
  conf_secure_ltf : bool;
  conf_transition_disable : Z;
  conf_dpp_pfs : Z;
  conf_force_kdk : bool;
}.

Inductive ptk_state :=
| WPA_PTK_INITIALIZE | WPA_PTK_DISCONNECT | WPA_PTK_DISCONNECTED | WPA_PTK_AUTHENTICATION
| WPA_PTK_AUTHENTICATION2 | WPA_PTK_INITPMK | WPA_PTK_INITPSK | WPA_PTK_PTKSTART
| WPA_PTK_PTKCALCNEGOTIATING | WPA_PTK_PTKCALCNEGOTIATING2 | WPA_PTK_PTKINITNEGOTIATING
| WPA_PTK_PTKINITDONE.
#[export] Instance ptk_state_eq_dec : EqDecision ptk_state.
Proof. solve_decision. Defined.

Inductive ptk_group_state :=
| WPA_PTK_GROUP_IDLE | WPA_PTK_GROUP_REKEYNEGOTIATING | WPA_PTK_GROUP_REKEYESTABLISHED
| WPA_PTK_GROUP_KEYERROR.
#[export] Instance ptk_group_state_eq_dec : EqDecision ptk_group_state.
Proof. solve_decision. Defined.

Inductive group_state :=
| WPA_GROUP_GTK_INIT | WPA_GROUP_SETKEYS | WPA_GROUP_SETKEYSDONE | WPA_GROUP_FATAL_FAILURE.
#[export] Instance group_state_eq_dec : EqDecision group_state.
Proof. solve_decision. Defined.

Inductive wpa_version := WPA_VERSION_NO_WPA | WPA_VERSION_WPA | WPA_VERSION_WPA2.
#[export] Instance wpa_version_eq_dec : EqDecision wpa_version.
Proof. solve_decision. Defined.

Record wpa_key_replay_counter := mk_counter { counter : list Z; valid : bool }.
Definition zero_counter : wpa_key_replay_counter :=
  mk_counter (zeros WPA_REPLAY_COUNTER_LEN) false.
Definition zero_counters : list wpa_key_replay_counter := replicate RSNA_MAX_EAPOL_RETRIES zero_counter.

(** What the authenticator reads of an entry of its PMKSA cache. *)
Record auth_pmksa := mk_auth_pmksa { ap_pmk : list Z; ap_pmkid : list Z }.

(** struct wpa_state_machine.  [eapol_timers] are the timeouts in milliseconds registered
    for [wpa_send_eapol_timeout], [ptk_rekey_timer] and [call_step_timers] those for
    [wpa_rekey_ptk] and [wpa_sm_call_step]. *)
Record wpa_state_machine := mk_sta {
  sta_addr : list Z;
  wpa_ptk_state : ptk_state;
  wpa_ptk_group_state : ptk_group_state;
  Init : bool;
  DeauthenticationRequest : bool;
  AuthenticationRequest : bool;
  ReAuthenticationRequest : bool;
  Disconnect : bool;
  disconnect_reason : Z;
  TimeoutCtr : Z;
  GTimeoutCtr : Z;
  TimeoutEvt : bool;
  EAPOLKeyReceived : bool;
  EAPOLKeyPairwise : bool;
  EAPOLKeyRequest : bool;
  MICVerified : bool;
  GUpdateStationKeys : bool;
  ANonce : list Z;
  SNonce : list Z;
  alt_SNonce : list Z;
  alt_replay_counter : list Z;
  PMK : list Z;
  sta_pmkid : option (list Z);
  PTK : wpa_ptk;
  sta_keyidx_active : Z;
  sta_use_ext_key_id : bool;
  PTK_valid : bool;
  pairwise_set : bool;
  tk_already_set : bool;
  Pair : bool;
  key_replay : list wpa_key_replay_counter;
  prev_key_replay : list wpa_key_replay_counter;
  PInitAKeys : bool;
  PTKRequest : bool;
  has_GTK : bool;
  PtkGroupInit : bool;
  last_rx_eapol_key : option (list Z);
  changed : bool;
  in_step_loop : bool;
  pending_deinit : bool;
  started : bool;
  mgmt_frame_prot : bool;
  rx_eapol_key_secure : bool;
  update_snonce : bool;
  alt_snonce_valid : bool;
  sta_ft_completed : bool;
  is_wnmsleep : bool;
  req_replay_counter : list Z;
  req_replay_counter_used : bool;
  sta_wpa_ie : option (list Z);
  sta_rsnxe : option (list Z);
  wpa : wpa_version;
  sta_pairwise : Z;
  wpa_key_mgmt : Z;
  sta_pmksa : option auth_pmksa;
  remote_mic_failures : Z;
  sta_xxkey : list Z;
  sta_pmk_r1 : list Z;
  sta_pmk_r1_name : list Z;
  sup_pmk_r1_name : list Z;
  assoc_resp_ftie : option (list Z);
  pending_1_of_4_timeout : bool;
  sta_dpp_z : option (list Z);
  eapol_timers : list Z;
  ptk_rekey_timer : bool;
  call_step_timers : nat;
}.
#[export] Instance eta_sta : Eta wpa_state_machine := λ s,
  mk_sta (sta_addr s) (wpa_ptk_state s) (wpa_ptk_group_state s) (Init s)
    (DeauthenticationRequest s) (AuthenticationRequest s) (ReAuthenticationRequest s)
    (Disconnect s) (disconnect_reason s) (TimeoutCtr s) (GTimeoutCtr s) (TimeoutEvt s)
    (EAPOLKeyReceived s) (EAPOLKeyPairwise s) (EAPOLKeyRequest s) (MICVerified s)
    (GUpdateStationKeys s) (ANonce s) (SNonce s) (alt_SNonce s) (alt_replay_counter s) (PMK s)
    (sta_pmkid s) (PTK s) (sta_keyidx_active s) (sta_use_ext_key_id s) (PTK_valid s)
    (pairwise_set s) (tk_already_set s) (Pair s) (key_replay s) (prev_key_replay s)
    (PInitAKeys s) (PTKRequest s) (has_GTK s) (PtkGroupInit s) (last_rx_eapol_key s) (changed s)
    (in_step_loop s) (pending_deinit s) (started s) (mgmt_frame_prot s) (rx_eapol_key_secure s)
    (update_snonce s) (alt_snonce_valid s) (sta_ft_completed s) (is_wnmsleep s)
    (req_replay_counter s) (req_replay_counter_used s) (sta_wpa_ie s) (sta_rsnxe s) (wpa s)
    (sta_pairwise s) (wpa_key_mgmt s) (sta_pmksa s) (remote_mic_failures s) (sta_xxkey s)
    (sta_pmk_r1 s) (sta_pmk_r1_name s) (sup_pmk_r1_name s) (assoc_resp_ftie s)
    (pending_1_of_4_timeout s) (sta_dpp_z s) (eapol_timers s) (ptk_rekey_timer s)
    (call_step_timers s).

(** After [os_zalloc] and the assignments of [wpa_auth_sta_init]. *)
Definition new_sta (addr : list Z) : wpa_state_machine :=
  mk_sta addr WPA_PTK_INITIALIZE WPA_PTK_GROUP_IDLE false false false false false 0 0 0 false
    false false false false false (zeros 32) (zeros 32) (zeros 32) (zeros 8) [] None ptk_zero 0
    false false false false false zero_counters zero_counters false false false false None false
    false false false false false false false false false (zeros 8) false None None
    WPA_VERSION_NO_WPA 0 0 None 0 [] [] (zeros 16) (zeros 16) None false None [] false 0.

Record wpa_group_data := mk_group {
  GInit : bool;
  GKeyDoneStations : Z;
  GTKReKey : bool;
  GTK_len : Z;
  GN : Z;
  GM : Z;
  GTKAuthenticator : bool;
  Counter : list Z;
  wpa_group_state : group_state;
  GMK : list Z;
  GTK : list (list Z);
  GNonce : list Z;
  group_changed : bool;
  first_sta_seen : bool;
  reject_4way_hs_for_entropy : bool;
  IGTK : list (list Z);
  BIGTK : list (list Z);
  GN_igtk : Z;
  GM_igtk : Z;
  GN_bigtk : Z;
  GM_bigtk : Z;
}.
#[export] Instance eta_group : Eta wpa_group_data := λ g,
  mk_group (GInit g) (GKeyDoneStations g) (GTKReKey g) (GTK_len g) (GN g) (GM g)
    (GTKAuthenticator g) (Counter g) (wpa_group_state g) (GMK g) (GTK g) (GNonce g)
    (group_changed g) (first_sta_seen g) (reject_4way_hs_for_entropy g) (IGTK g) (BIGTK g)
    (GN_igtk g) (GM_igtk g) (GN_bigtk g) (GM_bigtk g).

Definition zero_keys : list (list Z) := replicate 2 (zeros WPA_GTK_MAX_LEN).
Definition zero_group : wpa_group_data :=
  mk_group false 0 false 0 0 0 false (zeros WPA_NONCE_LEN) WPA_GROUP_GTK_INIT (zeros WPA_GMK_LEN)
    zero_keys (zeros WPA_NONCE_LEN) false false false zero_keys zero_keys 0 0 0 0.

(** [gtk_rekey_timers] counts the registered timeouts for [wpa_rekey_gtk],
    [gmk_rekey_timers] those for [wpa_rekey_gmk]. *)
Record wpa_authenticator := mk_auth {
  conf : wpa_auth_config;
  auth_addr : list Z;
  auth_ie : list Z;
  group : wpa_group_data;
  handshake_4way_failures : Z;
  auth_mic_failures : Z;
  gtk_rekey_timers : nat;
  gmk_rekey_timers : nat;
  stas : gmap nat wpa_state_machine;
  sta_list : list nat;
  next_sta : nat;
}.
#[export] Instance eta_auth : Eta wpa_authenticator := λ a,
  mk_auth (conf a) (auth_addr a) (auth_ie a) (group a) (handshake_4way_failures a)
    (auth_mic_failures a) (gtk_rekey_timers a) (gmk_rekey_timers a) (stas a) (sta_list a)
    (next_sta a).

(** ** Calls that leave the authenticator *)
Inductive eapol_variable :=
| EAPOL_portEnabled | EAPOL_portValid | EAPOL_authorized | EAPOL_portControl_Auto
| EAPOL_keyRun | EAPOL_keyAvailable | EAPOL_keyDone | EAPOL_inc_EapolFramesTx.

Record auth_key := mk_auth_key {
  ak_alg : wpa_alg;
  ak_addr : list Z;
  ak_idx : Z;
  ak_key : option (list Z);
  ak_flag : Z;
}.

Inductive aevent :=
| AMalloc (n : Z) (ok : bool)
| ARandom (n : Z) (r : option (list Z))
| ASetKey (k : auth_key) (res : Z)
| AGetSeqnum (idx : Z) (r : option (list Z))
| ASendEapol (addr data : list Z) (encrypt : bool)
| ASetEapol (addr : list Z) (var : eapol_variable) (value : Z)
| AGetEapol (addr : list Z) (var : eapol_variable) (value : Z)
| AGetMsk (addr : list Z) (msk : option (list Z))
| AGetPsk (addr : list Z)
| AUpdateVlan (addr : list Z) (vlan res : Z)
| ADisconnect (addr : list Z) (reason : Z)
| AMicFailure (addr : list Z) (res : Z)
| APskFailure (addr : list Z)
| AFtGetVlan (addr : list Z) (ok : bool)
| AStorePmkR0 (addr pmk_r0 name : list Z)
| AStorePmkR1 (addr pmk_r1 name : list Z)
| APushPmkR1 (addr : list Z).

Class auth_env := {
  aenv_malloc : list aevent → Z → bool;
  aenv_random : list aevent → Z → option (list Z);
  aenv_ntp : list aevent → list Z;
  group_ptr : list Z;
  aenv_set_key : list aevent → auth_key → Z;
  aenv_seqnum : list aevent → Z → option (list Z);
  aenv_eapol : list aevent → list Z → eapol_variable → Z;
  aenv_msk : list aevent → list Z → option (list Z);
  aenv_psks : list aevent → list Z → list (list Z * Z);
  aenv_update_vlan : list aevent → list Z → Z → Z;
  aenv_mic_failure : list aevent → list Z → Z;
  aenv_ft_vlan : list aevent → list Z → bool;
}.

(** [aes_wrap] of the crypto library: key, number of 64-bit blocks, plaintext. *)
Class auth_crypto := { aes_wrap : list Z → Z → list Z → option (list Z) }.

(** ** The monad *)
Record aworld := mk_aworld { au : wpa_authenticator; atr : list aevent }.

Definition AM (A : Type) : Type := aworld → outcome (A * aworld).
#[export] Instance AM_ret : MRet AM := λ A a w, Ret (a, w).
#[export] Instance AM_bind : MBind AM := λ A B f m w,
  match m w with Ret (a, w') => f a w' | Abort => Abort | Undef => Undef end.

Definition get_au : AM wpa_authenticator := λ w, Ret (au w, w).
Definition upd_au (f : wpa_authenticator → wpa_authenticator) : AM unit := λ w,
  Ret (tt, mk_aworld (f (au w)) (atr w)).
Definition note (e : aevent) : AM unit := λ w, Ret (tt, mk_aworld (au w) (e :: atr w)).
Definition query {A} (f : list aevent → A) : AM A := λ w, Ret (f (atr w), w).
Definition liftA {A} (o : outcome A) : AM A := λ w,
  match o with Ret a => Ret (a, w) | Abort => Abort | Undef => Undef end.
Definition accA {A} (o : option A) : AM A := liftA (access o).

Definition get_conf : AM wpa_auth_config := a ← get_au; mret (conf a).
Definition get_group : AM wpa_group_data := a ← get_au; mret (group a).
Definition upd_group (f : wpa_group_data → wpa_group_data) : AM unit := upd_au (λ a, a <| group ::= f |>).

(** [*sm] *)
Definition get_sta (id : nat) : AM wpa_state_machine := a ← get_au; accA (stas a !! id).
Definition upd_sta (id : nat) (f : wpa_state_machine → wpa_state_machine) : AM unit :=
  s ← get_sta id; upd_au (λ a, a <| stas ::= <[id := f s]> |>).

Section calls.
Context `{E : auth_env}.

Definition amalloc (n : Z) : AM bool :=
  ok ← query (λ t, aenv_malloc t n); _ ← note (AMalloc n ok); mret ok.
Definition arandom (n : Z) : AM (option (list Z)) :=
  r ← query (λ t, aenv_random t n); _ ← note (ARandom n r); mret r.
Definition wpa_auth_set_key (k : auth_key) : AM Z :=
  res ← query (λ t, aenv_set_key t k); _ ← note (ASetKey k res); mret res.
Definition wpa_auth_get_seqnum (idx : Z) : AM (option (list Z)) :=
  r ← query (λ t, aenv_seqnum t idx); _ ← note (AGetSeqnum idx r); mret r.
Definition wpa_auth_set_eapol (addr : list Z) (var : eapol_variable) (value : Z) : AM unit :=
  note (ASetEapol addr var value).
Definition wpa_auth_get_eapol (addr : list Z) (var : eapol_variable) : AM Z :=
  v ← query (λ t, aenv_eapol t addr var); _ ← note (AGetEapol addr var v); mret v.
Definition wpa_auth_get_msk (addr : list Z) : AM (option (list Z)) :=
  r ← query (λ t, aenv_msk t addr); _ ← note (AGetMsk addr r); mret r.
(** The PSKs that successive calls of [wpa_auth_get_psk] return, with their VLAN IDs. *)
Definition wpa_auth_get_psks (addr : list Z) : AM (list (list Z * Z)) :=
  r ← query (λ t, aenv_psks t addr); _ ← note (AGetPsk addr); mret r.
Definition wpa_auth_update_vlan (addr : list Z) (vlan : Z) : AM Z :=
  res ← query (λ t, aenv_update_vlan t addr vlan); _ ← note (AUpdateVlan addr vlan res); mret res.
Definition wpa_auth_mic_failure_report (addr : list Z) : AM Z :=
  res ← query (λ t, aenv_mic_failure t addr); _ ← note (AMicFailure addr res); mret res.
Definition wpa_auth_send_eapol (addr data : list Z) (encrypt : bool) : AM unit :=
  note (ASendEapol addr data encrypt).
Definition wpa_ft_get_vlan (addr : list Z) : AM bool :=
  ok ← query (λ t, aenv_ft_vlan t addr); _ ← note (AFtGetVlan addr ok); mret ok.

(** ** Timers *)
Definition cancel_eapol_timeout (id : nat) : AM unit := upd_sta id (λ s, s <| eapol_timers := [] |>).
Definition register_eapol_timeout (id : nat) (ms : Z) : AM unit :=
  upd_sta id (λ s, s <| eapol_timers ::= cons ms |>).
Definition wpa_auth_set_ptk_rekey_timer (id : nat) : AM unit :=
  c ← get_conf;
  if bool_decide (conf_ptk_rekey c ≠ 0) then upd_sta id (λ s, s <| ptk_rekey_timer := true |>)
  else mret tt.
End calls.
