(* ===== verification/AuthSend.v ===== *)
(** Frames and keys of the authenticator (src/ap/wpa_auth.c, wpa_auth_ft.c, wpa_auth_ie.c)

    Sending EAPOL-Key frames, the MIC of received ones, the PTK, the group keys and the key
    data of messages 3/4 and 1/2. *)
From Stdlib Require Import Ascii String.
From Stdlib Require Import List.
From S2P Require Import Prelude Bytes Defs Suites RsnIe Kde PmksaCache WpaKey WpaSm WpaHandshake AuthSm.

Section send.
Context `{C : wpa_crypto} `{X : auth_crypto} `{E : auth_env}.

(** ** Sending *)
Definition key_version (s : wpa_state_machine) : Z :=
  if wpa_use_akm_defined (wpa_key_mgmt s) then WPA_KEY_INFO_TYPE_AKM_DEFINED
  else if wpa_use_cmac (wpa_key_mgmt s) then WPA_KEY_INFO_TYPE_AES_128_CMAC
  else if bool_decide (sta_pairwise s ≠ WPA_CIPHER_TKIP) then WPA_KEY_INFO_TYPE_HMAC_SHA1_AES
  else WPA_KEY_INFO_TYPE_HMAC_MD5_RC4.
Definition sta_mic_len (s : wpa_state_machine) : Z := wpa_mic_len (wpa_key_mgmt s) (blen (PMK s)).
Definition is_wpa2 (s : wpa_state_machine) : bool := bool_decide (wpa s = WPA_VERSION_WPA2).

(** Whether the key data is wrapped, else it is encrypted with RC4. *)
Definition use_wrap (s : wpa_state_machine) (version : Z) : bool :=
  bool_decide (version = WPA_KEY_INFO_TYPE_HMAC_SHA1_AES) || wpa_use_aes_key_wrap (wpa_key_mgmt s) ||
  bool_decide (version = WPA_KEY_INFO_TYPE_AES_128_CMAC).

Definition wrap_pad (kde_len : Z) : Z := if bool_decide (kde_len mod 8 ≠ 0) then 8 - kde_len mod 8 else 0.

(** The new replay counter: the older ones move up. *)
Definition push_counter (l : list wpa_key_replay_counter) : list wpa_key_replay_counter :=
  match l with
  | c :: _ => mk_counter (inc_byte_array (counter c)) true :: take (length l - 1) l
  | [] => []
  end.

(** The fields before the key data; [msg] is the zeroed buffer. *)
Definition fill_key_header (s : wpa_state_machine) (c : wpa_auth_config) (key_info : Z)
    (replay : list Z) (nonce key_rsc : option (list Z)) (msg : list Z) : option (list Z) :=
  let pairwise := any_of key_info WPA_KEY_INFO_KEY_TYPE in
  msg ← wr msg off_type (if is_wpa2 s then EAPOL_KEY_TYPE_RSN else EAPOL_KEY_TYPE_WPA);
  msg ← WPA_PUT_BE16 msg off_key_info key_info;
  msg ← WPA_PUT_BE16 msg off_key_length
          (if is_wpa2 s && negb pairwise then 0
           else wpa_cipher_key_len (if pairwise then sta_pairwise s else wpa_group c));
  msg ← blit msg off_replay replay;
  msg ← match nonce with Some n => blit msg off_nonce n | None => Some msg end;
  match key_rsc with Some r => blit msg off_rsc r | None => Some msg end.

Definition put_key_data (mic_len : Z) (data : list Z) (len : Z) (msg : list Z) : option (list Z) :=
  msg ← blit msg (off_mic + mic_len + 2) data; WPA_PUT_BE16 msg (off_mic + mic_len) len.

(** The zeroed buffer of the plaintext with the KDEs and the padding. *)
Definition plain_key_data (kde : list Z) (pad key_data_len : Z) : option (list Z) :=
  buf ← blit (zeros key_data_len) 0 kde;
  if bool_decide (pad ≠ 0) then wr buf (blen kde) 0xdd else Some buf.

(** [None] is an early return: nothing is sent. *)
Definition encrypt_key_data (id : nat) (version mic_len : Z) (kde : list Z) (pad key_data_len : Z)
    (msg : list Z) : AM (option (list Z)) :=
  ok ← amalloc key_data_len;
  if negb ok then mret None
  else
    s ← get_sta id;
    buf ← accA (plain_key_data kde pad key_data_len);
    k ← accA (slice (kek (PTK s)) 0 (kek_len (PTK s)));
    if use_wrap s version then
      let n := (key_data_len - 8) / 8 in
      plain ← accA (slice buf 0 (8 * n));
      match aes_wrap k n plain with
      | None => mret None
      | Some cipher => msg ← accA (put_key_data mic_len cipher key_data_len msg); mret (Some msg)
      end
    else if bool_decide (kek_len (PTK s) = 16) then
      g ← get_group;
      iv ← accA (slice (Counter g) (WPA_NONCE_LEN - 16) 16);
      msg ← accA (blit msg off_iv iv);
      _ ← upd_group (λ g, g <| Counter ::= inc_byte_array |>);
      msg ← accA (put_key_data mic_len (default buf (rc4_skip (iv ++ k) 256 buf)) key_data_len msg);
      mret (Some msg)
    else mret None.

Definition sign_frame (id : nat) (version mic_len : Z) (msg : list Z) : AM (option (list Z)) :=
  s ← get_sta id;
  if negb (PTK_valid s) || bool_decide (mic_len = 0) then mret None
  else
    k ← accA (slice (kck (PTK s)) 0 (kck_len (PTK s)));
    mic ← liftA (wpa_eapol_key_mic k (wpa_key_mgmt s) version msg);
    match mic with
    | None => mret None
    | Some mic => msg ← accA (blit msg off_mic mic); mret (Some msg)
    end.

Definition transmit (id : nat) (msg : option (list Z)) : AM unit :=
  match msg with
  | None => mret tt
  | Some msg =>
      s ← get_sta id;
      _ ← wpa_auth_set_eapol (sta_addr s) EAPOL_inc_EapolFramesTx 1;
      wpa_auth_send_eapol (sta_addr s) msg (pairwise_set s)
  end.

(** [force_version] is 0 in the calls of the program. *)
Definition send_eapol (id : nat) (key_info : Z) (key_rsc nonce kde : option (list Z)) (keyidx : Z)
    (encr : bool) : AM unit :=
  c ← get_conf;
  s ← get_sta id;
  let mic_len := sta_mic_len s in
  let version := key_version s in
  let kde_len := match kde with Some k => blen k | None => 0 end in
  let wrapped := use_wrap s version && encr in
  let pad := if wrapped then wrap_pad kde_len else 0 in
  let key_data_len := kde_len + (if wrapped then pad + 8 else 0) in
  let len := sizeof_hdr + (sizeof_key + mic_len + 2) + key_data_len +
             (if bool_decide (mic_len = 0) && encr then AES_BLOCK_SIZE else 0) in
  ok ← amalloc len;
  if negb ok then mret tt
  else
    let key_info := Z.lor key_info version in
    let key_info := or_if (encr && is_wpa2 s) WPA_KEY_INFO_ENCR_KEY_DATA key_info in
    let key_info := or_if (negb (is_wpa2 s)) (Z.shiftl keyidx WPA_KEY_INFO_KEY_INDEX_SHIFT) key_info in
    _ ← upd_sta id (λ s, s <| key_replay ::= push_counter |>);
    s ← get_sta id;
    replay ← accA (counter <$> head (key_replay s));
    let msg := [conf_eapol_version c; IEEE802_1X_TYPE_EAPOL_KEY] ++ be16_bytes (len - sizeof_hdr) ++
               zeros (len - sizeof_hdr) in
    msg ← accA (fill_key_header s c key_info replay nonce key_rsc msg);
    msg ← match kde with
          | None => mret (Some msg)
          | Some kde =>
              if encr then encrypt_key_data id version mic_len kde pad key_data_len msg
              else msg ← accA (put_key_data mic_len kde kde_len msg); mret (Some msg)
          end;
    match msg with
    | None => mret tt
    | Some msg =>
        msg ← (if any_of key_info WPA_KEY_INFO_MIC then sign_frame id version mic_len msg
               else mret (Some msg));
        transmit id msg
    end.

Definition eapol_timeout_ms (c : wpa_auth_config) (key_info ctr : Z) : Z :=
  let pairwise := any_of key_info WPA_KEY_INFO_KEY_TYPE in
  if wpa_disable_eapol_key_retries c && (negb pairwise || any_of key_info WPA_KEY_INFO_MIC)
  then eapol_key_timeout_no_retrans
  else if bool_decide (ctr = 1) && tx_status c
  then (if pairwise then eapol_key_timeout_first else eapol_key_timeout_first_group)
  else eapol_key_timeout_subseq.

Definition wpa_send_eapol (id : nat) (key_info : Z) (key_rsc nonce kde : option (list Z))
    (keyidx : Z) (encr : bool) : AM unit :=
  _ ← send_eapol id key_info key_rsc nonce kde keyidx encr;
  c ← get_conf;
  s ← get_sta id;
  let pairwise := any_of key_info WPA_KEY_INFO_KEY_TYPE in
  let ctr := if pairwise then TimeoutCtr s else GTimeoutCtr s in
  _ ← (if pairwise && bool_decide (ctr = 1) && negb (any_of key_info WPA_KEY_INFO_MIC)
       then upd_sta id (λ s, s <| pending_1_of_4_timeout := true |>) else mret tt);
  register_eapol_timeout id (eapol_timeout_ms c key_info ctr).

(** ** The MIC of a received frame

    The MIC is computed over the frame with a zeroed MIC field, into that field, and all
    of the field is compared. *)
Definition wpa_verify_key_mic (akmp pmk_len : Z) (ptk : wpa_ptk) (data : list Z) : outcome Z :=
  let mic_len := wpa_mic_len akmp pmk_len in
  if bool_decide (blen data < sizeof_hdr + sizeof_key) then Ret (-1)
  else
    key_info ← access (frame_key_info data);
    mic ← access (slice data off_mic mic_len);
    zeroed ← access (blit data off_mic (zeros mic_len));
    k ← access (slice (kck ptk) 0 (kck_len ptk));
    m ← wpa_eapol_key_mic k akmp (Z.land key_info WPA_KEY_INFO_TYPE_MASK) zeroed;
    match m with
    | None => Ret (-1)
    | Some m =>
        written ← access (blit zeroed off_mic m);
        mic' ← access (slice written off_mic mic_len);
        Ret (if bool_decide (mic = mic') then 0 else -1)
    end.

(** ** The PTK *)
Definition auth_kdk_len (c : wpa_auth_config) (s : wpa_state_machine) : option Z :=
  if conf_force_kdk c then Some WPA_KDK_MAX_LEN
  else if conf_secure_ltf c then
    r ← ieee802_11_rsnx_capab (sta_rsnxe s) WLAN_RSNX_CAPAB_SECURE_LTF;
    Some (if r : bool then WPA_KDK_MAX_LEN else 0)
  else Some 0.

(** [wpa_auth_derive_ptk_ft] of wpa_auth_ft.c; the PMK-R0 and PMK-R1 caches, the identity
    and the session timeout that are stored with them are outside. *)
Definition wpa_auth_derive_ptk_ft (id : nat) (keys : wpa_ptk) : AM (Z * wpa_ptk) :=
  a ← get_au;
  s ← get_sta id;
  let c := conf a in
  let sha384 := wpa_key_mgmt_sha384 (wpa_key_mgmt s) in
  let store := negb (ft_psk_generate_local c) || negb (wpa_key_mgmt_ft_psk (wpa_key_mgmt s)) in
  match (if bool_decide (sta_xxkey s ≠ []) then Some (sta_xxkey s) else ap_pmk <$> sta_pmksa s) with
  | None => mret (-1, keys)
  | Some mpmk =>
      vlan ← wpa_ft_get_vlan (sta_addr s);
      if negb vlan then mret (-1, keys)
      else
        r0 ← liftA (wpa_derive_pmk_r0 mpmk (conf_ssid c) (conf_mobility_domain c) (r0_key_holder c)
                     (sta_addr s) sha384);
        match r0 with
        | (Some pmk_r0, Some name) =>
            _ ← (if store then note (AStorePmkR0 (sta_addr s) pmk_r0 name) else mret tt);
            r1 ← liftA (wpa_derive_pmk_r1 pmk_r0 name (r1_key_holder c) (sta_addr s));
            _ ← upd_sta id (λ s, s <| sta_pmk_r1_name ::= λ n, default n (snd r1) |>);
            match r1 with
            | (Some pmk_r1, Some name) =>
                _ ← (if store then note (AStorePmkR1 (sta_addr s) pmk_r1 name) else mret tt);
                liftA (wpa_pmk_r1_to_ptk pmk_r1 (SNonce s) (ANonce s) (sta_addr s) (auth_addr a) name
                         keys (wpa_key_mgmt s) (sta_pairwise s) 0)
            | _ => mret (-1, keys)
            end
        | _ => mret (-1, keys)
        end
  end.

(** [force_sha256] is a workaround of OWE, which is not built. *)
Definition auth_derive_ptk (id : nat) (snonce' pmk' : list Z) (keys : wpa_ptk) : AM (Z * wpa_ptk) :=
  a ← get_au;
  s ← get_sta id;
  kdk ← accA (auth_kdk_len (conf a) s);
  if wpa_key_mgmt_ft (wpa_key_mgmt s) then
    if sta_ft_completed s then
      liftA (wpa_pmk_r1_to_ptk (sta_pmk_r1 s) (SNonce s) (ANonce s) (sta_addr s) (auth_addr a)
               (sta_pmk_r1_name s) keys (wpa_key_mgmt s) (sta_pairwise s) kdk)
    else wpa_auth_derive_ptk_ft id keys
  else
    let z := if bool_decide (wpa_key_mgmt s = WPA_KEY_MGMT_DPP) then default [] (sta_dpp_z s) else [] in
    liftA (wpa_pmk_to_ptk pmk' pairwise_key_expansion (auth_addr a) (sta_addr s) (ANonce s) snonce'
             keys (wpa_key_mgmt s) (sta_pairwise s) z kdk).

(** The stored PTK of the PASN module is not built, so that nothing is removed from it. *)
Definition wpa_remove_ptk (id : nat) : AM unit :=
  _ ← upd_sta id (λ s, s <| PTK_valid := false |> <| PTK := ptk_zero |>);
  s ← get_sta id;
  _ ← wpa_auth_set_key (mk_auth_key WPA_ALG_NONE (sta_addr s) 0 None KEY_FLAG_PAIRWISE);
  _ ← (if sta_use_ext_key_id s
       then wpa_auth_set_key (mk_auth_key WPA_ALG_NONE (sta_addr s) 1 None KEY_FLAG_PAIRWISE)
       else mret 0);
  upd_sta id (λ s, s <| pairwise_set := false |> <| ptk_rekey_timer := false |>).

(** ** Group keys *)
Definition init_counter : string := "Init Counter".
Definition group_key_expansion : string := "Group key expansion".
Definition igtk_key_expansion : string := "IGTK key expansion".
Definition bigtk_key_expansion : string := "BIGTK key expansion".

(** [group_ptr] has the octets of the address of the group. *)
Definition wpa_group_init_gmk_and_counter : AM Z :=
  r ← arandom WPA_GMK_LEN;
  match r with
  | None => mret (-1)
  | Some gmk =>
      _ ← upd_group (λ g, g <| GMK := gmk |>);
      a ← get_au;
      time ← query aenv_ntp;
      rkey ← arandom 32;
      match rkey with
      | None => mret (-1)
      | Some rkey =>
          match sha1_prf rkey init_counter (auth_addr a ++ time ++ group_ptr) WPA_NONCE_LEN with
          | None => mret (-1)
          | Some counter => _ ← upd_group (λ g, g <| Counter := counter |>); mret 0
          end
      end
  end.

(** The return value, and the octets written to [gtk]. *)
Definition wpa_gmk_to_gtk (label : string) (len : Z) : AM (Z * option (list Z)) :=
  a ← get_au;
  time ← query aenv_ntp;
  r ← arandom len;
  let random := default (zeros len) r in
  let data := auth_addr a ++ GNonce (group a) ++ time ++ random in
  match sha384_prf (GMK (group a)) label (data ++ zeros (6 + 32 + 8 + WPA_GTK_MAX_LEN - blen data)) len with
  | None => mret (-1, None)
  | Some key => mret (if bool_decide (r = None) then -1 else 0, Some key)
  end.

(** [keys[idx]] after [key] was written to its start. *)
Definition put_key (keys : list (list Z)) (idx : Z) (key : option (list Z)) : option (list (list Z)) :=
  old ← rd keys idx; new ← put_array old key; wr keys idx new.

Definition next_gnonce : AM unit :=
  upd_group (λ g, g <| GNonce := Counter g |> <| Counter ::= inc_byte_array |>).

Definition uses_igtk (c : wpa_auth_config) : bool := bool_decide (ieee80211w c ≠ 0).
Definition mgmt_key_len (c : wpa_auth_config) : Z := wpa_cipher_key_len (group_mgmt_cipher c).

Definition wpa_gtk_update : AM Z :=
  c ← get_conf;
  _ ← next_gnonce;
  g ← get_group;
  '(r1, key) ← wpa_gmk_to_gtk group_key_expansion (GTK_len g);
  keys ← accA (put_key (GTK g) (GN g - 1) key);
  _ ← upd_group (λ g, g <| GTK := keys |>);
  r2 ← (if uses_igtk c then
          _ ← next_gnonce;
          '(r, key) ← wpa_gmk_to_gtk igtk_key_expansion (mgmt_key_len c);
          keys ← accA (put_key (IGTK g) (GN_igtk g - 4) key);
          _ ← upd_group (λ g, g <| IGTK := keys |>); mret r
        else mret 0);
  r3 ← (if uses_igtk c && conf_beacon_prot c then
          _ ← next_gnonce;
          '(r, key) ← wpa_gmk_to_gtk bigtk_key_expansion (mgmt_key_len c);
          keys ← accA (put_key (BIGTK g) (GN_bigtk g - 6) key);
          _ ← upd_group (λ g, g <| BIGTK := keys |>); mret r
        else mret 0);
  mret (if bool_decide (r1 = 0 ∧ r2 = 0 ∧ r3 = 0) then 0 else -1).

Definition key_of (keys : list (list Z)) (idx len : Z) : option (list Z) :=
  k ← rd keys idx; slice k 0 len.

Definition set_group_key (alg : wpa_alg) (idx : Z) (key : list Z) : AM bool :=
  res ← wpa_auth_set_key (mk_auth_key alg broadcast_ether_addr idx (Some key) KEY_FLAG_GROUP_TX_DEFAULT);
  mret (bool_decide (0 ≤ res)).

Definition wpa_group_config_group_keys : AM Z :=
  c ← get_conf;
  g ← get_group;
  k ← accA (key_of (GTK g) (GN g - 1) (GTK_len g));
  ok ← set_group_key (wpa_cipher_to_alg (wpa_group c)) (GN g) k;
  let alg := wpa_cipher_to_alg (group_mgmt_cipher c) in
  ok ← (if uses_igtk c && ok then
          k ← accA (key_of (IGTK g) (GN_igtk g - 4) (mgmt_key_len c));
          set_group_key alg (GN_igtk g) k
        else mret ok);
  ok ← (if uses_igtk c && ok && conf_beacon_prot c then
          k ← accA (key_of (BIGTK g) (GN_bigtk g - 6) (mgmt_key_len c));
          set_group_key alg (GN_bigtk g) k
        else mret ok);
  mret (if ok : bool then 0 else -1).

(** The random pool is always ready: CONFIG_NO_RANDOM_POOL. *)
Definition wpa_group_ensure_init : AM unit :=
  g ← get_group;
  if first_sta_seen g then mret tt
  else
    _ ← upd_group (λ g, g <| first_sta_seen := true |> <| reject_4way_hs_for_entropy := false |>);
    r ← wpa_group_init_gmk_and_counter;
    r ← (if bool_decide (r < 0) then mret r else wpa_gtk_update);
    r ← (if bool_decide (r < 0) then mret r else wpa_group_config_group_keys);
    if bool_decide (r < 0)
    then upd_group (λ g, g <| first_sta_seen := false |> <| reject_4way_hs_for_entropy := true |>)
    else mret tt.

(** ** Key data

    The buffer with the position of the next octet; a write outside it is [Undef]. *)
Definition wpa_add_kde (w : writer) (kde : Z) (data data2 : list Z) : outcome writer :=
  w ← put w [WLAN_EID_VENDOR_SPECIFIC; u8 (RSN_SELECTOR_LEN + blen data + blen data2)];
  w ← put w (be32_bytes kde);
  w ← put w data;
  put w data2.

Definition ieee80211w_kde_len (c : wpa_auth_config) (s : wpa_state_machine) : Z :=
  (if mgmt_frame_prot s
   then 2 + RSN_SELECTOR_LEN + WPA_IGTK_KDE_PREFIX_LEN + mgmt_key_len c else 0) +
  (if mgmt_frame_prot s && conf_beacon_prot c
   then 2 + RSN_SELECTOR_LEN + WPA_BIGTK_KDE_PREFIX_LEN + mgmt_key_len c else 0).

(** The packet number for a key: zero when the group is not in SETKEYSDONE or the driver
    does not know it. *)
Definition group_pn (idx : Z) : AM (list Z) :=
  g ← get_group;
  if bool_decide (wpa_group_state g ≠ WPA_GROUP_SETKEYSDONE) then mret (zeros 6)
  else
    r ← wpa_auth_get_seqnum idx;
    match r with
    | None => mret (zeros 6)
    | Some rsc => accA (slice rsc 0 6)
    end.

Definition no_group_keys (c : wpa_auth_config) (s : wpa_state_machine) : bool :=
  disable_gtk c || bool_decide (wpa_key_mgmt s = WPA_KEY_MGMT_OSEN).

(** A random key instead of that of the group; [None] is a failure. *)
Definition key_or_random (stub : bool) (key : list Z) : AM (option (list Z)) :=
  if stub then arandom (blen key) else mret (Some key).

Definition ieee80211w_kde_add (id : nat) (w : writer) : AM writer :=
  c ← get_conf;
  s ← get_sta id;
  if negb (mgmt_frame_prot s) then mret w
  else
    g ← get_group;
    pn ← group_pn (GN_igtk g);
    k ← accA (key_of (IGTK g) (GN_igtk g - 4) (mgmt_key_len c));
    k ← key_or_random (no_group_keys c s) k;
    match k with
    | None => mret w
    | Some k =>
        w ← liftA (wpa_add_kde w RSN_KEY_DATA_IGTK ([u8 (GN_igtk g); 0] ++ pn ++ k) []);
        if negb (conf_beacon_prot c) then mret w
        else
          pn ← group_pn (GN_bigtk g);
          k ← accA (key_of (BIGTK g) (GN_bigtk g - 6) (mgmt_key_len c));
          k ← key_or_random (bool_decide (wpa_key_mgmt s = WPA_KEY_MGMT_OSEN)) k;
          match k with
          | None => mret w
          | Some k => liftA (wpa_add_kde w RSN_KEY_DATA_BIGTK ([u8 (GN_bigtk g); 0] ++ pn ++ k) [])
          end
    end.

(** [wpa_write_ftie] without nonces and subelements, as message 3/4 has it; [None] is a
    return of -1. *)
Definition wpa_write_ftie (c : wpa_auth_config) (use_sha384 : bool) (r0kh_id : list Z) (w : writer) :
    outcome (option writer) :=
  let hdrlen := if use_sha384 then 2 + 24 + 32 + 32 else 2 + 16 + 32 + 32 in
  let len := blen w.1 - w.2 in
  if bool_decide (len < 2 + hdrlen + 2 + FT_R1KH_ID_LEN + 2 + blen r0kh_id) then Ret None
  else
    let body := zeros hdrlen ++ [FTIE_SUBELEM_R1KH_ID; FT_R1KH_ID_LEN] ++ r1_key_holder c ++
                [FTIE_SUBELEM_R0KH_ID; u8 (blen r0kh_id)] ++ r0kh_id in
    w ← put w ([WLAN_EID_FAST_BSS_TRANSITION; u8 (blen body)] ++ body);
    Ret (Some w).
End send.
