(* ===== verification/AuthStep.v ===== *)
(** The state machines of the authenticator (src/ap/wpa_auth.c)

    The machines WPA_PTK and WPA_PTK_GROUP of a station and the group key machine, as
    [wpa_sm_step] runs them.  Setting new group keys steps the other stations, and
    [ap_sta_disconnect] (src/ap/sta_info.c) calls back into [wpa_auth_sm_event]: the
    definitions have the function that steps a station as the parameter [step], and
    [wpa_sm_step] closes the recursion with fuel. *)
From S2P Require Import Prelude Bytes Wpabuf Defs Suites RsnIe Kde PmksaCache WpaKey WpaSm WpaHandshake AuthSm AuthSend.

Inductive auth_event :=
| WPA_AUTH | WPA_ASSOC | WPA_DISASSOC | WPA_DEAUTH | WPA_REAUTH | WPA_REAUTH_EAPOL
| WPA_ASSOC_FT | WPA_ASSOC_FILS | WPA_DRV_STA_REMOVED.
#[export] Instance auth_event_eq_dec : EqDecision auth_event.
Proof. solve_decision. Defined.

(** What one derivation and check of the MIC gives: the derivation failed, the MIC is the
    one of the PTK, or it is not. *)
Inductive psk_result := DeriveFailed | MicOk | MicBad.

Section machines.
Context `{C : wpa_crypto} `{X : auth_crypto} `{E : auth_env}.
Variable step : nat → AM Z.

(** SM_ENTRY_MA; SM_ENTER passes 0 for [global]. *)
Definition enter_ptk (st : ptk_state) (s : wpa_state_machine) : wpa_state_machine :=
  s <| changed := true |> <| wpa_ptk_state := st |>.
Definition enter_group (st : ptk_group_state) (s : wpa_state_machine) : wpa_state_machine :=
  s <| changed := true |> <| wpa_ptk_group_state := st |>.

(** ** Disconnection *)
Definition zero_pmk (s : wpa_state_machine) : wpa_state_machine :=
  s <| PMK := [] |> <| sta_xxkey := [] |> <| sta_pmk_r1 := [] |>.

(** [if (sm->GUpdateStationKeys) sm->group->GKeyDoneStations--;
     sm->GUpdateStationKeys = false;] *)
Definition key_update_done (id : nat) : AM unit :=
  s ← get_sta id;
  _ ← (if GUpdateStationKeys s then upd_group (λ g, g <| GKeyDoneStations ::= Z.pred |>) else mret tt);
  upd_sta id (λ s, s <| GUpdateStationKeys := false |>).

Definition request_disconnect (reason : Z) (s : wpa_state_machine) : wpa_state_machine :=
  s <| Disconnect := true |> <| disconnect_reason := reason |>.

(** [wpa_ft_install_ptk] of wpa_auth_ft.c, with [retry] *)
Definition wpa_ft_install_ptk (id : nat) : AM unit :=
  s ← get_sta id;
  if negb (wpa_cipher_valid_pairwise (sta_pairwise s)) then mret tt
  else if tk_already_set s then mret tt
  else
    k ← accA (slice (tk (PTK s)) 0 (wpa_cipher_key_len (sta_pairwise s)));
    res ← wpa_auth_set_key (mk_auth_key (wpa_cipher_to_alg (sta_pairwise s)) (sta_addr s)
                              (sta_keyidx_active s) (Some k) KEY_FLAG_PAIRWISE_RX_TX);
    if bool_decide (res ≠ 0) then mret tt
    else upd_sta id (λ s, s <| pairwise_set := true |> <| tk_already_set := true |>).

(** The end of [wpa_auth_sm_event]; [started] is whether the event went this far. *)
Definition finish_sm_event (id : nat) (event : auth_event) : AM Z :=
  _ ← upd_sta id (λ s, s <| sta_ft_completed := false |>);
  s ← get_sta id;
  _ ← (if mgmt_frame_prot s && bool_decide (event = WPA_AUTH) then mret tt
       else
         _ ← upd_sta id (λ s, s <| PTK_valid := false |> <| PTK := ptk_zero |>);
         if bool_decide (event ≠ WPA_REAUTH_EAPOL) then wpa_remove_ptk id else mret tt);
  s ← get_sta id;
  if in_step_loop s then _ ← upd_sta id (λ s, s <| changed := true |>); mret 0
  else step id.

Definition reauth_event (id : nat) (event : auth_event) : AM Z :=
  c ← get_conf;
  s ← get_sta id;
  if negb (started s) then
    _ ← upd_sta id (λ s, s <| started := true |> <| Init := true |>);
    r ← step id;
    if bool_decide (r = 1) then mret 1
    else
      _ ← upd_sta id (λ s, s <| Init := false |> <| AuthenticationRequest := true |>);
      finish_sm_event id event
  else if negb (sta_use_ext_key_id s) && conf_deny_ptk0_rekey c then
    _ ← upd_sta id (request_disconnect WLAN_REASON_CLASS3_FRAME_FROM_NONASSOC_STA);
    finish_sm_event id event
  else
    _ ← (if sta_use_ext_key_id s
         then upd_sta id (λ s, s <| sta_keyidx_active ::= λ i, Z.lxor i 1 |>) else mret tt);
    _ ← (if GUpdateStationKeys s then
           _ ← key_update_done id; upd_sta id (λ s, s <| PtkGroupInit := true |>)
         else mret tt);
    _ ← upd_sta id (λ s, s <| ReAuthenticationRequest := true |>);
    finish_sm_event id event.

(** CONFIG_FILS and CONFIG_MESH are off. *)
Definition wpa_auth_sm_event (id : nat) (event : auth_event) : AM Z :=
  match event with
  | WPA_AUTH | WPA_ASSOC | WPA_ASSOC_FILS => finish_sm_event id event
  | WPA_DEAUTH | WPA_DISASSOC =>
      _ ← upd_sta id (λ s, zero_pmk (s <| DeauthenticationRequest := true |>));
      finish_sm_event id event
  | WPA_REAUTH | WPA_REAUTH_EAPOL => reauth_event id event
  | WPA_ASSOC_FT =>
      _ ← wpa_ft_install_ptk id;
      _ ← upd_sta id (λ s, s <| sta_ft_completed := true |>);
      _ ← wpa_auth_set_ptk_rekey_timer id;
      mret 0
  | WPA_DRV_STA_REMOVED => _ ← upd_sta id (λ s, s <| tk_already_set := false |>); mret 0
  end.

(** The station with this address in the list of hostapd_data ([ap_get_sta]). *)
Definition ap_get_sta (a : wpa_authenticator) (addr : list Z) : option nat :=
  snd <$> list_find (λ id, sta_addr <$> stas a !! id = Some addr) (sta_list a).

(** The callback [disconnect] is [hostapd_wpa_auth_disconnect] of wpa_auth_glue.c, which
    calls [ap_sta_disconnect]; its driver calls are the event. *)
Definition wpa_sta_disconnect (addr : list Z) (reason : Z) : AM unit :=
  _ ← note (ADisconnect addr reason);
  a ← get_au;
  match ap_get_sta a addr with
  | None => mret tt
  | Some id => _ ← wpa_auth_sm_event id WPA_DEAUTH; mret tt
  end.

(** ** WPA_PTK *)
Definition authorized_by_wpa (s : wpa_state_machine) : bool :=
  wpa_key_mgmt_wpa_psk (wpa_key_mgmt s) || bool_decide (wpa_key_mgmt s = WPA_KEY_MGMT_DPP) ||
  bool_decide (wpa_key_mgmt s = WPA_KEY_MGMT_OWE).

Definition ptk_INITIALIZE (id : nat) : AM unit :=
  _ ← upd_sta id (enter_ptk WPA_PTK_INITIALIZE);
  s ← get_sta id;
  _ ← (if Init s then upd_sta id (λ s, s <| changed := false |>) else mret tt);
  _ ← key_update_done id;
  _ ← (if bool_decide (wpa s = WPA_VERSION_WPA) then upd_sta id (λ s, s <| PInitAKeys := false |>)
       else mret tt);
  _ ← upd_sta id (λ s, s <| Pair := true |>);
  _ ← wpa_auth_set_eapol (sta_addr s) EAPOL_portEnabled 0;
  _ ← wpa_remove_ptk id;
  _ ← wpa_auth_set_eapol (sta_addr s) EAPOL_portValid 0;
  _ ← upd_sta id (λ s, s <| TimeoutCtr := 0 |>);
  if authorized_by_wpa s then wpa_auth_set_eapol (sta_addr s) EAPOL_authorized 0 else mret tt.

Definition ptk_DISCONNECT (id : nat) : AM unit :=
  s ← get_sta id;
  let reason := disconnect_reason s in
  _ ← upd_sta id (λ s, enter_ptk WPA_PTK_DISCONNECT s <| Disconnect := false |> <| disconnect_reason := 0 |>);
  wpa_sta_disconnect (sta_addr s)
    (if bool_decide (reason = 0) then WLAN_REASON_PREV_AUTH_NOT_VALID else reason).

Definition ptk_DISCONNECTED (id : nat) : AM unit :=
  upd_sta id (λ s, enter_ptk WPA_PTK_DISCONNECTED s <| DeauthenticationRequest := false |>).

Definition ptk_AUTHENTICATION (id : nat) : AM unit :=
  _ ← upd_sta id (λ s, enter_ptk WPA_PTK_AUTHENTICATION s <| PTK := ptk_zero |> <| PTK_valid := false |>);
  s ← get_sta id;
  _ ← wpa_auth_set_eapol (sta_addr s) EAPOL_portControl_Auto 1;
  _ ← wpa_auth_set_eapol (sta_addr s) EAPOL_portEnabled 1;
  upd_sta id (λ s, s <| AuthenticationRequest := false |>).

(** A new ANonce, or the request to disconnect. *)
Definition new_anonce (id : nat) : AM bool :=
  r ← arandom WPA_NONCE_LEN;
  match r with
  | None => _ ← upd_sta id (λ s, s <| Disconnect := true |>); mret false
  | Some nonce => _ ← upd_sta id (λ s, s <| ANonce := nonce |> <| TimeoutCtr := 0 |>); mret true
  end.

Definition ptk_AUTHENTICATION2 (id : nat) : AM unit :=
  _ ← upd_sta id (enter_ptk WPA_PTK_AUTHENTICATION2);
  _ ← wpa_group_ensure_init;
  _ ← upd_sta id (λ s, s <| ReAuthenticationRequest := false |>);
  _ ← new_anonce id;
  mret tt.

(** The PMK and the XXKey from the MSK; [None] is an MSK that is too short. *)
Definition pmk_from_msk (akm : Z) (msk : list Z) : option (list Z) :=
  slice msk 0 (if wpa_key_mgmt_sha384 akm then PMK_LEN_SUITE_B_192 else PMK_LEN).
Definition xxkey_from_msk (akm : Z) (msk : list Z) : list Z :=
  if bool_decide (2 * PMK_LEN ≤ blen msk) then
    default [] (if wpa_key_mgmt_sha384 akm then slice msk 0 SHA384_MAC_LEN
                else slice msk PMK_LEN PMK_LEN)
  else [].

Definition ptk_INITPMK (id : nat) : AM unit :=
  _ ← upd_sta id (λ s, enter_ptk WPA_PTK_INITPMK s <| sta_xxkey := [] |>);
  s ← get_sta id;
  ok ← match sta_pmksa s with
       | Some e => _ ← upd_sta id (λ s, s <| PMK := ap_pmk e |>); mret true
       | None =>
           if bool_decide (wpa_key_mgmt s = WPA_KEY_MGMT_DPP) then
             _ ← upd_sta id (request_disconnect WLAN_REASON_INVALID_PMKID); mret false
           else
             msk ← wpa_auth_get_msk (sta_addr s);
             match msk ≫= λ m, pair m <$> pmk_from_msk (wpa_key_mgmt s) m with
             | None => _ ← upd_sta id (λ s, s <| Disconnect := true |>); mret false
             | Some (m, k) =>
                 _ ← upd_sta id (λ s, s <| PMK := k |> <| sta_xxkey := xxkey_from_msk (wpa_key_mgmt s) m |>);
                 mret true
             end
       end;
  if ok : bool then
    _ ← upd_sta id (λ s, s <| req_replay_counter_used := false |>);
    wpa_auth_set_eapol (sta_addr s) EAPOL_keyRun 0
  else mret tt.

Definition wpa_auth_uses_sae (s : wpa_state_machine) : bool := wpa_key_mgmt_sae (wpa_key_mgmt s).

Definition ptk_INITPSK (id : nat) : AM unit :=
  _ ← upd_sta id (enter_ptk WPA_PTK_INITPSK);
  s ← get_sta id;
  psks ← wpa_auth_get_psks (sta_addr s);
  _ ← match psks with
      | (psk, _) :: _ =>
          xx ← accA (slice psk 0 PMK_LEN);
          upd_sta id (λ s, s <| PMK := psk |> <| sta_xxkey := xx |>)
      | [] => mret tt
      end;
  _ ← match sta_pmksa s with
      | Some e => if wpa_auth_uses_sae s
                  then upd_sta id (λ s, s <| PMK := ap_pmk e |> <| sta_xxkey := ap_pmk e |>) else mret tt
      | None => mret tt
      end;
  upd_sta id (λ s, s <| req_replay_counter_used := false |>).

(** The PMKID KDE of message 1/4 *)
Definition message_1_pmkid (a : wpa_authenticator) (s : wpa_state_machine) : option (list Z) :=
  let akm := wpa_key_mgmt s in
  if is_wpa2 s && (wpa_key_mgmt_wpa_ieee8021x akm ||
                   (bool_decide (akm = WPA_KEY_MGMT_OWE) && bool_decide (is_Some (sta_pmksa s))) ||
                   wpa_key_mgmt_sae akm) && bool_decide (akm ≠ WPA_KEY_MGMT_OSEN)
  then
    match sta_pmksa s with
    | Some e => Some (ap_pmkid e)
    | None =>
        if wpa_key_mgmt_suite_b akm then None
        else if wpa_key_mgmt_ft akm && sta_ft_completed s then None
        else if wpa_key_mgmt_sae akm then sta_pmkid s
        else Some (default (zeros PMKID_LEN)
                     (rsn_pmkid pmkid_hmac (PMK s) (auth_addr a) (sta_addr s) akm))
    end
  else None.
Definition pmkid_kde (pmkid : list Z) : list Z :=
  [WLAN_EID_VENDOR_SPECIFIC; RSN_SELECTOR_LEN + PMKID_LEN] ++ be32_bytes RSN_KEY_DATA_PMKID ++ pmkid.

Definition ptk_PTKSTART (id : nat) : AM unit :=
  _ ← upd_sta id (λ s, enter_ptk WPA_PTK_PTKSTART s <| PTKRequest := false |> <| TimeoutEvt := false |>
                       <| alt_snonce_valid := false |> <| TimeoutCtr ::= λ n, u32 (n + 1) |>);
  a ← get_au;
  s ← get_sta id;
  if bool_decide (wpa_pairwise_update_count (conf a) < TimeoutCtr s) then mret tt
  else
    wpa_send_eapol id (Z.lor WPA_KEY_INFO_ACK WPA_KEY_INFO_KEY_TYPE) None (Some (ANonce s))
      (pmkid_kde <$> message_1_pmkid a s) 0 false.

(** *** Message 2/4 *)
Definition tries_psks (s : wpa_state_machine) : bool :=
  wpa_key_mgmt_wpa_psk (wpa_key_mgmt s) && negb (wpa_key_mgmt_sae (wpa_key_mgmt s)).

Definition set_ft_xxkey (id : nat) (psk : list Z) : AM unit :=
  s ← get_sta id;
  if wpa_key_mgmt_ft_psk (wpa_key_mgmt s) then upd_sta id (λ s, s <| sta_xxkey := psk |>) else mret tt.

(** Derives the PTK from [pmk'] and, if [mic] is set, compares the MIC of [frame]. *)
Definition try_pmk (mic : bool) (id : nat) (snonce' pmk' frame : list Z) (keys : wpa_ptk) : AM (psk_result * wpa_ptk) :=
  '(r, keys) ← auth_derive_ptk id snonce' pmk' keys;
  if bool_decide (r < 0) then mret (DeriveFailed, keys)
  else
    s ← get_sta id;
    v ← liftA (if mic then wpa_verify_key_mic (wpa_key_mgmt s) (blen pmk') keys frame else Ret (-1));
    mret (if bool_decide (v = 0) then MicOk else MicBad, keys).

(** A key that matched: the PMK, whether it is that of the station, the VLAN ID of the PSK
    and the PTK. *)
Definition matched : Type := list Z * bool * Z * wpa_ptk.

(** Through the PSKs, up to one whose PTK gives the MIC. *)
Fixpoint try_psks (mic : bool) (id : nat) (snonce' frame : list Z) (psks : list (list Z * Z)) (keys : wpa_ptk) :
    AM (option matched) :=
  match psks with
  | [] => mret None
  | (psk, vlan) :: psks =>
      _ ← set_ft_xxkey id psk;
      '(r, keys) ← try_pmk mic id snonce' psk frame keys;
      match r with
      | DeriveFailed => mret None
      | MicOk => mret (Some (psk, false, vlan, keys))
      | MicBad => try_psks mic id snonce' frame psks keys
      end
  end.

(** The loop of PTKCALCNEGOTIATING: the PSKs, or the PMK of the station, or that of its
    PMKSA entry when it has none.  The second component is [psk_found]. *)
Definition calc_ptk (mic : bool) (id : nat) (frame : list Z) : AM (option matched * bool) :=
  s ← get_sta id;
  if tries_psks s then
    psks ← wpa_auth_get_psks (sta_addr s);
    r ← try_psks mic id (SNonce s) frame psks ptk_zero;
    mret (r, bool_decide (psks ≠ []))
  else
    let '(pmk', own) := match PMK s, sta_pmksa s with [], Some e => (ap_pmk e, false) | k, _ => (k, true) end in
    '(r, keys) ← try_pmk mic id (SNonce s) pmk' frame ptk_zero;
    mret (match r with MicOk => Some (pmk', own, 0, keys) | _ => None end, false).

(** The element that is compared with that of the association request. *)
Definition key_data_ie (kd : list Z) (kde : wpa_eapol_ie_parse) : option (option (list Z)) :=
  let at_ k := p ← ptr kde k; Some (slice kd p (plen kde k)) in
  match at_ k_rsn_ie with
  | Some ie => Some <$> ie
  | None =>
      match at_ k_osen with
      | Some ie => Some <$> ie
      | None => match at_ k_wpa_ie with Some ie => Some <$> ie | None => Some None end
      end
  end.

(** What a pointer of the parsed key data points at. *)
Definition kde_octets (kd : list Z) (kde : wpa_eapol_ie_parse) (k : Kde.kde) : option (option (list Z)) :=
  match ptr kde k with
  | None => Some None
  | Some p => Some <$> slice kd p (plen kde k)
  end.

Definition rsnxe_matches (s : wpa_state_machine) (rsnxe : option (list Z)) : bool :=
  bool_decide (sta_rsnxe s = rsnxe).

(** The comparison of the MDIE and of the FTIE; -1 is [false]. *)
Definition ft_check_msg_2_of_4 (id : nat) (kd : list Z) (kde : wpa_eapol_ie_parse) : AM bool :=
  c ← get_conf;
  rsne ← accA (kde_octets kd kde k_rsn_ie);
  let rsne := default [] rsne in
  '(r, d) ← accA (wpa_parse_wpa_ie_rsn rsne (blen rsne));
  match ie_pmkid d with
  | Some p =>
      if bool_decide (r < 0) || bool_decide (ie_num_pmkid d ≠ 1) then mret false
      else
        name ← accA (slice rsne p PMKID_LEN);
        _ ← upd_sta id (λ s, s <| sup_pmk_r1_name := name |>);
        match ptr kde k_mdie, ptr kde k_ftie with
        | Some mdie, Some ftie =>
            len ← accA (rd kd (mdie + 1));
            md ← (if bool_decide (len < 3) then mret None
                  else md ← accA (slice kd (mdie + 2) 2); mret (Some md));
            if bool_decide (md ≠ Some (conf_mobility_domain c)) then mret false
            else
              s ← get_sta id;
              match assoc_resp_ftie s with
              | None => mret true
              | Some own =>
                  len ← accA (rd kd (ftie + 1));
                  own_len ← accA (rd own 1);
                  if bool_decide (len ≠ own_len) then mret false
                  else
                    a ← accA (slice kd ftie (2 + own_len));
                    b ← accA (slice own 0 (2 + own_len));
                    mret (bool_decide (a = b))
              end
        | _, _ => mret false
        end
  | None => mret false
  end.

(** A peer that may use PFS with DPP, which was not negotiated *)
Definition dpp_pfs_missing (c : wpa_auth_config) (s : wpa_state_machine) (kd : list Z)
    (kde : wpa_eapol_ie_parse) : option bool :=
  match ptr kde k_dpp_kde with
  | None => Some false
  | Some p =>
      flags ← rd kd (p + 1);
      Some (bool_decide (wpa_key_mgmt s = WPA_KEY_MGMT_DPP) && bool_decide (conf_dpp_pfs c ≠ 2) &&
            any_of flags DPP_KDE_PFS_ALLOWED && bool_decide (sta_dpp_z s = None))
  end.

Definition ft_rsn (s : wpa_state_machine) : bool := is_wpa2 s && wpa_key_mgmt_ft (wpa_key_mgmt s).

(** The checks of the elements of message 2/4 against those of the association, in their
    order.  [false] is a return; [refuse] also disconnects the station. *)
Definition refuse (addr : list Z) : AM bool :=
  _ ← wpa_sta_disconnect addr WLAN_REASON_PREV_AUTH_NOT_VALID; mret false.

Definition check_elements (id : nat) (kd : list Z) : AM bool :=
  c ← get_conf;
  s ← get_sta id;
  '(r, kde) ← accA (wpa_parse_kde_ies kd (blen kd));
  if bool_decide (r < 0) then mret false
  else
    ie ← accA (key_data_ie kd kde);
    same ← accA (wpa_compare_rsn_ie (ft_rsn s) (sta_wpa_ie s) ie);
    if bool_decide (same ≠ 0) then refuse (sta_addr s)
    else
      rsnxe ← accA (kde_octets kd kde k_rsnxe);
      if negb (rsnxe_matches s rsnxe) then refuse (sta_addr s)
      else
        ft ← (if ft_rsn s then ft_check_msg_2_of_4 id kd kde else mret true);
        if negb ft then refuse (sta_addr s)
        else
          pfs ← accA (dpp_pfs_missing c s kd kde);
          if pfs : bool then refuse (sta_addr s)
          else
            s ← get_sta id;
            mret (negb (ft_rsn s) || bool_decide (sup_pmk_r1_name s = sta_pmk_r1_name s)).

(** The key data of the last received frame; [Some None] is a length that is too large. *)
Definition last_key_data (frame : list Z) (mic_len : Z) : option (option (list Z)) :=
  len ← WPA_GET_BE16 frame (off_mic + mic_len);
  if bool_decide (size_t (blen frame - sizeof_hdr - sizeof_key - mic_len - 2) < len) then Some None
  else kd ← slice frame (off_mic + mic_len + 2) len; Some (Some kd).

Definition vlan_ok (s : wpa_state_machine) (vlan : Z) : AM bool :=
  if bool_decide (vlan ≠ 0) && wpa_key_mgmt_wpa_psk (wpa_key_mgmt s) then
    res ← wpa_auth_update_vlan (sta_addr s) vlan; mret (bool_decide (0 ≤ res))
  else mret true.

(** The PMK that is kept after message 2/4. *)
Definition keep_pmk (id : nat) (pmk' : list Z) (own : bool) : AM unit :=
  s ← get_sta id;
  if wpa_key_mgmt_wpa_psk (wpa_key_mgmt s) && negb own then
    k ← accA (slice pmk' 0 PMK_LEN); upd_sta id (λ s, s <| PMK := k |>)
  else mret tt.

(** What PTKCALCNEGOTIATING does with message 2/4 after its MIC was found right. *)
Definition accept_message_2 (id : nat) (frame : list Z) (mic_len : Z) (k : matched) : AM unit :=
  let '(pmk', own, vlan, keys) := k in
  kd ← accA (last_key_data frame mic_len);
  match kd with
  | None => mret tt
  | Some kd =>
      ok ← check_elements id kd;
      if negb ok then mret tt
      else
        s ← get_sta id;
        v ← vlan_ok s vlan;
        if negb v then _ ← refuse (sta_addr s); mret tt
        else
          _ ← upd_sta id (λ s, s <| pending_1_of_4_timeout := false |> <| eapol_timers := [] |>);
          _ ← keep_pmk id pmk' own;
          upd_sta id (λ s, s <| MICVerified := true |> <| PTK := keys |> <| PTK_valid := true |>)
  end.

Definition ptk_PTKCALCNEGOTIATING (id : nat) : AM unit :=
  _ ← upd_sta id (λ s, enter_ptk WPA_PTK_PTKCALCNEGOTIATING s <| EAPOLKeyReceived := false |>
                       <| update_snonce := false |>);
  s ← get_sta id;
  let mic_len := sta_mic_len s in
  frame ← accA (last_rx_eapol_key s);
  '(k, psk_found) ← calc_ptk (bool_decide (mic_len ≠ 0)) id frame;
  match k with
  | None => if psk_found : bool then note (APskFailure (sta_addr s)) else mret tt
  | Some k =>
      let '(pmk', own, _, _) := k in
      _ ← (if own then mret tt else upd_sta id (λ s, s <| PMK := pmk' |>));
      accept_message_2 id frame mic_len k
  end.

Definition ptk_PTKCALCNEGOTIATING2 (id : nat) : AM unit :=
  upd_sta id (λ s, enter_ptk WPA_PTK_PTKCALCNEGOTIATING2 s <| TimeoutCtr := 0 |>).

(** *** Message 3/4 *)

(** The elements of the AP: for a station of WPA without the RSNE, the RSNXE and the MDIE
    that precede the WPA element. *)
Definition skip_element (ie : list Z) : option (list Z) := l ← rd ie 1; slice ie (l + 2) (blen ie - (l + 2)).
Definition skip_if (id : Z) (ie : list Z) : option (list Z) :=
  x ← rd ie 0; if bool_decide (x = id) then skip_element ie else Some ie.
Definition message_3_ie (c : wpa_auth_config) (s : wpa_state_machine) (ie : list Z) : option (list Z) :=
  if bool_decide (wpa s = WPA_VERSION_WPA) && any_of (conf_wpa c) WPA_PROTO_RSN then
    l ← rd ie 1;
    id ← rd ie 0;
    if bool_decide (l + 2 < blen ie) && bool_decide (id = WLAN_EID_RSN) then
      ie ← skip_element ie;
      ie ← skip_if WLAN_EID_RSNX ie;
      ie ← skip_if WLAN_EID_MOBILITY_DOMAIN ie;
      l ← rd ie 1;
      slice ie 0 (l + 2)
    else Some ie
  else Some ie.

(** The room for the key data. *)
Definition message_3_room (c : wpa_auth_config) (s : wpa_state_machine) (ie : list Z)
    (gtk' : option (list Z)) : Z :=
  blen ie + ieee80211w_kde_len c s +
  (if sta_use_ext_key_id s then 2 + RSN_SELECTOR_LEN + 2 else 0) +
  match gtk' with Some k => 2 + RSN_SELECTOR_LEN + 2 + blen k | None => 0 end +
  (if wpa_key_mgmt_ft (wpa_key_mgmt s) then 2 + PMKID_LEN + 300 else 0) +
  (if bool_decide (conf_transition_disable c ≠ 0) then 2 + RSN_SELECTOR_LEN + 1 else 0) +
  (if bool_decide (wpa_key_mgmt s = WPA_KEY_MGMT_DPP) then 2 + RSN_SELECTOR_LEN + 2 else 0).

(** The elements, with the PMKR1Name in the RSNE for FT; [None] is a failure. *)
Definition put_elements (s : wpa_state_machine) (ie : list Z) (w : writer) : outcome (option writer) :=
  w ← put w ie;
  if wpa_key_mgmt_ft (wpa_key_mgmt s) then
    '(r, buf, len) ← access (wpa_insert_pmkid w.1 w.2 (sta_pmk_r1_name s));
    Ret (if bool_decide (r < 0) then None else Some (buf, len))
  else Ret (Some w).

Definition timeout_interval (ty value : Z) : list Z :=
  [WLAN_EID_TIMEOUT_INTERVAL; 5; ty] ++ le32_bytes value.

(** The FTIE of the (Re)Association Response when there is one that fits, and the TIEs. *)
Definition put_ft_elements (c : wpa_auth_config) (s : wpa_state_machine) (w : writer) :
    outcome (option writer) :=
  if wpa_key_mgmt_ft (wpa_key_mgmt s) then
    own ← match assoc_resp_ftie s with
          | None => Ret None
          | Some ie =>
              l ← access (rd ie 1);
              if bool_decide (2 + l ≤ blen w.1 - w.2) then o ← access (slice ie 0 (2 + l)); Ret (Some o)
              else Ret None
          end;
    w ← match own with
        | Some o => w ← put w o; Ret (Some w)
        | None => wpa_write_ftie c (wpa_key_mgmt_sha384 (wpa_key_mgmt s)) (r0_key_holder c) w
        end;
    match w with
    | None => Ret None
    | Some w =>
        w ← put w (timeout_interval WLAN_TIMEOUT_REASSOC_DEADLINE (reassociation_deadline c));
        w ← put w (timeout_interval WLAN_TIMEOUT_KEY_LIFETIME (r0_key_lifetime c));
        Ret (Some w)
    end
  else Ret (Some w).

Definition put_last_kdes (c : wpa_auth_config) (s : wpa_state_machine) (w : writer) : outcome writer :=
  w ← (if bool_decide (conf_transition_disable c ≠ 0)
       then wpa_add_kde w WFA_KEY_DATA_TRANSITION_DISABLE [conf_transition_disable c] [] else Ret w);
  if bool_decide (wpa_key_mgmt s = WPA_KEY_MGMT_DPP) then
    wpa_add_kde w WFA_KEY_DATA_DPP
      [DPP_VERSION; or_if (bool_decide (conf_dpp_pfs c = 1)) DPP_KDE_PFS_REQUIRED
                      (or_if (bool_decide (conf_dpp_pfs c = 0) || bool_decide (conf_dpp_pfs c = 1))
                         DPP_KDE_PFS_ALLOWED 0)] []
  else Ret w.

(** The key data of message 3/4; [None] is a failure, after which nothing is sent. *)
Definition message_3_key_data (id : nat) (ie : list Z) (gtk' : option (list Z)) (gtkidx : Z) :
    AM (option (list Z)) :=
  c ← get_conf;
  s ← get_sta id;
  let room := message_3_room c s ie gtk' in
  ok ← amalloc room;
  if negb ok then mret None
  else
    w ← liftA (put_elements s ie (zeros room, 0));
    match w with
    | None => mret None
    | Some w =>
        w ← liftA (if sta_use_ext_key_id s
                   then wpa_add_kde w RSN_KEY_DATA_KEYID [Z.land (sta_keyidx_active s) 1; 0] []
                   else Ret w);
        w ← liftA match gtk' with
                  | Some k => wpa_add_kde w RSN_KEY_DATA_GROUPKEY [Z.land gtkidx 3; 0] k
                  | None => Ret w
                  end;
        w ← ieee80211w_kde_add id w;
        w ← liftA (put_ft_elements c s w);
        match w with
        | None => mret None
        | Some w =>
            w ← liftA (put_last_kdes c s w);
            kd ← accA (slice w.1 0 w.2);
            mret (Some kd)
        end
    end.

(** The key of a station that is installed, its first octets in the driver's length. *)
Definition station_tk (s : wpa_state_machine) : option (list Z) :=
  slice (tk (PTK s)) 0 (wpa_cipher_key_len (sta_pairwise s)).

(** The key for reception of Extended Key ID before the first message 3/4; [false] is a
    return after the disconnection. *)
Definition install_rx_key (id : nat) : AM bool :=
  s ← get_sta id;
  if sta_use_ext_key_id s && bool_decide (TimeoutCtr s = 1) then
    k ← accA (station_tk s);
    res ← wpa_auth_set_key (mk_auth_key (wpa_cipher_to_alg (sta_pairwise s)) (sta_addr s)
                              (sta_keyidx_active s) (Some k) KEY_FLAG_PAIRWISE_RX);
    if bool_decide (res ≠ 0) then refuse (sta_addr s) else mret true
  else mret true.

(** The GTK, or a random one; the outer [None] is a failure. *)
Definition message_3_gtk (id : nat) : AM (option (option (list Z))) :=
  c ← get_conf;
  s ← get_sta id;
  if is_wpa2 s then
    g ← get_group;
    k ← accA (key_of (GTK g) (GN g - 1) (GTK_len g));
    k ← key_or_random (no_group_keys c s) k;
    mret (Some <$> k)
  else mret (Some None).

Definition mic_info (s : wpa_state_machine) : Z := if bool_decide (sta_mic_len s ≠ 0) then WPA_KEY_INFO_MIC else 0.

Definition ptk_PTKINITNEGOTIATING (id : nat) : AM unit :=
  _ ← upd_sta id (λ s, enter_ptk WPA_PTK_PTKINITNEGOTIATING s <| TimeoutEvt := false |>
                       <| TimeoutCtr ::= λ n, u32 (n + 1) |>);
  a ← get_au;
  s ← get_sta id;
  let c := conf a in
  if wpa_disable_eapol_key_retries c && bool_decide (1 < TimeoutCtr s) then mret tt
  else if bool_decide (wpa_pairwise_update_count c < TimeoutCtr s) then mret tt
  else
    let g := group a in
    r ← wpa_auth_get_seqnum (GN g);
    let rsc := default (zeros WPA_KEY_RSC_LEN) r in
    ie ← accA (message_3_ie c s (auth_ie a));
    ok ← (if is_wpa2 s then install_rx_key id else mret true);
    if negb ok then mret tt
    else
      gtk' ← message_3_gtk id;
      match gtk' with
      | None => mret tt
      | Some gtk' =>
          kd ← message_3_key_data id ie gtk' (GN g);
          match kd with
          | None => mret tt
          | Some kd =>
              s ← get_sta id;
              let secure := is_wpa2 s || rx_eapol_key_secure s in
              wpa_send_eapol id
                (lors [if secure then WPA_KEY_INFO_SECURE else 0; mic_info s; WPA_KEY_INFO_ACK;
                       WPA_KEY_INFO_INSTALL; WPA_KEY_INFO_KEY_TYPE])
                (if is_wpa2 s then Some rsc else None) (Some (ANonce s)) (Some kd) 0 (is_wpa2 s)
          end
      end.

(** *** After message 4/4 *)

(** The key of PTKINITDONE: with Extended Key ID it is only enabled for transmission. *)
Definition done_key (s : wpa_state_machine) : option auth_key :=
  if sta_use_ext_key_id s
  then Some (mk_auth_key WPA_ALG_NONE (sta_addr s) (sta_keyidx_active s) None KEY_FLAG_PAIRWISE_RX_TX_MODIFY)
  else k ← station_tk s;
       Some (mk_auth_key (wpa_cipher_to_alg (sta_pairwise s)) (sta_addr s) 0 (Some k) KEY_FLAG_PAIRWISE_RX_TX).

Definition announce_done (id : nat) : AM unit :=
  s ← get_sta id;
  _ ← wpa_auth_set_eapol (sta_addr s) EAPOL_portValid 1;
  _ ← wpa_auth_set_eapol (sta_addr s) EAPOL_keyAvailable 0;
  _ ← wpa_auth_set_eapol (sta_addr s) EAPOL_keyDone 1;
  _ ← upd_sta id (λ s, if bool_decide (wpa s = WPA_VERSION_WPA)
                       then s <| PInitAKeys := true |> else s <| has_GTK := true |>);
  note (APushPmkR1 (sta_addr s)).

Definition ptk_PTKINITDONE (id : nat) : AM unit :=
  _ ← upd_sta id (λ s, enter_ptk WPA_PTK_PTKINITDONE s <| EAPOLKeyReceived := false |>);
  s ← get_sta id;
  if Pair s then
    k ← accA (done_key s);
    res ← wpa_auth_set_key k;
    if bool_decide (res ≠ 0) then wpa_sta_disconnect (sta_addr s) WLAN_REASON_PREV_AUTH_NOT_VALID
    else
      _ ← upd_sta id (λ s, s <| pairwise_set := true |>);
      _ ← wpa_auth_set_ptk_rekey_timer id;
      _ ← (if authorized_by_wpa s then wpa_auth_set_eapol (sta_addr s) EAPOL_authorized 1 else mret tt);
      announce_done id
  else announce_done id.

(** *** Transitions *)
Definition handshake_failed : AM unit := upd_au (λ a, a <| handshake_4way_failures ::= Z.succ |>).
Definition pairwise_frame (s : wpa_state_machine) : bool :=
  EAPOLKeyReceived s && negb (EAPOLKeyRequest s) && EAPOLKeyPairwise s.

Definition retry_limit (id : nat) : AM unit :=
  _ ← handshake_failed;
  _ ← upd_sta id (λ s, s <| disconnect_reason := WLAN_REASON_4WAY_HANDSHAKE_TIMEOUT |>);
  ptk_DISCONNECT id.

Definition from_AUTHENTICATION2 (id : nat) : AM unit :=
  s ← get_sta id;
  let akm := wpa_key_mgmt s in
  run ← (if wpa_key_mgmt_wpa_ieee8021x akm
         then v ← wpa_auth_get_eapol (sta_addr s) EAPOL_keyRun; mret (bool_decide (v ≠ 0))
         else mret false);
  if run : bool then ptk_INITPMK id
  else if wpa_key_mgmt_wpa_psk akm || bool_decide (akm = WPA_KEY_MGMT_OWE) then ptk_INITPSK id
  else if bool_decide (akm = WPA_KEY_MGMT_DPP) then ptk_INITPMK id
  else mret tt.

Definition from_INITPMK (id : nat) : AM unit :=
  s ← get_sta id;
  v ← wpa_auth_get_eapol (sta_addr s) EAPOL_keyAvailable;
  if bool_decide (v ≠ 0) then ptk_PTKSTART id
  else if bool_decide (wpa_key_mgmt s = WPA_KEY_MGMT_DPP) && bool_decide (is_Some (sta_pmksa s))
  then ptk_PTKSTART id
  else _ ← handshake_failed; ptk_DISCONNECT id.

Definition from_INITPSK (id : nat) : AM unit :=
  s ← get_sta id;
  psks ← wpa_auth_get_psks (sta_addr s);
  if bool_decide (psks ≠ []) then ptk_PTKSTART id
  else if wpa_auth_uses_sae s && bool_decide (is_Some (sta_pmksa s)) then ptk_PTKSTART id
  else _ ← handshake_failed; ptk_DISCONNECT id.

Definition from_PTKSTART (id : nat) : AM unit :=
  c ← get_conf;
  s ← get_sta id;
  if pairwise_frame s then ptk_PTKCALCNEGOTIATING id
  else if bool_decide (wpa_pairwise_update_count c < TimeoutCtr s) then retry_limit id
  else if TimeoutEvt s then ptk_PTKSTART id
  else mret tt.

Definition from_PTKCALCNEGOTIATING (id : nat) : AM unit :=
  s ← get_sta id;
  if MICVerified s then ptk_PTKCALCNEGOTIATING2 id
  else if pairwise_frame s then ptk_PTKCALCNEGOTIATING id
  else if TimeoutEvt s then ptk_PTKSTART id
  else mret tt.

Definition from_PTKINITNEGOTIATING (id : nat) : AM unit :=
  c ← get_conf;
  s ← get_sta id;
  if update_snonce s then ptk_PTKCALCNEGOTIATING id
  else if pairwise_frame s && MICVerified s then ptk_PTKINITDONE id
  else if bool_decide (wpa_pairwise_update_count c < TimeoutCtr s) ||
          (wpa_disable_eapol_key_retries c && bool_decide (1 < TimeoutCtr s)) then retry_limit id
  else if TimeoutEvt s then ptk_PTKINITNEGOTIATING id
  else mret tt.

Definition sm_WPA_PTK_Step (id : nat) : AM unit :=
  s ← get_sta id;
  if Init s then ptk_INITIALIZE id
  else if Disconnect s then ptk_DISCONNECT id
  else if DeauthenticationRequest s then ptk_DISCONNECTED id
  else if AuthenticationRequest s then ptk_AUTHENTICATION id
  else if ReAuthenticationRequest s then ptk_AUTHENTICATION2 id
  else if PTKRequest s then
    ok ← new_anonce id;
    if ok : bool then ptk_PTKSTART id else ptk_DISCONNECTED id
  else
    match wpa_ptk_state s with
    | WPA_PTK_INITIALIZE => mret tt
    | WPA_PTK_DISCONNECT => ptk_DISCONNECTED id
    | WPA_PTK_DISCONNECTED => ptk_INITIALIZE id
    | WPA_PTK_AUTHENTICATION => ptk_AUTHENTICATION2 id
    | WPA_PTK_AUTHENTICATION2 => from_AUTHENTICATION2 id
    | WPA_PTK_INITPMK => from_INITPMK id
    | WPA_PTK_INITPSK => from_INITPSK id
    | WPA_PTK_PTKSTART => from_PTKSTART id
    | WPA_PTK_PTKCALCNEGOTIATING => from_PTKCALCNEGOTIATING id
    | WPA_PTK_PTKCALCNEGOTIATING2 => ptk_PTKINITNEGOTIATING id
    | WPA_PTK_PTKINITNEGOTIATING => from_PTKINITNEGOTIATING id
    | WPA_PTK_PTKINITDONE => mret tt
    end.

(** ** WPA_PTK_GROUP *)
Definition group_IDLE (id : nat) : AM unit :=
  _ ← upd_sta id (enter_group WPA_PTK_GROUP_IDLE);
  upd_sta id (λ s, (if Init s then s <| changed := false |> else s) <| GTimeoutCtr := 0 |>).

(** The key data of message 1/2: the KDEs, or for WPA the GTK alone. *)
Definition group_key_data (id : nat) (gtk' : list Z) : AM (option (list Z)) :=
  c ← get_conf;
  s ← get_sta id;
  g ← get_group;
  if is_wpa2 s then
    let room := 2 + RSN_SELECTOR_LEN + 2 + GTK_len g + ieee80211w_kde_len c s in
    ok ← amalloc room;
    if negb ok then mret None
    else
      w ← liftA (wpa_add_kde (zeros room, 0) RSN_KEY_DATA_GROUPKEY [Z.land (GN g) 3; 0] gtk');
      w ← ieee80211w_kde_add id w;
      kd ← accA (slice w.1 0 w.2);
      mret (Some kd)
  else mret (Some gtk').

Definition group_REKEYNEGOTIATING (id : nat) : AM unit :=
  _ ← upd_sta id (λ s, enter_group WPA_PTK_GROUP_REKEYNEGOTIATING s <| GTimeoutCtr ::= λ n, u32 (n + 1) |>);
  c ← get_conf;
  s ← get_sta id;
  if wpa_disable_eapol_key_retries c && bool_decide (1 < GTimeoutCtr s) then mret tt
  else if bool_decide (wpa_group_update_count c < GTimeoutCtr s) then mret tt
  else
    _ ← upd_sta id (λ s, (if bool_decide (wpa s = WPA_VERSION_WPA) then s <| PInitAKeys := false |> else s)
                         <| TimeoutEvt := false |>);
    g ← get_group;
    r ← (if bool_decide (wpa_group_state g = WPA_GROUP_SETKEYSDONE) then wpa_auth_get_seqnum (GN g)
         else mret None);
    k ← accA (key_of (GTK g) (GN g - 1) (GTK_len g));
    k ← key_or_random (no_group_keys c s) k;
    match k with
    | None => mret tt
    | Some k =>
        kd ← group_key_data id k;
        match kd with
        | None => mret tt
        | Some kd =>
            wpa_send_eapol id
              (lors [WPA_KEY_INFO_SECURE; mic_info s; WPA_KEY_INFO_ACK;
                     if Pair s then 0 else WPA_KEY_INFO_INSTALL])
              (Some (default (zeros WPA_KEY_RSC_LEN) r)) None (Some kd) (GN g) true
        end
    end.

Definition group_REKEYESTABLISHED (id : nat) : AM unit :=
  _ ← upd_sta id (λ s, enter_group WPA_PTK_GROUP_REKEYESTABLISHED s <| EAPOLKeyReceived := false |>);
  _ ← key_update_done id;
  upd_sta id (λ s, s <| GTimeoutCtr := 0 |> <| has_GTK := true |>).

Definition group_KEYERROR (id : nat) : AM unit :=
  _ ← upd_sta id (enter_group WPA_PTK_GROUP_KEYERROR);
  _ ← key_update_done id;
  upd_sta id (request_disconnect WLAN_REASON_GROUP_KEY_UPDATE_TIMEOUT).

Definition group_frame (s : wpa_state_machine) : bool :=
  EAPOLKeyReceived s && negb (EAPOLKeyRequest s) && negb (EAPOLKeyPairwise s) && MICVerified s.

Definition sm_WPA_PTK_GROUP_Step (id : nat) : AM unit :=
  c ← get_conf;
  s ← get_sta id;
  if Init s || PtkGroupInit s then
    _ ← group_IDLE id; upd_sta id (λ s, s <| PtkGroupInit := false |>)
  else
    match wpa_ptk_group_state s with
    | WPA_PTK_GROUP_IDLE =>
        if GUpdateStationKeys s || (bool_decide (wpa s = WPA_VERSION_WPA) && PInitAKeys s)
        then group_REKEYNEGOTIATING id else mret tt
    | WPA_PTK_GROUP_REKEYNEGOTIATING =>
        if group_frame s then group_REKEYESTABLISHED id
        else if bool_decide (wpa_group_update_count c < GTimeoutCtr s) ||
                (wpa_disable_eapol_key_retries c && bool_decide (1 < GTimeoutCtr s))
        then group_KEYERROR id
        else if TimeoutEvt s then group_REKEYNEGOTIATING id
        else mret tt
    | WPA_PTK_GROUP_KEYERROR | WPA_PTK_GROUP_REKEYESTABLISHED => group_IDLE id
    end.

(** ** The group key machine *)
Definition wpa_group_gtk_init : AM unit :=
  _ ← upd_group (λ g, g <| group_changed := false |> <| wpa_group_state := WPA_GROUP_GTK_INIT |>
                        <| GTK := zero_keys |> <| GN := 1 |> <| GM := 2 |> <| GN_igtk := 4 |>
                        <| GM_igtk := 5 |> <| GN_bigtk := 6 |> <| GM_bigtk := 7 |>);
  _ ← wpa_gtk_update; mret tt.

Definition wpa_group_update_sta (id : nat) : AM unit :=
  s ← get_sta id;
  if bool_decide (wpa_ptk_state s ≠ WPA_PTK_PTKINITDONE) then
    upd_sta id (λ s, s <| GUpdateStationKeys := false |>)
  else if is_wnmsleep s then mret tt
  else
    _ ← upd_group (λ g, g <| GKeyDoneStations ::= Z.succ |>);
    _ ← upd_sta id (λ s, s <| GUpdateStationKeys := true |>);
    _ ← step id;
    mret tt.

(** [wpa_auth_for_each_sta]: the callbacks return 0 and do not change the list. *)
Fixpoint for_each_sta (cb : nat → AM unit) (l : list nat) : AM unit :=
  match l with
  | [] => mret tt
  | id :: l => _ ← cb id; for_each_sta cb l
  end.
Definition wpa_auth_for_each_sta (cb : nat → AM unit) : AM unit :=
  a ← get_au; for_each_sta cb (sta_list a).

Definition swap_group_keys (g : wpa_group_data) : wpa_group_data :=
  g <| GM := GN g |> <| GN := GM g |> <| GM_igtk := GN_igtk g |> <| GN_igtk := GM_igtk g |>
    <| GM_bigtk := GN_bigtk g |> <| GN_bigtk := GM_bigtk g |>.

Definition wpa_group_setkeys : AM unit :=
  _ ← upd_group (λ g, swap_group_keys (g <| group_changed := true |>
                        <| wpa_group_state := WPA_GROUP_SETKEYS |> <| GTKReKey := false |>));
  _ ← wpa_gtk_update;
  _ ← upd_group (λ g, g <| GKeyDoneStations := 0 |>);
  wpa_auth_for_each_sta wpa_group_update_sta.

Definition wpa_group_fatal_failure : AM unit :=
  _ ← upd_group (λ g, g <| group_changed := true |> <| wpa_group_state := WPA_GROUP_FATAL_FAILURE |>);
  wpa_auth_for_each_sta (λ id, upd_sta id (λ s, s <| Disconnect := true |>)).

Definition wpa_group_setkeysdone : AM unit :=
  _ ← upd_group (λ g, g <| group_changed := true |> <| wpa_group_state := WPA_GROUP_SETKEYSDONE |>);
  r ← wpa_group_config_group_keys;
  if bool_decide (r < 0) then wpa_group_fatal_failure else mret tt.

Definition wpa_group_sm_step : AM unit :=
  g ← get_group;
  if GInit g then wpa_group_gtk_init
  else
    match wpa_group_state g with
    | WPA_GROUP_FATAL_FAILURE => mret tt
    | WPA_GROUP_GTK_INIT => if GTKAuthenticator g then wpa_group_setkeysdone else mret tt
    | WPA_GROUP_SETKEYSDONE => if GTKReKey g then wpa_group_setkeys else mret tt
    | WPA_GROUP_SETKEYS =>
        if bool_decide (GKeyDoneStations g = 0) then wpa_group_setkeysdone
        else if GTKReKey g then wpa_group_setkeys else mret tt
    end.

(** ** One pass of the loop of [wpa_sm_step]

    [true] is [sm->pending_deinit]; the other result is whether to go on. *)
Definition sm_pass (id : nat) : AM (bool * bool) :=
  s ← get_sta id;
  if pending_deinit s then mret (true, false)
  else
    _ ← upd_sta id (λ s, s <| changed := false |>);
    _ ← upd_group (λ g, g <| group_changed := false |>);
    _ ← sm_WPA_PTK_Step id;
    s ← get_sta id;
    if pending_deinit s then mret (true, false)
    else
      _ ← sm_WPA_PTK_GROUP_Step id;
      s ← get_sta id;
      if pending_deinit s then mret (true, false)
      else
        _ ← wpa_group_sm_step;
        s ← get_sta id;
        g ← get_group;
        mret (false, changed s || group_changed g).
End machines.

(** Frees a station and its timers. *)
Definition wpa_free_sta_sm (id : nat) : AM unit :=
  _ ← key_update_done id; upd_au (λ a, a <| stas ::= delete id |>).

(** [fuel] bounds the passes and the depth of the recursion; running out is [Undef]. *)
Section step.
Context `{C : wpa_crypto} `{X : auth_crypto} `{E : auth_env}.

Fixpoint wpa_sm_step (fuel : nat) (id : nat) {struct fuel} : AM Z :=
  match fuel with
  | O => liftA Undef
  | S fuel =>
      s ← get_sta id;
      if in_step_loop s then mret 0
      else
        _ ← upd_sta id (λ s, s <| in_step_loop := true |>);
        _ ← step_passes fuel id;
        _ ← upd_sta id (λ s, s <| in_step_loop := false |>);
        s ← get_sta id;
        if pending_deinit s then _ ← wpa_free_sta_sm id; mret 1 else mret 0
  end
with step_passes (fuel : nat) (id : nat) {struct fuel} : AM unit :=
  match fuel with
  | O => liftA Undef
  | S fuel =>
      '(_, again) ← sm_pass (wpa_sm_step fuel) id;
      if again : bool then step_passes fuel id else mret tt
  end.
End step.
