(* ===== verification/AuthOps.v ===== *)
(** Operations of the authenticator (src/ap/wpa_auth.c)

    Reception of EAPOL-Key frames, the timeouts, the calls of hostapd, and [auth_run],
    sequences of operations.  [fuel] is that of [wpa_sm_step]. *)
From S2P Require Import Prelude Bytes Wpabuf Defs Suites RsnIe Kde PmksaCache WpaKey WpaSm WpaHandshake AuthSm AuthSend AuthStep.

Inductive auth_msg := PAIRWISE_2 | PAIRWISE_4 | GROUP_2 | REQUEST.
#[export] Instance auth_msg_eq_dec : EqDecision auth_msg.
Proof. solve_decision. Defined.

Section ops.
Context `{C : wpa_crypto} `{X : auth_crypto} `{E : auth_env}.
Variable step : nat → AM Z.

(** ** Replay counters *)
Fixpoint wpa_replay_counter_valid (l : list wpa_key_replay_counter) (replay : list Z) : bool :=
  match l with
  | [] => false
  | c :: l =>
      if negb (valid c) then false
      else if bool_decide (replay = counter c) then true
      else wpa_replay_counter_valid l replay
  end.

Definition wpa_replay_counter_mark_invalid (replay : option (list Z)) (l : list wpa_key_replay_counter) :
    list wpa_key_replay_counter :=
  map (λ c, match replay with
            | None => mk_counter (counter c) false
            | Some r => if bool_decide (r = counter c) then mk_counter (counter c) false else c
            end) l.

(** ** Requests *)
Definition wpa_request_new_ptk (id : nat) : AM unit :=
  c ← get_conf;
  s ← get_sta id;
  if negb (sta_use_ext_key_id s) && conf_deny_ptk0_rekey c then
    upd_sta id (request_disconnect WLAN_REASON_CLASS3_FRAME_FROM_NONASSOC_STA)
  else
    _ ← (if sta_use_ext_key_id s
         then upd_sta id (λ s, s <| sta_keyidx_active ::= λ i, Z.lxor i 1 |>) else mret tt);
    upd_sta id (λ s, s <| PTKRequest := true |> <| PTK_valid := false |>).

(** [wpa_auth_sta_deinit]; a station that is in [wpa_sm_step] is freed at its end. *)
Definition wpa_auth_sta_deinit (id : nat) : AM unit :=
  c ← get_conf;
  s ← get_sta id;
  _ ← (if wpa_strict_rekey c && has_GTK s
       then upd_au (λ a, a <| gtk_rekey_timers ::= λ n, if bool_decide (n = 0%nat) then 1%nat else n |>)
       else mret tt);
  _ ← upd_sta id (λ s, s <| eapol_timers := [] |> <| pending_1_of_4_timeout := false |>
                         <| call_step_timers := 0%nat |> <| ptk_rekey_timer := false |>);
  _ ← upd_au (λ a, a <| sta_list ::= filter (λ i, i ≠ id) |>);
  if in_step_loop s then upd_sta id (λ s, s <| pending_deinit := true |>)
  else wpa_free_sta_sm id.

(** The loop of [wpa_gtk_rekey] runs twice. *)
Definition gtk_rekey_pass : AM unit :=
  _ ← upd_group swap_group_keys; _ ← wpa_gtk_update; _ ← wpa_group_config_group_keys; mret tt.
Definition wpa_gtk_rekey : AM unit := _ ← gtk_rekey_pass; gtk_rekey_pass.

(** A second Michael MIC failure starts the countermeasures of
    src/ap/tkip_countermeasures.c, which free every station. *)
Definition ieee80211_tkip_countermeasures_start : AM unit :=
  _ ← wpa_gtk_rekey; a ← get_au; for_each_sta wpa_auth_sta_deinit (sta_list a).

(** [true] is that the station was removed. *)
Definition wpa_receive_error_report (id : nat) (is_group : bool) : AM bool :=
  c ← get_conf;
  s ← get_sta id;
  removed ← (if bool_decide ((if is_group then wpa_group c else sta_pairwise s) ≠ WPA_CIPHER_TKIP)
             then mret false
             else
               res ← wpa_auth_mic_failure_report (sta_addr s);
               if bool_decide (0 < res) then _ ← ieee80211_tkip_countermeasures_start; mret true
               else
                 _ ← upd_sta id (λ s, s <| remote_mic_failures ::= Z.succ |>);
                 _ ← upd_au (λ a, a <| auth_mic_failures ::= Z.succ |>);
                 mret false);
  if removed : bool then mret true else _ ← wpa_request_new_ptk id; mret false.

(** ** Group rekeying: [wpa_rekey_gtk] *)
Fixpoint group_loop (fuel : nat) : AM unit :=
  match fuel with
  | O => liftA Undef
  | S fuel =>
      _ ← upd_group (λ g, g <| group_changed := false |>);
      _ ← wpa_group_sm_step step;
      g ← get_group;
      if group_changed g then group_loop fuel else mret tt
  end.

Definition wpa_rekey_gtk (fuel : nat) : AM unit :=
  _ ← upd_group (λ g, g <| GTKReKey := true |>);
  _ ← group_loop fuel;
  upd_au (λ a, if bool_decide (wpa_group_rekey (conf a) ≠ 0) then a <| gtk_rekey_timers ::= S |> else a).

(** ** The earlier SNonce *)
Definition try_alt_keys (id : nat) (frame : list Z) : AM (option matched) :=
  s ← get_sta id;
  if tries_psks s then
    psks ← wpa_auth_get_psks (sta_addr s);
    try_psks true id (alt_SNonce s) frame psks ptk_zero
  else
    '(r, keys) ← try_pmk true id (alt_SNonce s) (PMK s) frame ptk_zero;
    mret match r with MicOk => Some (PMK s, true, 0, keys) | _ => None end.

Definition wpa_try_alt_snonce (id : nat) (frame : list Z) : AM bool :=
  r ← try_alt_keys id frame;
  match r with
  | None => mret false
  | Some (pmk', own, vlan, keys) =>
      _ ← (if own : bool then mret tt else upd_sta id (λ s, s <| PMK := pmk' |>));
      _ ← upd_sta id (λ s, s <| alt_snonce_valid := false |>);
      s ← get_sta id;
      ok ← vlan_ok s vlan;
      if negb ok then mret false
      else
        _ ← upd_sta id (λ s, s <| SNonce := alt_SNonce s |> <| PTK := keys |> <| PTK_valid := true |>);
        mret true
  end.

(** ** Reception *)

(** The checks of the lengths and of the type; the results are the key information and the
    key data. *)
Definition rx_header (s : wpa_state_machine) (data : list Z) : option (option (Z * list Z)) :=
  let mic_len := sta_mic_len s in
  let keyhdrlen := sizeof_key + mic_len + 2 in
  if bool_decide (blen data < sizeof_hdr + keyhdrlen) then Some None
  else
    key_info ← frame_key_info data;
    len ← WPA_GET_BE16 data (off_mic + mic_len);
    if bool_decide (blen data - sizeof_hdr - keyhdrlen < len) then Some None
    else
      ty ← rd data off_type;
      if (if is_wpa2 s then bool_decide (ty = EAPOL_KEY_TYPE_WPA) || bool_decide (ty = EAPOL_KEY_TYPE_RSN)
          else bool_decide (ty = EAPOL_KEY_TYPE_WPA))
      then kd ← slice data (off_mic + mic_len + 2) len; Some (Some (key_info, kd))
      else Some None.

Definition message_of (key_info mic_len key_data_len : Z) : auth_msg :=
  if any_of key_info WPA_KEY_INFO_REQUEST then REQUEST
  else if negb (any_of key_info WPA_KEY_INFO_KEY_TYPE) then GROUP_2
  else if bool_decide (key_data_len = 0) ||
          (bool_decide (mic_len = 0) && any_of key_info WPA_KEY_INFO_ENCR_KEY_DATA &&
           bool_decide (key_data_len = AES_BLOCK_SIZE))
  then PAIRWISE_4
  else PAIRWISE_2.

Definition rx_version_ok (s : wpa_state_machine) (key_info : Z) : bool :=
  let ver := Z.land key_info WPA_KEY_INFO_TYPE_MASK in
  let akm := wpa_key_mgmt s in
  let aes := bool_decide (sta_pairwise s = WPA_CIPHER_CCMP) || bool_decide (sta_pairwise s = WPA_CIPHER_GCMP) in
  negb (aes && wpa_use_cmac akm && negb (wpa_use_akm_defined akm) &&
        bool_decide (ver ≠ WPA_KEY_INFO_TYPE_AES_128_CMAC)) &&
  negb (aes && negb (wpa_use_cmac akm) && negb (wpa_use_akm_defined akm) &&
        bool_decide (ver ≠ WPA_KEY_INFO_TYPE_HMAC_SHA1_AES)) &&
  negb (wpa_use_akm_defined akm && bool_decide (ver ≠ WPA_KEY_INFO_TYPE_AKM_DEFINED)).

(** The replay counter: [true] continues.  A message 2/4 to an earlier message 1/4 with
    another SNonce, or a message 4/4 after it, is let through. *)
Definition alt_message_2 (s : wpa_state_machine) (msg : auth_msg) (replay nonce : list Z) : bool :=
  bool_decide (msg = PAIRWISE_2) && wpa_replay_counter_valid (prev_key_replay s) replay &&
  bool_decide (wpa_ptk_state s = WPA_PTK_PTKINITNEGOTIATING) && bool_decide (SNonce s ≠ nonce).
Definition alt_message_4 (s : wpa_state_machine) (msg : auth_msg) (replay : list Z) : bool :=
  bool_decide (msg = PAIRWISE_4) && alt_snonce_valid s &&
  bool_decide (wpa_ptk_state s = WPA_PTK_PTKINITNEGOTIATING) && bool_decide (replay = alt_replay_counter s).

Definition check_replay (id : nat) (msg : auth_msg) (replay nonce : list Z) : AM bool :=
  s ← get_sta id;
  if bool_decide (msg = REQUEST) then
    mret (negb (req_replay_counter_used s && bool_decide (os_memcmp replay (req_replay_counter s) ≤ 0)))
  else if wpa_replay_counter_valid (key_replay s) replay then mret true
  else if alt_message_2 s msg replay nonce then
    first ← accA (counter <$> head (key_replay s));
    _ ← upd_sta id (λ s, s <| update_snonce := true |> <| alt_SNonce := SNonce s |>
                           <| alt_snonce_valid := true |> <| alt_replay_counter := first |>);
    mret true
  else mret (alt_message_4 s msg replay).

(** Whether the state expects the message. *)
Definition state_expects (s : wpa_state_machine) (msg : auth_msg) : bool :=
  match msg with
  | PAIRWISE_2 =>
      bool_decide (wpa_ptk_state s = WPA_PTK_PTKSTART) ||
      bool_decide (wpa_ptk_state s = WPA_PTK_PTKCALCNEGOTIATING) ||
      (update_snonce s && bool_decide (wpa_ptk_state s = WPA_PTK_PTKINITNEGOTIATING))
  | PAIRWISE_4 => bool_decide (wpa_ptk_state s = WPA_PTK_PTKINITNEGOTIATING) && PTK_valid s
  | GROUP_2 => bool_decide (wpa_ptk_group_state s = WPA_PTK_GROUP_REKEYNEGOTIATING) && PTK_valid s
  | REQUEST => true
  end.

(** The MIC of a station that has a PTK; [false] is a return. *)
Definition check_frame_mic (id : nat) (msg : auth_msg) (mic_len : Z) (data : list Z) : AM bool :=
  _ ← upd_sta id (λ s, s <| MICVerified := false |>);
  s ← get_sta id;
  if PTK_valid s && negb (update_snonce s) then
    ok ← (if bool_decide (mic_len = 0) then mret true
          else
            v ← liftA (wpa_verify_key_mic (wpa_key_mgmt s) (blen (PMK s)) (PTK s) data);
            if bool_decide (v = 0) then mret true
            else if bool_decide (msg = PAIRWISE_4) && alt_snonce_valid s
            then wpa_try_alt_snonce id data
            else mret false);
    if negb ok then mret false
    else
      _ ← upd_sta id (λ s, s <| MICVerified := true |> <| eapol_timers := [] |>
                             <| pending_1_of_4_timeout := false |>);
      mret true
  else mret true.

(** A request; [false] is a return. *)
Definition handle_request (fuel id : nat) (key_info : Z) (kd replay : list Z) : AM bool :=
  s ← get_sta id;
  if negb (MICVerified s) then mret false
  else
    _ ← upd_sta id (λ s, s <| req_replay_counter_used := true |> <| req_replay_counter := replay |>);
    if any_of key_info WPA_KEY_INFO_ERROR then
      removed ← wpa_receive_error_report id (negb (any_of key_info WPA_KEY_INFO_KEY_TYPE));
      mret (negb removed)
    else if any_of key_info WPA_KEY_INFO_KEY_TYPE then _ ← wpa_request_new_ptk id; mret true
    else
      mac ← (if bool_decide (0 < blen kd) then
               '(r, kde) ← accA (wpa_parse_kde_ies kd (blen kd));
               mret (bool_decide (r = 0) && bool_decide (is_Some (ptr kde k_mac_addr)))
             else mret false);
      if mac : bool then mret true
      else
        _ ← upd_au (λ a, a <| gtk_rekey_timers := 0%nat |>);
        g ← get_group;
        _ ← (if bool_decide (GKeyDoneStations g ≠ 0) then mret tt else wpa_rekey_gtk fuel);
        mret true.

(** The counters after an accepted frame. *)
Definition use_counters (msg : auth_msg) (replay : list Z) (s : wpa_state_machine) : wpa_state_machine :=
  let l := wpa_replay_counter_mark_invalid (Some replay) (key_replay s) in
  s <| prev_key_replay := if bool_decide (msg = PAIRWISE_2) then l else zero_counters |>
    <| key_replay := wpa_replay_counter_mark_invalid None l |>.

(** The frame is kept for the state machines, which run. *)
Definition accept_frame (id : nat) (key_info : Z) (nonce data : list Z) : AM unit :=
  ok ← amalloc (blen data);
  if negb ok then upd_sta id (λ s, s <| last_rx_eapol_key := None |>)
  else
    _ ← upd_sta id (λ s, s <| last_rx_eapol_key := Some data |>
                           <| rx_eapol_key_secure := any_of key_info WPA_KEY_INFO_SECURE |>
                           <| EAPOLKeyReceived := true |>
                           <| EAPOLKeyPairwise := any_of key_info WPA_KEY_INFO_KEY_TYPE |>
                           <| EAPOLKeyRequest := any_of key_info WPA_KEY_INFO_REQUEST |>
                           <| SNonce := nonce |>);
    _ ← step id;
    mret tt.

(** After the replay counter was accepted. *)
Definition rx_message (fuel id : nat) (msg : auth_msg) (mic_len key_info : Z) (kd replay nonce data : list Z) :
    AM unit :=
  a ← get_au;
  s ← get_sta id;
  if negb (state_expects s msg) then mret tt
  else if bool_decide (msg = PAIRWISE_2) && reject_4way_hs_for_entropy (group a) then
    wpa_sta_disconnect step (sta_addr s) WLAN_REASON_PREV_AUTH_NOT_VALID
  else if any_of key_info WPA_KEY_INFO_ACK then mret tt
  else if negb (wpa_key_mgmt_fils (wpa_key_mgmt s)) && negb (any_of key_info WPA_KEY_INFO_MIC) then mret tt
  else
    ok ← check_frame_mic id msg mic_len data;
    if negb ok then mret tt
    else
      go ← (if bool_decide (msg = REQUEST) then handle_request fuel id key_info kd replay
            else _ ← upd_sta id (use_counters msg replay); mret true);
      if go : bool then accept_frame id key_info nonce data else mret tt.

Definition wpa_receive (fuel id : nat) (data : list Z) : AM unit :=
  c ← get_conf;
  if bool_decide (conf_wpa c = 0) then mret tt
  else
    s ← get_sta id;
    let mic_len := sta_mic_len s in
    h ← accA (rx_header s data);
    match h with
    | None => mret tt
    | Some (key_info, kd) =>
        replay ← accA (frame_replay data);
        nonce ← accA (frame_nonce data);
        if any_of key_info WPA_KEY_INFO_SMK_MESSAGE then mret tt
        else if negb (rx_version_ok s key_info) then mret tt
        else
          let msg := message_of key_info mic_len (blen kd) in
          ok ← check_replay id msg replay nonce;
          if ok : bool then rx_message fuel id msg mic_len key_info kd replay nonce data else mret tt
    end.

(** ** Timeouts *)
Definition wpa_send_eapol_timeout (id : nat) : AM unit :=
  _ ← upd_sta id (λ s, s <| pending_1_of_4_timeout := false |> <| TimeoutEvt := true |>);
  _ ← step id; mret tt.
Definition wpa_rekey_ptk (id : nat) : AM unit := _ ← wpa_request_new_ptk id; _ ← step id; mret tt.
Definition wpa_rekey_gmk : AM unit :=
  r ← arandom WPA_GMK_LEN;
  _ ← match r with Some gmk => upd_group (λ g, g <| GMK := gmk |>) | None => mret tt end;
  upd_au (λ a, if bool_decide (wpa_gmk_rekey (conf a) ≠ 0) then a <| gmk_rekey_timers ::= S |> else a).

Definition wpa_auth_eapol_key_tx_status (id : nat) (ack : bool) : AM unit :=
  s ← get_sta id;
  if pending_1_of_4_timeout s && ack then
    _ ← cancel_eapol_timeout id; register_eapol_timeout id eapol_key_timeout_subseq
  else mret tt.

(** ** Stations *)
Definition wpa_auth_sta_init (addr : list Z) : AM (option nat) :=
  g ← get_group;
  if bool_decide (wpa_group_state g = WPA_GROUP_FATAL_FAILURE) then mret None
  else
    ok ← amalloc 0;
    if negb ok then mret None
    else
      a ← get_au;
      let id := next_sta a in
      _ ← upd_au (λ a, a <| stas ::= <[id := new_sta addr]> |> <| sta_list ::= λ l, id :: l |>
                         <| next_sta := S id |>);
      mret (Some id).

Definition wpa_auth_sta_associated (id : nat) : AM Z :=
  c ← get_conf;
  if bool_decide (conf_wpa c = 0) then mret (-1)
  else
    s ← get_sta id;
    if sta_ft_completed s then
      _ ← upd_sta id (λ s, s <| wpa_ptk_state := WPA_PTK_PTKINITDONE |> <| Pair := true |>); mret 0
    else if started s then
      _ ← upd_sta id (λ s, s <| key_replay := zero_counters |> <| ReAuthenticationRequest := true |>);
      step id
    else
      _ ← upd_sta id (λ s, s <| started := true |> <| Init := true |>);
      r ← step id;
      if bool_decide (r = 1) then mret 1
      else
        _ ← upd_sta id (λ s, s <| Init := false |> <| AuthenticationRequest := true |>);
        step id.

Definition wpa_auth_sta_no_wpa (id : nat) : AM unit := upd_sta id (λ s, s <| wpa_key_mgmt := 0 |>).
Definition wpa_auth_sm_notify (id : nat) : AM unit := upd_sta id (λ s, s <| call_step_timers ::= S |>).

(** ** WNM sleep mode *)
Definition wpa_set_wnmsleep (id : nat) (flag : bool) : AM unit := upd_sta id (λ s, s <| is_wnmsleep := flag |>).
Definition wpa_wnmsleep_rekey_gtk (id : nat) : AM unit :=
  s ← get_sta id; if is_wnmsleep s then mret tt else wpa_group_update_sta step id.

(** ** The authenticator *)

(** The elements that [wpa_auth_gen_wpa_ie] (src/ap/wpa_auth_ie.c) makes are an argument. *)
Definition wpa_init_keys : AM Z :=
  _ ← wpa_group_sm_step step;
  _ ← upd_group (λ g, g <| GInit := false |>);
  _ ← wpa_group_sm_step step;
  g ← get_group;
  mret (if bool_decide (wpa_group_state g = WPA_GROUP_FATAL_FAILURE) then -1 else 0).

Definition wpa_reconfig (c : wpa_auth_config) (ie : option (list Z)) : AM Z :=
  _ ← upd_au (λ a, a <| conf := c |>);
  match ie with
  | None => mret (-1)
  | Some ie =>
      _ ← upd_au (λ a, a <| auth_ie := ie |>);
      _ ← upd_group (λ g, g <| GTK_len := wpa_cipher_key_len (wpa_group c) |> <| GInit := true |>);
      _ ← wpa_group_sm_step step;
      _ ← upd_group (λ g, g <| GInit := false |>);
      _ ← wpa_group_sm_step step;
      mret 0
  end.

(** The callback of the PMKSA cache when an entry is freed. *)
Definition wpa_auth_pmksa_free_cb (e : auth_pmksa) : AM unit :=
  wpa_auth_for_each_sta
    (λ id, upd_sta id (λ s, if bool_decide ((ap_pmk <$> sta_pmksa s) = Some (ap_pmk e) ∧
                                            (ap_pmkid <$> sta_pmksa s) = Some (ap_pmkid e))
                            then s <| sta_pmksa := None |> else s)).
End ops.

(** [wpa_init] without its allocations: the authenticator before [wpa_init_keys], whose
    group has its first GMK and counter.  [None] is a failure. *)
Definition wpa_init `{C : wpa_crypto} `{E : auth_env} (addr ie : list Z) (c : wpa_auth_config)
    (t : list aevent) : outcome (option aworld) :=
  let g := zero_group <| GTKAuthenticator := true |> <| GTK_len := wpa_cipher_key_len (wpa_group c) |> in
  let a := mk_auth c addr ie g 0 0 0 0 ∅ [] 0 in
  '(r, w) ← wpa_group_init_gmk_and_counter (mk_aworld a t);
  Ret (if bool_decide (r < 0) then None
       else Some (mk_aworld ((au w) <| group ::= λ g, g <| GInit := true |> |>
                   <| gmk_rekey_timers := if bool_decide (wpa_gmk_rekey c ≠ 0) then 1%nat else 0%nat |>
                   <| gtk_rekey_timers := if bool_decide (wpa_group_rekey c ≠ 0) then 1%nat else 0%nat |>)
                   (atr w))).

(** ** Sequences of operations *)

(** What [wpa_validate_wpa_ie] (src/ap/wpa_auth_ie.c), the association and SAE set. *)
Record assoc_info := mk_assoc {
  ai_wpa : wpa_version;
  ai_pairwise : Z;
  ai_key_mgmt : Z;
  ai_ie : option (list Z);
  ai_rsnxe : option (list Z);
  ai_mfp : bool;
  ai_ext_key_id : bool;
  ai_pmksa : option auth_pmksa;
  ai_pmkid : option (list Z);
  ai_ftie : option (list Z);
  ai_dpp_z : option (list Z);
}.
Definition set_assoc (i : assoc_info) (s : wpa_state_machine) : wpa_state_machine :=
  s <| wpa := ai_wpa i |> <| sta_pairwise := ai_pairwise i |> <| wpa_key_mgmt := ai_key_mgmt i |>
    <| sta_wpa_ie := ai_ie i |> <| sta_rsnxe := ai_rsnxe i |> <| mgmt_frame_prot := ai_mfp i |>
    <| sta_use_ext_key_id := ai_ext_key_id i |> <| sta_pmksa := ai_pmksa i |>
    <| sta_pmkid := ai_pmkid i |> <| assoc_resp_ftie := ai_ftie i |> <| sta_dpp_z := ai_dpp_z i |>.

Inductive auth_op :=
| OpStaInit (addr : list Z)
| OpAssocInfo (id : nat) (i : assoc_info)
| OpAssociated (id : nat)
| OpNoWpa (id : nat)
| OpDeinit (id : nat)
| OpReceive (id : nat) (data : list Z)
| OpEvent (id : nat) (event : auth_event)
| OpNotify (id : nat)
| OpTxStatus (id : nat) (ack : bool)
| OpEapolTimeout (id : nat)
| OpRekeyPtk (id : nat)
| OpCallStep (id : nat)
| OpWnmSleep (id : nat) (flag : bool)
| OpWnmRekey (id : nat)
| OpRekeyGtk
| OpRekeyGmk
| OpInitKeys
| OpReconfig (c : wpa_auth_config) (ie : option (list Z))
| OpPmksaFreed (e : auth_pmksa).

Section run.
Context `{C : wpa_crypto} `{X : auth_crypto} `{E : auth_env}.
Variable fuel : nat.

(** hostapd calls for the stations of its list. *)
Definition for_sta (id : nat) (m : AM unit) : AM unit :=
  a ← get_au; if bool_decide (id ∈ sta_list a) then m else mret tt.
Definition ignore {A} (m : AM A) : AM unit := _ ← m; mret tt.

(** A timeout that is registered runs, and is not registered any more. *)
Definition fire (id : nat) (due : wpa_state_machine → bool) (clear : wpa_state_machine → wpa_state_machine)
    (m : AM unit) : AM unit :=
  for_sta id (s ← get_sta id; if due s then _ ← upd_sta id clear; m else mret tt).

Definition auth_do (o : auth_op) : AM unit :=
  let step := wpa_sm_step fuel in
  match o with
  | OpStaInit addr => ignore (wpa_auth_sta_init addr)
  | OpAssocInfo id i => for_sta id (upd_sta id (set_assoc i))
  | OpAssociated id => for_sta id (ignore (wpa_auth_sta_associated step id))
  | OpNoWpa id => for_sta id (wpa_auth_sta_no_wpa id)
  | OpDeinit id => for_sta id (wpa_auth_sta_deinit id)
  | OpReceive id data => for_sta id (wpa_receive step fuel id data)
  | OpEvent id event => for_sta id (ignore (wpa_auth_sm_event step id event))
  | OpNotify id => for_sta id (wpa_auth_sm_notify id)
  | OpTxStatus id ack => for_sta id (wpa_auth_eapol_key_tx_status id ack)
  | OpEapolTimeout id =>
      fire id (λ s, bool_decide (eapol_timers s ≠ [])) (λ s, s <| eapol_timers ::= tail |>)
        (wpa_send_eapol_timeout step id)
  | OpRekeyPtk id => fire id ptk_rekey_timer (λ s, s <| ptk_rekey_timer := false |>) (wpa_rekey_ptk step id)
  | OpCallStep id =>
      fire id (λ s, bool_decide (call_step_timers s ≠ 0%nat)) (λ s, s <| call_step_timers ::= pred |>)
        (ignore (step id))
  | OpWnmSleep id flag => for_sta id (wpa_set_wnmsleep id flag)
  | OpWnmRekey id => for_sta id (wpa_wnmsleep_rekey_gtk step id)
  | OpRekeyGtk =>
      a ← get_au;
      if bool_decide (gtk_rekey_timers a = 0%nat) then mret tt
      else _ ← upd_au (λ a, a <| gtk_rekey_timers ::= pred |>); wpa_rekey_gtk step fuel
  | OpRekeyGmk =>
      a ← get_au;
      if bool_decide (gmk_rekey_timers a = 0%nat) then mret tt
      else _ ← upd_au (λ a, a <| gmk_rekey_timers ::= pred |>); wpa_rekey_gmk
  | OpInitKeys => ignore (wpa_init_keys step)
  | OpReconfig c ie => ignore (wpa_reconfig step c ie)
  | OpPmksaFreed e => wpa_auth_pmksa_free_cb e
  end.

Fixpoint auth_run (os : list auth_op) : AM unit :=
  match os with
  | [] => mret tt
  | o :: os => _ ← auth_do o; auth_run os
  end.
End run.
