(* ===== verification/AuthExample.v ===== *)
(** A supplicant and an authenticator

    The supplicant of WpaExample and an access point of WPA2-PSK with CCMP and management
    frame protection.  [exchange] takes the newest frame of the access point to the
    station, and the reply to the access point. *)
From S2P Require Import Prelude Bytes Defs Suites RsnIe Kde PmksaCache WpaKey WpaSm WpaHandshake WpaOps WpaExample AuthSm AuthSend AuthStep AuthOps.

#[export] Instance toy_wrap : auth_crypto := {| aes_wrap := λ _ _ d, Some (replicate 8 0xa6 ++ d) |}.

(** Every call succeeds, when [random] is set. *)
Definition toy_auth_env (random : bool) : auth_env := {|
  aenv_malloc := λ _ _, true;
  aenv_random := λ t n, if random then Some (replicate (Z.to_nat n) (Z.of_nat (length t) mod 256)) else None;
  aenv_ntp := λ _, zeros 8;
  group_ptr := zeros 4;
  aenv_set_key := λ _ _, 0;
  aenv_seqnum := λ _ _, Some (zeros 8);
  aenv_eapol := λ _ _ _, 0;
  aenv_msk := λ _ _, None;
  aenv_psks := λ _ _, [(replicate 32 0x11, 0)];
  aenv_update_vlan := λ _ _ _, 0;
  aenv_mic_failure := λ _ _, 0;
  aenv_ft_vlan := λ _ _, true |}.

Definition toy_conf : wpa_auth_config :=
  mk_conf WPA_PROTO_RSN WPA_CIPHER_CCMP 600 false 0 0 false 4 4 false 2 false 1 true
    WPA_CIPHER_AES_128_CMAC [] [] [] (zeros 6) 0 0 false false false 0 0 false.
Definition toy_assoc : assoc_info :=
  mk_assoc WPA_VERSION_WPA2 WPA_CIPHER_CCMP WPA_KEY_MGMT_PSK (Some ap_rsne) None true false None None
    None None.

Definition ap_fuel : nat := 40.
Definition ap_does (random : bool) (os : list auth_op) (w : aworld) : outcome aworld :=
  '(_, w) ← auth_run (E := toy_auth_env random) ap_fuel os w; Ret w.

(** The access point with its keys and one station that associates: message 1/4 is sent. *)
Definition ap_ready : outcome aworld :=
  w ← wpa_init (E := toy_auth_env true) ap ap_rsne toy_conf [];
  match w with
  | None => Abort
  | Some w => ap_does true [OpInitKeys; OpStaInit own; OpAssocInfo 0 toy_assoc; OpEvent 0 WPA_ASSOC;
                            OpAssociated 0] w
  end.

Definition ap_frames (t : list aevent) : list (list Z) :=
  omap (λ e, match e with ASendEapol _ d _ => Some d | _ => None end) t.
Definition sta_frames (t : list event) : list (list Z) :=
  omap (λ e, match e with EtherSend _ _ d _ => Some d | _ => None end) t.

Definition link : Type := aworld * world.
Definition exchange (l : link) : outcome link :=
  let '(a, s) := l in
  match ap_frames (atr a) with
  | [] => Ret l
  | f :: _ =>
      '(_, s) ← wpa_sm_rx_eapol ap f s;
      match sta_frames (tr s) with
      | [] => Ret (a, s)
      | reply :: _ => a ← ap_does true [OpReceive 0 reply] a; Ret (a, s)
      end
  end.

Definition connected : outcome link :=
  a ← ap_ready; l ← exchange (a, start); exchange l.

(** The keys that the two ends gave to their drivers, the newest first. *)
Definition ap_keys (t : list aevent) : list (wpa_alg * Z * list Z) :=
  omap (λ e, match e with ASetKey k _ => pair (ak_alg k, ak_idx k) <$> ak_key k | _ => None end) t.
Definition sta_keys (t : list event) : list (wpa_alg * Z * list Z) :=
  omap (λ e, match e with SetKey k _ => pair (k_alg k, k_idx k) <$> k_key k | _ => None end) t.
Definition ap_ports (t : list aevent) : list Z :=
  omap (λ e, match e with ASetEapol _ EAPOL_authorized v => Some v | _ => None end) t.

Definition sta_states (a : aworld) : option (ptk_state * ptk_group_state) :=
  (λ s, (wpa_ptk_state s, wpa_ptk_group_state s)) <$> stas (au a) !! 0%nat.

(** After the handshake the timer of the group key expires. *)
Definition rekeyed : outcome link :=
  '(a, s) ← connected; a ← ap_does true [OpRekeyGtk] a; exchange (a, s).

(** The 4-way handshake and a group key handshake after it, each frame from the
    authenticator's handlers to the supplicant's and back.  At the end the station is in
    PTKINITDONE and IDLE, its port was authorized once, no station misses the group keys,
    and the seven keys that the supplicant gave to its driver, the pairwise key and two
    generations of GTK, IGTK and BIGTK, are those that the access point gave to its own
    last, with the same algorithms and indexes. *)
Example handshake_completes :
  ∃ a s, rekeyed = Ret (a, s) ∧
    sta_states a = Some (WPA_PTK_PTKINITDONE, WPA_PTK_GROUP_IDLE) ∧
    ap_ports (atr a) = [1; 0] ∧ GKeyDoneStations (group (au a)) = 0 ∧
    length (sta_keys (tr s)) = 7%nat ∧ sta_keys (tr s) ≡ₚ take 7 (ap_keys (atr a)).
Proof.
  destruct rekeyed as [[a s]| |] eqn:Er; [|by vm_compute in Er..].
  exists a, s. split; [done|].
  assert (bool_decide (sta_states a = Some (WPA_PTK_PTKINITDONE, WPA_PTK_GROUP_IDLE) ∧
    ap_ports (atr a) = [1; 0] ∧ GKeyDoneStations (group (au a)) = 0 ∧
    length (sta_keys (tr s)) = 7%nat ∧ sta_keys (tr s) ≡ₚ take 7 (ap_keys (atr a))) = true)
    as H%bool_decide_eq_true; [|done].
  vm_compute in Er. injection Er as <- <-. by vm_compute.
Qed.
