(* ===== verification/AuthLogic.v ===== *)
(** Reasoning about the monad of the authenticator

    [awp m Q w]: [m] from the world [w] returns, with a result and a world that satisfy
    [Q].  [holds P m Q]: the same from every world of [P].  [asteps R m]: whenever [m]
    returns, the worlds before and after are related by the preorder [R].

    [quiet] is the preorder of the calls that do not take part in the state machines:
    they leave the [core] of every station and of the group, and install no pairwise key
    and open no port. *)
From S2P Require Import Prelude PmksaCache WpaKey WpaSm AuthSm.

(** ** Weakest preconditions *)
Definition awp {A} (m : AM A) (Q : A → aworld → Prop) (w : aworld) : Prop :=
  match m w with Ret (a, w') => Q a w' | Abort => False | Undef => False end.

Section awp.
Context {A B : Type}.
Implicit Types (m : AM A) (Q : A → aworld → Prop) (w : aworld).

Lemma awp_mono m Q Q' w : awp m Q w → (∀ a w', Q a w' → Q' a w') → awp m Q' w.
Proof. unfold awp. destruct (m w) as [[a w']| |]; auto. Qed.
Lemma awp_bind m (f : A → AM B) (Q : B → aworld → Prop) w :
  awp m (λ a w', awp (f a) Q w') w → awp (m ≫= f) Q w.
Proof. unfold awp, mbind, AM_bind. destruct (m w) as [[a w']| |]; done. Qed.
Lemma awp_use m (f : A → AM B) (P : A → aworld → Prop) (Q : B → aworld → Prop) w :
  awp m P w → (∀ a w', P a w' → awp (f a) Q w') → awp (m ≫= f) Q w.
Proof. intros H HP. apply awp_bind. eapply awp_mono; [exact H|exact HP]. Qed.
Lemma awp_ret (a : A) Q w : Q a w → awp (mret a) Q w.
Proof. done. Qed.
Lemma awp_query (f : list aevent → A) Q w : Q (f (atr w)) w → awp (query f) Q w.
Proof. done. Qed.
Lemma awp_acc o (a : A) Q w : o = Some a → Q a w → awp (accA o) Q w.
Proof. by intros ->. Qed.
Lemma awp_lift o (a : A) Q w : o = Ret a → Q a w → awp (liftA o) Q w.
Proof. by intros ->. Qed.
Lemma awp_returns m Q w : awp m Q w → ∃ a w', m w = Ret (a, w') ∧ Q a w'.
Proof. unfold awp. destruct (m w) as [[a w']| |]; [eauto|done..]. Qed.
Lemma awp_ret_of m Q w a w' : awp m Q w → m w = Ret (a, w') → Q a w'.
Proof. unfold awp. by intros H E; rewrite E in H. Qed.
End awp.

Lemma awp_get Q w : Q (au w) w → awp get_au Q w.
Proof. done. Qed.
Lemma awp_upd f Q w : Q tt (mk_aworld (f (au w)) (atr w)) → awp (upd_au f) Q w.
Proof. done. Qed.
Lemma awp_note e Q w : Q tt (mk_aworld (au w) (e :: atr w)) → awp (note e) Q w.
Proof. done. Qed.
Lemma awp_conf Q w : Q (conf (au w)) w → awp get_conf Q w.
Proof. done. Qed.
Lemma awp_group Q w : Q (group (au w)) w → awp get_group Q w.
Proof. done. Qed.
Lemma awp_sta id s Q w : stas (au w) !! id = Some s → Q s w → awp (get_sta id) Q w.
Proof. intros E H. unfold get_sta, awp, mbind, AM_bind, get_au, accA, liftA. by rewrite E. Qed.

(** The world with a station, or the group, changed. *)
Definition set_sta (id : nat) (s : wpa_state_machine) (w : aworld) : aworld :=
  mk_aworld ((au w) <| stas ::= <[id := s]> |>) (atr w).
Definition set_group (g : wpa_group_data) (w : aworld) : aworld :=
  mk_aworld ((au w) <| group := g |>) (atr w).
Definition noted (e : aevent) (w : aworld) : aworld := mk_aworld (au w) (e :: atr w).

Lemma awp_upd_sta id f s Q w :
  stas (au w) !! id = Some s → Q tt (set_sta id (f s) w) → awp (upd_sta id f) Q w.
Proof. intros E H. unfold upd_sta. apply awp_bind. by eapply awp_sta. Qed.
Lemma awp_upd_group f Q w : Q tt (set_group (f (group (au w))) w) → awp (upd_group f) Q w.
Proof. done. Qed.

(** ** Triples *)
Definition holds (P : aworld → Prop) {A} (m : AM A) (Q : A → aworld → Prop) : Prop :=
  ∀ w, P w → awp m Q w.

(** ** Inversion of a run *)
Lemma arun_bind {A B} (m : AM A) (f : A → AM B) w b w' :
  (m ≫= f) w = Ret (b, w') → ∃ a w1, m w = Ret (a, w1) ∧ f a w1 = Ret (b, w').
Proof.
  unfold mbind, AM_bind. destruct (m w) as [[a w1]| |]; [|done..]. by exists a, w1.
Qed.
Lemma arun_acc {A} (o : option A) w a w' : accA o w = Ret (a, w') → o = Some a ∧ w' = w.
Proof. unfold accA, liftA, access. destruct o; [by intros [= -> ->]|done]. Qed.
Lemma arun_lift {A} (o : outcome A) w a w' : liftA o w = Ret (a, w') → o = Ret a ∧ w' = w.
Proof. unfold liftA. destruct o; [by intros [= -> ->]|done..]. Qed.
Lemma arun_ret {A} (x : A) w a w' : mret (M := AM) x w = Ret (a, w') → a = x ∧ w' = w.
Proof. by intros [= -> ->]. Qed.
Lemma arun_query {A} (f : list aevent → A) w a w' : query f w = Ret (a, w') → a = f (atr w) ∧ w' = w.
Proof. by intros [= -> ->]. Qed.
Lemma arun_note e w a w' : note e w = Ret (a, w') → w' = noted e w.
Proof. by intros [= _ <-]. Qed.
Lemma arun_get w a w' : get_au w = Ret (a, w') → a = au w ∧ w' = w.
Proof. by intros [= -> ->]. Qed.
Lemma arun_conf w a w' : get_conf w = Ret (a, w') → a = conf (au w) ∧ w' = w.
Proof. by intros [= -> ->]. Qed.
Lemma arun_group w a w' : get_group w = Ret (a, w') → a = group (au w) ∧ w' = w.
Proof. by intros [= -> ->]. Qed.
Lemma arun_upd f w a w' : upd_au f w = Ret (a, w') → w' = mk_aworld (f (au w)) (atr w).
Proof. by intros [= _ <-]. Qed.
Lemma arun_upd_group f w a w' : upd_group f w = Ret (a, w') → w' = set_group (f (group (au w))) w.
Proof. by intros [= _ <-]. Qed.
Lemma arun_sta id w s w' : get_sta id w = Ret (s, w') → stas (au w) !! id = Some s ∧ w' = w.
Proof.
  unfold get_sta. intros (a & w1 & E & H)%arun_bind. apply arun_get in E as [-> ->].
  by apply arun_acc in H as [? ->].
Qed.
Lemma arun_upd_sta id f w a w' :
  upd_sta id f w = Ret (a, w') → ∃ s, stas (au w) !! id = Some s ∧ w' = set_sta id (f s) w.
Proof.
  unfold upd_sta. intros (s & w1 & E & H)%arun_bind. apply arun_sta in E as [E ->].
  apply arun_upd in H as ->. by exists s.
Qed.

(** Inverts the first operation of the run [H]. *)
Ltac arun_first H :=
  lazymatch type of H with
  | (_ ≫= _) ?w = _ =>
      let a := fresh "a" in let w1 := fresh "w" in let Ha := fresh "Ha" in
      apply arun_bind in H as (a & w1 & Ha & H); cbv beta zeta in H;
      lazymatch type of Ha with
      | mret _ _ = _ => apply arun_ret in Ha as [Ha ->]; try subst a
      | get_au _ = _ => apply arun_get in Ha as [-> ->]
      | get_conf _ = _ => apply arun_conf in Ha as [-> ->]
      | get_group _ = _ => apply arun_group in Ha as [-> ->]
      | get_sta _ _ = _ => apply arun_sta in Ha as [Ha ->]
      | upd_au _ _ = _ => apply arun_upd in Ha as ->
      | upd_group _ _ = _ => apply arun_upd_group in Ha as ->
      | upd_sta _ _ _ = _ =>
          let s := fresh "s" in let Hs := fresh "Hs" in
          apply arun_upd_sta in Ha as (s & Hs & ->)
      | note _ _ = _ => apply arun_note in Ha as ->
      | query _ _ = _ => apply arun_query in Ha as [-> ->]
      | accA _ _ = _ => apply arun_acc in Ha as [Ha ->]
      | liftA _ _ = _ => apply arun_lift in Ha as [Ha ->]
      | _ => idtac
      end
  | mret _ _ = Ret (?a, _) => apply arun_ret in H as [H ->]; try subst a
  | get_sta _ _ = _ => apply arun_sta in H as [H ->]
  | upd_au _ _ = _ => apply arun_upd in H as ->
  | upd_group _ _ = _ => apply arun_upd_group in H as ->
  | upd_sta _ _ _ = _ =>
      let s := fresh "s" in let Hs := fresh "Hs" in
      apply arun_upd_sta in H as (s & Hs & ->)
  | note _ _ = _ => apply arun_note in H as ->
  | accA _ _ = _ => apply arun_acc in H as [H ->]
  | liftA _ _ = _ => apply arun_lift in H as [H ->]
  end.
Ltac arun_step H := arun_first H; repeat match goal with u : () |- _ => destruct u end.

(** ** Relations that every step respects *)
Definition asteps (R : aworld → aworld → Prop) {A} (m : AM A) : Prop :=
  ∀ w a w', m w = Ret (a, w') → R w w'.

Section asteps.
Context (R : aworld → aworld → Prop) `{!PreOrder R}.

Lemma asteps_bind {A B} (m : AM A) (f : A → AM B) :
  asteps R m → (∀ a, asteps R (f a)) → asteps R (m ≫= f).
Proof.
  intros Hm Hf w b w' (a & w1 & Ha & H)%arun_bind. transitivity w1; [by eapply Hm|by eapply Hf].
Qed.
Lemma asteps_ret {A} (a : A) : asteps R (mret a).
Proof. by intros w ? w' [= _ <-]. Qed.
Lemma asteps_get : asteps R get_au.
Proof. by intros w ? w' [= _ <-]. Qed.
Lemma asteps_conf : asteps R get_conf.
Proof. by intros w ? w' [= _ <-]. Qed.
Lemma asteps_group : asteps R get_group.
Proof. by intros w ? w' [= _ <-]. Qed.
Lemma asteps_sta id : asteps R (get_sta id).
Proof. by intros w s w' [_ ->]%arun_sta. Qed.
Lemma asteps_query {A} (f : list aevent → A) : asteps R (query f).
Proof. by intros w ? w' [= _ <-]. Qed.
Lemma asteps_lift {A} (o : outcome A) : asteps R (liftA o).
Proof. by intros w a w' [_ ->]%arun_lift. Qed.
Lemma asteps_acc {A} (o : option A) : asteps R (accA o).
Proof. apply asteps_lift. Qed.
Lemma asteps_note e : (∀ w, R w (noted e w)) → asteps R (note e).
Proof. intros H w a w' ->%arun_note. apply H. Qed.
Lemma asteps_upd f : (∀ w, R w (mk_aworld (f (au w)) (atr w))) → asteps R (upd_au f).
Proof. intros H w a w' ->%arun_upd. apply H. Qed.
Lemma asteps_upd_group f : (∀ w, R w (set_group (f (group (au w))) w)) → asteps R (upd_group f).
Proof. intros H w a w' ->%arun_upd_group. apply H. Qed.
Lemma asteps_upd_sta id f :
  (∀ w s, stas (au w) !! id = Some s → R w (set_sta id (f s) w)) → asteps R (upd_sta id f).
Proof. intros H w a w' (s & Hs & ->)%arun_upd_sta. by apply H. Qed.
End asteps.

(** Walks over a program; [tac] closes the updates and the events, and the calls with a
    lemma of the hint database [asteps]. *)
Create HintDb asteps.
Ltac asteps_walk tac :=
  lazymatch goal with
  | |- asteps _ (mbind _ _) =>
      apply asteps_bind; [try apply _; done|asteps_walk tac|intros ?; asteps_walk tac]
  | |- asteps _ (mret _) => apply asteps_ret; apply _
  | |- asteps _ get_au => apply asteps_get; apply _
  | |- asteps _ get_conf => apply asteps_conf; apply _
  | |- asteps _ get_group => apply asteps_group; apply _
  | |- asteps _ (get_sta _) => apply asteps_sta; apply _
  | |- asteps _ (query _) => apply asteps_query; apply _
  | |- asteps _ (liftA _) => apply asteps_lift; apply _
  | |- asteps _ (accA _) => apply asteps_acc; apply _
  | |- asteps _ (upd_au _) => first [solve [eauto with asteps] | apply asteps_upd; intros; tac]
  | |- asteps _ (upd_group _) => first [solve [eauto with asteps] | apply asteps_upd_group; intros; tac]
  | |- asteps _ (upd_sta _ _) => first [solve [eauto with asteps] | apply asteps_upd_sta; intros; tac]
  | |- asteps _ (note _) => first [solve [eauto with asteps] | apply asteps_note; intros; tac]
  | |- asteps _ (if ?c then _ else _) => destruct c; asteps_walk tac
  | |- asteps _ (match ?x with _ => _ end) => destruct x; asteps_walk tac
  | |- asteps _ _ => solve [eauto with asteps]
  end.
