(* ===== verification/AuthQuiet.v ===== *)
(** The calls that do not take part in the state machines of the authenticator

    [core] of a station is what its state machines are about; [quiet] calls change only
    the rest.  Sending a frame, deriving a PTK, building key data and computing group keys
    are quiet. *)
From S2P Require Import Prelude PmksaCache WpaKey WpaSm AuthSm AuthSend AuthStep AuthOps AuthLogic.

Definition core (s : wpa_state_machine) : wpa_state_machine :=
  s <| disconnect_reason := 0 |> <| ANonce := [] |> <| SNonce := [] |> <| alt_SNonce := [] |>
    <| alt_replay_counter := [] |> <| PMK := [] |> <| sta_keyidx_active := 0 |>
    <| pairwise_set := false |> <| tk_already_set := false |> <| key_replay := [] |>
    <| prev_key_replay := [] |> <| has_GTK := false |> <| rx_eapol_key_secure := false |>
    <| alt_snonce_valid := false |> <| sta_ft_completed := false |> <| req_replay_counter := [] |>
    <| req_replay_counter_used := false |> <| remote_mic_failures := 0 |> <| sta_xxkey := [] |>
    <| sta_pmk_r1 := [] |> <| sta_pmk_r1_name := [] |> <| sup_pmk_r1_name := [] |>
    <| pending_1_of_4_timeout := false |> <| eapol_timers := [] |> <| ptk_rekey_timer := false |>
    <| call_step_timers := 0%nat |>.

Definition gcore (g : wpa_group_data) : wpa_group_data :=
  g <| GTK_len := 0 |> <| GN := 0 |> <| GM := 0 |> <| Counter := [] |> <| GMK := [] |>
    <| GTK := [] |> <| GNonce := [] |> <| first_sta_seen := false |>
    <| reject_4way_hs_for_entropy := false |> <| IGTK := [] |> <| BIGTK := [] |> <| GN_igtk := 0 |>
    <| GM_igtk := 0 |> <| GN_bigtk := 0 |> <| GM_bigtk := 0 |>.

(** Events other than the installation of a pairwise key and the opening of a port. *)
Definition plain (e : aevent) : Prop :=
  match e with
  | ASetKey k _ => ak_key k = None ∨ ak_flag k = KEY_FLAG_GROUP_TX_DEFAULT
  | ASetEapol _ EAPOL_authorized v => v = 0
  | _ => True
  end.

Record quiet (w w' : aworld) : Prop := {
  qt_core : core <$> stas (au w') = core <$> stas (au w);
  qt_group : gcore (group (au w')) = gcore (group (au w));
  qt_list : sta_list (au w') = sta_list (au w);
  qt_conf : conf (au w') = conf (au w);
  qt_trace : ∃ l, atr w' = l ++ atr w ∧ Forall plain l;
}.

#[export] Instance quiet_preorder : PreOrder quiet.
Proof.
  split; [intros w; split; [done..|by exists []]|].
  intros w1 w2 w3 [H1 H2 H3 H4 (l & H5 & P)] [I1 I2 I3 I4 (k & I5 & P')]. split; try congruence.
  exists (k ++ l). split; [by rewrite I5, H5, (assoc_L (++))|by apply Forall_app].
Qed.

Lemma quiet_sta id s f w : stas (au w) !! id = Some s → core (f s) = core s → quiet w (set_sta id (f s) w).
Proof.
  intros Hs Hf. split; [|done..|by exists []]. cbn. rewrite fmap_insert, Hf. apply insert_id.
  by rewrite lookup_fmap, Hs.
Qed.
Lemma quiet_group w g : gcore g = gcore (group (au w)) → quiet w (set_group g w).
Proof. intros H. split; [done|exact H|done|done|by exists []]. Qed.
Lemma quiet_note e w : plain e → quiet w (noted e w).
Proof. intros H. split; [done..|]. exists [e]. split; [done|]. by constructor. Qed.

(** A station after a quiet call. *)
Lemma quiet_lookup w w' id s :
  quiet w w' → stas (au w) !! id = Some s → ∃ s', stas (au w') !! id = Some s' ∧ core s' = core s.
Proof.
  intros [H _ _ _ _] Hs. pose proof (f_equal (lookup id) H) as E. rewrite !lookup_fmap, Hs in E.
  destruct (stas (au w') !! id) as [s'|]; [|done]. apply (inj Some) in E. by exists s'.
Qed.
Lemma quiet_lookup_rev w w' id s' :
  quiet w w' → stas (au w') !! id = Some s' → ∃ s, stas (au w) !! id = Some s ∧ core s' = core s.
Proof.
  intros [H _ _ _ _] Hs. pose proof (f_equal (lookup id) H) as E. rewrite !lookup_fmap, Hs in E.
  destruct (stas (au w) !! id) as [s|]; [|done]. apply (inj Some) in E. by exists s.
Qed.

Ltac quiet_tac :=
  first [ apply quiet_sta; [done|by repeat case_bool_decide]
        | apply quiet_group; done
        | apply quiet_note; cbn; auto; done
        | solve [split; [done..|by exists []]] ].
Ltac quiet_walk := asteps_walk quiet_tac.
#[export] Hint Extern 1 (PreOrder quiet) => apply quiet_preorder : typeclass_instances.

Section quiet.
Context `{C : wpa_crypto} `{X : auth_crypto} `{E : auth_env}.

Lemma amalloc_quiet n : asteps quiet (amalloc n).
Proof. unfold amalloc. quiet_walk. Qed.
Lemma arandom_quiet n : asteps quiet (arandom n).
Proof. unfold arandom. quiet_walk. Qed.
Lemma seqnum_quiet n : asteps quiet (wpa_auth_get_seqnum n).
Proof. unfold wpa_auth_get_seqnum. quiet_walk. Qed.
Lemma get_eapol_quiet a v : asteps quiet (wpa_auth_get_eapol a v).
Proof. unfold wpa_auth_get_eapol. quiet_walk. Qed.
Lemma get_msk_quiet a : asteps quiet (wpa_auth_get_msk a).
Proof. unfold wpa_auth_get_msk. quiet_walk. Qed.
Lemma get_psks_quiet a : asteps quiet (wpa_auth_get_psks a).
Proof. unfold wpa_auth_get_psks. quiet_walk. Qed.
Lemma update_vlan_quiet a v : asteps quiet (wpa_auth_update_vlan a v).
Proof. unfold wpa_auth_update_vlan. quiet_walk. Qed.
Lemma mic_failure_quiet a : asteps quiet (wpa_auth_mic_failure_report a).
Proof. unfold wpa_auth_mic_failure_report. quiet_walk. Qed.
Lemma ft_get_vlan_quiet a : asteps quiet (wpa_ft_get_vlan a).
Proof. unfold wpa_ft_get_vlan. quiet_walk. Qed.
Lemma set_eapol_quiet a v x : v ≠ EAPOL_authorized ∨ x = 0 → asteps quiet (wpa_auth_set_eapol a v x).
Proof.
  intros H. unfold wpa_auth_set_eapol. apply asteps_note. intros w. apply quiet_note. cbn.
  destruct v; try done. by destruct H.
Qed.
Lemma send_quiet a d b : asteps quiet (wpa_auth_send_eapol a d b).
Proof. unfold wpa_auth_send_eapol. quiet_walk. Qed.
Lemma set_key_quiet k :
  ak_key k = None ∨ ak_flag k = KEY_FLAG_GROUP_TX_DEFAULT → asteps quiet (wpa_auth_set_key k).
Proof.
  intros H. unfold wpa_auth_set_key. apply asteps_bind; [apply _|quiet_walk|intros r].
  apply asteps_bind; [apply _|apply asteps_note; intros; by apply quiet_note|intros _; quiet_walk].
Qed.
Lemma ptk_timer_quiet id : asteps quiet (wpa_auth_set_ptk_rekey_timer id).
Proof. unfold wpa_auth_set_ptk_rekey_timer. quiet_walk. Qed.
#[local] Hint Resolve amalloc_quiet arandom_quiet seqnum_quiet get_eapol_quiet get_msk_quiet get_psks_quiet
  update_vlan_quiet mic_failure_quiet ft_get_vlan_quiet set_eapol_quiet send_quiet set_key_quiet
  ptk_timer_quiet : asteps.
#[local] Hint Extern 1 (_ ∨ _) => solve [left; done | right; done] : asteps.

(** ** Sending *)
Lemma encrypt_quiet id v m kde p n msg : asteps quiet (encrypt_key_data id v m kde p n msg).
Proof. unfold encrypt_key_data. quiet_walk. Qed.
Lemma sign_quiet id v m msg : asteps quiet (sign_frame id v m msg).
Proof. unfold sign_frame. quiet_walk. Qed.
Lemma transmit_quiet id msg : asteps quiet (transmit id msg).
Proof. unfold transmit. quiet_walk. Qed.
#[local] Hint Resolve encrypt_quiet sign_quiet transmit_quiet : asteps.
Lemma send_eapol_quiet id i r n k x e : asteps quiet (send_eapol id i r n k x e).
Proof. unfold send_eapol. cbv zeta. quiet_walk. Qed.
#[local] Hint Resolve send_eapol_quiet : asteps.
Lemma wpa_send_eapol_quiet id i r n k x e : asteps quiet (wpa_send_eapol id i r n k x e).
Proof. unfold wpa_send_eapol, register_eapol_timeout. cbv zeta. quiet_walk. Qed.

(** ** Keys *)
Lemma derive_ptk_ft_quiet id keys : asteps quiet (wpa_auth_derive_ptk_ft id keys).
Proof. unfold wpa_auth_derive_ptk_ft. cbv zeta. quiet_walk. Qed.
#[local] Hint Resolve derive_ptk_ft_quiet : asteps.
Lemma derive_ptk_quiet id n k keys : asteps quiet (auth_derive_ptk id n k keys).
Proof. unfold auth_derive_ptk. cbv zeta. quiet_walk. Qed.
#[local] Hint Resolve derive_ptk_quiet : asteps.

Lemma init_gmk_quiet : asteps quiet wpa_group_init_gmk_and_counter.
Proof. unfold wpa_group_init_gmk_and_counter. quiet_walk. Qed.
Lemma gmk_to_gtk_quiet l n : asteps quiet (wpa_gmk_to_gtk l n).
Proof. unfold wpa_gmk_to_gtk. cbv zeta. quiet_walk. Qed.
Lemma next_gnonce_quiet : asteps quiet next_gnonce.
Proof. unfold next_gnonce. quiet_walk. Qed.
#[local] Hint Resolve init_gmk_quiet gmk_to_gtk_quiet next_gnonce_quiet : asteps.
Lemma gtk_update_quiet : asteps quiet wpa_gtk_update.
Proof. unfold wpa_gtk_update. quiet_walk. Qed.
Lemma set_group_key_quiet a i k : asteps quiet (set_group_key a i k).
Proof. unfold set_group_key. quiet_walk. Qed.
#[local] Hint Resolve gtk_update_quiet set_group_key_quiet : asteps.
Lemma config_keys_quiet : asteps quiet wpa_group_config_group_keys.
Proof. unfold wpa_group_config_group_keys. cbv zeta. quiet_walk. Qed.
#[local] Hint Resolve config_keys_quiet : asteps.
Lemma ensure_init_quiet : asteps quiet wpa_group_ensure_init.
Proof. unfold wpa_group_ensure_init. quiet_walk. Qed.
Lemma gtk_rekey_quiet : asteps quiet wpa_gtk_rekey.
Proof. unfold wpa_gtk_rekey, gtk_rekey_pass, swap_group_keys. quiet_walk. Qed.

(** ** Key data *)
Lemma group_pn_quiet i : asteps quiet (group_pn i).
Proof. unfold group_pn. quiet_walk. Qed.
Lemma key_or_random_quiet b k : asteps quiet (key_or_random b k).
Proof. unfold key_or_random. quiet_walk. Qed.
#[local] Hint Resolve group_pn_quiet key_or_random_quiet : asteps.
Lemma kde_add_quiet id wr : asteps quiet (ieee80211w_kde_add id wr).
Proof. unfold ieee80211w_kde_add. quiet_walk. Qed.
#[local] Hint Resolve kde_add_quiet : asteps.
Lemma message_3_key_data_quiet id ie g i : asteps quiet (message_3_key_data id ie g i).
Proof. unfold message_3_key_data. cbv zeta. quiet_walk. Qed.
Lemma message_3_gtk_quiet id : asteps quiet (message_3_gtk id).
Proof. unfold message_3_gtk. quiet_walk. Qed.
Lemma group_key_data_quiet id g : asteps quiet (group_key_data id g).
Proof. unfold group_key_data. cbv zeta. quiet_walk. Qed.

(** ** Message 2/4 *)
Lemma set_ft_xxkey_quiet id k : asteps quiet (set_ft_xxkey id k).
Proof. unfold set_ft_xxkey. quiet_walk. Qed.
Lemma try_pmk_quiet b id n k f keys : asteps quiet (try_pmk b id n k f keys).
Proof. unfold try_pmk. quiet_walk. Qed.
#[local] Hint Resolve set_ft_xxkey_quiet try_pmk_quiet : asteps.
Lemma try_psks_quiet b id n f psks keys : asteps quiet (try_psks b id n f psks keys).
Proof.
  revert keys. induction psks as [|[k v] psks IH]; intros keys; cbn [try_psks]; quiet_walk.
Qed.
#[local] Hint Resolve try_psks_quiet : asteps.
Lemma calc_ptk_quiet b id f : asteps quiet (calc_ptk b id f).
Proof.
  unfold calc_ptk. apply asteps_bind; [apply _|quiet_walk|intros s].
  destruct (tries_psks s); [quiet_walk|]. destruct (match PMK s with [] => _ | _ => _ end). quiet_walk.
Qed.
Lemma ft_check_quiet id kd kde : asteps quiet (ft_check_msg_2_of_4 id kd kde).
Proof.
  unfold ft_check_msg_2_of_4. cbv zeta. quiet_walk.
Qed.
Lemma vlan_ok_quiet s v : asteps quiet (vlan_ok s v).
Proof. unfold vlan_ok. quiet_walk. Qed.
Lemma keep_pmk_quiet id k b : asteps quiet (keep_pmk id k b).
Proof. unfold keep_pmk. quiet_walk. Qed.
End quiet.

#[export] Hint Resolve amalloc_quiet arandom_quiet seqnum_quiet get_eapol_quiet get_msk_quiet get_psks_quiet
  update_vlan_quiet mic_failure_quiet ft_get_vlan_quiet set_eapol_quiet send_quiet set_key_quiet
  ptk_timer_quiet encrypt_quiet sign_quiet transmit_quiet wpa_send_eapol_quiet derive_ptk_quiet
  init_gmk_quiet gtk_update_quiet config_keys_quiet ensure_init_quiet gtk_rekey_quiet
  key_or_random_quiet group_pn_quiet set_group_key_quiet gmk_to_gtk_quiet
  message_3_key_data_quiet message_3_gtk_quiet group_key_data_quiet set_ft_xxkey_quiet try_psks_quiet
  try_pmk_quiet calc_ptk_quiet ft_check_quiet vlan_ok_quiet keep_pmk_quiet : asteps.
#[export] Hint Extern 1 (_ ∨ _) => solve [left; done | right; done] : asteps.

(** The run [H] of a quiet call. *)
Ltac quiet_run H Q :=
  lazymatch type of H with
  | ?m ?w = Ret (_, ?w') =>
      assert (Q : quiet w w');
      [revert H; let W := fresh in assert (W : asteps quiet m) by quiet_walk; apply W|]
  end.
