(* ===== verification/AuthKeys.v ===== *)
(** The authenticator installs keys only after a MIC

    [Inv] is the invariant: a station whose [PTK_valid] is set has a PTK under which the
    MIC of a received frame was right, and a station that could enter PTKINITDONE has
    [PTK_valid] set or another transition to take first. *)
From S2P Require Import Prelude Bytes Defs PmksaCache WpaKey WpaKeyProofs WpaSm WpaHandshake WpaSafe AuthSm AuthSend AuthStep AuthOps AuthLogic AuthQuiet.

Section keys.
Context `{C : wpa_crypto} `{X : auth_crypto} `{E : auth_env}.

(** The frames that were received from an address. *)
Context (heard : list Z → list Z → Prop).

(** The MIC of a received frame is the one of this PTK, and has octets. *)
Definition vouched (addr : list Z) (p : wpa_ptk) : Prop :=
  ∃ f akm n, heard addr f ∧ 0 < wpa_mic_len akm n ∧ wpa_verify_key_mic akm n p f = Ret 0.

(** A request that the machine serves before it looks at its state. *)
Definition pend (s : wpa_state_machine) : bool :=
  Init s || Disconnect s || DeauthenticationRequest s || AuthenticationRequest s ||
  ReAuthenticationRequest s || PTKRequest s.
Definition negotiating (st : ptk_state) : Prop :=
  st = WPA_PTK_PTKCALCNEGOTIATING ∨ st = WPA_PTK_PTKCALCNEGOTIATING2 ∨ st = WPA_PTK_PTKINITNEGOTIATING.

Record sinv (s : wpa_state_machine) : Prop := {
  si_ptk : PTK_valid s = true → vouched (sta_addr s) (PTK s);
  si_frame : opt_all (heard (sta_addr s)) (last_rx_eapol_key s);
  si_calc2 : pend s = false → wpa_ptk_state s = WPA_PTK_PTKCALCNEGOTIATING2 → MICVerified s = true;
  si_neg : pend s = false → wpa_ptk_state s = WPA_PTK_PTKINITNEGOTIATING →
    pairwise_frame s = true → MICVerified s = true ∨ update_snonce s = true;
  si_done : PTK_valid s = false → pend s = false → negotiating (wpa_ptk_state s) →
    pairwise_frame s = true → MICVerified s = true → update_snonce s = true;
}.

(** A station whose steps are done. *)
Definition settled (s : wpa_state_machine) : Prop :=
  pend s = false → wpa_ptk_state s ≠ WPA_PTK_PTKCALCNEGOTIATING2 ∧
                   (negotiating (wpa_ptk_state s) → pairwise_frame s = false).

Definition event_ok (e : aevent) : Prop :=
  match e with
  | ASetKey k _ => ak_flag k = KEY_FLAG_PAIRWISE_RX_TX → ∀ key, ak_key k = Some key →
      ∃ p n, vouched (ak_addr k) p ∧ slice (tk p) 0 n = Some key
  | ASetEapol a EAPOL_authorized v => v ≠ 0 → ∃ p, vouched a p
  | _ => True
  end.

(** Where the stations are: [looping] are in a call of [wpa_sm_step], [stepped] those of
    them whose machine has stepped in the pass; and their addresses. *)
Record places := mk_places {
  stepped : gset nat;
  looping : gset nat;
  names : gmap nat (list Z);
}.
Definition step_at (id : nat) (K : places) : places :=
  mk_places ({[id]} ∪ stepped K) (looping K) (names K).
Definition loop_at (id : nat) (K : places) : places :=
  mk_places (stepped K) ({[id]} ∪ looping K) (names K).

(** [cur] is a station that is about to be stepped. *)
Record Inv (K : places) (cur : option nat) (w : aworld) : Prop := {
  iv_sta id s : stas (au w) !! id = Some s → sinv s;
  iv_rest id s : stas (au w) !! id = Some s → in_step_loop s = false → cur ≠ Some id → settled s;
  iv_loop id s : id ∈ stepped K → stas (au w) !! id = Some s →
    in_step_loop s = true ∧ (changed s = true ∨ settled s);
  iv_place id s : stas (au w) !! id = Some s →
    (in_step_loop s = true → id ∈ looping K) ∧ names K !! id = Some (sta_addr s);
  iv_events : Forall event_ok (atr w);
}.

Definition keep (K : places) (cur : option nat) (w w' : aworld) : Prop := Inv K cur w → Inv K cur w'.
#[export] Instance keep_preorder K cur : PreOrder (keep K cur).
Proof. split; [by intros w H|]. intros w1 w2 w3 H1 H2 H. by apply H2, H1. Qed.

Lemma plain_ok e : plain e → event_ok e.
Proof.
  destruct e as [| |k r| | |a [] x| | | | | | | | | | |]; cbn; try done.
  intros [Hk|Hf] H key Hkey; [by rewrite Hk in Hkey|by rewrite Hf in H].
Qed.

(** ** What the invariant depends on *)
Ltac same_core H :=
  repeat match goal with
  | |- context [?p ?s'] =>
      lazymatch type of H with
      | core s' = core ?s =>
          let E := fresh in
          assert (E : p s' = p s) by (pose proof (f_equal p H) as E; exact E); rewrite E; clear E
      end
  end.

Lemma core_pend s s' : core s' = core s → pend s' = pend s.
Proof. intros H. unfold pend. by same_core H. Qed.
Lemma core_frame s s' : core s' = core s → pairwise_frame s' = pairwise_frame s.
Proof. intros H. unfold pairwise_frame. by same_core H. Qed.

Lemma sinv_core s s' : core s' = core s → sinv s → sinv s'.
Proof.
  intros H [H2 H3 H4 H5 H6]. pose proof (core_pend _ _ H) as Hp. pose proof (core_frame _ _ H) as Hf.
  split; rewrite ?Hp, ?Hf; by same_core H.
Qed.
Lemma settled_core s s' : core s' = core s → settled s → settled s'.
Proof. intros H Hs. unfold settled. rewrite (core_pend _ _ H), (core_frame _ _ H). by same_core H. Qed.

Lemma inv_quiet K cur : ∀ w w', quiet w w' → keep K cur w w'.
Proof.
  intros w w' Q [I1 I2 I3 I4 I5]. split.
  - intros id s' Hs. destruct (quiet_lookup_rev w w' id s' Q Hs) as (s & Hs' & Hc).
    eapply sinv_core; [exact Hc|by eapply I1].
  - intros id s' Hs Hl Hcur. destruct (quiet_lookup_rev w w' id s' Q Hs) as (s & Hs' & Hc).
    eapply settled_core; [exact Hc|]. eapply I2; [exact Hs'| |done]. revert Hl. by same_core Hc.
  - intros id s' Hk Hs. destruct (quiet_lookup_rev w w' id s' Q Hs) as (s & Hs' & Hc).
    destruct (I3 id s Hk Hs') as [Hl Hch]. by same_core Hc.
  - intros id s' Hs. destruct (quiet_lookup_rev w w' id s' Q Hs) as (s & Hs' & Hc).
    specialize (I4 id s Hs'). revert I4. by same_core Hc.
  - destruct (qt_trace w w' Q) as (l & -> & Hl). apply Forall_app. split; [|done].
    eapply Forall_impl; [exact Hl|]. apply plain_ok.
Qed.

(** ** Updates *)
Definition who (s : wpa_state_machine) : list Z * bool := (sta_addr s, in_step_loop s).
Definition good_upd (f : wpa_state_machine → wpa_state_machine) : Prop := ∀ s,
  sinv s → sinv (f s) ∧ (settled s → settled (f s)) ∧ who (f s) = who s ∧
  (changed s = true ∨ settled s → changed (f s) = true ∨ settled (f s)).

(** The update of a station: its invariant, with what is known of it before. *)
Lemma inv_upd K K' cur cur' id s s' w :
  Inv K cur w → stas (au w) !! id = Some s →
  sinv s' → sta_addr s' = sta_addr s → names K' = names K →
  (in_step_loop s' = false → cur' ≠ Some id → settled s') →
  (in_step_loop s' = true → id ∈ looping K') →
  (id ∈ stepped K' → in_step_loop s' = true ∧ (changed s' = true ∨ settled s')) →
  (∀ i, i ≠ id → (i ∈ stepped K' → i ∈ stepped K) ∧ (i ∈ looping K → i ∈ looping K')) →
  (∀ i, i ≠ id → cur = Some i → cur' = Some i) →
  Inv K' cur' (set_sta id s' w).
Proof.
  intros [I1 I2 I3 I4 I5] Hs H1 Ha Hn H2 Hp H3 HK Hc. split; [..|done]; cbn; intros i x;
    (destruct (decide (i = id)) as [->|Hi]; [rewrite lookup_insert_eq|rewrite lookup_insert_ne by done]).
  - by intros [= <-].
  - apply I1.
  - by intros [= <-].
  - intros Hx Hl Hi'. eapply I2; [done..|]. intros Hcur. by apply Hi', Hc.
  - intros Hk [= <-]. by apply H3.
  - intros Hk Hx. destruct (HK i Hi) as [HK1 _]. exact (I3 i x (HK1 Hk) Hx).
  - intros [= <-]. rewrite Ha, Hn. split; [done|]. by apply I4.
  - intros Hx. rewrite Hn. destruct (I4 i x Hx), (HK i Hi). auto.
Qed.
Lemma inv_upd_same K cur id s s' w :
  Inv K cur w → stas (au w) !! id = Some s → sinv s' → who s' = who s →
  (settled s → settled s') → (changed s = true ∨ settled s → changed s' = true ∨ settled s') →
  Inv K cur (set_sta id s' w).
Proof.
  intros I Hs H1 Hw H2 H3. pose proof I as [I1 I2 I3 I4 I5]. injection Hw as Ha Hl.
  eapply inv_upd; [exact I|exact Hs|done|done|done|..|done|done]; rewrite Hl.
  - intros Hf Hc. by eapply H2, I2.
  - by apply I4.
  - intros Hk. destruct (I3 id s Hk Hs) as [Hlo Hch]. auto.
Qed.

Lemma inv_good K cur id s f w :
  good_upd f → stas (au w) !! id = Some s → Inv K cur w → Inv K cur (set_sta id (f s) w).
Proof.
  intros Hf Hs I. destruct (Hf s) as (F1 & F2 & F3 & F4); [by eapply (iv_sta _ _ _ I)|].
  by eapply inv_upd_same.
Qed.
Lemma inv_group K cur g w : Inv K cur w → Inv K cur (set_group g w).
Proof. by intros [I1 I2 I3 I4 I5]. Qed.
Lemma inv_note K cur e w : event_ok e → Inv K cur w → Inv K cur (noted e w).
Proof. intros He [I1 I2 I3 I4 I5]. split; [done..|]. by constructor. Qed.
Lemma inv_cur K id w : Inv K None w → Inv K (Some id) w.
Proof. intros [I1 I2 I3 I4 I5]. split; [done| |done..]. intros i s Hs Hl _. by eapply I2. Qed.
Lemma inv_less id K cur w : Inv (step_at id K) cur w → Inv K cur w.
Proof. intros [I1 I2 I3 I4 I5]. split; [done..| |done|done]. intros i s Hi. apply I3. set_solver. Qed.

(** Updates that leave [sinv] alone: they change nothing that it reads, or they ask for
    something that [pend] includes. *)
Ltac upd_good_of H :=
  cbv beta; unfold enter_ptk, enter_group, request_disconnect, zero_pmk;
  repeat match goal with |- context [if ?b then _ else _] => destruct b eqn:? end;
  destruct H as [H2 H3 H4 H5 H6]; unfold settled, pend, pairwise_frame, negotiating in *;
  cbn in *; split_and!; lazymatch goal with |- sinv _ => split | _ => idtac end;
  unfold pend, pairwise_frame, negotiating; cbn;
  repeat match goal with H : Init _ = true |- _ => rewrite H end;
  rewrite ?orb_true_r; cbn; intuition (try congruence; try discriminate).
Ltac upd_good := let s := fresh "s" in let H := fresh "H" in intros s H; upd_good_of H.

Section walk.
Context (K : places) (cur : option nat).

Lemma keep_quiet {A} (m : AM A) : asteps quiet m → asteps (keep K cur) m.
Proof. intros H w a w' R. by eapply inv_quiet, H. Qed.
Lemma keep_upd_sta id f : good_upd f → asteps (keep K cur) (upd_sta id f).
Proof. intros Hf w a w' (s & Hs & ->)%arun_upd_sta I. by apply inv_good. Qed.
(** The same with the address of the station. *)
Lemma keep_upd_named id f :
  (∀ s, names K !! id = Some (sta_addr s) → sinv s → sinv (f s) ∧ (settled s → settled (f s)) ∧
     who (f s) = who s ∧ (changed s = true ∨ settled s → changed (f s) = true ∨ settled (f s))) →
  asteps (keep K cur) (upd_sta id f).
Proof.
  intros Hf w a w' (s & Hs & ->)%arun_upd_sta I. pose proof I as [I1 I2 I3 I4 I5].
  destruct (Hf s) as (F1 & F2 & F3 & F4); [by apply I4|by eapply I1|]. by eapply inv_upd_same.
Qed.
Lemma keep_upd_group f : asteps (keep K cur) (upd_group f).
Proof. intros w a w' ->%arun_upd_group I. by apply inv_group. Qed.
Lemma keep_note e : event_ok e → asteps (keep K cur) (note e).
Proof. intros He w a w' ->%arun_note I. by apply inv_note. Qed.
Lemma keep_same f : (∀ a, stas (f a) = stas a) → asteps (keep K cur) (upd_au f).
Proof.
  intros Hf w a w' ->%arun_upd [I1 I2 I3 I4 I5]. split; cbn; rewrite ?Hf; done.
Qed.
End walk.
#[local] Hint Extern 2 (asteps (keep _ _) (upd_sta _ _)) => apply keep_upd_sta; upd_good : asteps.
#[local] Hint Extern 1 (asteps (keep _ _) (upd_group _)) => apply keep_upd_group : asteps.
#[local] Hint Extern 2 (asteps (keep _ _) (note _)) => apply keep_note; cbn; done : asteps.
#[local] Hint Extern 2 (asteps (keep _ _) (upd_au _)) => apply keep_same; cbn; done : asteps.
#[local] Hint Extern 5 (asteps (keep _ _) _) => apply keep_quiet; solve [eauto with asteps] : asteps.
#[local] Hint Extern 1 (PreOrder (keep _ _)) => apply keep_preorder : typeclass_instances.
Ltac keep_walk := asteps_walk fail.

(** ** The group machine of a station *)
Section machine.
Context (K : places) (cur : option nat).

Lemma key_update_done_keep id : asteps (keep K cur) (key_update_done id).
Proof. unfold key_update_done. keep_walk. Qed.
#[local] Hint Resolve key_update_done_keep : asteps.
Lemma group_IDLE_keep id : asteps (keep K cur) (group_IDLE id).
Proof. unfold group_IDLE. keep_walk. Qed.

#[local] Hint Resolve group_IDLE_keep : asteps.
Lemma group_REKEYNEGOTIATING_keep id : asteps (keep K cur) (group_REKEYNEGOTIATING id).
Proof. unfold group_REKEYNEGOTIATING. cbv zeta. keep_walk. Qed.
Lemma group_REKEYESTABLISHED_keep id : asteps (keep K cur) (group_REKEYESTABLISHED id).
Proof. unfold group_REKEYESTABLISHED. keep_walk. Qed.
Lemma group_KEYERROR_keep id : asteps (keep K cur) (group_KEYERROR id).
Proof. unfold group_KEYERROR. keep_walk. Qed.
#[local] Hint Resolve group_REKEYNEGOTIATING_keep group_REKEYESTABLISHED_keep group_KEYERROR_keep : asteps.
Lemma group_step_keep id : asteps (keep K cur) (sm_WPA_PTK_GROUP_Step id).
Proof. unfold sm_WPA_PTK_GROUP_Step. keep_walk. Qed.
End machine.
#[local] Hint Resolve key_update_done_keep group_step_keep : asteps.

(** A property of the station that only its core decides, kept with the invariant. *)
Definition keep_at (G : wpa_state_machine → Prop) (id : nat) (K : places) (cur : option nat)
    (w w' : aworld) : Prop :=
  Inv K cur w ∧ (∀ s, stas (au w) !! id = Some s → G s) →
  Inv K cur w' ∧ (∀ s, stas (au w') !! id = Some s → G s).
#[export] Instance keep_at_preorder G id K cur : PreOrder (keep_at G id K cur).
Proof. split; [by intros w H|]. intros w1 w2 w3 H1 H2 H. by apply H2, H1. Qed.
#[local] Hint Extern 1 (PreOrder (keep_at _ _ _ _)) => apply keep_at_preorder : typeclass_instances.

(** A station whose PTK may go away: it cannot enter PTKINITDONE before it has another. *)
Definition free (s : wpa_state_machine) : Prop :=
  pend s = true ∨ ¬ negotiating (wpa_ptk_state s) ∨ pairwise_frame s = false.
Definition in_state (st : ptk_state) (s : wpa_state_machine) : Prop := wpa_ptk_state s = st.
Definition of_core (G : wpa_state_machine → Prop) : Prop := ∀ s s', core s' = core s → G s → G s'.
Lemma free_of_core : of_core free.
Proof. intros s s' H. unfold free. rewrite (core_pend _ _ H), (core_frame _ _ H). by same_core H. Qed.
Lemma in_state_of_core st : of_core (in_state st).
Proof. intros s s' H. unfold in_state. by same_core H. Qed.

Definition good_at (G : wpa_state_machine → Prop) (f : wpa_state_machine → wpa_state_machine) : Prop := ∀ s,
  sinv s → G s → sinv (f s) ∧ G (f s) ∧ (settled s → settled (f s)) ∧
  who (f s) = who s ∧ (changed s = true ∨ settled s → changed (f s) = true ∨ settled (f s)).

Section at_station.
Context (G : wpa_state_machine → Prop) (id : nat) (K : places) (cur : option nat).
Lemma at_quiet {A} (m : AM A) : of_core G → asteps quiet m → asteps (keep_at G id K cur) m.
Proof.
  intros HG H w a w' R [I F]. pose proof (H _ _ _ R) as Q. split; [by eapply inv_quiet|].
  intros s' Hs'. destruct (quiet_lookup_rev w w' id s' Q Hs') as (s & Hs & Hc).
  eapply HG; [exact Hc|]. by apply F.
Qed.
Lemma at_upd_sta f : good_at G f → asteps (keep_at G id K cur) (upd_sta id f).
Proof.
  intros Hf w a w' (s & Hs & ->)%arun_upd_sta [I F].
  destruct (Hf s) as (F1 & F2 & F3 & F4 & F5); [by eapply (iv_sta _ _ _ I)|by apply F|]. split.
  - by eapply inv_upd_same.
  - cbn. intros x. rewrite lookup_insert_eq. by intros [= <-].
Qed.
Lemma at_upd_group f : asteps (keep_at G id K cur) (upd_group f).
Proof. intros w a w' ->%arun_upd_group [I F]. split; [by apply inv_group|done]. Qed.
Lemma at_upd_au f : (∀ a, stas (f a) = stas a) → asteps (keep_at G id K cur) (upd_au f).
Proof.
  intros Hf w a w' R [I F]. split; [by eapply keep_same|]. apply arun_upd in R as ->. cbn. by rewrite Hf.
Qed.
End at_station.

Ltac upd_at :=
  let s := fresh "s" in let H := fresh "H" in let F := fresh "F" in
  intros s H F; cbv beta; unfold free, in_state, request_disconnect in *;
  repeat match goal with |- context [if ?b then _ else _] => destruct b eqn:? end;
  destruct H as [H2 H3 H4 H5 H6]; unfold settled, pend, pairwise_frame, negotiating in *;
  cbn in *; split_and!; lazymatch goal with |- sinv _ => split | _ => idtac end;
  unfold pend, pairwise_frame, negotiating; cbn; rewrite ?orb_true_r; cbn;
  intuition (try congruence; try discriminate).
#[local] Hint Extern 2 (asteps (keep_at _ _ _ _) (upd_sta _ _)) => apply at_upd_sta; upd_at : asteps.
#[local] Hint Extern 1 (asteps (keep_at _ _ _ _) (upd_group _)) => apply at_upd_group : asteps.
#[local] Hint Extern 2 (asteps (keep_at _ _ _ _) (upd_au _)) => apply at_upd_au; cbn; done : asteps.
#[local] Hint Extern 5 (asteps (keep_at free _ _ _) _) =>
  apply at_quiet; [apply free_of_core|]; solve [eauto with asteps] : asteps.
#[local] Hint Extern 5 (asteps (keep_at (in_state _) _ _ _) _) =>
  apply at_quiet; [apply in_state_of_core|]; solve [eauto with asteps] : asteps.

Lemma remove_ptk_free id K cur : asteps (keep_at free id K cur) (wpa_remove_ptk id).
Proof. unfold wpa_remove_ptk. keep_walk. Qed.

(** ** The PTK of message 2/4 *)
Lemma inv_run K cur {A} (m : AM A) w a w' :
  m w = Ret (a, w') → asteps quiet m → Inv K cur w → Inv K cur w'.
Proof. intros R H. by eapply inv_quiet, H. Qed.
(** The suite of the station has a MIC for a PMK of this length. *)
Definition signs (id : nat) (n : Z) (w : aworld) : Prop :=
  ∀ s, stas (au w) !! id = Some s → 0 < wpa_mic_len (wpa_key_mgmt s) n.
Lemma signs_quiet id n w w' : quiet w w' → signs id n w → signs id n w'.
Proof.
  intros Q H s' Hs'. destruct (quiet_lookup_rev w w' id s' Q Hs') as (s & Hs & Hc).
  assert (E1 : wpa_key_mgmt s' = wpa_key_mgmt s) by (by same_core Hc). rewrite E1. by apply H.
Qed.
Lemma mic_len_nonneg akm n : 0 ≤ n → 0 ≤ wpa_mic_len akm n.
Proof. intros. akm_lens. Qed.
(** A MIC for an empty PMK is a MIC of a constant length. *)
Lemma mic_len_constant akm n : 0 ≤ n → wpa_mic_len akm 0 ≠ 0 → 0 < wpa_mic_len akm n.
Proof. intros Hn. akm_lens. Qed.
Lemma psk_signs s n : 0 ≤ n → tries_psks s = true → 0 < wpa_mic_len (wpa_key_mgmt s) n.
Proof.
  intros Hn Ht. apply mic_len_constant; [done|]. revert Ht. unfold tries_psks. generalize (wpa_key_mgmt s).
  intros akm Ht. unfold wpa_mic_len. case_bool_decide; [done|].
  do 2 (case_bool_decide as Hc;
    [repeat (apply elem_of_cons in Hc as [->|Hc]; [by vm_compute in Ht|]); by apply elem_of_nil in Hc|clear Hc]). done.
Qed.

Lemma try_pmk_vouched addr id sn k f keys w keys' w' :
  try_pmk true id sn k f keys w = Ret ((MicOk, keys'), w') → signs id (blen k) w → heard addr f → vouched addr keys'.
Proof.
  unfold try_pmk. intros R I Hf. arun_step R. destruct a as [r keys0]. destruct (bool_decide (r < 0)).
  { by apply arun_ret in R as [[= ] _]. }
  eapply signs_quiet in I; [|eapply derive_ptk_quiet; exact Ha].
  do 2 arun_step R. apply arun_ret in R as [R ->]. injection R as Hv <-. 
  destruct (bool_decide_reflect (a0 = 0)) as [->|]; [|done].
  exists f, (wpa_key_mgmt a), (blen k). split_and!; [done|by apply I|done].
Qed.
Lemma try_psks_vouched addr id sn f psks keys w k own vlan keys' w' :
  try_psks true id sn f psks keys w = Ret (Some (k, own, vlan, keys'), w') →
  (∀ n, 0 ≤ n → signs id n w) → heard addr f → vouched addr keys'.
Proof.
  intros R I Hf. revert keys w R I. induction psks as [|[psk v] psks IH]; intros keys w R I; cbn [try_psks] in R.
  { by apply arun_ret in R as [[=] _]. }
  arun_step R. assert (I1 : ∀ n, 0 ≤ n → signs id n w0).
  { intros n Hn. eapply signs_quiet; [eapply set_ft_xxkey_quiet; exact Ha|by apply I]. }
  arun_step R. destruct a as [[] keys1].
  - by apply arun_ret in R as [[=] _].
  - apply arun_ret in R as [[= _ _ _ ->] _]. eapply try_pmk_vouched; [exact Ha0|apply I1; lia|done].
  - eapply IH; [exact R|]. intros n Hn. eapply signs_quiet; [eapply try_pmk_quiet; exact Ha0|by apply I1].
Qed.
(** Without a MIC no key is found. *)
Lemma try_pmk_unsigned id sn k f keys w keys' w' :
  try_pmk false id sn k f keys w = Ret ((MicOk, keys'), w') → False.
Proof.
  unfold try_pmk. intros R. arun_step R. destruct a as [r keys0]. destruct (bool_decide (r < 0)).
  { by apply arun_ret in R as [[= ] _]. }
  arun_step R. apply arun_bind in R as (v & w2 & [[= <-] _]%arun_lift & R). by apply arun_ret in R as [[=] _].
Qed.
Lemma try_psks_unsigned id sn f psks keys w x w' :
  try_psks false id sn f psks keys w = Ret (Some x, w') → False.
Proof.
  revert keys w. induction psks as [|[psk v] psks IH]; intros keys w R; cbn [try_psks] in R.
  { by apply arun_ret in R as [[=] _]. }
  arun_step R. arun_step R. destruct a as [[] keys1].
  - by apply arun_ret in R as [[=] _].
  - by eapply try_pmk_unsigned.
  - by eapply IH.
Qed.
Lemma sta_signs id s n w :
  stas (au w) !! id = Some s → 0 < wpa_mic_len (wpa_key_mgmt s) n → signs id n w.
Proof. intros Hs Hn x Hx. rewrite Hs in Hx. by injection Hx as <-. Qed.

Lemma calc_ptk_vouched addr id f w k own vlan keys found w' s :
  calc_ptk (bool_decide (sta_mic_len s ≠ 0)) id f w = Ret ((Some (k, own, vlan, keys), found), w') →
  stas (au w) !! id = Some s → heard addr f → vouched addr keys.
Proof.
  unfold calc_ptk. intros R Hs Hf. apply arun_bind in R as (s0 & w1 & [Hs0 ->]%arun_sta & R).
  rewrite Hs in Hs0. injection Hs0 as <-. case_bool_decide as Hm.
  2: { destruct (tries_psks s).
    - do 2 arun_step R. apply arun_ret in R as [[= <- _] _]. by apply try_psks_unsigned in Ha0.
    - destruct (match PMK s with [] => _ | _ => _ end) as [k' own']. arun_step R.
      destruct a as [[] keys0]; apply arun_ret in R as [R _]; [done| |done].
      by apply try_pmk_unsigned in Ha. }
  destruct (tries_psks s) eqn:Et.
  - arun_step R. arun_step R. apply arun_ret in R as [[= <- _] _].
    eapply try_psks_vouched; [exact Ha0| |done]. intros n Hn. eapply signs_quiet; [eapply get_psks_quiet; exact Ha|].
    eapply sta_signs; [exact Hs|]. by apply psk_signs.
  - assert (Hk : ∀ k' own', match PMK s, sta_pmksa s with [], Some e => (ap_pmk e, false) | k, _ => (k, true) end
        = (k', own') → signs id (blen k') w).
    { intros k' own' Ek. eapply sta_signs; [exact Hs|]. unfold sta_mic_len in Hm.
      assert (H0 : 0 < wpa_mic_len (wpa_key_mgmt s) (blen (PMK s))).
      { pose proof (mic_len_nonneg (wpa_key_mgmt s) (blen (PMK s)) ltac:(lia)). lia. }
      destruct (PMK s) as [|x l]; [|by injection Ek as <- <-].
      destruct (sta_pmksa s); injection Ek as <- <-; [|done]. apply mic_len_constant; [lia|].
      change (blen []) with 0 in H0. lia. }
    destruct (match PMK s with [] => _ | _ => _ end) as [k' own']. specialize (Hk k' own' eq_refl).
    arun_step R. destruct a as [[] keys0]; apply arun_ret in R as [R _]; [done| |done].
    injection R as -> -> _ -> _. by eapply try_pmk_vouched.
Qed.

Ltac sinv_only :=
  split; unfold pend, pairwise_frame, negotiating in *; cbn in *; intuition (try congruence; try discriminate).
(** The rest [R] of a run keeps the invariant [I]. *)
Ltac rest_keeps R I :=
  revert I; revert R;
  match goal with
  | |- ?m ?w = _ → Inv ?K ?cur _ → _ =>
      let H := fresh in assert (H : asteps (keep K cur) m); [|intros R; exact (H _ _ _ R)]
  end.

(** ** Nested steps *)
Definition steps_inv (step : nat → AM Z) : Prop := ∀ K id w r w',
  step id w = Ret (r, w') → Inv K (Some id) w → Inv K None w'.

Section nested.
Context (step : nat → AM Z) (Hstep : steps_inv step).

Lemma step_keep K id : asteps (keep K None) (step id).
Proof using Hstep. intros w r w' R I. eapply Hstep; [exact R|]. by apply inv_cur. Qed.
#[local] Hint Resolve step_keep : asteps.

Lemma for_each_keep K cur cb l : (∀ id, asteps (keep K cur) (cb id)) → asteps (keep K cur) (for_each_sta cb l).
Proof. intros Hcb. induction l as [|id l IH]; cbn [for_each_sta]; keep_walk. Qed.
#[local] Hint Resolve for_each_keep : asteps.
Lemma group_update_sta_keep K id : asteps (keep K None) (wpa_group_update_sta step id).
Proof using Hstep. unfold wpa_group_update_sta. keep_walk. Qed.
Lemma setkeys_keep K : asteps (keep K None) (wpa_group_setkeys step).
Proof using Hstep.
  unfold wpa_group_setkeys, wpa_auth_for_each_sta. pose proof (group_update_sta_keep K). keep_walk.
Qed.
Lemma fatal_keep K cur : asteps (keep K cur) wpa_group_fatal_failure.
Proof.
  assert (H : ∀ id, asteps (keep K cur) (upd_sta id (λ s, s <| Disconnect := true |>))) by (intros; keep_walk).
  unfold wpa_group_fatal_failure, wpa_auth_for_each_sta. keep_walk.
Qed.
#[local] Hint Resolve setkeys_keep fatal_keep : asteps.
Lemma setkeysdone_keep K cur : asteps (keep K cur) wpa_group_setkeysdone.
Proof. unfold wpa_group_setkeysdone. keep_walk. Qed.
#[local] Hint Resolve setkeysdone_keep : asteps.
Lemma group_sm_step_keep K : asteps (keep K None) (wpa_group_sm_step step).
Proof using Hstep. unfold wpa_group_sm_step, wpa_group_gtk_init. keep_walk. Qed.

(** *** Events *)
Lemma settled_free s : settled s → free s.
Proof.
  unfold settled, free. intros H. destruct (pend s); [by left|]. destruct (H eq_refl) as [_ Hn].
  destruct (decide (negotiating (wpa_ptk_state s))) as [|]; [right; right; auto|right; by left].
Qed.

Lemma reset_free id K cur : asteps (keep_at free id K cur) (upd_sta id (λ s, s <| PTK_valid := false |> <| PTK := ptk_zero |>)).
Proof. keep_walk. Qed.

Lemma finish_event_keep K id event w r w' :
  finish_sm_event step id event w = Ret (r, w') → Inv K None w →
  (∀ s, stas (au w) !! id = Some s → pend s = true ∨ in_step_loop s = false) → Inv K None w'.
Proof using Hstep.
  unfold finish_sm_event. intros R I P. arun_step R.
  assert (Q : quiet w (set_sta id (s <| sta_ft_completed := false |>) w)).
  { by eapply (quiet_sta id s (λ s, s <| sta_ft_completed := false |>)). }
  assert (I1 : Inv K None (set_sta id (s <| sta_ft_completed := false |>) w)) by by eapply inv_quiet.
  assert (F1 : ∀ x, stas (au (set_sta id (s <| sta_ft_completed := false |>) w)) !! id = Some x → free x).
  { cbn. intros x. rewrite lookup_insert_eq. intros [= <-].
    destruct (P s Hs) as [Hp|Hl]; [by left|]. apply (settled_free s). by eapply (iv_rest _ _ _ I). }
  set (w1 := set_sta id _ w) in *. clearbody w1. clear w s Hs P I Q.
  arun_step R. arun_step R.
  assert (I2 : Inv K None w).
  { destruct (_ && _); [by arun_step Ha0|]. arun_step Ha0.
    assert (R2 : upd_sta id (λ s, s <| PTK_valid := false |> <| PTK := ptk_zero |>) w1 = Ret (tt, set_sta id (s <| PTK_valid := false |> <| PTK := ptk_zero |>) w1)).
    { unfold upd_sta, get_sta, mbind, AM_bind, get_au, accA, liftA. by rewrite Hs. }
    destruct (reset_free id K None _ _ _ R2) as [I2 F2]; [done|].
    destruct (bool_decide _); [|by arun_step Ha0]. by eapply (remove_ptk_free id K None _ _ _ Ha0). }
  arun_step R. destruct (in_step_loop a0).
  - arun_step R. arun_step R. by apply (inv_good _ _ _ _ (λ s, s <| changed := true |>)); [upd_good|..].
  - by eapply step_keep.
Qed.

Lemma deauth_keep K id : asteps (keep K None) (wpa_auth_sm_event step id WPA_DEAUTH).
Proof using Hstep.
  intros w r w' R I. unfold wpa_auth_sm_event in R. arun_step R. eapply finish_event_keep; [exact R| |].
  - by apply (inv_good _ _ _ _ (λ s, zero_pmk (s <| DeauthenticationRequest := true |>))); [upd_good|..].
  - cbn. intros x. rewrite lookup_insert_eq. intros [= <-]. left. unfold pend. cbn. by rewrite orb_true_r.
Qed.
#[local] Hint Resolve deauth_keep : asteps.
Lemma disconnect_keep K a n : asteps (keep K None) (wpa_sta_disconnect step a n).
Proof using Hstep. unfold wpa_sta_disconnect. keep_walk. Qed.
#[local] Hint Resolve disconnect_keep : asteps.
Lemma refuse_keep K a : asteps (keep K None) (refuse step a).
Proof using Hstep. unfold refuse. keep_walk. Qed.
#[local] Hint Resolve refuse_keep : asteps.

(** *** WPA_PTK

    In a pass, a function of the pairwise machine leaves the station changed or settled. *)
Definition in_pass (P : wpa_state_machine → Prop) (id : nat) (w : aworld) : Prop :=
  ∀ s, stas (au w) !! id = Some s → in_step_loop s = true ∧ P s.
Definition enters (P : wpa_state_machine → Prop) (id : nat) {A} (m : AM A) : Prop :=
  ∀ K w a w', m w = Ret (a, w') → Inv K None w → in_pass P id w → Inv (step_at id K) None w'.
Definition anyone (_ : wpa_state_machine) : Prop := True.

Lemma in_pass_at P id s w : in_pass P id (set_sta id s w) → in_step_loop s = true ∧ P s.
Proof. intros H. apply H. cbn. by rewrite lookup_insert_eq. Qed.
Lemma at_set_sta (G : wpa_state_machine → Prop) id s w :
  G s → ∀ x, stas (au (set_sta id s w)) !! id = Some x → G x.
Proof. cbn. intros H x. rewrite lookup_insert_eq. by intros [= <-]. Qed.

Lemma enter_inv K id s s' w :
  Inv K None w → stas (au w) !! id = Some s → in_step_loop s = true →
  sinv s' → who s' = who s → changed s' = true ∨ settled s' → Inv (step_at id K) None (set_sta id s' w).
Proof.
  intros I Hs Hl H1 Hw H3. injection Hw as Ha Hl'. rewrite Hl in Hl'.
  eapply inv_upd; [exact I|exact Hs|done|done|done|by rewrite Hl'| |by rewrite Hl'| |done].
  - intros _. by apply (iv_place _ _ _ I id s).
  - intros i Hi. cbn. set_solver.
Qed.

(** The update with which a state is entered, and the rest that keeps the invariant. *)
Lemma enters_upd_at G (P : wpa_state_machine → Prop) id f {A} (g : unit → AM A) :
  (∀ s, sinv s → P s → sinv (f s) ∧ who (f s) = who s ∧ changed (f s) = true ∧ G (f s)) →
  (∀ K, asteps (keep_at G id K None) (g tt)) → enters P id (upd_sta id f ≫= g).
Proof.
  intros Hf Hg K w a w' R I HP.
  apply arun_bind in R as ([] & w1 & (s & Hs & ->)%arun_upd_sta & R). destruct (HP s Hs) as [Hl Hp].
  destruct (Hf s) as (F1 & F2 & F3 & F4); [by eapply (iv_sta _ _ _ I)|done|].
  eapply Hg; [exact R|]. split; [|by apply at_set_sta].
  eapply enter_inv; try done. by left.
Qed.
Lemma keep_of_at {A} (m : AM A) id K cur : asteps (keep K cur) m → asteps (keep_at anyone id K cur) m.
Proof. intros H w a w' R [I _]. split; [by eapply H|done]. Qed.
Lemma enters_upd (P : wpa_state_machine → Prop) id f {A} (g : unit → AM A) :
  (∀ s, sinv s → P s → sinv (f s) ∧ who (f s) = who s ∧ changed (f s) = true) →
  (∀ K, asteps (keep K None) (g tt)) → enters P id (upd_sta id f ≫= g).
Proof.
  intros Hf Hg. apply (enters_upd_at anyone).
  - intros s H HP. destruct (Hf s H HP) as (F1 & F2 & F3). by split_and!.
  - intros K. apply keep_of_at, Hg.
Qed.
Lemma enters_upd_last (P : wpa_state_machine → Prop) id f :
  (∀ s, sinv s → P s → sinv (f s) ∧ who (f s) = who s ∧ changed (f s) = true) →
  enters P id (upd_sta id f).
Proof.
  intros Hf K w a w' R I HP.
  assert (R' : (upd_sta id f ≫= mret) w = Ret (a, w')).
  { unfold mbind at 1, AM_bind. rewrite R. by destruct a. }
  eapply (enters_upd P id f mret); [exact Hf| |exact R'|exact I|exact HP]. intros. apply asteps_ret. apply _.
Qed.

Lemma enters_ret (P : wpa_state_machine → Prop) id {A} (a : A) :
  (∀ s, P s → settled s) → enters P id (mret a).
Proof.
  intros Hp K w x w' R I HP. arun_step R. destruct I as [I1 I2 I3 I4 I5].
  split; [exact I1|exact I2| |exact I4|exact I5]. intros i y Hi Hy.
  destruct (decide (i = id)) as [->|]; [|apply (I3 i); [set_solver|done]].
  destruct (HP y Hy). auto.
Qed.
Lemma enters_quiet (P : wpa_state_machine → Prop) id {A B} (m : AM A) (f : A → AM B) :
  of_core P → asteps quiet m → (∀ a, enters P id (f a)) → enters P id (m ≫= f).
Proof.
  intros HP Hm Hf K w b w' R I H. apply arun_bind in R as (a & w1 & Ra & R).
  pose proof (Hm _ _ _ Ra) as Q. eapply Hf; [exact R|by eapply inv_quiet|].
  intros s' Hs'. destruct (quiet_lookup_rev _ _ _ _ Q Hs') as (s & Hs & Hc). destruct (H s Hs) as [Hl Hp].
  split; [|by eapply HP]. revert Hl. by same_core Hc.
Qed.
(** The station that is read is the one of the precondition. *)
Lemma enters_get (P : wpa_state_machine → Prop) id {A} (f : wpa_state_machine → AM A) :
  (∀ s, sinv s → P s → enters (λ x, x = s) id (f s)) → enters P id (get_sta id ≫= f).
Proof.
  intros Hf K w a w' R I HP. apply arun_bind in R as (s & w1 & [Hs ->]%arun_sta & R).
  eapply Hf; [by eapply (iv_sta _ _ _ I)|by apply HP|exact R|done|]. intros x Hx. rewrite Hs in Hx.
  injection Hx as <-. split; [by apply HP|done].
Qed.
Lemma enters_weaken (P P' : wpa_state_machine → Prop) id {A} (m : AM A) :
  enters P' id m → (∀ s, P s → P' s) → enters P id m.
Proof. intros Hm HP K w a w' R I H. eapply Hm; [done..|]. intros s Hs. destruct (H s Hs). auto. Qed.

Ltac sinv_solve := unfold enter_ptk; split_and!; [sinv_only|done..].
Ltac upd_enters :=
  let s := fresh "s" in let H := fresh "H" in let HP := fresh "HP" in
  intros s H HP; cbv beta; destruct H as [H2 H3 H4 H5 H6]; sinv_solve.
Ltac plain_enters := apply enters_upd; [upd_enters|intros; cbv beta; keep_walk].
Ltac state_enters st := apply (enters_upd_at (in_state st)); [upd_enters; done|intros; cbv beta; keep_walk].
Lemma DISCONNECTED_enters id : enters anyone id (ptk_DISCONNECTED id).
Proof. unfold ptk_DISCONNECTED. apply enters_upd_last. upd_enters. Qed.
Lemma DISCONNECT_enters id : enters anyone id (ptk_DISCONNECT step id).
Proof using Hstep.
  unfold ptk_DISCONNECT. apply enters_get. intros s _ _. cbv zeta.
  eapply (enters_weaken _ anyone); [plain_enters|done].
Qed.
Lemma AUTHENTICATION_enters id : enters anyone id (ptk_AUTHENTICATION id).
Proof. unfold ptk_AUTHENTICATION. state_enters WPA_PTK_AUTHENTICATION. Qed.
Lemma new_anonce_keep K cur id : asteps (keep K cur) (new_anonce id).
Proof. unfold new_anonce. keep_walk. Qed.
Lemma new_anonce_at st id K cur : asteps (keep_at (in_state st) id K cur) (new_anonce id).
Proof. unfold new_anonce. keep_walk. Qed.
#[local] Hint Resolve new_anonce_keep new_anonce_at : asteps.
Lemma AUTHENTICATION2_enters id : enters anyone id (ptk_AUTHENTICATION2 id).
Proof. unfold ptk_AUTHENTICATION2. state_enters WPA_PTK_AUTHENTICATION2. Qed.
Lemma INITPMK_enters id : enters anyone id (ptk_INITPMK id).
Proof. unfold ptk_INITPMK. plain_enters. Qed.
Lemma INITPSK_enters id : enters anyone id (ptk_INITPSK id).
Proof. unfold ptk_INITPSK. plain_enters. Qed.
Lemma PTKSTART_enters id : enters anyone id (ptk_PTKSTART id).
Proof. unfold ptk_PTKSTART. cbv zeta. plain_enters. Qed.
Lemma remove_ptk_at id K cur : asteps (keep_at (in_state WPA_PTK_INITIALIZE) id K cur) (wpa_remove_ptk id).
Proof. unfold wpa_remove_ptk. keep_walk. Qed.
Lemma key_update_at st id K cur : asteps (keep_at (in_state st) id K cur) (key_update_done id).
Proof. unfold key_update_done. keep_walk. Qed.
#[local] Hint Resolve remove_ptk_at key_update_at : asteps.
Lemma INITIALIZE_enters id : enters anyone id (ptk_INITIALIZE id).
Proof. unfold ptk_INITIALIZE. state_enters WPA_PTK_INITIALIZE. Qed.

Lemma check_elements_keep K id kd : asteps (keep K None) (check_elements step id kd).
Proof using Hstep. unfold check_elements. keep_walk. Qed.
#[local] Hint Resolve check_elements_keep : asteps.
Lemma accept_message_2_keep K id f n k own vlan keys :
  (∀ addr, names K !! id = Some addr → vouched addr keys) →
  asteps (keep K None) (accept_message_2 step id f n (k, own, vlan, keys)).
Proof using Hstep.
  intros Hv.
  assert (Hu : asteps (keep K None) (upd_sta id (λ s, s <| MICVerified := true |> <| PTK := keys |>
                                                        <| PTK_valid := true |>))).
  { apply keep_upd_named. intros s Hn S. specialize (Hv _ Hn). upd_good_of S. }
  unfold accept_message_2. keep_walk.
Qed.

Lemma PTKCALCNEGOTIATING_enters id : enters anyone id (ptk_PTKCALCNEGOTIATING step id).
Proof using Hstep.
  unfold ptk_PTKCALCNEGOTIATING. apply enters_upd; [upd_enters|]. intros K w u w' R I. cbv beta in R.
  apply arun_bind in R as (s & w1 & [Hs ->]%arun_sta & R). cbv zeta in R.
  apply arun_bind in R as (f & w1 & [Hl ->]%arun_acc & R).
  pose proof (iv_sta _ _ _ I id _ Hs) as S.
  assert (Hf : heard (sta_addr s) f) by (pose proof (si_frame _ S) as H; by rewrite Hl in H).
  apply arun_bind in R as ([k found] & w1 & Hk & R).
  pose proof (inv_run K None _ _ _ _ Hk (calc_ptk_quiet _ _ _) I) as I1.
  destruct k as [[[[k own] vlan] keys]|].
  - pose proof (calc_ptk_vouched _ _ _ _ _ _ _ _ _ _ _ Hk Hs Hf) as Hv.
    destruct (iv_place _ _ _ I id s Hs) as [_ Hn]. rest_keeps R I1.
    apply asteps_bind; [apply _|keep_walk|intros _]. apply accept_message_2_keep. intros addr Ha.
    rewrite Hn in Ha. by injection Ha as <-.
  - rest_keeps R I1. keep_walk.
Qed.

Definition mic_passed (s : wpa_state_machine) : Prop :=
  wpa_ptk_state s = WPA_PTK_PTKCALCNEGOTIATING ∧ MICVerified s = true.
Lemma PTKCALCNEGOTIATING2_enters id : enters mic_passed id (ptk_PTKCALCNEGOTIATING2 id).
Proof.
  unfold ptk_PTKCALCNEGOTIATING2. apply enters_upd_last. intros s [H2 H3 H4 H5 H6] [HP1 HP2]. sinv_solve.
Qed.

Lemma set_key_keep K cur k : (∀ res, event_ok (ASetKey k res)) → asteps (keep K cur) (wpa_auth_set_key k).
Proof.
  intros Hk. unfold wpa_auth_set_key. apply asteps_bind; [apply _|keep_walk|intros r].
  apply asteps_bind; [apply _|apply keep_note, Hk|intros _; keep_walk].
Qed.
Lemma set_eapol_keep K cur a v x : event_ok (ASetEapol a v x) → asteps (keep K cur) (wpa_auth_set_eapol a v x).
Proof. apply keep_note. Qed.

Lemma install_rx_keep K id : asteps (keep K None) (install_rx_key step id).
Proof using Hstep.
  unfold install_rx_key. apply asteps_bind; [apply _|keep_walk|intros s].
  destruct (_ && _); [|keep_walk]. apply asteps_bind; [apply _|keep_walk|intros k].
  apply asteps_bind; [apply _|apply set_key_keep; by intros res [=]|intros res; keep_walk].
Qed.
#[local] Hint Resolve install_rx_keep : asteps.

Definition to_message_3 (s : wpa_state_machine) : Prop :=
  pend s = false ∧ (wpa_ptk_state s = WPA_PTK_PTKCALCNEGOTIATING2 ∨
                    wpa_ptk_state s = WPA_PTK_PTKINITNEGOTIATING).
Lemma PTKINITNEGOTIATING_enters id : enters to_message_3 id (ptk_PTKINITNEGOTIATING step id).
Proof using Hstep.
  unfold ptk_PTKINITNEGOTIATING. apply enters_upd; [|intros; cbv beta; keep_walk].
  intros s [H2 H3 H4 H5 H6] [HP1 HP2]. sinv_solve.
Qed.

Definition message_4_ok (s : wpa_state_machine) : Prop :=
  pend s = false ∧ wpa_ptk_state s = WPA_PTK_PTKINITNEGOTIATING ∧ pairwise_frame s = true ∧
  MICVerified s = true ∧ update_snonce s = false.
Lemma announce_keep K cur id : asteps (keep K cur) (announce_done id).
Proof. unfold announce_done. keep_walk. Qed.
#[local] Hint Resolve announce_keep : asteps.
Lemma message_4_vouched s : sinv s → message_4_ok s → vouched (sta_addr s) (PTK s).
Proof.
  intros H (P1 & P2 & P3 & P4 & P5). apply (si_ptk s H). destruct (PTK_valid s) eqn:Ev; [done|].
  rewrite (si_done s H Ev P1) in P5; [done| |done|done]. unfold negotiating. auto.
Qed.
Lemma done_key_ok s k res : vouched (sta_addr s) (PTK s) → done_key s = Some k → event_ok (ASetKey k res).
Proof.
  unfold done_key, station_tk. intros Hv. destruct (sta_use_ext_key_id s); [by intros [= <-]|].
  destruct (slice _ _ _) as [x|] eqn:Es; [|done]. intros [= <-] _ key [= <-]. by eexists _, _.
Qed.


Lemma PTKINITDONE_enters id : enters message_4_ok id (ptk_PTKINITDONE step id).
Proof using Hstep.
  unfold ptk_PTKINITDONE. intros K w a w' R I HP.
  apply arun_bind in R as (u & w1 & (s & Hs & ->)%arun_upd_sta & R). destruct (HP s Hs) as [Hl Hp].
  pose proof (iv_sta _ _ _ I id s Hs) as S. pose proof (message_4_vouched s S Hp) as Hv.
  apply arun_bind in R as (s1 & w1 & [Hs1 ->]%arun_sta & R). cbn in Hs1. rewrite lookup_insert_eq in Hs1.
  assert (E1 : PTK s1 = PTK s ∧ sta_addr s1 = sta_addr s) by (by injection Hs1 as <-). clear Hs1.
  destruct E1 as [E1 E2]. rewrite <- E1, <- E2 in Hv. clear E1 E2.
  match goal with R : _ (set_sta id ?s' w) = _ |- _ =>
    assert (I' : Inv (step_at id K) None (set_sta id s' w)) end.
  { eapply enter_inv; try done; [|by left]. revert S. clear. intros [H2 H3 H4 H5 H6]. sinv_only. }
  rest_keeps R I'. destruct (Pair s1); [|keep_walk].
  intros w2 a2 w2' R2 I2. apply arun_bind in R2 as (k & w3 & [Hk ->]%arun_acc & R2). rest_keeps R2 I2.
  apply asteps_bind; [apply _|apply set_key_keep; intros; by eapply done_key_ok|intros res].
  destruct (bool_decide _); [keep_walk|].
  apply asteps_bind; [apply _|keep_walk|intros _]. apply asteps_bind; [apply _|keep_walk|intros _].
  apply asteps_bind; [apply _| |intros _; keep_walk].
  destruct (authorized_by_wpa s1); [apply set_eapol_keep; cbn; eauto|keep_walk].
Qed.

(** *** The transitions *)
Lemma anyone_of_core : of_core anyone.
Proof. done. Qed.
Lemma handshake_failed_quiet : asteps quiet handshake_failed.
Proof. unfold handshake_failed. quiet_walk. Qed.
#[local] Hint Resolve handshake_failed_quiet : asteps.
Ltac go_anyone l := eapply (enters_weaken _ anyone); [apply l|done].
Ltac next_quiet := apply enters_quiet; [first [done|apply in_state_of_core|apply anyone_of_core]|quiet_walk|intros ?].

Lemma failed_enters id : enters anyone id (_ ← handshake_failed; ptk_DISCONNECT step id).
Proof using Hstep. next_quiet. apply DISCONNECT_enters. Qed.
Lemma retry_limit_enters id : enters anyone id (retry_limit step id).
Proof using Hstep. unfold retry_limit. do 2 next_quiet. apply DISCONNECT_enters. Qed.

Lemma from_AUTHENTICATION2_enters id : enters (in_state WPA_PTK_AUTHENTICATION2) id (from_AUTHENTICATION2 id).
Proof.
  unfold from_AUTHENTICATION2. next_quiet. cbv zeta. next_quiet.
  destruct a0; [go_anyone INITPMK_enters|]. destruct (_ || _); [go_anyone INITPSK_enters|].
  destruct (bool_decide _); [go_anyone INITPMK_enters|]. apply enters_ret. intros s Hs _. rewrite Hs.
  unfold negotiating. split; [done|]. by intros [?|[?|?]].
Qed.

Lemma from_INITPMK_enters id : enters anyone id (from_INITPMK step id).
Proof using Hstep.
  unfold from_INITPMK. do 2 next_quiet. destruct (bool_decide _); [apply PTKSTART_enters|].
  destruct (_ && _); [apply PTKSTART_enters|]. apply failed_enters.
Qed.
Lemma from_INITPSK_enters id : enters anyone id (from_INITPSK step id).
Proof using Hstep.
  unfold from_INITPSK. do 2 next_quiet. destruct (bool_decide _); [apply PTKSTART_enters|].
  destruct (_ && _); [apply PTKSTART_enters|]. apply failed_enters.
Qed.
Lemma from_PTKSTART_enters id : enters (in_state WPA_PTK_PTKSTART) id (from_PTKSTART step id).
Proof using Hstep.
  unfold from_PTKSTART. do 2 next_quiet. destruct (pairwise_frame _); [go_anyone PTKCALCNEGOTIATING_enters|].
  destruct (bool_decide _); [go_anyone retry_limit_enters|].
  destruct (TimeoutEvt _); [go_anyone PTKSTART_enters|]. apply enters_ret. intros s Hs _. rewrite Hs.
  unfold negotiating. split; [done|]. by intros [?|[?|?]].
Qed.
Lemma from_PTKCALCNEGOTIATING_enters id :
  enters (in_state WPA_PTK_PTKCALCNEGOTIATING) id (from_PTKCALCNEGOTIATING step id).
Proof using Hstep.
  unfold from_PTKCALCNEGOTIATING. apply enters_get. intros s _ Hs.
  destruct (MICVerified s) eqn:Em.
  { eapply enters_weaken; [apply PTKCALCNEGOTIATING2_enters|]. by intros ? ->. }
  destruct (pairwise_frame s) eqn:Ep; [go_anyone PTKCALCNEGOTIATING_enters|].
  destruct (TimeoutEvt s); [go_anyone PTKSTART_enters|]. apply enters_ret. intros ? -> _. rewrite Hs. done.
Qed.
Definition message_3_sent (s : wpa_state_machine) : Prop :=
  pend s = false ∧ wpa_ptk_state s = WPA_PTK_PTKINITNEGOTIATING.
Lemma message_3_of_core : of_core message_3_sent.
Proof. intros s s' H. unfold message_3_sent. rewrite (core_pend _ _ H). by same_core H. Qed.
Lemma from_PTKINITNEGOTIATING_enters id : enters message_3_sent id (from_PTKINITNEGOTIATING step id).
Proof using Hstep.
  unfold from_PTKINITNEGOTIATING. apply enters_quiet; [apply message_3_of_core|quiet_walk|intros c].
  apply enters_get. intros s S [Hp Hs]. destruct (update_snonce s) eqn:Eu; [go_anyone PTKCALCNEGOTIATING_enters|].
  destruct (pairwise_frame s && MICVerified s) eqn:Ef.
  { apply andb_prop in Ef as [Ef Em]. eapply enters_weaken; [apply PTKINITDONE_enters|]. by intros ? ->. }
  destruct (_ || _); [go_anyone retry_limit_enters|]. destruct (TimeoutEvt s).
  { eapply enters_weaken; [apply PTKINITNEGOTIATING_enters|]. intros ? ->. split; [done|by right]. }
  apply enters_ret. intros ? -> _. rewrite Hs. split; [done|]. intros _.
  apply andb_false_iff in Ef as [?|Em]; [done|]. destruct (pairwise_frame s) eqn:Ef; [|done].
  destruct (si_neg s S Hp Hs Ef); congruence.
Qed.

Lemma new_anonce_in_loop id w b w' : new_anonce id w = Ret (b, w') → in_pass anyone id w → in_pass anyone id w'.
Proof.
  intros R H. assert (H' : ∀ s, stas (au w) !! id = Some s → in_step_loop s = true) by (intros s Hs; by apply H).
  revert R. unfold new_anonce. intros R.
  apply arun_bind in R as (r & w1 & Hr & R). pose proof (arandom_quiet _ _ _ _ Hr) as Q.
  assert (H1 : ∀ s, stas (au w1) !! id = Some s → in_step_loop s = true).
  { intros s' Hs'. destruct (quiet_lookup_rev _ _ _ _ Q Hs') as (s & Hs & Hc). specialize (H' s Hs).
    revert H'. by same_core Hc. }
  destruct r; apply arun_bind in R as (u & w2 & (s & Hs & ->)%arun_upd_sta & R);
    apply arun_ret in R as [_ ->]; intros x Hx; (split; [|done]); revert x Hx; apply at_set_sta; cbn; auto.
Qed.
Lemma PTK_Step_enters id : enters anyone id (sm_WPA_PTK_Step step id).
Proof using Hstep.
  unfold sm_WPA_PTK_Step. apply enters_get. intros s S _.
  destruct (Init s) eqn:E1; [go_anyone INITIALIZE_enters|].
  destruct (Disconnect s) eqn:E2; [go_anyone DISCONNECT_enters|].
  destruct (DeauthenticationRequest s) eqn:E3; [go_anyone DISCONNECTED_enters|].
  destruct (AuthenticationRequest s) eqn:E4; [go_anyone AUTHENTICATION_enters|].
  destruct (ReAuthenticationRequest s) eqn:E5; [go_anyone AUTHENTICATION2_enters|].
  destruct (PTKRequest s) eqn:E6.
  { eapply (enters_weaken _ anyone); [|done]. intros K w a w' R I H.
    apply arun_bind in R as (ok & w1 & Hn & R). pose proof (new_anonce_in_loop _ _ _ _ Hn H) as H1.
    pose proof (new_anonce_keep K None id _ _ _ Hn I) as I1.
    destruct ok; [by eapply PTKSTART_enters|by eapply DISCONNECTED_enters]. }
  assert (Hp : pend s = false) by (unfold pend; by rewrite E1, E2, E3, E4, E5, E6).
  destruct (wpa_ptk_state s) eqn:Est.
  all: try (apply enters_ret; intros ? -> _; rewrite Est; unfold negotiating; split; [done|by intros [?|[?|?]]]).
  - go_anyone DISCONNECTED_enters.
  - go_anyone INITIALIZE_enters.
  - go_anyone AUTHENTICATION2_enters.
  - eapply enters_weaken; [apply from_AUTHENTICATION2_enters|]. by intros ? ->.
  - go_anyone from_INITPMK_enters.
  - go_anyone from_INITPSK_enters.
  - eapply enters_weaken; [apply from_PTKSTART_enters|]. by intros ? ->.
  - eapply enters_weaken; [apply from_PTKCALCNEGOTIATING_enters|]. by intros ? ->.
  - eapply enters_weaken; [apply PTKINITNEGOTIATING_enters|]. intros ? ->. split; [done|by left].
  - eapply enters_weaken; [apply from_PTKINITNEGOTIATING_enters|]. by intros ? ->.
Qed.

(** *** A pass *)
Definition rested (id : nat) (w : aworld) : Prop :=
  ∀ s, stas (au w) !! id = Some s → pending_deinit s = true ∨ settled s.
Lemma pass_inv K id w r w' :
  id ∉ stepped K → sm_pass step id w = Ret (r, w') → Inv K None w → in_pass anyone id w →
  Inv K None w' ∧ if r.2 then in_pass anyone id w' else rested id w'.
Proof using Hstep.
  intros Hk R I Hl. unfold sm_pass in R.
  apply arun_bind in R as (s & w1 & [Hs ->]%arun_sta & R). destruct (pending_deinit s) eqn:Ed.
  { apply arun_ret in R as [-> ->]. split; [done|]. intros x Hx. rewrite Hs in Hx. injection Hx as <-. auto. }
  apply arun_bind in R as (u & w1 & (s0 & Hs0 & ->)%arun_upd_sta & R). rewrite Hs in Hs0. injection Hs0 as <-.
  apply arun_bind in R as (u1 & w1 & ->%arun_upd_group & R).
  destruct (Hl s Hs) as [Hls _]. pose proof (iv_sta _ _ _ I id s Hs) as S.
  assert (I1 : Inv K None (set_sta id (s <| changed := false |>) w)).
  { eapply inv_upd; [exact I|exact Hs| |done|done|cbn; by rewrite Hls| |done|done|done].
    - revert S. clear. intros [H2 H3 H4 H5 H6]. sinv_only.
    - intros _. by apply (iv_place _ _ _ I id s). }
  apply (inv_group _ _ ((group (au (set_sta id (s <| changed := false |>) w))) <| group_changed := false |>)) in I1.
  assert (L1 : in_pass anyone id (set_group ((group (au (set_sta id (s <| changed := false |>) w))) <| group_changed := false |>)
                              (set_sta id (s <| changed := false |>) w))).
  { intros x. cbn. rewrite lookup_insert_eq. intros [= <-]. by rewrite <- Hls. }
  apply arun_bind in R as (u2 & w2 & Hp & R). pose proof (PTK_Step_enters id K _ _ _ Hp I1 L1) as I2. clear Hp.
 
  clear I1 L1. set (K' := step_at id K) in *.
  pose proof (inv_less id K None) as Done. fold K' in Done.
  apply arun_bind in R as (s2 & w3 & [Hs2 ->]%arun_sta & R). destruct (pending_deinit s2) eqn:Ed2.
  { apply arun_ret in R as [-> ->]. split; [auto|]. intros x Hx. rewrite Hs2 in Hx. injection Hx as <-. auto. }
  apply arun_bind in R as (u3 & w3 & Hg & R). pose proof (group_step_keep K' None id _ _ _ Hg I2) as I3.
  apply arun_bind in R as (s3 & w4 & [Hs3 ->]%arun_sta & R). destruct (pending_deinit s3) eqn:Ed3.
  { apply arun_ret in R as [-> ->]. split; [auto|]. intros x Hx. rewrite Hs3 in Hx. injection Hx as <-. auto. }
  apply arun_bind in R as (u4 & w4 & Hm & R). pose proof (group_sm_step_keep K' _ _ _ Hm I3) as I4.
  apply arun_bind in R as (s4 & w5 & [Hs4 ->]%arun_sta & R).
  apply arun_bind in R as (g & w5 & [-> ->]%arun_group & R). apply arun_ret in R as [-> ->].
  split; [auto|]. cbn. destruct (iv_loop _ _ _ I4 id s4) as [Hlo Hch]; [cbn; set_solver|done|].
  destruct (changed s4 || _) eqn:Hc; intros x Hx; rewrite Hs4 in Hx; injection Hx as <-; [done|].
  apply orb_false_iff in Hc as [Hc _]. right. destruct Hch; [congruence|done].
Qed.
End nested.

(** ** The steps of a station *)
Lemma free_sta_inv K id w u w' :
  id ∉ stepped K → wpa_free_sta_sm id w = Ret (u, w') → Inv K (Some id) w → Inv K None w'.
Proof.
  unfold wpa_free_sta_sm. intros Hk R I. apply arun_bind in R as (u1 & w1 & Hd & R).
  pose proof (key_update_done_keep _ _ id _ _ _ Hd I) as I1. apply arun_upd in R as ->.
  clear I. destruct I1 as [I1 I2 I3 I4 I5]. split; cbn; [| | | |done].
  - intros i s [_ Hi]%lookup_delete_Some. by eapply I1.
  - intros i s [Hn Hi]%lookup_delete_Some Hl _. eapply I2; [exact Hi|done|]. by intros [= ->].
  - intros i s Hi [_ Hs]%lookup_delete_Some. by eapply I3.
  - intros i s [_ Hs]%lookup_delete_Some. by apply I4.
Qed.

(** The station that begins and that ends the loop. *)
Lemma loop_begins K id s w :
  Inv K (Some id) w → stas (au w) !! id = Some s → Inv (loop_at id K) None (set_sta id (s <| in_step_loop := true |>) w).
Proof.
  intros I Hs. pose proof (iv_sta _ _ _ I id s Hs) as S.
  eapply inv_upd; [exact I|exact Hs| |done|done|done| | | |by intros i Hi [= ->]].
  - revert S. clear. intros [H2 H3 H4 H5 H6]. sinv_only.
  - intros _. cbn. set_solver.
  - intros Hk. split; [done|]. exact (proj2 (iv_loop _ _ _ I id s Hk Hs)).
  - intros i Hi. cbn. set_solver.
Qed.
Lemma loop_ends K cur id s w :
  id ∉ stepped K → Inv (loop_at id K) None w → stas (au w) !! id = Some s → (cur ≠ Some id → settled s) →
  Inv K cur (set_sta id (s <| in_step_loop := false |>) w).
Proof.
  intros Hk I Hs Hc. pose proof (iv_sta _ _ _ I id s Hs) as S.
  eapply inv_upd; [exact I|exact Hs| |done|done|done|done|done| |done].
  - revert S. clear. intros [H2 H3 H4 H5 H6]. sinv_only.
  - intros i Hi. cbn. set_solver.
Qed.

Lemma steps_passes_inv fuel :
  (∀ K id w r w', wpa_sm_step fuel id w = Ret (r, w') → Inv K (Some id) w → Inv K None w') ∧
  (∀ K id w u w', id ∉ stepped K → step_passes fuel id w = Ret (u, w') → Inv K None w → in_pass anyone id w →
     Inv K None w' ∧ rested id w').
Proof.
  induction fuel as [|fuel [IHs IHp]]; [by split|]. split.
  - intros K id w r w' R I. cbn [wpa_sm_step] in R.
    apply arun_bind in R as (s & w1 & [Hs ->]%arun_sta & R). destruct (in_step_loop s) eqn:El.
    { apply arun_ret in R as [_ ->]. destruct I as [I1 I2 I3 I4 I5]. split; [done| |done..].
      intros i x Hx Hl _. eapply I2; [exact Hx|done|]. intros [= <-]. congruence. }
    assert (Hk : id ∉ stepped K) by (intros Hk; destruct (iv_loop _ _ _ I id s Hk Hs); congruence).
    apply arun_bind in R as (u & w1 & (s0 & Hs0 & ->)%arun_upd_sta & R). rewrite Hs in Hs0. injection Hs0 as <-.
    pose proof (loop_begins K id s w I Hs) as I0.
    apply arun_bind in R as (u1 & w1 & Hp & R). apply (IHp (loop_at id K)) in Hp as [I1 Hr]; [|done|exact I0|].
    2: { intros x. cbn. rewrite lookup_insert_eq. by intros [= <-]. }
    apply arun_bind in R as (u2 & w2 & (s1 & Hs1 & ->)%arun_upd_sta & R).
    apply arun_bind in R as (s2 & w2 & [Hs2 ->]%arun_sta & R). cbn in Hs2. rewrite lookup_insert_eq in Hs2.
    pose proof (Hr s1 Hs1) as Hp. destruct (pending_deinit s2) eqn:Ed.
    + apply arun_bind in R as (u3 & w3 & Hf & R). apply arun_ret in R as [_ ->].
      eapply free_sta_inv; [exact Hk|exact Hf|]. by apply loop_ends.
    + apply arun_ret in R as [_ ->]. injection Hs2 as <-. cbn in Ed.
      destruct Hp as [Hp|Hp]; [congruence|]. by apply loop_ends.
  - intros K id w u w' Hk R I Hl. cbn [step_passes] in R.
    apply arun_bind in R as ([d again] & w1 & Hp & R). 
    pose proof (pass_inv _ IHs K id w _ w1 Hk Hp I Hl) as [I1 Hr].
    destruct again.
    + by eapply IHp.
    + apply arun_ret in R as [_ ->]. by split.
Qed.
Lemma wpa_sm_step_inv fuel : steps_inv (wpa_sm_step fuel).
Proof. intros K id w r w' R. exact (proj1 (steps_passes_inv fuel) K id w r w' R). Qed.

(** ** The operations

    Between operations no station is being stepped. *)
Definition top (K : places) : Prop := stepped K = ∅ ∧ looping K = ∅.

Lemma at_rest K w id s : top K → Inv K None w → stas (au w) !! id = Some s → in_step_loop s = false ∧ settled s.
Proof.
  intros [Hs Hl] I Hid. destruct (iv_place _ _ _ I id s Hid) as [H _]. rewrite Hl in H.
  destruct (in_step_loop s) eqn:E1; [by specialize (H eq_refl)|]. split; [done|].
  by eapply (iv_rest _ _ _ I).
Qed.
Lemma settled_of_core : of_core settled.
Proof. intros s s'. apply settled_core. Qed.

Section operations.
Context (K : places) (HK : top K) (fuel : nat).
Let step := wpa_sm_step fuel.
Let Hstep : steps_inv step := wpa_sm_step_inv fuel.

Lemma run_step_keep id : asteps (keep K None) (step id).
Proof using Hstep. by apply step_keep. Qed.
#[local] Hint Resolve run_step_keep : asteps.
Lemma run_each_keep cb l : (∀ id, asteps (keep K None) (cb id)) → asteps (keep K None) (for_each_sta cb l).
Proof. apply for_each_keep. Qed.
#[local] Hint Resolve run_each_keep : asteps.
Lemma run_group_keep : asteps (keep K None) (wpa_group_sm_step step).
Proof using Hstep. by apply group_sm_step_keep. Qed.
Lemma run_disconnect_keep a n : asteps (keep K None) (wpa_sta_disconnect step a n).
Proof using Hstep. by apply disconnect_keep. Qed.
Lemma run_update_sta_keep id : asteps (keep K None) (wpa_group_update_sta step id).
Proof using Hstep. by apply group_update_sta_keep. Qed.
#[local] Hint Resolve run_group_keep run_disconnect_keep run_update_sta_keep : asteps.

Lemma free_sta_keep id : asteps (keep K None) (wpa_free_sta_sm id).
Proof using HK Hstep.
  intros w u w' R I. eapply free_sta_inv; [|exact R|by apply inv_cur]. destruct HK as [-> _]. set_solver.
Qed.
#[local] Hint Resolve free_sta_keep : asteps.
Lemma deinit_keep id : asteps (keep K None) (wpa_auth_sta_deinit id).
Proof using HK Hstep. unfold wpa_auth_sta_deinit. keep_walk. Qed.
#[local] Hint Resolve deinit_keep : asteps.
Lemma gtk_rekey_keep : asteps (keep K None) wpa_gtk_rekey.
Proof. apply keep_quiet, gtk_rekey_quiet. Qed.
Lemma request_new_ptk_keep id : asteps (keep K None) (wpa_request_new_ptk id).
Proof. unfold wpa_request_new_ptk. keep_walk. Qed.
#[local] Hint Resolve gtk_rekey_keep request_new_ptk_keep : asteps.
Lemma error_report_keep id g : asteps (keep K None) (wpa_receive_error_report id g).
Proof using HK Hstep. unfold wpa_receive_error_report, ieee80211_tkip_countermeasures_start. keep_walk. Qed.
#[local] Hint Resolve error_report_keep : asteps.
Lemma group_loop_keep n : asteps (keep K None) (group_loop step n).
Proof using Hstep. induction n as [|n IH]; cbn [group_loop]; [by intros ? ? ? [=]|keep_walk]. Qed.
#[local] Hint Resolve group_loop_keep : asteps.
Lemma rekey_gtk_keep n : asteps (keep K None) (wpa_rekey_gtk step n).
Proof using Hstep.
  unfold wpa_rekey_gtk. apply asteps_bind; [apply _|keep_walk|intros _].
  apply asteps_bind; [apply _|keep_walk|intros _]. apply keep_same. intros a. by destruct (bool_decide _).
Qed.
#[local] Hint Resolve rekey_gtk_keep : asteps.
Lemma handle_request_keep n id i kd replay : asteps (keep K None) (handle_request step n id i kd replay).
Proof using HK Hstep. unfold handle_request. keep_walk. Qed.
#[local] Hint Resolve handle_request_keep : asteps.
Lemma check_replay_keep id msg replay nonce : asteps (keep K None) (check_replay id msg replay nonce).
Proof. unfold check_replay. keep_walk. Qed.
#[local] Hint Resolve check_replay_keep : asteps.
Lemma check_replay_mic_len id msg replay nonce w ok w' s s' :
  check_replay id msg replay nonce w = Ret (ok, w') → stas (au w) !! id = Some s → stas (au w') !! id = Some s' →
  sta_mic_len s' = sta_mic_len s.
Proof.
  unfold check_replay. intros R Hs Hs'. apply arun_bind in R as (s0 & w1 & [Hs0 ->]%arun_sta & R).
  rewrite Hs in Hs0. injection Hs0 as <-.
  assert (Same : w' = w → sta_mic_len s' = sta_mic_len s) by (intros ->; congruence).
  destruct (bool_decide _); [by apply arun_ret in R as [_ ->]; apply Same|].
  destruct (wpa_replay_counter_valid _ _); [by apply arun_ret in R as [_ ->]; apply Same|].
  destruct (alt_message_2 _ _ _ _); [|by apply arun_ret in R as [_ ->]; apply Same].
  apply arun_bind in R as (first & w1 & [_ ->]%arun_acc & R).
  apply arun_bind in R as (u & w1 & (s0 & Hs0 & ->)%arun_upd_sta & R). apply arun_ret in R as [_ ->].
  rewrite Hs in Hs0. injection Hs0 as <-. clear Same. revert Hs'. revert s'. apply at_set_sta. done.
Qed.
Lemma try_alt_keys_quiet id f : asteps quiet (try_alt_keys id f).
Proof. unfold try_alt_keys. quiet_walk. Qed.

(** *** Reception *)
Section frame.
Context (id : nat) (data : list Z) (Hdata : ∀ addr, names K !! id = Some addr → heard addr data).

(** What the check of the MIC of another message leaves, and what it may change. *)
Definition frame_core (s s' : wpa_state_machine) : Prop :=
  wpa_ptk_state s' = wpa_ptk_state s ∧ update_snonce s' = update_snonce s ∧
  MICVerified s' = MICVerified s ∧ (PTK_valid s = true → PTK_valid s' = true).
Lemma frame_core_of s s' : core s' = core s → frame_core s s'.
Proof. intros H. unfold frame_core. by same_core H. Qed.

Lemma try_alt_keys_vouched w k own vlan keys w' :
  try_alt_keys id data w = Ret (Some (k, own, vlan, keys), w') → Inv K None w →
  (∀ s, stas (au w) !! id = Some s → sta_mic_len s ≠ 0) →
  ∃ addr, names K !! id = Some addr ∧ vouched addr keys.
Proof using Hdata.
  unfold try_alt_keys. intros R I Hm. apply arun_bind in R as (s & w1 & [Hs ->]%arun_sta & R).
  specialize (Hm s Hs). unfold sta_mic_len in Hm.
  destruct (iv_place _ _ _ I id s Hs) as [_ Hn]. pose proof (Hdata _ Hn) as Hh. exists (sta_addr s).
  split; [done|]. destruct (tries_psks s) eqn:Et.
  - apply arun_bind in R as (psks & w2 & Hp & R).
    eapply try_psks_vouched; [exact R| |done]. intros n Hn0. eapply signs_quiet; [eapply get_psks_quiet; exact Hp|].
    eapply sta_signs; [exact Hs|]. by apply psk_signs.
  - apply arun_bind in R as ([m keys1] & w2 & Hp & R). apply arun_ret in R as [R ->].
    destruct m; [done| |done]. injection R as -> -> -> ->. eapply try_pmk_vouched; [exact Hp| |done].
    eapply sta_signs; [exact Hs|].
    pose proof (mic_len_nonneg (wpa_key_mgmt s) (blen (PMK s)) ltac:(lia)). lia.
Qed.

Lemma take_keys_inv addr keys w u w' s :
  upd_sta id (λ s, s <| SNonce := alt_SNonce s |> <| PTK := keys |> <| PTK_valid := true |>) w = Ret (u, w') →
  Inv K None w → names K !! id = Some addr → vouched addr keys → stas (au w) !! id = Some s →
  Inv K None w' ∧ (∀ s', stas (au w') !! id = Some s' → frame_core s s').
Proof.
  intros R I Hn Hv Hs. split.
  - eapply keep_upd_named; [|exact R|exact I]. intros x Hx S. rewrite Hn in Hx. injection Hx as ->.
    upd_good_of S.
  - apply arun_upd_sta in R as (x & Hx & ->). rewrite Hs in Hx. injection Hx as <-. by apply at_set_sta.
Qed.

Lemma try_alt_snonce_inv w ok w' s :
  wpa_try_alt_snonce id data w = Ret (ok, w') → Inv K None w → stas (au w) !! id = Some s →
  sta_mic_len s ≠ 0 →
  Inv K None w' ∧ (∀ s', stas (au w') !! id = Some s' → frame_core s s').
Proof using Hdata.
  unfold wpa_try_alt_snonce. intros R I Hs Hm. apply arun_bind in R as (r & w1 & Hr & R).
  assert (Still : ∀ w2, quiet w w2 → Inv K None w2 ∧ (∀ s', stas (au w2) !! id = Some s' → frame_core s s')).
  { intros w2 Q. split; [by eapply inv_quiet|]. intros s' Hs'. apply frame_core_of.
    destruct (quiet_lookup _ _ _ _ Q Hs) as (s1 & Hs1 & Hc). rewrite Hs' in Hs1. by injection Hs1 as ->. }
  pose proof (try_alt_keys_quiet _ _ _ _ _ Hr) as Q1. destruct r as [[[[pmk' own] vlan] keys]|].
  2: { apply arun_ret in R as [-> ->]. by apply Still. }
  destruct (try_alt_keys_vouched _ _ _ _ _ _ Hr I) as (addr & Hn & Hv).
  { intros x Hx. rewrite Hs in Hx. by injection Hx as <-. }
  clear Hr.
  apply arun_bind in R as (u & w2 & Hu & R). quiet_run Hu Q2.
  apply arun_bind in R as (u1 & w3 & Hu1 & R). quiet_run Hu1 Q3.
  apply arun_bind in R as (s3 & w4 & [Hs3 ->]%arun_sta & R).
  apply arun_bind in R as (okv & w4 & Hok & R). pose proof (vlan_ok_quiet _ _ _ _ _ Hok) as Q4.
  destruct (Still w4) as [I4 F4]; [by do 3 (etransitivity; [eassumption|])|].
  destruct okv; cbn [negb] in R; [|by apply arun_ret in R as [-> ->]].
  apply arun_bind in R as (u2 & w5 & Hu2 & R). apply arun_ret in R as [-> ->].
  pose proof Hu2 as (s4 & Hs4 & _)%arun_upd_sta.
  destruct (take_keys_inv _ _ _ _ _ _ Hu2 I4 Hn Hv Hs4) as [I5 F5]. split; [done|].
  intros s' Hs'. destruct (F4 s4 Hs4) as (A1 & A2 & A3 & A4), (F5 s' Hs') as (B1 & B2 & B3 & B4).
  unfold frame_core. split_and!; [congruence..|auto].
Qed.

(** The MIC was checked: with a PTK it was right. *)
Definition mic_checked (s s' : wpa_state_machine) : Prop :=
  wpa_ptk_state s' = wpa_ptk_state s ∧ update_snonce s' = update_snonce s ∧
  (MICVerified s' = true → PTK_valid s' = true) ∧
  (PTK_valid s = true → update_snonce s = false → MICVerified s' = true).

Lemma drop_mic s : sinv s → settled s → sinv (s <| MICVerified := false |>).
Proof.
  intros [H2 H3 H4 H5 H6] Hs. unfold settled, pend, pairwise_frame, negotiating in *. split; cbn; try done.
  - intros Hp Hst. by destruct (Hs Hp).
  - intros Hp Hst Hf. destruct (Hs Hp) as [_ Hn]. unfold pairwise_frame in Hf. cbn in Hf.
    rewrite Hn in Hf; [done|auto].
Qed.

Lemma check_mic_inv msg n w ok w' s :
  check_frame_mic id msg n data w = Ret (ok, w') → Inv K None w → stas (au w) !! id = Some s →
  n = sta_mic_len s →
  Inv K None w' ∧ (ok = true → ∀ s', stas (au w') !! id = Some s' → mic_checked s s').
Proof using Hdata HK.
  unfold check_frame_mic. intros R I Hs Hn. destruct (at_rest K w id s HK I Hs) as [Hl Hset].
  apply arun_bind in R as (u & w1 & (s0 & Hs0 & ->)%arun_upd_sta & R). rewrite Hs in Hs0. injection Hs0 as <-.
  assert (I1 : Inv K None (set_sta id (s <| MICVerified := false |>) w)).
  { eapply inv_upd_same; [exact I|exact Hs| |done|done|done]. apply drop_mic; [by eapply (iv_sta _ _ _ I)|done]. }
  set (s1 := s <| MICVerified := false |>) in *. set (w1 := set_sta id s1 w) in *.
  assert (Hs1 : stas (au w1) !! id = Some s1) by (cbn; apply lookup_insert_eq).
  apply arun_bind in R as (s0 & w2 & [Hs0 ->]%arun_sta & R). rewrite Hs1 in Hs0. injection Hs0 as <-.
  cbn in R. destruct (PTK_valid s && negb (update_snonce s)) eqn:Ev.
  2: { apply arun_ret in R as [-> ->]. split; [done|]. intros _ s' Hs'. rewrite Hs1 in Hs'. injection Hs' as <-.
       unfold mic_checked. split_and!; [done..|]. intros H1 H2. by rewrite H1, H2 in Ev. }
  apply andb_prop in Ev as [Ev Eu].
  apply arun_bind in R as (ok1 & w2 & Hm & R).
  assert (H2 : Inv K None w2 ∧ ∀ s', stas (au w2) !! id = Some s' → frame_core s1 s').
  { assert (Same : Inv K None w1 ∧ ∀ s', stas (au w1) !! id = Some s' → frame_core s1 s').
    { split; [done|]. intros s' Hs'. rewrite Hs1 in Hs'. injection Hs' as <-. by apply frame_core_of. }
    destruct (bool_decide_reflect (n = 0)) as [|Hn0]; [by apply arun_ret in Hm as [-> ->]|].
    apply arun_bind in Hm as (v & w3 & [_ ->]%arun_lift & Hm).
    destruct (bool_decide (v = 0)); [by apply arun_ret in Hm as [-> ->]|].
    destruct (_ && _); [by eapply try_alt_snonce_inv; try done; rewrite Hn in Hn0|by apply arun_ret in Hm as [-> ->]]. }
  destruct H2 as [I2 F2]. destruct ok1; cbn [negb] in R; [|by apply arun_ret in R as [-> ->]].
  apply arun_bind in R as (u1 & w3 & (s2 & Hs2 & ->)%arun_upd_sta & R). apply arun_ret in R as [-> ->].
  destruct (F2 s2 Hs2) as (B1 & B2 & B3 & B4). pose proof (B4 Ev) as Ev2. split.
  { pose proof (iv_sta _ _ _ I2 id s2 Hs2) as S. eapply inv_upd_same; [exact I2|exact Hs2| |done|done|done].
    revert S Ev2. clear. intros [H2 H3 H4 H5 H6] Ev2. sinv_only. }
  intros _. apply at_set_sta. unfold mic_checked. cbn. by split_and!.
Qed.

(** The frame [data] is taken by a station that is ready for it. *)
Definition ready (kp kr : bool) (s : wpa_state_machine) : Prop :=
  kp = true → kr = false →
  (wpa_ptk_state s = WPA_PTK_PTKINITNEGOTIATING → MICVerified s = true ∨ update_snonce s = true) ∧
  (MICVerified s = true → PTK_valid s = true).
Lemma ready_of_core kp kr : of_core (ready kp kr).
Proof. intros s s' H. unfold ready. by same_core H. Qed.

Lemma take_frame kp kr sec nonce s :
  sinv s → settled s → ready kp kr s → heard (sta_addr s) data →
  sinv (s <| last_rx_eapol_key := Some data |> <| rx_eapol_key_secure := sec |> <| EAPOLKeyReceived := true |>
          <| EAPOLKeyPairwise := kp |> <| EAPOLKeyRequest := kr |> <| SNonce := nonce |>).
Proof.
  intros [H2 H3 H4 H5 H6] Hs Hr Hh. unfold ready, settled, pend, pairwise_frame, negotiating in *.
  split; unfold pend, pairwise_frame, negotiating; cbn; try done.
  - intros Hp Hst Hf. apply andb_prop in Hf as [Hr1 Hk]. apply negb_true_iff in Hr1.
    destruct (Hr Hk Hr1) as [Hr2 _]. auto.
  - intros Hv Hp Hn Hf Hm. apply andb_prop in Hf as [Hr1 Hk]. apply negb_true_iff in Hr1.
    destruct (Hr Hk Hr1) as [_ Hr2]. rewrite (Hr2 Hm) in Hv. done.
Qed.

Lemma accept_frame_inv key_info nonce w u w' :
  accept_frame step id key_info nonce data w = Ret (u, w') → Inv K None w →
  (∀ s, stas (au w) !! id = Some s →
     ready (any_of key_info WPA_KEY_INFO_KEY_TYPE) (any_of key_info WPA_KEY_INFO_REQUEST) s) → Inv K None w'.
Proof using Hdata HK Hstep.
  unfold accept_frame. intros R I Hr. apply arun_bind in R as (ok & w1 & Hok & R).
  pose proof (amalloc_quiet _ _ _ _ Hok) as Q. pose proof (inv_quiet K None _ _ Q I) as I1.
  destruct ok; cbn [negb] in R; [|revert R I1; apply keep_upd_sta; upd_good].
  apply arun_bind in R as (u1 & w2 & (s & Hs & ->)%arun_upd_sta & R).
  apply arun_bind in R as (r & w3 & Hst & R). apply arun_ret in R as [_ ->].
  eapply Hstep; [exact Hst|]. destruct (at_rest K _ id s HK I1 Hs) as [Hl Hset].
  destruct (iv_place _ _ _ I1 id s Hs) as [_ Hn].
  eapply inv_upd; [exact I1|exact Hs| |done|done|by intros _ []|cbn; by rewrite Hl| |done|done].
  - apply take_frame; [by eapply (iv_sta _ _ _ I1)|done| |by apply Hdata].
    destruct (quiet_lookup_rev _ _ _ _ Q Hs) as (s0 & Hs0 & Hc). eapply ready_of_core; [exact Hc|by apply Hr].
  - destruct HK as [-> _]. set_solver.
Qed.

Lemma expected_ready msg key_info n kd s s' :
  msg = message_of key_info n kd → state_expects s msg = true → mic_checked s s' →
  ready (any_of key_info WPA_KEY_INFO_KEY_TYPE) (any_of key_info WPA_KEY_INFO_REQUEST) s'.
Proof.
  intros -> He (M1 & M2 & M3 & M4) Hp Hr. split; [|done]. rewrite M1, M2. intros Hst.
  revert He. unfold message_of. rewrite Hp, Hr. cbn [negb]. destruct (_ || _); cbn [state_expects]; rewrite Hst.
  - rewrite bool_decide_true by done. cbn. intros Hv. destruct (update_snonce s); [by right|left; auto].
  - cbn. rewrite andb_true_r. auto.
Qed.

Lemma rx_message_inv n key_info len kd replay nonce w u w' :
  rx_message step fuel id (message_of key_info n len) n key_info kd replay nonce data w = Ret (u, w') →
  Inv K None w → (∀ s, stas (au w) !! id = Some s → n = sta_mic_len s) → Inv K None w'.
Proof using Hdata HK Hstep.
  intros R I Hn. unfold rx_message in R. set (msg := message_of key_info n len) in *.
  apply arun_bind in R as (a & w1 & [-> ->]%arun_get & R).
  apply arun_bind in R as (s & w1 & [Hs ->]%arun_sta & R).
  destruct (state_expects s msg) eqn:He; cbn [negb] in R; [|by apply arun_ret in R as [_ ->]].
  destruct (_ && _); [by eapply run_disconnect_keep|].
  destruct (any_of _ _); [by apply arun_ret in R as [_ ->]|].
  destruct (_ && _); [by apply arun_ret in R as [_ ->]|].
  apply arun_bind in R as (ok & w1 & Hc & R). destruct (check_mic_inv _ _ _ _ _ _ Hc I Hs (Hn s Hs)) as [I1 M].
  destruct ok; cbn [negb] in R; [|by apply arun_ret in R as [_ ->]].
  apply arun_bind in R as (go & w2 & Hgo & R).
  assert (I2 : Inv K None w2).
  { destruct (bool_decide _); [by eapply handle_request_keep|]. 
    apply arun_bind in Hgo as (u1 & w3 & Hu & Hgo). apply arun_ret in Hgo as [_ ->]. quiet_run Hu Q.
    by eapply inv_quiet. }
  destruct go; [|by apply arun_ret in R as [_ ->]]. eapply accept_frame_inv; [exact R|done|].
  intros s2 Hs2. destruct (bool_decide_reflect (msg = REQUEST)) as [Hm|Hm].
  - intros _ Hr. exfalso. revert Hm. unfold msg, message_of. rewrite Hr.
    destruct (negb _); [done|]. by destruct (_ || _).
  - apply arun_bind in Hgo as (u1 & w3 & Hu & Hgo). apply arun_ret in Hgo as [_ ->]. quiet_run Hu Q.
    destruct (quiet_lookup_rev _ _ _ _ Q Hs2) as (s1 & Hs1 & Hcore). eapply ready_of_core; [exact Hcore|].
    eapply expected_ready; [reflexivity|exact He|by apply M].
Qed.
End frame.

Lemma receive_inv id data w u w' :
  wpa_receive step fuel id data w = Ret (u, w') → Inv K None w →
  (∀ s, stas (au w) !! id = Some s → heard (sta_addr s) data) → Inv K None w'.
Proof using HK Hstep.
  unfold wpa_receive. intros R I Hh. apply arun_bind in R as (c & w1 & [-> ->]%arun_conf & R).
  destruct (bool_decide _); [by apply arun_ret in R as [_ ->]|].
  apply arun_bind in R as (s & w1 & [Hs ->]%arun_sta & R). specialize (Hh s Hs).
  destruct (iv_place _ _ _ I id s Hs) as [_ Hn].
  assert (Hd : ∀ addr, names K !! id = Some addr → heard addr data).
  { intros addr Ha. rewrite Hn in Ha. by injection Ha as <-. }
  apply arun_bind in R as (h & w1 & [_ ->]%arun_acc & R).
  destruct h as [[key_info kd]|]; [|by apply arun_ret in R as [_ ->]].
  do 2 (apply arun_bind in R as (? & w1 & [_ ->]%arun_acc & R)).
  destruct (any_of _ _); [by apply arun_ret in R as [_ ->]|].
  destruct (negb _); [by apply arun_ret in R as [_ ->]|]. cbv zeta in R.
  apply arun_bind in R as (ok & w1 & Hc & R). pose proof (check_replay_keep _ _ _ _ _ _ _ Hc I) as I1.
  destruct ok; [|by apply arun_ret in R as [_ ->]].
  eapply (rx_message_inv id data Hd); [exact R|exact I1|]. intros s1 Hs1. symmetry.
  by eapply check_replay_mic_len.
Qed.

(** *** Stations *)
Lemma associated_keep id : asteps (keep K None) (wpa_auth_sta_associated step id).
Proof using Hstep. unfold wpa_auth_sta_associated. keep_walk. Qed.
Lemma finish_at_rest id e w r w' : finish_sm_event step id e w = Ret (r, w') → Inv K None w → Inv K None w'.
Proof using HK Hstep.
  intros R I. eapply finish_event_keep; [exact Hstep|exact R|done|]. intros s Hs. right.
  by eapply at_rest.
Qed.
#[local] Hint Extern 4 (asteps (keep _ _) (finish_sm_event _ _ _)) => exact (finish_at_rest _ _) : asteps.
Lemma event_keep id e : e ≠ WPA_ASSOC_FT → asteps (keep K None) (wpa_auth_sm_event step id e).
Proof using HK Hstep. intros He. unfold wpa_auth_sm_event, reauth_event. destruct e; try done; keep_walk. Qed.
Lemma request_step_keep id : asteps (keep K None) (wpa_rekey_ptk step id).
Proof using Hstep. unfold wpa_rekey_ptk. keep_walk. Qed.
Lemma timeout_keep id : asteps (keep K None) (wpa_send_eapol_timeout step id).
Proof using Hstep. unfold wpa_send_eapol_timeout. keep_walk. Qed.
Lemma tx_status_keep id ack : asteps (keep K None) (wpa_auth_eapol_key_tx_status id ack).
Proof. unfold wpa_auth_eapol_key_tx_status, cancel_eapol_timeout, register_eapol_timeout. keep_walk. Qed.
Lemma wnm_rekey_keep id : asteps (keep K None) (wpa_wnmsleep_rekey_gtk step id).
Proof using Hstep. unfold wpa_wnmsleep_rekey_gtk. keep_walk. Qed.
Lemma rekey_gmk_keep : asteps (keep K None) wpa_rekey_gmk.
Proof.
  unfold wpa_rekey_gmk. apply asteps_bind; [apply _|keep_walk|intros r].
  apply asteps_bind; [apply _|keep_walk|intros _]. apply keep_same. intros a. by destruct (bool_decide _).
Qed.
Lemma init_keys_keep : asteps (keep K None) (wpa_init_keys step).
Proof using Hstep. unfold wpa_init_keys. keep_walk. Qed.
Lemma reconfig_keep c ie : asteps (keep K None) (wpa_reconfig step c ie).
Proof using Hstep. unfold wpa_reconfig. keep_walk. Qed.
Lemma pmksa_free_keep e : asteps (keep K None) (wpa_auth_pmksa_free_cb e).
Proof.
  unfold wpa_auth_pmksa_free_cb, wpa_auth_for_each_sta. apply asteps_bind; [apply _|keep_walk|intros a].
  apply for_each_keep. intros id. keep_walk.
Qed.
Lemma set_assoc_keep id i : asteps (keep K None) (upd_sta id (set_assoc i)).
Proof. apply keep_upd_sta. unfold set_assoc. upd_good. Qed.
Lemma no_wpa_keep id : asteps (keep K None) (wpa_auth_sta_no_wpa id).
Proof. unfold wpa_auth_sta_no_wpa. apply keep_upd_sta. upd_good. Qed.
#[local] Hint Resolve associated_keep event_keep request_step_keep timeout_keep tx_status_keep wnm_rekey_keep
  rekey_gmk_keep init_keys_keep reconfig_keep pmksa_free_keep set_assoc_keep no_wpa_keep : asteps.

(** *** One operation *)
Lemma for_sta_keep id m : asteps (keep K None) m → asteps (keep K None) (for_sta id m).
Proof. intros Hm. unfold for_sta. keep_walk. Qed.
Lemma ignore_keep {A} (m : AM A) : asteps (keep K None) m → asteps (keep K None) (ignore m).
Proof. intros Hm. unfold ignore. keep_walk. Qed.
Lemma fire_keep id due clear m : good_upd clear → asteps (keep K None) m → asteps (keep K None) (fire id due clear m).
Proof.
  intros Hc Hm. pose proof (keep_upd_sta K None id _ Hc). unfold fire, for_sta. keep_walk.
Qed.
#[local] Hint Resolve for_sta_keep ignore_keep : asteps.
#[local] Hint Extern 2 (asteps (keep _ _) (fire _ _ _ _)) => apply fire_keep; [upd_good|] : asteps.
End operations.

(** Every operation but the completion of a fast BSS transition, whose PTK is that of the FT
    protocol (wpa_auth_ft.c). *)
Definition sound_op (o : auth_op) : Prop :=
  match o with
  | OpEvent _ e => e ≠ WPA_ASSOC_FT
  | _ => True
  end.
Definition heard_op (w : aworld) (o : auth_op) : Prop :=
  match o with
  | OpReceive id d => ∀ s, stas (au w) !! id = Some s → heard (sta_addr s) d
  | _ => True
  end.

Lemma init_sta_inv K addr w r w' :
  top K → wpa_auth_sta_init addr w = Ret (r, w') → Inv K None w → ∃ K', top K' ∧ Inv K' None w'.
Proof.
  unfold wpa_auth_sta_init. intros HK R I. apply arun_bind in R as (g & w1 & [-> ->]%arun_group & R).
  destruct (bool_decide _); [apply arun_ret in R as [_ ->]; by exists K|].
  apply arun_bind in R as (ok & w1 & Hok & R). apply (inv_run K None) in Hok; [|apply amalloc_quiet|done].
  destruct ok; cbn [negb] in R; [|apply arun_ret in R as [_ ->]; by exists K].
  apply arun_bind in R as (a & w2 & [-> ->]%arun_get & R). cbv zeta in R.
  apply arun_bind in R as (u & w2 & ->%arun_upd & R). apply arun_ret in R as [_ ->].
  set (id := next_sta (au w1)). exists (mk_places ∅ ∅ (<[id := addr]> (names K))). split; [done|].
  destruct HK as [HK1 HK2]. destruct Hok as [I1 I2 I3 I4 I5].
  assert (Look : ∀ i x, <[id := new_sta addr]> (stas (au w1)) !! i = Some x →
    (i = id ∧ x = new_sta addr) ∨ (i ≠ id ∧ stas (au w1) !! i = Some x)).
  { intros i x [[<- <-]|[Hi Hx]]%lookup_insert_Some; [by left|by right]. }
  split; cbn; [intros i x Hx..|done]; try (destruct (Look i x Hx) as [[-> ->]|[Hi Hx']]; clear Look Hx).
  - by split; unfold pend, pairwise_frame, negotiating; cbn.
  - by eapply I1.
  - intros _ _ _. cbn. unfold negotiating. split; [done|]. by intros [?|[?|?]].
  - by eapply I2.
  - set_solver.
  - by rewrite lookup_insert_eq.
  - rewrite lookup_insert_ne by done. destruct (I4 i x Hx') as [H1 H2]. rewrite HK2 in H1. auto.
Qed.

Lemma auth_do_keep K fuel o :
  top K → sound_op o → (∀ addr, o ≠ OpStaInit addr) → (∀ id d, o ≠ OpReceive id d) →
  asteps (keep K None) (auth_do fuel o).
Proof.
  intros HK So Hni Hnr.
  destruct o as [a|id i|id|id|id|id d|id e|id|id ack|id|id|id|id flag|id| | | |c ie|e]; cbn [auth_do sound_op] in *;
    lazymatch goal with |- asteps _ (for_sta _ _) => apply for_sta_keep | _ => idtac end;
    lazymatch goal with |- asteps _ (ignore _) => apply ignore_keep | _ => idtac end.
  - by destruct (Hni a).
  - by apply set_assoc_keep.
  - apply associated_keep.
  - by apply no_wpa_keep.
  - by apply (deinit_keep K HK fuel).
  - by destruct (Hnr id d).
  - by apply event_keep.
  - unfold wpa_auth_sm_notify. keep_walk.
  - by apply tx_status_keep.
  - apply fire_keep; [upd_good|apply timeout_keep].
  - apply fire_keep; [upd_good|apply request_step_keep].
  - apply fire_keep; [upd_good|apply ignore_keep, run_step_keep].
  - unfold wpa_set_wnmsleep. keep_walk.
  - apply wnm_rekey_keep.
  - pose proof (rekey_gtk_keep K fuel fuel). keep_walk.
  - pose proof (rekey_gmk_keep K). keep_walk.
  - apply init_keys_keep.
  - apply reconfig_keep.
  - apply pmksa_free_keep.
Qed.

Lemma auth_do_inv K fuel o w u w' :
  top K → auth_do fuel o w = Ret (u, w') → Inv K None w → sound_op o → heard_op w o →
  ∃ K', top K' ∧ Inv K' None w'.
Proof.
  intros HK R I So Ho.
  assert (Cases : (∃ a, o = OpStaInit a) ∨ (∃ id d, o = OpReceive id d) ∨
    (∀ a, o ≠ OpStaInit a) ∧ (∀ id d, o ≠ OpReceive id d)) by (destruct o; naive_solver).
  destruct Cases as [[a ->]|[(id & d & ->)|[H1 H2]]]; cbn [auth_do] in R.
  - unfold ignore in R. apply arun_bind in R as (r & w1 & Hi & R). apply arun_ret in R as [_ ->].
    by eapply init_sta_inv.
  - unfold for_sta in R. apply arun_bind in R as (a & w1 & [-> ->]%arun_get & R). exists K. split; [done|].
    destruct (bool_decide _); [by eapply receive_inv|by apply arun_ret in R as [_ ->]].
  - exists K. split; [done|]. by eapply auth_do_keep.
Qed.
End keys.
