(* ===== verification/AuthFacts.v ===== *)
(** What the authenticator promises

    The keys of a station and its port need a frame of that station whose MIC was right. *)
From S2P Require Import Prelude Bytes Defs PmksaCache WpaKey WpaSm WpaHandshake WpaSafe WpaExample AuthSm AuthSend AuthStep AuthOps AuthLogic AuthQuiet AuthKeys AuthExample.

Section runs.
Context `{C : wpa_crypto} `{X : auth_crypto} `{E : auth_env}.

Lemma auth_run_app fuel os1 os2 w u w' :
  auth_run fuel (os1 ++ os2) w = Ret (u, w') →
  ∃ w1, auth_run fuel os1 w = Ret (tt, w1) ∧ auth_run fuel os2 w1 = Ret (u, w').
Proof.
  revert w. induction os1 as [|o os1 IH]; intros w R; cbn [auth_run app] in *; [by exists w|].
  apply arun_bind in R as ([] & w1 & Ho & R). destruct (IH _ R) as (w2 & R1 & R2). exists w2.
  split; [|done]. unfold mbind, AM_bind. by rewrite Ho.
Qed.
Lemma auth_run_snoc fuel os o w u w1 w' :
  auth_run fuel os w = Ret (tt, w1) → auth_do fuel o w1 = Ret (u, w') →
  auth_run fuel (os ++ [o]) w = Ret (tt, w').
Proof.
  intros R Ho. revert w R. induction os as [|o' os IH]; intros w R; cbn [auth_run app] in *.
  - injection R as <-. unfold mbind, AM_bind. rewrite Ho. by destruct u.
  - apply arun_bind in R as ([] & w2 & Ho' & R). unfold mbind, AM_bind. rewrite Ho'. by apply IH.
Qed.

Section received.
Context (fuel : nat) (w0 : aworld) (os : list auth_op).

(** In the run of [os] from [w0] the frame was received from the station with this
    address. *)
Definition received (addr f : list Z) : Prop := ∃ os1 os2 id w1 s,
  os = os1 ++ OpReceive id f :: os2 ∧ auth_run fuel os1 w0 = Ret (tt, w1) ∧
  stas (au w1) !! id = Some s ∧ sta_addr s = addr.

Lemma auth_run_inv os1 os2 w1 w K :
  os = os1 ++ os2 → Forall sound_op os → auth_run fuel os1 w0 = Ret (tt, w1) →
  auth_run fuel os2 w1 = Ret (tt, w) → top K → Inv received K None w1 → Forall (event_ok received) (atr w).
Proof.
  intros Hos Hs. revert os1 w1 K Hos. induction os2 as [|o os2 IH]; intros os1 w1 K Hos R1 R2 HK I.
  - injection R2 as <-. by apply iv_events in I.
  - cbn [auth_run] in R2. apply arun_bind in R2 as (u & w2 & Ho & R2).
    destruct (auth_do_inv received K fuel o w1 u w2 HK Ho I) as (K' & HK' & I').
    + rewrite Hos in Hs. apply Forall_app in Hs as [_ Hs]. by inversion Hs.
    + destruct o; try done. intros s Hid. exists os1, os2. eauto 10.
    + eapply (IH (os1 ++ [o])); [by rewrite <- (assoc_L (++))|by eapply auth_run_snoc|exact R2|exact HK'|exact I'].
Qed.
End received.

Lemma init_inv heard addr ie c w : wpa_init addr ie c [] = Ret (Some w) → Inv heard (mk_places ∅ ∅ ∅) None w.
Proof.
  unfold wpa_init. cbv zeta. set (w0 := mk_aworld _ _). intros H.
  destruct (wpa_group_init_gmk_and_counter w0) as [[r w1]| |] eqn:R; [|done..]. cbn in H.
  destruct (bool_decide (r < 0)); [done|]. injection H as <-. apply init_gmk_quiet in R as Q.
  assert (Hn : ∀ id, stas (au w0) !! id = None) by (intros; apply lookup_empty).
  assert (I0 : Inv heard (mk_places ∅ ∅ ∅) None w0).
  { split; [| | | |constructor]; intros i s; rewrite Hn; done. }
  by destruct (inv_quiet heard _ None _ _ Q I0).
Qed.

(** C4: in every run of the authenticator from [wpa_init] without fast BSS transitions, a
    pairwise key is given to the driver for reception and transmission, and a port is
    authorized, only for a station from whose address the run has received an EAPOL-Key frame
    whose MIC is right under a PTK, and the key is the TK of that PTK.  A run without fast
    transitions is one of any operations and any configuration but the event WPA_ASSOC_FT,
    which a reassociation over FT raises: its keys come from the frames of wpa_auth_ft.c,
    which have a MIC of their own and are not modelled.  All AKMs are included; the stations of one whose frames have no MIC (FILS, or
    DPP and OWE with an empty PMK) get no key this way.  As this holds of every run it holds
    of the part of a run that ends with the operation in which the key is given: the frame
    was received by then. *)
Theorem auth_keys_need_mic fuel addr ie c w0 os w :
  wpa_init addr ie c [] = Ret (Some w0) → Forall sound_op os → auth_run fuel os w0 = Ret (tt, w) →
  (∀ k res key, ASetKey k res ∈ atr w → ak_flag k = KEY_FLAG_PAIRWISE_RX_TX → ak_key k = Some key →
     ∃ p n, vouched (received fuel w0 os) (ak_addr k) p ∧ slice (tk p) 0 n = Some key) ∧
  (∀ a v, ASetEapol a EAPOL_authorized v ∈ atr w → v ≠ 0 → ∃ p, vouched (received fuel w0 os) a p).
Proof.
  intros Hi Hs R. pose proof (init_inv (received fuel w0 os) addr ie c w0 Hi) as I.
  assert (Ev : Forall (event_ok (received fuel w0 os)) (atr w)) by exact (auth_run_inv fuel w0 os [] os w0 w (mk_places ∅ ∅ ∅) eq_refl Hs eq_refl R (conj eq_refl eq_refl) I).
  rewrite Forall_forall in Ev. split.
  - intros k res key Hk Hf Hkey. exact (Ev _ Hk Hf key Hkey).
  - intros a v Ha Hv. exact (Ev _ Ha Hv).
Qed.
End runs.

(** ** The example *)

(** The operations of the access point in [connected]: the frames are those of the
    supplicant. *)
Definition connected_ops : list auth_op :=
  [OpInitKeys; OpStaInit own; OpAssocInfo 0 toy_assoc; OpEvent 0 WPA_ASSOC; OpAssociated 0] ++
  map (OpReceive 0) (match connected with Ret (_, s) => rev (sta_frames (tr s)) | _ => [] end).
Definition is_opening (e : aevent) : bool :=
  match e with ASetEapol a EAPOL_authorized v => bool_decide (a = own ∧ v = 1) | _ => false end.
Definition run_shows (i : outcome (option aworld)) (r : aworld → outcome (() * aworld)) (b : aevent → bool) : bool :=
  match i with
  | Ret (Some w0) => match r w0 with Ret (_, w) => existsb b (atr w) | _ => false end
  | _ => false
  end.
Lemma run_shows_spec i r b : run_shows i r b = true →
  ∃ w0 w e, i = Ret (Some w0) ∧ r w0 = Ret (tt, w) ∧ e ∈ atr w ∧ b e = true.
Proof.
  unfold run_shows. destruct i as [[w0|]| |]; [|done..]. destruct (r w0) as [[[] w]| |] eqn:Er; [|done..].
  intros (e & He & Hb)%existsb_exists. exists w0, w, e. by rewrite list_elem_of_In.
Qed.
Lemma connected_shows :
  run_shows (wpa_init (E := toy_auth_env true) ap ap_rsne toy_conf [])
    (auth_run (E := toy_auth_env true) ap_fuel connected_ops) is_opening = true.
Proof. by vm_compute. Qed.
Lemma connected_opens : ∃ w0 w,
  wpa_init (E := toy_auth_env true) ap ap_rsne toy_conf [] = Ret (Some w0) ∧
  auth_run (E := toy_auth_env true) ap_fuel connected_ops w0 = Ret (tt, w) ∧
  ASetEapol own EAPOL_authorized 1 ∈ atr w.
Proof.
  destruct (run_shows_spec _ _ _ connected_shows) as (w0 & w & e & Hi & Hr & He & Hb).
  exists w0, w. split; [exact Hi|]. split; [exact Hr|].
  destruct e as [| | | | |a [] v| | | | | | | | | | |]; try discriminate Hb.
  by apply bool_decide_eq_true in Hb as [-> ->].
Qed.
Lemma connected_ops_sound : Forall sound_op connected_ops.
Proof.
  unfold connected_ops. apply Forall_app. split; [by repeat constructor|].
  apply Forall_map, Forall_true. done.
Qed.

Lemma auth_keys_need_mic_witness : ∃ w0 w,
  wpa_init (E := toy_auth_env true) ap ap_rsne toy_conf [] = Ret (Some w0) ∧
  auth_run (E := toy_auth_env true) ap_fuel connected_ops w0 = Ret (tt, w) ∧
  ASetEapol own EAPOL_authorized 1 ∈ atr w ∧
  ∃ p, vouched (received (E := toy_auth_env true) ap_fuel w0 connected_ops) own p.
Proof.
  destruct connected_opens as (w0 & w & Ei & Er & Ho). exists w0, w.
  split; [exact Ei|]. split; [exact Er|]. split; [exact Ho|].
  destruct (auth_keys_need_mic (E := toy_auth_env true) _ _ _ _ _ _ _ Ei connected_ops_sound Er) as [_ T].
  apply (T own 1 Ho). discriminate.
Defined.
