(* ===== verification/EapCommon.v ===== *)
(** EAP message headers (src/eap_common/eap_common.c)

    Validation and construction of EAP packets.  A message is a [wpabuf]; a
    pointer into it is an offset from [wpabuf_head].  Reads are checked against
    the memory of the buffer, so a result [Some _] says that no read left it. *)
From S2P Require Import Prelude Bytes Wpabuf.

(** ** Constants (src/eap_common/eap_defs.h) *)
Definition EAP_CODE_REQUEST := 1.
Definition EAP_CODE_RESPONSE := 2.
Definition EAP_CODE_SUCCESS := 3.
Definition EAP_CODE_FAILURE := 4.
Definition EAP_CODE_INITIATE := 5.
Definition EAP_CODE_FINISH := 6.

Definition EAP_TYPE_NONE := 0.
Definition EAP_TYPE_IDENTITY := 1.
Definition EAP_TYPE_NOTIFICATION := 2.
Definition EAP_TYPE_NAK := 3.
Definition EAP_TYPE_TLS := 13.
Definition EAP_TYPE_LEAP := 17.
Definition EAP_TYPE_PEAP := 25.
Definition EAP_TYPE_EXPANDED := 254.
Definition EAP_VENDOR_IETF := 0.

(** [sizeof(struct eap_hdr)]: code, identifier, length. *)
Definition sizeof_eap_hdr := 4.

(** ** Operations *)

(** [Some true] for a valid header, [Some false] for an invalid one. *)
Definition eap_hdr_len_valid (msg : option wpabuf) (min_payload : Z) : option bool :=
  match msg with
  | None => Some false
  | Some m =>
      if bool_decide (used m < sizeof_eap_hdr) then Some false
      else
        len ← WPA_GET_BE16 (mem m) 2;
        Some (negb (bool_decide (len < sizeof_eap_hdr + min_payload) ||
                    bool_decide (used m < len)))
  end.

(** The outer option is a read outside the buffer, the inner one is [NULL]; a
    payload is its offset in the message and its length. *)
Definition eap_hdr_validate (vendor eap_type : Z) (msg : option wpabuf) :
    option (option (Z * Z)) :=
  valid ← eap_hdr_len_valid msg 1;
  match msg, valid with
  | Some m, true =>
      len ← WPA_GET_BE16 (mem m) 2;
      let pos := sizeof_eap_hdr in
      ty ← rd (mem m) pos;
      if bool_decide (ty = EAP_TYPE_EXPANDED) then
        if bool_decide (len < sizeof_eap_hdr + 8) then Some None
        else
          exp_vendor ← WPA_GET_BE24 (mem m) (pos + 1);
          exp_type ← WPA_GET_BE32 (mem m) (pos + 4);
          if bool_decide (exp_vendor ≠ vendor) || bool_decide (exp_type ≠ u32 eap_type)
          then Some None
          else Some (Some (pos + 8, len - sizeof_eap_hdr - 8))
      else if bool_decide (vendor ≠ EAP_VENDOR_IETF) || bool_decide (ty ≠ eap_type)
      then Some None
      else Some (Some (pos + 1, len - sizeof_eap_hdr - 1))
  | _, _ => Some None
  end.

(** The header that [eap_msg_alloc] puts first; [be16] stores keep 16 bits. *)
Definition eap_hdr_octets (code identifier len : Z) : list Z :=
  [u8 code; u8 identifier] ++ be16_bytes (u16 len).

Definition eap_msg_alloc (ok : bool) (vendor type payload_len code identifier : Z) :
    outcome (option wpabuf) :=
  let len := size_t (sizeof_eap_hdr +
                     (if bool_decide (vendor = EAP_VENDOR_IETF) then 1 else 8) +
                     payload_len) in
  match wpabuf_alloc ok len with
  | None => Ret None
  | Some buf =>
      buf ← wpabuf_put_bytes buf (eap_hdr_octets code identifier len);
      buf ← (if bool_decide (vendor = EAP_VENDOR_IETF) then wpabuf_put_u8 buf (u8 type)
             else
               buf ← wpabuf_put_u8 buf EAP_TYPE_EXPANDED;
               buf ← wpabuf_put_be24 buf vendor;
               wpabuf_put_be32 buf type);
      Ret (Some buf)
  end.

Definition eap_update_len (msg : wpabuf) : option wpabuf :=
  if bool_decide (used msg < sizeof_eap_hdr) then Some msg
  else
    m ← WPA_PUT_BE16 (mem msg) 2 (u16 (used msg));
    Some (msg <| mem := m |>).

Definition eap_get_id (msg : wpabuf) : option Z :=
  if bool_decide (used msg < sizeof_eap_hdr) then Some 0 else rd (mem msg) 1.

Definition eap_get_type (msg : wpabuf) : option Z :=
  if bool_decide (used msg < sizeof_eap_hdr + 1) then Some EAP_TYPE_NONE
  else rd (mem msg) sizeof_eap_hdr.

(** ** ERP TVs and TLVs *)
Record erp_tlvs := mk_erp_tlvs {
  keyname : option Z; domain : option Z; keyname_len : Z; domain_len : Z;
}.
#[export] Instance eta_erp_tlvs : Eta erp_tlvs :=
  λ t, mk_erp_tlvs (keyname t) (domain t) (keyname_len t) (domain_len t).

Definition EAP_ERP_TLV_KEYNAME_NAI := 1.
Definition EAP_ERP_TV_RRK_LIFETIME := 2.
Definition EAP_ERP_TV_RMSK_LIFETIME := 3.
Definition EAP_ERP_TLV_DOMAIN_NAME := 4.

(** The TLV types of the second group of cases: keyName-NAI, domain name,
    cryptosuites, authorization indication and 128 to 132. *)
Definition erp_is_tlv (ty : Z) : bool :=
  bool_decide (ty ∈ [4; 1; 5; 6; 128; 129; 130; 131; 132]).

(** One pass of the [while] loop: [inl] ends the function, [inr] goes on. *)
Definition erp_parse_tlv (b : list Z) (pos end_ : Z) (t : erp_tlvs) (stop_at_keyname : bool) :
    option ((Z * erp_tlvs) + (Z * erp_tlvs)) :=
  ty ← rd b pos;
  let pos := pos + 1 in
  if bool_decide (ty = EAP_ERP_TV_RRK_LIFETIME ∨ ty = EAP_ERP_TV_RMSK_LIFETIME) then
    if bool_decide (end_ < pos + 4) then Some (inl (-1, t)) else Some (inr (pos + 4, t))
  else if erp_is_tlv ty then
    if bool_decide (end_ ≤ pos) then Some (inl (-1, t))
    else
      len ← rd b pos;
      let pos := pos + 1 in
      if bool_decide (end_ - pos < len) then Some (inl (-1, t))
      else if bool_decide (ty = EAP_ERP_TLV_KEYNAME_NAI) then
        match keyname t with
        | Some _ => Some (inl (-1, t))
        | None =>
            let t := t <| keyname := Some pos |> <| keyname_len := len |> in
            if stop_at_keyname then Some (inl (0, t)) else Some (inr (pos + len, t))
        end
      else if bool_decide (ty = EAP_ERP_TLV_DOMAIN_NAME) then
        Some (inr (pos + len, t <| domain := Some pos |> <| domain_len := len |>))
      else Some (inr (pos + len, t))
  else if bool_decide (128 ≤ ty ≤ 191) then
    if bool_decide (end_ ≤ pos) then Some (inl (-1, t))
    else
      len ← rd b pos;
      let pos := pos + 1 in
      if bool_decide (end_ - pos < len) then Some (inl (-1, t))
      else Some (inr (pos + len, t))
  else Some (inr (end_, t)).

Fixpoint erp_parse_loop (fuel : nat) (b : list Z) (pos end_ : Z) (t : erp_tlvs)
    (stop_at_keyname : bool) : option (Z * erp_tlvs) :=
  if bool_decide (pos < end_) then
    match fuel with
    | O => None
    | S fuel =>
        r ← erp_parse_tlv b pos end_ t stop_at_keyname;
        match r with
        | inl r => Some r
        | inr (pos, t) => erp_parse_loop fuel b pos end_ t stop_at_keyname
        end
    end
  else Some (0, t).

(** The fuel covers every octet of the buffer, and each pass consumes one. *)
Definition erp_parse_tlvs (b : list Z) (pos end_ : Z) (stop_at_keyname : bool) :
    option (Z * erp_tlvs) :=
  erp_parse_loop (Z.to_nat (end_ - pos)) b pos end_ (mk_erp_tlvs None None 0 0)
    stop_at_keyname.

(** ** Reads stay inside the message *)
Lemma eap_hdr_len_valid_safe m min_payload :
  wf m → bytes_ok (mem m) →
  ∃ v, eap_hdr_len_valid (Some m) min_payload = Some v ∧
       (v = true → sizeof_eap_hdr ≤ used m ∧
          ∃ len, WPA_GET_BE16 (mem m) 2 = Some len ∧
                 sizeof_eap_hdr + min_payload ≤ len ≤ used m).
Proof.
  intros (Hu & Hs & Hm) Hok. unfold eap_hdr_len_valid, sizeof_eap_hdr.
  case_bool_decide; [by exists false|].
  destruct (WPA_GET_BE16_in (mem m) 2) as (len & -> & ?); [lia|lia|done|]. simpl.
  eexists; split; [done|]. intros [??]%negb_true_iff%orb_false_iff.
  do 2 case_bool_decide; try done. split; [lia|]. exists len. split; [done|lia].
Qed.

(** What [eap_hdr_validate] accepts. *)
Definition eap_header_ok (vendor eap_type : Z) (m : wpabuf) (off n : Z) : Prop :=
  ∃ len, WPA_GET_BE16 (mem m) 2 = Some len ∧ off + n = len ∧ len ≤ used m ∧ 0 ≤ n ∧
    (off = 5 ∧ vendor = EAP_VENDOR_IETF ∧ eap_type ≠ EAP_TYPE_EXPANDED ∧
       rd (mem m) 4 = Some eap_type
     ∨ off = 12 ∧ rd (mem m) 4 = Some EAP_TYPE_EXPANDED ∧
       WPA_GET_BE24 (mem m) 5 = Some vendor ∧ WPA_GET_BE32 (mem m) 8 = Some (u32 eap_type)).

Lemma eap_hdr_validate_spec vendor eap_type m :
  wf m → bytes_ok (mem m) →
  ∃ r, eap_hdr_validate vendor eap_type (Some m) = Some r ∧
       (∀ off n, r = Some (off, n) → eap_header_ok vendor eap_type m off n).
Proof.
  intros Hw Hok. unfold eap_hdr_validate.
  destruct (eap_hdr_len_valid_safe m 1 Hw Hok) as (v & -> & Hv). simpl.
  destruct v; [|by eexists]. destruct (Hv eq_refl) as (Hh & len & Hlen & ?).
  unfold sizeof_eap_hdr in *. destruct Hw as (Hu & Hs & Hm).
  rewrite Hlen. simpl.
  destruct (rd_in (mem m) 4) as [ty Hty]; [lia|]. rewrite Hty. simpl.
  case_bool_decide as Hex.
  - case_bool_decide; [by eexists|].
    destruct (WPA_GET_BE24_in (mem m) 5) as [ev Hev]; [lia..|].
    destruct (WPA_GET_BE32_in (mem m) 8) as [et Het]; [lia..|].
    change (4 + 1) with 5. change (4 + 4) with 8.
    rewrite Hev, Het. simpl.
    case_bool_decide; [by eexists|]. case_bool_decide; [by eexists|].
    eexists; split; [done|]. intros ?? [= <- <-].
    exists len. split_and!; [done|lia..|]. right.
    split_and!; [done|naive_solver|..].
    + rewrite Hev. f_equal. by destruct (decide (ev = vendor)).
    + rewrite Het. f_equal. by destruct (decide (et = u32 eap_type)).
  - case_bool_decide; [by eexists|]. case_bool_decide; [by eexists|].
    eexists; split; [done|]. intros ?? [= <- <-].
    assert (vendor = EAP_VENDOR_IETF) by (by destruct (decide (vendor = EAP_VENDOR_IETF))).
    assert (ty = eap_type) by (by destruct (decide (ty = eap_type))). subst.
    exists len. split_and!; [done|lia..|]. by left.
Qed.

(** The payload is inside the message. *)
Lemma eap_hdr_validate_in vendor eap_type m :
  wf m → bytes_ok (mem m) →
  ∃ r, eap_hdr_validate vendor eap_type (Some m) = Some r ∧
       (∀ off n, r = Some (off, n) → 0 ≤ off ∧ 0 ≤ n ∧ off + n ≤ used m).
Proof.
  intros Hw Hok. destruct (eap_hdr_validate_spec vendor eap_type m Hw Hok) as (r & -> & Hr).
  exists r. split; [done|]. intros off n E.
  destruct (Hr off n E) as (len & _ & ? & ? & ? & [[? _]|[? _]]); lia.
Qed.

(** C23: [eap_hdr_validate] never reads outside the message and accepts only a
    payload that lies inside it. *)
Theorem eap_hdr_validate_safe vendor eap_type m :
  wf m → bytes_ok (mem m) →
  ∃ r, eap_hdr_validate vendor eap_type (Some m) = Some r ∧
       (∀ off n, r = Some (off, n) → eap_header_ok vendor eap_type m off n).
Proof. apply eap_hdr_validate_spec. Qed.

(** Response, identifier 7, six octets, type 1, payload 97. *)
Definition identity_message : wpabuf := mk_wpabuf 6 6 [2; 7; 0; 6; 1; 97] false.

Example eap_hdr_validate_safe_witness :
  ∃ r, eap_hdr_validate EAP_VENDOR_IETF EAP_TYPE_IDENTITY (Some identity_message) = Some r ∧
       r = Some (5, 1) ∧
       (∀ off n, r = Some (off, n) →
          eap_header_ok EAP_VENDOR_IETF EAP_TYPE_IDENTITY identity_message off n).
Proof.
  destruct (eap_hdr_validate_safe EAP_VENDOR_IETF EAP_TYPE_IDENTITY identity_message)
    as (r & E & Hr).
  - unfold wf. simpl. lia.
  - repeat (constructor; [unfold is_byte; lia|]). constructor.
  - exists r. split; [exact E|]. split; [|exact Hr]. vm_compute in E. by injection E.
Defined.

(** ** Building a message and validating it *)
Definition eap_type_octets (vendor type : Z) : list Z :=
  if bool_decide (vendor = EAP_VENDOR_IETF) then [u8 type]
  else [EAP_TYPE_EXPANDED] ++ be24_bytes vendor ++ be32_bytes type.

Lemma eap_type_octets_length vendor type :
  blen (eap_type_octets vendor type) = if bool_decide (vendor = EAP_VENDOR_IETF) then 1 else 8.
Proof. unfold eap_type_octets. by case_bool_decide. Qed.

Ltac put_step H :=
  let b := fresh "b" in let E := fresh "E" in
  let W := fresh "W" in let S := fresh "S" in let C := fresh "C" in let U := fresh "U" in
  match goal with
  | |- context [wpabuf_put_bytes ?b0 ?d] =>
      destruct (put_bytes_ok b0 d) as (b & E & W & S & C & U);
      [done|H|rewrite E; simpl]
  end.

Lemma eap_msg_alloc_contents vendor type plen code id :
  0 ≤ plen → plen ≤ 65523 →
  ∃ buf, eap_msg_alloc true vendor type plen code id = Ret (Some buf) ∧ wf buf ∧
    contents buf =
      eap_hdr_octets code id (4 + blen (eap_type_octets vendor type) + plen) ++
      eap_type_octets vendor type ∧
    size buf = used buf + plen.
Proof.
  intros Hp0 Hp. unfold eap_msg_alloc. rewrite eap_type_octets_length.
  set (len := 4 + _ + plen).
  assert (Hlen : 5 ≤ len - plen ∧ len - plen ≤ 12 ∧ len < 2 ^ 32).
  { subst len. case_bool_decide; lia. }
  change (sizeof_eap_hdr + _ + plen) with len. rewrite (wrap_small 32) by lia.
  destruct (wpabuf_alloc true len) as [buf|] eqn:E0; [|done].
  destruct (wpabuf_alloc_wf len buf) as (W0 & S0 & C0); [lia|done|].
  pose proof (contents_length _ W0) as U0. rewrite C0 in U0. simpl in U0.
  put_step ltac:(rewrite <- U0; simpl; lia).
  rewrite C0 in C. unfold eap_type_octets.
  case_bool_decide as Hv.
  - unfold wpabuf_put_u8. put_step ltac:(rewrite S, U; simpl; subst len; lia).
    eexists; split; [done|]. split; [done|]. split; [by rewrite C1, C|].
    rewrite S1, U1, S, U. simpl. subst len. lia.
  - unfold wpabuf_put_u8, wpabuf_put_be24, wpabuf_put_be32.
    put_step ltac:(rewrite S, U; simpl; subst len; lia).
    put_step ltac:(rewrite S1, S, U1, U; simpl; subst len; lia).
    put_step ltac:(rewrite S2, S1, S, U2, U1, U; simpl; subst len; lia).
    eexists; split; [done|]. split; [done|].
    split; [by rewrite C3, C2, C1, C, <- !app_assoc|].
    rewrite S3, U3, S2, U2, S1, U1, S, U. simpl. subst len. lia.
Qed.

(** What a complete message consists of. *)
Section message.
Variables (vendor type code id : Z) (payload : list Z) (msg : wpabuf).
Hypothesis Hvendor : 0 ≤ vendor < 2 ^ 24.
Hypothesis Htype : 0 ≤ type < 2 ^ 32.
Hypothesis Hietf : vendor = EAP_VENDOR_IETF → type < 256 ∧ type ≠ EAP_TYPE_EXPANDED.
Hypothesis Hlen : blen payload ≤ 65523.
Hypothesis Hmsg : wf msg.
Let len := 4 + blen (eap_type_octets vendor type) + blen payload.
Hypothesis Hcontents :
  contents msg = eap_hdr_octets code id len ++ eap_type_octets vendor type ++ payload.

Lemma message_len : used msg = len ∧ 5 + blen payload ≤ len < 65536.
Proof.
  pose proof (contents_length _ Hmsg) as L. rewrite Hcontents, !length_app in L.
  pose proof (eap_type_octets_length vendor type) as Lt.
  unfold eap_hdr_octets in L. simpl in L. subst len. case_bool_decide; lia.
Qed.

Lemma message_be16 : WPA_GET_BE16 (mem msg) 2 = Some len.
Proof.
  destruct message_len as [? ?]. rewrite get_be16_contents by (done || lia).
  rewrite Hcontents. unfold eap_hdr_octets. rewrite (wrap_small 16) by lia.
  rewrite <- !app_assoc. apply get_be16_app; [lia|done].
Qed.

Lemma message_rd k :
  4 ≤ k < len → rd (mem msg) k = rd (eap_type_octets vendor type ++ payload) (k - 4).
Proof.
  destruct message_len as [? ?]. intros Hk. rewrite rd_contents by (done || lia).
  rewrite Hcontents, rd_app_r by (simpl; lia). done.
Qed.

Lemma message_header :
  rd (contents msg) 0 = Some (u8 code) ∧ eap_get_id msg = Some (u8 id).
Proof.
  destruct message_len as [? ?]. unfold eap_get_id, sizeof_eap_hdr.
  rewrite bool_decide_eq_false_2 by lia. rewrite rd_contents by (done || lia).
  by rewrite Hcontents.
Qed.

Lemma message_payload : slice (contents msg) (len - blen payload) (blen payload) = Some payload.
Proof.
  rewrite Hcontents, app_assoc. apply slice_app_end; [|done].
  rewrite length_app. unfold eap_hdr_octets. simpl. subst len. lia.
Qed.

Lemma message_expanded :
  vendor ≠ EAP_VENDOR_IETF →
  12 + blen payload ≤ len ∧ rd (mem msg) 4 = Some EAP_TYPE_EXPANDED ∧
  WPA_GET_BE24 (mem msg) 5 = Some vendor ∧ WPA_GET_BE32 (mem msg) 8 = Some type.
Proof.
  intros Hv. pose proof (eap_type_octets_length vendor type) as Lt.
  rewrite (bool_decide_eq_false_2 (vendor = _)) in Lt by done.
  assert (12 + blen payload ≤ len) by (subst len; lia).
  assert (Ht : eap_type_octets vendor type =
               [EAP_TYPE_EXPANDED] ++ be24_bytes vendor ++ be32_bytes type)
    by (unfold eap_type_octets; by rewrite bool_decide_eq_false_2).
  split_and!; [done|by rewrite message_rd, Ht by lia|..].
  - unfold WPA_GET_BE24. rewrite !message_rd by lia.
    fold (WPA_GET_BE24 (eap_type_octets vendor type ++ payload) 1). rewrite Ht, <- !app_assoc.
    by apply (get_be24_app [EAP_TYPE_EXPANDED]).
  - unfold WPA_GET_BE32. rewrite !message_rd by lia.
    fold (WPA_GET_BE32 (eap_type_octets vendor type ++ payload) 4). rewrite Ht, <- !app_assoc.
    by apply (get_be32_app ([EAP_TYPE_EXPANDED] ++ be24_bytes vendor)).
Qed.

Lemma message_valid :
  eap_hdr_validate vendor type (Some msg) = Some (Some (len - blen payload, blen payload)).
Proof.
  destruct message_len as [Hu ?]. unfold eap_hdr_validate, eap_hdr_len_valid, sizeof_eap_hdr.
  rewrite Hu, message_be16, (bool_decide_eq_false_2 (len < 4)) by lia. simpl.
  rewrite (bool_decide_eq_false_2 (len < 5)), (bool_decide_eq_false_2 (len < len)) by lia. simpl.
  destruct (decide (vendor = EAP_VENDOR_IETF)) as [Hv|Hv].
  - destruct (Hietf Hv) as [Ht1 Ht2]. rewrite message_rd by lia.
    assert (Ht : eap_type_octets vendor type = [u8 type])
      by (unfold eap_type_octets; by rewrite bool_decide_eq_true_2).
    assert (len = 5 + blen payload) by (subst len; rewrite Ht; simpl; lia).
    rewrite Ht. simpl. rewrite (wrap_small 8) by lia.
    rewrite (bool_decide_eq_false_2 (type = _)), (bool_decide_eq_false_2 (type ≠ type)),
      (bool_decide_eq_false_2 (vendor ≠ _)) by naive_solver. simpl.
    do 2 f_equal. f_equal; lia.
  - destruct (message_expanded Hv) as (? & Hex & Hb24 & Hb32). rewrite Hex. simpl.
    rewrite (bool_decide_eq_false_2 (len < _)) by lia.
    change (4 + 1) with 5. change (4 + 4) with 8. rewrite Hb24, Hb32. simpl.
    rewrite (wrap_small 32), (bool_decide_eq_false_2 (vendor ≠ vendor)),
      (bool_decide_eq_false_2 (type ≠ type)) by (lia || naive_solver). simpl.
    assert (len = 12 + blen payload).
    { subst len. rewrite eap_type_octets_length, bool_decide_eq_false_2 by done. lia. }
    do 2 f_equal. f_equal; lia.
Qed.
End message.

(** C22: a message built by [eap_msg_alloc] and filled with its payload is accepted
    by [eap_hdr_validate] for the same vendor and type, which finds that payload. *)
Theorem eap_msg_roundtrip vendor type code id payload :
  0 ≤ vendor < 2 ^ 24 → 0 ≤ type < 2 ^ 32 →
  (vendor = EAP_VENDOR_IETF → type < 256 ∧ type ≠ EAP_TYPE_EXPANDED) →
  blen payload ≤ 65523 →
  ∃ buf msg off,
    eap_msg_alloc true vendor type (blen payload) code id = Ret (Some buf) ∧
    wpabuf_put_data buf (Some payload) (blen payload) = Ret msg ∧
    used msg = size msg ∧
    eap_hdr_validate vendor type (Some msg) = Some (Some (off, blen payload)) ∧
    slice (contents msg) off (blen payload) = Some payload ∧
    rd (contents msg) 0 = Some (u8 code) ∧ eap_get_id msg = Some (u8 id).
Proof.
  intros Hvendor Htype Hietf Hlen.
  destruct (eap_msg_alloc_contents vendor type (blen payload) code id)
    as (buf & Ea & Wb & Cb & Sb); [lia..|].
  destruct (put_bytes_ok buf payload) as (msg & Ep & W & S & C & U); [done|lia|].
  rewrite Cb, <- app_assoc in C. exists buf, msg.
  destruct (message_len _ _ _ _ _ _ Hlen W C) as [Hu ?].
  destruct (message_header _ _ _ _ _ _ Hlen W C).
  eexists. rewrite put_data_bytes by done.
  split_and!; [done|done|lia|by apply (message_valid _ _ code id)
    |by apply (message_payload _ _ code id)|done..].
Qed.

Example eap_msg_roundtrip_witness :
  ∃ buf msg off,
    eap_msg_alloc true 0x372a 1 2 EAP_CODE_RESPONSE 7 = Ret (Some buf) ∧
    wpabuf_put_data buf (Some [97; 98]) 2 = Ret msg ∧
    used msg = size msg ∧
    eap_hdr_validate 0x372a 1 (Some msg) = Some (Some (off, 2)) ∧
    slice (contents msg) off 2 = Some [97; 98] ∧
    rd (contents msg) 0 = Some 2 ∧ eap_get_id msg = Some 7.
Proof. apply (eap_msg_roundtrip 0x372a 1 EAP_CODE_RESPONSE 7 [97; 98]); (done || simpl; lia). Defined.

(** ** The ERP parser *)
Definition tlvs_inside (lo hi : Z) (t : erp_tlvs) : Prop :=
  (∀ k, keyname t = Some k → lo ≤ k ∧ 0 ≤ keyname_len t ∧ k + keyname_len t ≤ hi) ∧
  (∀ k, domain t = Some k → lo ≤ k ∧ 0 ≤ domain_len t ∧ k + domain_len t ≤ hi).

Definition erp_pass_ok (lo pos hi : Z) (r : (Z * erp_tlvs) + (Z * erp_tlvs)) : Prop :=
  match r with
  | inl (code, t) => (code = 0 ∨ code = -1) ∧ tlvs_inside lo hi t
  | inr (pos', t) => pos < pos' ≤ hi ∧ tlvs_inside lo hi t
  end.

Lemma erp_parse_tlv_ok b lo pos hi t stop :
  bytes_ok b → 0 ≤ lo ≤ pos → pos < hi → hi ≤ blen b → tlvs_inside lo hi t →
  ∃ r, erp_parse_tlv b pos hi t stop = Some r ∧ erp_pass_ok lo pos hi r.
Proof.
  intros Hok Hlo Hpos Hhi Ht. unfold erp_parse_tlv.
  destruct (rd_in b pos) as [ty ->]; [lia|]. simpl.
  case_bool_decide.
  { case_bool_decide; eexists; (split; [done|]); simpl; split; auto; lia. }
  destruct (erp_is_tlv ty).
  - case_bool_decide; [eexists; split; [done|]; simpl; auto|].
    destruct (rd_in b (pos + 1)) as [len Hlen]; [lia|]. rewrite Hlen. simpl.
    pose proof (rd_Forall _ _ _ _ Hok Hlen) as Hlb. unfold is_byte in Hlb.
    case_bool_decide; [eexists; split; [done|]; simpl; auto|].
    case_bool_decide.
    + destruct (keyname t) eqn:Ek; [eexists; split; [done|]; simpl; auto|].
      destruct stop; eexists; (split; [done|]); simpl;
        split_and?; auto; try lia; unfold tlvs_inside in *; simpl;
        destruct Ht as [_ Ht]; (split; [|done]); intros ? [= <-]; lia.
    + case_bool_decide; eexists; (split; [done|]); simpl; split; auto; try lia.
      unfold tlvs_inside in *; simpl; destruct Ht as [Ht _].
      split; [done|]. intros ? [= <-]; lia.
  - case_bool_decide; [|eexists; split; [done|]; simpl; split; auto; lia].
    case_bool_decide; [eexists; split; [done|]; simpl; auto|].
    destruct (rd_in b (pos + 1)) as [len Hlen]; [lia|]. rewrite Hlen. simpl.
    pose proof (rd_Forall _ _ _ _ Hok Hlen) as Hlb. unfold is_byte in Hlb.
    case_bool_decide; eexists; (split; [done|]); simpl; auto; split; auto; lia.
Qed.

Lemma erp_parse_loop_ok b lo pos hi t stop fuel :
  bytes_ok b → 0 ≤ lo ≤ pos → pos ≤ hi → hi ≤ blen b → tlvs_inside lo hi t →
  hi - pos ≤ Z.of_nat fuel →
  ∃ code t', erp_parse_loop fuel b pos hi t stop = Some (code, t') ∧
    (code = 0 ∨ code = -1) ∧ tlvs_inside lo hi t'.
Proof.
  intros Hok Hlo Hpos Hhi. revert pos t Hlo Hpos.
  induction fuel as [|fuel IH]; intros pos t Hlo Hpos Ht Hf; simpl.
  { rewrite bool_decide_eq_false_2 by lia. eauto 6. }
  case_bool_decide; [|eauto 6].
  destruct (erp_parse_tlv_ok b lo pos hi t stop) as (r & -> & Hr); [done|lia..|done|].
  simpl. destruct r as [[code t']|[pos' t']]; simpl in Hr.
  - destruct Hr. eauto 6.
  - destruct Hr. apply IH; try done; lia.
Qed.

(** [erp_parse_tlvs] ends, reads only between [pos] and [end], returns 0 or -1,
    and the fields it reports lie between [pos] and [end]. *)
Theorem erp_parse_tlvs_safe b pos end_ stop :
  bytes_ok b → 0 ≤ pos ≤ end_ → end_ ≤ blen b →
  ∃ code t, erp_parse_tlvs b pos end_ stop = Some (code, t) ∧
    (code = 0 ∨ code = -1) ∧ tlvs_inside pos end_ t.
Proof.
  intros Hok ??. apply erp_parse_loop_ok; try done; try lia.
Qed.

(** A keyName-NAI TLV of two octets behind a lifetime TV. *)
Example erp_parse_tlvs_safe_witness :
  let b := [2; 0; 0; 0; 9; 1; 2; 97; 98] in
  ∃ code t, erp_parse_tlvs b 0 9 false = Some (code, t) ∧
    (code = 0 ∨ code = -1) ∧ tlvs_inside 0 9 t ∧ keyname t = Some 7 ∧ keyname_len t = 2.
Proof.
  intros b. destruct (erp_parse_tlvs_safe b 0 9 false) as (code & t & E & Hc & Ht).
  - repeat (constructor; [unfold is_byte; lia|]). constructor.
  - lia.
  - reflexivity.
  - exists code, t. split; [exact E|]. split; [exact Hc|]. split; [exact Ht|].
    vm_compute in E. injection E as _ <-. split; reflexivity.
Defined.

(** ** Updating the length of a message *)
Lemma eap_update_len_contents b code id l h rest :
  wf b → contents b = eap_hdr_octets code id l ++ rest → h = eap_hdr_octets code id (used b) →
  ∃ b', eap_update_len b = Some b' ∧ wf b' ∧ used b' = used b ∧ size b' = size b ∧
        contents b' = h ++ rest.
Proof.
  intros Hw Hc ->. pose proof Hw as (Hu & Hs & Hm).
  pose proof (contents_length _ Hw) as Hl. rewrite Hc, length_app in Hl.
  change (length (eap_hdr_octets code id l)) with 4%nat in Hl.
  unfold eap_update_len, sizeof_eap_hdr. rewrite bool_decide_eq_false_2 by lia.
  unfold WPA_PUT_BE16. rewrite blit_in by (simpl; lia). simpl.
  eexists; split; [done|]. unfold wf. simpl.
  assert (Hmem : mem b = eap_hdr_octets code id l ++ rest ++ drop (Z.to_nat (used b)) (mem b)).
  { rewrite app_assoc, <- Hc. unfold contents. by rewrite take_drop. }
  set (tl := drop (Z.to_nat (used b)) (mem b)) in *. clearbody tl.
  assert (Hn : Z.to_nat (used b) = (4 + length rest)%nat) by lia.
  split_and!; [lia|lia|done| |done|done|].
  - rewrite Hmem in *. simpl in *. rewrite <- Hm. rewrite ?length_app in *. simpl. rewrite drop_0, length_app. lia.
  - unfold contents. simpl. rewrite Hmem, Hn. simpl. rewrite drop_0. by rewrite take_app_length.
Qed.
