(* ===== verification/EapPeer.v ===== *)
(** EAP peer state machine (src/eap_peer/eap.c)

    The RFC 4137 peer state machine: [eap_sm] is struct eap_sm, each [SM_STATE]
    is a function that enters a state, and [eap_peer_sm_step] is the loop that
    runs [SM_STEP] until nothing changes.

    The machine talks to the layer below through struct eapol_callbacks, the
    class [EapolCallbacks]; [eapol_ctx] is the state those callbacks act on.  EAP
    methods are the function tables registered with eap_methods.c, the record
    [eap_method]; [P] is the type of their private data.

    The build options are those of src/utils/includes.h: no ERP, no EAP proxy,
    no smart cards, a control interface.  Messages for the log and the control
    interface have no effect here. *)
From S2P Require Import Prelude Bytes Wpabuf EapCommon.

(** ** The lower layer *)
Inductive eapol_bool_var :=
| EAPOL_eapSuccess | EAPOL_eapRestart | EAPOL_eapFail | EAPOL_eapResp
| EAPOL_eapNoResp | EAPOL_eapReq | EAPOL_portEnabled | EAPOL_altAccept
| EAPOL_altReject | EAPOL_eapTriggerStart.

#[export] Instance eapol_bool_var_eq_dec : EqDecision eapol_bool_var.
Proof. solve_decision. Defined.

(** The fields of struct eap_peer_config that the state machine uses.
    [cfg_addr] is the address of the structure. *)
Record eap_peer_config := mk_config {
  cfg_addr : Z;
  eap_methods : option (list (Z * Z));
  identity : option (list Z);
  anonymous_identity : option (list Z);
  machine_identity : option (list Z);
  pcsc : bool;
  phase1 : option (list Z);
  pending_req_identity : Z;
  pending_req_pin : Z;
  pending_req_passphrase : Z;
}.
#[export] Instance eta_config : Eta eap_peer_config := λ c,
  mk_config (cfg_addr c) (eap_methods c) (identity c) (anonymous_identity c)
    (machine_identity c) (pcsc c) (phase1 c) (pending_req_identity c)
    (pending_req_pin c) (pending_req_passphrase c).

(** The status strings of [eap_notify_status]. *)
Inductive eap_status :=
| RefuseProposedMethod | AcceptProposedMethod | Started
| CompletionSuccess | CompletionFailure.

Class EapolCallbacks (S : Type) := {
  get_bool : S → eapol_bool_var → bool;
  set_bool : eapol_bool_var → bool → S → S;
  get_idleWhile : S → Z;
  set_idleWhile : Z → S → S;
  get_eapReqData : S → option wpabuf;
  get_config : S → option eap_peer_config;
  (** a write through the pointer that [get_config] returns *)
  put_config : eap_peer_config → S → S;
  notify_status : eap_status → S → S;
  notify_eap_error : Z → S → S;
  eap_param_needed : S → S;
}.

(** What the state machine relies on: the variables are independent cells, and
    the notifications leave them alone. *)
Class EapolCallbacksSpec (S : Type) `{EapolCallbacks S} := {
  get_set_bool s v v' b :
    get_bool (set_bool v b s) v' = if bool_decide (v = v') then b else get_bool s v';
  get_bool_idle s n v : get_bool (set_idleWhile n s) v = get_bool s v;
  get_bool_config s c v : get_bool (put_config c s) v = get_bool s v;
  get_bool_status s t v : get_bool (notify_status t s) v = get_bool s v;
  get_bool_error s t v : get_bool (notify_eap_error t s) v = get_bool s v;
  get_bool_param s v : get_bool (eap_param_needed s) v = get_bool s v;
  req_set_bool s v b : get_eapReqData (set_bool v b s) = get_eapReqData s;
  req_idle s n : get_eapReqData (set_idleWhile n s) = get_eapReqData s;
  req_config s c : get_eapReqData (put_config c s) = get_eapReqData s;
  req_status s t : get_eapReqData (notify_status t s) = get_eapReqData s;
  req_error s t : get_eapReqData (notify_eap_error t s) = get_eapReqData s;
  req_param s : get_eapReqData (eap_param_needed s) = get_eapReqData s;
  config_set_bool s v b : get_config (set_bool v b s) = get_config s;
  config_idle s n : get_config (set_idleWhile n s) = get_config s;
  config_put s c : get_config (put_config c s) = (λ _, c) <$> get_config s;
  config_status s t : get_config (notify_status t s) = get_config s;
  config_error s t : get_config (notify_eap_error t s) = get_config s;
  config_param s : get_config (eap_param_needed s) = get_config s;
}.

(** ** Methods *)
Inductive EapDecision := DECISION_FAIL | DECISION_COND_SUCC | DECISION_UNCOND_SUCC.
Inductive EapMethodState :=
| METHOD_NONE | METHOD_INIT | METHOD_CONT | METHOD_MAY_CONT | METHOD_DONE.

#[export] Instance EapDecision_eq_dec : EqDecision EapDecision.
Proof. solve_decision. Defined.
#[export] Instance EapMethodState_eq_dec : EqDecision EapMethodState.
Proof. solve_decision. Defined.

Record eap_method_ret := mk_ret {
  ret_ignore : bool;
  ret_methodState : EapMethodState;
  ret_decision : EapDecision;
  ret_allowNotifications : bool;
}.

(** The fields of struct eap_sm that methods write directly. *)
Record method_vars := mk_vars {
  ClientTimeout : Z;
  leap_done : bool;
  peap_done : bool;
  ext_cert_check : bool;
  waiting_ext_cert_check : bool;
  use_machine_cred : bool;
  expected_failure : bool;
}.
#[export] Instance eta_vars : Eta method_vars := λ v,
  mk_vars (ClientTimeout v) (leap_done v) (peap_done v) (ext_cert_check v)
    (waiting_ext_cert_check v) (use_machine_cred v) (expected_failure v).

(** struct eap_method; an optional handler is an [option]. *)
Record eap_method (P : Type) := mk_method {
  vendor : Z;
  method : Z;
  init : method_vars → method_vars * option P;
  deinit : method_vars → P → method_vars;
  process : method_vars → P → eap_method_ret → wpabuf →
            method_vars * P * eap_method_ret * option wpabuf;
  isKeyAvailable : option (P → bool);
  getKey : option (P → option (list Z));
  has_reauth_data : option (P → bool);
  deinit_for_reauth : P → P;
  init_for_reauth : method_vars → P → method_vars * option P;
  get_identity : option (P → option (list Z));
  get_error_code : option (P → Z);
  getSessionId : option (P → option (list Z));
}.
Arguments vendor {P}. Arguments method {P}. Arguments init {P}. Arguments deinit {P}.
Arguments process {P}. Arguments isKeyAvailable {P}. Arguments getKey {P}.
Arguments has_reauth_data {P}. Arguments deinit_for_reauth {P}.
Arguments init_for_reauth {P}. Arguments get_identity {P}.
Arguments get_error_code {P}. Arguments getSessionId {P}.

(** ** The state machine *)
Inductive eap_state :=
| EAP_INITIALIZE | EAP_DISABLED | EAP_IDLE | EAP_RECEIVED | EAP_GET_METHOD
| EAP_METHOD | EAP_SEND_RESPONSE | EAP_DISCARD | EAP_IDENTITY
| EAP_NOTIFICATION | EAP_RETRANSMIT | EAP_SUCCESS | EAP_FAILURE.
#[export] Instance eap_state_eq_dec : EqDecision eap_state.
Proof. solve_decision. Defined.

(** struct eap_sm.  The key and the session id carry their length;
    [n_alloc] counts the allocations made, to index the allocator's answers. *)
Record eap_sm (S P : Type) := mk_eap {
  EAP_state : eap_state;
  selectedMethod : Z;
  methodState : EapMethodState;
  lastId : Z;
  lastRespData : option wpabuf;
  decision : EapDecision;
  rxReq : bool; rxSuccess : bool; rxFailure : bool;
  reqId : Z; reqMethod : Z; reqVendor : Z; reqVendorMethod : Z;
  ignore : bool;
  mv : method_vars;
  allowNotifications : bool;
  eapRespData : option wpabuf;
  eapKeyAvailable : bool;
  eapKeyData : option (list Z);
  eapSessionId : option (list Z);
  m : option (eap_method P);
  changed : bool;
  eapol_ctx : S;
  eap_method_priv : option P;
  fast_reauth : bool;
  reauthInit : bool;
  rxResp : bool;
  req_sha1 : list Z; last_sha1 : list Z;
  workaround : bool;
  num_rounds : Z; num_rounds_short : Z;
  force_disabled : bool;
  prev_failure : bool;
  last_config : option Z;
  n_alloc : nat;
}.
Arguments EAP_state {S P}. Arguments selectedMethod {S P}. Arguments methodState {S P}.
Arguments lastId {S P}. Arguments lastRespData {S P}. Arguments decision {S P}.
Arguments rxReq {S P}. Arguments rxSuccess {S P}. Arguments rxFailure {S P}.
Arguments reqId {S P}. Arguments reqMethod {S P}. Arguments reqVendor {S P}.
Arguments reqVendorMethod {S P}. Arguments ignore {S P}. Arguments mv {S P}.
Arguments allowNotifications {S P}. Arguments eapRespData {S P}.
Arguments eapKeyAvailable {S P}. Arguments eapKeyData {S P}. Arguments eapSessionId {S P}.
Arguments m {S P}. Arguments changed {S P}. Arguments eapol_ctx {S P}.
Arguments eap_method_priv {S P}. Arguments fast_reauth {S P}. Arguments reauthInit {S P}.
Arguments rxResp {S P}. Arguments req_sha1 {S P}. Arguments last_sha1 {S P}.
Arguments workaround {S P}. Arguments num_rounds {S P}. Arguments num_rounds_short {S P}.
Arguments force_disabled {S P}. Arguments prev_failure {S P}. Arguments last_config {S P}.
Arguments n_alloc {S P}.

#[export] Instance eta_eap_sm S P : Eta (eap_sm S P) := λ s,
  mk_eap S P (EAP_state s) (selectedMethod s) (methodState s) (lastId s) (lastRespData s)
    (decision s) (rxReq s) (rxSuccess s) (rxFailure s) (reqId s) (reqMethod s)
    (reqVendor s) (reqVendorMethod s) (ignore s) (mv s) (allowNotifications s)
    (eapRespData s) (eapKeyAvailable s) (eapKeyData s) (eapSessionId s) (m s)
    (changed s) (eapol_ctx s) (eap_method_priv s) (fast_reauth s) (reauthInit s)
    (rxResp s) (req_sha1 s) (last_sha1 s) (workaround s) (num_rounds s)
    (num_rounds_short s) (force_disabled s) (prev_failure s) (last_config s) (n_alloc s).

Definition EAP_MAX_AUTH_ROUNDS := 100.
Definition EAP_MAX_AUTH_ROUNDS_SHORT := 50.
Definition EAP_CLIENT_TIMEOUT_DEFAULT := 60.
Definition NO_EAP_METHOD_ERROR := -1.

(** [os_strstr(haystack, needle) != NULL]. *)
Fixpoint is_prefix (p l : list Z) : bool :=
  match p, l with
  | [], _ => true
  | x :: p, y :: l => bool_decide (x = y) && is_prefix p l
  | _, [] => false
  end.
Fixpoint os_strstr (haystack needle : list Z) : bool :=
  is_prefix needle haystack ||
  match haystack with [] => false | _ :: h => os_strstr h needle end.

(** "allow_canned_success=1" *)
Definition allow_canned_success_1 : list Z :=
  [97; 108; 108; 111; 119; 95; 99; 97; 110; 110; 101; 100; 95;
   115; 117; 99; 99; 101; 115; 115; 61; 49].

Section eap_peer.
Context {S P : Type} `{EapolCallbacks S}.
(** the methods registered in eap_methods.c, in list order *)
Variable methods : list (eap_method P).
(** [sha1_vector] of one element *)
Variable sha1 : list Z → list Z.
(** whether the allocator grants its n-th request *)
Variable alloc_ok : nat → bool.

Implicit Types sm : eap_sm S P.

Definition eapol_get_bool sm (v : eapol_bool_var) : bool := get_bool (eapol_ctx sm) v.
Definition eapol_set_bool sm (v : eapol_bool_var) (b : bool) : eap_sm S P :=
  sm <| eapol_ctx ::= set_bool v b |>.
Definition eapol_set_idleWhile sm (n : Z) : eap_sm S P :=
  sm <| eapol_ctx ::= set_idleWhile n |>.
Definition eap_notify_status sm (t : eap_status) : eap_sm S P :=
  sm <| eapol_ctx ::= notify_status t |>.
Definition eap_report_error sm (c : Z) : eap_sm S P :=
  sm <| eapol_ctx ::= notify_eap_error c |>.
Definition eap_get_config sm : option eap_peer_config := get_config (eapol_ctx sm).
Definition malloc sm : bool * eap_sm S P :=
  (alloc_ok (n_alloc sm), sm <| n_alloc ::= Datatypes.S |>).

Definition eap_sm_free_key sm : eap_sm S P := sm <| eapKeyData := None |>.

Definition eap_deinit_prev_method sm : eap_sm S P :=
  match m sm, eap_method_priv sm with
  | Some me, Some p =>
      sm <| mv ::= λ v, deinit me v p |> <| eap_method_priv := None |> <| m := None |>
  | _, _ => sm
  end.

(** [config->eap_methods] ends at the entry (EAP_VENDOR_IETF, EAP_TYPE_NONE). *)
Fixpoint method_listed (l : list (Z * Z)) (vendor method : Z) : bool :=
  match l with
  | [] => false
  | (v, t) :: l =>
      if bool_decide (v = EAP_VENDOR_IETF ∧ t = EAP_TYPE_NONE) then false
      else bool_decide (v = vendor ∧ t = method) || method_listed l vendor method
  end.

Definition eap_config_allowed_method (config : option eap_peer_config) (vendor method : Z) :
    bool :=
  match config with
  | Some c =>
      match eap_methods c with Some l => method_listed l vendor method | None => true end
  | None => true
  end.

Definition eap_allowed_method sm (vendor method : Z) : bool :=
  eap_config_allowed_method (eap_get_config sm) vendor method.

Definition eap_peer_get_eap_method (v t : Z) : option (eap_method P) :=
  List.find (λ me, bool_decide (vendor me = v ∧ method me = t)) methods.

Definition eap_sm_allowMethod sm (vendor method : Z) : bool :=
  eap_allowed_method sm vendor method &&
  match eap_peer_get_eap_method vendor method with Some _ => true | None => false end.

(** SM_ENTRY *)
Definition SM_ENTRY sm (global : bool) (st : eap_state) : eap_sm S P :=
  let sm := if negb global || bool_decide (EAP_state sm ≠ st)
            then sm <| changed := true |> else sm in
  sm <| EAP_state := st |>.

Definition has_reauth sm : bool :=
  match m sm with
  | Some me =>
      match has_reauth_data me, eap_method_priv sm with
      | Some f, Some p => f p
      | _, _ => false
      end
  | None => false
  end.

Definition sm_EAP_INITIALIZE_Enter sm (global : bool) : eap_sm S P :=
  let sm := SM_ENTRY sm global EAP_INITIALIZE in
  let sm :=
    if fast_reauth sm && has_reauth sm && negb (prev_failure sm) &&
       bool_decide (last_config sm = (cfg_addr <$> eap_get_config sm))
    then
      match m sm, eap_method_priv sm with
      | Some me, Some p => sm <| eap_method_priv := Some (deinit_for_reauth me p) |>
      | _, _ => sm
      end
    else
      let sm := sm <| last_config := cfg_addr <$> eap_get_config sm |> in
      eap_deinit_prev_method sm in
  let sm := sm <| selectedMethod := EAP_TYPE_NONE |> <| methodState := METHOD_NONE |>
               <| allowNotifications := true |> <| decision := DECISION_FAIL |>
               <| mv ::= λ v, v <| ClientTimeout := EAP_CLIENT_TIMEOUT_DEFAULT |> |> in
  let sm := eapol_set_idleWhile sm (ClientTimeout (mv sm)) in
  let sm := eapol_set_bool sm EAPOL_eapSuccess false in
  let sm := eapol_set_bool sm EAPOL_eapFail false in
  let sm := eap_sm_free_key sm in
  let sm := sm <| eapSessionId := None |> <| eapKeyAvailable := false |> in
  let sm := eapol_set_bool sm EAPOL_eapRestart false in
  let sm := sm <| lastId := -1 |> in
  let sm := eapol_set_bool sm EAPOL_eapResp false in
  let sm := eapol_set_bool sm EAPOL_eapNoResp false in
  sm <| ignore := false |> <| num_rounds := 0 |> <| num_rounds_short := 0 |>
     <| prev_failure := false |>
     <| mv ::= λ v, v <| expected_failure := false |> <| use_machine_cred := false |> |>
     <| reauthInit := false |>.

Definition sm_EAP_DISABLED_Enter sm (global : bool) : eap_sm S P :=
  let sm := SM_ENTRY sm global EAP_DISABLED in
  let sm := sm <| num_rounds := 0 |> <| num_rounds_short := 0 |> in
  eapol_set_idleWhile sm 0.

Definition sm_EAP_IDLE_Enter sm (global : bool) : eap_sm S P := SM_ENTRY sm global EAP_IDLE.

(** [eap_sm_parseEapReq]; EAP-Finish has no effect without ERP, and
    EAP-Initiate only asks the lower layer for an EAPOL-Start. *)
Definition eap_sm_parseEapReq sm (req : option wpabuf) : outcome (eap_sm S P) :=
  let sm := sm <| rxReq := false |> <| rxResp := false |> <| rxSuccess := false |>
               <| rxFailure := false |> <| reqId := 0 |> <| reqMethod := EAP_TYPE_NONE |>
               <| reqVendor := EAP_VENDOR_IETF |> <| reqVendorMethod := EAP_TYPE_NONE |> in
  match req with
  | None => Ret sm
  | Some req =>
      if bool_decide (used req < sizeof_eap_hdr) then Ret sm
      else
        plen ← access (WPA_GET_BE16 (mem req) 2);
        if bool_decide (used req < plen) then Ret sm
        else
          id ← access (rd (mem req) 1);
          let sm := sm <| reqId := id |> in
          sm ← (if workaround sm then
                  d ← access (slice (mem req) 0 plen);
                  Ret (sm <| req_sha1 := sha1 d |>)
                else Ret sm);
          code ← access (rd (mem req) 0);
          if bool_decide (code = EAP_CODE_REQUEST) then
            if bool_decide (plen < sizeof_eap_hdr + 1) then Ret sm
            else
              let sm := sm <| rxReq := true |> in
              ty ← access (rd (mem req) 4);
              let sm := sm <| reqMethod := ty |> in
              if bool_decide (ty = EAP_TYPE_EXPANDED) then
                if bool_decide (plen < sizeof_eap_hdr + 8) then Ret sm
                else
                  v ← access (WPA_GET_BE24 (mem req) 5);
                  vm ← access (WPA_GET_BE32 (mem req) 8);
                  Ret (sm <| reqVendor := v |> <| reqVendorMethod := vm |>)
              else Ret sm
          else if bool_decide (code = EAP_CODE_RESPONSE) then
            if bool_decide (selectedMethod sm = EAP_TYPE_LEAP) then
              if bool_decide (plen < sizeof_eap_hdr + 1) then Ret sm
              else
                let sm := sm <| rxResp := true |> in
                ty ← access (rd (mem req) 4);
                Ret (sm <| reqMethod := ty |>)
            else Ret sm
          else if bool_decide (code = EAP_CODE_SUCCESS) then
            Ret ((eap_notify_status sm CompletionSuccess) <| rxSuccess := true |>)
          else if bool_decide (code = EAP_CODE_FAILURE) then
            let sm := eap_notify_status sm CompletionFailure in
            let sm :=
              match m sm with
              | Some me =>
                  match get_error_code me, eap_method_priv sm with
                  | Some f, Some p =>
                      if bool_decide (f p ≠ NO_EAP_METHOD_ERROR)
                      then eap_report_error sm (f p) else sm
                  | _, _ => sm
                  end
              | None => sm
              end in
            Ret (sm <| rxFailure := true |>)
          else if bool_decide (code = EAP_CODE_INITIATE) then
            Ret (eapol_set_bool sm EAPOL_eapTriggerStart true)
          else Ret sm
  end.

Definition sm_EAP_RECEIVED_Enter sm (global : bool) : outcome (eap_sm S P) :=
  let sm := SM_ENTRY sm global EAP_RECEIVED in
  let req := get_eapReqData (eapol_ctx sm) in
  sm ← eap_sm_parseEapReq sm req;
  let sm := sm <| num_rounds ::= Z.succ |> in
  Ret (match req with
       | Some b => if bool_decide (used b < 20) then sm <| num_rounds_short ::= Z.succ |>
                   else sm <| num_rounds_short := 0 |>
       | None => sm <| num_rounds_short ::= Z.succ |>
       end).

(** The loop of [eap_sm_build_expanded_nak]; the flag is [found > 0]. *)
Fixpoint expanded_nak_loop sm (ms : list (eap_method P)) (resp : wpabuf) (found : bool) :
    outcome (wpabuf * bool) :=
  match ms with
  | [] => Ret (resp, found)
  | me :: ms =>
      if bool_decide (reqVendor sm = vendor me ∧ reqVendorMethod sm = method me)
      then expanded_nak_loop sm ms resp found
      else if eap_allowed_method sm (vendor me) (method me) then
        resp ← wpabuf_put_u8 resp EAP_TYPE_EXPANDED;
        resp ← wpabuf_put_be24 resp (vendor me);
        resp ← wpabuf_put_be32 resp (method me);
        expanded_nak_loop sm ms resp true
      else expanded_nak_loop sm ms resp found
  end.

Definition eap_sm_build_expanded_nak sm (id : Z) (ok : bool) : outcome (option wpabuf) :=
  resp ← eap_msg_alloc ok EAP_VENDOR_IETF EAP_TYPE_EXPANDED
           (8 + 8 * (blen methods + 1)) EAP_CODE_RESPONSE id;
  match resp with
  | None => Ret None
  | Some resp =>
      resp ← wpabuf_put_be24 resp EAP_VENDOR_IETF;
      resp ← wpabuf_put_be32 resp EAP_TYPE_NAK;
      '(resp, found) ← expanded_nak_loop sm methods resp false;
      resp ← (if found : bool then Ret resp
              else
                resp ← wpabuf_put_u8 resp EAP_TYPE_EXPANDED;
                resp ← wpabuf_put_be24 resp EAP_VENDOR_IETF;
                wpabuf_put_be32 resp EAP_TYPE_NONE);
      resp ← access (eap_update_len resp);
      Ret (Some resp)
  end.

(** The loop of [eap_sm_buildNak]. *)
Fixpoint nak_loop sm (ms : list (eap_method P)) (resp : wpabuf) (found expanded_found : bool) :
    outcome (wpabuf * bool) :=
  match ms with
  | [] => Ret (resp, found)
  | me :: ms =>
      if bool_decide (vendor me = EAP_VENDOR_IETF ∧ method me = reqMethod sm)
      then nak_loop sm ms resp found expanded_found
      else if eap_allowed_method sm (vendor me) (method me) then
        if bool_decide (vendor me ≠ EAP_VENDOR_IETF) then
          if expanded_found then nak_loop sm ms resp found expanded_found
          else
            resp ← wpabuf_put_u8 resp EAP_TYPE_EXPANDED;
            nak_loop sm ms resp true true
        else
          resp ← wpabuf_put_u8 resp (u8 (method me));
          nak_loop sm ms resp true expanded_found
      else nak_loop sm ms resp found expanded_found
  end.

Definition eap_sm_buildNak sm (id : Z) (ok : bool) : outcome (option wpabuf) :=
  if bool_decide (methods = []) then Ret None
  else if bool_decide (reqMethod sm = EAP_TYPE_EXPANDED)
  then eap_sm_build_expanded_nak sm id ok
  else
    resp ← eap_msg_alloc ok EAP_VENDOR_IETF EAP_TYPE_NAK
             (sizeof_eap_hdr + 1 + blen methods + 1) EAP_CODE_RESPONSE id;
    match resp with
    | None => Ret None
    | Some resp =>
        '(resp, found) ← nak_loop sm methods resp false false;
        resp ← (if found : bool then Ret resp else wpabuf_put_u8 resp EAP_TYPE_NONE);
        resp ← access (eap_update_len resp);
        Ret (Some resp)
    end.

(** The label [nak] of GET_METHOD. *)
Definition get_method_nak sm : outcome (eap_sm S P) :=
  let sm := sm <| eapRespData := None |> in
  let (ok, sm) := malloc sm in
  resp ← eap_sm_buildNak sm (reqId sm) ok;
  Ret (sm <| eapRespData := resp |>).

(** GET_METHOD after the method was initialized. *)
Definition get_method_init_done sm : outcome (eap_sm S P) :=
  match eap_method_priv sm with
  | None =>
      let config := eap_get_config sm in
      let sm := sm <| m := None |> <| methodState := METHOD_NONE |>
                   <| selectedMethod := EAP_TYPE_NONE |> in
      if bool_decide (reqMethod sm = EAP_TYPE_TLS) &&
         match config with
         | Some c => bool_decide (pending_req_pin c ≠ 0) ||
                     bool_decide (pending_req_passphrase c ≠ 0)
         | None => false
         end
      then Ret sm
      else get_method_nak sm
  | Some _ => Ret (sm <| methodState := METHOD_INIT |>)
  end.

Definition sm_EAP_GET_METHOD_Enter sm (global : bool) : outcome (eap_sm S P) :=
  let sm := SM_ENTRY sm global EAP_GET_METHOD in
  let mthd := if bool_decide (reqMethod sm = EAP_TYPE_EXPANDED) then reqVendorMethod sm
              else reqMethod sm in
  let found := eap_peer_get_eap_method (reqVendor sm) mthd in
  if negb (eap_sm_allowMethod sm (reqVendor sm) mthd) then
    get_method_nak (eap_notify_status sm RefuseProposedMethod)
  else
    let sm := eap_notify_status sm AcceptProposedMethod in
    let reinit :=
      match m sm with
      | Some me => fast_reauth sm && bool_decide (vendor me = reqVendor sm) &&
                   bool_decide (method me = mthd) && has_reauth sm
      | None => false
      end in
    let sm := if reinit : bool then sm else eap_deinit_prev_method sm in
    let sm := sm <| selectedMethod := reqMethod sm |> in
    let sm := match m sm with None => sm <| m := found |> | Some _ => sm end in
    match m sm with
    | None => get_method_nak sm
    | Some me =>
        let sm := sm <| mv ::= λ v, v <| ClientTimeout := EAP_CLIENT_TIMEOUT_DEFAULT |> |> in
        let sm :=
          match reinit, eap_method_priv sm with
          | true, Some p =>
              let (v, p') := init_for_reauth me (mv sm) p in
              sm <| mv := v |> <| eap_method_priv := p' |>
          | true, None => sm
          | false, _ =>
              let v := (mv sm) <| waiting_ext_cert_check := false |>
                               <| ext_cert_check := false |> in
              let (v, p') := init me v in
              sm <| mv := v |> <| eap_method_priv := p' |>
          end in
        get_method_init_done sm
    end.

Definition sm_EAP_METHOD_Enter sm (global : bool) : outcome (eap_sm S P) :=
  let sm := SM_ENTRY sm global EAP_METHOD in
  match m sm with
  | None => Ret sm
  | Some me =>
      let req := get_eapReqData (eapol_ctx sm) in
      let min_len := if bool_decide (vendor me = EAP_VENDOR_IETF ∧ method me = EAP_TYPE_LEAP)
                     then 0 else 1 in
      valid ← access (eap_hdr_len_valid req min_len);
      match req, valid, eap_method_priv sm with
      | Some b, true, Some p =>
          let ret := mk_ret (ignore sm) (methodState sm) (decision sm)
                            (allowNotifications sm) in
          let '(v, p, ret, resp) := process me (mv sm) p ret b in
          let sm := sm <| mv := v |> <| eap_method_priv := Some p |>
                       <| eapRespData := resp |> <| ignore := ret_ignore ret |> in
          if ignore sm then Ret sm
          else
            let sm := sm <| methodState := ret_methodState ret |>
                         <| decision := ret_decision ret |>
                         <| allowNotifications := ret_allowNotifications ret |> in
            match isKeyAvailable me, getKey me with
            | Some avail, Some get =>
                if avail p then
                  let sm := (eap_sm_free_key sm) <| eapKeyData := get p |> in
                  Ret (sm <| eapSessionId :=
                               match getSessionId me with
                               | Some f => f p
                               | None => None
                               end |>)
                else Ret sm
            | _, _ => Ret sm
            end
      | Some _, true, None => Undef
      | _, _, _ => Ret sm
      end
  end.

(** What SEND_RESPONSE remembers of the request it answers. *)
Definition send_response_note sm (resp : wpabuf) : eap_sm S P :=
  let sm := if bool_decide (20 ≤ used resp) then sm <| num_rounds_short := 0 |> else sm in
  let sm := if workaround sm then sm <| last_sha1 := req_sha1 sm |> else sm in
  sm <| lastId := reqId sm |>.

Definition sm_EAP_SEND_RESPONSE_Enter sm (global : bool) : outcome (eap_sm S P) :=
  let sm := SM_ENTRY sm global EAP_SEND_RESPONSE in
  sm ← match eapRespData sm with
       | Some resp =>
           let sm := send_response_note sm resp in
           let (ok, sm) := malloc sm in
           dup ← wpabuf_dup ok resp;
           let sm := sm <| lastRespData := dup |> in
           Ret (eapol_set_bool sm EAPOL_eapResp true)
       | None => Ret (sm <| lastRespData := None |>)
       end;
  let sm := eapol_set_bool sm EAPOL_eapReq false in
  let sm := eapol_set_idleWhile sm (ClientTimeout (mv sm)) in
  Ret (sm <| reauthInit := false |>).

Definition sm_EAP_DISCARD_Enter sm (global : bool) : eap_sm S P :=
  let sm := SM_ENTRY sm global EAP_DISCARD in
  let sm := eapol_set_bool sm EAPOL_eapReq false in
  eapol_set_bool sm EAPOL_eapNoResp true.

(** Only a status notification: the displayable message is just logged. *)
Definition eap_sm_processIdentity sm (req : option wpabuf) : outcome (eap_sm S P) :=
  let sm := eap_notify_status sm Started in
  _ ← access (eap_hdr_validate EAP_VENDOR_IETF EAP_TYPE_IDENTITY req);
  Ret sm.

Definition eap_sm_request_identity sm : eap_sm S P :=
  match eap_get_config sm with
  | None => sm
  | Some c =>
      let sm := sm <| eapol_ctx ::= put_config (c <| pending_req_identity ::= Z.succ |>) |> in
      sm <| eapol_ctx ::= eap_param_needed |>
  end.

Definition eap_sm_buildIdentity sm (id : Z) (encrypted : bool) :
    outcome (option wpabuf * eap_sm S P) :=
  match eap_get_config sm with
  | None => Ret (None, sm)
  | Some config =>
      let from_method :=
        match m sm, eap_method_priv sm with
        | Some me, Some p => match get_identity me with Some f => f p | None => None end
        | _, _ => None
        end in
      let id_data :=
        match from_method with
        | Some i => Some i
        | None =>
            if negb encrypted && bool_decide (is_Some (anonymous_identity config))
            then anonymous_identity config
            else if use_machine_cred (mv sm) then machine_identity config
            else identity config
        end in
      if pcsc config then Ret (None, sm)
      else
        match id_data with
        | None => Ret (None, eap_sm_request_identity sm)
        | Some i =>
            let (ok, sm) := malloc sm in
            resp ← eap_msg_alloc ok EAP_VENDOR_IETF EAP_TYPE_IDENTITY (blen i)
                     EAP_CODE_RESPONSE id;
            match resp with
            | None => Ret (None, sm)
            | Some resp => resp ← wpabuf_put_data resp (Some i) (blen i); Ret (Some resp, sm)
            end
        end
  end.

Definition sm_EAP_IDENTITY_Enter sm (global : bool) : outcome (eap_sm S P) :=
  let sm := SM_ENTRY sm global EAP_IDENTITY in
  let req := get_eapReqData (eapol_ctx sm) in
  valid ← access (eap_hdr_len_valid req 1);
  if negb valid then Ret sm
  else
    sm ← eap_sm_processIdentity sm req;
    let sm := sm <| eapRespData := None |> in
    '(resp, sm) ← eap_sm_buildIdentity sm (reqId sm) false;
    Ret (sm <| eapRespData := resp |>).

(** The notification text is copied with unprintable octets replaced, then sent
    to the control interface; only its validation matters here. *)
Definition eap_sm_processNotify sm (req : option wpabuf) : outcome (eap_sm S P) :=
  r ← access (eap_hdr_validate EAP_VENDOR_IETF EAP_TYPE_NOTIFICATION req);
  match r, req with
  | Some (off, n), Some b =>
      let (ok, sm) := malloc sm in
      if ok : bool then _ ← access (slice (mem b) off n); Ret sm else Ret sm
  | _, _ => Ret sm
  end.

Definition eap_sm_buildNotify (ok : bool) (id : Z) : outcome (option wpabuf) :=
  eap_msg_alloc ok EAP_VENDOR_IETF EAP_TYPE_NOTIFICATION 0 EAP_CODE_RESPONSE id.

Definition sm_EAP_NOTIFICATION_Enter sm (global : bool) : outcome (eap_sm S P) :=
  let sm := SM_ENTRY sm global EAP_NOTIFICATION in
  let req := get_eapReqData (eapol_ctx sm) in
  valid ← access (eap_hdr_len_valid req 1);
  if negb valid then Ret sm
  else
    sm ← eap_sm_processNotify sm req;
    let sm := sm <| eapRespData := None |> in
    let (ok, sm) := malloc sm in
    resp ← eap_sm_buildNotify ok (reqId sm);
    Ret (sm <| eapRespData := resp |>).

Definition sm_EAP_RETRANSMIT_Enter sm (global : bool) : outcome (eap_sm S P) :=
  let sm := SM_ENTRY sm global EAP_RETRANSMIT in
  match lastRespData sm with
  | Some r =>
      let (ok, sm) := malloc sm in
      dup ← wpabuf_dup ok r;
      Ret (sm <| eapRespData := dup |>)
  | None => Ret (sm <| eapRespData := None |>)
  end.

Definition sm_EAP_SUCCESS_Enter sm (global : bool) : eap_sm S P :=
  let sm := SM_ENTRY sm global EAP_SUCCESS in
  let sm := match eapKeyData sm with
            | Some _ => sm <| eapKeyAvailable := true |>
            | None => sm
            end in
  let sm := eapol_set_bool sm EAPOL_eapSuccess true in
  let sm := eapol_set_bool sm EAPOL_eapReq false in
  eapol_set_bool sm EAPOL_eapNoResp true.

Definition sm_EAP_FAILURE_Enter sm (global : bool) : eap_sm S P :=
  let sm := SM_ENTRY sm global EAP_FAILURE in
  let sm := eapol_set_bool sm EAPOL_eapFail true in
  let sm := eapol_set_bool sm EAPOL_eapReq false in
  let sm := eapol_set_bool sm EAPOL_eapNoResp true in
  sm <| prev_failure := true |>.

Definition eap_success_workaround sm (req last : Z) : bool :=
  workaround sm && (bool_decide (req = Z.land (last + 1) 0xff) ||
                    bool_decide (req = Z.land (last + 2) 0xff)).

Definition eap_peer_sm_step_idle sm : outcome (eap_sm S P) :=
  let idle := bool_decide (get_idleWhile (eapol_ctx sm) = 0) in
  if eapol_get_bool sm EAPOL_eapReq then sm_EAP_RECEIVED_Enter sm false
  else if (eapol_get_bool sm EAPOL_altAccept && bool_decide (decision sm ≠ DECISION_FAIL)) ||
          (idle && bool_decide (decision sm = DECISION_UNCOND_SUCC))
  then Ret (sm_EAP_SUCCESS_Enter sm false)
  else if eapol_get_bool sm EAPOL_altReject ||
          (idle && bool_decide (decision sm ≠ DECISION_UNCOND_SUCC)) ||
          (eapol_get_bool sm EAPOL_altAccept && bool_decide (methodState sm ≠ METHOD_CONT) &&
           bool_decide (decision sm = DECISION_FAIL))
  then Ret (sm_EAP_FAILURE_Enter sm false)
  else if bool_decide (selectedMethod sm = EAP_TYPE_LEAP) && leap_done (mv sm) &&
          bool_decide (decision sm ≠ DECISION_FAIL) &&
          bool_decide (methodState sm = METHOD_DONE)
  then Ret (sm_EAP_SUCCESS_Enter sm false)
  else if bool_decide (selectedMethod sm = EAP_TYPE_PEAP) && peap_done (mv sm) &&
          bool_decide (decision sm ≠ DECISION_FAIL) &&
          bool_decide (methodState sm = METHOD_DONE)
  then Ret (sm_EAP_SUCCESS_Enter sm false)
  else Ret sm.

Definition eap_peer_req_is_duplicate sm : bool :=
  let duplicate := bool_decide (reqId sm = lastId sm) && rxReq sm in
  if workaround sm && duplicate && bool_decide (req_sha1 sm ≠ last_sha1 sm)
  then false else duplicate.

Definition eap_peer_sm_allow_canned sm : bool :=
  match eap_get_config sm with
  | Some c => match phase1 c with
              | Some p => os_strstr p allow_canned_success_1
              | None => false
              end
  | None => false
  end.


Definition eap_peer_sm_step_received sm : outcome (eap_sm S P) :=
  let duplicate := eap_peer_req_is_duplicate sm in
  let same := bool_decide (reqId sm = lastId sm) ||
              eap_success_workaround sm (reqId sm) (lastId sm) in
  let first := bool_decide (lastId sm = -1) in
  let cont := bool_decide (methodState sm = METHOD_CONT) in
  let idle := bool_decide (selectedMethod sm = EAP_TYPE_NONE) in
  if rxSuccess sm && bool_decide (decision sm ≠ DECISION_FAIL) && same
  then Ret (sm_EAP_SUCCESS_Enter sm false)
  else if workaround sm && first && rxSuccess sm && negb (rxFailure sm) && negb (rxReq sm) &&
          eap_peer_sm_allow_canned sm
  then Ret (sm_EAP_SUCCESS_Enter sm false)
  else if workaround sm && first && rxFailure sm && negb (rxReq sm) && negb cont &&
          eap_peer_sm_allow_canned sm
  then Ret (sm_EAP_FAILURE_Enter sm false)
  else if workaround sm && rxSuccess sm && negb (rxFailure sm) && negb (rxReq sm) &&
          negb cont && eap_peer_sm_allow_canned sm
  then Ret (sm_EAP_SUCCESS_Enter sm false)
  else if negb cont &&
          ((rxFailure sm && bool_decide (decision sm ≠ DECISION_UNCOND_SUCC)) ||
           (rxSuccess sm && bool_decide (decision sm = DECISION_FAIL) &&
            (bool_decide (selectedMethod sm ≠ EAP_TYPE_LEAP) ||
             bool_decide (methodState sm ≠ METHOD_MAY_CONT)))) && same
  then Ret (sm_EAP_FAILURE_Enter sm false)
  else if rxReq sm && duplicate then sm_EAP_RETRANSMIT_Enter sm false
  else if rxReq sm && negb duplicate && bool_decide (reqMethod sm = EAP_TYPE_NOTIFICATION) &&
          allowNotifications sm
  then sm_EAP_NOTIFICATION_Enter sm false
  else if rxReq sm && negb duplicate && idle && bool_decide (reqMethod sm = EAP_TYPE_IDENTITY)
  then sm_EAP_IDENTITY_Enter sm false
  else if rxReq sm && negb duplicate && idle && bool_decide (reqMethod sm ≠ EAP_TYPE_IDENTITY) &&
          bool_decide (reqMethod sm ≠ EAP_TYPE_NOTIFICATION)
  then sm_EAP_GET_METHOD_Enter sm false
  else if rxReq sm && negb duplicate && bool_decide (reqMethod sm = selectedMethod sm) &&
          bool_decide (methodState sm ≠ METHOD_DONE)
  then sm_EAP_METHOD_Enter sm false
  else if bool_decide (selectedMethod sm = EAP_TYPE_LEAP) && (rxSuccess sm || rxResp sm)
  then sm_EAP_METHOD_Enter sm false
  else if reauthInit sm then sm_EAP_SEND_RESPONSE_Enter sm false
  else Ret (sm_EAP_DISCARD_Enter sm false).

Definition eap_peer_sm_step_local sm : outcome (eap_sm S P) :=
  match EAP_state sm with
  | EAP_INITIALIZE => Ret (sm_EAP_IDLE_Enter sm false)
  | EAP_DISABLED =>
      if eapol_get_bool sm EAPOL_portEnabled && negb (force_disabled sm)
      then Ret (sm_EAP_INITIALIZE_Enter sm false) else Ret sm
  | EAP_IDLE => eap_peer_sm_step_idle sm
  | EAP_RECEIVED => eap_peer_sm_step_received sm
  | EAP_GET_METHOD =>
      if bool_decide (selectedMethod sm = reqMethod sm) then sm_EAP_METHOD_Enter sm false
      else sm_EAP_SEND_RESPONSE_Enter sm false
  | EAP_METHOD =>
      if ignore sm then Ret (sm_EAP_DISCARD_Enter sm false)
      else if bool_decide (methodState sm = METHOD_DONE) &&
              bool_decide (decision sm = DECISION_FAIL) &&
              bool_decide (eapRespData sm = None)
      then Ret (sm_EAP_FAILURE_Enter sm false)
      else sm_EAP_SEND_RESPONSE_Enter sm false
  | EAP_SEND_RESPONSE => Ret (sm_EAP_IDLE_Enter sm false)
  | EAP_DISCARD => Ret (sm_EAP_IDLE_Enter sm false)
  | EAP_IDENTITY => sm_EAP_SEND_RESPONSE_Enter sm false
  | EAP_NOTIFICATION => sm_EAP_SEND_RESPONSE_Enter sm false
  | EAP_RETRANSMIT => sm_EAP_SEND_RESPONSE_Enter sm false
  | EAP_SUCCESS => Ret sm
  | EAP_FAILURE => Ret sm
  end.

(** SM_STEP(EAP) *)
Definition sm_EAP_Step sm : outcome (eap_sm S P) :=
  if eapol_get_bool sm EAPOL_eapRestart && eapol_get_bool sm EAPOL_portEnabled
  then Ret (sm_EAP_INITIALIZE_Enter sm true)
  else if negb (eapol_get_bool sm EAPOL_portEnabled) || force_disabled sm
  then Ret (sm_EAP_DISABLED_Enter sm true)
  else if bool_decide (EAP_MAX_AUTH_ROUNDS < num_rounds sm) then
    if bool_decide (num_rounds sm = EAP_MAX_AUTH_ROUNDS + 1)
    then Ret (sm_EAP_FAILURE_Enter (sm <| num_rounds ::= Z.succ |>) true)
    else Ret sm
  else if bool_decide (EAP_MAX_AUTH_ROUNDS_SHORT < num_rounds_short sm) then
    if bool_decide (num_rounds_short sm = EAP_MAX_AUTH_ROUNDS_SHORT + 1)
    then Ret (sm_EAP_FAILURE_Enter (sm <| num_rounds_short ::= Z.succ |>) true)
    else Ret sm
  else eap_peer_sm_step_local sm.

(** The do-while loop of [eap_peer_sm_step]; [None] when the fuel is spent. *)
Fixpoint eap_peer_sm_loop (fuel : nat) (res : bool) sm :
    option (outcome (bool * eap_sm S P)) :=
  match fuel with
  | O => None
  | Datatypes.S fuel =>
      match sm_EAP_Step (sm <| changed := false |>) with
      | Ret sm =>
          if changed sm then eap_peer_sm_loop fuel true sm else Some (Ret (res, sm))
      | Abort => Some Abort
      | Undef => Some Undef
      end
  end.

(** Sixteen rounds are enough from every state: [eap_peer_sm_step_stops]. *)
Definition eap_peer_sm_step sm : option (outcome (bool * eap_sm S P)) :=
  eap_peer_sm_loop 16 false sm.

Definition eap_sm_abort sm : eap_sm S P :=
  let sm := sm <| lastRespData := None |> <| eapRespData := None |> in
  let sm := (eap_sm_free_key sm) <| eapSessionId := None |> in
  eapol_set_bool sm EAPOL_eapSuccess false.

Definition eap_key_available sm : bool := eapKeyAvailable sm.

Definition eap_notify_success sm : eap_sm S P :=
  sm <| decision := DECISION_COND_SUCC |> <| EAP_state := EAP_SUCCESS |>.

Definition eap_notify_lower_layer_success sm : eap_sm S P :=
  if eapol_get_bool sm EAPOL_eapSuccess || bool_decide (decision sm = DECISION_FAIL) ||
     (bool_decide (methodState sm ≠ METHOD_MAY_CONT) &&
      bool_decide (methodState sm ≠ METHOD_DONE))
  then sm
  else
    let sm := match eapKeyData sm with
              | Some _ => sm <| eapKeyAvailable := true |>
              | None => sm
              end in
    eapol_set_bool sm EAPOL_eapSuccess true.

Definition eap_get_eapSessionId sm : option (list Z) := eapSessionId sm.
Definition eap_get_eapKeyData sm : option (list Z) := eapKeyData sm.

Definition eap_get_eapRespData sm : option wpabuf * eap_sm S P :=
  match eapRespData sm with
  | None => (None, sm)
  | Some resp => (Some resp, sm <| eapRespData := None |>)
  end.

Definition eap_set_fast_reauth sm (enabled : bool) : eap_sm S P :=
  sm <| fast_reauth := enabled |>.
Definition eap_set_workaround sm (w : bool) : eap_sm S P := sm <| workaround := w |>.
Definition eap_set_force_disabled sm (d : bool) : eap_sm S P := sm <| force_disabled := d |>.
Definition eap_invalidate_cached_session sm : eap_sm S P := eap_deinit_prev_method sm.
Definition eap_peer_was_failure_expected sm : bool := expected_failure (mv sm).

(** The state [eap_peer_sm_init] returns when its allocation and the TLS
    context succeed: zero, but for the timeout. *)
Definition eap_peer_sm_init (ctx : S) (n : nat) : eap_sm S P :=
  {| EAP_state := EAP_INITIALIZE; selectedMethod := EAP_TYPE_NONE;
     methodState := METHOD_NONE; lastId := 0; lastRespData := None;
     decision := DECISION_FAIL; rxReq := false; rxSuccess := false; rxFailure := false;
     reqId := 0; reqMethod := 0; reqVendor := 0; reqVendorMethod := 0; ignore := false;
     mv := mk_vars EAP_CLIENT_TIMEOUT_DEFAULT false false false false false false;
     allowNotifications := false; eapRespData := None; eapKeyAvailable := false;
     eapKeyData := None; eapSessionId := None; m := None; changed := false;
     eapol_ctx := ctx; eap_method_priv := None; fast_reauth := false; reauthInit := false;
     rxResp := false; req_sha1 := replicate 20 0; last_sha1 := replicate 20 0;
     workaround := false; num_rounds := 0; num_rounds_short := 0; force_disabled := false;
     prev_failure := false; last_config := None; n_alloc := n |}.
End eap_peer.

(** ** A lower layer that is only its variables *)
Record eapol_cells := mk_cells {
  cell : eapol_bool_var → bool;
  cell_idleWhile : Z;
  cell_req : option wpabuf;
  cell_config : option eap_peer_config;
}.
#[export] Instance eta_cells : Eta eapol_cells := λ c,
  mk_cells (cell c) (cell_idleWhile c) (cell_req c) (cell_config c).

#[export] Instance cells_callbacks : EapolCallbacks eapol_cells := {|
  get_bool := cell;
  set_bool v b c := c <| cell := λ v', if bool_decide (v = v') then b else cell c v' |>;
  get_idleWhile := cell_idleWhile;
  set_idleWhile n c := c <| cell_idleWhile := n |>;
  get_eapReqData := cell_req;
  get_config := cell_config;
  put_config c' c := c <| cell_config ::= fmap (λ _, c') |>;
  notify_status _ c := c;
  notify_eap_error _ c := c;
  eap_param_needed c := c;
|}.
#[export] Instance cells_spec : EapolCallbacksSpec eapol_cells.
Proof. by split. Qed.
