(* ===== verification/EapPeerProofs.v ===== *)
(** Properties of the EAP peer state machine of [EapPeer]

    - [eap_ok]: the invariant of the state, kept by every operation;
    - every state entry succeeds and leaves the control variables as [enters] says;
    - [rank]: why the loop of [eap_peer_sm_step] stops. *)
From S2P Require Import Prelude Bytes Wpabuf EapCommon EapPeer.

Create HintDb eap.
#[local] Arguments wpabuf_put_data : simpl never.

Section eap_ok.
Context {S P : Type} `{EapolCallbacksSpec S}.
Variable methods : list (eap_method P).
Variable sha1 : list Z → list Z.
Variable alloc_ok : nat → bool.

Implicit Types sm : eap_sm S P.

(** The limit of an EAP payload. *)
Definition short_id (i : option (list Z)) : Prop :=
  match i with Some i => blen i ≤ 65523 | None => True end.
Definition config_ok (c : eap_peer_config) : Prop :=
  short_id (identity c) ∧ short_id (anonymous_identity c) ∧ short_id (machine_identity c).
Definition buf_ok (o : option wpabuf) : Prop :=
  match o with Some b => wf b | None => True end.

(** What the state machine expects of a registered method. *)
Record method_ok (me : eap_method P) : Prop := {
  process_ok v p r b v' p' r' resp :
    wf b → process me v p r b = (v', p', r', resp) → buf_ok resp;
  identity_ok f p : get_identity me = Some f → short_id (f p);
}.
Definition methods_ok : Prop := Forall method_ok methods ∧ blen methods ≤ 8000.

Definition ctx_ok (s : S) : Prop :=
  (∀ b, get_eapReqData s = Some b → wf b ∧ bytes_ok (mem b)) ∧
  (∀ c, get_config s = Some c → config_ok c).

(** A method in use is registered and has its private data. *)
Definition priv_ok (me : option (eap_method P)) (p : option P) : Prop :=
  match me, p with
  | Some me, Some _ => me ∈ methods
  | None, None => True
  | _, _ => False
  end.

Record eap_ok sm : Prop := {
  ok_ctx : ctx_ok (eapol_ctx sm);
  ok_resp : buf_ok (eapRespData sm);
  ok_last : buf_ok (lastRespData sm);
  ok_priv : priv_ok (m sm) (eap_method_priv sm);
}.

Lemma ctx_ok_bool s v b : ctx_ok s → ctx_ok (set_bool v b s).
Proof. intros [??]. split; intros ?; rewrite ?req_set_bool, ?config_set_bool; auto. Qed.
Lemma ctx_ok_idle s n : ctx_ok s → ctx_ok (set_idleWhile n s).
Proof. intros [??]. split; intros ?; rewrite ?req_idle, ?config_idle; auto. Qed.
Lemma ctx_ok_status s t : ctx_ok s → ctx_ok (notify_status t s).
Proof. intros [??]. split; intros ?; rewrite ?req_status, ?config_status; auto. Qed.
Lemma ctx_ok_error s t : ctx_ok s → ctx_ok (notify_eap_error t s).
Proof. intros [??]. split; intros ?; rewrite ?req_error, ?config_error; auto. Qed.
Lemma ctx_ok_param s : ctx_ok s → ctx_ok (eap_param_needed s).
Proof. intros [??]. split; intros ?; rewrite ?req_param, ?config_param; auto. Qed.
Lemma ctx_ok_config s c : config_ok c → ctx_ok s → ctx_ok (put_config c s).
Proof.
  intros ? [??]. split; intros ?; rewrite ?req_config, ?config_put; auto.
  intros (? & _ & ->)%fmap_Some. done.
Qed.

(** What the state machine may do to the lower layer: call its callbacks, and never
    to change portEnabled. *)
Inductive reach (s : S) : S → Prop :=
| reach_refl : reach s s
| reach_bool v b s' : v ≠ EAPOL_portEnabled → reach s s' → reach s (set_bool v b s')
| reach_idle n s' : reach s s' → reach s (set_idleWhile n s')
| reach_config c s' : config_ok c → reach s s' → reach s (put_config c s')
| reach_status t s' : reach s s' → reach s (notify_status t s')
| reach_error t s' : reach s s' → reach s (notify_eap_error t s')
| reach_param s' : reach s s' → reach s (eap_param_needed s').

Lemma reach_trans s1 s2 s3 : reach s1 s2 → reach s2 s3 → reach s1 s3.
Proof. intros H1 H2. induction H2; eauto using reach. Qed.

Lemma ctx_ok_reach s s' : ctx_ok s → reach s s' → ctx_ok s'.
Proof.
  intros Hs Hr. induction Hr; auto using ctx_ok_bool, ctx_ok_idle, ctx_ok_status,
    ctx_ok_error, ctx_ok_param, ctx_ok_config.
Qed.
End eap_ok.

Ltac reach_solve :=
  repeat first [assumption | apply reach_refl | apply reach_bool; [done|]
    | apply reach_idle | apply reach_config; [assumption|] | apply reach_status | apply reach_error
    | apply reach_param].

#[export] Hint Resolve ctx_ok_bool ctx_ok_idle ctx_ok_status ctx_ok_error ctx_ok_param
  ctx_ok_config ok_ctx ok_resp ok_last ok_priv : eap.

(** ** Entering a state *)
Section enters.
Context {S P : Type} `{EapolCallbacksSpec S}.
Variable methods : list (eap_method P).
Variable sha1 : list Z → list Z.
Variable alloc_ok : nat → bool.
Hypothesis Hmethods : methods_ok methods.

Implicit Types sm : eap_sm S P.
Abbreviation eap_ok := (eap_ok methods).

(** What every local transition leaves alone; eapSuccess is only set in SUCCESS, and
    the lower layer only sees callbacks. *)
Definition same_control sm sm' : Prop :=
  reach (eapol_ctx sm) (eapol_ctx sm') ∧
  (eapol_get_bool sm' EAPOL_eapSuccess = true →
   eapol_get_bool sm EAPOL_eapSuccess = true ∨ EAP_state sm' = EAP_SUCCESS) ∧
  eapol_get_bool sm' EAPOL_eapRestart = eapol_get_bool sm EAPOL_eapRestart ∧
  eapol_get_bool sm' EAPOL_portEnabled = eapol_get_bool sm EAPOL_portEnabled ∧
  force_disabled sm' = force_disabled sm.

(** [st] was entered with [changed] set; [req] is what became of eapReq. *)
Definition enters (st : eap_state) (req : bool) sm sm' : Prop :=
  EAP_state sm' = st ∧ changed sm' = true ∧ same_control sm sm' ∧
  eapol_get_bool sm' EAPOL_eapReq = req ∧ eap_ok sm'.

(** An entry function returns, and [enters] holds. *)
Definition entry (st : eap_state) (req : bool) sm (r : outcome (eap_sm S P)) : Prop :=
  ∃ sm', r = Ret sm' ∧ enters st req sm sm'.
End enters.

(** Evaluate the variables after a sequence of callbacks. *)
Ltac eapol_simpl :=
  unfold eapol_get_bool, eapol_set_bool, eapol_set_idleWhile, eap_notify_status,
    eap_report_error, eap_get_config, malloc, SM_ENTRY, eap_sm_free_key in *;
  simpl in *;
  repeat first
    [ rewrite get_set_bool, bool_decide_eq_true_2 by done
    | rewrite get_set_bool, bool_decide_eq_false_2 by done
    | rewrite get_bool_idle | rewrite get_bool_config | rewrite get_bool_status
    | rewrite get_bool_error | rewrite get_bool_param ].

(** eapSuccess was not set, or the state is SUCCESS. *)
Ltac succ_solve :=
  first [solve [reach_solve] | intros ?; first [left; assumption | right; reflexivity]].

(** Show [enters] for an explicit result. *)
Ltac enters_solve :=
  unfold enters, same_control; eapol_simpl;
  split_and!; try done; try succ_solve; try (split; simpl; eauto with eap).

Section entries.
Context {S P : Type} `{EapolCallbacksSpec S}.
Variable methods : list (eap_method P).
Variable sha1 : list Z → list Z.
Variable alloc_ok : nat → bool.
Hypothesis Hmethods : methods_ok methods.

Implicit Types sm : eap_sm S P.
Abbreviation eap_ok := (eap_ok methods).
Abbreviation enters := (enters methods).
Abbreviation entry := (entry methods).
Abbreviation req sm := (eapol_get_bool sm EAPOL_eapReq).

Lemma enter_idle sm : eap_ok sm → enters EAP_IDLE (req sm) sm (sm_EAP_IDLE_Enter sm false).
Proof. intros Hok. enters_solve. Qed.

Lemma enter_discard sm : eap_ok sm → enters EAP_DISCARD false sm (sm_EAP_DISCARD_Enter sm false).
Proof. intros Hok. enters_solve. Qed.

Lemma enter_success sm : eap_ok sm → enters EAP_SUCCESS false sm (sm_EAP_SUCCESS_Enter sm false).
Proof.
  intros Hok. unfold sm_EAP_SUCCESS_Enter. eapol_simpl.
  destruct (eapKeyData sm); enters_solve.
Qed.

Lemma enter_failure sm : eap_ok sm → enters EAP_FAILURE false sm (sm_EAP_FAILURE_Enter sm false).
Proof. intros Hok. enters_solve. Qed.

Lemma deinit_ok sm : eap_ok sm → eap_ok (eap_deinit_prev_method sm).
Proof.
  intros [? ? ? Hp]. unfold eap_deinit_prev_method, priv_ok in *.
  destruct (m sm) as [me|] eqn:Em, (eap_method_priv sm) as [p|] eqn:Ep; try done.
  split; simpl; auto. by rewrite Em, Ep.
Qed.

(** What [eap_deinit_prev_method] leaves alone. *)
Lemma deinit_frame sm :
  let sm' := eap_deinit_prev_method sm in
  EAP_state sm' = EAP_state sm ∧ changed sm' = changed sm ∧ eapol_ctx sm' = eapol_ctx sm ∧
  force_disabled sm' = force_disabled sm ∧ eapRespData sm' = eapRespData sm ∧
  reqMethod sm' = reqMethod sm ∧ selectedMethod sm' = selectedMethod sm ∧
  n_alloc sm' = n_alloc sm ∧ reqVendor sm' = reqVendor sm ∧
  reqVendorMethod sm' = reqVendorMethod sm ∧ reqId sm' = reqId sm.
Proof.
  unfold eap_deinit_prev_method.
  destruct (m sm), (eap_method_priv sm); simpl; auto 20.
Qed.

Lemma enter_initialize sm (global : bool) :
  eap_ok sm →
  let sm' := sm_EAP_INITIALIZE_Enter sm global in
  EAP_state sm' = EAP_INITIALIZE ∧ num_rounds sm' = 0 ∧ num_rounds_short sm' = 0 ∧
  eapol_get_bool sm' EAPOL_eapRestart = false ∧
  eapol_get_bool sm' EAPOL_portEnabled = eapol_get_bool sm EAPOL_portEnabled ∧
  force_disabled sm' = force_disabled sm ∧ req sm' = req sm ∧ eap_ok sm' ∧
  changed sm' = negb global || bool_decide (EAP_state sm ≠ EAP_INITIALIZE) || changed sm ∧
  eapol_get_bool sm' EAPOL_eapSuccess = false ∧ reach (eapol_ctx sm) (eapol_ctx sm').
Proof.
  intros Hok. unfold sm_EAP_INITIALIZE_Enter.
  set (sm1 := SM_ENTRY sm global EAP_INITIALIZE).
  assert (H1 : eap_ok sm1 ∧ EAP_state sm1 = EAP_INITIALIZE ∧ eapol_ctx sm1 = eapol_ctx sm ∧
               force_disabled sm1 = force_disabled sm ∧
               changed sm1 = negb global || bool_decide (EAP_state sm ≠ EAP_INITIALIZE) ||
                             changed sm).
  { subst sm1. unfold SM_ENTRY. destruct (negb global || _); simpl; split_and!; try done; try succ_solve;
      split; simpl; eauto with eap. }
  clearbody sm1.
  set (sm2 := if fast_reauth sm1 && _ && _ && _ then _ else _).
  assert (H2 : eap_ok sm2 ∧ EAP_state sm2 = EAP_state sm1 ∧ eapol_ctx sm2 = eapol_ctx sm1 ∧
               force_disabled sm2 = force_disabled sm1 ∧ changed sm2 = changed sm1).
  { subst sm2. destruct H1 as (Hok1 & _). destruct (fast_reauth sm1 && _ && _ && _).
    - destruct (m sm1) as [me|] eqn:Em, (eap_method_priv sm1) as [p|] eqn:Ep; try done.
      split_and!; try done; try succ_solve. pose proof (ok_priv _ _ Hok1) as Hp. rewrite Em, Ep in Hp.
      split; simpl; rewrite ?Em; eauto with eap.
    - set (sm' := sm1 <| last_config := _ |>).
      assert (eap_ok sm') by (split; simpl; eauto with eap).
      destruct (deinit_frame sm') as (-> & -> & -> & -> & _). auto using deinit_ok. }
  clearbody sm2. destruct H1 as (_ & Es1 & Ec1 & Ef1 & Eg1).
  destruct H2 as (Hok2 & Es2 & Ec2 & Ef2 & Eg2).
  rewrite <- Eg1, <- Eg2, <- Ef1, <- Ef2. unfold eapol_get_bool. rewrite <- Ec1, <- Ec2.
  assert (EAP_state sm2 = EAP_INITIALIZE) by congruence. clear -H0 Hok2 H1.
  eapol_simpl. split_and!; try done; try succ_solve. split; simpl; eauto 20 with eap.
Qed.

Lemma dup_ok (b : wpabuf) (ok : bool) : wf b → ∃ r, wpabuf_dup ok b = Ret r ∧ buf_ok r.
Proof.
  intros Hb. destruct (wpabuf_dup_spec b Hb) as (? & d & ? & ? & _).
  destruct ok; eexists; by split.
Qed.

Lemma enter_retransmit sm :
  eap_ok sm → entry EAP_RETRANSMIT (req sm) sm (sm_EAP_RETRANSMIT_Enter alloc_ok sm false).
Proof.
  intros Hok. unfold sm_EAP_RETRANSMIT_Enter, SM_ENTRY, entry. simpl.
  pose proof (ok_last _ _ Hok) as Hl.
  destruct (lastRespData sm) as [b|] eqn:E.
  - destruct (dup_ok b (alloc_ok (n_alloc sm)) Hl) as (r & -> & ?). simpl.
    eexists; split; [done|]. enters_solve.
  - eexists; split; [done|]. enters_solve.
Qed.

(** Transformations that keep the invariant and the control variables. *)
Definition quiet sm sm' : Prop :=
  eap_ok sm' ∧ EAP_state sm' = EAP_state sm ∧ changed sm' = changed sm ∧
  same_control sm sm' ∧ req sm' = req sm.

Ltac quiet_solve :=
  unfold quiet, same_control; eapol_simpl; split_and!; try done; try succ_solve;
  try (split; simpl; eauto with eap).

Lemma quiet_refl sm : eap_ok sm → quiet sm sm.
Proof. intros. unfold quiet, same_control. split_and!; try done; [apply reach_refl|by left]. Qed.

Lemma quiet_enters st r sm sm1 sm2 :
  enters st r sm sm1 → quiet sm1 sm2 → enters st r sm sm2.
Proof.
  intros (?&?&(Hr1&Hs1&?&?&?)&?&?) (?&?&?&(Hr2&Hs2&?&?&?)&?). unfold enters, same_control.
  split_and!; try congruence; try done; [by eapply reach_trans|]. intros Hs.
  destruct (Hs2 Hs) as [Hs'|?]; [destruct (Hs1 Hs'); [by left|right; congruence]|by right].
Qed.

Lemma quiet_trans sm1 sm2 sm3 : quiet sm1 sm2 → quiet sm2 sm3 → quiet sm1 sm3.
Proof.
  intros (?&?&?&(Hr1&Hs1&?&?&?)&?) (?&?&?&(Hr2&Hs2&?&?&?)&?). unfold quiet, same_control.
  split_and!; try congruence; try done; [by eapply reach_trans|]. intros Hs.
  destruct (Hs2 Hs) as [Hs'|?]; [destruct (Hs1 Hs'); [by left|right; congruence]|by right].
Qed.

Lemma enter_send_response sm :
  eap_ok sm →
  entry EAP_SEND_RESPONSE false sm (sm_EAP_SEND_RESPONSE_Enter alloc_ok sm false).
Proof.
  intros Hok. unfold sm_EAP_SEND_RESPONSE_Enter, entry.
  set (sm1 := SM_ENTRY sm false EAP_SEND_RESPONSE).
  assert (H1 : enters EAP_SEND_RESPONSE (req sm) sm sm1) by (subst sm1; enters_solve).
  clearbody sm1. pose proof H1 as (Es & Ec & Hc & _ & Hok1).
  assert (Hend : ∀ sm4, quiet sm1 sm4 → enters EAP_SEND_RESPONSE false sm
    ((eapol_set_idleWhile (eapol_set_bool sm4 EAPOL_eapReq false) (ClientTimeout (mv sm4)))
       <| reauthInit := false |>)).
  { intros sm4 (Hok4 & Es4 & Ec4 & Hc4 & _). unfold enters, same_control in *. eapol_simpl.
    destruct Hc as (Hr1&Ha&?&?&?), Hc4 as (Hr2&Hb&?&?&?).
    split_and!; try congruence; try done.
    { eapply reach_trans; [done|]. eapply reach_trans; [done|]. reach_solve. }
    intros Hs. destruct (Hb Hs) as [Hs'|?]; [destruct (Ha Hs'); [by left|right; congruence]|].
    right. congruence.
    split; simpl; eauto with eap. }
  pose proof (ok_resp _ _ Hok1) as Hr. cbv zeta.
  destruct (eapRespData sm1) as [b|] eqn:E.
  - assert (H3 : quiet sm1 (send_response_note sm1 b)).
    { unfold send_response_note. case_bool_decide; simpl; destruct (workaround sm1);
        quiet_solve. }
    set (sm3 := send_response_note sm1 b) in *. clearbody sm3. simpl.
    destruct (dup_ok b (alloc_ok (n_alloc sm3)) Hr) as (r & -> & ?). simpl.
    eexists; split; [done|]. refine (Hend (eapol_set_bool
      (sm3 <| n_alloc ::= Datatypes.S |> <| lastRespData := r |>) EAPOL_eapResp true) _).
    eapply quiet_trans; [done|]. destruct H3 as (Hok3 & _). quiet_solve.
  - simpl. eexists; split; [done|]. refine (Hend (sm1 <| lastRespData := None |>) _).
    quiet_solve.
Qed.

Lemma len_valid_ok sm n :
  eap_ok sm →
  ∃ v, eap_hdr_len_valid (get_eapReqData (eapol_ctx sm)) n = Some v ∧
       (v = true → is_Some (get_eapReqData (eapol_ctx sm))).
Proof.
  intros Hok. destruct (get_eapReqData (eapol_ctx sm)) as [b|] eqn:E; [|by exists false].
  destruct (ok_ctx _ _ Hok) as [Hb _]. destruct (Hb b E).
  destruct (eap_hdr_len_valid_safe b n) as (v & -> & _); eauto.
Qed.

Lemma hdr_validate_ok sm ty :
  eap_ok sm →
  ∃ r, eap_hdr_validate EAP_VENDOR_IETF ty (get_eapReqData (eapol_ctx sm)) = Some r ∧
       ∀ off n b, r = Some (off, n) → get_eapReqData (eapol_ctx sm) = Some b →
                  is_Some (slice (mem b) off n).
Proof.
  intros Hok. destruct (get_eapReqData (eapol_ctx sm)) as [b|] eqn:E; [|by exists None].
  destruct (ok_ctx _ _ Hok) as [Hb _]. destruct (Hb b E) as [Hw Hbytes].
  destruct (eap_hdr_validate_in EAP_VENDOR_IETF ty b Hw Hbytes) as (r & -> & Hr).
  exists r. split; [done|]. intros off n b' -> [= <-].
  destruct (Hr off n eq_refl) as (?&?&?). destruct Hw as (?&?&?).
  apply slice_is_Some; lia.
Qed.

Lemma processNotify_ok sm :
  eap_ok sm →
  ∃ n, eap_sm_processNotify alloc_ok sm (get_eapReqData (eapol_ctx sm))
       = Ret (sm <| n_alloc := n |>).
Proof.
  intros Hok. unfold eap_sm_processNotify.
  assert (E0 : sm = sm <| n_alloc := n_alloc sm |>) by (by destruct sm).
  destruct (hdr_validate_ok sm EAP_TYPE_NOTIFICATION Hok) as (r & -> & Hr). simpl.
  destruct r as [[off n]|]; [|eexists; by rewrite E0 at 1].
  destruct (get_eapReqData (eapol_ctx sm)) as [b|]; simpl; [|eexists; by rewrite E0 at 1].
  destruct (alloc_ok (n_alloc sm)); simpl; [|by eexists].
  destruct (Hr off n b eq_refl eq_refl) as [x ->]. by eexists.
Qed.

Lemma buildNotify_ok ok id : ∃ resp, eap_sm_buildNotify ok id = Ret resp ∧ buf_ok resp.
Proof.
  unfold eap_sm_buildNotify. destruct ok; [|by eexists].
  destruct (eap_msg_alloc_contents EAP_VENDOR_IETF EAP_TYPE_NOTIFICATION 0
    EAP_CODE_RESPONSE id) as (b & -> & ? & _); [lia..|]. by eexists.
Qed.

Lemma enter_notification sm :
  eap_ok sm →
  entry EAP_NOTIFICATION (req sm) sm (sm_EAP_NOTIFICATION_Enter alloc_ok sm false).
Proof.
  intros Hok. unfold sm_EAP_NOTIFICATION_Enter, entry.
  set (sm1 := SM_ENTRY sm false EAP_NOTIFICATION).
  assert (H1 : enters EAP_NOTIFICATION (req sm) sm sm1) by (subst sm1; enters_solve).
  clearbody sm1. destruct H1 as (Es & Ec & Hc & Er & Hok1). cbv zeta.
  destruct (len_valid_ok sm1 1 Hok1) as (v & -> & _). simpl.
  destruct v; simpl; [|by exists sm1].
  destruct (processNotify_ok sm1 Hok1) as (n & ->). simpl.
  destruct (buildNotify_ok (alloc_ok n) (reqId sm1)) as (resp & -> & ?). simpl.
  eexists; split; [done|]. split_and!; try done; try succ_solve. split; simpl; eauto with eap.
Qed.

Lemma config_of_ok sm c : eap_ok sm → eap_get_config sm = Some c → config_ok c.
Proof. intros Hok. destruct (ok_ctx _ _ Hok) as [_ Hc]. apply Hc. Qed.

Lemma request_identity_quiet sm : eap_ok sm → quiet sm (eap_sm_request_identity sm).
Proof.
  intros Hok. unfold eap_sm_request_identity.
  destruct (eap_get_config sm) as [c|] eqn:E; [|by apply quiet_refl].
  pose proof (config_of_ok sm c Hok E) as Hc. quiet_solve.
Qed.

Lemma method_get_identity_ok sm me f p :
  eap_ok sm → m sm = Some me → eap_method_priv sm = Some p →
  get_identity me = Some f → short_id (f p).
Proof.
  intros Hok Em Ep Hf. pose proof (ok_priv _ _ Hok) as Hp. rewrite Em, Ep in Hp.
  destruct Hmethods as [Hall _]. rewrite Forall_forall in Hall.
  by eapply identity_ok; [apply Hall|].
Qed.

Lemma buildIdentity_ok sm id enc :
  eap_ok sm →
  ∃ resp sm', eap_sm_buildIdentity alloc_ok sm id enc = Ret (resp, sm') ∧
              quiet sm sm' ∧ buf_ok resp.
Proof.
  intros Hok. unfold eap_sm_buildIdentity.
  pose proof (quiet_refl sm Hok) as Hq.
  destruct (eap_get_config sm) as [c|] eqn:E; [|by eexists _, _].
  destruct (config_of_ok sm c Hok E) as (Hi & Ha & Hm). cbv zeta.
  set (i := match _ with Some i => Some i | None => _ end).
  assert (Hid : short_id i).
  { subst i. destruct (m sm) as [me|] eqn:Em, (eap_method_priv sm) as [p|] eqn:Ep;
      try (repeat case_match; done).
    destruct (get_identity me) as [f|] eqn:Ef; [|repeat case_match; done].
    pose proof (method_get_identity_ok sm me f p Hok Em Ep Ef).
    repeat case_match; try done; congruence. }
  clearbody i. destruct (pcsc c); [by eexists _, _|].
  destruct i as [i|]; [|eexists _, _; auto using request_identity_quiet].
  simpl. assert (Hq' : ∀ n, quiet sm (sm <| n_alloc := n |>)).
  { intros n. quiet_solve. }
  simpl in Hid. destruct (alloc_ok (n_alloc sm)).
  - destruct (eap_msg_alloc_contents EAP_VENDOR_IETF EAP_TYPE_IDENTITY (blen i)
      EAP_CODE_RESPONSE id) as (b & -> & Hb & _ & Hs); [lia..|]. simpl.
    rewrite put_data_bytes by done.
    destruct (put_bytes_ok b i Hb) as (b' & -> & ? & _); [lia|]. simpl.
    eexists _, _. split_and!; [done|apply Hq'|done].
  - simpl. eexists _, _. split_and!; [done|apply Hq'|done].
Qed.

Lemma enter_identity sm :
  eap_ok sm → entry EAP_IDENTITY (req sm) sm (sm_EAP_IDENTITY_Enter alloc_ok sm false).
Proof.
  intros Hok. unfold sm_EAP_IDENTITY_Enter, entry.
  set (sm1 := SM_ENTRY sm false EAP_IDENTITY).
  assert (H1 : enters EAP_IDENTITY (req sm) sm sm1) by (subst sm1; enters_solve).
  clearbody sm1. pose proof H1 as (_ & _ & _ & _ & Hok1). cbv zeta.
  destruct (len_valid_ok sm1 1 Hok1) as (v & -> & _). simpl.
  destruct v; cbn [negb]; [|by exists sm1]. unfold eap_sm_processIdentity.
  destruct (hdr_validate_ok sm1 EAP_TYPE_IDENTITY Hok1) as (r & -> & _).
  set (sm2 := (eap_notify_status sm1 Started) <| eapRespData := None |>).
  assert (Hq : quiet sm1 sm2).
  { subst sm2. quiet_solve. }
  pose proof Hq as (Hok2 & _).
  destruct (buildIdentity_ok sm2 (reqId sm1) false Hok2) as (resp & sm3 & E & Hq3 & ?).
  change (∃ sm', ('(resp, sm3) ← eap_sm_buildIdentity alloc_ok sm2 (reqId sm1) false;
    Ret (sm3 <| eapRespData := resp |>)) = Ret sm' ∧ enters EAP_IDENTITY (req sm) sm sm').
  rewrite E. simpl.
  eexists; split; [done|]. eapply quiet_enters; [done|].
  eapply quiet_trans; [done|]. eapply quiet_trans; [done|].
  destruct Hq3 as (Hok3 & _). quiet_solve.
Qed.

Lemma enter_method sm :
  eap_ok sm → entry EAP_METHOD (req sm) sm (sm_EAP_METHOD_Enter sm false).
Proof.
  intros Hok. unfold sm_EAP_METHOD_Enter, entry.
  set (sm1 := SM_ENTRY sm false EAP_METHOD).
  assert (H1 : enters EAP_METHOD (req sm) sm sm1) by (subst sm1; enters_solve).
  clearbody sm1. pose proof H1 as (_ & _ & _ & _ & Hok1). cbv zeta.
  destruct (m sm1) as [me|] eqn:Em; [|by exists sm1].
  destruct (len_valid_ok sm1 (if bool_decide (vendor me = EAP_VENDOR_IETF ∧
    method me = EAP_TYPE_LEAP) then 0 else 1) Hok1) as (v & -> & Hv). simpl.
  destruct (get_eapReqData (eapol_ctx sm1)) as [b|] eqn:Eb; [|by exists sm1].
  destruct v; [|by exists sm1].
  pose proof (ok_priv _ _ Hok1) as Hp. rewrite Em in Hp. unfold priv_ok in Hp.
  destruct (eap_method_priv sm1) as [p|]; [|done].
  destruct (process me (mv sm1) p _ b) as [[[v' p'] r'] resp] eqn:Epr.
  assert (Hresp : buf_ok resp).
  { destruct Hmethods as [Hall _]. rewrite Forall_forall in Hall.
    destruct (ok_ctx _ _ Hok1) as [Hb _]. eapply process_ok; [by apply Hall|apply Hb|]; done. }
  destruct (ret_ignore r'), (isKeyAvailable me), (getKey me); simpl;
    try destruct (b0 p'); (eexists; split; [done|]; eapply quiet_enters; [done|];
    unfold quiet, same_control; eapol_simpl; split_and!; try done; try succ_solve;
    split; simpl; rewrite ?Em; eauto with eap).
Qed.

(** What parsing a message leaves alone. *)
Definition parsed sm sm' : Prop :=
  quiet sm sm' ∧ get_eapReqData (eapol_ctx sm') = get_eapReqData (eapol_ctx sm) ∧
  num_rounds sm' = num_rounds sm ∧ num_rounds_short sm' = num_rounds_short sm.

Lemma parsed_trans sm1 sm2 sm3 : parsed sm1 sm2 → parsed sm2 sm3 → parsed sm1 sm3.
Proof.
  intros (?&?&?&?) (?&?&?&?). split; [by eapply quiet_trans|]. split_and!; congruence.
Qed.

Ltac parse_end :=
  eexists; split; [done|]; unfold parsed, quiet, same_control; eapol_simpl;
  rewrite ?req_set_bool, ?req_status, ?req_error; split_and!; try done; try succ_solve;
  split; simpl; eauto with eap.

Lemma parse_failure_ok sm :
  eap_ok sm →
  parsed sm
    (let sm := eap_notify_status sm CompletionFailure in
     let sm :=
       match m sm with
       | Some me =>
           match get_error_code me, eap_method_priv sm with
           | Some f, Some p =>
               if bool_decide (f p ≠ NO_EAP_METHOD_ERROR)
               then eap_report_error sm (f p) else sm
           | _, _ => sm
           end
       | None => sm
       end in
     sm <| rxFailure := true |>).
Proof.
  intros Hok. pose proof (ok_priv _ _ Hok) as Hp. simpl.
  destruct (m sm) as [me|] eqn:Em; [destruct (get_error_code me),
    (eap_method_priv sm) eqn:Ep; [case_bool_decide|..]|];
  unfold parsed, quiet, same_control; eapol_simpl;
  rewrite ?req_status, ?req_error, ?req_status; split_and!; try done; try succ_solve;
  split; simpl; rewrite ?Em, ?Ep; eauto with eap.
Qed.

Lemma parseEapReq_ok sm :
  eap_ok sm →
  ∃ sm', eap_sm_parseEapReq sha1 sm (get_eapReqData (eapol_ctx sm)) = Ret sm' ∧ parsed sm sm'.
Proof.
  intros Hok. unfold eap_sm_parseEapReq.
  destruct (get_eapReqData (eapol_ctx sm)) as [b|] eqn:Eb; [|parse_end].
  destruct (ok_ctx _ _ Hok) as [Hb _]. destruct (Hb b Eb) as [Hw Hbytes].
  destruct Hw as (Hu & _ & Hm). unfold sizeof_eap_hdr.
  case_bool_decide; [parse_end|].
  destruct (WPA_GET_BE16_in (mem b) 2) as (plen & -> & Hplen); [lia|lia|done|].
  simpl. case_bool_decide; [parse_end|].
  destruct (rd_in (mem b) 1) as [id ->]; [lia|]. simpl.
  destruct (slice_is_Some (mem b) 0 plen) as [d ->]; [lia..|]. simpl.
  destruct (rd_in (mem b) 0) as [code ->]; [lia|].
  match goal with |- context [if workaround sm then ?a else ?b] =>
    assert (Hws : ∃ sm2, (if workaround sm then a else b) = Ret sm2 ∧ parsed sm sm2)
  end.
  { destruct (workaround sm); parse_end. }
  destruct Hws as (sm2 & -> & Hws). simpl.
  match goal with |- ∃ sm', ?r = Ret sm' ∧ _ =>
    cut (∃ sm', r = Ret sm' ∧ parsed sm2 sm')
  end.
  { intros (sm' & ? & ?). exists sm'. split; [done|]. by eapply parsed_trans. }
  destruct Hws as ((Hok2 & _) & _). clear Hok Hb Eb.
  assert (Hty : 5 ≤ plen → ∃ ty, rd (mem b) 4 = Some ty) by (intros; apply rd_in; lia).
  assert (Hex : 12 ≤ plen → (∃ v, WPA_GET_BE24 (mem b) 5 = Some v) ∧
                            ∃ v, WPA_GET_BE32 (mem b) 8 = Some v).
  { intros. split; [apply WPA_GET_BE24_in|apply WPA_GET_BE32_in]; lia. }
  case_bool_decide.
  { case_bool_decide; [parse_end|]. destruct Hty as [ty ->]; [lia|]. simpl.
    case_bool_decide; [|parse_end]. case_bool_decide; [parse_end|].
    destruct Hex as [[? ->] [? ->]]; [lia|]. simpl. parse_end. }
  case_bool_decide.
  { case_bool_decide; [|parse_end]. case_bool_decide; [parse_end|].
    destruct Hty as [ty ->]; [lia|]. simpl. parse_end. }
  case_bool_decide; [parse_end|]. case_bool_decide.
  { eexists; split; [done|]. by apply parse_failure_ok. }
  case_bool_decide; parse_end.
Qed.

Lemma enter_received sm :
  eap_ok sm → entry EAP_RECEIVED (req sm) sm (sm_EAP_RECEIVED_Enter sha1 sm false).
Proof.
  intros Hok. unfold sm_EAP_RECEIVED_Enter, entry.
  set (sm1 := SM_ENTRY sm false EAP_RECEIVED).
  assert (H1 : enters EAP_RECEIVED (req sm) sm sm1) by (subst sm1; enters_solve).
  clearbody sm1. pose proof H1 as (_ & _ & _ & _ & Hok1). cbv zeta.
  destruct (parseEapReq_ok sm1 Hok1) as (sm2 & -> & Hq & _). simpl.
  assert (Hrounds : ∀ n k, quiet sm2 (sm2 <| num_rounds := n |> <| num_rounds_short := k |>)).
  { destruct Hq as (Hok2 & _). intros. quiet_solve. }
  eexists; split; [done|]. eapply quiet_enters; [done|]. eapply quiet_trans; [done|].
  destruct (get_eapReqData _) as [b|]; [case_bool_decide|]; apply Hrounds.
Qed.

(** ** Nak messages *)

(** The methods a Nak may propose. *)
Definition nak_offers sm (me : eap_method P) : bool :=
  eap_allowed_method sm (vendor me) (method me) &&
  negb (bool_decide (vendor me = EAP_VENDOR_IETF ∧ method me = reqMethod sm)).
Definition expanded_nak_offers sm (me : eap_method P) : bool :=
  eap_allowed_method sm (vendor me) (method me) &&
  negb (bool_decide (reqVendor sm = vendor me ∧ reqVendorMethod sm = method me)).

Definition is_ietf (me : eap_method P) : bool := bool_decide (vendor me = EAP_VENDOR_IETF).
Definition expanded_octets (v t : Z) : list Z :=
  [EAP_TYPE_EXPANDED] ++ be24_bytes v ++ be32_bytes t.

(** The types of a Nak that offers the methods of [l]: those of the IETF methods, in the
    order of [l], and where the first vendor method stands the type 254 for all of them. *)
Definition ietf_types (l : list (eap_method P)) : list Z := map (λ me, u8 (method me)) (List.filter is_ietf l).
Definition nak_types (l : list (eap_method P)) : list Z :=
  match list_find (λ me, vendor me ≠ EAP_VENDOR_IETF) l with
  | None => ietf_types l
  | Some (i, _) => ietf_types (take i l) ++ [EAP_TYPE_EXPANDED] ++ ietf_types (drop (Datatypes.S i) l)
  end.
(** What the loop writes, when the type 254 was ([ef]) or was not written before. *)
Definition types_after (ef : bool) (l : list (eap_method P)) : list Z :=
  if ef then ietf_types l else nak_types l.

Lemma ietf_types_cons me l :
  ietf_types (me :: l) = (if is_ietf me then [u8 (method me)] else []) ++ ietf_types l.
Proof. unfold ietf_types. cbn [List.filter]. by destruct (is_ietf me). Qed.
Lemma types_after_ietf ef me l :
  vendor me = EAP_VENDOR_IETF → types_after ef (me :: l) = u8 (method me) :: types_after ef l.
Proof.
  intros Hv. assert (Hi : is_ietf me = true) by (by apply bool_decide_eq_true).
  destruct ef; cbn [types_after]; [by rewrite ietf_types_cons, Hi|]. unfold nak_types. cbn [list_find].
  rewrite decide_False by naive_solver.
  destruct (list_find _ l) as [[i x]|];
    cbn [fmap option_fmap option_map prod_map take drop]; by rewrite ietf_types_cons, Hi.
Qed.
Lemma types_after_vendor me l :
  vendor me ≠ EAP_VENDOR_IETF →
  types_after true (me :: l) = types_after true l ∧
  types_after false (me :: l) = EAP_TYPE_EXPANDED :: types_after true l.
Proof.
  intros Hv. assert (Hi : is_ietf me = false) by (by apply bool_decide_eq_false).
  cbn [types_after]. unfold nak_types. cbn [list_find]. rewrite ietf_types_cons, Hi. split; [done|].
  by rewrite decide_True.
Qed.

Lemma nak_loop_spec sm ms resp found ef :
  wf resp → used resp + blen ms ≤ size resp →
  ∃ resp', let l := types_after ef (List.filter (nak_offers sm) ms) in
    nak_loop sm ms resp found ef = Ret (resp', found || bool_decide (l ≠ [])) ∧
    wf resp' ∧ size resp' = size resp ∧ contents resp' = contents resp ++ l ∧
    used resp' = used resp + blen l.
Proof.
  cbv zeta. revert resp found ef. induction ms as [|me ms IH]; intros resp found ef Hw Hs; cbn [nak_loop].
  { exists resp. destruct ef; cbn; rewrite orb_false_r, app_nil_r; split_and!; done || lia. }
  rewrite length_cons in Hs.
  destruct (IH resp found ef Hw ltac:(lia)) as (r & Er & Hr).
  (** an octet is written *)
  assert (Hput : ∀ t ef', ∃ resp',
    (r ← wpabuf_put_u8 resp t; nak_loop sm ms r true ef') = Ret (resp', found || true) ∧
    wf resp' ∧ size resp' = size resp ∧
    contents resp' = contents resp ++ t :: types_after ef' (List.filter (nak_offers sm) ms) ∧
    used resp' = used resp + blen (t :: types_after ef' (List.filter (nak_offers sm) ms))).
  { intros t ef'. unfold wpabuf_put_u8.
    destruct (put_bytes_ok resp [t]) as (r1 & -> & W1 & S1 & C1 & U1); [done|simpl; lia|]. simpl in *.
    destruct (IH r1 true ef' W1 ltac:(lia)) as (r' & -> & ? & ? & Hc & ?). exists r'.
    split_and!; [by rewrite orb_true_r|done|lia|by rewrite Hc, C1, <- app_assoc|lia]. }
  pose proof (eq_refl (nak_offers sm me)) as Eo. unfold nak_offers in Eo at 2. cbn [List.filter].
  destruct (decide (vendor me = EAP_VENDOR_IETF ∧ method me = reqMethod sm)) as [Hreq|Hreq].
  { rewrite !(bool_decide_eq_true_2 _ Hreq) in *. rewrite andb_false_r in Eo. rewrite Eo. by exists r. }
  rewrite !(bool_decide_eq_false_2 _ Hreq) in *. rewrite andb_true_r in Eo. rewrite <- Eo.
  destruct (nak_offers sm me); [|by exists r].
  destruct (decide (vendor me = EAP_VENDOR_IETF)) as [Hv|Hv].
  - rewrite bool_decide_eq_false_2 by naive_solver. rewrite types_after_ietf by done. apply Hput.
  - rewrite bool_decide_eq_true_2 by done.
    destruct (types_after_vendor me (List.filter (nak_offers sm) ms) Hv) as [E1 E2].
    destruct ef; [rewrite E1; by exists r|]. rewrite E2. apply Hput.
Qed.

Lemma expanded_nak_loop_spec sm ms resp found :
  wf resp → used resp + 8 * blen ms ≤ size resp →
  ∃ resp', let l := flat_map (λ me, expanded_octets (vendor me) (method me))
                      (List.filter (expanded_nak_offers sm) ms) in
    expanded_nak_loop sm ms resp found = Ret (resp', found || bool_decide (l ≠ [])) ∧
    wf resp' ∧ size resp' = size resp ∧ contents resp' = contents resp ++ l ∧
    used resp' = used resp + blen l ∧ blen l ≤ 8 * blen ms.
Proof.
  revert resp found. induction ms as [|me ms IH]; intros resp found Hw Hs; simpl.
  { exists resp. rewrite orb_false_r, app_nil_r. split_and!; done || lia. }
  simpl in Hs. pose proof (eq_refl (expanded_nak_offers sm me)) as Eo.
  unfold expanded_nak_offers in Eo at 2.
  destruct (IH resp found Hw ltac:(lia)) as (r & E & ? & ? & ? & ? & ?).
  destruct (decide (reqVendor sm = vendor me ∧ reqVendorMethod sm = method me)) as [Hr|Hr].
  { rewrite !(bool_decide_eq_true_2 _ Hr) in *. rewrite andb_false_r in Eo. rewrite Eo.
    exists r. split_and!; done || lia. }
  rewrite !(bool_decide_eq_false_2 _ Hr) in *. rewrite andb_true_r in Eo. rewrite <- Eo.
  destruct (expanded_nak_offers sm me); simpl; [|exists r; split_and!; done || lia].
  clear E. unfold wpabuf_put_u8, wpabuf_put_be24, wpabuf_put_be32.
  put_step ltac:(simpl; lia).
  put_step ltac:(rewrite S0, U; simpl; lia).
  put_step ltac:(rewrite S1, S0, U0, U; simpl; lia).
  simpl in U, U0, U1. destruct (IH b1 true W1 ltac:(lia)) as (r' & -> & ? & ? & Hc & ? & ?).
  exists r'. split_and!; [by rewrite orb_true_r|done|lia| |lia|lia].
  by rewrite Hc, C1, C0, C, <- !app_assoc.
Qed.

(** The contents of a Nak, and of an expanded Nak. *)
Definition nak_message sm (id : Z) (msg : list Z) : Prop :=
  let offers := nak_types (List.filter (nak_offers sm) methods) in
  let l := [EAP_TYPE_NAK] ++ (if bool_decide (offers ≠ []) then offers else [EAP_TYPE_NONE]) in
  msg = eap_hdr_octets EAP_CODE_RESPONSE id (4 + blen l) ++ l.

Definition expanded_nak_message sm (id : Z) (msg : list Z) : Prop :=
  let offers := flat_map (λ me, expanded_octets (vendor me) (method me))
                  (List.filter (expanded_nak_offers sm) methods) in
  let l := expanded_octets EAP_VENDOR_IETF EAP_TYPE_NAK ++
           (if bool_decide (offers ≠ []) then offers
            else expanded_octets EAP_VENDOR_IETF EAP_TYPE_NONE) in
  msg = eap_hdr_octets EAP_CODE_RESPONSE id (4 + blen l) ++ l.

Lemma update_len_ok b id rest :
  wf b → (∃ l, contents b = eap_hdr_octets EAP_CODE_RESPONSE id l ++ rest) →
  ∃ b', eap_update_len b = Some b' ∧ wf b' ∧
        contents b' = eap_hdr_octets EAP_CODE_RESPONSE id (4 + blen rest) ++ rest.
Proof.
  intros Hw [l Hc]. pose proof (contents_length _ Hw) as Hl. rewrite Hc, length_app in Hl.
  destruct (eap_update_len_contents b EAP_CODE_RESPONSE id l _ rest Hw Hc eq_refl)
    as (b' & -> & ? & _ & _ & Hc').
  exists b'. split_and!; [done..|]. rewrite Hc'. do 2 f_equal. simpl in Hl. lia.
Qed.

Lemma build_expanded_nak_spec sm id :
  ∃ b, eap_sm_build_expanded_nak methods sm id true = Ret (Some b) ∧ wf b ∧
       expanded_nak_message sm id (contents b).
Proof.
  destruct Hmethods as [_ Hn]. unfold eap_sm_build_expanded_nak.
  destruct (eap_msg_alloc_contents EAP_VENDOR_IETF EAP_TYPE_EXPANDED
    (8 + 8 * (blen methods + 1)) EAP_CODE_RESPONSE id) as (b0 & -> & W0 & C0 & S0); [lia..|].
  unfold wpabuf_put_u8, wpabuf_put_be24, wpabuf_put_be32.
  cbn [mbind outcome_bind].
  put_step ltac:(simpl; lia). simpl in U.
  put_step ltac:(simpl; lia). simpl in U0.
  destruct (expanded_nak_loop_spec sm methods b1 false W1 ltac:(lia))
    as (b2 & -> & Wx & Sx & Cx & Ux & Hlen). simpl.
  set (offers := flat_map _ _) in *.
  assert (Hend : ∃ b3, (if bool_decide (offers ≠ []) then Ret b2 else
     resp ← wpabuf_put_bytes b2 [EAP_TYPE_EXPANDED];
     resp ← wpabuf_put_bytes resp (be24_bytes EAP_VENDOR_IETF);
     wpabuf_put_bytes resp (be32_bytes EAP_TYPE_NONE)) = Ret b3 ∧ wf b3 ∧
     contents b3 = contents b2 ++ if bool_decide (offers ≠ []) then []
                                  else expanded_octets EAP_VENDOR_IETF EAP_TYPE_NONE).
  { case_bool_decide as Ho; [exists b2; by rewrite app_nil_r|].
    assert (blen offers = 0) by (by rewrite Ho).
    put_step ltac:(simpl; lia). simpl in U1.
    put_step ltac:(simpl; lia). simpl in U2.
    put_step ltac:(simpl; lia). simpl in U3.
    exists b5. split_and!; [done..|]. by rewrite C4, C3, C2, <- !app_assoc. }
  destruct Hend as (b3 & -> & W3 & C3). simpl.
  destruct (update_len_ok b3 id (expanded_octets EAP_VENDOR_IETF EAP_TYPE_NAK ++
    if bool_decide (offers ≠ []) then offers
    else expanded_octets EAP_VENDOR_IETF EAP_TYPE_NONE) W3) as (b' & -> & W' & C').
  { eexists. rewrite C3, Cx, C1, C, C0, <- !app_assoc. f_equal.
    case_bool_decide as Ho; [by rewrite app_nil_r|]. by rewrite Ho. }
  simpl. by exists b'.
Qed.

Lemma buildNak_spec sm id :
  methods ≠ [] → reqMethod sm ≠ EAP_TYPE_EXPANDED →
  ∃ b, eap_sm_buildNak methods sm id true = Ret (Some b) ∧ wf b ∧
       nak_message sm id (contents b).
Proof.
  intros Hne Hreq. destruct Hmethods as [_ Hn]. unfold eap_sm_buildNak, sizeof_eap_hdr.
  rewrite (bool_decide_eq_false_2 (methods = [])) by done.
  rewrite (bool_decide_eq_false_2 (reqMethod sm = _)) by done.
  destruct (eap_msg_alloc_contents EAP_VENDOR_IETF EAP_TYPE_NAK
    (4 + 1 + blen methods + 1) EAP_CODE_RESPONSE id) as (b0 & -> & W0 & C0 & S0); [lia..|].
  cbn [mbind outcome_bind].
  destruct (nak_loop_spec sm methods b0 false false W0 ltac:(lia)) as (b2 & -> & W2 & S2 & C2 & U2).
  cbn [types_after] in *. unfold nak_message. set (l := nak_types _) in *. cbn [orb mbind outcome_bind].
  assert (Hend : ∃ b3, (if bool_decide (l ≠ []) then Ret b2
                        else wpabuf_put_u8 b2 EAP_TYPE_NONE) = Ret b3 ∧ wf b3 ∧
     contents b3 = contents b0 ++ if bool_decide (l ≠ []) then l else [EAP_TYPE_NONE]).
  { case_bool_decide as Ho; [by exists b2|]. unfold wpabuf_put_u8.
    rewrite Ho, app_nil_r in C2. rewrite Ho in U2.
    simpl in U2. put_step ltac:(simpl; lia). exists b. by rewrite C, C2. }
  destruct Hend as (b3 & -> & W3 & C3). rewrite C0, <- app_assoc in C3.
  cbn [mbind outcome_bind].
  destruct (update_len_ok b3 id _ W3 (ex_intro _ _ C3)) as (b' & -> & W' & C').
  by exists b'.
Qed.

Lemma buildNak_ok sm id (ok : bool) :
  ∃ r, eap_sm_buildNak methods sm id ok = Ret r ∧ buf_ok r.
Proof.
  destruct (decide (methods = [])) as [Hm|Hm].
  { unfold eap_sm_buildNak. rewrite (bool_decide_eq_true_2 (methods = [])) by done. by eexists. }
  destruct ok.
  - destruct (decide (reqMethod sm = EAP_TYPE_EXPANDED)) as [He|He].
    + unfold eap_sm_buildNak.
      rewrite (bool_decide_eq_false_2 (methods = [])), (bool_decide_eq_true_2 _ He) by done.
      destruct (build_expanded_nak_spec sm id) as (b & -> & ? & _). by eexists.
    + destruct (buildNak_spec sm id) as (b & -> & ? & _); [done..|]. by eexists.
  - exists None. split; [|done]. unfold eap_sm_buildNak, eap_sm_build_expanded_nak.
    rewrite (bool_decide_eq_false_2 (methods = [])) by done. by case_bool_decide.
Qed.

Lemma get_method_nak_quiet sm :
  eap_ok sm → ∃ sm', get_method_nak methods alloc_ok sm = Ret sm' ∧ quiet sm sm'.
Proof.
  intros Hok. unfold get_method_nak. simpl.
  match goal with |- context [eap_sm_buildNak methods ?s ?i ?o] =>
    destruct (buildNak_ok s i o) as (r & -> & ?)
  end.
  simpl. eexists; split; [done|]. quiet_solve.
Qed.

Lemma get_method_init_done_quiet sm me p :
  eap_ok sm → me ∈ methods →
  ∀ v, let sm1 := sm <| m := Some me |> <| mv := v |> <| eap_method_priv := p |> in
  ∃ sm', get_method_init_done methods alloc_ok sm1 = Ret sm' ∧ quiet sm sm'.
Proof.
  intros Hok Hme v sm1. unfold get_method_init_done. subst sm1. simpl.
  destruct p as [p|].
  - eexists; split; [done|]. quiet_solve.
  - match goal with |- context [if _ then Ret ?s else _] => set (sm2 := s) end.
    assert (Hq : quiet sm sm2).
    { subst sm2. quiet_solve. }
    destruct (_ && _); [by exists sm2|].
    destruct (get_method_nak_quiet sm2) as (sm' & -> & Hq2); [by destruct Hq|].
    exists sm'. split; [done|]. exact (quiet_trans _ _ _ Hq Hq2).
Qed.

Lemma get_method_registered v t me : eap_peer_get_eap_method methods v t = Some me → me ∈ methods.
Proof. intros [? _]%List.find_some. by apply list_elem_of_In. Qed.

Lemma enter_get_method sm :
  eap_ok sm →
  entry EAP_GET_METHOD (req sm) sm (sm_EAP_GET_METHOD_Enter methods alloc_ok sm false).
Proof.
  intros Hok. unfold sm_EAP_GET_METHOD_Enter, entry.
  set (sm1 := SM_ENTRY sm false EAP_GET_METHOD).
  assert (H1 : enters EAP_GET_METHOD (req sm) sm sm1) by (subst sm1; enters_solve).
  clearbody sm1. pose proof H1 as (_ & _ & _ & _ & Hok1).
  set (mthd := if bool_decide (reqMethod sm1 = _) then _ else _). cbv zeta.
  cut (∀ r : outcome (eap_sm S P), (∃ sm', r = Ret sm' ∧ quiet sm1 sm') →
       ∃ sm', r = Ret sm' ∧ enters EAP_GET_METHOD (req sm) sm sm').
  2:{ intros ? (sm' & -> & ?). exists sm'. split; [done|]. by eapply quiet_enters. }
  intros Hcut. apply Hcut. clear Hcut H1 Hok sm.
  assert (Hst : ∀ t, quiet sm1 (eap_notify_status sm1 t)).
  { intros t. quiet_solve. }
  destruct (eap_sm_allowMethod methods sm1 (reqVendor sm1) mthd) eqn:Ea; cbn [negb].
  2:{ destruct (get_method_nak_quiet (eap_notify_status sm1 RefuseProposedMethod))
        as (sm' & -> & ?); [by destruct (Hst RefuseProposedMethod)|].
      exists sm'. split; [done|]. eapply quiet_trans; [apply Hst|done]. }
  destruct (eap_peer_get_eap_method methods (reqVendor sm1) mthd) as [found|] eqn:Ef;
    [|unfold eap_sm_allowMethod in Ea; rewrite Ef, andb_false_r in Ea; done].
  apply get_method_registered in Ef. clear Ea.
  specialize (Hst AcceptProposedMethod).
  set (sm2 := eap_notify_status sm1 AcceptProposedMethod) in *. clearbody sm2.
  set (reinit := match m sm2 with Some _ => _ | None => false end).
  assert (Hre : reinit = true → is_Some (m sm2)) by (subst reinit; by destruct (m sm2)).
  clearbody reinit. set (sm3 := if reinit then sm2 else eap_deinit_prev_method sm2).
  pose proof Hst as (Hok2 & _).
  assert (H3 : quiet sm2 sm3 ∧ (reinit = true → is_Some (m sm3))).
  { subst sm3. destruct reinit.
    - split; [|done]. by apply quiet_refl.
    - split; [|done]. destruct (deinit_frame sm2) as (E1 & E2 & E3 & E4 & _).
      unfold quiet, same_control, eapol_get_bool. rewrite E1, E2, E3, E4.
      split_and!; try done; try succ_solve. by apply deinit_ok. }
  destruct H3 as [H3 Hre3]. clear Hre. clearbody sm3. pose proof H3 as (Hok3 & _).
  set (sm4 := sm3 <| selectedMethod := reqMethod sm3 |>).
  assert (H4 : quiet sm3 sm4).
  { quiet_solve. }
  assert (Hre4 : reinit = true → is_Some (m sm4)) by done.
  clear Hre3. clearbody sm4. pose proof H4 as (Hok4 & _).
  cut (∀ r : outcome (eap_sm S P), (∃ sm', r = Ret sm' ∧ quiet sm4 sm') →
       ∃ sm', r = Ret sm' ∧ quiet sm1 sm').
  2:{ intros ? (sm' & -> & Hq). exists sm'. split; [done|].
      do 2 (eapply quiet_trans; [done|]). exact (quiet_trans _ _ _ H4 Hq). }
  intros Hcut. apply Hcut. clear Hcut Hst H3 H4 Hok2 Hok3 Hok1.
  pose proof (ok_priv _ _ Hok4) as Hp.
  destruct (m sm4) as [me|] eqn:Em.
  - unfold priv_ok in Hp. destruct (eap_method_priv sm4) as [p|] eqn:Ep; [|done].
    rewrite Em. clear Hre4. destruct reinit; simpl; rewrite ?Ep, ?Em.
    + match goal with |- context [init_for_reauth me ?a p] =>
        destruct (init_for_reauth me a p) as [v p'] end.
      exact (get_method_init_done_quiet _ me p' Hok4 Hp v).
    + match goal with |- context [init me ?a] => destruct (init me a) as [v p'] end.
      exact (get_method_init_done_quiet _ me p' Hok4 Hp v).
  - destruct reinit; [by destruct Hre4|]. simpl. match goal with |- context [init found ?a] => destruct (init found a) as [v p'] end.
    exact (get_method_init_done_quiet _ found p' Hok4 Ef v).
Qed.
End entries.
