(* ===== verification/EapPeerStep.v ===== *)
(** The step function of the EAP peer state machine

    [eap_peer_sm_step] returns, keeps the invariant of [EapPeerProofs], and its
    results follow RFC 4137: when success is signalled, what a duplicate request
    is answered with, what a Nak proposes. *)
From S2P Require Import Prelude Bytes Wpabuf EapCommon EapPeer EapPeerProofs.

(** ** Termination *)
Section termination.
Context {S P : Type} `{EapolCallbacksSpec S}.
Variable methods : list (eap_method P).
Variable sha1 : list Z → list Z.
Variable alloc_ok : nat → bool.
Hypothesis Hmethods : methods_ok methods.

Implicit Types sm : eap_sm S P.
Abbreviation eap_ok := (eap_ok methods).
Abbreviation enters := (enters methods).
Abbreviation entry := (entry methods).
Abbreviation req sm := (eapol_get_bool sm EAPOL_eapReq).

(** How many transitions are left, at most, while nothing outside changes. *)
Definition state_rank (st : eap_state) (req : bool) : nat :=
  match st with
  | EAP_DISABLED => 9
  | EAP_INITIALIZE => if req then 8 else 3
  | EAP_IDLE => if req then 7 else 2
  | EAP_RECEIVED => 6
  | EAP_GET_METHOD => 5
  | EAP_METHOD | EAP_IDENTITY | EAP_NOTIFICATION | EAP_RETRANSMIT => 4
  | EAP_SEND_RESPONSE | EAP_DISCARD => if req then 8 else 3
  | EAP_SUCCESS | EAP_FAILURE => 0
  end.

Definition restarting sm : bool :=
  eapol_get_bool sm EAPOL_eapRestart && eapol_get_bool sm EAPOL_portEnabled.
Definition disabled sm : bool :=
  negb (eapol_get_bool sm EAPOL_portEnabled) || force_disabled sm.

Definition rank sm : nat :=
  if restarting sm then 10
  else if disabled sm then if bool_decide (EAP_state sm = EAP_DISABLED) then 0 else 1
  else if bool_decide (EAP_MAX_AUTH_ROUNDS < num_rounds sm)
  then if bool_decide (num_rounds sm = EAP_MAX_AUTH_ROUNDS + 1) then 1 else 0
  else if bool_decide (EAP_MAX_AUTH_ROUNDS_SHORT < num_rounds_short sm)
  then if bool_decide (num_rounds_short sm = EAP_MAX_AUTH_ROUNDS_SHORT + 1) then 1 else 0
  else state_rank (EAP_state sm) (req sm).

Lemma rank_le_10 sm : (rank sm ≤ 10)%nat.
Proof.
  unfold rank, state_rank. repeat case_match; lia.
Qed.

Lemma rank_enters st r sm sm' :
  restarting sm = false → disabled sm = false → enters st r sm sm' →
  (rank sm' ≤ Nat.max 1 (state_rank st r))%nat.
Proof.
  intros Hr Hd (Es & _ & (_ & _ & E1 & E2 & E3) & Eq & _). unfold rank.
  assert (restarting sm' = false) as -> by (unfold restarting in *; congruence).
  assert (disabled sm' = false) as -> by (unfold disabled in *; congruence).
  rewrite Es, Eq. repeat case_bool_decide; lia.
Qed.

(** The transition [sm -> r] lowers [state_rank], or changes nothing. *)
Definition descends sm (r : outcome (eap_sm S P)) : Prop :=
  r = Ret sm ∨
  ∃ st q, entry st q sm r ∧
          (1 < state_rank (EAP_state sm) (req sm))%nat ∧
          (state_rank st q < state_rank (EAP_state sm) (req sm))%nat.

Lemma descends_entry st q sm r :
  entry st q sm r → (1 < state_rank (EAP_state sm) (req sm))%nat →
  (state_rank st q < state_rank (EAP_state sm) (req sm))%nat → descends sm r.
Proof. intros. right. by exists st, q. Qed.

Lemma entry_ret st q sm sm' : enters st q sm sm' → entry st q sm (Ret sm').
Proof. intros. by exists sm'. Qed.

Tactic Notation "descend" uconstr(l) :=
  eapply descends_entry;
  [first [by apply l | by apply entry_ret, l]
  |by match goal with E : EAP_state _ = _ |- _ => rewrite E; simpl; repeat case_match; lia end..].

#[local] Opaque sm_EAP_INITIALIZE_Enter sm_EAP_IDLE_Enter sm_EAP_RECEIVED_Enter
  sm_EAP_GET_METHOD_Enter sm_EAP_METHOD_Enter sm_EAP_SEND_RESPONSE_Enter
  sm_EAP_DISCARD_Enter sm_EAP_IDENTITY_Enter sm_EAP_NOTIFICATION_Enter
  sm_EAP_RETRANSMIT_Enter sm_EAP_SUCCESS_Enter sm_EAP_FAILURE_Enter.

Lemma step_received_descends sm :
  eap_ok sm → EAP_state sm = EAP_RECEIVED →
  descends sm (eap_peer_sm_step_received methods alloc_ok sm).
Proof.
  intros Hok Est. unfold eap_peer_sm_step_received. cbv zeta.
  repeat match goal with |- descends _ (if ?b then _ else _) => destruct b end;
    first [descend enter_success | descend enter_failure | descend enter_retransmit
          | descend enter_notification | descend enter_identity | descend enter_get_method
          | descend enter_method | descend enter_send_response | descend enter_discard].
Qed.

Lemma step_idle_descends sm :
  eap_ok sm → EAP_state sm = EAP_IDLE → descends sm (eap_peer_sm_step_idle sha1 sm).
Proof.
  intros Hok Est. unfold eap_peer_sm_step_idle. cbv zeta.
  destruct (eapol_get_bool sm EAPOL_eapReq) eqn:Eq.
  { eapply descends_entry; [by apply enter_received|by rewrite Est, Eq; simpl; lia..]. }
  repeat match goal with |- descends _ (if ?b then _ else _) => destruct b end;
    first [descend enter_success | descend enter_failure | by left].
Qed.

Lemma initialize_entry sm :
  eap_ok sm → restarting sm = false → eapol_get_bool sm EAPOL_portEnabled = true →
  entry EAP_INITIALIZE (req sm) sm (Ret (sm_EAP_INITIALIZE_Enter sm false)).
Proof.
  intros Hok Hr Hp. destruct (enter_initialize methods sm false Hok)
    as (E1 & _ & _ & E2 & E3 & E4 & E5 & E6 & E7 & E8 & E9).
  eexists; split; [done|]. unfold enters, same_control. rewrite E8. split_and!; try done.
  rewrite E2. unfold restarting in Hr. rewrite Hp, andb_true_r in Hr. done.
Qed.

Lemma step_local_descends sm :
  eap_ok sm → restarting sm = false → disabled sm = false →
  descends sm (eap_peer_sm_step_local methods sha1 alloc_ok sm).
Proof.
  intros Hok Hr Hd. unfold eap_peer_sm_step_local.
  apply orb_false_iff in Hd as [Hp%negb_false_iff Hf].
  destruct (EAP_state sm) eqn:Est.
  - descend enter_idle.
  - destruct (_ && _); [descend initialize_entry|by left].
  - by apply step_idle_descends.
  - by apply step_received_descends.
  - case_bool_decide; [descend enter_method|descend enter_send_response].
  - destruct (ignore sm); [descend enter_discard|].
    destruct (_ && _); [descend enter_failure|descend enter_send_response].
  - descend enter_idle.
  - descend enter_idle.
  - descend enter_send_response.
  - descend enter_send_response.
  - descend enter_send_response.
  - by left.
  - by left.
Qed.

#[local] Transparent sm_EAP_INITIALIZE_Enter sm_EAP_IDLE_Enter sm_EAP_RECEIVED_Enter
  sm_EAP_GET_METHOD_Enter sm_EAP_METHOD_Enter sm_EAP_SEND_RESPONSE_Enter
  sm_EAP_DISCARD_Enter sm_EAP_IDENTITY_Enter sm_EAP_NOTIFICATION_Enter
  sm_EAP_RETRANSMIT_Enter sm_EAP_SUCCESS_Enter sm_EAP_FAILURE_Enter.

Abbreviation Step := (sm_EAP_Step methods sha1 alloc_ok).

(** Nothing is left to do. *)
Definition settled sm : Prop := ∃ sm', Step sm = Ret sm' ∧ changed sm' = false.

(** What one pass of the loop achieves. *)
Definition good_step sm : Prop :=
  ∃ sm', Step sm = Ret sm' ∧ eap_ok sm' ∧ reach (eapol_ctx sm) (eapol_ctx sm') ∧
    (changed sm' = true → (rank sm' < rank sm)%nat) ∧
    (changed sm' = false → settled sm' ∨ EAP_state sm' = EAP_INITIALIZE).

Lemma step_restarting sm : eap_ok sm → changed sm = false → restarting sm = true → good_step sm.
Proof.
  intros Hok Hc Hr. destruct (enter_initialize methods sm true Hok)
    as (E1 & E2 & E3 & E4 & E5 & E6 & E7 & E8 & E9 & _ & E10).
  exists (sm_EAP_INITIALIZE_Enter sm true).
  unfold sm_EAP_Step. unfold restarting in Hr. rewrite Hr.
  split_and!; [done|done|done| |by right]. intros _.
  unfold rank, restarting. rewrite E4, Hr. simpl.
  unfold state_rank. repeat case_match; lia.
Qed.

Lemma enter_disabled sm :
  eap_ok sm → changed sm = false →
  let sm' := sm_EAP_DISABLED_Enter sm true in
  EAP_state sm' = EAP_DISABLED ∧ restarting sm' = restarting sm ∧ disabled sm' = disabled sm ∧
  eap_ok sm' ∧ changed sm' = bool_decide (EAP_state sm ≠ EAP_DISABLED) ∧
  reach (eapol_ctx sm) (eapol_ctx sm').
Proof.
  intros Hok Hc sm'. subst sm'. unfold sm_EAP_DISABLED_Enter, SM_ENTRY, restarting, disabled.
  simpl. case_bool_decide; eapol_simpl; split_and!; try done; try reach_solve;
    split; simpl; eauto with eap.
Qed.

Lemma step_disabled sm :
  eap_ok sm → changed sm = false → restarting sm = false → disabled sm = true → good_step sm.
Proof.
  intros Hok Hc Hr Hd.
  assert (Hstep : ∀ s, restarting s = false → disabled s = true →
                       Step s = Ret (sm_EAP_DISABLED_Enter s true)).
  { intros s H1 H2. unfold sm_EAP_Step, restarting, disabled in *. by rewrite H1, H2. }
  destruct (enter_disabled sm Hok Hc) as (E1 & E2 & E3 & E4 & E5 & E6).
  exists (sm_EAP_DISABLED_Enter sm true). split; [by apply Hstep|].
  set (sm1 := sm_EAP_DISABLED_Enter sm true) in *. clearbody sm1.
  rewrite Hr in E2. rewrite Hd in E3. split; [done|]. split; [done|]. split.
  - intros Hc1. rewrite Hc1 in E5. symmetry in E5. apply bool_decide_eq_true_1 in E5.
    unfold rank. rewrite E2, E3, Hr, Hd, E1. rewrite bool_decide_eq_true_2 by done.
    rewrite bool_decide_eq_false_2 by done. lia.
  - intros Hc1. left. destruct (enter_disabled sm1 E4 Hc1) as (_ & _ & _ & _ & E & _).
    eexists; split; [by apply Hstep|]. rewrite E, E1. done.
Qed.

(** Past a round limit. *)
Definition limited sm : bool :=
  bool_decide (EAP_MAX_AUTH_ROUNDS < num_rounds sm) ||
  bool_decide (EAP_MAX_AUTH_ROUNDS_SHORT < num_rounds_short sm).

Definition limit_just_reached sm : bool :=
  if bool_decide (EAP_MAX_AUTH_ROUNDS < num_rounds sm)
  then bool_decide (num_rounds sm = EAP_MAX_AUTH_ROUNDS + 1)
  else bool_decide (num_rounds_short sm = EAP_MAX_AUTH_ROUNDS_SHORT + 1).

Lemma step_limited_eq sm :
  restarting sm = false → disabled sm = false → limited sm = true →
  (limit_just_reached sm = false ∧ Step sm = Ret sm) ∨
  (limit_just_reached sm = true ∧ ∃ n k, Step sm =
     Ret (sm_EAP_FAILURE_Enter (sm <| num_rounds := n |> <| num_rounds_short := k |>) true) ∧
     let sm' := sm <| num_rounds := n |> <| num_rounds_short := k |> in
     limited sm' = true ∧ limit_just_reached sm' = false).
Proof.
  unfold restarting, disabled, limited, limit_just_reached, sm_EAP_Step,
    EAP_MAX_AUTH_ROUNDS, EAP_MAX_AUTH_ROUNDS_SHORT.
  intros -> -> Hl. destruct (decide (100 < num_rounds sm)).
  - rewrite !(bool_decide_eq_true_2 (100 < num_rounds sm)) by done.
    destruct (decide (num_rounds sm = 100 + 1)) as [E|E].
    + right. rewrite !(bool_decide_eq_true_2 _ E). split; [done|].
      exists (Z.succ (num_rounds sm)), (num_rounds_short sm). split; [done|].
      simpl. rewrite E. by split.
    + left. by rewrite !(bool_decide_eq_false_2 _ E).
  - rewrite !(bool_decide_eq_false_2 (100 < num_rounds sm)) in * by done. simpl in Hl.
    rewrite !Hl. destruct (decide (num_rounds_short sm = 50 + 1)) as [E|E].
    + right. rewrite !(bool_decide_eq_true_2 _ E). split; [done|].
      exists (num_rounds sm), (Z.succ (num_rounds_short sm)). split; [done|].
      simpl. rewrite E, !(bool_decide_eq_false_2 (100 < num_rounds sm)) by done. by split.
    + left. by rewrite !(bool_decide_eq_false_2 _ E).
Qed.

Lemma enter_failure_global sm :
  eap_ok sm →
  let sm' := sm_EAP_FAILURE_Enter sm true in
  eap_ok sm' ∧ restarting sm' = restarting sm ∧ disabled sm' = disabled sm ∧
  limited sm' = limited sm ∧ limit_just_reached sm' = limit_just_reached sm ∧
  reach (eapol_ctx sm) (eapol_ctx sm').
Proof.
  intros Hok sm'. subst sm'. unfold sm_EAP_FAILURE_Enter, SM_ENTRY, restarting, disabled.
  simpl. case_bool_decide; eapol_simpl; split_and!; try done; try reach_solve;
    split; simpl; eauto with eap.
Qed.

Lemma rank_limited sm :
  restarting sm = false → disabled sm = false → limited sm = true →
  rank sm = if limit_just_reached sm then 1%nat else 0%nat.
Proof.
  unfold rank, limited, limit_just_reached. intros -> -> Hl.
  destruct (bool_decide (_ < num_rounds sm)); [done|]. simpl in Hl. by rewrite Hl.
Qed.

Lemma step_limited sm :
  eap_ok sm → changed sm = false → restarting sm = false → disabled sm = false →
  limited sm = true → good_step sm.
Proof.
  intros Hok Hc Hr Hd Hl. unfold good_step.
  destruct (step_limited_eq sm Hr Hd Hl) as [[Hj E]|[Hj (n & k & E & Hl' & Hj')]]; rewrite E.
  - exists sm. split_and!; [done|done|apply reach_refl|congruence|]. intros _. left. by exists sm.
  - eexists; split; [done|].
    set (sm1 := sm <| num_rounds := n |> <| num_rounds_short := k |>) in *.
    assert (Hok1 : eap_ok sm1) by (split; simpl; eauto with eap).
    assert (Hc1 : eapol_ctx sm1 = eapol_ctx sm) by done.
    assert (Hr1 : restarting sm1 = false) by done. assert (Hd1 : disabled sm1 = false) by done.
    clearbody sm1.
    destruct (enter_failure_global sm1 Hok1) as (Hok2 & E2 & E3 & E4 & E5 & E6).
    set (sm2 := sm_EAP_FAILURE_Enter sm1 true) in *. clearbody sm2.
    rewrite Hr1 in E2. rewrite Hd1 in E3. rewrite Hl' in E4. rewrite Hj' in E5.
    rewrite Hc1 in E6. split_and!; [done|done| |].
    + intros _. rewrite !rank_limited by done. rewrite E5, Hj. lia.
    + intros Hc2. left. exists sm2.
      destruct (step_limited_eq sm2) as [[_ ?]|[? _]]; [done..|congruence].
Qed.

Lemma step_good sm : eap_ok sm → changed sm = false → good_step sm.
Proof.
  intros Hok Hc. destruct (restarting sm) eqn:Hr; [by apply step_restarting|].
  destruct (disabled sm) eqn:Hd; [by apply step_disabled|].
  destruct (limited sm) eqn:Hl; [by apply step_limited|].
  apply orb_false_iff in Hl as [Hl1 Hl2].
  assert (E : Step sm = eap_peer_sm_step_local methods sha1 alloc_ok sm).
  { unfold sm_EAP_Step, restarting, disabled in *. by rewrite Hr, Hd, Hl1, Hl2. }
  destruct (step_local_descends sm Hok Hr Hd) as [Es|(st & q & (sm' & Es & He) & H1 & H2)].
  - exists sm. rewrite E. split_and!; [done|done|apply reach_refl|congruence|]. left. exists sm. by rewrite E.
  - exists sm'. pose proof He as (_ & Hch & (Hreach & _) & _ & Hok').
    split_and!; [by rewrite E|done|done| |congruence].
    intros _. pose proof (rank_enters st q sm sm' Hr Hd He).
    assert (rank sm = state_rank (EAP_state sm) (req sm)) as ->; [|lia].
    unfold rank. by rewrite Hr, Hd, Hl1, Hl2.
Qed.

Lemma loop_stops fuel res sm :
  eap_ok sm → (rank sm < fuel)%nat →
  ∃ res' sm', eap_peer_sm_loop methods sha1 alloc_ok fuel res sm = Some (Ret (res', sm')) ∧
    eap_ok sm' ∧ reach (eapol_ctx sm) (eapol_ctx sm') ∧ changed sm' = false ∧
    (settled sm' ∨ EAP_state sm' = EAP_INITIALIZE).
Proof.
  revert res sm. induction fuel as [|fuel IH]; intros res sm Hok Hf; [lia|]. simpl.
  set (sm0 := sm <| changed := false |>).
  assert (Hok0 : eap_ok sm0) by (split; simpl; eauto with eap).
  change (rank sm) with (rank sm0) in Hf.
  destruct (step_good sm0 Hok0 eq_refl) as (sm1 & E & Hok1 & Hreach & Hlt & Hset).
  fold sm0 in E. change {| EAP_state := _ |} with sm0. rewrite E.
  destruct (changed sm1) eqn:Hc.
  { destruct (IH true sm1 Hok1) as (res' & sm' & -> & ? & ? & ? & ?);
      [specialize (Hlt eq_refl); lia|].
    exists res', sm'. split_and!; try done. by eapply reach_trans. }
  exists res, sm1. split_and!; try done. by apply Hset.
Qed.

(** C18: from every state that satisfies the invariant, [eap_peer_sm_step] returns:
    no access leaves a buffer, no buffer overflows, and sixteen passes of the loop
    are enough.  The invariant holds again, and no transition is left, but for the
    one out of INITIALIZE when EAP was restarted there. *)
Theorem eap_peer_sm_step_stops sm :
  eap_ok sm →
  ∃ res sm', eap_peer_sm_step methods sha1 alloc_ok sm = Some (Ret (res, sm')) ∧
    eap_ok sm' ∧ (settled sm' ∨ EAP_state sm' = EAP_INITIALIZE).
Proof.
  intros Hok. pose proof (rank_le_10 sm).
  destruct (loop_stops 16 false sm Hok) as (res & sm' & ? & ? & _ & _ & ?); [lia|].
  by exists res, sm'.
Qed.

(** ** Success *)
Abbreviation success sm := (eapol_get_bool sm EAPOL_eapSuccess).

(** The peer's policy is satisfied, or the configuration accepts an EAP-Success
    that no method stands behind. *)
Definition success_sound sm : Prop :=
  decision sm ≠ DECISION_FAIL ∨
  (rxSuccess sm = true ∧ workaround sm = true ∧ eap_peer_sm_allow_canned sm = true).

Definition success_inv sm : Prop :=
  success sm = true →
  success_sound sm ∧ EAP_state sm ∈ [EAP_SUCCESS; EAP_FAILURE; EAP_DISABLED].

(** Fields that success depends on. *)
Definition same_verdict sm sm' : Prop :=
  decision sm' = decision sm ∧ rxSuccess sm' = rxSuccess sm ∧ workaround sm' = workaround sm ∧
  eap_get_config sm' = eap_get_config sm.

Lemma success_sound_same sm sm' : same_verdict sm sm' → success_sound sm → success_sound sm'.
Proof.
  intros (E1 & E2 & E3 & E4). unfold success_sound, eap_peer_sm_allow_canned.
  by rewrite E1, E2, E3, E4.
Qed.

Lemma enter_success_verdict sm g : same_verdict sm (sm_EAP_SUCCESS_Enter sm g).
Proof.
  unfold sm_EAP_SUCCESS_Enter, SM_ENTRY, same_verdict, eap_get_config.
  destruct (negb g || _); simpl; destruct (eapKeyData sm); simpl;
    by rewrite !config_set_bool.
Qed.

Lemma success_inv_enter st q sm r sm' :
  success sm = false → entry st q sm r → r = Ret sm' → st ≠ EAP_SUCCESS → success_inv sm'.
Proof.
  intros Hs (s & -> & (Es & _ & (_ & Hk & _) & _)) [= ->] Hst Hs'.
  destruct (Hk Hs') as [?|?]; congruence.
Qed.

Lemma success_inv_success sm :
  success_sound sm → success_inv (sm_EAP_SUCCESS_Enter sm false).
Proof.
  intros Hs _. split; [eapply success_sound_same; [apply enter_success_verdict|done]|].
  assert (EAP_state (sm_EAP_SUCCESS_Enter sm false) = EAP_SUCCESS) as ->; [|set_solver].
  unfold sm_EAP_SUCCESS_Enter, SM_ENTRY. simpl. by destruct (eapKeyData sm).
Qed.

#[local] Opaque sm_EAP_INITIALIZE_Enter sm_EAP_IDLE_Enter sm_EAP_RECEIVED_Enter
  sm_EAP_GET_METHOD_Enter sm_EAP_METHOD_Enter sm_EAP_SEND_RESPONSE_Enter
  sm_EAP_DISCARD_Enter sm_EAP_IDENTITY_Enter sm_EAP_NOTIFICATION_Enter
  sm_EAP_RETRANSMIT_Enter sm_EAP_SUCCESS_Enter sm_EAP_FAILURE_Enter.

Lemma no_success_inv sm : success sm = false → success_inv sm.
Proof. intros E ?. congruence. Qed.

Tactic Notation "no_success" uconstr(l) :=
  eapply success_inv_enter;
  [done | first [by apply l | by apply entry_ret, l] | reflexivity || eassumption | done].

(** Split the conjunctions of a guard that held. *)
Ltac split_guard :=
  repeat match goal with
    | E : _ && _ = true |- _ => apply andb_true_iff in E as [? E]
    | E : bool_decide _ = true |- _ => apply bool_decide_eq_true_1 in E
    end.

Lemma received_success sm sm' :
  eap_ok sm → success sm = false →
  eap_peer_sm_step_received methods alloc_ok sm = Ret sm' → success_inv sm'.
Proof.
  intros Hok Hs. unfold eap_peer_sm_step_received. cbv zeta.
  repeat match goal with
    |- context [if ?b then Ret (sm_EAP_SUCCESS_Enter _ _) else _] =>
       destruct b eqn:?; [intros [= <-]; apply success_inv_success; unfold success_sound; split_guard; by auto|]
    | |- context [if ?b then Ret (sm_EAP_FAILURE_Enter _ _) else _] =>
       destruct b; [intros [= <-]; no_success enter_failure|]
    end.
  repeat match goal with |- (if ?b then _ else _) = _ → _ => destruct b end; intros E;
    first [no_success enter_retransmit | no_success enter_notification
          | no_success enter_identity | no_success enter_get_method | no_success enter_method
          | no_success enter_send_response | no_success enter_discard].
Qed.

Lemma idle_success sm sm' :
  eap_ok sm → success sm = false →
  eap_peer_sm_step_idle sha1 sm = Ret sm' → success_inv sm'.
Proof.
  intros Hok Hs. unfold eap_peer_sm_step_idle. cbv zeta.
  destruct (eapol_get_bool sm EAPOL_eapReq); [intros E; no_success enter_received|].
  repeat match goal with |- (if ?b then _ else _) = _ → _ => destruct b eqn:? end;
    intros [= <-];
    first [by apply no_success_inv | no_success enter_failure
          | apply success_inv_success; left;
            repeat match goal with E : _ = false |- _ => clear E end;
            rewrite ?orb_true_iff, ?andb_true_iff, ?bool_decide_eq_true in *;
            intuition congruence].
Qed.

Lemma local_success sm sm' :
  eap_ok sm → restarting sm = false → disabled sm = false → success_inv sm →
  eap_peer_sm_step_local methods sha1 alloc_ok sm = Ret sm' → success_inv sm'.
Proof.
  intros Hok Hr Hd Hi. unfold eap_peer_sm_step_local.
  apply orb_false_iff in Hd as [Hp%negb_false_iff Hf].
  destruct (decide (EAP_state sm ∈ [EAP_SUCCESS; EAP_FAILURE; EAP_DISABLED])) as [Hst|Hst].
  { assert (EAP_state sm = EAP_SUCCESS ∨ EAP_state sm = EAP_FAILURE ∨
            EAP_state sm = EAP_DISABLED) as [->|[->| ->]] by set_solver.
    1, 2: by intros [= <-].
    destruct (_ && _); intros [= <-]; [|done]. apply no_success_inv.
    by destruct (enter_initialize methods sm false Hok) as (_&_&_&_&_&_&_&_&_&?&_). }
  assert (Hs : success sm = false).
  { destruct (success sm) eqn:E; [|done]. by destruct (Hi E). }
  destruct (EAP_state sm) eqn:Est; try (by destruct Hst; set_solver);
    try (by apply idle_success); try (by apply received_success).
  - intros [= <-]. no_success enter_idle.
  - case_bool_decide; intros E; [no_success enter_method|no_success enter_send_response].
  - destruct (ignore sm); [intros [= <-]; no_success enter_discard|].
    destruct (_ && _); [intros [= <-]; no_success enter_failure|].
    intros E. no_success enter_send_response.
  - intros [= <-]. no_success enter_idle.
  - intros [= <-]. no_success enter_idle.
  - intros E. no_success enter_send_response.
  - intros E. no_success enter_send_response.
  - intros E. no_success enter_send_response.
Qed.

#[local] Transparent sm_EAP_FAILURE_Enter.

Lemma success_inv_same sm sm' :
  (success sm' = true → success sm = true) → same_verdict sm sm' →
  EAP_state sm' = EAP_FAILURE ∨ EAP_state sm' = EAP_DISABLED →
  success_inv sm → success_inv sm'.
Proof.
  intros Hs Hv Hst Hi Hs'. destruct (Hi (Hs Hs')) as [? _]. split.
  - by eapply success_sound_same.
  - destruct Hst as [-> | ->]; set_solver.
Qed.

Lemma step_success sm sm' :
  eap_ok sm → success_inv sm → Step sm = Ret sm' → success_inv sm'.
Proof.
  intros Hok Hi. unfold sm_EAP_Step.
  destruct (eapol_get_bool sm EAPOL_eapRestart && _) eqn:Hr.
  { intros [= <-]. apply no_success_inv.
    by destruct (enter_initialize methods sm true Hok) as (_&_&_&_&_&_&_&_&_&?&_). }
  destruct (negb (eapol_get_bool sm EAPOL_portEnabled) || force_disabled sm) eqn:Hd.
  { intros [= <-]. revert Hi. apply success_inv_same; unfold sm_EAP_DISABLED_Enter,
      SM_ENTRY, same_verdict, eap_get_config; simpl; try case_bool_decide; eapol_simpl;
      rewrite ?config_idle; auto. }
  assert (Hfail : ∀ n k, success_inv (sm_EAP_FAILURE_Enter
            (sm <| num_rounds := n |> <| num_rounds_short := k |>) true)).
  { intros n k. revert Hi. apply success_inv_same; unfold sm_EAP_FAILURE_Enter,
      SM_ENTRY, same_verdict, eap_get_config; simpl; try case_bool_decide; eapol_simpl;
      rewrite ?config_set_bool; auto. }
  destruct (bool_decide (EAP_MAX_AUTH_ROUNDS < num_rounds sm)).
  { case_bool_decide; intros [= <-]; [apply (Hfail _ (num_rounds_short sm))|done]. }
  destruct (bool_decide (EAP_MAX_AUTH_ROUNDS_SHORT < num_rounds_short sm)).
  { case_bool_decide; intros [= <-]; [apply (Hfail (num_rounds sm))|done]. }
  by apply local_success.
Qed.

Lemma loop_success fuel res sm res' sm' :
  eap_ok sm → success_inv sm →
  eap_peer_sm_loop methods sha1 alloc_ok fuel res sm = Some (Ret (res', sm')) → success_inv sm'.
Proof.
  revert res sm. induction fuel as [|fuel IH]; intros res sm Hok Hi; [done|]. simpl.
  set (sm0 := sm <| changed := false |>). change {| EAP_state := _ |} with sm0.
  assert (Hok0 : eap_ok sm0) by (split; simpl; eauto with eap).
  destruct (step_good sm0 Hok0 eq_refl) as (sm1 & E & Hok1 & _). rewrite E.
  assert (Hi1 : success_inv sm1) by (by eapply (step_success sm0)).
  destruct (changed sm1); [by apply IH|]. by intros [= _ <-].
Qed.

(** C14: a run of [eap_peer_sm_step] that turns eapSuccess on ends with a decision that is not
    FAIL, or with an EAP-Success received (rxSuccess) while the workaround and the
    configuration allow canned success.  (With altAccept and a decision that is not FAIL the
    machine succeeds also after an EAP-Failure: then the first case holds.) *)
Theorem eap_success_sound sm res sm' :
  eap_ok sm → success sm = false →
  eap_peer_sm_step methods sha1 alloc_ok sm = Some (Ret (res, sm')) →
  success sm' = true →
  decision sm' ≠ DECISION_FAIL ∨
  (rxSuccess sm' = true ∧ workaround sm' = true ∧ eap_peer_sm_allow_canned sm' = true).
Proof.
  intros Hok Hs E Hs'.
  destruct (loop_success 16 false sm res sm' Hok (no_success_inv sm Hs) E Hs') as [? _]. done.
Qed.

(** ** Retransmission *)
#[local] Transparent sm_EAP_RETRANSMIT_Enter sm_EAP_SEND_RESPONSE_Enter.

Lemma step_is_local sm :
  restarting sm = false → disabled sm = false → limited sm = false →
  Step sm = eap_peer_sm_step_local methods sha1 alloc_ok sm.
Proof.
  intros Hr Hd [Hl1 Hl2]%orb_false_iff. unfold sm_EAP_Step, restarting, disabled in *.
  by rewrite Hr, Hd, Hl1, Hl2.
Qed.

(** The state of the method that authenticates the peer. *)
Definition same_method sm sm' : Prop :=
  m sm' = m sm ∧ eap_method_priv sm' = eap_method_priv sm ∧ mv sm' = mv sm ∧
  methodState sm' = methodState sm ∧ decision sm' = decision sm ∧
  selectedMethod sm' = selectedMethod sm ∧ eapKeyData sm' = eapKeyData sm.

Lemma send_response_spec sm r :
  wf r → eapRespData sm = Some r → (∀ n, alloc_ok n = true) →
  ∃ sm' d, sm_EAP_SEND_RESPONSE_Enter alloc_ok sm false = Ret sm' ∧
    EAP_state sm' = EAP_SEND_RESPONSE ∧ eapRespData sm' = Some r ∧
    lastRespData sm' = Some d ∧ contents d = contents r ∧ lastId sm' = reqId sm ∧
    eapol_get_bool sm' EAPOL_eapResp = true ∧ req sm' = false ∧ same_method sm sm'.
Proof.
  intros Hw Er Ha. destruct (wpabuf_dup_spec r Hw) as (_ & d & Ed & _ & Hc & _).
  unfold sm_EAP_SEND_RESPONSE_Enter. set (sm1 := SM_ENTRY sm false EAP_SEND_RESPONSE).
  assert (H1 : EAP_state sm1 = EAP_SEND_RESPONSE ∧ eapRespData sm1 = Some r ∧
               reqId sm1 = reqId sm ∧ same_method sm sm1).
  { unfold same_method. by split_and!. }
  clearbody sm1. destruct H1 as (Es1 & Er1 & Ei1 & Hm1). cbv zeta. rewrite Er1.
  assert (H2 : EAP_state (send_response_note sm1 r) = EAP_SEND_RESPONSE ∧
               eapRespData (send_response_note sm1 r) = Some r ∧
               lastId (send_response_note sm1 r) = reqId sm ∧
               same_method sm (send_response_note sm1 r)).
  { unfold send_response_note, same_method in *.
    case_bool_decide; simpl; destruct (workaround sm1); simpl; by rewrite Er1, Ei1, Es1. }
  set (sm2 := send_response_note sm1 r) in *. clearbody sm2.
  destruct H2 as (Es2 & Er2 & Ei2 & Hm2). simpl. rewrite Ha, Ed. simpl.
  eexists _, d. split; [reflexivity|]. eapol_simpl. by split_and!.
Qed.

(** C19: a request that repeats the last one is answered with the last response, octet
    for octet, and is not shown to the method. *)
Theorem duplicate_request_retransmits sm r :
  eap_ok sm → restarting sm = false → disabled sm = false → limited sm = false →
  EAP_state sm = EAP_RECEIVED → rxReq sm = true → rxSuccess sm = false →
  rxFailure sm = false → eap_peer_req_is_duplicate sm = true →
  lastRespData sm = Some r → (∀ n, alloc_ok n = true) →
  ∃ sm1 sm2 d d', Step sm = Ret sm1 ∧ Step (sm1 <| changed := false |>) = Ret sm2 ∧
    EAP_state sm2 = EAP_SEND_RESPONSE ∧
    eapRespData sm2 = Some d ∧ contents d = contents r ∧
    lastRespData sm2 = Some d' ∧ contents d' = contents r ∧
    eapol_get_bool sm2 EAPOL_eapResp = true ∧ req sm2 = false ∧ same_method sm sm2.
Proof.
  intros Hok Hr Hd Hl Est Hreq Hsu Hfa Hdup Hlast Ha.
  pose proof (ok_last _ _ Hok) as Hw. rewrite Hlast in Hw. simpl in Hw.
  destruct (wpabuf_dup_spec r Hw) as (_ & d & Ed & Wd & Hc & _).
  set (sm1 := sm <| changed := true |> <| EAP_state := EAP_RETRANSMIT |>
                 <| n_alloc ::= Datatypes.S |> <| eapRespData := Some d |>).
  assert (E1 : Step sm = Ret sm1).
  { rewrite step_is_local by done. unfold eap_peer_sm_step_local. rewrite Est.
    unfold eap_peer_sm_step_received. rewrite Hreq, Hsu, Hfa, Hdup. simpl.
    rewrite ?andb_false_r. simpl. rewrite ?andb_false_r. simpl.
    unfold sm_EAP_RETRANSMIT_Enter, SM_ENTRY. simpl. rewrite Hlast, Ha, Ed. subst sm1.
    simpl. by rewrite Hlast. }
  destruct (send_response_spec (sm1 <| changed := false |>) d Wd ltac:(done) Ha)
    as (sm2 & d' & E2 & ? & ? & ? & Hc' & _ & ? & ? & Hm).
  exists sm1, sm2, d, d'. split_and!; try done; [|congruence].
  rewrite step_is_local by done. exact E2.
Qed.
End termination.

(** ** Concrete runs *)
Section nak.
Context {S P : Type} `{EapolCallbacksSpec S}.
Variable methods : list (eap_method P).
Implicit Types sm : eap_sm S P.

(** C20: the Nak for a request of a legacy type, when its buffer is allocated, is a
    well-formed response with the list of [nak_types]: the types of the allowed IETF methods
    but the requested one, in the order of their registration, and a single octet 254 where
    the first allowed vendor method stands, or type 0 when nothing is acceptable; its length
    field covers it. *)
Theorem eap_sm_buildNak_lists_allowed sm id :
  methods_ok methods → methods ≠ [] → reqMethod sm ≠ EAP_TYPE_EXPANDED →
  ∃ b, eap_sm_buildNak methods sm id true = Ret (Some b) ∧ wf b ∧
       nak_message methods sm id (contents b).
Proof. intros. by eapply buildNak_spec. Qed.

(** The Nak for an expanded request has the expanded format and lists the vendor
    and type of every allowed method other than the requested one. *)
Theorem eap_sm_buildNak_expanded_lists_allowed sm id :
  methods_ok methods → methods ≠ [] → reqMethod sm = EAP_TYPE_EXPANDED →
  ∃ b, eap_sm_buildNak methods sm id true = Ret (Some b) ∧ wf b ∧
       expanded_nak_message methods sm id (contents b).
Proof.
  intros Hm Hne He. unfold eap_sm_buildNak.
  rewrite (bool_decide_eq_false_2 (methods = [])), (bool_decide_eq_true_2 _ He) by done.
  by eapply build_expanded_nak_spec.
Qed.
End nak.

Module Run.
(** A method of type 26 that answers every request with an empty message and is
    content after the first one. *)
Definition echo : eap_method unit := {|
  vendor := 0; method := 26;
  init v := (v, Some tt);
  deinit v _ := v;
  process v p r b :=
    (v, p, mk_ret false METHOD_DONE DECISION_UNCOND_SUCC false,
     Some (mk_wpabuf 5 5 [2; 7; 0; 5; 26] false));
  isKeyAvailable := None; getKey := None; has_reauth_data := None;
  deinit_for_reauth p := p; init_for_reauth v p := (v, Some p);
  get_identity := None; get_error_code := None; getSessionId := None;
|}.
Definition methods := [echo].
Definition sha1 (_ : list Z) := replicate 20 0.
Definition alloc_ok (_ : nat) := true.
Definition up (v : eapol_bool_var) : bool :=
  match v with EAPOL_portEnabled => true | _ => false end.
Definition request (l : list Z) : wpabuf := mk_wpabuf (blen l) (blen l) l false.
(** A port that is up, with a request waiting. *)
Definition lower (b : wpabuf) : eapol_cells :=
  set_bool EAPOL_eapReq true (mk_cells up 60 (Some b) None).
Definition idle (b : wpabuf) : eap_sm eapol_cells unit :=
  (eap_peer_sm_init (lower b) O) <| EAP_state := EAP_IDLE |> <| lastId := -1 |>
    <| allowNotifications := true |>.

Lemma methods_are_ok : methods_ok methods.
Proof.
  split; [|done]. repeat constructor; simpl.
  - intros v p r b v' p' r' resp _ [= <- <- <- <-]. by split_and!.
  - done.
Qed.

Lemma peer_request_ok (l : list Z) :
  bytes_ok l → blen l < 2 ^ 32 → ctx_ok (lower (request l)).
Proof.
  intros Hl Hb. split; [|done]. intros b [= <-]. split; [|done].
  unfold wf. simpl. lia.
Qed.

Definition ping : list Z := [1; 7; 0; 5; 26].

Lemma idle_ok : eap_ok methods (idle (request ping)).
Proof.
  split; [|done..]. apply peer_request_ok; [|done]. unfold ping.
  repeat constructor; by unfold is_byte.
Qed.

(** The lower layer reports success for a peer that is content. *)
Definition accepting : eap_sm eapol_cells unit :=
  (idle (request ping)) <| decision := DECISION_COND_SUCC |>
    <| eapol_ctx ::= λ c, set_bool EAPOL_altAccept true (set_bool EAPOL_eapReq false c) |>.
(** The request with identifier 7 came twice. *)
Definition repeated : eap_sm eapol_cells unit :=
  (idle (request ping)) <| EAP_state := EAP_RECEIVED |> <| rxReq := true |> <| reqId := 7 |>
    <| lastId := 7 |> <| lastRespData := Some (request [2; 7; 0; 5; 26]) |>.

Definition result (sm : eap_sm eapol_cells unit) : eap_sm eapol_cells unit :=
  match eap_peer_sm_step methods sha1 alloc_ok sm with
  | Some (Ret (_, sm')) => sm'
  | _ => sm
  end.

Lemma accepting_ok : eap_ok methods accepting.
Proof.
  split; [|done..]. destruct (ok_ctx _ _ idle_ok) as [? ?]. by split.
Qed.

Lemma repeated_ok : eap_ok methods repeated.
Proof.
  split; [apply idle_ok|done| |done]. by split_and!.
Qed.
End Run.

Example eap_success_sound_witness :
  let sm' := Run.result Run.accepting in
  decision sm' ≠ DECISION_FAIL ∨
  (rxSuccess sm' = true ∧ workaround sm' = true ∧ eap_peer_sm_allow_canned sm' = true).
Proof.
  apply (eap_success_sound Run.methods Run.sha1 Run.alloc_ok Run.methods_are_ok
    Run.accepting true); [apply Run.accepting_ok|vm_compute; reflexivity..].
Defined.

Example duplicate_request_retransmits_witness :
  ∃ sm1 sm2 d d',
    sm_EAP_Step Run.methods Run.sha1 Run.alloc_ok Run.repeated = Ret sm1 ∧
    sm_EAP_Step Run.methods Run.sha1 Run.alloc_ok (sm1 <| changed := false |>) = Ret sm2 ∧
    EAP_state sm2 = EAP_SEND_RESPONSE ∧
    eapRespData sm2 = Some d ∧ contents d = contents (Run.request [2; 7; 0; 5; 26]) ∧
    lastRespData sm2 = Some d' ∧ contents d' = contents (Run.request [2; 7; 0; 5; 26]) ∧
    eapol_get_bool sm2 EAPOL_eapResp = true ∧ eapol_get_bool sm2 EAPOL_eapReq = false ∧
    same_method Run.repeated sm2.
Proof.
  apply (duplicate_request_retransmits Run.methods Run.sha1 Run.alloc_ok);
    [apply Run.repeated_ok|vm_compute; reflexivity..|done].
Defined.

Example eap_sm_buildNak_lists_allowed_witness :
  ∃ b, eap_sm_buildNak Run.methods Run.repeated 7 true = Ret (Some b) ∧ wf b ∧
       nak_message Run.methods Run.repeated 7 (contents b).
Proof.
  apply eap_sm_buildNak_lists_allowed; [apply Run.methods_are_ok|discriminate|discriminate].
Defined.

Example eap_sm_buildNak_expanded_lists_allowed_witness :
  ∃ b, eap_sm_buildNak Run.methods (Run.repeated <| reqMethod := 254 |>) 7 true = Ret (Some b) ∧
       wf b ∧
       expanded_nak_message Run.methods (Run.repeated <| reqMethod := 254 |>) 7 (contents b).
Proof.
  apply eap_sm_buildNak_expanded_lists_allowed;
    [apply Run.methods_are_ok|discriminate|reflexivity].
Defined.

Example eap_peer_sm_step_stops_witness :
  ∃ res sm', eap_peer_sm_step Run.methods Run.sha1 Run.alloc_ok (Run.idle (Run.request Run.ping))
    = Some (Ret (res, sm')) ∧ eap_ok Run.methods sm' ∧
    (settled Run.methods Run.sha1 Run.alloc_ok sm' ∨ EAP_state sm' = EAP_INITIALIZE).
Proof.
  apply (eap_peer_sm_step_stops Run.methods Run.sha1 Run.alloc_ok Run.methods_are_ok).
  apply Run.idle_ok.
Defined.
