(* ===== verification/EapolSupp.v ===== *)
(** EAPOL supplicant state machines (src/eapol_supp/eapol_supp_sm.c)

    Three machines of IEEE 802.1X-2004 share struct eapol_sm: the supplicant PAE,
    the key receiver and the backend.  [eapol_sm] is that structure without its
    pointer to the EAP machine; the two machines together are a [world], an EAP
    machine whose lower layer is an [eapol_sm], and the callbacks of eapol_cb are
    the instance [eapol_cb] of [EapolCallbacks].

    Calls out of the module through struct eapol_ctx, and the timers it registers,
    are recorded in [trace], newest first.  None of the callbacks reenters the
    module.  [timer_ok] is whether eloop_register_timeout succeeds and
    [confirm_auth] the answer of confirm_auth_cb, both functions of what happened
    before. *)
From S2P Require Import Prelude Bytes Wpabuf EapCommon EapPeer.

(** ** State *)
Inductive PortStatus := Unauthorized | Authorized.
Inductive PortControl := Auto | ForceUnauthorized | ForceAuthorized.
Inductive supp_pae_state :=
| SUPP_PAE_UNKNOWN | SUPP_PAE_DISCONNECTED | SUPP_PAE_LOGOFF | SUPP_PAE_CONNECTING
| SUPP_PAE_AUTHENTICATING | SUPP_PAE_AUTHENTICATED | SUPP_PAE_HELD | SUPP_PAE_RESTART
| SUPP_PAE_S_FORCE_AUTH | SUPP_PAE_S_FORCE_UNAUTH.
Inductive key_rx_state := KEY_RX_UNKNOWN | KEY_RX_NO_KEY_RECEIVE | KEY_RX_KEY_RECEIVE.
Inductive supp_be_state :=
| SUPP_BE_UNKNOWN | SUPP_BE_INITIALIZE | SUPP_BE_IDLE | SUPP_BE_REQUEST | SUPP_BE_RECEIVE
| SUPP_BE_RESPONSE | SUPP_BE_FAIL | SUPP_BE_TIMEOUT | SUPP_BE_SUCCESS.
Inductive eapol_cb_status := EAPOL_CB_IN_PROGRESS | EAPOL_CB_SUCCESS | EAPOL_CB_FAILURE.
Inductive eapol_supp_result :=
| EAPOL_SUPP_RESULT_FAILURE | EAPOL_SUPP_RESULT_SUCCESS | EAPOL_SUPP_RESULT_EXPECTED_FAILURE.

#[export] Instance PortStatus_eq_dec : EqDecision PortStatus.
Proof. solve_decision. Defined.
#[export] Instance PortControl_eq_dec : EqDecision PortControl.
Proof. solve_decision. Defined.
#[export] Instance supp_pae_state_eq_dec : EqDecision supp_pae_state.
Proof. solve_decision. Defined.
#[export] Instance key_rx_state_eq_dec : EqDecision key_rx_state.
Proof. solve_decision. Defined.
#[export] Instance supp_be_state_eq_dec : EqDecision supp_be_state.
Proof. solve_decision. Defined.
#[export] Instance eapol_cb_status_eq_dec : EqDecision eapol_cb_status.
Proof. solve_decision. Defined.

Definition IEEE802_1X_TYPE_EAP_PACKET := 0.
Definition IEEE802_1X_TYPE_EAPOL_START := 1.
Definition IEEE802_1X_TYPE_EAPOL_LOGOFF := 2.
Definition IEEE802_1X_TYPE_EAPOL_KEY := 3.
Definition EAPOL_KEY_TYPE_RC4 := 1.
Definition EAPOL_KEY_TYPE_RSN := 2.
Definition EAPOL_KEY_TYPE_WPA := 254.
Definition EAPOL_PEER_IS_WPS20_AP := 2.
(** [sizeof(struct ieee802_1x_hdr)] and [sizeof(struct ieee802_1x_eapol_key)]. *)
Definition sizeof_ieee802_1x_hdr := 4.
Definition sizeof_ieee802_1x_eapol_key := 44.

Inductive eapol_event :=
| EvSend (type : Z) (data : list Z)
| EvPort (authorized : bool)
| EvResult (r : eapol_supp_result)
| EvDone
| EvAbortedCached
| EvConfirmAuth
| EvStatus (s : eap_status)
| EvEapError (code : Z)
| EvParamNeeded
| EvRegisterTick | EvCancelTick
| EvRegisterStep | EvCancelStep.

(** struct eapol_config *)
Record eapol_config := mk_eapol_config {
  accept_802_1x_keys : bool;
  required_keys : Z;
  conf_fast_reauth : bool;
  conf_workaround : bool;
  eap_disabled : bool;
  wps : Z;
}.
#[export] Instance eta_eapol_config : Eta eapol_config := λ c,
  mk_eapol_config (accept_802_1x_keys c) (required_keys c) (conf_fast_reauth c)
    (conf_workaround c) (eap_disabled c) (wps c).

(** struct eapol_sm without [eap]; [preauth] is a field of its struct eapol_ctx. *)
Record eapol_sm := mk_eapol {
  authWhile : Z; heldWhile : Z; startWhen : Z; idleWhile : Z;
  timer_tick_enabled : bool;
  eapFail : bool; eapolEap : bool; eapSuccess : bool; initialize : bool;
  keyDone : bool; keyRun : bool;
  portControl : PortControl;
  portEnabled : bool;
  suppPortStatus : PortStatus;
  portValid : bool;
  suppAbort : bool; suppFail : bool; suppStart : bool; suppSuccess : bool; suppTimeout : bool;
  SUPP_PAE_state : supp_pae_state;
  userLogoff : bool; logoffSent : bool;
  startCount : Z;
  eapRestart : bool;
  sPortMode : PortControl;
  heldPeriod : Z; startPeriod : Z; maxStart : Z;
  KEY_RX_state : key_rx_state;
  rxKey : bool;
  SUPP_BE_state : supp_be_state;
  eapNoResp : bool; eapReq : bool; eapResp : bool;
  authPeriod : Z;
  dot1xSuppEapolFramesRx : Z; dot1xSuppEapolFramesTx : Z;
  dot1xSuppEapolStartFramesTx : Z; dot1xSuppEapolLogoffFramesTx : Z;
  dot1xSuppEapolRespFramesTx : Z; dot1xSuppEapolReqIdFramesRx : Z;
  dot1xSuppEapolReqFramesRx : Z; dot1xSuppInvalidEapolFramesRx : Z;
  dot1xSuppEapLengthErrorFramesRx : Z; dot1xSuppLastEapolFrameVersion : Z;
  dot1xSuppLastEapolFrameSource : list Z;
  sm_changed : bool;
  config : option eap_peer_config;
  initial_req : bool;
  last_rx_key : option (list Z);
  eapReqData : option wpabuf;
  altAccept : bool; altReject : bool; eapTriggerStart : bool;
  replay_counter_valid : bool;
  conf : eapol_config;
  preauth : bool;
  cb_status : eapol_cb_status;
  cached_pmk : bool;
  unicast_key_received : bool; broadcast_key_received : bool;
  force_authorized_update : bool;
  trace : list eapol_event;
}.
#[export] Instance eta_eapol_sm : Eta eapol_sm := λ s,
  mk_eapol (authWhile s) (heldWhile s) (startWhen s) (idleWhile s) (timer_tick_enabled s)
    (eapFail s) (eapolEap s) (eapSuccess s) (initialize s) (keyDone s) (keyRun s)
    (portControl s) (portEnabled s) (suppPortStatus s) (portValid s) (suppAbort s)
    (suppFail s) (suppStart s) (suppSuccess s) (suppTimeout s) (SUPP_PAE_state s)
    (userLogoff s) (logoffSent s) (startCount s) (eapRestart s) (sPortMode s)
    (heldPeriod s) (startPeriod s) (maxStart s) (KEY_RX_state s) (rxKey s)
    (SUPP_BE_state s) (eapNoResp s) (eapReq s) (eapResp s) (authPeriod s)
    (dot1xSuppEapolFramesRx s) (dot1xSuppEapolFramesTx s) (dot1xSuppEapolStartFramesTx s)
    (dot1xSuppEapolLogoffFramesTx s) (dot1xSuppEapolRespFramesTx s)
    (dot1xSuppEapolReqIdFramesRx s) (dot1xSuppEapolReqFramesRx s)
    (dot1xSuppInvalidEapolFramesRx s) (dot1xSuppEapLengthErrorFramesRx s)
    (dot1xSuppLastEapolFrameVersion s) (dot1xSuppLastEapolFrameSource s) (sm_changed s)
    (config s) (initial_req s) (last_rx_key s) (eapReqData s) (altAccept s) (altReject s)
    (eapTriggerStart s) (replay_counter_valid s) (conf s) (preauth s) (cb_status s)
    (cached_pmk s) (unicast_key_received s) (broadcast_key_received s)
    (force_authorized_update s) (trace s).

Section eapol_supp.
Variable timer_ok : list eapol_event → bool.
Variable confirm_auth : list eapol_event → bool.

Implicit Types sm : eapol_sm.

Definition emit sm (e : eapol_event) : eapol_sm := sm <| trace ::= cons e |>.

(** [eloop_register_timeout(1, 0, eapol_port_timers_tick)] *)
Definition register_tick sm : bool * eapol_sm :=
  (timer_ok (trace sm), emit sm EvRegisterTick).

Definition eapol_enable_timer_tick sm : eapol_sm :=
  if timer_tick_enabled sm then sm
  else
    let sm := emit sm EvCancelTick in
    let (ok, sm) := register_tick sm in
    if ok : bool then sm <| timer_tick_enabled := true |> else sm.

(** ** eapol_cb: what the EAP machine may call *)
Definition eapol_sm_get_bool sm (v : eapol_bool_var) : bool :=
  match v with
  | EAPOL_eapSuccess => eapSuccess sm
  | EAPOL_eapRestart => eapRestart sm
  | EAPOL_eapFail => eapFail sm
  | EAPOL_eapResp => eapResp sm
  | EAPOL_eapNoResp => eapNoResp sm
  | EAPOL_eapReq => eapReq sm
  | EAPOL_portEnabled => portEnabled sm
  | EAPOL_altAccept => altAccept sm
  | EAPOL_altReject => altReject sm
  | EAPOL_eapTriggerStart => eapTriggerStart sm
  end.

Definition eapol_sm_set_bool (v : eapol_bool_var) (value : bool) sm : eapol_sm :=
  match v with
  | EAPOL_eapSuccess => sm <| eapSuccess := value |>
  | EAPOL_eapRestart => sm <| eapRestart := value |>
  | EAPOL_eapFail => sm <| eapFail := value |>
  | EAPOL_eapResp => sm <| eapResp := value |>
  | EAPOL_eapNoResp => sm <| eapNoResp := value |>
  | EAPOL_eapReq => sm <| eapReq := value |>
  | EAPOL_portEnabled => sm <| portEnabled := value |>
  | EAPOL_altAccept => sm <| altAccept := value |>
  | EAPOL_altReject => sm <| altReject := value |>
  | EAPOL_eapTriggerStart => sm <| eapTriggerStart := value |>
  end.

Definition eapol_sm_set_int (value : Z) sm : eapol_sm :=
  let sm := sm <| idleWhile := value |> in
  if bool_decide (0 < idleWhile sm) then eapol_enable_timer_tick sm else sm.

Definition eapol_sm_notify_status (s : eap_status) sm : eapol_sm := emit sm (EvStatus s).
Definition eapol_sm_notify_eap_error (c : Z) sm : eapol_sm := emit sm (EvEapError c).
Definition eapol_sm_eap_param_needed sm : eapol_sm := emit sm EvParamNeeded.

#[local] Instance eapol_cb : EapolCallbacks eapol_sm := {|
  get_bool := eapol_sm_get_bool;
  set_bool := eapol_sm_set_bool;
  get_idleWhile := idleWhile;
  set_idleWhile := eapol_sm_set_int;
  get_eapReqData := eapReqData;
  get_config := config;
  put_config c sm := sm <| config ::= fmap (λ _, c) |>;
  notify_status := eapol_sm_notify_status;
  notify_eap_error := eapol_sm_notify_eap_error;
  eap_param_needed := eapol_sm_eap_param_needed;
|}.

(** ** The world: both machines *)
Context {P : Type}.
Variable methods : list (eap_method P).
Variable sha1 : list Z → list Z.
Variable alloc_ok : nat → bool.

Abbreviation world := (eap_sm eapol_sm P).
Implicit Types w : world.

(** Code of this module that only touches struct eapol_sm. *)
Definition on_sm (f : eapol_sm → eapol_sm) w : world := w <| eapol_ctx ::= f |>.

Definition PAE_ENTRY sm (global : bool) (st : supp_pae_state) : eapol_sm :=
  let sm := if negb global || bool_decide (SUPP_PAE_state sm ≠ st)
            then sm <| sm_changed := true |> else sm in
  sm <| SUPP_PAE_state := st |>.
Definition KEY_RX_ENTRY sm (global : bool) (st : key_rx_state) : eapol_sm :=
  let sm := if negb global || bool_decide (KEY_RX_state sm ≠ st)
            then sm <| sm_changed := true |> else sm in
  sm <| KEY_RX_state := st |>.
Definition BE_ENTRY sm (global : bool) (st : supp_be_state) : eapol_sm :=
  let sm := if negb global || bool_decide (SUPP_BE_state sm ≠ st)
            then sm <| sm_changed := true |> else sm in
  sm <| SUPP_BE_state := st |>.

Definition eapol_sm_txLogoff sm : eapol_sm :=
  let sm := emit sm (EvSend IEEE802_1X_TYPE_EAPOL_LOGOFF []) in
  sm <| dot1xSuppEapolLogoffFramesTx ::= λ n, u32 (n + 1) |>
     <| dot1xSuppEapolFramesTx ::= λ n, u32 (n + 1) |>.

Definition eapol_sm_txStart sm : eapol_sm :=
  let sm := emit sm (EvSend IEEE802_1X_TYPE_EAPOL_START []) in
  sm <| dot1xSuppEapolStartFramesTx ::= λ n, u32 (n + 1) |>
     <| dot1xSuppEapolFramesTx ::= λ n, u32 (n + 1) |>.

Definition eapol_sm_set_port_authorized sm : eapol_sm :=
  let cb := bool_decide (suppPortStatus sm ≠ Authorized) || force_authorized_update sm in
  let sm := sm <| force_authorized_update := false |> <| suppPortStatus := Authorized |> in
  if cb then emit sm (EvPort true) else sm.

Definition eapol_sm_set_port_unauthorized sm : eapol_sm :=
  let cb := bool_decide (suppPortStatus sm ≠ Unauthorized) || force_authorized_update sm in
  let sm := sm <| force_authorized_update := false |> <| suppPortStatus := Unauthorized |> in
  if cb then emit sm (EvPort false) else sm.

Definition sm_SUPP_PAE_LOGOFF_Enter sm (global : bool) : eapol_sm :=
  let sm := PAE_ENTRY sm global SUPP_PAE_LOGOFF in
  let sm := eapol_sm_txLogoff sm in
  let sm := sm <| logoffSent := true |> in
  eapol_sm_set_port_unauthorized sm.

Definition sm_SUPP_PAE_DISCONNECTED_Enter sm (global : bool) : eapol_sm :=
  let sm := PAE_ENTRY sm global SUPP_PAE_DISCONNECTED in
  let sm := sm <| sPortMode := Auto |> <| startCount := 0 |> <| eapTriggerStart := false |>
               <| logoffSent := false |> in
  let sm := eapol_sm_set_port_unauthorized sm in
  sm <| suppAbort := true |> <| unicast_key_received := false |>
     <| broadcast_key_received := false |> <| heldWhile := 0 |>.

Definition sm_SUPP_PAE_CONNECTING_Enter sm (global : bool) : eapol_sm :=
  let send_start := bool_decide (SUPP_PAE_state sm = SUPP_PAE_CONNECTING) ||
                    bool_decide (SUPP_PAE_state sm = SUPP_PAE_HELD) in
  let sm := PAE_ENTRY sm global SUPP_PAE_CONNECTING in
  let send_start := send_start || eapTriggerStart sm || preauth sm in
  let sm := sm <| eapTriggerStart := false |> in
  let sm :=
    if send_start then
      sm <| startWhen := startPeriod sm |> <| startCount ::= λ n, u32 (n + 1) |>
    else if bool_decide (wps (conf sm) ≠ 0) &&
            bool_decide (Z.land (wps (conf sm)) EAPOL_PEER_IS_WPS20_AP = 0)
    then sm <| startWhen := 1 |>
    else sm <| startWhen := 2 |> in
  let sm := eapol_enable_timer_tick sm in
  let sm := sm <| eapolEap := false |> in
  if send_start then eapol_sm_txStart sm else sm.

Definition sm_SUPP_PAE_AUTHENTICATING_Enter sm (global : bool) : eapol_sm :=
  let sm := PAE_ENTRY sm global SUPP_PAE_AUTHENTICATING in
  sm <| startCount := 0 |> <| suppSuccess := false |> <| suppFail := false |>
     <| suppTimeout := false |> <| keyRun := false |> <| keyDone := false |>
     <| suppStart := true |>.

Definition sm_SUPP_PAE_HELD_Enter sm (global : bool) : eapol_sm :=
  let sm := PAE_ENTRY sm global SUPP_PAE_HELD in
  let sm := sm <| heldWhile := heldPeriod sm |> in
  let sm := eapol_enable_timer_tick sm in
  let sm := eapol_sm_set_port_unauthorized sm in
  sm <| cb_status := EAPOL_CB_FAILURE |>.

Definition sm_SUPP_PAE_AUTHENTICATED_Enter sm (global : bool) : eapol_sm :=
  let sm := PAE_ENTRY sm global SUPP_PAE_AUTHENTICATED in
  let sm := eapol_sm_set_port_authorized sm in
  sm <| cb_status := EAPOL_CB_SUCCESS |>.

Definition eapol_sm_confirm_auth sm : bool * eapol_sm :=
  (confirm_auth (trace sm), emit sm EvConfirmAuth).

Definition sm_SUPP_PAE_RESTART_Enter sm (global : bool) : eapol_sm :=
  let (busy, sm) := eapol_sm_confirm_auth sm in
  if busy : bool then sm
  else
    let sm := PAE_ENTRY sm global SUPP_PAE_RESTART in
    let sm := sm <| eapRestart := true |> in
    if altAccept sm then sm <| eapSuccess := false |> <| altAccept := false |> else sm.

Definition sm_SUPP_PAE_S_FORCE_AUTH_Enter sm (global : bool) : eapol_sm :=
  let sm := PAE_ENTRY sm global SUPP_PAE_S_FORCE_AUTH in
  let sm := eapol_sm_set_port_authorized sm in
  sm <| sPortMode := ForceAuthorized |>.

Definition sm_SUPP_PAE_S_FORCE_UNAUTH_Enter sm (global : bool) : eapol_sm :=
  let sm := PAE_ENTRY sm global SUPP_PAE_S_FORCE_UNAUTH in
  let sm := eapol_sm_set_port_unauthorized sm in
  let sm := sm <| sPortMode := ForceUnauthorized |> in
  eapol_sm_txLogoff sm.

(** SM_STEP(SUPP_PAE), the part under [switch (sm->SUPP_PAE_state)]. *)
Definition supp_pae_step_local sm : eapol_sm :=
  let timeout := bool_decide (startWhen sm = 0) in
  match SUPP_PAE_state sm with
  | SUPP_PAE_UNKNOWN => sm
  | SUPP_PAE_LOGOFF =>
      if negb (userLogoff sm) then sm_SUPP_PAE_DISCONNECTED_Enter sm false else sm
  | SUPP_PAE_DISCONNECTED => sm_SUPP_PAE_CONNECTING_Enter sm false
  | SUPP_PAE_CONNECTING =>
      if timeout && bool_decide (startCount sm < maxStart sm)
      then sm_SUPP_PAE_CONNECTING_Enter sm false
      else if timeout && bool_decide (maxStart sm ≤ startCount sm) && portValid sm
      then sm_SUPP_PAE_AUTHENTICATED_Enter sm false
      else if eapSuccess sm || eapFail sm then sm_SUPP_PAE_AUTHENTICATING_Enter sm false
      else if eapolEap sm then sm_SUPP_PAE_RESTART_Enter sm false
      else if timeout && bool_decide (maxStart sm ≤ startCount sm) && negb (portValid sm)
      then sm_SUPP_PAE_HELD_Enter sm false
      else sm
  | SUPP_PAE_AUTHENTICATING =>
      let sm :=
        if eapSuccess sm && negb (portValid sm) && accept_802_1x_keys (conf sm) &&
           bool_decide (required_keys (conf sm) = 0)
        then emit (sm <| portValid := true |>) EvDone else sm in
      if eapSuccess sm && portValid sm then sm_SUPP_PAE_AUTHENTICATED_Enter sm false
      else if eapFail sm || (keyDone sm && negb (portValid sm))
      then sm_SUPP_PAE_HELD_Enter sm false
      else if suppTimeout sm then sm_SUPP_PAE_CONNECTING_Enter sm false
      else if eapTriggerStart sm then sm_SUPP_PAE_CONNECTING_Enter sm false
      else sm
  | SUPP_PAE_HELD =>
      if bool_decide (heldWhile sm = 0) then sm_SUPP_PAE_CONNECTING_Enter sm false
      else if eapolEap sm then sm_SUPP_PAE_RESTART_Enter sm false
      else sm
  | SUPP_PAE_AUTHENTICATED =>
      if eapolEap sm && portValid sm then sm_SUPP_PAE_RESTART_Enter sm false
      else if negb (portValid sm) then sm_SUPP_PAE_DISCONNECTED_Enter sm false
      else sm
  | SUPP_PAE_RESTART =>
      if negb (eapRestart sm) then sm_SUPP_PAE_AUTHENTICATING_Enter sm false else sm
  | SUPP_PAE_S_FORCE_AUTH => sm
  | SUPP_PAE_S_FORCE_UNAUTH => sm
  end.

(** SM_STEP(SUPP_PAE) *)
Definition sm_SUPP_PAE_Step sm : eapol_sm :=
  let off := initialize sm || negb (portEnabled sm) in
  let moved := bool_decide (sPortMode sm ≠ portControl sm) in
  if userLogoff sm && negb (logoffSent sm) && negb off
  then sm_SUPP_PAE_LOGOFF_Enter sm true
  else if (bool_decide (portControl sm = Auto) && moved) || off
  then sm_SUPP_PAE_DISCONNECTED_Enter sm true
  else if bool_decide (portControl sm = ForceAuthorized) && moved && negb off
  then sm_SUPP_PAE_S_FORCE_AUTH_Enter sm true
  else if bool_decide (portControl sm = ForceUnauthorized) && moved && negb off
  then sm_SUPP_PAE_S_FORCE_UNAUTH_Enter sm true
  else supp_pae_step_local sm.

Definition sm_KEY_RX_NO_KEY_RECEIVE_Enter sm (global : bool) : eapol_sm :=
  KEY_RX_ENTRY sm global KEY_RX_NO_KEY_RECEIVE.

(** [eapol_sm_processKey] has no code without CONFIG_WEP. *)
Definition sm_KEY_RX_KEY_RECEIVE_Enter sm (global : bool) : eapol_sm :=
  let sm := KEY_RX_ENTRY sm global KEY_RX_KEY_RECEIVE in
  sm <| rxKey := false |>.

(** SM_STEP(KEY_RX) *)
Definition sm_KEY_RX_Step sm : eapol_sm :=
  let sm := if initialize sm || negb (portEnabled sm)
            then sm_KEY_RX_NO_KEY_RECEIVE_Enter sm true else sm in
  match KEY_RX_state sm with
  | KEY_RX_UNKNOWN => sm
  | KEY_RX_NO_KEY_RECEIVE => if rxKey sm then sm_KEY_RX_KEY_RECEIVE_Enter sm false else sm
  | KEY_RX_KEY_RECEIVE => if rxKey sm then sm_KEY_RX_KEY_RECEIVE_Enter sm false else sm
  end.

(** ** The backend machine: it calls the EAP machine *)
Definition sm_SUPP_BE_REQUEST_Enter w (global : bool) : world :=
  on_sm (λ sm,
    let sm := BE_ENTRY sm global SUPP_BE_REQUEST in
    sm <| authWhile := 0 |> <| eapReq := true |>) w.

Definition eapol_sm_txSuppRsp w : outcome world :=
  let (resp, w) := eap_get_eapRespData w in
  match resp with
  | None => Ret w
  | Some resp =>
      d ← access (slice (mem resp) 0 (used resp));
      Ret (on_sm (λ sm,
        let sm := emit sm (EvSend IEEE802_1X_TYPE_EAP_PACKET d) in
        let sm := if initial_req sm
                  then sm <| dot1xSuppEapolReqIdFramesRx ::= λ n, u32 (n + 1) |>
                  else sm <| dot1xSuppEapolReqFramesRx ::= λ n, u32 (n + 1) |> in
        sm <| dot1xSuppEapolRespFramesTx ::= λ n, u32 (n + 1) |>
           <| dot1xSuppEapolFramesTx ::= λ n, u32 (n + 1) |>) w)
  end.

Definition sm_SUPP_BE_RESPONSE_Enter w (global : bool) : outcome world :=
  let w := on_sm (λ sm, BE_ENTRY sm global SUPP_BE_RESPONSE) w in
  w ← eapol_sm_txSuppRsp w;
  Ret (on_sm (λ sm, sm <| eapResp := false |>) w).

Definition sm_SUPP_BE_SUCCESS_Enter w (global : bool) : world :=
  let w := on_sm (λ sm,
    let sm := BE_ENTRY sm global SUPP_BE_SUCCESS in
    sm <| keyRun := true |> <| suppSuccess := true |>) w in
  if eap_key_available w then on_sm (λ sm, sm <| replay_counter_valid := false |>) w else w.

Definition sm_SUPP_BE_FAIL_Enter w (global : bool) : world :=
  on_sm (λ sm, (BE_ENTRY sm global SUPP_BE_FAIL) <| suppFail := true |>) w.
Definition sm_SUPP_BE_TIMEOUT_Enter w (global : bool) : world :=
  on_sm (λ sm, (BE_ENTRY sm global SUPP_BE_TIMEOUT) <| suppTimeout := true |>) w.
Definition sm_SUPP_BE_IDLE_Enter w (global : bool) : world :=
  on_sm (λ sm, (BE_ENTRY sm global SUPP_BE_IDLE) <| suppStart := false |>
                 <| initial_req := true |>) w.

Definition eapol_sm_abortSupp w : world :=
  let w := on_sm (λ sm, sm <| last_rx_key := None |> <| eapReqData := None |>) w in
  eap_sm_abort w.

Definition sm_SUPP_BE_INITIALIZE_Enter w (global : bool) : world :=
  let w := on_sm (λ sm, BE_ENTRY sm global SUPP_BE_INITIALIZE) w in
  let w := eapol_sm_abortSupp w in
  on_sm (λ sm, sm <| suppAbort := false |> <| authWhile := 0 |>) w.

Definition sm_SUPP_BE_RECEIVE_Enter w (global : bool) : world :=
  on_sm (λ sm,
    let sm := BE_ENTRY sm global SUPP_BE_RECEIVE in
    let sm := sm <| authWhile := authPeriod sm |> in
    let sm := eapol_enable_timer_tick sm in
    sm <| eapolEap := false |> <| eapNoResp := false |> <| initial_req := false |>) w.

(** SM_STEP(SUPP_BE) *)
Definition sm_SUPP_BE_Step w : outcome world :=
  let sm := eapol_ctx w in
  if initialize sm || suppAbort sm then Ret (sm_SUPP_BE_INITIALIZE_Enter w true)
  else
    match SUPP_BE_state sm with
    | SUPP_BE_UNKNOWN => Ret w
    | SUPP_BE_REQUEST =>
        if eapResp sm then sm_SUPP_BE_RESPONSE_Enter w false
        else if eapNoResp sm then Ret (sm_SUPP_BE_RECEIVE_Enter w false)
        else if eapFail sm then Ret (sm_SUPP_BE_FAIL_Enter w false)
        else if eapSuccess sm then Ret (sm_SUPP_BE_SUCCESS_Enter w false)
        else Ret w
    | SUPP_BE_RESPONSE => Ret (sm_SUPP_BE_RECEIVE_Enter w false)
    | SUPP_BE_SUCCESS => Ret (sm_SUPP_BE_IDLE_Enter w false)
    | SUPP_BE_FAIL => Ret (sm_SUPP_BE_IDLE_Enter w false)
    | SUPP_BE_TIMEOUT => Ret (sm_SUPP_BE_IDLE_Enter w false)
    | SUPP_BE_IDLE =>
        if eapFail sm && suppStart sm then Ret (sm_SUPP_BE_FAIL_Enter w false)
        else if eapolEap sm && suppStart sm then Ret (sm_SUPP_BE_REQUEST_Enter w false)
        else if eapSuccess sm && suppStart sm then Ret (sm_SUPP_BE_SUCCESS_Enter w false)
        else Ret w
    | SUPP_BE_INITIALIZE => Ret (sm_SUPP_BE_IDLE_Enter w false)
    | SUPP_BE_RECEIVE =>
        if eapolEap sm then Ret (sm_SUPP_BE_REQUEST_Enter w false)
        else if eapFail sm then Ret (sm_SUPP_BE_FAIL_Enter w false)
        else if bool_decide (authWhile sm = 0) then Ret (sm_SUPP_BE_TIMEOUT_Enter w false)
        else if eapSuccess sm then Ret (sm_SUPP_BE_SUCCESS_Enter w false)
        else Ret w
    end.

(** [eap_peer_sm_step], which never runs out of fuel. *)
Definition run_eap w : outcome (bool * world) :=
  match eap_peer_sm_step methods sha1 alloc_ok w with Some r => r | None => Undef end.

(** One pass of the loop in [eapol_sm_step]. *)
Definition eapol_sm_pass w : outcome world :=
  let w := on_sm (λ sm, sm <| sm_changed := false |>) w in
  let w := on_sm sm_SUPP_PAE_Step w in
  let w := on_sm sm_KEY_RX_Step w in
  w ← sm_SUPP_BE_Step w;
  '(res, w) ← run_eap w;
  Ret (if res : bool then on_sm (λ sm, sm <| sm_changed := true |>) w else w).

(** [n] passes at most. *)
Fixpoint eapol_sm_loop (n : nat) w : outcome world :=
  match n with
  | O => Ret w
  | Datatypes.S n =>
      w ← eapol_sm_pass w;
      if sm_changed (eapol_ctx w) then eapol_sm_loop n w else Ret w
  end.

Definition eapol_sm_step w : outcome world :=
  w ← eapol_sm_loop 100 w;
  let w := if sm_changed (eapol_ctx w)
           then on_sm (λ sm, emit (emit sm EvCancelStep) EvRegisterStep) w else w in
  let st := cb_status (eapol_ctx w) in
  if bool_decide (st ≠ EAPOL_CB_IN_PROGRESS) then
    let result :=
      if bool_decide (st = EAPOL_CB_SUCCESS) then EAPOL_SUPP_RESULT_SUCCESS
      else if eap_peer_was_failure_expected w then EAPOL_SUPP_RESULT_EXPECTED_FAILURE
      else EAPOL_SUPP_RESULT_FAILURE in
    Ret (on_sm (λ sm, emit (sm <| cb_status := EAPOL_CB_IN_PROGRESS |>) (EvResult result)) w)
  else Ret w.

(** ** Events *)

(** The handler of the timeout that [eapol_sm_step] registers. *)
Definition eapol_sm_step_timeout w : outcome world := eapol_sm_step w.

Definition timers_decrement sm : eapol_sm :=
  let dec n := if bool_decide (0 < n) then n - 1 else n in
  sm <| authWhile ::= dec |> <| heldWhile ::= dec |> <| startWhen ::= dec |>
     <| idleWhile ::= dec |>.

Definition eapol_port_timers_tick w : outcome world :=
  let w := on_sm timers_decrement w in
  let sm := eapol_ctx w in
  let w :=
    if bool_decide (Z.lor (Z.lor (Z.lor (authWhile sm) (heldWhile sm)) (startWhen sm))
                      (idleWhile sm) ≠ 0) then
      on_sm (λ sm, let (ok, sm) := register_tick sm in
                   if ok : bool then sm else sm <| timer_tick_enabled := false |>) w
    else on_sm (λ sm, sm <| timer_tick_enabled := false |>) w in
  eapol_sm_step w.

Definition eapol_sm_configure w (held auth start max : Z) : world :=
  on_sm (λ sm,
    let sm := if bool_decide (0 ≤ held) then sm <| heldPeriod := held |> else sm in
    let sm := if bool_decide (0 ≤ auth) then sm <| authPeriod := auth |> else sm in
    let sm := if bool_decide (0 ≤ start) then sm <| startPeriod := start |> else sm in
    if bool_decide (0 ≤ max) then sm <| maxStart := max |> else sm) w.

Definition eapol_sm_abort_cached w : world :=
  let w := on_sm (λ sm,
    sm <| cached_pmk := false |> <| SUPP_PAE_state := SUPP_PAE_CONNECTING |>) w in
  let w := on_sm eapol_sm_set_port_unauthorized w in
  let w := on_sm (λ sm, sm <| startWhen := 3 |>) w in
  let w := on_sm eapol_enable_timer_tick w in
  on_sm (λ sm, emit sm EvAbortedCached) w.

(** The payload length in the frame, or the one of the EAP header for WPS
    authenticators that get it wrong; the inner option is a length error. *)
Definition eapol_payload_len (c : eapol_config) (buf : list Z) : option (option Z) :=
  plen ← WPA_GET_BE16 buf 2;
  type ← rd buf 1;
  let room := blen buf - sizeof_ieee802_1x_hdr in
  if bool_decide (room < plen) then Some None
  else if bool_decide (wps c ≠ 0) && conf_workaround c && bool_decide (plen < room) &&
          bool_decide (type = IEEE802_1X_TYPE_EAP_PACKET) && bool_decide (sizeof_eap_hdr < room)
  then
    elen ← WPA_GET_BE16 buf (sizeof_ieee802_1x_hdr + 2);
    Some (Some (if bool_decide (plen < elen ∧ elen ≤ room) then elen else plen))
  else Some (Some plen).

(** The case IEEE802_1X_TYPE_EAP_PACKET of [eapol_sm_rx_eapol]. *)
Definition rx_eap_packet w (buf : list Z) (plen : Z) : outcome world :=
  let sm := eapol_ctx w in
  skip ← (if conf_workaround (conf sm) && bool_decide (sizeof_eap_hdr ≤ plen)
          then code ← access (rd buf sizeof_ieee802_1x_hdr); Ret (bool_decide (code = 10))
          else Ret false);
  if skip : bool then Ret w
  else
    let w := if cached_pmk sm then eapol_sm_abort_cached w else w in
    let (ok, w) := malloc alloc_ok w in
    d ← access (slice buf sizeof_ieee802_1x_hdr plen);
    data ← wpabuf_alloc_copy ok (Some d) plen;
    let w := on_sm (λ sm, sm <| eapReqData := data |>) w in
    match data with
    | Some _ => eapol_sm_step (on_sm (λ sm, sm <| eapolEap := true |>) w)
    | None => Ret w
    end.

(** The case IEEE802_1X_TYPE_EAPOL_KEY. *)
Definition rx_eapol_key w (buf : list Z) (plen : Z) : outcome (Z * world) :=
  if bool_decide (plen < sizeof_ieee802_1x_eapol_key) then Ret (1, w)
  else
    type ← access (rd buf sizeof_ieee802_1x_hdr);
    if bool_decide (type = EAPOL_KEY_TYPE_WPA ∨ type = EAPOL_KEY_TYPE_RSN) then Ret (0, w)
    else if bool_decide (type ≠ EAPOL_KEY_TYPE_RC4) then Ret (1, w)
    else
      let (ok, w) := malloc alloc_ok w in
      if ok : bool then
        d ← access (slice buf 0 (plen + sizeof_ieee802_1x_hdr));
        w ← eapol_sm_step (on_sm (λ sm, sm <| last_rx_key := Some d |> <| rxKey := true |>) w);
        Ret (1, w)
      else Ret (1, on_sm (λ sm, sm <| last_rx_key := None |>) w).

(** The result of [eapol_sm_rx_eapol], for the frame [buf] from [src]. *)
Definition eapol_sm_rx_eapol w (src buf : list Z) : outcome (Z * world) :=
  let w := on_sm (λ sm, sm <| dot1xSuppEapolFramesRx ::= λ n, u32 (n + 1) |>) w in
  if bool_decide (blen buf < sizeof_ieee802_1x_hdr)
  then Ret (0, on_sm (λ sm, sm <| dot1xSuppInvalidEapolFramesRx ::= λ n, u32 (n + 1) |>) w)
  else
    version ← access (rd buf 0);
    type ← access (rd buf 1);
    let w := on_sm (λ sm, sm <| dot1xSuppLastEapolFrameVersion := version |>
                             <| dot1xSuppLastEapolFrameSource := src |>) w in
    len ← access (eapol_payload_len (conf (eapol_ctx w)) buf);
    match len with
    | None =>
        Ret (0, on_sm (λ sm, sm <| dot1xSuppEapLengthErrorFramesRx ::= λ n, u32 (n + 1) |>) w)
    | Some plen =>
        if bool_decide (type = IEEE802_1X_TYPE_EAP_PACKET) then
          w ← rx_eap_packet w buf plen; Ret (1, w)
        else if bool_decide (type = IEEE802_1X_TYPE_EAPOL_KEY) then rx_eapol_key w buf plen
        else
          Ret (1, on_sm (λ sm, sm <| dot1xSuppInvalidEapolFramesRx ::= λ n, u32 (n + 1) |>) w)
    end.

Definition eapol_sm_notify_tx_eapol_key w : world :=
  on_sm (λ sm, sm <| dot1xSuppEapolFramesTx ::= λ n, u32 (n + 1) |>) w.

Definition eapol_sm_notify_portEnabled w (enabled : bool) : outcome world :=
  eapol_sm_step (on_sm (λ sm,
    let sm := if bool_decide (portEnabled sm ≠ enabled)
              then sm <| force_authorized_update := true |> else sm in
    sm <| portEnabled := enabled |>) w).

Definition eapol_sm_notify_portValid w (valid : bool) : outcome world :=
  eapol_sm_step (on_sm (λ sm, sm <| portValid := valid |>) w).

Definition eapol_sm_notify_eap_success w (success : bool) : outcome world :=
  let w := on_sm (λ sm, sm <| eapSuccess := success |> <| altAccept := success |>) w in
  let w := if success then eap_notify_success w else w in
  eapol_sm_step w.

Definition eapol_sm_notify_eap_fail w (fail : bool) : outcome world :=
  eapol_sm_step (on_sm (λ sm, sm <| eapFail := fail |> <| altReject := fail |>) w).

Definition eapol_sm_notify_config w (cfg : option eap_peer_config) (c : option eapol_config) :
    world :=
  let w := on_sm (λ sm, sm <| config := cfg |>) w in
  match c with
  | None => w
  | Some c =>
      let w := on_sm (λ sm, sm <| conf ::= λ old,
        old <| accept_802_1x_keys := accept_802_1x_keys c |>
            <| required_keys := required_keys c |>
            <| conf_fast_reauth := conf_fast_reauth c |>
            <| conf_workaround := conf_workaround c |> <| wps := wps c |> |>) w in
      let w := eap_set_fast_reauth w (conf_fast_reauth c) in
      let w := eap_set_workaround w (conf_workaround c) in
      eap_set_force_disabled w (eap_disabled c)
  end.

(** The result, and the octets stored at [key]. *)
Definition eapol_sm_get_key w (len : Z) : Z * option (list Z) :=
  if negb (eap_key_available w) then (-1, None)
  else
    match eap_get_eapKeyData w with
    | None => (-1, None)
    | Some k => if bool_decide (blen k < len) then (blen k, None) else (0, slice k 0 len)
    end.

Definition eapol_sm_get_session_id w : option (list Z) :=
  if negb (eap_key_available w) then None else eap_get_eapSessionId w.

Definition eapol_sm_notify_logoff w (logoff : bool) : outcome world :=
  eapol_sm_step (on_sm (λ sm,
    let sm := sm <| userLogoff := logoff |> in
    if logoff then sm else sm <| startWhen := 0 |>) w).

Definition eapol_sm_notify_cached w : outcome world :=
  eapol_sm_step (eap_notify_success (on_sm (λ sm, sm <| eapSuccess := true |>) w)).

Definition eapol_sm_notify_pmkid_attempt w : world :=
  on_sm (λ sm, sm <| cached_pmk := true |>) w.

Definition eapol_sm_notify_portControl w (c : PortControl) : outcome world :=
  eapol_sm_step (on_sm (λ sm, sm <| portControl := c |>) w).

Definition eapol_sm_notify_ctrl_response w : outcome world :=
  let sm := eapol_ctx w in
  if bool_decide (is_Some (eapReqData sm)) && negb (eapReq sm)
  then eapol_sm_step (on_sm (λ sm, sm <| eapolEap := true |> <| eapReq := true |>) w)
  else Ret w.

Definition eapol_sm_request_reauth w : world :=
  if bool_decide (SUPP_PAE_state (eapol_ctx w) ≠ SUPP_PAE_AUTHENTICATED) then w
  else on_sm eapol_sm_txStart w.

Definition eapol_sm_notify_lower_layer_success w (in_eapol_sm : bool) : outcome world :=
  let w := eap_notify_lower_layer_success w in
  if in_eapol_sm then Ret w else eapol_sm_step w.

Definition eapol_sm_invalidate_cached_session w : world := eap_invalidate_cached_session w.

Definition eapol_sm_failed w : bool :=
  negb (eapSuccess (eapol_ctx w)) && eapFail (eapol_ctx w).

(** The zeroed structure with the constants of [eapol_sm_init]. *)
Definition eapol_zero (pre : bool) : eapol_sm :=
  {| authWhile := 0; heldWhile := 0; startWhen := 0; idleWhile := 0;
     timer_tick_enabled := false;
     eapFail := false; eapolEap := false; eapSuccess := false; initialize := false;
     keyDone := false; keyRun := false; portControl := Auto; portEnabled := false;
     suppPortStatus := Unauthorized; portValid := false; suppAbort := false;
     suppFail := false; suppStart := false; suppSuccess := false; suppTimeout := false;
     SUPP_PAE_state := SUPP_PAE_UNKNOWN; userLogoff := false; logoffSent := false;
     startCount := 0; eapRestart := false; sPortMode := Auto;
     heldPeriod := 60; startPeriod := 30; maxStart := 3;
     KEY_RX_state := KEY_RX_UNKNOWN; rxKey := false; SUPP_BE_state := SUPP_BE_UNKNOWN;
     eapNoResp := false; eapReq := false; eapResp := false; authPeriod := 30;
     dot1xSuppEapolFramesRx := 0; dot1xSuppEapolFramesTx := 0;
     dot1xSuppEapolStartFramesTx := 0; dot1xSuppEapolLogoffFramesTx := 0;
     dot1xSuppEapolRespFramesTx := 0; dot1xSuppEapolReqIdFramesRx := 0;
     dot1xSuppEapolReqFramesRx := 0; dot1xSuppInvalidEapolFramesRx := 0;
     dot1xSuppEapLengthErrorFramesRx := 0; dot1xSuppLastEapolFrameVersion := 0;
     dot1xSuppLastEapolFrameSource := replicate 6 0; sm_changed := false;
     config := None; initial_req := false; last_rx_key := None; eapReqData := None;
     altAccept := false; altReject := false; eapTriggerStart := false;
     replay_counter_valid := false; conf := mk_eapol_config false 0 false false false 0;
     preauth := pre; cb_status := EAPOL_CB_IN_PROGRESS; cached_pmk := false;
     unicast_key_received := false; broadcast_key_received := false;
     force_authorized_update := false; trace := [] |}.

(** [eapol_sm_init] when its allocations succeed. *)
Definition eapol_sm_init (pre : bool) (n : nat) : outcome world :=
  let w := eap_peer_sm_init (eapol_zero pre) n in
  let w := on_sm (λ sm, sm <| force_authorized_update := true |> <| initialize := true |>) w in
  w ← eapol_sm_step w;
  let w := on_sm (λ sm, sm <| initialize := false |>) w in
  w ← eapol_sm_step w;
  Ret (on_sm (λ sm, let (ok, sm) := register_tick sm in
                    if ok : bool then sm <| timer_tick_enabled := true |> else sm) w).
End eapol_supp.

(** ** The calls that other modules make *)
Inductive eapol_call :=
| CallTick
| CallConfigure (held auth start max : Z)
| CallRx (src buf : list Z)
| CallTxKey
| CallPortEnabled (enabled : bool)
| CallPortValid (valid : bool)
| CallEapSuccess (success : bool)
| CallEapFail (fail : bool)
| CallConfig (cfg : option eap_peer_config) (c : option eapol_config)
| CallLogoff (logoff : bool)
| CallCached
| CallPmkidAttempt
| CallPortControl (c : PortControl)
| CallCtrlResponse
| CallRequestReauth
| CallLowerLayerSuccess
| CallInvalidateSession
| CallStepTimeout.

Section calls.
Variable timer_ok : list eapol_event → bool.
Variable confirm_auth : list eapol_event → bool.
Context {P : Type}.
Variable methods : list (eap_method P).
Variable sha1 : list Z → list Z.
Variable alloc_ok : nat → bool.

Definition eapol_do (w : eap_sm eapol_sm P) (c : eapol_call) : outcome (eap_sm eapol_sm P) :=
  match c with
  | CallTick => eapol_port_timers_tick timer_ok confirm_auth methods sha1 alloc_ok w
  | CallConfigure h a s m => Ret (eapol_sm_configure w h a s m)
  | CallRx src buf =>
      r ← eapol_sm_rx_eapol timer_ok confirm_auth methods sha1 alloc_ok w src buf; Ret (snd r)
  | CallTxKey => Ret (eapol_sm_notify_tx_eapol_key w)
  | CallPortEnabled b =>
      eapol_sm_notify_portEnabled timer_ok confirm_auth methods sha1 alloc_ok w b
  | CallPortValid b =>
      eapol_sm_notify_portValid timer_ok confirm_auth methods sha1 alloc_ok w b
  | CallEapSuccess b =>
      eapol_sm_notify_eap_success timer_ok confirm_auth methods sha1 alloc_ok w b
  | CallEapFail b => eapol_sm_notify_eap_fail timer_ok confirm_auth methods sha1 alloc_ok w b
  | CallConfig cfg c => Ret (eapol_sm_notify_config w cfg c)
  | CallLogoff b => eapol_sm_notify_logoff timer_ok confirm_auth methods sha1 alloc_ok w b
  | CallCached => eapol_sm_notify_cached timer_ok confirm_auth methods sha1 alloc_ok w
  | CallPmkidAttempt => Ret (eapol_sm_notify_pmkid_attempt w)
  | CallPortControl c =>
      eapol_sm_notify_portControl timer_ok confirm_auth methods sha1 alloc_ok w c
  | CallCtrlResponse =>
      eapol_sm_notify_ctrl_response timer_ok confirm_auth methods sha1 alloc_ok w
  | CallRequestReauth => Ret (eapol_sm_request_reauth w)
  | CallLowerLayerSuccess =>
      eapol_sm_notify_lower_layer_success timer_ok confirm_auth methods sha1 alloc_ok w false
  | CallInvalidateSession => Ret (eapol_sm_invalidate_cached_session w)
  | CallStepTimeout => eapol_sm_step_timeout timer_ok confirm_auth methods sha1 alloc_ok w
  end.

Fixpoint eapol_run (w : eap_sm eapol_sm P) (cs : list eapol_call) :
    outcome (eap_sm eapol_sm P) :=
  match cs with
  | [] => Ret w
  | c :: cs => w ← eapol_do w c; eapol_run w cs
  end.
End calls.
