(* ===== verification/EapolProofs.v ===== *)
(** Properties of the EAPOL supplicant of [EapolSupp]

    - the EAPOL structure implements the interface the EAP machine relies on;
    - [closed]: a predicate on struct eapol_sm that every transition keeps is kept by
      every call of [eapol_sm_step], which always returns;
    - the timers, the controlled port and logoff, by choosing the predicate. *)
From S2P Require Import Prelude Bytes Wpabuf EapCommon EapPeer EapPeerProofs EapPeerStep EapolSupp.

Section callbacks.
Variable timer_ok : list eapol_event → bool.

Lemma enable_tick_frame sm :
  ∃ b t, eapol_enable_timer_tick timer_ok sm =
         sm <| timer_tick_enabled := b |> <| trace := t |>.
Proof.
  unfold eapol_enable_timer_tick, register_tick, emit. destruct (timer_tick_enabled sm) eqn:E.
  - exists (timer_tick_enabled sm), (trace sm). by destruct sm.
  - simpl. destruct (timer_ok _).
    + by exists true, (EvRegisterTick :: EvCancelTick :: trace sm).
    + exists (timer_tick_enabled sm), (EvRegisterTick :: EvCancelTick :: trace sm).
      by destruct sm.
Qed.

Lemma set_int_frame n sm :
  ∃ b t, eapol_sm_set_int timer_ok n sm =
         sm <| idleWhile := n |> <| timer_tick_enabled := b |> <| trace := t |>.
Proof.
  unfold eapol_sm_set_int. case_bool_decide.
  - apply (enable_tick_frame (sm <| idleWhile := n |>)).
  - exists (timer_tick_enabled sm), (trace sm). by destruct sm.
Qed.

#[export] Instance eapol_cb_spec : @EapolCallbacksSpec eapol_sm (eapol_cb timer_ok).
Proof.
  split; simpl; intros; try done; try (by destruct v);
    try (by destruct (set_int_frame n s) as (b & t & ->); try destruct v).
  by destruct v, v'.
Qed.

(** C21: the EAPOL structure is a lower layer as the EAP machine expects it: its ten
    variables are independent cells, and setting the idle timer or sending a
    notification changes none of them, nor the pending request or configuration. *)
Theorem eapol_cb_is_lower_layer : @EapolCallbacksSpec eapol_sm (eapol_cb timer_ok).
Proof. apply eapol_cb_spec. Qed.
End callbacks.

(** ** Predicates that every transition keeps *)
Section closed.
Variable timer_ok : list eapol_event → bool.
Variable confirm_auth : list eapol_event → bool.
Context {P : Type}.
Variable methods : list (eap_method P).
Variable sha1 : list Z → list Z.
Variable alloc_ok : nat → bool.
Hypothesis Hmethods : methods_ok methods.

#[local] Instance cb : EapolCallbacks eapol_sm := eapol_cb timer_ok.
#[local] Instance cb_spec : EapolCallbacksSpec eapol_sm := eapol_cb_spec timer_ok.

Abbreviation world := (eap_sm eapol_sm P).
Abbreviation world_ok := (eap_ok (S := eapol_sm) methods).
Implicit Types w : world.

Definition response_sent (d : list Z) (sm : eapol_sm) : eapol_sm :=
  let sm := emit sm (EvSend IEEE802_1X_TYPE_EAP_PACKET d) in
  let sm := if initial_req sm
            then sm <| dot1xSuppEapolReqIdFramesRx ::= λ n, u32 (n + 1) |>
            else sm <| dot1xSuppEapolReqFramesRx ::= λ n, u32 (n + 1) |> in
  sm <| dot1xSuppEapolRespFramesTx ::= λ n, u32 (n + 1) |>
     <| dot1xSuppEapolFramesTx ::= λ n, u32 (n + 1) |>.

(** What the machines do to struct eapol_sm: the two machines that only touch it, the
    updates of the backend, and the callbacks of the EAP machine. *)
Record closed (Q : eapol_sm → Prop) : Prop := {
  cl_reach s s' : Q s → reach s s' → Q s';
  cl_pae s : Q s → Q (sm_SUPP_PAE_Step timer_ok confirm_auth s);
  cl_key s : Q s → Q (sm_KEY_RX_Step s);
  cl_changed b s : Q s → Q (s <| sm_changed := b |>);
  cl_request g s :
    Q s → Q ((BE_ENTRY s g SUPP_BE_REQUEST) <| authWhile := 0 |> <| eapReq := true |>);
  cl_entry g s st : Q s → Q (BE_ENTRY s g st);
  cl_success s : Q s → Q (s <| keyRun := true |> <| suppSuccess := true |>);
  cl_fail s : Q s → Q (s <| suppFail := true |>);
  cl_timeout s : Q s → Q (s <| suppTimeout := true |>);
  cl_idle s : Q s → Q (s <| suppStart := false |> <| initial_req := true |>);
  cl_receive g s : Q s → Q ((eapol_enable_timer_tick timer_ok
      ((BE_ENTRY s g SUPP_BE_RECEIVE) <| authWhile ::= λ _, authPeriod (BE_ENTRY s g SUPP_BE_RECEIVE) |>))
    <| eapolEap := false |> <| eapNoResp := false |> <| initial_req := false |>);
  cl_sent d s : Q s → Q (response_sent d s);
  cl_no_resp s : Q s → Q (s <| eapResp := false |>);
  cl_replay s : Q s → Q (s <| replay_counter_valid := false |>);
  cl_abort s : Q s → Q (s <| last_rx_key := None |> <| eapReqData := None |>);
  cl_emit e s : (∀ a, e ≠ EvPort a) → Q s → Q (emit s e);
  cl_cb s : Q s → Q (s <| cb_status := EAPOL_CB_IN_PROGRESS |>);
  cl_aborted s : Q s → Q (s <| suppAbort := false |> <| authWhile := 0 |>);
}.

(** The part of the invariant that belongs to the EAP machine. *)
Definition eap_part w : Prop :=
  buf_ok (eapRespData w) ∧ buf_ok (lastRespData w) ∧ priv_ok methods (m w) (eap_method_priv w).

Lemma world_ok_split w : world_ok w ↔ ctx_ok (eapol_ctx w) ∧ eap_part w.
Proof. split; [intros []; by split_and!|intros (?&?&?&?); by split]. Qed.

Section run.
Variable Q : eapol_sm → Prop.
Hypothesis Hcl : closed Q.
Hypothesis Hctx : ∀ s, Q s → ctx_ok s.

(** A world whose EAPOL structure satisfies [Q]. *)
Definition good w : Prop := Q (eapol_ctx w) ∧ eap_part w.
Definition goes (r : outcome world) : Prop := ∃ w', r = Ret w' ∧ good w'.

Lemma good_on_sm f w : good w → (∀ s, Q s → Q (f s)) → good (on_sm f w).
Proof. intros [HQ He] Hf. split; [by apply Hf|done]. Qed.

Lemma ret_goes w : good w → goes (Ret w).
Proof. by exists w. Qed.

Lemma txSuppRsp_goes w : good w → goes (eapol_sm_txSuppRsp w).
Proof.
  intros [HQ He]. unfold eapol_sm_txSuppRsp, eap_get_eapRespData.
  pose proof He as (Hr & Hl & Hp). destruct (eapRespData w) as [b|] eqn:E.
  - destruct Hr as (? & ? & ?).
    destruct (slice_is_Some (mem b) 0 (used b)) as [d ->]; [lia..|]. simpl.
    eexists; split; [done|]. split; [by apply (cl_sent Q Hcl)|]. by split_and!.
  - apply ret_goes. by split.
Qed.

Lemma be_step_goes w : good w → goes (sm_SUPP_BE_Step timer_ok w).
Proof.
  intros Hg. unfold sm_SUPP_BE_Step.
  assert (Hreq : goes (Ret (sm_SUPP_BE_REQUEST_Enter w false))).
  { apply ret_goes, good_on_sm; [done|]. intros. by apply (cl_request Q Hcl). }
  assert (Hrcv : goes (Ret (sm_SUPP_BE_RECEIVE_Enter timer_ok w false))).
  { apply ret_goes, good_on_sm; [done|]. intros. by apply (cl_receive Q Hcl). }
  assert (Hfail : goes (Ret (sm_SUPP_BE_FAIL_Enter w false))).
  { apply ret_goes, good_on_sm; [done|]. intros. by apply (cl_fail Q Hcl), (cl_entry Q Hcl). }
  assert (Hto : goes (Ret (sm_SUPP_BE_TIMEOUT_Enter w false))).
  { apply ret_goes, good_on_sm; [done|].
    intros. by apply (cl_timeout Q Hcl), (cl_entry Q Hcl). }
  assert (Hidle : goes (Ret (sm_SUPP_BE_IDLE_Enter w false))).
  { apply ret_goes, good_on_sm; [done|]. intros. by apply (cl_idle Q Hcl), (cl_entry Q Hcl). }
  assert (Hsucc : goes (Ret (sm_SUPP_BE_SUCCESS_Enter w false))).
  { apply ret_goes. unfold sm_SUPP_BE_SUCCESS_Enter.
    assert (Hg1 : good (on_sm (λ sm, (BE_ENTRY sm false SUPP_BE_SUCCESS)
      <| keyRun := true |> <| suppSuccess := true |>) w)).
    { apply good_on_sm; [done|]. intros. by apply (cl_success Q Hcl), (cl_entry Q Hcl). }
    cbv zeta. destruct (eap_key_available _); [|done].
    apply good_on_sm; [done|]. apply (cl_replay Q Hcl). }
  assert (Hresp : goes (sm_SUPP_BE_RESPONSE_Enter w false)).
  { unfold sm_SUPP_BE_RESPONSE_Enter.
    destruct (txSuppRsp_goes (on_sm (λ sm, BE_ENTRY sm false SUPP_BE_RESPONSE) w))
      as (w' & -> & Hg').
    - apply good_on_sm; [done|]. intros. by apply (cl_entry Q Hcl).
    - apply ret_goes, good_on_sm; [done|]. apply (cl_no_resp Q Hcl). }
  assert (Hinit : goes (Ret (sm_SUPP_BE_INITIALIZE_Enter timer_ok w true))).
  { apply ret_goes. unfold sm_SUPP_BE_INITIALIZE_Enter. destruct Hg as [HQ (?&?&?)].
    split; [|by split_and!].
    apply (cl_aborted Q Hcl). eapply (cl_reach Q Hcl);
      [|apply (reach_bool _ EAPOL_eapSuccess false); [done|apply reach_refl]].
    by apply (cl_abort Q Hcl), (cl_entry Q Hcl). }
  destruct (_ || _); [done|].
  destruct (SUPP_BE_state (eapol_ctx w)); try (by apply ret_goes); try done;
    repeat match goal with |- goes (if ?b then _ else _) => destruct b end;
    done || by apply ret_goes.
Qed.

Lemma run_eap_goes w :
  good w → ∃ res w', run_eap timer_ok methods sha1 alloc_ok w = Ret (res, w') ∧ good w'.
Proof.
  intros [HQ He]. unfold run_eap, eap_peer_sm_step. pose proof (rank_le_10 w).
  destruct (loop_stops methods sha1 alloc_ok Hmethods 16 false w)
    as (res & w' & E & Hok & Hr & _); [apply world_ok_split; auto|lia|].
  exists res, w'. fold cb. rewrite E. split; [done|].
  apply world_ok_split in Hok as [_ ?]. split; [by eapply (cl_reach Q Hcl)|done].
Qed.

(** A pass, from a structure that the PAE machine brings into [Q]. *)
Lemma pass_goes_from w :
  Q (sm_SUPP_PAE_Step timer_ok confirm_auth ((eapol_ctx w) <| sm_changed := false |>)) →
  eap_part w → goes (eapol_sm_pass timer_ok confirm_auth methods sha1 alloc_ok w).
Proof.
  intros HQ He. unfold eapol_sm_pass. cbv zeta.
  set (w1 := on_sm _ (on_sm _ (on_sm _ w))).
  assert (Hg1 : good w1).
  { apply good_on_sm; [by split|apply (cl_key Q Hcl)]. }
  destruct (be_step_goes w1 Hg1) as (w2 & -> & Hg2). cbn [mbind outcome_bind].
  destruct (run_eap_goes w2 Hg2) as (res & w3 & -> & Hg3). cbn [mbind outcome_bind].
  apply ret_goes. destruct res; [|done]. apply good_on_sm; [done|apply (cl_changed Q Hcl)].
Qed.

Lemma pass_goes w :
  good w → goes (eapol_sm_pass timer_ok confirm_auth methods sha1 alloc_ok w).
Proof.
  intros [HQ He]. apply pass_goes_from; [|done].
  by apply (cl_pae Q Hcl), (cl_changed Q Hcl).
Qed.

Lemma loop_goes n w :
  good w → goes (eapol_sm_loop timer_ok confirm_auth methods sha1 alloc_ok n w).
Proof.
  revert w. induction n as [|n IH]; intros w Hg; [by apply ret_goes|]. simpl.
  destruct (pass_goes w Hg) as (w' & -> & Hg'). simpl.
  destruct (sm_changed _); [by apply IH|by apply ret_goes].
Qed.

(** What [eapol_sm_step] does after its loop. *)
Lemma step_from_loop w :
  goes (eapol_sm_loop timer_ok confirm_auth methods sha1 alloc_ok 100 w) →
  goes (eapol_sm_step timer_ok confirm_auth methods sha1 alloc_ok w).
Proof.
  intros (w1 & E & Hg1). unfold eapol_sm_step. rewrite E, ret_bind.
  set (w2 := if sm_changed (eapol_ctx w1) then _ else _).
  assert (Hg2 : good w2).
  { subst w2. destruct (sm_changed _); [|done]. apply good_on_sm; [done|].
    intros. by do 2 (apply (cl_emit Q Hcl); [done|]). }
  clearbody w2. cbv zeta. case_bool_decide; [|by apply ret_goes].
  apply ret_goes, good_on_sm; [done|].
  intros. apply (cl_emit Q Hcl); [done|]. by apply (cl_cb Q Hcl).
Qed.

Lemma step_goes w :
  good w → goes (eapol_sm_step timer_ok confirm_auth methods sha1 alloc_ok w).
Proof. intros Hg. by apply step_from_loop, loop_goes. Qed.

Lemma loop_goes_from n w :
  Q (sm_SUPP_PAE_Step timer_ok confirm_auth ((eapol_ctx w) <| sm_changed := false |>)) →
  eap_part w →
  goes (eapol_sm_loop timer_ok confirm_auth methods sha1 alloc_ok (Datatypes.S n) w).
Proof.
  intros HQ He. simpl. destruct (pass_goes_from w HQ He) as (w1 & -> & Hg1). simpl.
  destruct (sm_changed _); [by apply loop_goes|by apply ret_goes].
Qed.

Lemma step_goes_from w :
  Q (sm_SUPP_PAE_Step timer_ok confirm_auth ((eapol_ctx w) <| sm_changed := false |>)) →
  eap_part w → goes (eapol_sm_step timer_ok confirm_auth methods sha1 alloc_ok w).
Proof. intros HQ He. by apply step_from_loop, (loop_goes_from 99). Qed.
End run.
End closed.

(** ** The fields of other machines *)
Section frames.
Variable timer_ok : list eapol_event → bool.
Variable confirm_auth : list eapol_event → bool.
#[local] Instance cb' : EapolCallbacks eapol_sm := eapol_cb timer_ok.
Implicit Types s : eapol_sm.

(** Two structures that agree on everything the PAE machine only reads, but for the
    request and the configuration that it does not even read. *)
Definition pae_inputs s :=
  (eapReqData s, config s, portEnabled s, userLogoff s, initialize s, portControl s,
   eapFail s, authWhile s, idleWhile s, heldPeriod s, startPeriod s, maxStart s).

Ltac frame := intros; unfold pae_inputs; repeat case_match; reflexivity.

Lemma pae_entry_inputs s g st : pae_inputs (PAE_ENTRY s g st) = pae_inputs s.
Proof. unfold PAE_ENTRY. frame. Qed.
Lemma enable_inputs s : pae_inputs (eapol_enable_timer_tick timer_ok s) = pae_inputs s.
Proof. by destruct (enable_tick_frame timer_ok s) as (b & t & ->). Qed.
Lemma port_authorized_inputs s : pae_inputs (eapol_sm_set_port_authorized s) = pae_inputs s.
Proof. unfold eapol_sm_set_port_authorized. frame. Qed.
Lemma port_unauthorized_inputs s : pae_inputs (eapol_sm_set_port_unauthorized s) = pae_inputs s.
Proof. unfold eapol_sm_set_port_unauthorized. frame. Qed.

(** A state of the PAE machine that is entered leaves its inputs alone. *)
Definition keeps (f : eapol_sm → bool → eapol_sm) : Prop :=
  ∀ s g, pae_inputs (f s g) = pae_inputs s.

Lemma emit_inputs s e : pae_inputs (emit s e) = pae_inputs s.
Proof. done. Qed.

Ltac inputs :=
  repeat first
    [ progress drop_updates pae_inputs | rewrite emit_inputs | rewrite pae_entry_inputs
    | rewrite enable_inputs | rewrite port_authorized_inputs | rewrite port_unauthorized_inputs
    | match goal with |- context [pae_inputs (if ?b then _ else _)] => destruct b end ].

Lemma logoff_inputs : keeps sm_SUPP_PAE_LOGOFF_Enter.
Proof.
  intros s g. unfold sm_SUPP_PAE_LOGOFF_Enter, eapol_sm_txLogoff. cbv zeta. by inputs.
Qed.
Lemma disconnected_inputs : keeps sm_SUPP_PAE_DISCONNECTED_Enter.
Proof. intros s g. unfold sm_SUPP_PAE_DISCONNECTED_Enter. cbv zeta. by inputs. Qed.
Lemma connecting_inputs : keeps (sm_SUPP_PAE_CONNECTING_Enter timer_ok).
Proof.
  intros s g. unfold sm_SUPP_PAE_CONNECTING_Enter, eapol_sm_txStart. cbv zeta. by inputs.
Qed.
Lemma authenticating_inputs : keeps sm_SUPP_PAE_AUTHENTICATING_Enter.
Proof. intros s g. unfold sm_SUPP_PAE_AUTHENTICATING_Enter. cbv zeta. by inputs. Qed.
Lemma held_inputs : keeps (sm_SUPP_PAE_HELD_Enter timer_ok).
Proof. intros s g. unfold sm_SUPP_PAE_HELD_Enter. cbv zeta. by inputs. Qed.
Lemma authenticated_inputs : keeps sm_SUPP_PAE_AUTHENTICATED_Enter.
Proof. intros s g. unfold sm_SUPP_PAE_AUTHENTICATED_Enter. cbv zeta. by inputs. Qed.
Lemma restart_inputs : keeps (sm_SUPP_PAE_RESTART_Enter confirm_auth).
Proof.
  intros s g. unfold sm_SUPP_PAE_RESTART_Enter, eapol_sm_confirm_auth. cbv zeta.
  by inputs.
Qed.
Lemma force_auth_inputs : keeps sm_SUPP_PAE_S_FORCE_AUTH_Enter.
Proof. intros s g. unfold sm_SUPP_PAE_S_FORCE_AUTH_Enter. cbv zeta. by inputs. Qed.
Lemma force_unauth_inputs : keeps sm_SUPP_PAE_S_FORCE_UNAUTH_Enter.
Proof.
  intros s g. unfold sm_SUPP_PAE_S_FORCE_UNAUTH_Enter, eapol_sm_txLogoff. cbv zeta.
  by inputs.
Qed.

Lemma pae_step_inputs s : pae_inputs (sm_SUPP_PAE_Step timer_ok confirm_auth s) = pae_inputs s.
Proof.
  unfold sm_SUPP_PAE_Step, supp_pae_step_local. cbv zeta.
  repeat case_match; rewrite ?logoff_inputs, ?disconnected_inputs, ?connecting_inputs,
    ?authenticating_inputs, ?held_inputs, ?authenticated_inputs, ?restart_inputs,
    ?force_auth_inputs, ?force_unauth_inputs; by inputs.
Qed.

Lemma ctx_ok_same s s' :
  eapReqData s' = eapReqData s → config s' = config s → ctx_ok s → ctx_ok s'.
Proof. intros E1 E2 [H1 H2]. split; simpl; rewrite ?E1, ?E2; auto. Qed.

Lemma be_entry_eq s g st : ∃ b, BE_ENTRY s g st = s <| sm_changed := b |> <| SUPP_BE_state := st |>.
Proof.
  unfold BE_ENTRY. destruct (_ || _); [by exists true|exists (sm_changed s); by destruct s].
Qed.
Lemma key_entry_eq s g st :
  ∃ b, KEY_RX_ENTRY s g st = s <| sm_changed := b |> <| KEY_RX_state := st |>.
Proof.
  unfold KEY_RX_ENTRY. destruct (_ || _); [by exists true|exists (sm_changed s); by destruct s].
Qed.

Lemma key_step_eq s :
  ∃ b st k, sm_KEY_RX_Step s = s <| sm_changed := b |> <| KEY_RX_state := st |> <| rxKey := k |>.
Proof.
  unfold sm_KEY_RX_Step. cbv zeta.
  assert (H1 : ∃ b st, (if initialize s || negb (portEnabled s)
    then sm_KEY_RX_NO_KEY_RECEIVE_Enter s true else s)
    = s <| sm_changed := b |> <| KEY_RX_state := st |>).
  { destruct (_ || _).
    - destruct (key_entry_eq s true KEY_RX_NO_KEY_RECEIVE) as [b E]. by exists b, KEY_RX_NO_KEY_RECEIVE.
    - exists (sm_changed s), (KEY_RX_state s). by destruct s. }
  destruct H1 as (b & st & ->). set (s1 := s <| sm_changed := b |> <| KEY_RX_state := st |>).
  assert (H2 : s1 = s <| sm_changed := b |> <| KEY_RX_state := st |> <| rxKey := rxKey s |>)
    by (subst s1; by destruct s).
  assert (H3 : ∃ b, sm_KEY_RX_KEY_RECEIVE_Enter s1 false =
    s <| sm_changed := b |> <| KEY_RX_state := KEY_RX_KEY_RECEIVE |> <| rxKey := false |>).
  { unfold sm_KEY_RX_KEY_RECEIVE_Enter.
    destruct (key_entry_eq s1 false KEY_RX_KEY_RECEIVE) as [b' ->]. by exists b'. }
  destruct H3 as [b' E].
  destruct (KEY_RX_state s1); [by rewrite H2; eexists _, _, _| |];
    (destruct (rxKey s1); [rewrite E|rewrite H2]; by eexists _, _, _).
Qed.

Lemma closed_ctx_ok : closed timer_ok confirm_auth (ctx_ok (S := eapol_sm)).
Proof.
  split; intros; try done.
  - by apply (ctx_ok_reach (H0 := eapol_cb_spec timer_ok) s).
  - pose proof (pae_step_inputs s) as E. unfold pae_inputs in E. simplify_eq.
    by apply (ctx_ok_same s).
  - by destruct (key_step_eq s) as (b & st & k & ->).
  - by destruct (be_entry_eq s g SUPP_BE_REQUEST) as [b ->].
  - by destruct (be_entry_eq s g st) as [b ->].
  - destruct (enable_tick_frame timer_ok ((BE_ENTRY s g SUPP_BE_RECEIVE)
      <| authWhile ::= λ _, authPeriod (BE_ENTRY s g SUPP_BE_RECEIVE) |>)) as (b & t & ->).
    by destruct (be_entry_eq s g SUPP_BE_RECEIVE) as [b' ->].
  - unfold response_sent. simpl. by destruct (initial_req s).
  - split; [done|]. by destruct H.
Qed.
End frames.

Lemma closed_and timer_ok confirm_auth Q1 Q2 :
  closed timer_ok confirm_auth Q1 → closed timer_ok confirm_auth Q2 →
  closed timer_ok confirm_auth (λ s, Q1 s ∧ Q2 s).
Proof.
  intros H1 H2. split.
  - intros s s' [??] ?. split; [by apply (cl_reach _ _ _ H1 s)|by apply (cl_reach _ _ _ H2 s)].
  - intros s [??]. split; [by apply (cl_pae _ _ _ H1)|by apply (cl_pae _ _ _ H2)].
  - intros s [??]. split; [by apply (cl_key _ _ _ H1)|by apply (cl_key _ _ _ H2)].
  - intros b s [??]. split; [by apply (cl_changed _ _ _ H1)|by apply (cl_changed _ _ _ H2)].
  - intros g s [??]. split; [by apply (cl_request _ _ _ H1)|by apply (cl_request _ _ _ H2)].
  - intros g s st [??]. split; [by apply (cl_entry _ _ _ H1)|by apply (cl_entry _ _ _ H2)].
  - intros s [??]. split; [by apply (cl_success _ _ _ H1)|by apply (cl_success _ _ _ H2)].
  - intros s [??]. split; [by apply (cl_fail _ _ _ H1)|by apply (cl_fail _ _ _ H2)].
  - intros s [??]. split; [by apply (cl_timeout _ _ _ H1)|by apply (cl_timeout _ _ _ H2)].
  - intros s [??]. split; [by apply (cl_idle _ _ _ H1)|by apply (cl_idle _ _ _ H2)].
  - intros g s [??]. split; [by apply (cl_receive _ _ _ H1)|by apply (cl_receive _ _ _ H2)].
  - intros d s [??]. split; [by apply (cl_sent _ _ _ H1)|by apply (cl_sent _ _ _ H2)].
  - intros s [??]. split; [by apply (cl_no_resp _ _ _ H1)|by apply (cl_no_resp _ _ _ H2)].
  - intros s [??]. split; [by apply (cl_replay _ _ _ H1)|by apply (cl_replay _ _ _ H2)].
  - intros s [??]. split; [by apply (cl_abort _ _ _ H1)|by apply (cl_abort _ _ _ H2)].
  - intros e s He [??]. split; [by apply (cl_emit _ _ _ H1)|by apply (cl_emit _ _ _ H2)].
  - intros s [??]. split; [by apply (cl_cb _ _ _ H1)|by apply (cl_cb _ _ _ H2)].
  - intros s [??]. split; [by apply (cl_aborted _ _ _ H1)|by apply (cl_aborted _ _ _ H2)].
Qed.

(** A predicate that is kept under an assumption. *)
Lemma closed_under timer_ok confirm_auth (A : Prop) Q :
  (A → closed timer_ok confirm_auth Q) → closed timer_ok confirm_auth (λ s, A → Q s).
Proof.
  intros H. split; intros; match goal with HA : A |- _ => pose proof (H HA) as HQ; clear H end;
    destruct HQ; eauto.
Qed.

(** ** Timers *)
Section timers.
Variable timer_ok : list eapol_event → bool.
Variable confirm_auth : list eapol_event → bool.
Hypothesis Htimer : ∀ t, timer_ok t = true.
#[local] Instance cb_timers : EapolCallbacks eapol_sm := eapol_cb timer_ok.
Implicit Types s : eapol_sm.

Definition timers s := (authWhile s, heldWhile s, startWhen s, idleWhile s).
Definition timers_running s : Prop :=
  timer_tick_enabled s = true ∨
  (authWhile s ≤ 0 ∧ heldWhile s ≤ 0 ∧ startWhen s ≤ 0 ∧ idleWhile s ≤ 0).

Lemma enable_enabled s : timer_tick_enabled (eapol_enable_timer_tick timer_ok s) = true.
Proof.
  unfold eapol_enable_timer_tick, register_tick. destruct (timer_tick_enabled s) eqn:E; [done|].
  simpl. by rewrite Htimer.
Qed.

(** The view on which [timers_running] depends. *)
Definition timers_view s :=
  (authWhile s, heldWhile s, startWhen s, idleWhile s, timer_tick_enabled s).

Lemma timers_running_same s s' :
  timers_view s' = timers_view s → timers_running s → timers_running s'.
Proof. unfold timers_view, timers_running. intros [= -> -> -> -> ->]. done. Qed.

Lemma pae_entry_timers s g st : timers_view (PAE_ENTRY s g st) = timers_view s.
Proof. unfold PAE_ENTRY. by destruct (_ || _). Qed.
Lemma port_authorized_timers s : timers_view (eapol_sm_set_port_authorized s) = timers_view s.
Proof. unfold eapol_sm_set_port_authorized. by destruct (_ || _). Qed.
Lemma port_unauthorized_timers s :
  timers_view (eapol_sm_set_port_unauthorized s) = timers_view s.
Proof. unfold eapol_sm_set_port_unauthorized. by destruct (_ || _). Qed.
Lemma emit_timers s e : timers_view (emit s e) = timers_view s.
Proof. done. Qed.

Lemma port_unauthorized_tick s :
  timer_tick_enabled (eapol_sm_set_port_unauthorized s) = timer_tick_enabled s.
Proof. unfold eapol_sm_set_port_unauthorized. by destruct (_ || _). Qed.

Ltac same_timers :=
  repeat first
    [ progress drop_updates timers_view | rewrite emit_timers | rewrite pae_entry_timers
    | rewrite port_authorized_timers | rewrite port_unauthorized_timers
    | match goal with |- context [timers_view (if ?b then _ else _)] => destruct b end ].

Ltac tick_on :=
  left;
  repeat first
    [ progress drop_updates timer_tick_enabled | rewrite enable_enabled
    | rewrite port_unauthorized_tick
    | match goal with |- context [timer_tick_enabled (if ?b then _ else _)] => destruct b end ].

Lemma connecting_timers s g : timers_running (sm_SUPP_PAE_CONNECTING_Enter timer_ok s g).
Proof.
  unfold sm_SUPP_PAE_CONNECTING_Enter, eapol_sm_txStart, emit. cbv zeta. by tick_on.
Qed.

Lemma held_timers s g : timers_running (sm_SUPP_PAE_HELD_Enter timer_ok s g).
Proof. unfold sm_SUPP_PAE_HELD_Enter. cbv zeta. by tick_on. Qed.

Lemma disconnected_timers s g :
  timers_running s → timers_running (sm_SUPP_PAE_DISCONNECTED_Enter s g).
Proof.
  intros Hs. unfold sm_SUPP_PAE_DISCONNECTED_Enter. cbv zeta.
  set (s1 := eapol_sm_set_port_unauthorized _).
  assert (E : timers_view s1 = timers_view s) by (subst s1; by same_timers).
  clearbody s1. unfold timers_view in E. simplify_eq.
  unfold timers_running in *. simpl. destruct Hs as [?|(?&?&?&?)]; [left; congruence|right]. lia.
Qed.

Lemma pae_step_timers s :
  timers_running s → timers_running (sm_SUPP_PAE_Step timer_ok confirm_auth s).
Proof.
  intros Hs.
  assert (Hsame : ∀ s', timers_view s' = timers_view s → timers_running s').
  { intros. by eapply timers_running_same. }
  assert (Hlogoff : ∀ g, timers_running (sm_SUPP_PAE_LOGOFF_Enter s g)).
  { intros. apply Hsame. unfold sm_SUPP_PAE_LOGOFF_Enter, eapol_sm_txLogoff. cbv zeta.
    by same_timers. }
  assert (Hrestart : ∀ g, timers_running (sm_SUPP_PAE_RESTART_Enter confirm_auth s g)).
  { intros. apply Hsame. unfold sm_SUPP_PAE_RESTART_Enter, eapol_sm_confirm_auth. cbv zeta.
    by same_timers. }
  assert (Hforce : ∀ g, timers_running (sm_SUPP_PAE_S_FORCE_AUTH_Enter s g)).
  { intros. apply Hsame. unfold sm_SUPP_PAE_S_FORCE_AUTH_Enter. cbv zeta. by same_timers. }
  assert (Hunforce : ∀ g, timers_running (sm_SUPP_PAE_S_FORCE_UNAUTH_Enter s g)).
  { intros. apply Hsame. unfold sm_SUPP_PAE_S_FORCE_UNAUTH_Enter, eapol_sm_txLogoff. cbv zeta.
    by same_timers. }
  assert (Hauth : ∀ s' g, timers_view s' = timers_view s →
                          timers_running (sm_SUPP_PAE_AUTHENTICATED_Enter s' g)).
  { intros s' g E. apply Hsame. rewrite <- E. unfold sm_SUPP_PAE_AUTHENTICATED_Enter. cbv zeta.
    by same_timers. }
  assert (Hauthing : ∀ g, timers_running (sm_SUPP_PAE_AUTHENTICATING_Enter s g)).
  { intros. apply Hsame. unfold sm_SUPP_PAE_AUTHENTICATING_Enter. cbv zeta. by same_timers. }
  unfold sm_SUPP_PAE_Step, supp_pae_step_local. cbv zeta.
  set (s1 := if _ && _ && _ && _ then emit _ _ else s).
  assert (E1 : timers_view s1 = timers_view s) by (subst s1; by destruct (_ && _)).
  clearbody s1. repeat case_match;
    auto using connecting_timers, held_timers, disconnected_timers.
Qed.

Lemma closed_timers : closed timer_ok confirm_auth timers_running.
Proof.
  split; intros; try done.
  - match goal with Hr : reach _ _ |- _ => induction Hr end; try done.
    + by destruct v.
    + simpl. unfold eapol_sm_set_int. case_bool_decide; [left; apply enable_enabled|].
      destruct IHreach as [?|?]; [by left|right]. simpl in *. lia.
  - by apply pae_step_timers.
  - by destruct (key_step_eq s) as (b & st & k & ->).
  - destruct (be_entry_eq s g SUPP_BE_REQUEST) as [b ->].
    destruct H as [?|?]; [by left|right]. simpl in *. lia.
  - by destruct (be_entry_eq s g st) as [b ->].
  - left. apply enable_enabled.
  - unfold response_sent. simpl. by destruct (initial_req s).
  - destruct H as [?|?]; [by left|right]. simpl in *. lia.
Qed.
End timers.

(** ** The controlled port *)
Section port.
Variable timer_ok : list eapol_event → bool.
Variable confirm_auth : list eapol_event → bool.
#[local] Instance cb_port : EapolCallbacks eapol_sm := eapol_cb timer_ok.
Implicit Types s : eapol_sm.

Definition port_view s := (SUPP_PAE_state s, suppPortStatus s).

(** The states of the PAE machine in which the port may be open. *)
Definition may_be_open (st : supp_pae_state) : bool :=
  match st with
  | SUPP_PAE_CONNECTING | SUPP_PAE_AUTHENTICATING | SUPP_PAE_AUTHENTICATED
  | SUPP_PAE_RESTART | SUPP_PAE_S_FORCE_AUTH => true
  | _ => false
  end.
Definition port_inv s : Prop :=
  suppPortStatus s = Authorized → may_be_open (SUPP_PAE_state s) = true.

Lemma port_inv_same s s' : port_view s' = port_view s → port_inv s → port_inv s'.
Proof. unfold port_view, port_inv. intros [= -> ->]. done. Qed.

Lemma enable_port s : port_view (eapol_enable_timer_tick timer_ok s) = port_view s.
Proof. by destruct (enable_tick_frame timer_ok s) as (b & t & ->). Qed.
Lemma entry_port s g st : port_view (PAE_ENTRY s g st) = (st, suppPortStatus s).
Proof. unfold PAE_ENTRY. by destruct (_ || _). Qed.
Lemma unauthorized_port s :
  port_view (eapol_sm_set_port_unauthorized s) = (SUPP_PAE_state s, Unauthorized).
Proof. unfold eapol_sm_set_port_unauthorized. by destruct (_ || _). Qed.
Lemma authorized_port s :
  port_view (eapol_sm_set_port_authorized s) = (SUPP_PAE_state s, Authorized).
Proof. unfold eapol_sm_set_port_authorized. by destruct (_ || _). Qed.
Lemma entry_state s g st : SUPP_PAE_state (PAE_ENTRY s g st) = st.
Proof. unfold PAE_ENTRY. by destruct (_ || _). Qed.
Lemma enable_state s :
  SUPP_PAE_state (eapol_enable_timer_tick timer_ok s) = SUPP_PAE_state s.
Proof. by destruct (enable_tick_frame timer_ok s) as (b & t & ->). Qed.

Ltac port :=
  repeat first
    [ progress drop_updates port_view | progress drop_updates SUPP_PAE_state
    | rewrite unauthorized_port | rewrite authorized_port | rewrite enable_port
    | rewrite entry_port | rewrite entry_state | rewrite enable_state
    | match goal with |- context [port_view (if ?b then _ else _)] => destruct b end ].

(** What entering a state does to the port. *)
Lemma logoff_port s g :
  port_view (sm_SUPP_PAE_LOGOFF_Enter s g) = (SUPP_PAE_LOGOFF, Unauthorized).
Proof. unfold sm_SUPP_PAE_LOGOFF_Enter, eapol_sm_txLogoff, emit. cbv zeta. by port. Qed.
Lemma disconnected_port s g :
  port_view (sm_SUPP_PAE_DISCONNECTED_Enter s g) = (SUPP_PAE_DISCONNECTED, Unauthorized).
Proof. unfold sm_SUPP_PAE_DISCONNECTED_Enter. cbv zeta. by port. Qed.
Lemma connecting_port s g :
  port_view (sm_SUPP_PAE_CONNECTING_Enter timer_ok s g) =
  (SUPP_PAE_CONNECTING, suppPortStatus s).
Proof.
  unfold sm_SUPP_PAE_CONNECTING_Enter, eapol_sm_txStart, emit. cbv zeta. by port.
Qed.
Lemma authenticating_port s g :
  port_view (sm_SUPP_PAE_AUTHENTICATING_Enter s g) =
  (SUPP_PAE_AUTHENTICATING, suppPortStatus s).
Proof. unfold sm_SUPP_PAE_AUTHENTICATING_Enter. cbv zeta. by port. Qed.
Lemma held_port s g :
  port_view (sm_SUPP_PAE_HELD_Enter timer_ok s g) = (SUPP_PAE_HELD, Unauthorized).
Proof. unfold sm_SUPP_PAE_HELD_Enter. cbv zeta. by port. Qed.
Lemma authenticated_port s g :
  port_view (sm_SUPP_PAE_AUTHENTICATED_Enter s g) = (SUPP_PAE_AUTHENTICATED, Authorized).
Proof. unfold sm_SUPP_PAE_AUTHENTICATED_Enter. cbv zeta. by port. Qed.
Lemma restart_port s g :
  port_view (sm_SUPP_PAE_RESTART_Enter confirm_auth s g) = port_view s ∨
  port_view (sm_SUPP_PAE_RESTART_Enter confirm_auth s g) =
    (SUPP_PAE_RESTART, suppPortStatus s).
Proof.
  unfold sm_SUPP_PAE_RESTART_Enter, eapol_sm_confirm_auth, emit.
  destruct (confirm_auth _); [by left|right]. cbv zeta. by port.
Qed.
Lemma force_auth_port s g :
  port_view (sm_SUPP_PAE_S_FORCE_AUTH_Enter s g) = (SUPP_PAE_S_FORCE_AUTH, Authorized).
Proof. unfold sm_SUPP_PAE_S_FORCE_AUTH_Enter. cbv zeta. by port. Qed.
Lemma force_unauth_port s g :
  port_view (sm_SUPP_PAE_S_FORCE_UNAUTH_Enter s g) = (SUPP_PAE_S_FORCE_UNAUTH, Unauthorized).
Proof.
  unfold sm_SUPP_PAE_S_FORCE_UNAUTH_Enter, eapol_sm_txLogoff, emit. cbv zeta. by port.
Qed.

(** What opening the port takes. *)
Definition may_open s : Prop :=
  initialize s = false ∧ portEnabled s = true ∧
  (portControl s = ForceAuthorized ∨
   (SUPP_PAE_state s = SUPP_PAE_AUTHENTICATING ∧ eapSuccess s = true ∧
    (portValid s = true ∨
     accept_802_1x_keys (conf s) = true ∧ required_keys (conf s) = 0)) ∨
   (SUPP_PAE_state s = SUPP_PAE_CONNECTING ∧ startWhen s = 0 ∧ maxStart s ≤ startCount s ∧
    portValid s = true)).

Lemma port_inv_of s st p :
  port_view s = (st, p) → (p = Authorized → may_be_open st = true) → port_inv s.
Proof. unfold port_view, port_inv. intros [= -> ->]. done. Qed.

Lemma still_closed s st p :
  port_view s = (st, p) → p = Unauthorized → suppPortStatus s = Authorized → False.
Proof. unfold port_view. intros [= _ ->] -> [=]. Qed.

#[local] Opaque sm_SUPP_PAE_LOGOFF_Enter sm_SUPP_PAE_DISCONNECTED_Enter
  sm_SUPP_PAE_CONNECTING_Enter sm_SUPP_PAE_AUTHENTICATING_Enter sm_SUPP_PAE_HELD_Enter
  sm_SUPP_PAE_AUTHENTICATED_Enter sm_SUPP_PAE_RESTART_Enter sm_SUPP_PAE_S_FORCE_AUTH_Enter
  sm_SUPP_PAE_S_FORCE_UNAUTH_Enter.

Lemma pae_step_inv s : port_inv s → port_inv (sm_SUPP_PAE_Step timer_ok confirm_auth s).
Proof.
  intros Hs.
  assert (Hrestart : may_be_open (SUPP_PAE_state s) = true ∨ SUPP_PAE_state s = SUPP_PAE_HELD →
                     port_inv (sm_SUPP_PAE_RESTART_Enter confirm_auth s false)).
  { intros Hst. destruct (restart_port s false) as [E|E]; [by eapply port_inv_same|].
    eapply port_inv_of; [done|]. intros _. done. }
  unfold sm_SUPP_PAE_Step, supp_pae_step_local. cbv zeta.
  set (s1 := if _ && _ && _ && _ then emit _ _ else s).
  assert (E1 : port_view s1 = port_view s) by (subst s1; by destruct (_ && _)).
  assert (Hs1 : port_inv s1) by (by eapply port_inv_same). clearbody s1.
  repeat match goal with
    | |- port_inv (if ?b then _ else _) => destruct b
    | |- port_inv (match SUPP_PAE_state s with _ => _ end) => destruct (SUPP_PAE_state s) eqn:?
    end;
  match goal with
  | |- port_inv (sm_SUPP_PAE_RESTART_Enter _ _ _) => apply Hrestart; simpl; tauto
  | |- port_inv (sm_SUPP_PAE_LOGOFF_Enter ?a ?g) => by apply (port_inv_of _ _ _ (logoff_port a g))
  | |- port_inv (sm_SUPP_PAE_DISCONNECTED_Enter ?a ?g) =>
      by apply (port_inv_of _ _ _ (disconnected_port a g))
  | |- port_inv (sm_SUPP_PAE_CONNECTING_Enter _ ?a ?g) =>
      by apply (port_inv_of _ _ _ (connecting_port a g))
  | |- port_inv (sm_SUPP_PAE_AUTHENTICATING_Enter ?a ?g) =>
      by apply (port_inv_of _ _ _ (authenticating_port a g))
  | |- port_inv (sm_SUPP_PAE_HELD_Enter _ ?a ?g) => by apply (port_inv_of _ _ _ (held_port a g))
  | |- port_inv (sm_SUPP_PAE_AUTHENTICATED_Enter ?a ?g) =>
      by apply (port_inv_of _ _ _ (authenticated_port a g))
  | |- port_inv (sm_SUPP_PAE_S_FORCE_AUTH_Enter ?a ?g) =>
      by apply (port_inv_of _ _ _ (force_auth_port a g))
  | |- port_inv (sm_SUPP_PAE_S_FORCE_UNAUTH_Enter ?a ?g) =>
      by apply (port_inv_of _ _ _ (force_unauth_port a g))
  | |- port_inv _ => assumption
  end.
Qed.

Lemma closed_port : closed timer_ok confirm_auth port_inv.
Proof.
  split; intros; try assumption.
  - match goal with Hr : reach _ _ |- _ => induction Hr end; try assumption.
    + by destruct v.
    + simpl. unfold eapol_sm_set_int. case_bool_decide; [|assumption].
      by destruct (enable_tick_frame timer_ok (s' <| idleWhile := n |>)) as (b & t & ->).
  - by apply pae_step_inv.
  - by destruct (key_step_eq s) as (b & st & k & ->).
  - by destruct (be_entry_eq s g SUPP_BE_REQUEST) as [b ->].
  - by destruct (be_entry_eq s g st) as [b ->].
  - destruct (enable_tick_frame timer_ok ((BE_ENTRY s g SUPP_BE_RECEIVE)
      <| authWhile ::= λ _, authPeriod (BE_ENTRY s g SUPP_BE_RECEIVE) |>)) as (b & t & ->).
    by destruct (be_entry_eq s g SUPP_BE_RECEIVE) as [b' ->].
  - unfold response_sent. simpl. by destruct (initial_req s).
Qed.

(** C15: the PAE machine opens the controlled port only while the port is enabled, and
    only when it is forced authorized, when EAP succeeded and the keys are in place
    (or the configuration requires none), or when the authenticator stayed silent
    on a port that is already valid. *)
Theorem port_opens_with_reason s :
  suppPortStatus s = Unauthorized →
  suppPortStatus (sm_SUPP_PAE_Step timer_ok confirm_auth s) = Authorized →
  may_open s.
Proof.
  intros Hu. unfold sm_SUPP_PAE_Step, supp_pae_step_local, may_open. cbv zeta.
  assert (Hno : ∀ s' st, port_view s' = (st, Unauthorized) → suppPortStatus s' = Authorized → False).
  { unfold port_view. intros s' st [= _ ->]. done. }
  assert (Hsame : ∀ s' st, port_view s' = (st, suppPortStatus s) →
                           suppPortStatus s' = Authorized → False).
  { rewrite Hu. exact Hno. }
  assert (Hrestart : suppPortStatus (sm_SUPP_PAE_RESTART_Enter confirm_auth s false) = Authorized →
                     False).
  { destruct (restart_port s false) as [E|E]; eapply Hsame; exact E. }
  destruct (initialize s), (portEnabled s); simpl; rewrite ?andb_false_r, ?orb_true_r, ?orb_false_r;
    try (intros Ho; by destruct (Hno _ _ (disconnected_port s true) Ho)).
  rewrite !andb_true_r.
  destruct (userLogoff s && _); [intros Ho; by destruct (Hno _ _ (logoff_port s true) Ho)|].
  destruct (bool_decide (portControl s = Auto) && _);
    [intros Ho; by destruct (Hno _ _ (disconnected_port s true) Ho)|].
  destruct (bool_decide (portControl s = ForceAuthorized) && _) eqn:Ef.
  { apply andb_true_iff in Ef as [?%bool_decide_eq_true_1 _]. auto. }
  destruct (bool_decide (portControl s = ForceUnauthorized) && _);
    [intros Ho; by destruct (Hno _ _ (force_unauth_port s true) Ho)|].
  clear Ef. destruct (SUPP_PAE_state s) eqn:Est; intros Ho; try congruence.
  - by destruct (Hsame _ _ (connecting_port s false) Ho).
  - destruct (negb _); [|congruence]. by destruct (Hno _ _ (disconnected_port s false) Ho).
  - repeat match type of Ho with context [if ?b then _ else _] => destruct b eqn:? end;
      try congruence; try (by destruct (Hsame _ _ (connecting_port s false) Ho));
      try (by destruct (Hsame _ _ (authenticating_port s false) Ho));
      try (by destruct (Hno _ _ (held_port s false) Ho)); try (by destruct Hrestart).
    rewrite ?andb_true_iff, ?bool_decide_eq_true in *. intuition auto.
  - set (s1 := if _ && _ && _ && _ then emit _ _ else s) in *.
    assert (E1 : suppPortStatus s1 = suppPortStatus s ∧ eapSuccess s1 = eapSuccess s ∧
      (portValid s1 = true → portValid s = true ∨
         accept_802_1x_keys (conf s) = true ∧ required_keys (conf s) = 0)).
    { subst s1. match goal with |- context [if ?b then emit _ _ else _] =>
        destruct b eqn:Ec end; [|by auto].
      rewrite ?andb_true_iff, ?bool_decide_eq_true in Ec. naive_solver. }
    clearbody s1. destruct E1 as (E1 & E2 & E3). rewrite E2 in Ho.
    assert (Hsame1 : ∀ s' st, port_view s' = (st, suppPortStatus s1) →
                              suppPortStatus s' = Authorized → False).
    { rewrite E1. exact Hsame. }
    repeat match type of Ho with context [if ?b then _ else _] => destruct b eqn:? end;
      try congruence; try (by destruct (Hsame1 _ _ (connecting_port s1 false) Ho));
      try (by destruct (Hno _ _ (held_port s1 false) Ho)).
    rewrite ?andb_true_iff in *. intuition auto.
  - destruct (_ && _); [by destruct Hrestart|].
    destruct (negb _); [|congruence]. by destruct (Hno _ _ (disconnected_port s false) Ho).
  - destruct (bool_decide _); [by destruct (Hsame _ _ (connecting_port s false) Ho)|].
    destruct (eapolEap s); [by destruct Hrestart|congruence].
  - destruct (negb _); [|congruence]. by destruct (Hsame _ _ (authenticating_port s false) Ho).
Qed.
End port.

(** ** Logging off *)
Section logoff.
Variable timer_ok : list eapol_event → bool.
Variable confirm_auth : list eapol_event → bool.
#[local] Instance cb_logoff : EapolCallbacks eapol_sm := eapol_cb timer_ok.
Implicit Types s : eapol_sm.

Definition logoff_view s :=
  (userLogoff s, logoffSent s, portEnabled s, initialize s, sPortMode s, portControl s,
   port_view s).
Definition logged_off s : Prop :=
  logoff_view s = (true, true, true, false, portControl s, portControl s,
                   (SUPP_PAE_LOGOFF, Unauthorized)) ∧
  EvSend IEEE802_1X_TYPE_EAPOL_LOGOFF [] ∈ trace s.

Lemma logged_off_same s s' :
  logoff_view s' = logoff_view s → (∃ t, trace s' = t ++ trace s) → logged_off s → logged_off s'.
Proof.
  intros E [t Et] [H1 H2]. split.
  - rewrite E, H1. unfold logoff_view in E.
    assert (portControl s' = portControl s) as -> by (by injection E). done.
  - rewrite Et. apply elem_of_app. by right.
Qed.

Lemma enable_trace s : ∃ t, trace (eapol_enable_timer_tick timer_ok s) = t ++ trace s.
Proof.
  unfold eapol_enable_timer_tick, register_tick. destruct (timer_tick_enabled s); [by exists []|].
  simpl. destruct (timer_ok _); by exists [EvRegisterTick; EvCancelTick].
Qed.

Lemma enable_logged_off s : logged_off s → logged_off (eapol_enable_timer_tick timer_ok s).
Proof.
  apply logged_off_same; [|apply enable_trace].
  by destruct (enable_tick_frame timer_ok s) as (b & t & ->).
Qed.

Lemma logged_off_stays s :
  logged_off s → sm_SUPP_PAE_Step timer_ok confirm_auth s = s.
Proof.
  intros [E _]. unfold logoff_view, port_view in E. injection E as E1 E2 E3 E4 E5 E6 E7.
  unfold sm_SUPP_PAE_Step, supp_pae_step_local. rewrite E1, E2, E3, E4, E5, E6. simpl.
  rewrite !(bool_decide_eq_false_2 (portControl s ≠ portControl s)) by naive_solver.
  by rewrite !andb_false_r.
Qed.

(** The assignments after [logged_off x] only add to the trace. *)
Ltac extend_trace :=
  match goal with Hx : logged_off ?x |- logged_off _ =>
    solve [apply (logged_off_same x); [done|first [by exists [] | by eexists [_]]|exact Hx]]
  end.

Lemma closed_logged_off : closed timer_ok confirm_auth logged_off.
Proof.
  split; intros; try assumption.
  - match goal with Hr : reach _ _ |- _ => induction Hr end; try assumption;
      try extend_trace.
    + destruct v; assumption || done.
    + simpl. unfold eapol_sm_set_int. case_bool_decide; [|assumption].
      by apply enable_logged_off.
  - by rewrite logged_off_stays.
  - by destruct (key_step_eq s) as (b & st & k & ->).
  - by destruct (be_entry_eq s g SUPP_BE_REQUEST) as [b ->].
  - by destruct (be_entry_eq s g st) as [b ->].
  - apply (enable_logged_off ((BE_ENTRY s g SUPP_BE_RECEIVE)
      <| authWhile ::= λ _, authPeriod (BE_ENTRY s g SUPP_BE_RECEIVE) |>)).
    by destruct (be_entry_eq s g SUPP_BE_RECEIVE) as [b' ->].
  - unfold response_sent. simpl. destruct (initial_req s); extend_trace.
  - extend_trace.
Qed.
End logoff.

(** ** Every sequence of calls *)
Section runs.
Variable timer_ok : list eapol_event → bool.
Variable confirm_auth : list eapol_event → bool.
Context {P : Type}.
Variable methods : list (eap_method P).
Variable sha1 : list Z → list Z.
Variable alloc_ok : nat → bool.
Hypothesis Hmethods : methods_ok methods.
#[local] Instance cb_runs : EapolCallbacks eapol_sm := eapol_cb timer_ok.
#[local] Instance cb_runs_spec : EapolCallbacksSpec eapol_sm := eapol_cb_spec timer_ok.

Abbreviation world := (eap_sm eapol_sm P).
Implicit Types w : world.

Definition call_ok (c : eapol_call) : Prop :=
  match c with
  | CallRx src buf => bytes_ok buf ∧ blen buf < 2 ^ 32
  | CallConfig (Some cfg) _ => config_ok cfg
  | _ => True
  end.

(** While a timer is running the tick is scheduled, if the timeouts can be registered. *)
Definition ticking (s : eapol_sm) : Prop := (∀ t, timer_ok t = true) → timers_running s.
Definition calls_ok (s : eapol_sm) : Prop := ticking s ∧ port_inv s.
Definition sound (s : eapol_sm) : Prop := ctx_ok s ∧ calls_ok s.
Definition calls_view (s : eapol_sm) := (timers_view s, port_view s).
Abbreviation good := (good methods sound).
Abbreviation goes := (goes methods sound).

Lemma closed_sound : closed timer_ok confirm_auth sound.
Proof.
  apply closed_and; [apply closed_ctx_ok|].
  apply closed_and; [apply closed_under, closed_timers|apply closed_port].
Qed.

Lemma sound_same s s' :
  eapReqData s' = eapReqData s → config s' = config s → calls_view s' = calls_view s →
  sound s → sound s'.
Proof.
  intros E1 E2 [E3 E4]%pair_eq (?&?&?). split; [by eapply ctx_ok_same|].
  split; [intros Ht; by eapply timers_running_same; [|auto]|by eapply port_inv_same].
Qed.

Lemma step_sound w :
  good w → goes (eapol_sm_step timer_ok confirm_auth methods sha1 alloc_ok w).
Proof.
  intros Hg. eapply step_goes; [done|apply closed_sound|by intros ? []|done].
Qed.

(** Assignments that the invariant does not see. *)
Lemma good_same w f :
  good w → (∀ s, eapReqData (f s) = eapReqData s) → (∀ s, config (f s) = config s) →
  (∀ s, calls_view (f s) = calls_view s) → good (on_sm f w).
Proof. intros Hg H1 H2 H3. apply good_on_sm; [done|]. intros s. by apply sound_same. Qed.

Lemma good_eap w w' : eapol_ctx w' = eapol_ctx w → eap_part methods w' → good w → good w'.
Proof. intros E He [HQ _]. split; [by rewrite E|done]. Qed.

Lemma notify_success_good w : good w → good (eap_notify_success w).
Proof. intros Hg. apply (good_eap w); [done| |done]. by destruct Hg. Qed.

Lemma tick_good w :
  good w → goes (eapol_port_timers_tick timer_ok confirm_auth methods sha1 alloc_ok w).
Proof.
  intros [(Hc & Ht & Hp) He]. unfold eapol_port_timers_tick. cbv zeta. apply step_sound.
  set (w1 := on_sm timers_decrement w). split; [|by destruct (bool_decide _)].
  assert (Hdec : ∀ n, let dec n := if bool_decide (0 < n) then n - 1 else n in
                      (n ≤ 0 → dec n ≤ 0)).
  { intros n. simpl. case_bool_decide; lia. }
  case_bool_decide as Hor; simpl.
  - unfold register_tick. cbn. set (s := if timer_ok _ then _ else _).
    assert (Es : ctx_ok s ∧ port_inv s) by (subst s; by destruct (timer_ok _)).
    destruct Es. split; [done|]. split; [|done]. intros Htimer. subst s. rewrite Htimer.
    destruct (Ht Htimer) as [?|(?&?&?&?)]; [by left|right]. simpl. by split_and!; apply Hdec.
  - split; [done|]. split; [intros _; right|exact Hp]. simpl in *.
    apply Z.lor_eq_0_iff in Hor as [[[H1 H2]%Z.lor_eq_0_iff H3]%Z.lor_eq_0_iff H4].
    rewrite H1, H2, H3, H4. lia.
Qed.

Lemma abort_cached_good w : good w → good (eapol_sm_abort_cached timer_ok w).
Proof.
  intros Hg. unfold eapol_sm_abort_cached. cbv zeta.
  set (w1 := on_sm _ w).
  assert (Hg1 : good w1).
  { apply good_on_sm; [done|]. intros s (Hs & Ht & _). split; [exact Hs|]. by split. }
  clearbody w1.
  set (w2 := on_sm _ w1).
  assert (Hc2 : ctx_ok (eapol_ctx w2) ∧ suppPortStatus (eapol_ctx w2) = Unauthorized).
  { destruct Hg1 as [[Hc _] _]. pose proof (unauthorized_port (eapol_ctx w1)) as E.
    pose proof (port_unauthorized_inputs (eapol_ctx w1)) as Ei. unfold pae_inputs in Ei.
    split; [|by injection E]. eapply ctx_ok_same; [..|exact Hc]; simpl; by simplify_eq. }
  assert (He : eap_part methods w2) by (by destruct Hg1). clearbody w2.
  destruct Hc2 as [Hc Hp]. apply good_same; [|done..]. split; [|done].
  set (s3 := (eapol_ctx w2) <| startWhen := 3 |>).
  change (sound (eapol_enable_timer_tick timer_ok s3)).
  split; [|split; [intros Htimer; left; by apply enable_enabled|]].
  - by destruct (enable_tick_frame timer_ok s3) as (b & t & ->).
  - pose proof (enable_port timer_ok s3) as [= E1 E2]. unfold port_inv. rewrite E2.
    change (suppPortStatus s3) with (suppPortStatus (eapol_ctx w2)). by rewrite Hp.
Qed.

Lemma payload_len_ok c buf :
  bytes_ok buf → sizeof_ieee802_1x_hdr ≤ blen buf →
  ∃ r, eapol_payload_len c buf = Some r ∧
       ∀ plen, r = Some plen → 0 ≤ plen ∧ plen + sizeof_ieee802_1x_hdr ≤ blen buf.
Proof.
  unfold eapol_payload_len, sizeof_ieee802_1x_hdr, sizeof_eap_hdr. intros Hb Hl.
  destruct (WPA_GET_BE16_in buf 2) as (plen & -> & ?); [lia..|done|]. simpl.
  destruct (rd_in buf 1) as [ty ->]; [lia|]. simpl.
  case_bool_decide; [by exists None|].
  destruct (_ && _ && _ && _ && bool_decide (4 < blen buf - 4)) eqn:Eg.
  - apply andb_true_iff in Eg as [_ Eg]. apply bool_decide_eq_true_1 in Eg.
    destruct (WPA_GET_BE16_in buf (4 + 2)) as (elen & -> & ?); [lia..|done|]. simpl.
    eexists; split; [done|]. intros ? [= <-]. case_bool_decide; lia.
  - eexists; split; [done|]. intros ? [= <-]. lia.
Qed.

Lemma rx_eap_good w buf plen :
  good w → bytes_ok buf → blen buf < 2 ^ 32 → 0 ≤ plen → plen + 4 ≤ blen buf →
  goes (rx_eap_packet timer_ok confirm_auth methods sha1 alloc_ok w buf plen).
Proof.
  intros Hg Hb Hl H0 Hp. unfold rx_eap_packet. cbv zeta.
  assert (Hskip : ∃ b, (if conf_workaround (conf (eapol_ctx w)) &&
      bool_decide (sizeof_eap_hdr ≤ plen)
    then code ← access (rd buf sizeof_ieee802_1x_hdr); Ret (bool_decide (code = 10))
    else Ret false) = Ret b).
  { destruct (_ && _) eqn:E; [|by eexists]. apply andb_true_iff in E as [_ E].
    apply bool_decide_eq_true_1 in E. unfold sizeof_ieee802_1x_hdr, sizeof_eap_hdr in *.
    destruct (rd_in buf 4) as [c ->]; [lia|]. by eexists. }
  destruct Hskip as (skip & ->). rewrite ret_bind.
  destruct skip; [by apply ret_goes|].
  set (w1 := if cached_pmk _ then _ else w).
  assert (Hg1 : good w1) by (subst w1; destruct (cached_pmk _); auto using abort_cached_good).
  clearbody w1. unfold malloc. set (w2 := w1 <| n_alloc ::= Datatypes.S |>).
  assert (Hg2 : good w2) by (apply (good_eap w1); [done| |done]; by destruct Hg1).
  set (ok := alloc_ok (n_alloc w1)). clearbody w2 ok.
  destruct (slice_is_Some buf sizeof_ieee802_1x_hdr plen) as [d Ed];
    [unfold sizeof_ieee802_1x_hdr; lia..|].
  rewrite Ed. rewrite access_bind.
  pose proof (slice_length _ _ _ _ Ed) as Hd. pose proof (slice_Forall _ _ _ _ _ Hb Ed) as Hdb.
  rewrite <- Hd. destruct (wpabuf_alloc_copy_spec d) as (Hno & b & Hyes & Hw & Hm & _); [lia|].
  destruct ok; rewrite ?Hno, ?Hyes, ret_bind.
  - apply step_sound. apply good_same; [|done..]. apply good_on_sm; [done|].
    intros s [[_ Hc] Ht]. split; [|exact Ht]. split; [|exact Hc].
    intros ? [= <-]. by rewrite Hm.
  - apply ret_goes. apply good_on_sm; [done|]. intros s [[_ Hc] Ht]. split; [|exact Ht].
    by split.
Qed.

Lemma rx_key_good w buf plen :
  good w → 0 ≤ plen → plen + 4 ≤ blen buf →
  ∃ r w', rx_eapol_key timer_ok confirm_auth methods sha1 alloc_ok w buf plen = Ret (r, w') ∧
          good w'.
Proof.
  intros Hg H0 Hp. unfold rx_eapol_key, sizeof_ieee802_1x_eapol_key, sizeof_ieee802_1x_hdr.
  case_bool_decide; [by eexists _, _|].
  destruct (rd_in buf 4) as [ty ->]; [lia|]. rewrite access_bind.
  case_bool_decide; [by eexists _, _|]. case_bool_decide; [by eexists _, _|].
  unfold malloc. set (w2 := w <| n_alloc ::= Datatypes.S |>).
  assert (Hg2 : good w2) by (apply (good_eap w); [done| |done]; by destruct Hg).
  clearbody w2. destruct (alloc_ok (n_alloc w)).
  - destruct (slice_is_Some buf 0 (plen + 4)) as [d ->]; [lia..|].
    rewrite access_bind.
    destruct (step_sound (on_sm (λ sm, sm <| last_rx_key := Some d |> <| rxKey := true |>) w2))
      as (w' & -> & Hw'); [by apply good_same|].
    rewrite ret_bind. by eexists _, _.
  - eexists _, _. split; [done|]. by apply good_same.
Qed.

Lemma rx_good w src buf :
  good w → bytes_ok buf → blen buf < 2 ^ 32 →
  ∃ r w', eapol_sm_rx_eapol timer_ok confirm_auth methods sha1 alloc_ok w src buf = Ret (r, w') ∧
          good w'.
Proof.
  intros Hg Hb Hl. unfold eapol_sm_rx_eapol. cbv zeta.
  set (w1 := on_sm _ w). assert (Hg1 : good w1) by (by apply good_same). clearbody w1.
  case_bool_decide as Hlen; [eexists _, _; split; [done|]; by apply good_same|].
  unfold sizeof_ieee802_1x_hdr in Hlen.
  destruct (rd_in buf 0) as [v ->]; [lia|]. rewrite access_bind.
  destruct (rd_in buf 1) as [ty ->]; [lia|]. rewrite access_bind.
  set (w2 := on_sm _ w1). assert (Hg2 : good w2) by (by apply good_same). clearbody w2.
  destruct (payload_len_ok (conf (eapol_ctx w2)) buf) as (r & -> & Hr);
    [done|unfold sizeof_ieee802_1x_hdr; lia|]. rewrite access_bind.
  destruct r as [plen|]; [|eexists _, _; split; [done|]; by apply good_same].
  destruct (Hr plen eq_refl) as [? Hp]. unfold sizeof_ieee802_1x_hdr in Hp.
  case_bool_decide.
  { destruct (rx_eap_good w2 buf plen) as (w3 & -> & ?); [done..|].
    rewrite ret_bind. by eexists _, _. }
  case_bool_decide; [by apply rx_key_good|].
  eexists _, _. split; [done|]. by apply good_same.
Qed.

Lemma configure_good w h a st mx : good w → good (eapol_sm_configure w h a st mx).
Proof.
  intros Hg. apply good_same; [done|..]; intros s; repeat case_bool_decide; done.
Qed.

Lemma config_good w cfg c :
  good w → (∀ c, cfg = Some c → config_ok c) → good (eapol_sm_notify_config w cfg c).
Proof.
  intros Hg Hc. unfold eapol_sm_notify_config. cbv zeta.
  set (w1 := on_sm _ w).
  assert (Hg1 : good w1).
  { apply good_on_sm; [done|]. intros s [[Hr _] Ht]. split; [|exact Ht]. by split. }
  clearbody w1. destruct c as [c|]; [|done].
  set (w2 := on_sm _ w1). assert (Hg2 : good w2) by (by apply good_same). clearbody w2.
  apply (good_eap w2); [done| |done]. by destruct Hg2.
Qed.

Lemma lower_layer_good w : good w → good (eap_notify_lower_layer_success w).
Proof.
  intros Hg. unfold eap_notify_lower_layer_success.
  destruct (_ || _ || _); [done|]. cbv zeta.
  assert (Hset : ∀ w, good w → good (eapol_set_bool w EAPOL_eapSuccess true)).
  { intros w' [HQ He]. split; [|done]. eapply (cl_reach _ _ _ closed_sound); [done|].
    apply (reach_bool _ EAPOL_eapSuccess true); [done|apply reach_refl]. }
  destruct (eapKeyData w); [|by apply Hset]. apply Hset.
  apply (good_eap w); [done| |done]. by destruct Hg.
Qed.

Lemma invalidate_good w : good w → good (eapol_sm_invalidate_cached_session w).
Proof.
  intros [HQ He]. unfold eapol_sm_invalidate_cached_session, eap_invalidate_cached_session.
  assert (Hok : eap_ok methods (eap_deinit_prev_method w)).
  { apply deinit_ok, world_ok_split. by destruct HQ. }
  apply world_ok_split in Hok as [_ ?].
  destruct (deinit_frame w) as (_ & _ & E & _). split; [by rewrite E|done].
Qed.

Lemma call_goes w c :
  good w → call_ok c →
  goes (eapol_do timer_ok confirm_auth methods sha1 alloc_ok w c).
Proof.
  intros Hg Hc. destruct c; simpl.
  - by apply tick_good.
  - by apply ret_goes, configure_good.
  - destruct Hc. destruct (rx_good w src buf) as (r & w' & -> & ?); [done..|].
    rewrite ret_bind. by apply ret_goes.
  - by apply ret_goes, good_same.
  - apply step_sound, good_same; [done|..]; intros s; by case_bool_decide.
  - by apply step_sound, good_same.
  - apply step_sound. destruct success; [apply notify_success_good|]; by apply good_same.
  - by apply step_sound, good_same.
  - apply ret_goes, config_good; [done|]. intros ? ->. done.
  - apply step_sound. apply good_on_sm; [done|]. intros s [Hs Ht]. destruct logoff; [done|].
    split; [done|]. destruct Ht as [Ht Hp]. split; [|exact Hp].
    intros Htimer. destruct (Ht Htimer) as [?|(?&?&?&?)]; [by left|right]. simpl. lia.
  - by apply step_sound, notify_success_good, good_same.
  - by apply ret_goes, good_same.
  - by apply step_sound, good_same.
  - unfold eapol_sm_notify_ctrl_response. cbv zeta.
    destruct (_ && _); [by apply step_sound, good_same|by apply ret_goes].
  - apply ret_goes. unfold eapol_sm_request_reauth. case_bool_decide; [done|].
    by apply good_same.
  - by apply step_sound, lower_layer_good.
  - by apply ret_goes, invalidate_good.
  - by apply step_sound.
Qed.

Lemma run_goes w cs :
  good w → Forall call_ok cs →
  goes (eapol_run timer_ok confirm_auth methods sha1 alloc_ok w cs).
Proof.
  revert w. induction cs as [|c cs IH]; intros w Hg; [by intros; apply ret_goes|].
  intros [Hc Hcs]%Forall_cons. simpl.
  destruct (call_goes w c Hg Hc) as (w' & -> & Hg'). rewrite ret_bind. by apply IH.
Qed.

Lemma init_goes pre n :
  goes (eapol_sm_init timer_ok confirm_auth methods sha1 alloc_ok pre n).
Proof.
  unfold eapol_sm_init. cbv zeta.
  set (w := on_sm _ (eap_peer_sm_init (eapol_zero pre) n)).
  assert (Hg : good w).
  { split; [|done]. split; [by split|]. split; [intros _; right; simpl; lia|done]. }
  clearbody w. destruct (step_sound w Hg) as (w1 & -> & Hg1). rewrite ret_bind.
  destruct (step_sound (on_sm (λ sm, sm <| initialize := false |>) w1)) as (w2 & -> & Hg2);
    [by apply good_same|]. rewrite ret_bind. apply ret_goes.
  apply good_on_sm; [done|]. intros s (Hs & Ht & Hp). unfold register_tick. cbn.
  destruct (timer_ok (trace s)); (split; [done|]; split; [|exact Hp]); [by left|exact Ht].
Qed.

(** C16: whatever frames arrive and whatever calls the rest of the supplicant makes, in
    any order, no call reads or writes outside an object or aborts, and the port is closed
    while the PAE machine is logged off, disconnected, held or forced unauthorized.  When
    eloop_register_timeout succeeds the one-second tick is scheduled whenever a timer of the
    port that it drives is running.  EAP methods keep their contract ([methods_ok]), the
    frames consist of octets and the configurations are well formed ([call_ok]). *)
Theorem eapol_calls_safe_and_ticking pre n cs :
  Forall call_ok cs →
  ∃ w, (w ← eapol_sm_init timer_ok confirm_auth methods sha1 alloc_ok pre n;
        eapol_run timer_ok confirm_auth methods sha1 alloc_ok w cs) = Ret w ∧
       eap_ok methods w ∧ ticking (eapol_ctx w) ∧ port_inv (eapol_ctx w).
Proof.
  intros Hcs. destruct (init_goes pre n) as (w0 & -> & Hg). rewrite ret_bind.
  destruct (run_goes w0 cs Hg Hcs) as (w & -> & (Hs & Ht & Hp) & He).
  exists w. split_and!; [done|by apply world_ok_split|done|done].
Qed.

(** C17: when the user logs off, one EAPOL-Logoff frame is sent, the PAE machine rests in
    LOGOFF and the controlled port is closed, whatever the EAP machine was doing and in
    every state of the PAE machine, if the port is enabled, the machine is in the port mode
    that is configured (sPortMode is portControl; when the mode was just changed the step
    goes on to the state of the new mode), and no logoff has been sent since it was
    last DISCONNECTED (logoffSent). *)
Theorem logoff_closes_port w :
  eap_ok methods w →
  let s := eapol_ctx w in
  portEnabled s = true → initialize s = false → sPortMode s = portControl s →
  logoffSent s = false →
  ∃ w', eapol_sm_notify_logoff timer_ok confirm_auth methods sha1 alloc_ok w true = Ret w' ∧
        SUPP_PAE_state (eapol_ctx w') = SUPP_PAE_LOGOFF ∧
        suppPortStatus (eapol_ctx w') = Unauthorized ∧
        EvSend IEEE802_1X_TYPE_EAPOL_LOGOFF [] ∈ trace (eapol_ctx w').
Proof.
  intros Hok s Hp Hi Hm Hl. apply world_ok_split in Hok as [Hctx He].
  set (Q := λ s, ctx_ok (S := eapol_sm) s ∧ logged_off s).
  set (s1 := s <| userLogoff := true |> <| sm_changed := false |>).
  assert (Hstep : sm_SUPP_PAE_Step timer_ok confirm_auth s1 = sm_SUPP_PAE_LOGOFF_Enter s1 true).
  { unfold sm_SUPP_PAE_Step. subst s1. simpl. by rewrite Hp, Hi, Hl. }
  assert (HQ : Q (sm_SUPP_PAE_Step timer_ok confirm_auth s1)).
  { split; [apply (cl_pae _ _ _ (closed_ctx_ok timer_ok confirm_auth)); exact Hctx|].
    rewrite Hstep. unfold sm_SUPP_PAE_LOGOFF_Enter, eapol_sm_txLogoff. cbv zeta.
    subst s1. unfold PAE_ENTRY, eapol_sm_set_port_unauthorized. simpl.
    unfold logged_off, logoff_view, port_view.
    destruct (bool_decide (SUPP_PAE_state s ≠ SUPP_PAE_LOGOFF)); simpl;
      (destruct (bool_decide (suppPortStatus s ≠ Unauthorized) || force_authorized_update s);
       simpl; rewrite Hp, Hi, Hm; (split; [done|set_solver])). }
  destruct (step_goes_from timer_ok confirm_auth methods sha1 alloc_ok Hmethods Q)
    with (w := on_sm (λ sm, sm <| userLogoff := true |>) w) as (w' & E & [Hctx' Hoff] & _).
  - apply closed_and; [apply closed_ctx_ok|apply closed_logged_off].
  - by intros ? [].
  - exact HQ.
  - done.
  - exists w'. split; [exact E|]. destruct Hoff as [Ev Ht].
    unfold logoff_view, port_view in Ev. injection Ev. auto.
Qed.
End runs.

(** ** Concrete runs *)
Module Port.
Import Run.
Definition timer_ok (_ : list eapol_event) := true.
Definition confirm_auth (_ : list eapol_event) := false.
(** EAP success with keys that need no frames. *)
Definition ready : eapol_sm :=
  (eapol_zero false) <| portEnabled := true |> <| SUPP_PAE_state := SUPP_PAE_AUTHENTICATING |>
    <| eapSuccess := true |> <| portValid := true |>.
(** Associate, and receive a request of type 26. *)
Definition calls : list eapol_call :=
  [CallPortEnabled true; CallRx [1; 2; 3; 4; 5; 6] ([2; 0; 0; 5] ++ ping); CallTick;
   CallLogoff true].
Definition associated : eap_sm eapol_sm unit :=
  (eap_peer_sm_init ((eapol_zero false) <| portEnabled := true |>) O).
End Port.

Example port_opens_with_reason_witness : may_open Port.ready.
Proof.
  apply (port_opens_with_reason Port.timer_ok Port.confirm_auth Port.ready);
    vm_compute; reflexivity.
Defined.

Example eapol_calls_safe_and_ticking_witness :
  ∃ w, (w ← eapol_sm_init Port.timer_ok Port.confirm_auth Run.methods Run.sha1 Run.alloc_ok false O;
        eapol_run Port.timer_ok Port.confirm_auth Run.methods Run.sha1 Run.alloc_ok w Port.calls)
       = Ret w ∧
       @eap_ok _ _ (eapol_cb Port.timer_ok) Run.methods w ∧ timers_running (eapol_ctx w) ∧
       port_inv (eapol_ctx w).
Proof.
  destruct (eapol_calls_safe_and_ticking Port.timer_ok Port.confirm_auth Run.methods Run.sha1
    Run.alloc_ok Run.methods_are_ok false O Port.calls) as (w & R & Hw & Ht & Hp).
  { repeat constructor; unfold is_byte; try lia. }
  exists w. split; [exact R|]. split; [exact Hw|]. split; [apply Ht; reflexivity|exact Hp].
Defined.

Example logoff_closes_port_witness :
  ∃ w', eapol_sm_notify_logoff Port.timer_ok Port.confirm_auth Run.methods Run.sha1 Run.alloc_ok
          Port.associated true = Ret w' ∧
        SUPP_PAE_state (eapol_ctx w') = SUPP_PAE_LOGOFF ∧
        suppPortStatus (eapol_ctx w') = Unauthorized ∧
        EvSend IEEE802_1X_TYPE_EAPOL_LOGOFF [] ∈ trace (eapol_ctx w').
Proof.
  apply (logoff_closes_port Port.timer_ok Port.confirm_auth Run.methods Run.sha1 Run.alloc_ok
    Run.methods_are_ok Port.associated); try reflexivity.
  split; [|done..]. by split.
Defined.
