(* ===== verification/EapServer.v ===== *)
(** EAP server state machine (src/eap_server/eap_server.c)

    The RFC 4137 full authenticator: [eap_sm] is struct eap_sm of eap_i.h, with
    struct eap_eapol_interface as [eap_if], each [SM_STATE] is a function that
    enters a state, and [eap_server_sm_step] is the loop that runs [SM_STEP]
    until nothing changes.

    The layer below (eapol_auth_sm.c) is struct eapol_callbacks, the class
    [EapolCallbacks].  EAP methods are the function tables registered with
    eap_server_methods.c, the record [eap_method]; [P] is the type of their
    private data and [method_vars] the part of struct eap_sm they write.

    ERP is not built (src/utils/includes.h), so that INITIATE_RECEIVED is never
    entered and [eap_server_erp_init] is empty.  Messages for the log and the
    control interface have no effect here. *)
From stdpp Require Import strings.
From S2P Require Import Prelude Bytes Wpabuf EapCommon.

Definition EAP_MAX_METHODS := 8.
Definition EAP_ERP_TYPE_REAUTH_START := 1.

(** ** Users and the layer below *)

(** The fields of struct eap_user that are used here. *)
Record eap_user := mk_user {
  methods : list (Z * Z);   (** [methods[EAP_MAX_METHODS]]: vendor and method *)
  password : option (list Z);
  password_hash : bool;
  phase2 : bool;
  remediation : bool;
}.
#[export] Instance eta_user : Eta eap_user := λ u,
  mk_user (methods u) (password u) (password_hash u) (phase2 u) (remediation u).

(** What [os_zalloc] makes. *)
Definition zero_user : eap_user :=
  mk_user (replicate (Z.to_nat EAP_MAX_METHODS) (0, 0)) None false false false.

Class EapolCallbacks (S : Type) := {
  (** success, and what became of the structure that was passed *)
  get_eap_user : S → list Z → bool → eap_user → bool * eap_user * S;
  get_eap_req_id_text : S → option (list Z);
  get_erp_send_reauth_start : S → bool;
  get_erp_domain : S → option (list Z);
}.

(** struct eap_eapol_interface; a key and a session id carry their length. *)
Record eap_eapol_interface := mk_if {
  eapResp : bool;
  eapRespData : option wpabuf;
  portEnabled : bool;
  retransWhile : Z;
  eapRestart : bool;
  eapSRTT : Z;
  eapRTTVAR : Z;
  eapReq : bool;
  eapNoReq : bool;
  eapSuccess : bool;
  eapFail : bool;
  eapTimeout : bool;
  eapReqData : option wpabuf;
  eapKeyData : option (list Z);
  eapSessionId : option (list Z);
  eapKeyAvailable : bool;
  aaaEapReq : bool;
  aaaEapNoReq : bool;
  aaaSuccess : bool;
  aaaFail : bool;
  aaaEapReqData : option wpabuf;
  aaaEapKeyData : option (list Z);
  aaaEapKeyAvailable : bool;
  aaaMethodTimeout : Z;
  aaaEapResp : bool;
  aaaEapRespData : option wpabuf;
  aaaTimeout : bool;
}.
#[export] Instance eta_if : Eta eap_eapol_interface := λ i,
  mk_if (eapResp i) (eapRespData i) (portEnabled i) (retransWhile i) (eapRestart i)
    (eapSRTT i) (eapRTTVAR i) (eapReq i) (eapNoReq i) (eapSuccess i) (eapFail i)
    (eapTimeout i) (eapReqData i) (eapKeyData i) (eapSessionId i) (eapKeyAvailable i)
    (aaaEapReq i) (aaaEapNoReq i) (aaaSuccess i) (aaaFail i) (aaaEapReqData i)
    (aaaEapKeyData i) (aaaEapKeyAvailable i) (aaaMethodTimeout i) (aaaEapResp i)
    (aaaEapRespData i) (aaaTimeout i).

(** ** Methods *)
Inductive pending := METHOD_PENDING_NONE | METHOD_PENDING_WAIT | METHOD_PENDING_CONT.
#[export] Instance pending_eq_dec : EqDecision pending.
Proof. solve_decision. Defined.

(** The fields of struct eap_sm that methods write; [n_alloc] and [n_rand] count
    the allocations and the random numbers drawn, to index the answers. *)
Record method_vars (S : Type) := mk_vars {
  eapol_ctx : S;
  identity : option (list Z);
  serial_num : option (list Z);
  imsi : option (list Z);
  require_identity_match : bool;
  user : option eap_user;
  user_eap_method_index : Z;
  update_user : bool;
  method_pending : pending;
  n_alloc : nat;
  n_rand : nat;
}.
Arguments eapol_ctx {S}. Arguments identity {S}. Arguments serial_num {S}.
Arguments imsi {S}. Arguments require_identity_match {S}. Arguments user {S}.
Arguments user_eap_method_index {S}. Arguments update_user {S}.
Arguments method_pending {S}. Arguments n_alloc {S}. Arguments n_rand {S}.
#[export] Instance eta_vars S : Eta (method_vars S) := λ v,
  mk_vars S (eapol_ctx v) (identity v) (serial_num v) (imsi v) (require_identity_match v)
    (user v) (user_eap_method_index v) (update_user v) (method_pending v) (n_alloc v)
    (n_rand v).

(** struct eap_method; a handler that may be [NULL] is an [option]. *)
Record eap_method (S P : Type) := mk_method {
  vendor : Z;
  method : Z;
  name : string;
  init : method_vars S → option P * method_vars S;
  initPickUp : option (method_vars S → option P * method_vars S);
  reset : method_vars S → P → method_vars S;
  buildReq : method_vars S → P → Z → outcome (option wpabuf * P * method_vars S);
  getTimeout : option (method_vars S → P → Z);
  check : option (method_vars S → P → wpabuf → outcome bool);
  process : method_vars S → P → wpabuf → outcome (P * method_vars S);
  isDone : P → bool;
  getKey : option (method_vars S → P → option (list Z) * method_vars S);
  isSuccess : P → bool;
  getSessionId : option (method_vars S → P → option (list Z) * method_vars S);
}.
Arguments vendor {S P}. Arguments method {S P}. Arguments name {S P}.
Arguments init {S P}. Arguments initPickUp {S P}. Arguments reset {S P}.
Arguments buildReq {S P}. Arguments getTimeout {S P}. Arguments check {S P}.
Arguments process {S P}. Arguments isDone {S P}. Arguments getKey {S P}.
Arguments isSuccess {S P}. Arguments getSessionId {S P}.

(** ** The method registry (src/eap_server/eap_server_methods.c) *)
Section registry.
Context {S P : Type}.
Implicit Types l : list (eap_method S P).

Definition eap_server_get_eap_method l (v t : Z) : option (eap_method S P) :=
  List.find (λ me, bool_decide (vendor me = v ∧ method me = t)) l.

(** The type of a method by name, with its vendor. *)
Definition eap_server_get_type l (n : string) : Z * Z :=
  match List.find (λ me, bool_decide (name me = n)) l with
  | Some me => (vendor me, method me)
  | None => (EAP_VENDOR_IETF, EAP_TYPE_NONE)
  end.

Definition eap_server_get_name l (v t : Z) : string :=
  if bool_decide (v = EAP_VENDOR_IETF ∧ t = EAP_TYPE_EXPANDED) then "expanded"
  else match eap_server_get_eap_method l v t with
       | Some me => name me
       | None => "unknown"
       end.

(** Two registered methods differ in their type and in their name. *)
Definition same_method (me me' : eap_method S P) : bool :=
  bool_decide (vendor me = vendor me' ∧ method me = method me') ||
  bool_decide (name me = name me').

(** For a method with a name and the expected version. *)
Definition eap_server_method_register l (me : eap_method S P) : Z * list (eap_method S P) :=
  if existsb (same_method me) l then (-2, l) else (0, l ++ [me]).
End registry.

(** ** The state machine *)
Inductive eap_state :=
| EAP_DISABLED | EAP_INITIALIZE | EAP_IDLE | EAP_RECEIVED | EAP_INTEGRITY_CHECK
| EAP_METHOD_RESPONSE | EAP_METHOD_REQUEST | EAP_PROPOSE_METHOD | EAP_SELECT_ACTION
| EAP_SEND_REQUEST | EAP_DISCARD | EAP_NAK | EAP_RETRANSMIT | EAP_SUCCESS | EAP_FAILURE
| EAP_TIMEOUT_FAILURE | EAP_PICK_UP_METHOD | EAP_INITIALIZE_PASSTHROUGH | EAP_IDLE2
| EAP_RETRANSMIT2 | EAP_RECEIVED2 | EAP_DISCARD2 | EAP_SEND_REQUEST2 | EAP_AAA_REQUEST
| EAP_AAA_RESPONSE | EAP_AAA_IDLE | EAP_TIMEOUT_FAILURE2 | EAP_FAILURE2 | EAP_SUCCESS2
| EAP_INITIATE_REAUTH_START | EAP_INITIATE_RECEIVED.
#[export] Instance eap_state_eq_dec : EqDecision eap_state.
Proof. solve_decision. Defined.

Inductive EapMethodState := METHOD_PROPOSED | METHOD_CONTINUE | METHOD_END.
#[export] Instance EapMethodState_eq_dec : EqDecision EapMethodState.
Proof. solve_decision. Defined.

Inductive EapDecision :=
| DECISION_SUCCESS | DECISION_FAILURE | DECISION_CONTINUE | DECISION_PASSTHROUGH
| DECISION_INITIATE_REAUTH_START.
#[export] Instance EapDecision_eq_dec : EqDecision EapDecision.
Proof. solve_decision. Defined.

(** The fields of struct eap_config that are used here. *)
Record eap_config := mk_config {
  backend_auth : bool;
  eap_server : bool;
  max_auth_rounds : Z;
  max_auth_rounds_short : Z;
}.

Record eap_sm (S P : Type) := mk_eap {
  EAP_state : eap_state;
  MaxRetrans : Z;
  eap_if : eap_eapol_interface;
  currentMethod : Z;
  currentId : Z;
  methodState : EapMethodState;
  retransCount : Z;
  lastReqData : option wpabuf;
  methodTimeout : Z;
  rxResp : bool;
  rxInitiate : bool;
  respId : Z;
  respMethod : Z;
  respVendor : Z;
  respVendorMethod : Z;
  ignore : bool;
  decision : EapDecision;
  m : option (eap_method S P);
  changed : bool;
  eap_method_priv : option P;
  lastId : Z;
  num_rounds : Z;
  num_rounds_short : Z;
  start_reauth : bool;
  initiate_reauth_start_sent : bool;
  try_initiate_reauth : bool;
  mv : method_vars S;
}.
Arguments EAP_state {S P}. Arguments MaxRetrans {S P}. Arguments eap_if {S P}.
Arguments currentMethod {S P}. Arguments currentId {S P}. Arguments methodState {S P}.
Arguments retransCount {S P}. Arguments lastReqData {S P}. Arguments methodTimeout {S P}.
Arguments rxResp {S P}. Arguments rxInitiate {S P}. Arguments respId {S P}.
Arguments respMethod {S P}. Arguments respVendor {S P}. Arguments respVendorMethod {S P}.
Arguments ignore {S P}. Arguments decision {S P}. Arguments m {S P}.
Arguments changed {S P}. Arguments eap_method_priv {S P}. Arguments lastId {S P}.
Arguments num_rounds {S P}. Arguments num_rounds_short {S P}. Arguments start_reauth {S P}.
Arguments initiate_reauth_start_sent {S P}. Arguments try_initiate_reauth {S P}.
Arguments mv {S P}.
#[export] Instance eta_eap_sm S P : Eta (eap_sm S P) := λ s,
  mk_eap S P (EAP_state s) (MaxRetrans s) (eap_if s) (currentMethod s) (currentId s)
    (methodState s) (retransCount s) (lastReqData s) (methodTimeout s) (rxResp s)
    (rxInitiate s) (respId s) (respMethod s) (respVendor s) (respVendorMethod s) (ignore s)
    (decision s) (m s) (changed s) (eap_method_priv s) (lastId s) (num_rounds s)
    (num_rounds_short s) (start_reauth s) (initiate_reauth_start_sent s)
    (try_initiate_reauth s) (mv s).

(** An assignment [sm->eap_if.f = v]. *)
Notation "s <|if f := v |>" := (update eap_if (update f (λ _, v)) s)
  (at level 1, f at level 1, left associativity) : record_scope.
(** An assignment to a field that methods share. *)
Notation "s <|mv f := v |>" := (update mv (update f (λ _, v)) s)
  (at level 1, f at level 1, left associativity) : record_scope.

(** ** Helpers *)
Section helpers.
Context {S : Type} `{EapolCallbacks S}.
Variable alloc_ok : nat → bool.
Implicit Types v : method_vars S.

(** Whether the allocator grants the next request. *)
Definition malloc v : bool * method_vars S :=
  (alloc_ok (n_alloc v), v <| n_alloc ::= Datatypes.S |>).

(** [0] or [-1]; a copy that fails leaves the old value. *)
Definition eap_user_get v (id : list Z) (ph2 : bool) : Z * method_vars S :=
  let v := v <| user := None |> in
  let (ok, v) := malloc v in
  if ok : bool then
    let '(found, u, ctx) := get_eap_user (eapol_ctx v) id ph2 zero_user in
    let v := v <| eapol_ctx := ctx |> in
    if found : bool then (0, v <| user := Some u |> <| user_eap_method_index := 0 |>)
    else (-1, v)
  else (-1, v).

Definition eap_server_clear_identity v : method_vars S := v <| identity := None |>.

(** An entry that ends the list of a user's methods. *)
Definition no_method (e : Z * Z) : bool :=
  bool_decide (e.1 = EAP_VENDOR_IETF ∧ e.2 = EAP_TYPE_NONE).

(** [os_memmove] of the entries after [i] onto [i], and the last entry cleared. *)
Definition remove_method (l : list (Z * Z)) (i : Z) : option (list (Z * Z)) :=
  l ← (if bool_decide (i + 1 < EAP_MAX_METHODS) then
         src ← slice l (i + 1) (EAP_MAX_METHODS - i - 1);
         blit l i src
       else Some l);
  wr l (EAP_MAX_METHODS - 1) (EAP_VENDOR_IETF, EAP_TYPE_NONE).

(** The [while] loop of [eap_sm_process_nak].  Each pass moves past an entry or
    removes one, so that nine passes are enough. *)
Fixpoint process_nak_loop (fuel : nat) (l : list (Z * Z)) (i : Z) (nak_list : list Z) :
    option (list (Z * Z)) :=
  match fuel with
  | O => Some l
  | Datatypes.S fuel =>
      if bool_decide (i < EAP_MAX_METHODS) then
        e ← rd l i;
        if no_method e then Some l
        else if bool_decide (e.1 = EAP_VENDOR_IETF) && bool_decide (e.2 ∈ nak_list)
        then process_nak_loop fuel l (i + 1) nak_list
        else l ← remove_method l i; process_nak_loop fuel l i nak_list
      else Some l
  end.

Definition eap_sm_process_nak v (nak_list : list Z) : outcome (method_vars S) :=
  match user v with
  | None => Ret v
  | Some u =>
      l ← access (process_nak_loop 9 (methods u) (user_eap_method_index v) nak_list);
      Ret (v <| user := Some (u <| methods := l |>) |>)
  end.

(** The entry of the user's method list that comes next, if there is one. *)
Definition next_entry v : outcome (option (Z * Z)) :=
  match user v with
  | None => Ret None
  | Some u =>
      if bool_decide (user_eap_method_index v < EAP_MAX_METHODS) then
        e ← access (rd (methods u) (user_eap_method_index v));
        Ret (if no_method e then None else Some e)
      else Ret None
  end.

(** [methods[0]] of the user is the Identity method. *)
Definition identity_first v : outcome bool :=
  match user v with
  | None => Ret false
  | Some u =>
      e ← access (rd (methods u) 0);
      Ret (bool_decide (e.1 = EAP_VENDOR_IETF ∧ e.2 = EAP_TYPE_IDENTITY))
  end.
End helpers.

(** Doubles the timeout [n] times, up to twenty seconds. *)
Fixpoint backoff (n : nat) (rto : Z) : Z :=
  match n with
  | O => rto
  | Datatypes.S n => let rto := rto * 2 in if bool_decide (20 ≤ rto) then 20 else backoff n rto
  end.

Definition eap_sm_getId (data : option wpabuf) : outcome Z :=
  match data with
  | None => Ret (-1)
  | Some d => if bool_decide (used d < sizeof_eap_hdr) then Ret (-1) else access (rd (mem d) 1)
  end.

(** [eap_sm_buildSuccess] and [eap_sm_buildFailure]. *)
Definition build_result (ok : bool) (code id : Z) : outcome (option wpabuf) :=
  match wpabuf_alloc ok sizeof_eap_hdr with
  | None => Ret None
  | Some msg =>
      msg ← wpabuf_put_bytes msg (eap_hdr_octets code (u8 id) sizeof_eap_hdr);
      Ret (Some msg)
  end.
Definition eap_sm_buildSuccess (ok : bool) (id : Z) := build_result ok EAP_CODE_SUCCESS id.
Definition eap_sm_buildFailure (ok : bool) (id : Z) := build_result ok EAP_CODE_FAILURE id.

Section eap_server.
Context {S P : Type} `{EapolCallbacks S}.
(** the methods registered in eap_server_methods.c, in list order *)
Variable registered : list (eap_method S P).
Variable cfg : eap_config.
(** whether the allocator grants its n-th request, and the n-th result of [rand] *)
Variable alloc_ok : nat → bool.
Variable rand : nat → Z.
(** how often PROPOSE_METHOD may try another method *)
Variable tries : nat.

Implicit Types sm : eap_sm S P.

(** An allocation by the state machine. *)
Definition sm_malloc sm : bool * eap_sm S P :=
  let (ok, v) := malloc alloc_ok (mv sm) in (ok, sm <| mv := v |>).

Definition eap_sm_buildInitiateReauthStart sm (id : Z) : outcome (option wpabuf * eap_sm S P) :=
  let dom := get_erp_domain (eapol_ctx (mv sm)) in
  let plen := match dom with Some d => 1 + (2 + blen d) | None => 1 end in
  let (ok, sm) := sm_malloc sm in
  msg ← eap_msg_alloc ok EAP_VENDOR_IETF EAP_ERP_TYPE_REAUTH_START plen EAP_CODE_INITIATE id;
  match msg with
  | None => Ret (None, sm)
  | Some msg =>
      msg ← wpabuf_put_u8 msg 0;
      msg ← match dom with
            | Some d =>
                msg ← wpabuf_put_u8 msg EAP_ERP_TLV_DOMAIN_NAME;
                msg ← wpabuf_put_u8 msg (u8 (blen d));
                wpabuf_put_data msg (Some d) (blen d)
            | None => Ret msg
            end;
      Ret (Some msg, sm)
  end.

(** [eap_copy_buf] for a source that is not [NULL]: the copy, or [NULL]. *)
Definition eap_copy_buf sm (src : wpabuf) : outcome (option wpabuf * eap_sm S P) :=
  let (ok, sm) := sm_malloc sm in
  d ← wpabuf_dup ok src;
  Ret (d, sm).

Definition eap_sm_calculateTimeout sm (retrans methodTmo : Z) : Z :=
  if try_initiate_reauth sm then 1
  else if bool_decide (methodTmo ≠ 0) then methodTmo
  else backoff (Z.to_nat retrans) 3.

Definition eap_sm_nextId sm (id : Z) : Z * eap_sm S P :=
  if bool_decide (id < 0) then
    let r := Z.land (rand (n_rand (mv sm))) 0xff in
    let sm := sm <| mv ::= λ v, v <| n_rand ::= Datatypes.S |> |> in
    if bool_decide (r ≠ lastId sm) then (r, sm) else (Z.land (r + 1) 0xff, sm)
  else (Z.land (id + 1) 0xff, sm).

Definition eap_sm_parseEapResp sm (resp : option wpabuf) : outcome (eap_sm S P) :=
  let sm := sm <| rxResp := false |> <| rxInitiate := false |> <| respId := -1 |>
               <| respMethod := EAP_TYPE_NONE |> <| respVendor := EAP_VENDOR_IETF |>
               <| respVendorMethod := EAP_TYPE_NONE |> in
  match resp with
  | None => Ret sm
  | Some resp =>
      if bool_decide (used resp < sizeof_eap_hdr) then Ret sm
      else
        plen ← access (WPA_GET_BE16 (mem resp) 2);
        if bool_decide (used resp < plen) then Ret sm
        else
          id ← access (rd (mem resp) 1);
          code ← access (rd (mem resp) 0);
          let sm := sm <| respId := id |> in
          let sm := if bool_decide (code = EAP_CODE_RESPONSE) then sm <| rxResp := true |>
                    else if bool_decide (code = EAP_CODE_INITIATE)
                    then sm <| rxInitiate := true |> else sm in
          if bool_decide (sizeof_eap_hdr < plen) then
            ty ← access (rd (mem resp) 4);
            let sm := sm <| respMethod := ty |> in
            if bool_decide (ty = EAP_TYPE_EXPANDED) then
              if bool_decide (plen < sizeof_eap_hdr + 8) then Ret sm
              else
                vd ← access (WPA_GET_BE24 (mem resp) 5);
                vm ← access (WPA_GET_BE32 (mem resp) 8);
                Ret (sm <| respVendor := vd |> <| respVendorMethod := vm |>)
            else Ret sm
          else Ret sm
  end.

(** ** Policy *)

(** [nak_list] is [None] for a null pointer. *)
Definition eap_sm_Policy_update sm (nak_list : option (list Z)) : outcome (eap_sm S P) :=
  match nak_list, user (mv sm) with
  | Some l, Some u =>
      if phase2 u then Ret (sm <| decision := DECISION_FAILURE |>)
      else v ← eap_sm_process_nak (mv sm) l; Ret (sm <| mv := v |>)
  | _, _ => Ret sm
  end.

(** The vendor and the type of the method to try. *)
Definition eap_sm_Policy_getNextMethod sm : outcome (Z * Z * eap_sm S P) :=
  if bool_decide (identity (mv sm) = None) || bool_decide (currentId sm = -1) then
    Ret (EAP_VENDOR_IETF, EAP_TYPE_IDENTITY, sm <|mv update_user := true |>)
  else
    e ← next_entry (mv sm);
    match e with
    | Some (v, t) =>
        Ret (v, t, sm <| mv ::= λ v, v <| user_eap_method_index ::= Z.succ |> |>)
    | None => Ret (EAP_VENDOR_IETF, EAP_TYPE_NONE, sm)
    end.

(** [sm->m && f(sm, sm->eap_method_priv)] *)
Definition method_says sm (f : eap_method S P → P → bool) : outcome bool :=
  match m sm, eap_method_priv sm with
  | Some me, Some p => Ret (f me p)
  | Some _, None => Undef
  | None, _ => Ret false
  end.

(** The last part of [eap_sm_Policy_getDecision]. *)
Definition getDecision_methods sm : outcome (EapDecision * eap_sm S P) :=
  let sm := sm <| start_reauth := false |> in
  e ← next_entry (mv sm);
  match e with
  | Some _ => Ret (DECISION_CONTINUE, sm)
  | None =>
      if bool_decide (identity (mv sm) = None) &&
         get_erp_send_reauth_start (eapol_ctx (mv sm)) && negb (initiate_reauth_start_sent sm)
      then Ret (DECISION_INITIATE_REAUTH_START, sm)
      else if bool_decide (identity (mv sm) = None) || bool_decide (currentId sm = -1)
      then Ret (DECISION_CONTINUE, sm)
      else Ret (DECISION_FAILURE, sm)
  end.

(** The part that looks up the user of an identity. *)
Definition getDecision_user sm : outcome (EapDecision * eap_sm S P) :=
  match identity (mv sm) with
  | Some id =>
      if (bool_decide (user (mv sm) = None) || update_user (mv sm)) && negb (start_reauth sm)
      then
        first ← identity_first (mv sm);
        let id_req := bool_decide (currentMethod sm = EAP_TYPE_IDENTITY) && first in
        let (r, v) := eap_user_get alloc_ok (mv sm) id false in
        let sm := sm <| mv := v |> in
        if bool_decide (r ≠ 0) then Ret (DECISION_FAILURE, sm)
        else
          first ← identity_first (mv sm);
          if id_req && first then Ret (DECISION_FAILURE, sm <|mv update_user := true |>)
          else getDecision_methods (sm <|mv update_user := false |>)
      else getDecision_methods sm
  | None => getDecision_methods sm
  end.

Definition eap_sm_Policy_getDecision sm : outcome (EapDecision * eap_sm S P) :=
  if negb (eap_server cfg) && bool_decide (is_Some (identity (mv sm))) && negb (start_reauth sm)
  then Ret (DECISION_PASSTHROUGH, sm)
  else
    success ← method_says sm isSuccess;
    if bool_decide (currentMethod sm ≠ EAP_TYPE_IDENTITY) && success
    then Ret (DECISION_SUCCESS, sm <|mv update_user := true |>)
    else
      failed ← method_says sm (λ me p, isDone me p && negb (isSuccess me p));
      if failed : bool then Ret (DECISION_FAILURE, sm <|mv update_user := true |>)
      else getDecision_user sm.

Definition eap_sm_Policy_doPickUp (t : Z) : bool := bool_decide (t = EAP_TYPE_IDENTITY).

(** ** Entering a state *)
Definition SM_ENTRY sm (global : bool) (st : eap_state) : eap_sm S P :=
  let sm := if negb global || bool_decide (EAP_state sm ≠ st)
            then sm <| changed := true |> else sm in
  sm <| EAP_state := st |>.

(** [sm->m->reset] when there is private data. *)
Definition reset_method sm : eap_sm S P :=
  match m sm, eap_method_priv sm with
  | Some me, Some p => sm <| mv ::= λ v, reset me v p |> <| eap_method_priv := None |>
  | _, _ => sm
  end.

Definition sm_EAP_DISABLED_Enter sm (global : bool) : eap_sm S P :=
  let sm := SM_ENTRY sm global EAP_DISABLED in
  sm <| num_rounds := 0 |> <| num_rounds_short := 0 |>.

(** The variables that INITIALIZE clears before it resets the method. *)
Definition initialize_vars (i : eap_eapol_interface) : eap_eapol_interface :=
  i <| eapSuccess := false |> <| eapFail := false |> <| eapTimeout := false |>
    <| eapKeyData := None |> <| eapSessionId := None |> <| eapKeyAvailable := false |>
    <| eapRestart := false |>.

Definition sm_EAP_INITIALIZE_Enter sm (global : bool) : outcome (eap_sm S P) :=
  let sm := SM_ENTRY sm global EAP_INITIALIZE in
  let sm := if eapRestart (eap_if sm) && negb (eap_server cfg) &&
               bool_decide (is_Some (identity (mv sm)))
            then sm <| mv ::= eap_server_clear_identity |> else sm in
  let sm := sm <| try_initiate_reauth := false |> <| currentId := -1 |>
               <| eap_if ::= initialize_vars |> in
  let sm := (reset_method sm) <| m := None |> <|mv user_eap_method_index := 0 |> in
  sm ← (if backend_auth cfg then
          let sm := sm <| currentMethod := EAP_TYPE_NONE |> in
          sm ← eap_sm_parseEapResp sm (eapRespData (eap_if sm));
          Ret (if rxResp sm then sm <| currentId := respId sm |> else sm)
        else Ret sm);
  Ret (sm <| num_rounds := 0 |> <| num_rounds_short := 0 |>
          <|mv method_pending := METHOD_PENDING_NONE |>).

Definition sm_EAP_PICK_UP_METHOD_Enter sm (global : bool) : eap_sm S P :=
  let sm := SM_ENTRY sm global EAP_PICK_UP_METHOD in
  if eap_sm_Policy_doPickUp (respMethod sm) then
    let sm := reset_method (sm <| currentMethod := respMethod sm |>) in
    let none sm := sm <| m := None |> <| currentMethod := EAP_TYPE_NONE |> in
    match eap_server_get_eap_method registered EAP_VENDOR_IETF (currentMethod sm) with
    | Some me =>
        let sm := sm <| m := Some me |> in
        match initPickUp me with
        | Some f =>
            let (p, v) := f (mv sm) in
            let sm := sm <| mv := v |> <| eap_method_priv := p |> in
            match p with Some _ => sm | None => none sm end
        | None => none sm
        end
    | None => none sm
    end
  else sm.

Definition start_retransWhile sm : eap_sm S P :=
  sm <|if retransWhile := eap_sm_calculateTimeout sm (retransCount sm) (methodTimeout sm) |>.

Definition sm_EAP_IDLE_Enter sm (global : bool) : eap_sm S P :=
  start_retransWhile (SM_ENTRY sm global EAP_IDLE).

(** The common body of RETRANSMIT and RETRANSMIT2. *)
Definition retransmit sm : outcome (eap_sm S P) :=
  let sm := sm <| retransCount ::= Z.succ |> in
  match lastReqData sm with
  | Some last =>
      if bool_decide (retransCount sm ≤ MaxRetrans sm) then
        '(d, sm) ← eap_copy_buf sm last;
        let sm := sm <|if eapReqData := d |> in
        Ret (match d with Some _ => sm <|if eapReq := true |> | None => sm end)
      else Ret sm
  | None => Ret sm
  end.

Definition sm_EAP_RETRANSMIT_Enter sm (global : bool) : outcome (eap_sm S P) :=
  retransmit (SM_ENTRY sm global EAP_RETRANSMIT).

Definition sm_EAP_RECEIVED_Enter sm (global : bool) : outcome (eap_sm S P) :=
  let sm := SM_ENTRY sm global EAP_RECEIVED in
  sm ← eap_sm_parseEapResp sm (eapRespData (eap_if sm));
  let sm := sm <| num_rounds ::= λ n, u32 (n + 1) |> in
  let short := match eapRespData (eap_if sm) with
               | Some b => bool_decide (used b < 20)
               | None => true
               end in
  Ret (if short then sm <| num_rounds_short ::= λ n, u32 (n + 1) |>
       else sm <| num_rounds_short := 0 |>).

Definition discard sm : eap_sm S P :=
  sm <|if eapResp := false |> <|if eapNoReq := true |>.

Definition sm_EAP_DISCARD_Enter sm (global : bool) : eap_sm S P :=
  discard (SM_ENTRY sm global EAP_DISCARD).

(** SEND_REQUEST and SEND_REQUEST2 after [retransCount] was cleared; the request
    is long enough to reset the count of short rounds in SEND_REQUEST only. *)
Definition send_request sm : outcome (eap_sm S P) :=
  match eapReqData (eap_if sm) with
  | Some req =>
      '(d, sm) ← eap_copy_buf sm req;
      let sm := sm <| lastReqData := d |> <|if eapResp := false |> in
      Ret (sm <|if eapReq := bool_decide (is_Some d) |>)
  | None =>
      Ret (sm <|if eapResp := false |> <|if eapReq := false |> <|if eapNoReq := true |>)
  end.

Definition sm_EAP_SEND_REQUEST_Enter sm (global : bool) : outcome (eap_sm S P) :=
  let sm := SM_ENTRY sm global EAP_SEND_REQUEST in
  let sm := sm <| retransCount := 0 |> in
  let sm := match eapReqData (eap_if sm) with
            | Some req => if bool_decide (20 ≤ used req)
                          then sm <| num_rounds_short := 0 |> else sm
            | None => sm
            end in
  send_request sm.

Definition sm_EAP_INTEGRITY_CHECK_Enter sm (global : bool) : outcome (eap_sm S P) :=
  let sm := SM_ENTRY sm global EAP_INTEGRITY_CHECK in
  let resp := eapRespData (eap_if sm) in
  valid ← access (eap_hdr_len_valid resp 1);
  match resp, valid with
  | Some resp, true =>
      match m sm with
      | None => Undef
      | Some me =>
          match check me, eap_method_priv sm with
          | Some f, Some p => r ← f (mv sm) p resp; Ret (sm <| ignore := r |>)
          | Some _, None => Undef
          | None, _ => Ret sm
          end
      end
  | _, _ => Ret (sm <| ignore := true |>)
  end.

Definition sm_EAP_METHOD_REQUEST_Enter sm (global : bool) : outcome (eap_sm S P) :=
  let sm := SM_ENTRY sm global EAP_METHOD_REQUEST in
  match m sm, eap_method_priv sm with
  | None, _ => Ret sm
  | Some _, None => Undef
  | Some me, Some p =>
      let (id, sm) := eap_sm_nextId sm (currentId sm) in
      let sm := sm <| currentId := id |> <| lastId := id |> in
      '(req, p, v) ← buildReq me (mv sm) p (u8 id);
      let sm := sm <| mv := v |> <| eap_method_priv := Some p |> <|if eapReqData := req |> in
      Ret (sm <| methodTimeout := match getTimeout me with Some f => f v p | None => 0 end |>)
  end.

(** METHOD_RESPONSE when the method is done. *)
Definition method_done sm (me : eap_method S P) (p : P) : outcome (eap_sm S P) :=
  sm ← eap_sm_Policy_update sm None;
  let (key, v) := match getKey me with Some f => f (mv sm) p | None => (None, mv sm) end in
  let sm := sm <| mv := v |> <|if eapKeyData := key |> <|if eapSessionId := None |> in
  let (sid, v) := match getSessionId me with
                  | Some f => f (mv sm) p
                  | None => (None, mv sm)
                  end in
  let sm := sm <| mv := v |> <|if eapSessionId := sid |> in
  Ret (sm <| methodState := METHOD_END |>).

Definition sm_EAP_METHOD_RESPONSE_Enter sm (global : bool) : outcome (eap_sm S P) :=
  let sm := SM_ENTRY sm global EAP_METHOD_RESPONSE in
  let resp := eapRespData (eap_if sm) in
  valid ← access (eap_hdr_len_valid resp 1);
  match resp, valid with
  | Some resp, true =>
      match m sm, eap_method_priv sm with
      | Some me, Some p =>
          '(p, v) ← process me (mv sm) p resp;
          let sm := sm <| mv := v |> <| eap_method_priv := Some p |> in
          if isDone me p then method_done sm me p
          else Ret (sm <| methodState := METHOD_CONTINUE |>)
      | _, _ => Undef
      end
  | _, _ => Ret sm
  end.

(** The label [try_another_method]; [None] when the tries are spent. *)
Fixpoint try_another_method (n : nat) sm : option (outcome (eap_sm S P)) :=
  match n with
  | O => None
  | Datatypes.S n =>
      match eap_sm_Policy_getNextMethod sm with
      | Abort => Some Abort
      | Undef => Some Undef
      | Ret (vd, ty, sm) =>
          let sm := sm <| currentMethod := if bool_decide (vd = EAP_VENDOR_IETF) then ty
                                           else EAP_TYPE_EXPANDED |> in
          let sm := reset_method sm in
          match eap_server_get_eap_method registered vd ty with
          | Some me =>
              let (p, v) := init me (mv sm) in
              let sm := sm <| m := Some me |> <| mv := v |> <| eap_method_priv := p |> in
              match p with
              | None =>
                  try_another_method n
                    (sm <| m := None |> <| currentMethod := EAP_TYPE_NONE |>)
              | Some _ =>
                  let simple := bool_decide (currentMethod sm = EAP_TYPE_IDENTITY ∨
                                             currentMethod sm = EAP_TYPE_NOTIFICATION) in
                  Some (Ret (sm <| methodState := if simple then METHOD_CONTINUE
                                                  else METHOD_PROPOSED |>))
              end
          | None => Some (Ret (sm <| m := None |> <| decision := DECISION_FAILURE |>))
          end
      end
  end.

Definition sm_EAP_PROPOSE_METHOD_Enter sm (global : bool) : option (outcome (eap_sm S P)) :=
  let sm := SM_ENTRY sm global EAP_PROPOSE_METHOD in
  try_another_method tries (sm <| try_initiate_reauth := false |>).

(** The list of methods in a Nak, if the response is one. *)
Definition nak_methods (resp : wpabuf) : outcome (option (list Z)) :=
  len ← access (WPA_GET_BE16 (mem resp) 2);
  let len := Z.min len (used resp) - sizeof_eap_hdr in
  ty ← access (rd (mem resp) 4);
  if bool_decide (ty = EAP_TYPE_NAK) then
    l ← access (slice (mem resp) 5 (len - 1)); Ret (Some l)
  else Ret None.

Definition sm_EAP_NAK_Enter sm (global : bool) : outcome (eap_sm S P) :=
  let sm := SM_ENTRY sm global EAP_NAK in
  match m sm, eap_method_priv sm with
  | None, Some _ => Undef
  | _, _ =>
      let sm := (reset_method sm) <| m := None |> in
      let resp := eapRespData (eap_if sm) in
      valid ← access (eap_hdr_len_valid resp 1);
      match resp, valid with
      | Some resp, true =>
          l ← (if bool_decide (sizeof_eap_hdr < used resp) then nak_methods resp else Ret None);
          eap_sm_Policy_update sm l
      | _, _ => Ret sm
      end
  end.

Definition sm_EAP_SELECT_ACTION_Enter sm (global : bool) : outcome (eap_sm S P) :=
  let sm := SM_ENTRY sm global EAP_SELECT_ACTION in
  '(d, sm) ← eap_sm_Policy_getDecision sm;
  Ret (sm <| decision := d |>).

Definition sm_EAP_TIMEOUT_FAILURE_Enter sm (global : bool) : eap_sm S P :=
  (SM_ENTRY sm global EAP_TIMEOUT_FAILURE) <|if eapTimeout := true |>.

Definition sm_EAP_FAILURE_Enter sm (global : bool) : outcome (eap_sm S P) :=
  let sm := SM_ENTRY sm global EAP_FAILURE in
  let (ok, sm) := sm_malloc sm in
  msg ← eap_sm_buildFailure ok (currentId sm);
  Ret (sm <|if eapReqData := msg |> <| lastReqData := None |> <|if eapFail := true |>).

Definition sm_EAP_SUCCESS_Enter sm (global : bool) : outcome (eap_sm S P) :=
  let sm := SM_ENTRY sm global EAP_SUCCESS in
  let (ok, sm) := sm_malloc sm in
  msg ← eap_sm_buildSuccess ok (currentId sm);
  let sm := sm <|if eapReqData := msg |> <| lastReqData := None |> in
  let sm := match eapKeyData (eap_if sm) with
            | Some _ => sm <|if eapKeyAvailable := true |>
            | None => sm
            end in
  Ret (sm <|if eapSuccess := true |>).

Definition sm_EAP_INITIATE_REAUTH_START_Enter sm (global : bool) : outcome (eap_sm S P) :=
  let sm := SM_ENTRY sm global EAP_INITIATE_REAUTH_START in
  let sm := sm <| initiate_reauth_start_sent := true |> <| try_initiate_reauth := true |> in
  let (id, sm) := eap_sm_nextId sm (currentId sm) in
  let sm := sm <| currentId := id |> <| lastId := id |> in
  '(msg, sm) ← eap_sm_buildInitiateReauthStart sm (u8 id);
  Ret (sm <|if eapReqData := msg |> <| lastReqData := None |>).

(** *** Pass-through to a backend authentication server *)
Definition sm_EAP_INITIALIZE_PASSTHROUGH_Enter sm (global : bool) : eap_sm S P :=
  let sm := SM_ENTRY sm global EAP_INITIALIZE_PASSTHROUGH in
  sm <|if aaaEapRespData := None |> <| try_initiate_reauth := false |>.

Definition sm_EAP_IDLE2_Enter sm (global : bool) : eap_sm S P :=
  start_retransWhile (SM_ENTRY sm global EAP_IDLE2).

Definition sm_EAP_RETRANSMIT2_Enter sm (global : bool) : outcome (eap_sm S P) :=
  retransmit (SM_ENTRY sm global EAP_RETRANSMIT2).

Definition sm_EAP_RECEIVED2_Enter sm (global : bool) : outcome (eap_sm S P) :=
  let sm := SM_ENTRY sm global EAP_RECEIVED2 in
  eap_sm_parseEapResp sm (eapRespData (eap_if sm)).

Definition sm_EAP_DISCARD2_Enter sm (global : bool) : eap_sm S P :=
  discard (SM_ENTRY sm global EAP_DISCARD2).

Definition sm_EAP_SEND_REQUEST2_Enter sm (global : bool) : outcome (eap_sm S P) :=
  let sm := SM_ENTRY sm global EAP_SEND_REQUEST2 in
  send_request (sm <| retransCount := 0 |>).

Definition sm_EAP_AAA_REQUEST_Enter sm (global : bool) : outcome (eap_sm S P) :=
  let sm := SM_ENTRY sm global EAP_AAA_REQUEST in
  match eapRespData (eap_if sm) with
  | None => Ret sm
  | Some resp => '(d, sm) ← eap_copy_buf sm resp; Ret (sm <|if aaaEapRespData := d |>)
  end.

(** [eap_copy_buf(&eapReqData, aaaEapReqData)] *)
Definition copy_aaa_request sm : outcome (eap_sm S P) :=
  match aaaEapReqData (eap_if sm) with
  | None => Ret sm
  | Some req => '(d, sm) ← eap_copy_buf sm req; Ret (sm <|if eapReqData := d |>)
  end.

Definition sm_EAP_AAA_RESPONSE_Enter sm (global : bool) : outcome (eap_sm S P) :=
  let sm := SM_ENTRY sm global EAP_AAA_RESPONSE in
  sm ← copy_aaa_request sm;
  id ← eap_sm_getId (eapReqData (eap_if sm));
  let sm := sm <| currentId := id |> in
  Ret (sm <| methodTimeout := aaaMethodTimeout (eap_if sm) |>).

Definition sm_EAP_AAA_IDLE_Enter sm (global : bool) : eap_sm S P :=
  let sm := SM_ENTRY sm global EAP_AAA_IDLE in
  sm <|if aaaFail := false |> <|if aaaSuccess := false |> <|if aaaEapReq := false |>
     <|if aaaEapNoReq := false |> <|if aaaEapResp := true |>.

Definition sm_EAP_TIMEOUT_FAILURE2_Enter sm (global : bool) : eap_sm S P :=
  (SM_ENTRY sm global EAP_TIMEOUT_FAILURE2) <|if eapTimeout := true |>.

Definition sm_EAP_FAILURE2_Enter sm (global : bool) : outcome (eap_sm S P) :=
  let sm := SM_ENTRY sm global EAP_FAILURE2 in
  sm ← copy_aaa_request sm;
  Ret (sm <|if eapFail := true |>).

(** [EAP_COPY(&eapKeyData, aaaEapKeyData)] *)
Definition copy_aaa_key sm : eap_sm S P :=
  match aaaEapKeyData (eap_if sm) with
  | None => sm
  | Some k =>
      let (ok, sm) := sm_malloc sm in
      sm <|if eapKeyData := if ok : bool then Some k else None |>
  end.

Definition sm_EAP_SUCCESS2_Enter sm (global : bool) : outcome (eap_sm S P) :=
  let sm := SM_ENTRY sm global EAP_SUCCESS2 in
  sm ← copy_aaa_request sm;
  let avail := aaaEapKeyAvailable (eap_if sm) in
  let sm := sm <|if eapKeyAvailable := avail |> in
  let sm := if avail : bool then copy_aaa_key sm else sm <|if eapKeyData := None |> in
  Ret (sm <|if eapSuccess := true |> <| start_reauth := true |>).

(** ** The step function *)

(** The response is a Nak, legacy or expanded. *)
Definition response_is sm (t : Z) : bool :=
  bool_decide (respMethod sm = t) ||
  (bool_decide (respMethod sm = EAP_TYPE_EXPANDED) &&
   bool_decide (respVendor sm = EAP_VENDOR_IETF) && bool_decide (respVendorMethod sm = t)).

Definition step_received sm : outcome (eap_sm S P) :=
  let ours := rxResp sm && bool_decide (respId sm = currentId sm) in
  if ours && response_is sm EAP_TYPE_NAK && bool_decide (methodState sm = METHOD_PROPOSED)
  then sm_EAP_NAK_Enter sm false
  else if ours && response_is sm (currentMethod sm)
  then sm_EAP_INTEGRITY_CHECK_Enter sm false
  else Ret (sm_EAP_DISCARD_Enter sm false).

Definition step_method_request sm : outcome (eap_sm S P) :=
  match m sm with
  | None => sm_EAP_FAILURE_Enter sm false
  | Some _ =>
      sm ← sm_EAP_SEND_REQUEST_Enter sm false;
      if eapNoReq (eap_if sm) && negb (eapReq (eap_if sm))
      then sm_EAP_FAILURE_Enter sm false else Ret sm
  end.

Definition step_method_response sm : outcome (eap_sm S P) :=
  if bool_decide (methodState sm = METHOD_END) then sm_EAP_SELECT_ACTION_Enter sm false
  else match method_pending (mv sm) with
       | METHOD_PENDING_WAIT => Ret sm
       | METHOD_PENDING_CONT =>
           sm_EAP_METHOD_RESPONSE_Enter
             (sm <|mv method_pending := METHOD_PENDING_NONE |>) false
       | METHOD_PENDING_NONE => sm_EAP_METHOD_REQUEST_Enter sm false
       end.

Definition step_propose_method sm : option (outcome (eap_sm S P)) :=
  match method_pending (mv sm) with
  | METHOD_PENDING_WAIT =>
      Some (Ret (if bool_decide (0 < user_eap_method_index (mv sm))
                 then sm <| mv ::= λ v, v <| user_eap_method_index ::= Z.pred |> |> else sm))
  | METHOD_PENDING_CONT =>
      sm_EAP_PROPOSE_METHOD_Enter (sm <|mv method_pending := METHOD_PENDING_NONE |>) false
  | METHOD_PENDING_NONE => Some (sm_EAP_METHOD_REQUEST_Enter sm false)
  end.

Definition step_select_action sm : option (outcome (eap_sm S P)) :=
  match decision sm with
  | DECISION_FAILURE => Some (sm_EAP_FAILURE_Enter sm false)
  | DECISION_SUCCESS => Some (sm_EAP_SUCCESS_Enter sm false)
  | DECISION_PASSTHROUGH => Some (Ret (sm_EAP_INITIALIZE_PASSTHROUGH_Enter sm false))
  | DECISION_INITIATE_REAUTH_START => Some (sm_EAP_INITIATE_REAUTH_START_Enter sm false)
  | DECISION_CONTINUE => sm_EAP_PROPOSE_METHOD_Enter sm false
  end.

Definition step_idle sm : outcome (eap_sm S P) :=
  if bool_decide (retransWhile (eap_if sm) = 0) then
    if try_initiate_reauth sm
    then sm_EAP_SELECT_ACTION_Enter (sm <| try_initiate_reauth := false |>) false
    else sm_EAP_RETRANSMIT_Enter sm false
  else if eapResp (eap_if sm) then sm_EAP_RECEIVED_Enter sm false
  else Ret sm.

Definition step_initialize sm : outcome (eap_sm S P) :=
  if backend_auth cfg && rxResp sm then
    if response_is sm EAP_TYPE_NAK then sm_EAP_NAK_Enter sm false
    else Ret (sm_EAP_PICK_UP_METHOD_Enter sm false)
  else sm_EAP_SELECT_ACTION_Enter sm false.

Definition step_aaa_idle sm : outcome (eap_sm S P) :=
  if aaaFail (eap_if sm) then sm_EAP_FAILURE2_Enter sm false
  else if aaaSuccess (eap_if sm) then sm_EAP_SUCCESS2_Enter sm false
  else if aaaEapReq (eap_if sm) then sm_EAP_AAA_RESPONSE_Enter sm false
  else if aaaTimeout (eap_if sm) then Ret (sm_EAP_TIMEOUT_FAILURE2_Enter sm false)
  else Ret sm.

(** The [switch] of SM_STEP(EAP). *)
Definition step_local sm : option (outcome (eap_sm S P)) :=
  match EAP_state sm with
  | EAP_INITIALIZE => Some (step_initialize sm)
  | EAP_PICK_UP_METHOD =>
      Some (if bool_decide (currentMethod sm = EAP_TYPE_NONE)
            then sm_EAP_SELECT_ACTION_Enter sm false
            else sm_EAP_METHOD_RESPONSE_Enter sm false)
  | EAP_DISABLED =>
      Some (if portEnabled (eap_if sm) then sm_EAP_INITIALIZE_Enter sm false else Ret sm)
  | EAP_IDLE => Some (step_idle sm)
  | EAP_RETRANSMIT =>
      Some (Ret (if bool_decide (MaxRetrans sm < retransCount sm)
                 then sm_EAP_TIMEOUT_FAILURE_Enter sm false else sm_EAP_IDLE_Enter sm false))
  | EAP_RECEIVED => Some (step_received sm)
  | EAP_DISCARD => Some (Ret (sm_EAP_IDLE_Enter sm false))
  | EAP_SEND_REQUEST => Some (Ret (sm_EAP_IDLE_Enter sm false))
  | EAP_INTEGRITY_CHECK =>
      Some (if ignore sm then Ret (sm_EAP_DISCARD_Enter sm false)
            else sm_EAP_METHOD_RESPONSE_Enter sm false)
  | EAP_METHOD_REQUEST => Some (step_method_request sm)
  | EAP_METHOD_RESPONSE => Some (step_method_response sm)
  | EAP_PROPOSE_METHOD => step_propose_method sm
  | EAP_NAK => Some (sm_EAP_SELECT_ACTION_Enter sm false)
  | EAP_SELECT_ACTION => step_select_action sm
  | EAP_INITIATE_REAUTH_START => Some (sm_EAP_SEND_REQUEST_Enter sm false)
  | EAP_INITIATE_RECEIVED =>
      Some (if negb (eap_server cfg) then sm_EAP_SELECT_ACTION_Enter sm false else Ret sm)
  | EAP_INITIALIZE_PASSTHROUGH =>
      Some (if bool_decide (currentId sm = -1) then Ret (sm_EAP_AAA_IDLE_Enter sm false)
            else sm_EAP_AAA_REQUEST_Enter sm false)
  | EAP_IDLE2 =>
      Some (if eapResp (eap_if sm) then sm_EAP_RECEIVED2_Enter sm false
            else if bool_decide (retransWhile (eap_if sm) = 0)
            then sm_EAP_RETRANSMIT2_Enter sm false else Ret sm)
  | EAP_RETRANSMIT2 =>
      Some (Ret (if bool_decide (MaxRetrans sm < retransCount sm)
                 then sm_EAP_TIMEOUT_FAILURE2_Enter sm false else sm_EAP_IDLE2_Enter sm false))
  | EAP_RECEIVED2 =>
      Some (if rxResp sm && bool_decide (respId sm = currentId sm)
            then sm_EAP_AAA_REQUEST_Enter sm false else Ret (sm_EAP_DISCARD2_Enter sm false))
  | EAP_DISCARD2 => Some (Ret (sm_EAP_IDLE2_Enter sm false))
  | EAP_SEND_REQUEST2 => Some (Ret (sm_EAP_IDLE2_Enter sm false))
  | EAP_AAA_REQUEST => Some (Ret (sm_EAP_AAA_IDLE_Enter sm false))
  | EAP_AAA_RESPONSE => Some (sm_EAP_SEND_REQUEST2_Enter sm false)
  | EAP_AAA_IDLE => Some (step_aaa_idle sm)
  | EAP_TIMEOUT_FAILURE | EAP_FAILURE | EAP_SUCCESS
  | EAP_TIMEOUT_FAILURE2 | EAP_FAILURE2 | EAP_SUCCESS2 => Some (Ret sm)
  end.

(** SM_STEP(EAP) *)
Definition sm_EAP_Step sm : option (outcome (eap_sm S P)) :=
  if eapRestart (eap_if sm) && portEnabled (eap_if sm)
  then Some (sm_EAP_INITIALIZE_Enter sm true)
  else if negb (portEnabled (eap_if sm)) then Some (Ret (sm_EAP_DISABLED_Enter sm true))
  else if bool_decide (max_auth_rounds cfg < num_rounds sm) then
    Some (if bool_decide (num_rounds sm = u32 (max_auth_rounds cfg + 1))
          then sm_EAP_FAILURE_Enter (sm <| num_rounds ::= λ n, u32 (n + 1) |>) true
          else Ret sm)
  else if bool_decide (max_auth_rounds_short cfg < num_rounds_short sm) then
    Some (if bool_decide (num_rounds_short sm = u32 (max_auth_rounds_short cfg + 1))
          then sm_EAP_FAILURE_Enter (sm <| num_rounds_short ::= λ n, u32 (n + 1) |>) true
          else Ret sm)
  else step_local sm.

(** The do-while loop of [eap_server_sm_step]; [None] when the fuel is spent. *)
Fixpoint eap_server_sm_loop (fuel : nat) (res : bool) sm :
    option (outcome (bool * eap_sm S P)) :=
  match fuel with
  | O => None
  | Datatypes.S fuel =>
      match sm_EAP_Step (sm <| changed := false |>) with
      | Some (Ret sm) =>
          if changed sm then eap_server_sm_loop fuel true sm else Some (Ret (res, sm))
      | Some Abort => Some Abort
      | Some Undef => Some Undef
      | None => None
      end
  end.

(** Sixteen rounds are enough from every state: [eap_server_sm_step_returns]. *)
Definition eap_server_sm_step sm : option (outcome (bool * eap_sm S P)) :=
  eap_server_sm_loop 16 false sm.

(** ** Other operations *)
Definition eap_sm_notify_cached sm : eap_sm S P := sm <| EAP_state := EAP_SUCCESS |>.

Definition eap_sm_pending_cb sm : eap_sm S P :=
  if bool_decide (method_pending (mv sm) = METHOD_PENDING_WAIT)
  then sm <|mv method_pending := METHOD_PENDING_CONT |> else sm.

Definition eap_sm_method_pending sm : bool :=
  bool_decide (method_pending (mv sm) = METHOD_PENDING_WAIT).

Definition eap_get_identity sm : option (list Z) := identity (mv sm).
Definition eap_get_serial_num sm : option (list Z) := serial_num (mv sm).
Definition eap_get_imsi sm : option (list Z) := imsi (mv sm).
Definition eap_get_method sm : option string := name <$> m sm.
Definition eap_get_interface sm : eap_eapol_interface := eap_if sm.

(** The state [eap_server_sm_init] returns when its allocation succeeds. *)
Definition eap_server_sm_init (ctx : S) (n : nat) : eap_sm S P :=
  {| EAP_state := EAP_DISABLED; MaxRetrans := 5;
     eap_if := mk_if false None false 0 false 0 0 false false false false false None None
                 None false false false false false None None false 0 false None false;
     currentMethod := EAP_TYPE_NONE; currentId := 0; methodState := METHOD_PROPOSED;
     retransCount := 0; lastReqData := None; methodTimeout := 0; rxResp := false;
     rxInitiate := false; respId := 0; respMethod := EAP_TYPE_NONE; respVendor := 0;
     respVendorMethod := 0; ignore := false; decision := DECISION_SUCCESS; m := None;
     changed := false; eap_method_priv := None; lastId := 0; num_rounds := 0;
     num_rounds_short := 0; start_reauth := false; initiate_reauth_start_sent := false;
     try_initiate_reauth := false;
     mv := mk_vars S ctx None None None false None 0 false METHOD_PENDING_NONE n 0 |}.
End eap_server.
