(* ===== verification/EapMethods.v ===== *)
(** EAP methods of the server
    (src/eap_server/eap_server_identity.c, src/eap_server/eap_server_md5.c,
    src/eap_common/chap.c)

    The Identity and MD5-Challenge methods as tables of [EapServer.eap_method].
    MD5 ([md5_vector]) and the random number generator are parameters. *)
From stdpp Require Import strings.
From S2P Require Import Prelude Bytes Wpabuf EapCommon EapServer.

Definition EAP_TYPE_MD5 := 4.
Definition CHAP_MD5_LEN := 16.
Definition CHALLENGE_LEN := 16.

Inductive method_state := CONTINUE | SUCCESS | FAILURE.
#[export] Instance method_state_eq_dec : EqDecision method_state.
Proof. solve_decision. Defined.

(** struct eap_identity_data and struct eap_md5_data. *)
Inductive method_data :=
| IdentityData (state : method_state) (pick_up : bool)
| Md5Data (challenge : list Z) (state : method_state).

Definition data_state (d : method_data) : method_state :=
  match d with IdentityData st _ => st | Md5Data _ st => st end.

Definition data_isDone (d : method_data) : bool := bool_decide (data_state d ≠ CONTINUE).
Definition data_isSuccess (d : method_data) : bool := bool_decide (data_state d = SUCCESS).

(** [chap_md5]: the digest of the identifier, the secret and the challenge. *)
Definition chap_md5 (md5 : list Z → option (list Z)) (id : Z) (secret challenge : list Z) :
    option (list Z) :=
  md5 ([id] ++ secret ++ challenge).

Section server_methods.
Context {S : Type} `{EapolCallbacks S}.
Variable alloc_ok : nat → bool.
(** [random_get_bytes] of a challenge *)
Variable random_bytes : nat → option (list Z).
Variable md5 : list Z → option (list Z).

Implicit Types v : method_vars S.
Abbreviation result A := (outcome (A * method_vars S)) (only parsing).

(** ** Identity *)
Definition eap_identity_init v : option method_data * method_vars S :=
  let (ok, v) := malloc alloc_ok v in
  (if ok : bool then Some (IdentityData CONTINUE false) else None, v).

Definition eap_identity_initPickUp v : option method_data * method_vars S :=
  let (d, v) := eap_identity_init v in
  (match d with
   | Some (IdentityData st _) => Some (IdentityData st true)
   | d => d
   end, v).

Definition eap_identity_reset v (d : method_data) : method_vars S := v.

Definition eap_identity_buildReq v (d : method_data) (id : Z) :
    outcome (option wpabuf * method_data * method_vars S) :=
  let text := get_eap_req_id_text (eapol_ctx v) in
  let len := match text with Some t => blen t | None => 0 end in
  let (ok, v) := malloc alloc_ok v in
  req ← eap_msg_alloc ok EAP_VENDOR_IETF EAP_TYPE_IDENTITY len EAP_CODE_REQUEST id;
  match req, d with
  | None, IdentityData _ pk => Ret (None, IdentityData FAILURE pk, v)
  | None, d => Ret (None, d, v)
  | Some req, d => req ← wpabuf_put_data req text len; Ret (Some req, d, v)
  end.

(** [true] for a frame to ignore. *)
Definition eap_identity_check v (d : method_data) (resp : wpabuf) : outcome bool :=
  r ← access (eap_hdr_validate EAP_VENDOR_IETF EAP_TYPE_IDENTITY (Some resp));
  Ret (bool_decide (r = None)).

(** [eap_identity_process] once [pick_up] is clear: the log message takes an
    allocation, then the identity is stored. *)
Definition identity_store v (d : method_data) (resp : wpabuf) :
    outcome (method_data * method_vars S) :=
  r ← access (eap_hdr_validate EAP_VENDOR_IETF EAP_TYPE_IDENTITY (Some resp));
  match r with
  | None => Ret (d, v)
  | Some (off, len) =>
      let (_, v) := malloc alloc_ok v in
      let v := match identity v with Some _ => v <| update_user := true |> | None => v end in
      let v := v <| identity := None |> in
      let (ok, v) := malloc alloc_ok v in
      let pk := match d with IdentityData _ pk => pk | Md5Data _ _ => false end in
      if ok : bool then
        i ← access (slice (mem resp) off len);
        Ret (IdentityData SUCCESS pk, v <| identity := Some i |>)
      else Ret (IdentityData FAILURE pk, v)
  end.

Definition eap_identity_process v (d : method_data) (resp : wpabuf) :
    outcome (method_data * method_vars S) :=
  match d with
  | IdentityData st true =>
      bad ← eap_identity_check v d resp;
      if bad : bool then Ret (IdentityData FAILURE true, v)
      else identity_store v (IdentityData st false) resp
  | d => identity_store v d resp
  end.

Definition eap_server_identity : eap_method S method_data :=
  {| vendor := EAP_VENDOR_IETF; method := EAP_TYPE_IDENTITY; name := "Identity";
     init := eap_identity_init; initPickUp := Some eap_identity_initPickUp;
     reset := eap_identity_reset; buildReq := eap_identity_buildReq; getTimeout := None;
     check := Some eap_identity_check; process := eap_identity_process;
     isDone := data_isDone; getKey := None; isSuccess := data_isSuccess;
     getSessionId := None |}.

(** ** MD5-Challenge *)
Definition eap_md5_init v : option method_data * method_vars S :=
  let (ok, v) := malloc alloc_ok v in
  (if ok : bool then Some (Md5Data (replicate 16 0) CONTINUE) else None, v).

Definition eap_md5_reset v (d : method_data) : method_vars S := v.

Definition eap_md5_buildReq v (d : method_data) (id : Z) :
    outcome (option wpabuf * method_data * method_vars S) :=
  let old := match d with Md5Data c _ => c | IdentityData _ _ => [] end in
  let r := random_bytes (n_rand v) in
  let v := v <| n_rand ::= Datatypes.S |> in
  match r with
  | None => Ret (None, Md5Data old FAILURE, v)
  | Some challenge =>
      let (ok, v) := malloc alloc_ok v in
      req ← eap_msg_alloc ok EAP_VENDOR_IETF EAP_TYPE_MD5 (1 + CHALLENGE_LEN)
              EAP_CODE_REQUEST id;
      match req with
      | None => Ret (None, Md5Data challenge FAILURE, v)
      | Some req =>
          req ← wpabuf_put_u8 req CHALLENGE_LEN;
          req ← wpabuf_put_data req (Some challenge) CHALLENGE_LEN;
          Ret (Some req, Md5Data challenge CONTINUE, v)
      end
  end.

Definition eap_md5_check v (d : method_data) (resp : wpabuf) : outcome bool :=
  r ← access (eap_hdr_validate EAP_VENDOR_IETF EAP_TYPE_MD5 (Some resp));
  match r with
  | None => Ret true
  | Some (off, len) =>
      if bool_decide (len < 1) then Ret true
      else
        n ← access (rd (mem resp) off);
        Ret (bool_decide (n ≠ CHAP_MD5_LEN) || bool_decide (len < 1 + CHAP_MD5_LEN))
  end.

(** The plaintext password of the user. *)
Definition plain_password v : option (list Z) :=
  match user v with
  | Some u => if password_hash u then None else password u
  | None => None
  end.

Definition eap_md5_process v (d : method_data) (resp : wpabuf) :
    outcome (method_data * method_vars S) :=
  let challenge := match d with Md5Data c _ => c | IdentityData _ _ => [] end in
  match plain_password v with
  | None => Ret (Md5Data challenge FAILURE, v)
  | Some pw =>
      r ← access (eap_hdr_validate EAP_VENDOR_IETF EAP_TYPE_MD5 (Some resp));
      match r with
      | None => Ret (d, v)
      | Some (off, plen) =>
          n ← access (rd (mem resp) off);
          if bool_decide (n ≠ CHAP_MD5_LEN) || bool_decide (plen < 1 + CHAP_MD5_LEN)
          then Ret (d, v)
          else
            id ← access (eap_get_id resp);
            match chap_md5 md5 id pw challenge with
            | None => Ret (Md5Data challenge FAILURE, v)
            | Some hash =>
                got ← access (slice (mem resp) (off + 1) CHAP_MD5_LEN);
                Ret (Md5Data challenge (if bool_decide (hash = got) then SUCCESS else FAILURE), v)
            end
      end
  end.

Definition eap_server_md5 : eap_method S method_data :=
  {| vendor := EAP_VENDOR_IETF; method := EAP_TYPE_MD5; name := "MD5";
     init := eap_md5_init; initPickUp := None;
     reset := eap_md5_reset; buildReq := eap_md5_buildReq; getTimeout := None;
     check := Some eap_md5_check; process := eap_md5_process;
     isDone := data_isDone; getKey := None; isSuccess := data_isSuccess;
     getSessionId := None |}.
End server_methods.
