(* ===== verification/EapPeerMd5.v ===== *)
(** MD5-Challenge of the EAP peer (src/eap_peer/eap_md5.c)

    The method's [process]; the table of a method is in [EapPeer].  MD5 is a parameter, as
    in [EapMethods]. *)
From stdpp Require Import strings.
From S2P Require Import Prelude Bytes Wpabuf EapCommon EapPeer EapMethods.

#[export] Instance eta_ret : Eta eap_method_ret := λ r,
  mk_ret (ret_ignore r) (ret_methodState r) (ret_decision r) (ret_allowNotifications r).

Section peer_md5.
Variable md5 : list Z → option (list Z).

(** [password] is what [eap_get_config_password] returns, [ok] the answer of the
    allocator. *)
Definition eap_md5_process (ok : bool) (password : option (list Z))
    (ret : eap_method_ret) (req : wpabuf) : outcome (eap_method_ret * option wpabuf) :=
  let ignored := Ret (ret <| ret_ignore := true |>, None) in
  match password with
  | None => ignored
  | Some password =>
      r ← access (eap_hdr_validate EAP_VENDOR_IETF EAP_TYPE_MD5 (Some req));
      match r with
      | None => ignored
      | Some (off, len) =>
          if bool_decide (len = 0) then ignored
          else
            challenge_len ← access (rd (mem req) off);
            if bool_decide (challenge_len = 0) || bool_decide (len - 1 < challenge_len)
            then ignored
            else
              let ret := mk_ret false METHOD_DONE DECISION_COND_SUCC true in
              id ← access (eap_get_id req);
              resp ← eap_msg_alloc ok EAP_VENDOR_IETF EAP_TYPE_MD5 (1 + CHAP_MD5_LEN)
                       EAP_CODE_RESPONSE id;
              match resp with
              | None => Ret (ret, None)
              | Some resp =>
                  resp ← wpabuf_put_u8 resp CHAP_MD5_LEN;
                  id ← access (eap_get_id resp);
                  challenge ← access (slice (mem req) (off + 1) challenge_len);
                  match chap_md5 md5 id password challenge with
                  | None => Ret (ret <| ret_ignore := true |>, None)
                  | Some digest =>
                      resp ← wpabuf_put_bytes resp digest;
                      Ret (ret, Some resp)
                  end
              end
      end
  end.
End peer_md5.
