(* ===== verification/EapServerProofs.v ===== *)
(** Properties of the EAP server state machine of [EapServer]

    - the retransmission timeout and the effect of a Nak;
    - [eap_ok]: the invariant of the state, kept by every state entry;
    - [rank]: why the loop of [eap_server_sm_step] stops. *)
From stdpp Require Import strings.
From S2P Require Import Prelude Bytes Wpabuf EapCommon EapServer.

(** ** Timeouts *)
Lemma backoff_min n r : 0 < r < 20 → backoff n r = Z.min 20 (r * 2 ^ Z.of_nat n).
Proof.
  revert r. induction n as [|n IH]; intros r Hr; simpl; [lia|].
  replace (Z.of_nat (Datatypes.S n)) with (Z.of_nat n + 1) by lia.
  rewrite Z.pow_add_r by lia. change (2 ^ 1) with 2.
  assert (1 ≤ 2 ^ Z.of_nat n) by (pose proof (Z.pow_pos_nonneg 2 (Z.of_nat n)); lia).
  case_bool_decide; [nia|]. rewrite IH by lia. f_equal. ring.
Qed.

Lemma backoff_pos n r : 0 < r → 0 < backoff n r.
Proof. revert r. induction n as [|n IH]; intros r Hr; simpl; [done|]. case_bool_decide; [lia|]. apply IH. lia. Qed.

(** ** Naks *)

(** What a Nak does to the methods that were not proposed yet: the ones it lists
    stay, in their order, and the rest of the table is cleared. *)
Definition kept (nak_list : list Z) (e : Z * Z) : Prop :=
  e.1 = EAP_VENDOR_IETF ∧ e.2 ∈ nak_list.
#[export] Instance kept_dec nak_list e : Decision (kept nak_list e).
Proof. unfold kept. apply _. Defined.

Fixpoint until_none (l : list (Z * Z)) : list (Z * Z) :=
  match l with
  | [] => []
  | e :: l => if no_method e then [] else e :: until_none l
  end.

Definition nak_filter (nak_list : list Z) (l : list (Z * Z)) : list (Z * Z) :=
  filter (kept nak_list) (until_none l).

(** The table after a Nak that came when [n] methods had been proposed. *)
Definition after_nak (nak_list : list Z) (n : nat) (l : list (Z * Z)) : list (Z * Z) :=
  let removed := (length (until_none (drop n l)) - length (nak_filter nak_list (drop n l)))%nat in
  take n l ++ nak_filter nak_list (drop n l) ++
  drop (length (until_none (drop n l))) (drop n l) ++ replicate removed (0, 0).

Lemma remove_method_eq done e rest :
  blen (done ++ e :: rest) = EAP_MAX_METHODS →
  remove_method (done ++ e :: rest) (blen done) = Some (done ++ rest ++ [(0, 0)]).
Proof.
  intros Hlen. rewrite length_app in Hlen. simpl in Hlen.
  unfold remove_method, EAP_MAX_METHODS in *.
  destruct rest as [|e' rest'].
  - rewrite bool_decide_eq_false_2 by (simpl in Hlen; lia). cbn [mbind option_bind].
    rewrite (wr_mid done e []) by (simpl in *; lia). done.
  - set (rest := e' :: rest') in *. assert (0 < blen rest) by (subst rest; simpl; lia).
    rewrite bool_decide_eq_true_2 by lia.
    assert (Hs : slice (done ++ e :: rest) (blen done + 1) (8 - blen done - 1) = Some rest).
    { replace (done ++ e :: rest) with ((done ++ [e]) ++ rest) by (by rewrite <- app_assoc).
      apply slice_app_end; rewrite ?length_app; cbn [length]; lia. }
    rewrite Hs. cbn [mbind option_bind].
    rewrite blit_in by (rewrite ?length_app; cbn [length]; lia). rewrite Nat2Z.id.
    rewrite take_app_length.
    assert (Hd : ∃ x, drop (length done + length rest) (done ++ e :: rest) = [x]).
    { rewrite drop_app_add'  by done. destruct (e :: rest) as [|? ?] eqn:E; [done|].
      assert (Hl : length (drop (length rest) (e :: rest)) = 1%nat)
        by (rewrite length_drop; simpl; lia).
      rewrite <- E. destruct (drop (length rest) (e :: rest)) as [|x [|]]; try done. by exists x. }
    destruct Hd as [x ->]. rewrite app_assoc. cbn [mbind option_bind].
    rewrite (wr_mid (done ++ rest) x []) by (rewrite length_app; lia).
    by rewrite <- app_assoc.
Qed.

Lemma no_method_zero : no_method (0, 0) = true.
Proof. done. Qed.

Lemma process_nak_loop_spec nak_list fuel done rest :
  blen (done ++ rest) = EAP_MAX_METHODS → (length (until_none rest) < fuel)%nat →
  process_nak_loop fuel (done ++ rest) (blen done) nak_list =
  Some (done ++ after_nak nak_list 0 rest).
Proof.
  revert done rest. induction fuel as [|fuel IH]; intros done rest Hlen Hf; [lia|]. simpl.
  rewrite length_app in Hlen. unfold after_nak, nak_filter. rewrite !drop_0, take_0.
  destruct rest as [|e rest].
  { simpl in *. by rewrite bool_decide_eq_false_2 by (unfold EAP_MAX_METHODS in *; lia). }
  simpl in Hlen, Hf.
  rewrite bool_decide_eq_true_2 by (unfold EAP_MAX_METHODS in *; lia).
  rewrite rd_app_at, rd_cons_0. simpl.
  destruct (no_method e) eqn:En; simpl; [by rewrite app_nil_r|].
  simpl in Hf. rewrite <- bool_decide_and. rewrite filter_cons.
  destruct (decide (kept nak_list e)) as [Hk|Hk].
  - rewrite (bool_decide_eq_true_2 _ Hk).
    replace (done ++ e :: rest) with ((done ++ [e]) ++ rest) by (by rewrite <- app_assoc).
    replace (blen done + 1) with (blen (done ++ [e])) by (rewrite length_app; simpl; lia).
    rewrite IH by (rewrite ?length_app; simpl; lia).
    unfold after_nak, nak_filter. rewrite !drop_0, take_0. simpl. by rewrite <- app_assoc.
  - rewrite (bool_decide_eq_false_2 _ Hk).
    rewrite remove_method_eq by (rewrite length_app; simpl; lia). simpl.
    assert (Hu : until_none (rest ++ [(0, 0)]) = until_none rest).
    { clear. induction rest as [|x rest IH]; [done|]. simpl. by rewrite IH. }
    rewrite IH by (rewrite ?Hu, ?length_app; simpl; lia).
    unfold after_nak, nak_filter. rewrite !drop_0, take_0, Hu. simpl.
    assert (length (until_none rest) ≤ length rest)%nat.
    { clear. induction rest as [|x rest IH]; [done|]. simpl. case_match; simpl; lia. }
    assert (length (filter (kept nak_list) (until_none rest)) ≤ length (until_none rest))%nat
      by apply length_filter.
    rewrite drop_app_le by done. rewrite Nat.sub_succ_l by done. simpl.
    by rewrite <- !app_assoc.
Qed.

Lemma process_nak_spec nak_list l n :
  blen l = EAP_MAX_METHODS → (n ≤ length l)%nat →
  process_nak_loop 9 l (Z.of_nat n) nak_list = Some (after_nak nak_list n l).
Proof.
  intros Hl Hn. rewrite <- (take_drop n l) at 1.
  replace (Z.of_nat n) with (blen (take n l)) by (rewrite length_take; lia).
  rewrite process_nak_loop_spec.
  - unfold after_nak. by rewrite take_0, drop_0.
  - by rewrite take_drop.
  - unfold EAP_MAX_METHODS in Hl. assert (length (drop n l) ≤ 8)%nat by (rewrite length_drop; lia).
    enough (∀ k, length (until_none k) ≤ length k)%nat as H' by (specialize (H' (drop n l)); lia).
    clear. induction k as [|x k IH]; [done|]. simpl. case_match; simpl; lia.
Qed.

Lemma after_nak_length nak_list n l : length (after_nak nak_list n l) = length l.
Proof.
  unfold after_nak, nak_filter.
  rewrite !length_app, length_replicate, !length_drop, length_take.
  assert (∀ k, length (until_none k) ≤ length k)%nat.
  { clear. induction k as [|x k IH]; [done|]. simpl. case_match; simpl; lia. }
  specialize (H (drop n l)). rewrite length_drop in H.
  pose proof (length_filter (kept nak_list) (until_none (drop n l))). lia.
Qed.

(** ** The invariant *)

(** What the layer below promises: a user has a full table of methods, the text of
    an Identity request fits in an EAP packet, and no Initiate/Re-auth-Start is
    asked for.  The last is a condition on the configuration: hostapd sets
    erp_send_reauth_start from its file (config_file.c:2864) also without CONFIG_ERP, and the
    theorems that use this class do not speak of such an access point. *)
Definition user_ok (u : eap_user) : Prop := blen (methods u) = EAP_MAX_METHODS.

Class EapolCallbacksSpec (S : Type) `{EapolCallbacks S} := {
  ctx_ok : S → Prop;
  ctx_user s i p f u s' :
    ctx_ok s → get_eap_user s i p zero_user = (f, u, s') → user_ok u ∧ ctx_ok s';
  ctx_text s t : ctx_ok s → get_eap_req_id_text s = Some t → blen t ≤ 65523;
  ctx_reauth s : ctx_ok s → get_erp_send_reauth_start s = false;
}.

(** Whether some method registered may suspend its processing
    ([METHOD_PENDING_WAIT]); the methods that do, EAP-SIM and EAP-AKA, wait for an
    external database.  The response that such a method resumes with may have been
    replaced in the meantime, and is not checked again. *)
Class MayPend := may_pend : bool.

(** Whether a backend authentication server can report success ([aaaSuccess]). *)
Class Backend := backend : bool.

Definition buf_ok (o : option wpabuf) : Prop :=
  match o with Some b => wf b | None => True end.
Definition msg_ok (o : option wpabuf) : Prop :=
  match o with Some b => wf b ∧ bytes_ok (mem b) | None => True end.

(** The messages from and for the backend server. *)
Definition aaa_ok (i : eap_eapol_interface) : Prop :=
  buf_ok (aaaEapReqData i) ∧ buf_ok (aaaEapRespData i).

Section invariant.
Context {S P : Type} `{EapolCallbacksSpec S} {Pend : MayPend} {Back : Backend}.
Variable registered : list (eap_method S P).
Variable cfg : eap_config.
Variable alloc_ok : nat → bool.
Variable rand : nat → Z.
Variable tries : nat.
(** What the methods know of their private data. *)
Variable Pinv : P → Prop.

Implicit Types sm : eap_sm S P.
Implicit Types v : method_vars S.

Record vars_ok v : Prop := {
  vars_ctx : ctx_ok (eapol_ctx v);
  vars_user u : user v = Some u → user_ok u;
  vars_index : 0 ≤ user_eap_method_index v ≤ EAP_MAX_METHODS;
  vars_pending : may_pend = true ∨ method_pending v = METHOD_PENDING_NONE;
}.

(** The variables a method may leave behind: well formed, and pending processing
    is only ever completed by [eap_sm_pending_cb]. *)
Definition vars_next v v' : Prop :=
  vars_ok v' ∧ (method_pending v' = METHOD_PENDING_CONT →
                method_pending v = METHOD_PENDING_CONT).

(** A response whose header is valid. *)
Definition valid_resp (b : wpabuf) : Prop :=
  wf b ∧ bytes_ok (mem b) ∧ eap_hdr_len_valid (Some b) 1 = Some true.

(** The check of a method passed a response. *)
Definition accepted (me : eap_method S P) (b : wpabuf) : Prop :=
  ∀ f, check me = Some f → ∃ v p, f v p b = Ret false.

(** The state machine checks a response before it lets a method process it, except
    when the method resumes, and when Identity is picked up. *)
Definition may_process (me : eap_method S P) (b : wpabuf) : Prop :=
  valid_resp b ∧ (may_pend = true ∨ method me = EAP_TYPE_IDENTITY ∨ accepted me b).

(** What the state machine expects of a method. *)
Record method_ok (me : eap_method S P) : Prop := {
  init_ok v p v' : vars_ok v → init me v = (p, v') →
    vars_next v v' ∧ user_eap_method_index v ≤ user_eap_method_index v' ∧
    (∀ d, p = Some d → Pinv d);
  initPickUp_ok f v p v' : initPickUp me = Some f → vars_ok v → f v = (p, v') →
    vars_next v v' ∧ (∀ d, p = Some d → Pinv d);
  reset_ok v d : vars_ok v → Pinv d →
    vars_next v (reset me v d) ∧
    user_eap_method_index v ≤ user_eap_method_index (reset me v d);
  buildReq_ok v d id : vars_ok v → Pinv d →
    ∃ req d' v', buildReq me v d id = Ret (req, d', v') ∧ buf_ok req ∧ Pinv d' ∧
                 vars_next v v';
  check_ok f v d b : check me = Some f → vars_ok v → Pinv d → valid_resp b →
    ∃ r, f v d b = Ret r;
  process_ok v d b : vars_ok v → Pinv d → may_process me b →
    ∃ d' v', process me v d b = Ret (d', v') ∧ Pinv d' ∧ vars_next v v';
  getKey_ok f v d k v' : getKey me = Some f → vars_ok v → Pinv d → f v d = (k, v') →
    vars_next v v';
  getSessionId_ok f v d k v' : getSessionId me = Some f → vars_ok v → Pinv d →
    f v d = (k, v') → vars_next v v';
}.

(** A method in use is registered and has its private data. *)
Definition meth_ok sm : Prop :=
  match m sm, eap_method_priv sm with
  | Some me, Some p => me ∈ registered ∧ Pinv p
  | None, None => True
  | _, _ => False
  end.

(** The states that use the method. *)
Definition needs_method (st : eap_state) : bool :=
  match st with
  | EAP_IDLE | EAP_RECEIVED | EAP_RETRANSMIT | EAP_DISCARD | EAP_INTEGRITY_CHECK
  | EAP_METHOD_RESPONSE | EAP_SEND_REQUEST => true
  | _ => false
  end.

(** Past a round limit. *)
Definition over_rounds sm : bool := bool_decide (max_auth_rounds cfg < num_rounds sm).
Definition over_short sm : bool :=
  bool_decide (max_auth_rounds_short cfg < num_rounds_short sm).

(** The method in use may process the response. *)
Definition resp_checked sm : Prop :=
  ∀ me b, m sm = Some me → eapRespData (eap_if sm) = Some b → valid_resp b →
          may_process me b.

Definition active_ok sm : Prop :=
  (needs_method (EAP_state sm) = true → is_Some (m sm)) ∧
  (EAP_state sm = EAP_PICK_UP_METHOD → currentMethod sm ≠ EAP_TYPE_NONE →
   ∃ me, m sm = Some me ∧ method me = EAP_TYPE_IDENTITY) ∧
  (EAP_state sm = EAP_INTEGRITY_CHECK → over_rounds sm || over_short sm = false →
   ignore sm = false → resp_checked sm) ∧
  EAP_state sm ≠ EAP_INITIATE_REAUTH_START ∧
  (EAP_state sm = EAP_SELECT_ACTION → decision sm ≠ DECISION_INITIATE_REAUTH_START) ∧
  (EAP_state sm = EAP_INITIALIZE → backend_auth cfg = true → currentMethod sm = EAP_TYPE_NONE).

(** A method other than Identity says that the peer was authenticated. *)
Definition method_succeeded sm : Prop :=
  ∃ me p, m sm = Some me ∧ eap_method_priv sm = Some p ∧ isSuccess me p = true ∧
          currentMethod sm ≠ EAP_TYPE_IDENTITY.

(** Success is signalled in SUCCESS and SUCCESS2 only, when a method succeeded or the
    backend server said so; DISABLED and FAILURE can follow before a restart. *)
Definition success_ok sm : Prop :=
  (EAP_state sm = EAP_SELECT_ACTION → decision sm = DECISION_SUCCESS → method_succeeded sm) ∧
  (eapSuccess (eap_if sm) = true →
   EAP_state sm ∈ [EAP_SUCCESS; EAP_SUCCESS2; EAP_DISABLED; EAP_FAILURE] ∧
   (method_succeeded sm ∨ aaaSuccess (eap_if sm) = true)).

Record eap_ok sm : Prop := {
  ok_resp : msg_ok (eapRespData (eap_if sm));
  ok_req : buf_ok (eapReqData (eap_if sm));
  ok_last : buf_ok (lastReqData sm);
  ok_aaa : aaa_ok (eap_if sm);
  ok_backend : aaaSuccess (eap_if sm) = true → backend = true;
  ok_vars : vars_ok (mv sm);
  ok_meth : meth_ok sm;
  ok_active : active_ok sm;
  ok_success : success_ok sm;
}.

(** *** Rank: how many transitions are left, at most, while nothing outside changes *)
Definition state_rank (st : eap_state) (resp idle cont : bool) : nat :=
  match st with
  | EAP_DISABLED => 12
  | EAP_INITIALIZE => 11
  | EAP_IDLE => if idle then 14 else if resp then 12 else 1
  | EAP_RETRANSMIT | EAP_DISCARD | EAP_SEND_REQUEST => if resp then 13 else 2
  | EAP_RECEIVED => 11
  | EAP_INTEGRITY_CHECK | EAP_PICK_UP_METHOD => 10
  | EAP_METHOD_RESPONSE => if cont then 9 else 8
  | EAP_NAK | EAP_INITIATE_RECEIVED => 8
  | EAP_SELECT_ACTION => 7
  | EAP_PROPOSE_METHOD => if cont then 5 else 4
  | EAP_METHOD_REQUEST | EAP_INITIATE_REAUTH_START => 3
  | EAP_INITIALIZE_PASSTHROUGH => 6
  | EAP_RECEIVED2 => 6
  | EAP_AAA_REQUEST => 5
  | EAP_AAA_IDLE => 4
  | EAP_AAA_RESPONSE => 3
  | EAP_SEND_REQUEST2 | EAP_DISCARD2 | EAP_RETRANSMIT2 => if resp then 8 else 2
  | EAP_IDLE2 => if resp then 7 else if idle then 3 else 1
  | EAP_SUCCESS | EAP_FAILURE | EAP_TIMEOUT_FAILURE
  | EAP_SUCCESS2 | EAP_FAILURE2 | EAP_TIMEOUT_FAILURE2 => 0
  end.

Definition local_rank sm : nat :=
  state_rank (EAP_state sm) (eapResp (eap_if sm))
    (bool_decide (retransWhile (eap_if sm) = 0))
    (bool_decide (method_pending (mv sm) = METHOD_PENDING_CONT)).

Definition restarting sm : bool := eapRestart (eap_if sm) && portEnabled (eap_if sm).

(** The step that notices the limit is still to come. *)
Definition limit_fresh sm : bool :=
  if over_rounds sm then bool_decide (num_rounds sm = u32 (max_auth_rounds cfg + 1))
  else bool_decide (num_rounds_short sm = u32 (max_auth_rounds_short cfg + 1)).

Definition rank sm : nat :=
  if restarting sm then 15
  else if negb (portEnabled (eap_if sm))
  then if bool_decide (EAP_state sm = EAP_DISABLED) then 0 else 1
  else if over_rounds sm || over_short sm then if limit_fresh sm then 1 else 0
  else local_rank sm.

Lemma rank_le_15 sm : (rank sm ≤ 15)%nat.
Proof. unfold rank, local_rank, state_rank. repeat case_match; lia. Qed.

(** [st] was entered with [changed] set and at most [n] local transitions left;
    the layer below sees no other change of its variables. *)
Definition enters (st : eap_state) (n : nat) sm sm' : Prop :=
  EAP_state sm' = st ∧ changed sm' = true ∧
  portEnabled (eap_if sm') = portEnabled (eap_if sm) ∧
  eapRestart (eap_if sm') = eapRestart (eap_if sm) ∧
  (local_rank sm' ≤ n)%nat ∧ eap_ok sm' ∧ bool_decide (st = EAP_DISABLED) = false.

Definition entry (st : eap_state) (n : nat) sm (r : outcome (eap_sm S P)) : Prop :=
  ∃ sm', r = Ret sm' ∧ enters st n sm sm'.
End invariant.

Create HintDb eaps.

(** ** The helpers of the state entries *)
Section helpers.
Context {S P : Type} `{EapolCallbacksSpec S} {Pend : MayPend} {Back : Backend}.
Variable registered : list (eap_method S P).
Variable cfg : eap_config.
Variable alloc_ok : nat → bool.
Variable rand : nat → Z.
Variable Pinv : P → Prop.

Implicit Types sm : eap_sm S P.
Implicit Types v : method_vars S.
Abbreviation eap_ok := (eap_ok registered cfg Pinv).
Abbreviation meth_ok := (meth_ok registered Pinv).

(** The part of the invariant that does not look at the state entered. *)
Record data_ok sm : Prop := {
  data_resp : msg_ok (eapRespData (eap_if sm));
  data_req : buf_ok (eapReqData (eap_if sm));
  data_last : buf_ok (lastReqData sm);
  data_aaa : aaa_ok (eap_if sm);
  data_backend : aaaSuccess (eap_if sm) = true → backend = true;
  data_vars : vars_ok (mv sm);
  data_meth : meth_ok sm;
}.

Lemma ok_data sm : eap_ok sm → data_ok sm.
Proof. intros []. by split. Qed.

Lemma vars_ok_view v v' :
  eapol_ctx v' = eapol_ctx v → user v' = user v →
  user_eap_method_index v' = user_eap_method_index v →
  method_pending v' = method_pending v → vars_ok v → vars_ok v'.
Proof. intros E1 E2 E3 E4 [? Hu ? ?]. split; rewrite ?E1, ?E2, ?E3, ?E4; done. Qed.

Lemma vars_ok_alloc v n : vars_ok v → vars_ok (v <| n_alloc := n |>).
Proof. by apply vars_ok_view. Qed.
Lemma vars_ok_rand v n : vars_ok v → vars_ok (v <| n_rand := n |>).
Proof. by apply vars_ok_view. Qed.
Lemma vars_ok_pending v :
  vars_ok v → vars_ok (v <| method_pending := METHOD_PENDING_NONE |>).
Proof. intros [? ? ? ?]. split; [done..|by right]. Qed.
Lemma vars_ok_update v b : vars_ok v → vars_ok (v <| update_user := b |>).
Proof. by apply vars_ok_view. Qed.
Lemma vars_ok_index v n :
  0 ≤ n ≤ EAP_MAX_METHODS → vars_ok v → vars_ok (v <| user_eap_method_index := n |>).
Proof. intros ? [? ? ? ?]. by split. Qed.
Lemma vars_ok_identity v i : vars_ok v → vars_ok (v <| identity := i |>).
Proof. by apply vars_ok_view. Qed.

(** Two machines that agree on the data agree on [data_ok]. *)
Lemma data_ok_view sm sm' :
  eapRespData (eap_if sm') = eapRespData (eap_if sm) →
  buf_ok (eapReqData (eap_if sm')) → buf_ok (lastReqData sm') →
  aaa_ok (eap_if sm') →
  aaaSuccess (eap_if sm') && negb (aaaSuccess (eap_if sm)) = false →
  vars_ok (mv sm') → m sm' = m sm → eap_method_priv sm' = eap_method_priv sm →
  data_ok sm → data_ok sm'.
Proof.
  intros E1 ? ? ? Eb ? E3 E4 []. split; rewrite ?E1; try done.
  { destruct (aaaSuccess (eap_if sm')), (aaaSuccess (eap_if sm)); auto. }
  unfold EapServerProofs.meth_ok in *. by rewrite E3, E4.
Qed.

Lemma srv_dup_ok (ok : bool) b : wf b → ∃ d, wpabuf_dup ok b = Ret d ∧ buf_ok d.
Proof.
  intros Hb. destruct (wpabuf_dup_spec b Hb) as (? & d & ? & ? & _).
  destruct ok; eexists; by split.
Qed.

Lemma copy_buf_ok sm b :
  wf b → ∃ d, eap_copy_buf alloc_ok sm b =
              Ret (d, sm <|mv n_alloc := Datatypes.S (n_alloc (mv sm)) |>) ∧ buf_ok d.
Proof.
  intros Hb. unfold eap_copy_buf, sm_malloc, malloc.
  destruct (srv_dup_ok (alloc_ok (n_alloc (mv sm))) b Hb) as (d & E & Hd). exists d. by rewrite E.
Qed.

Lemma build_result_ok (ok : bool) code id :
  ∃ msg, build_result ok code id = Ret msg ∧ buf_ok msg.
Proof.
  unfold build_result. destruct ok; [|by eexists].
  destruct (put_new 4 (eap_hdr_octets code (u8 id) 4)) as (b & E & _ & b' & E' & Hb' & _);
    [lia|done|].
  unfold sizeof_eap_hdr in *. rewrite E. simpl. rewrite E'. by eexists.
Qed.

Lemma parse_ok sm resp :
  msg_ok resp →
  ∃ a b c d e f, eap_sm_parseEapResp sm resp =
    Ret (sm <| rxResp := a |> <| rxInitiate := b |> <| respId := c |> <| respMethod := d |>
            <| respVendor := e |> <| respVendorMethod := f |>).
Proof.
  intros Hb. unfold eap_sm_parseEapResp. destruct resp as [b|]; [|by do 6 eexists].
  destruct Hb as [(Hu & Hs & Hm) Hok]. unfold sizeof_eap_hdr.
  case_bool_decide; [by do 6 eexists|].
  destruct (WPA_GET_BE16_in (mem b) 2) as (plen & -> & ?); [lia|lia|done|]. simpl.
  case_bool_decide; [by do 6 eexists|].
  destruct (rd_in (mem b) 1) as [id ->]; [lia|].
  destruct (rd_in (mem b) 0) as [code ->]; [lia|]. simpl.
  set (sm1 := if bool_decide (code = _) then _ else _).
  assert (Hsm : ∃ a b, sm1 =
    sm <| rxResp := a |> <| rxInitiate := b |> <| respId := id |> <| respMethod := EAP_TYPE_NONE |>
       <| respVendor := EAP_VENDOR_IETF |> <| respVendorMethod := EAP_TYPE_NONE |>).
  { subst sm1. repeat case_bool_decide; by do 2 eexists. }
  destruct Hsm as (x & y & ->).
  case_bool_decide; [|by do 6 eexists].
  destruct (rd_in (mem b) 4) as [ty ->]; [lia|]. simpl.
  case_bool_decide; [|by do 6 eexists]. case_bool_decide; [by do 6 eexists|].
  destruct (WPA_GET_BE24_in (mem b) 5) as [vd ->]; [lia..|].
  destruct (WPA_GET_BE32_in (mem b) 8) as [vm ->]; [lia..|]. simpl. by do 6 eexists.
Qed.

Lemma nextId_ok sm id :
  ∃ id' n, eap_sm_nextId rand sm id = (id', sm <|mv n_rand := n |>) ∧ 0 ≤ id' < 256.
Proof.
  assert (E0 : sm = sm <|mv n_rand := n_rand (mv sm) |>) by (by destruct sm as [??????????????????????????[]]).
  assert (Hl : ∀ x, 0 ≤ Z.land x 255 < 256)
    by (intros x; rewrite land_255; apply Z.mod_pos_bound; lia).
  unfold eap_sm_nextId. case_bool_decide; [|eexists _, _; by rewrite E0 at 1].
  case_bool_decide; eexists _, _; done.
Qed.

Lemma timeout_nonzero sm : eap_sm_calculateTimeout sm (retransCount sm) (methodTimeout sm) ≠ 0.
Proof.
  unfold eap_sm_calculateTimeout. destruct (try_initiate_reauth sm); [done|].
  case_bool_decide; [done|]. pose proof (backoff_pos (Z.to_nat (retransCount sm)) 3). lia.
Qed.
End helpers.

#[export] Hint Resolve vars_ok_alloc vars_ok_rand vars_ok_pending vars_ok_update
  vars_ok_index vars_ok_identity data_resp data_req data_last data_aaa data_vars data_meth : eaps.

(** ** Policy *)
Section policy.
Context {S P : Type} `{EapolCallbacksSpec S} {Pend : MayPend} {Back : Backend}.
Variable registered : list (eap_method S P).
Variable cfg : eap_config.
Variable alloc_ok : nat → bool.
Variable rand : nat → Z.
Variable Pinv : P → Prop.

Implicit Types sm : eap_sm S P.
Implicit Types v : method_vars S.
Abbreviation meth_ok := (meth_ok registered Pinv).
Abbreviation data_ok := (data_ok registered Pinv).

Lemma next_entry_ok v :
  vars_ok v → ∃ e, next_entry v = Ret e ∧
                   (is_Some e → user_eap_method_index v < EAP_MAX_METHODS).
Proof.
  intros [_ Hu Hi _]. unfold next_entry.
  destruct (user v) as [u|]; [|eexists; split; [done|by intros []]].
  case_bool_decide; [|eexists; split; [done|by intros []]].
  specialize (Hu u eq_refl). unfold user_ok in Hu.
  destruct (rd_in (methods u) (user_eap_method_index v)) as [e ->]; [lia|]. simpl.
  by eexists.
Qed.

Lemma identity_first_ok v : vars_ok v → ∃ b, identity_first v = Ret b.
Proof.
  intros [_ Hu _ _]. unfold identity_first. destruct (user v) as [u|]; [|by eexists].
  specialize (Hu u eq_refl). unfold user_ok, EAP_MAX_METHODS in Hu.
  destruct (rd_in (methods u) 0) as [e ->]; [lia|]. by eexists.
Qed.

Lemma user_get_ok v i p r v' :
  vars_ok v → eap_user_get alloc_ok v i p = (r, v') →
  vars_ok v' ∧ method_pending v' = method_pending v.
Proof.
  intros [Hc Hu Hi Hq]. unfold eap_user_get, malloc.
  assert (Hn : vars_ok (v <| user := None |> <| n_alloc ::= Datatypes.S |>)) by (by split).
  destruct (alloc_ok _); [|by intros [= <- <-]].
  destruct (get_eap_user _ i p zero_user) as [[f u] s] eqn:E.
  assert (user_ok u ∧ ctx_ok s) as [? ?] by (by eapply ctx_user; [|done]).
  destruct f; intros [= <- <-]; (split; [|done]).
  - split; [done|by intros ? [= <-]|change (0 ≤ 0 ≤ 8); lia|exact Hq].
  - by split.
Qed.

Lemma method_says_ok sm f :
  meth_ok sm →
  ∃ b, method_says sm f = Ret b ∧
       (b = true → ∃ me p, m sm = Some me ∧ eap_method_priv sm = Some p ∧ f me p = true).
Proof.
  unfold EapServerProofs.meth_ok, method_says.
  destruct (m sm) as [me|], (eap_method_priv sm) as [p|]; try done; intros _.
  - eexists; split; [done|]. intros ?. by exists me, p.
  - by eexists.
Qed.

(** What [eap_sm_Policy_getDecision] changes. *)
Definition decided sm sm' : Prop :=
  ∃ v b, sm' = sm <| mv := v |> <| start_reauth := b |> ∧ vars_ok v ∧
         method_pending v = method_pending (mv sm).

Lemma decided_same sm : vars_ok (mv sm) → decided sm sm.
Proof. intros. exists (mv sm), (start_reauth sm). split; [by destruct sm|done]. Qed.

Lemma decided_vars sm v :
  vars_ok v → method_pending v = method_pending (mv sm) → decided sm (sm <| mv := v |>).
Proof. intros. exists v, (start_reauth sm). split; [by destruct sm|done]. Qed.

Lemma decided_trans sm1 sm2 sm3 : decided sm1 sm2 → decided sm2 sm3 → decided sm1 sm3.
Proof.
  intros (v & b & -> & ? & E) (v' & b' & -> & ? & E'). exists v', b'.
  split; [done|]. split; [done|]. by rewrite E', <- E.
Qed.

Definition decision_ok sm (r : outcome (EapDecision * eap_sm S P)) : Prop :=
  ∃ d sm', r = Ret (d, sm') ∧ decided sm sm' ∧ d ≠ DECISION_INITIATE_REAUTH_START ∧
           (d = DECISION_SUCCESS → method_succeeded sm').

Lemma decision_ok_trans sm sm' r : decided sm sm' → decision_ok sm' r → decision_ok sm r.
Proof.
  intros Hd (d & sm'' & -> & Hd' & Hr). exists d, sm''. split; [done|].
  split; [by eapply decided_trans|done].
Qed.

Lemma decision_ok_ret sm d sm' :
  decided sm sm' → d ≠ DECISION_INITIATE_REAUTH_START → d ≠ DECISION_SUCCESS →
  decision_ok sm (Ret (d, sm')).
Proof. intros. exists d, sm'. by split_and!. Qed.

Lemma getDecision_methods_ok sm : vars_ok (mv sm) → decision_ok sm (getDecision_methods sm).
Proof.
  intros Hv. unfold getDecision_methods.
  assert (Hd : decided sm (sm <| start_reauth := false |>)).
  { exists (mv sm), false. split; [by destruct sm|done]. }
  destruct (next_entry_ok (mv sm) Hv) as (e & E & _).
  change (mv (sm <| start_reauth := false |>)) with (mv sm). rewrite E. simpl.
  destruct e; [by apply decision_ok_ret|].
  assert (get_erp_send_reauth_start (eapol_ctx (mv sm)) = false) as -> by (apply ctx_reauth, Hv).
  rewrite andb_false_r. simpl. case_match; by apply decision_ok_ret.
Qed.

Lemma getDecision_user_ok sm : vars_ok (mv sm) → decision_ok sm (getDecision_user alloc_ok sm).
Proof.
  intros Hv. unfold getDecision_user.
  destruct (identity (mv sm)) as [i|]; [|by apply getDecision_methods_ok].
  destruct (_ && _); [|by apply getDecision_methods_ok].
  destruct (identity_first_ok _ Hv) as (b & ->). simpl.
  destruct (eap_user_get alloc_ok (mv sm) i false) as [r v] eqn:E.
  destruct (user_get_ok _ _ _ _ _ Hv E) as [Hv' Hp].
  assert (Hd : decided sm (sm <| mv := v |>)) by (by apply decided_vars).
  case_bool_decide; [by apply decision_ok_ret|].
  change (mv (sm <| mv := v |>)) with v. destruct (identity_first_ok _ Hv') as (b' & ->). simpl.
  assert (Hu : ∀ x, decided sm (sm <| mv := v <| update_user := x |> |>))
    by (intros x; apply decided_vars; [by apply vars_ok_update|done]).
  destruct (_ && _).
  - apply decision_ok_ret; [|done..]. apply Hu.
  - eapply decision_ok_trans; [apply (Hu false)|].
    apply getDecision_methods_ok. by apply vars_ok_update.
Qed.

Lemma getDecision_ok sm :
  data_ok sm → decision_ok sm (eap_sm_Policy_getDecision cfg alloc_ok sm).
Proof.
  intros Hd. pose proof (data_vars _ _ _ Hd) as Hv. pose proof (data_meth _ _ _ Hd) as Hm.
  unfold eap_sm_Policy_getDecision.
  destruct (_ && _ && _); [by apply decision_ok_ret; [apply decided_same|..]|].
  assert (Hu : decided sm (sm <|mv update_user := true |>))
    by (apply decided_vars; [by apply vars_ok_update|done]).
  destruct (method_says_ok sm isSuccess Hm) as (b & -> & Hb). simpl.
  destruct (bool_decide _ && b) eqn:Eb.
  - apply andb_true_iff in Eb as [Ec%bool_decide_eq_true_1 ->].
    eexists _, _. split; [done|]. split; [exact Hu|]. split; [done|]. intros _.
    destruct (Hb eq_refl) as (me & p & Em & Ep & Es). by exists me, p.
  - destruct (method_says_ok sm (λ me p, isDone me p && negb (isSuccess me p)) Hm)
      as (b' & -> & _). simpl.
    destruct b'; [by apply decision_ok_ret|by apply getDecision_user_ok].
Qed.
End policy.

(** ** EAP-Response/Nak *)

(** C39: [eap_sm_process_nak] returns for every list of octets in a Nak, reads and moves
    entries only inside the table of the user, and leaves exactly this: the entries before
    the current one, then those of the rest, up to the end of the list, that are types of
    the IETF and named in the Nak, in their order, then what followed the end of the list,
    and cleared entries in the place of those that were removed. *)
Theorem eap_sm_process_nak_keeps_named {S : Type} (v : method_vars S) (nak_list : list Z) :
  (∀ u, user v = Some u → user_ok u) → 0 ≤ user_eap_method_index v ≤ EAP_MAX_METHODS →
  eap_sm_process_nak v nak_list =
    Ret (match user v with
         | None => v
         | Some u =>
             v <| user := Some (u <| methods :=
               after_nak nak_list (Z.to_nat (user_eap_method_index v)) (methods u) |>) |>
         end).
Proof.
  intros Hu Hi. unfold eap_sm_process_nak. destruct (user v) as [u|] eqn:E; [|done].
  specialize (Hu u eq_refl). unfold user_ok, EAP_MAX_METHODS in *.
  replace (user_eap_method_index v) with (Z.of_nat (Z.to_nat (user_eap_method_index v)))
    at 1 by lia.
  rewrite process_nak_spec by (unfold EAP_MAX_METHODS; lia). done.
Qed.

(** The peer names types 25 and 4; the entry of another vendor and type 13 are removed. *)
Lemma eap_sm_process_nak_keeps_named_witness :
  let methods := [(0, 21); (0, 13); (0, 4); (99, 4); (0, 25); (0, 0); (0, 0); (0, 0)] in
  let v := mk_vars unit tt None None None false
             (Some (zero_user <| EapServer.methods := methods |>)) 1 false METHOD_PENDING_NONE 0 0 in
  eap_sm_process_nak v [25; 4] =
    Ret (v <| user := Some (zero_user <| EapServer.methods :=
      [(0, 21); (0, 4); (0, 25); (0, 0); (0, 0); (0, 0); (0, 0); (0, 0)] |>) |>).
Proof.
  cbv zeta. rewrite eap_sm_process_nak_keeps_named; [reflexivity| |].
  - by intros u [= <-].
  - simpl. unfold EAP_MAX_METHODS. lia.
Defined.
