(* ===== verification/EapServerStep.v ===== *)
(** The step function of the EAP server state machine

    Every state entry keeps the invariant of [EapServerProofs]; the loop of
    [eap_server_sm_step] ends, no access leaves a buffer, and success is only
    signalled when a method or the backend server authenticated the peer. *)
From stdpp Require Import strings.
From S2P Require Import Prelude Bytes Wpabuf EapCommon EapServer EapServerProofs.

Section entries.
Context {S P : Type} `{EapolCallbacksSpec S} {Pend : MayPend} {Back : Backend}.
Variable registered : list (eap_method S P).
Variable cfg : eap_config.
Variable alloc_ok : nat → bool.
Variable rand : nat → Z.
Variable tries : nat.
Variable Pinv : P → Prop.
Hypothesis Hmethods : Forall (method_ok Pinv) registered.

Implicit Types sm : eap_sm S P.
Implicit Types v : method_vars S.
Abbreviation eap_ok := (eap_ok registered cfg Pinv).
Abbreviation meth_ok := (meth_ok registered Pinv).
Abbreviation data_ok := (data_ok registered Pinv).
Abbreviation enters := (enters registered cfg Pinv).
Abbreviation entry := (entry registered cfg Pinv).
Abbreviation active_ok := (active_ok cfg).

(** Success has not been signalled since the last restart. *)
Definition fresh sm : Prop := eapSuccess (eap_if sm) = false.

(** The states in which success may have been signalled. *)
Definition late (st : eap_state) : bool :=
  bool_decide (st ∈ [EAP_SUCCESS; EAP_SUCCESS2; EAP_DISABLED; EAP_FAILURE]).

Lemma ok_fresh sm : eap_ok sm → late (EAP_state sm) = false → fresh sm.
Proof.
  intros Hok Hl. unfold fresh. destruct (eapSuccess (eap_if sm)) eqn:E; [|done].
  destruct (ok_success _ _ _ _ Hok) as [_ Hs]. destruct (Hs E) as [Hin _].
  unfold late in Hl. by rewrite bool_decide_eq_true_2 in Hl.
Qed.

(** States without a requirement of their own. *)
Definition plain (st : eap_state) : bool :=
  negb (needs_method st) &&
  negb (bool_decide (st ∈ [EAP_PICK_UP_METHOD; EAP_INITIATE_REAUTH_START; EAP_SELECT_ACTION;
                         EAP_INITIALIZE])).

Lemma active_plain sm : plain (EAP_state sm) = true → active_ok sm.
Proof. unfold EapServerProofs.active_ok. by destruct (EAP_state sm). Qed.

(** The states that need a method, and no more than that. *)
Definition uses_method (st : eap_state) : bool :=
  needs_method st && negb (bool_decide (st = EAP_INTEGRITY_CHECK)).

Lemma active_method sm : uses_method (EAP_state sm) = true → is_Some (m sm) → active_ok sm.
Proof. unfold EapServerProofs.active_ok. by destruct (EAP_state sm). Qed.

Lemma success_fresh sm : EAP_state sm ≠ EAP_SELECT_ACTION → fresh sm → success_ok sm.
Proof. intros Hs Hf. split; [done|]. unfold fresh in Hf. congruence. Qed.

Lemma enters_intro st n sm sm' :
  EAP_state sm' = st → changed sm' = true →
  portEnabled (eap_if sm') = portEnabled (eap_if sm) →
  eapRestart (eap_if sm') = eapRestart (eap_if sm) →
  bool_decide (st = EAP_DISABLED) = false →
  (local_rank sm' ≤ n)%nat → data_ok sm' → active_ok sm' → success_ok sm' →
  enters st n sm sm'.
Proof. intros ?????? [] ??. unfold EapServerProofs.enters. by split_and!. Qed.

(** The entry of a state without requirements, from a state before success. *)
Lemma enters_plain st n sm sm' :
  EAP_state sm' = st → changed sm' = true →
  portEnabled (eap_if sm') = portEnabled (eap_if sm) →
  eapRestart (eap_if sm') = eapRestart (eap_if sm) → plain st = true →
  bool_decide (st = EAP_DISABLED) = false → (local_rank sm' ≤ n)%nat → data_ok sm' → fresh sm' →
  enters st n sm sm'.
Proof.
  intros Es ??? Hp ?? Hd Hf. apply enters_intro; try done.
  - apply active_plain. by rewrite Es.
  - apply success_fresh; [|done]. rewrite Es. by intros ->.
Qed.

Lemma enters_method st n sm sm' :
  EAP_state sm' = st → changed sm' = true →
  portEnabled (eap_if sm') = portEnabled (eap_if sm) →
  eapRestart (eap_if sm') = eapRestart (eap_if sm) → uses_method st = true →
  (local_rank sm' ≤ n)%nat → data_ok sm' → fresh sm' → is_Some (m sm') →
  enters st n sm sm'.
Proof.
  intros Es ??? Hp ? Hd Hf ?. apply enters_intro; try done; [by destruct st|..].
  - apply active_method; [by rewrite Es|done].
  - apply success_fresh; [|done]. rewrite Es. by intros ->.
Qed.

Lemma srv_entry_ret st n sm sm' : enters st n sm sm' → entry st n sm (Ret sm').
Proof. intros. by exists sm'. Qed.

(** [data_ok] of a machine that was only assigned fields outside of the data, or
    data that is known to be well formed. *)
Ltac data_vars_solve Hd :=
  lazymatch type of Hd with EapServerProofs.data_ok _ _ ?s0 =>
    lazymatch goal with |- vars_ok ?v =>
      exact (vars_ok_view (mv s0) v eq_refl eq_refl eq_refl eq_refl (data_vars _ _ _ Hd)) end end.

Ltac data Hd :=
  first [exact Hd |
    lazymatch type of Hd with EapServerProofs.data_ok _ _ ?s0 =>
      lazymatch goal with |- EapServerProofs.data_ok _ _ ?s =>
        refine (data_ok_view _ _ s0 s eq_refl _ _ _ _ _ eq_refl eq_refl Hd) end end;
    [first [exact (data_req _ _ _ Hd) | done] | first [exact (data_last _ _ _ Hd) | done]
    | first [exact (data_aaa _ _ _ Hd) | split; [exact (proj1 (data_aaa _ _ _ Hd))|first [exact I|assumption]] | done]
    | first [reflexivity | apply andb_negb_r] | first [data_vars_solve Hd | done]]].

Lemma srv_enter_idle sm :
  data_ok sm → fresh sm → is_Some (m sm) →
  enters EAP_IDLE (if eapResp (eap_if sm) then 12 else 1) sm (sm_EAP_IDLE_Enter sm false).
Proof.
  intros Hd Hf Hm. apply enters_method; try reflexivity; [|data Hd|exact Hf|exact Hm].
  unfold local_rank. pose proof (timeout_nonzero sm).
  rewrite (bool_decide_eq_false_2 (retransWhile _ = 0)) by done.
  change (EAP_state _) with EAP_IDLE. simpl. by destruct (eapResp (eap_if sm)).
Qed.

Lemma enter_idle2 sm :
  data_ok sm → fresh sm →
  enters EAP_IDLE2 (if eapResp (eap_if sm) then 7 else 1) sm (sm_EAP_IDLE2_Enter sm false).
Proof.
  intros Hd Hf. apply enters_plain; try reflexivity; [|data Hd|exact Hf].
  unfold local_rank. pose proof (timeout_nonzero sm).
  rewrite (bool_decide_eq_false_2 (retransWhile _ = 0)) by done.
  change (EAP_state _) with EAP_IDLE2. simpl. by destruct (eapResp (eap_if sm)).
Qed.

Lemma srv_enter_discard sm :
  data_ok sm → fresh sm → is_Some (m sm) →
  enters EAP_DISCARD 2 sm (sm_EAP_DISCARD_Enter sm false).
Proof. intros Hd Hf Hm. apply enters_method; try reflexivity; [data Hd|exact Hf|exact Hm]. Qed.

Lemma enter_discard2 sm :
  data_ok sm → fresh sm → enters EAP_DISCARD2 2 sm (sm_EAP_DISCARD2_Enter sm false).
Proof. intros Hd Hf. apply enters_plain; try reflexivity; [data Hd|exact Hf]. Qed.

Lemma enter_timeout_failure sm :
  data_ok sm → fresh sm →
  enters EAP_TIMEOUT_FAILURE 0 sm (sm_EAP_TIMEOUT_FAILURE_Enter sm false).
Proof. intros Hd Hf. apply enters_plain; try reflexivity; [data Hd|exact Hf]. Qed.

Lemma enter_timeout_failure2 sm :
  data_ok sm → fresh sm →
  enters EAP_TIMEOUT_FAILURE2 0 sm (sm_EAP_TIMEOUT_FAILURE2_Enter sm false).
Proof. intros Hd Hf. apply enters_plain; try reflexivity; [data Hd|exact Hf]. Qed.

Lemma enter_initialize_passthrough sm :
  data_ok sm → fresh sm →
  enters EAP_INITIALIZE_PASSTHROUGH 6 sm (sm_EAP_INITIALIZE_PASSTHROUGH_Enter sm false).
Proof. intros Hd Hf. apply enters_plain; try reflexivity; [data Hd|exact Hf]. Qed.

Lemma enter_aaa_idle sm :
  data_ok sm → fresh sm → enters EAP_AAA_IDLE 4 sm (sm_EAP_AAA_IDLE_Enter sm false).
Proof. intros Hd Hf. apply enters_plain; try reflexivity; [data Hd|exact Hf]. Qed.

Lemma srv_enter_failure sm g :
  data_ok sm → fresh sm → g = false →
  entry EAP_FAILURE 0 sm (sm_EAP_FAILURE_Enter alloc_ok sm g).
Proof.
  intros Hd Hf ->. unfold sm_EAP_FAILURE_Enter, sm_malloc, malloc, eap_sm_buildFailure.
  edestruct build_result_ok as (msg & -> & Hm). rewrite ret_bind.
  apply srv_entry_ret, enters_plain; try reflexivity; [data Hd|exact Hf].
Qed.

Lemma method_in me : me ∈ registered → method_ok Pinv me.
Proof. by apply Forall_forall. Qed.

Lemma find_registered vd ty me :
  eap_server_get_eap_method registered vd ty = Some me → me ∈ registered.
Proof. intros [Hin _]%find_some. by apply list_elem_of_In. Qed.

Lemma vars_next_refl v : vars_ok v → vars_next v v.
Proof. by split. Qed.

(** What [reset_method] leaves: no private data. *)
Lemma reset_method_eq sm :
  data_ok sm →
  ∃ v, reset_method sm = sm <| mv := v |> <| eap_method_priv := None |> ∧
       vars_next (mv sm) v ∧ user_eap_method_index (mv sm) ≤ user_eap_method_index v.
Proof.
  intros Hd. pose proof (data_vars _ _ _ Hd) as Hv. pose proof (data_meth _ _ _ Hd) as Hm.
  unfold reset_method, EapServerProofs.meth_ok in *.
  destruct (m sm) as [me|] eqn:Em, (eap_method_priv sm) as [p|] eqn:Ep; try done.
  - destruct Hm as [Hin Hp]. exists (reset me (mv sm) p). split; [done|].
    by apply (reset_ok _ _ (method_in me Hin)).
  - exists (mv sm). split; [|split; [by apply vars_next_refl|done]].
    destruct sm as [??????????????????? [p|] ???????]; done.
Qed.

Lemma meth_ok_intro sm me p :
  m sm = Some me → eap_method_priv sm = Some p → me ∈ registered → Pinv p → meth_ok sm.
Proof. unfold EapServerProofs.meth_ok. by intros -> ->. Qed.

(** A method reset and forgotten. *)
Lemma no_method_data sm v :
  data_ok sm → vars_ok v → data_ok (sm <| mv := v |> <| eap_method_priv := None |> <| m := None |>).
Proof. by intros [] ?; split. Qed.

Lemma set_method_data sm v me p :
  data_ok sm → vars_ok v → me ∈ registered → Pinv p →
  data_ok (sm <| m := Some me |> <| mv := v |> <| eap_method_priv := Some p |>).
Proof. by intros [] ? ? ?; split. Qed.

Lemma retransmit_ok sm :
  data_ok sm →
  ∃ c d r v, retransmit alloc_ok sm =
    Ret (sm <| retransCount := c |> <| mv := v |> <|if eapReqData := d |> <|if eapReq := r |>) ∧
    vars_ok v ∧ method_pending v = method_pending (mv sm) ∧ buf_ok d.
Proof.
  intros Hd. pose proof (data_vars _ _ _ Hd) as Hv. pose proof (data_req _ _ _ Hd) as Hr.
  unfold retransmit. cbv zeta.
  change (lastReqData (sm <| retransCount ::= Z.succ |>)) with (lastReqData sm).
  pose proof (data_last _ _ _ Hd) as Hl.
  assert (Heta : sm <| retransCount ::= Z.succ |> =
    sm <| retransCount := Z.succ (retransCount sm) |> <| mv := mv sm |>
       <|if eapReqData := eapReqData (eap_if sm) |> <|if eapReq := eapReq (eap_if sm) |>)
    by (by destruct sm as [?? [] ????????????????????????]).
  destruct (lastReqData sm) as [b|]; [|eexists _, _, _, _; by rewrite Heta].
  case_bool_decide; [|eexists _, _, _, _; by rewrite Heta].
  destruct (copy_buf_ok alloc_ok (sm <| retransCount ::= Z.succ |>) b Hl) as (d & -> & Hb).
  rewrite ret_bind. destruct d as [d|].
  - eexists _, (Some d), true, _. split; [reflexivity|]. split; [by apply vars_ok_alloc|done].
  - eexists _, None, (eapReq (eap_if sm)), _.
    split; [by destruct sm as [?? [] ????????????????????????]|].
    split; [by apply vars_ok_alloc|done].
Qed.

Lemma srv_enter_retransmit sm :
  data_ok sm → fresh sm → is_Some (m sm) →
  entry EAP_RETRANSMIT (if eapResp (eap_if sm) then 13 else 2) sm
    (sm_EAP_RETRANSMIT_Enter alloc_ok sm false).
Proof.
  intros Hd Hf Hm. unfold sm_EAP_RETRANSMIT_Enter.
  set (sm1 := SM_ENTRY sm false EAP_RETRANSMIT).
  assert (Hd1 : data_ok sm1) by data Hd.
  destruct (retransmit_ok sm1 Hd1) as (c & d & r & v & -> & Hv & Hp & Hb).
  apply srv_entry_ret, enters_method; try reflexivity; [data Hd1|exact Hf|exact Hm].
Qed.

Lemma enter_retransmit2 sm :
  data_ok sm → fresh sm →
  entry EAP_RETRANSMIT2 (if eapResp (eap_if sm) then 8 else 2) sm
    (sm_EAP_RETRANSMIT2_Enter alloc_ok sm false).
Proof.
  intros Hd Hf. unfold sm_EAP_RETRANSMIT2_Enter.
  set (sm1 := SM_ENTRY sm false EAP_RETRANSMIT2).
  assert (Hd1 : data_ok sm1) by data Hd.
  destruct (retransmit_ok sm1 Hd1) as (c & d & r & v & -> & Hv & Hp & Hb).
  apply srv_entry_ret, enters_plain; try reflexivity; [data Hd1|exact Hf].
Qed.

Lemma srv_enter_received sm :
  data_ok sm → fresh sm → is_Some (m sm) →
  entry EAP_RECEIVED 11 sm (sm_EAP_RECEIVED_Enter sm false).
Proof.
  intros Hd Hf Hm. unfold sm_EAP_RECEIVED_Enter.
  set (sm1 := SM_ENTRY sm false EAP_RECEIVED).
  assert (Hd1 : data_ok sm1) by data Hd.
  destruct (parse_ok sm1 _ (data_resp _ _ _ Hd1)) as (a & b & c & d & e & f & ->).
  rewrite ret_bind.
  match goal with |- context [if ?x then _ else _] => destruct x end;
    apply srv_entry_ret, enters_method; try reflexivity; try (exact Hf); try (exact Hm); data Hd1.
Qed.

Lemma enter_received2 sm :
  data_ok sm → fresh sm → entry EAP_RECEIVED2 6 sm (sm_EAP_RECEIVED2_Enter sm false).
Proof.
  intros Hd Hf. unfold sm_EAP_RECEIVED2_Enter.
  set (sm1 := SM_ENTRY sm false EAP_RECEIVED2).
  assert (Hd1 : data_ok sm1) by data Hd.
  destruct (parse_ok sm1 _ (data_resp _ _ _ Hd1)) as (a & b & c & d & e & f & ->).
  apply srv_entry_ret, enters_plain; try reflexivity; [data Hd1|exact Hf].
Qed.

Lemma send_request_ok sm :
  data_ok sm →
  ∃ d r q v, send_request alloc_ok sm =
    Ret (sm <| lastReqData := d |> <|if eapResp := false |> <|if eapReq := r |>
            <|if eapNoReq := q |> <| mv := v |>) ∧ vars_ok v ∧
    method_pending v = method_pending (mv sm) ∧ buf_ok d.
Proof.
  intros Hd. pose proof (data_vars _ _ _ Hd) as Hv. pose proof (data_req _ _ _ Hd) as Hr.
  pose proof (data_last _ _ _ Hd) as Hl. unfold send_request.
  destruct (eapReqData (eap_if sm)) as [b|] eqn:E.
  - destruct (copy_buf_ok alloc_ok sm b Hr) as (d & -> & Hb). rewrite ret_bind.
    eexists d, (bool_decide (is_Some d)), (eapNoReq (eap_if sm)), _.
    split; [by destruct sm as [?? [] ????????????????????????]|].
    split; [by apply vars_ok_alloc|done].
  - eexists (lastReqData sm), false, true, (mv sm).
    split; [by destruct sm as [?? [] ????????????????????????]|done].
Qed.

Lemma enter_send_request sm :
  data_ok sm → fresh sm → is_Some (m sm) →
  entry EAP_SEND_REQUEST 2 sm (sm_EAP_SEND_REQUEST_Enter alloc_ok sm false).
Proof.
  intros Hd Hf Hm. unfold sm_EAP_SEND_REQUEST_Enter. cbv zeta.
  set (sm1 := (SM_ENTRY sm false EAP_SEND_REQUEST) <| retransCount := 0 |>).
  assert (Hd1 : data_ok sm1) by data Hd.
  assert (Hs : ∃ n, match eapReqData (eap_if sm1) with
                    | Some req => if bool_decide (20 ≤ used req)
                                  then sm1 <| num_rounds_short := 0 |> else sm1
                    | None => sm1
                    end = sm1 <| num_rounds_short := n |>).
  { destruct (eapReqData _) as [b|]; [case_bool_decide|];
      [exists 0|exists (num_rounds_short sm)..]; by destruct sm. }
  destruct Hs as [n ->]. set (sm2 := sm1 <| num_rounds_short := n |>).
  assert (Hd2 : data_ok sm2) by data Hd1.
  destruct (send_request_ok sm2 Hd2) as (d & r & q & v & -> & Hv & Hp & Hb).
  apply srv_entry_ret, enters_method; try reflexivity; [data Hd2|exact Hf|exact Hm].
Qed.

Lemma enter_send_request2 sm :
  data_ok sm → fresh sm →
  entry EAP_SEND_REQUEST2 2 sm (sm_EAP_SEND_REQUEST2_Enter alloc_ok sm false).
Proof.
  intros Hd Hf. unfold sm_EAP_SEND_REQUEST2_Enter. cbv zeta.
  set (sm1 := (SM_ENTRY sm false EAP_SEND_REQUEST2) <| retransCount := 0 |>).
  assert (Hd1 : data_ok sm1) by data Hd.
  destruct (send_request_ok sm1 Hd1) as (d & r & q & v & -> & Hv & Hp & Hb).
  apply srv_entry_ret, enters_plain; try reflexivity; [data Hd1|exact Hf].
Qed.

(** The length check of a response that is a message. *)
Lemma len_valid_cases resp :
  msg_ok resp →
  ∃ b, eap_hdr_len_valid resp 1 = Some b ∧ (b = true → ∃ r, resp = Some r ∧ valid_resp r).
Proof.
  intros Hr. destruct resp as [r|]; [|by exists false]. destruct Hr as [Hw Hb].
  destruct (eap_hdr_len_valid_safe r 1 Hw Hb) as (b & E & _). exists b. split; [done|].
  intros ->. by exists r.
Qed.

Lemma enter_integrity_check sm :
  data_ok sm → fresh sm → is_Some (m sm) →
  entry EAP_INTEGRITY_CHECK 10 sm (sm_EAP_INTEGRITY_CHECK_Enter sm false).
Proof.
  intros Hd Hf Hm. unfold sm_EAP_INTEGRITY_CHECK_Enter. cbv zeta.
  set (sm1 := SM_ENTRY sm false EAP_INTEGRITY_CHECK).
  assert (Hd1 : data_ok sm1) by data Hd. assert (Hm1 : is_Some (m sm1)) by exact Hm.
  assert (Hret : ∀ b, (b = false → resp_checked sm1) →
                       entry EAP_INTEGRITY_CHECK 10 sm (Ret (sm1 <| ignore := b |>))).
  { intros b Hb. apply srv_entry_ret, enters_intro; try reflexivity;
      [data Hd1| |by apply success_fresh].
    unfold EapServerProofs.active_ok. by split_and!. }
  pose proof (data_meth _ _ _ Hd1) as Hmeth. unfold EapServerProofs.meth_ok in Hmeth.
  destruct (len_valid_cases _ (data_resp _ _ _ Hd1)) as (b & -> & Hb). rewrite access_bind.
  destruct b; [|destruct (eapRespData _); by apply Hret].
  destruct (Hb eq_refl) as (r & Er & Hr). rewrite Er.
  destruct (m sm1) as [me|] eqn:Em; [|by destruct Hm1].
  destruct (eap_method_priv sm1) as [p|]; [|done]. destruct Hmeth as [Hin Hp].
  assert (Hacc : accepted me r → resp_checked sm1).
  { intros Ha me' r' E1 E2 ?. rewrite Em in E1. injection E1 as <-.
    rewrite Er in E2. injection E2 as <-. split; [done|]. right. by right. }
  destruct (check me) as [f|] eqn:Ef.
  2: { assert (sm1 = sm1 <| ignore := ignore sm1 |>) as -> by (by destruct sm).
       apply Hret. intros _. apply Hacc. intros f. by rewrite Ef. }
  destruct (check_ok _ _ (method_in me Hin) f (mv sm1) p r Ef (data_vars _ _ _ Hd1) Hp Hr)
    as (x & Ex). rewrite Ex. apply Hret. intros ->. apply Hacc.
  intros f'. rewrite Ef. intros [= <-]. by exists (mv sm1), p.
Qed.

Lemma enter_method_request sm :
  data_ok sm → fresh sm →
  entry EAP_METHOD_REQUEST 3 sm (sm_EAP_METHOD_REQUEST_Enter rand sm false).
Proof.
  intros Hd Hf. unfold sm_EAP_METHOD_REQUEST_Enter. cbv zeta.
  set (sm1 := SM_ENTRY sm false EAP_METHOD_REQUEST).
  assert (Hd1 : data_ok sm1) by data Hd.
  pose proof (data_meth _ _ _ Hd1) as Hmeth. unfold EapServerProofs.meth_ok in Hmeth.
  destruct (m sm1) as [me|] eqn:Em.
  - destruct (eap_method_priv sm1) as [p|] eqn:Ep; [|done]. destruct Hmeth as [Hin Hp].
    destruct (nextId_ok rand sm1 (currentId sm1)) as (id & n & -> & Hid).
    assert (Hv : vars_ok ((mv sm1) <| n_rand := n |>))
      by apply vars_ok_rand, (data_vars _ _ _ Hd1).
    destruct (buildReq_ok _ _ (method_in me Hin) _ p (u8 id) Hv Hp)
      as (req & p' & v' & E & Hb & Hp' & Hv' & _).
    lazymatch goal with |- context [buildReq me ?x p (u8 id)] =>
      assert (E' : buildReq me x p (u8 id) = Ret (req, p', v')) by exact E end.
    rewrite E', ret_bind.
    apply srv_entry_ret, enters_plain; try reflexivity; [|exact Hf].
    split; [exact (data_resp _ _ _ Hd1)|exact Hb|exact (data_last _ _ _ Hd1)
           |exact (data_aaa _ _ _ Hd1)|exact (data_backend _ _ _ Hd1)|exact Hv'|].
    eapply meth_ok_intro; [exact Em|reflexivity|done..].
  - apply srv_entry_ret, enters_plain; try reflexivity; [exact Hd1|exact Hf].
Qed.

Lemma method_done_ok sm me p :
  data_ok sm → m sm = Some me → eap_method_priv sm = Some p →
  ∃ k i v, method_done sm me p =
    Ret (sm <| mv := v |> <|if eapKeyData := k |> <|if eapSessionId := i |>
            <| methodState := METHOD_END |>) ∧ vars_next (mv sm) v.
Proof.
  intros Hd Em Ep. pose proof (data_vars _ _ _ Hd) as Hv.
  pose proof (data_meth _ _ _ Hd) as Hm. unfold EapServerProofs.meth_ok in Hm.
  rewrite Em, Ep in Hm. destruct Hm as [Hin Hp]. pose proof (method_in me Hin) as Hok.
  unfold method_done, eap_sm_Policy_update. rewrite ret_bind. cbv zeta.
  assert (Hk : ∃ k v, (match getKey me with Some f => f (mv sm) p | None => (None, mv sm) end)
                      = (k, v) ∧ vars_next (mv sm) v).
  { destruct (getKey me) as [f|] eqn:Ef; [|eexists _, _; split; [done|by apply vars_next_refl]].
    destruct (f (mv sm) p) as [k v] eqn:E. exists k, v. split; [done|].
    by eapply (getKey_ok _ _ Hok). }
  destruct Hk as (k & v & -> & Hv1 & Hq1).
  lazymatch goal with |- context [match getSessionId me with Some f => f ?x p | None => _ end] =>
    change x with v end.
  assert (Hi : ∃ i v', (match getSessionId me with Some f => f v p | None => (None, v) end)
                      = (i, v') ∧ vars_next v v').
  { destruct (getSessionId me) as [f|] eqn:Ef; [|eexists _, _; split; [done|by apply vars_next_refl]].
    destruct (f v p) as [i v'] eqn:E. exists i, v'. split; [done|].
    by eapply (getSessionId_ok _ _ Hok). }
  destruct Hi as (i & v' & -> & Hv2 & Hq2).
  exists k, i, v'. split; [done|]. split; [done|auto].
Qed.

Lemma enter_method_response sm n :
  data_ok sm → fresh sm → is_Some (m sm) → resp_checked sm →
  (if bool_decide (method_pending (mv sm) = METHOD_PENDING_CONT) then 9 else 8)%nat = n →
  entry EAP_METHOD_RESPONSE n sm (sm_EAP_METHOD_RESPONSE_Enter sm false).
Proof.
  intros Hd Hf Hm Hck Hn. unfold sm_EAP_METHOD_RESPONSE_Enter. cbv zeta.
  set (sm1 := SM_ENTRY sm false EAP_METHOD_RESPONSE).
  assert (Hd1 : data_ok sm1) by data Hd. assert (Hm1 : is_Some (m sm1)) by exact Hm.
  pose proof (data_meth _ _ _ Hd1) as Hmeth. unfold EapServerProofs.meth_ok in Hmeth.
  destruct (len_valid_cases _ (data_resp _ _ _ Hd1)) as (b & -> & Hb). rewrite access_bind.
  assert (Hret : entry EAP_METHOD_RESPONSE n sm (Ret sm1)).
  { apply srv_entry_ret, enters_method; try reflexivity; [|exact Hd1|exact Hf|exact Hm].
    unfold local_rank. change (mv sm1) with (mv sm). change (EAP_state sm1) with EAP_METHOD_RESPONSE.
    simpl. by rewrite Hn. }
  destruct b; [|destruct (eapRespData _); apply Hret].
  destruct (Hb eq_refl) as (r & Er & Hr). rewrite Er.
  destruct (m sm1) as [me|] eqn:Em; [|by destruct Hm1].
  destruct (eap_method_priv sm1) as [p|] eqn:Ep; [|done]. destruct Hmeth as [Hin Hp].
  destruct (process_ok _ _ (method_in me Hin) (mv sm1) p r (data_vars _ _ _ Hd1) Hp
              (Hck me r Em Er Hr))
    as (p' & v & -> & Hp' & Hv & Hq). rewrite ret_bind.
  set (sm2 := sm1 <| mv := v |> <| eap_method_priv := Some p' |>).
  assert (Hd2 : data_ok sm2).
  { destruct Hd1. split; try done. eapply meth_ok_intro; [exact Em|reflexivity|done..]. }
  assert (Hrank : ∀ v', (method_pending v' = METHOD_PENDING_CONT →
                         method_pending v = METHOD_PENDING_CONT) →
    ((if bool_decide (method_pending v' = METHOD_PENDING_CONT) then 9 else 8) ≤ n)%nat).
  { intros v' Hv'. rewrite <- Hn. destruct (decide (method_pending v' = METHOD_PENDING_CONT)) as [Hc|Hc].
    - rewrite !bool_decide_eq_true_2; [done| |done]. by apply Hq, Hv'.
    - rewrite (bool_decide_eq_false_2 _ Hc). case_match; lia. }
  destruct (isDone me p').
  - destruct (method_done_ok sm2 me p' Hd2 Em eq_refl) as (k & i & v' & -> & Hv' & Hq').
    apply srv_entry_ret, enters_method; try reflexivity; [apply (Hrank v' Hq')|data Hd2|exact Hf|].
    change (is_Some (m sm1)). by rewrite Em.
  - apply srv_entry_ret, enters_method; try reflexivity; [apply (Hrank v (λ x, x))|data Hd2|exact Hf|].
    change (is_Some (m sm1)). by rewrite Em.
Qed.

Hypothesis Hident : ∀ me v,
  eap_server_get_eap_method registered EAP_VENDOR_IETF EAP_TYPE_IDENTITY = Some me →
  is_Some (init me v).1.
Hypothesis Hnone : eap_server_get_eap_method registered EAP_VENDOR_IETF EAP_TYPE_NONE = None.

(** What PROPOSE_METHOD may change. *)
Definition proposed sm sm' : Prop :=
  data_ok sm' ∧ EAP_state sm' = EAP_state sm ∧ changed sm' = changed sm ∧
  eap_if sm' = eap_if sm ∧
  (method_pending (mv sm') = METHOD_PENDING_CONT → method_pending (mv sm) = METHOD_PENDING_CONT).

Lemma proposed_trans sm1 sm2 sm3 : proposed sm1 sm2 → proposed sm2 sm3 → proposed sm1 sm3.
Proof.
  intros (_ & ? & ? & ? & Hq) (? & ? & ? & ? & Hq'). unfold proposed.
  split_and!; [done|congruence..|auto].
Qed.

Lemma getNextMethod_ok sm :
  data_ok sm →
  ∃ vd ty sm', eap_sm_Policy_getNextMethod sm = Ret (vd, ty, sm') ∧ proposed sm sm' ∧
    ((vd = EAP_VENDOR_IETF ∧ ty = EAP_TYPE_IDENTITY) ∨
     (vd = EAP_VENDOR_IETF ∧ ty = EAP_TYPE_NONE) ∨
     user_eap_method_index (mv sm') = user_eap_method_index (mv sm) + 1).
Proof.
  intros Hd. pose proof (data_vars _ _ _ Hd) as Hv. unfold eap_sm_Policy_getNextMethod.
  destruct (_ || _).
  { eexists _, _, _. split; [done|]. split; [|by left]. split; [|done]. data Hd. }
  destruct (next_entry_ok (mv sm) Hv) as (e & -> & He). rewrite ret_bind.
  destruct e as [[vd ty]|]; eexists _, _, _; (split; [done|]).
  - split; [|right; right; done]. split; [|done].
    specialize (He ltac:(by eexists)). pose proof (vars_index _ Hv).
    destruct Hd. split; try done. eapply (vars_ok_index (mv sm)); [lia|done].
  - split; [by split|]. right. by left.
Qed.

Lemma try_another_method_ok n sm :
  data_ok sm → EAP_MAX_METHODS - user_eap_method_index (mv sm) + 1 < Z.of_nat n →
  ∃ sm', try_another_method registered n sm = Some (Ret sm') ∧ proposed sm sm'.
Proof.
  revert sm. induction n as [|n IH]; intros sm Hd Hn.
  { pose proof (vars_index _ (data_vars _ _ _ Hd)). lia. }
  cbn [try_another_method].
  destruct (getNextMethod_ok sm Hd) as (vd & ty & sm1 & -> & Hp1 & Hnext). cbv zeta.
  set (sm2 := sm1 <| currentMethod := if bool_decide (vd = EAP_VENDOR_IETF) then ty
                                      else EAP_TYPE_EXPANDED |>).
  assert (Hd2 : data_ok sm2) by (destruct Hp1 as [Hd1 _]; data Hd1).
  destruct (reset_method_eq sm2 Hd2) as (v & -> & (Hv & Hq) & Hi).
  change (mv sm2) with (mv sm1) in *.
  set (sm3 := sm2 <| mv := v |> <| eap_method_priv := None |>).
  destruct (eap_server_get_eap_method registered vd ty) as [me|] eqn:Eme.
  - pose proof (find_registered _ _ _ Eme) as Hin. change (mv sm3) with v.
    destruct (init me v) as [p v'] eqn:Ei.
    destruct (init_ok _ _ (method_in me Hin) v p v' Hv Ei) as ((Hv' & Hq') & Hi' & Hp).
    destruct p as [p|].
    + eexists. split; [done|]. eapply proposed_trans; [done|].
      split; [|split_and!; try done; auto].
      destruct Hd2. split; try done. eapply meth_ok_intro; [reflexivity..|done|by apply Hp].
    + set (sm4 := sm3 <| m := Some me |> <| mv := v' |> <| eap_method_priv := None |>
                    <| m := None |> <| currentMethod := EAP_TYPE_NONE |>).
      assert (Hd4 : data_ok sm4) by (destruct Hd2; by split).
      destruct Hnext as [[-> ->]|[[-> ->]|Hnext]].
      * destruct (Hident me v Eme) as [d Hd']. by rewrite Ei in Hd'.
      * congruence.
      * destruct (IH sm4 Hd4) as (sm' & E & Hp4).
        { change (mv sm4) with v'. lia. }
        exists sm'. split; [exact E|]. eapply proposed_trans; [done|].
        eapply proposed_trans; [|done]. split; [done|]. split_and!; try done. auto.
  - eexists. split; [done|]. eapply proposed_trans; [done|].
    split; [|split_and!; try done; auto].
    destruct Hd2. by split.
Qed.

Hypothesis Htries : (10 ≤ tries)%nat.

Lemma enter_propose_method sm n :
  data_ok sm → fresh sm →
  (if bool_decide (method_pending (mv sm) = METHOD_PENDING_CONT) then 5 else 4)%nat = n →
  ∃ sm', sm_EAP_PROPOSE_METHOD_Enter registered tries sm false = Some (Ret sm') ∧
         enters EAP_PROPOSE_METHOD n sm sm'.
Proof.
  intros Hd Hf Hn. unfold sm_EAP_PROPOSE_METHOD_Enter. cbv zeta.
  set (sm1 := (SM_ENTRY sm false EAP_PROPOSE_METHOD) <| try_initiate_reauth := false |>).
  assert (Hd1 : data_ok sm1) by data Hd.
  destruct (try_another_method_ok tries sm1 Hd1) as (sm' & -> & Hd' & Es & Ec & Ei & Hq).
  { pose proof (vars_index _ (data_vars _ _ _ Hd1)). unfold EAP_MAX_METHODS in *. lia. }
  exists sm'. split; [done|]. apply enters_plain; try done.
  - by rewrite Ei.
  - by rewrite Ei.
  - unfold local_rank. rewrite Es. change (EAP_state sm1) with EAP_PROPOSE_METHOD. simpl.
    rewrite <- Hn. destruct (decide (method_pending (mv sm') = METHOD_PENDING_CONT)) as [Hc|Hc].
    + rewrite !bool_decide_eq_true_2; [done| |done]. exact (Hq Hc).
    + rewrite (bool_decide_eq_false_2 _ Hc). case_match; lia.
  - unfold fresh. rewrite Ei. exact Hf.
Qed.

Lemma nak_methods_ok resp :
  valid_resp resp → ∃ l, nak_methods resp = Ret l.
Proof.
  intros (Hw & Hb & Hv). unfold nak_methods. pose proof Hw as (Hu & Hs & Hm).
  destruct (eap_hdr_len_valid_safe resp 1 Hw Hb) as (b & E & Hlen).
  rewrite Hv in E. injection E as <-. destruct (Hlen eq_refl) as (H4 & len & E2 & Hle).
  unfold sizeof_eap_hdr in *. rewrite E2. simpl.
  destruct (rd_in (mem resp) 4) as [ty ->]; [lia|]. simpl.
  case_bool_decide; [|by eexists].
  destruct (slice_is_Some (mem resp) 5 (Z.min len (used resp) - 4 - 1)) as [s ->]; [lia..|].
  by eexists.
Qed.

Lemma Policy_update_ok sm l :
  data_ok sm →
  ∃ d v, eap_sm_Policy_update sm l = Ret (sm <| decision := d |> <| mv := v |>) ∧ vars_ok v ∧
         method_pending v = method_pending (mv sm).
Proof.
  intros Hd. pose proof (data_vars _ _ _ Hd) as Hv. unfold eap_sm_Policy_update.
  destruct l as [l|]; [|exists (decision sm), (mv sm); split; [by destruct sm|done]].
  destruct (user (mv sm)) as [u|] eqn:Eu;
    [|exists (decision sm), (mv sm); split; [by destruct sm|done]].
  destruct (phase2 u); [exists DECISION_FAILURE, (mv sm); split; [by destruct sm|done]|].
  unfold eap_sm_process_nak. rewrite Eu.
  pose proof (vars_user _ Hv u Eu) as Hu. pose proof (vars_index _ Hv) as Hi.
  unfold user_ok in Hu.
  pose proof (process_nak_spec l (methods u) (Z.to_nat (user_eap_method_index (mv sm))) Hu
    ltac:(lia)) as Hn. rewrite Z2Nat.id in Hn by lia. rewrite Hn, access_bind.
  exists (decision sm), ((mv sm) <| user := Some (u <| methods := after_nak l (Z.to_nat (user_eap_method_index (mv sm))) (methods u) |>) |>).
  split; [by destruct sm|]. split; [|done].
  destruct Hv. split; try done. intros ? [= <-]. unfold user_ok.
  change (blen (after_nak l (Z.to_nat (user_eap_method_index (mv sm))) (methods u)) = EAP_MAX_METHODS).
  by rewrite after_nak_length.
Qed.

Lemma enter_nak sm :
  data_ok sm → fresh sm → entry EAP_NAK 8 sm (sm_EAP_NAK_Enter sm false).
Proof.
  intros Hd Hf. unfold sm_EAP_NAK_Enter. cbv zeta.
  set (sm1 := SM_ENTRY sm false EAP_NAK).
  assert (Hd1 : data_ok sm1) by data Hd.
  destruct (reset_method_eq sm1 Hd1) as (v & -> & (Hv & _) & _).
  set (sm2 := sm1 <| mv := v |> <| eap_method_priv := None |> <| m := None |>).
  assert (Hd2 : data_ok sm2) by by apply no_method_data.
  assert (Hret : ∀ d v', vars_ok v' →
    entry EAP_NAK 8 sm (Ret (sm2 <| decision := d |> <| mv := v' |>))).
  { intros d v' Hv'. apply srv_entry_ret, enters_plain; try reflexivity; [data Hd2|exact Hf]. }
  assert (Hret' : entry EAP_NAK 8 sm (Ret sm2)).
  { apply srv_entry_ret, enters_plain; try reflexivity; [data Hd2|exact Hf]. }
  pose proof (data_meth _ _ _ Hd1) as Hm. unfold EapServerProofs.meth_ok in Hm.
  destruct (len_valid_cases _ (data_resp _ _ _ Hd2)) as (b & -> & Hb). rewrite access_bind.
  assert (Hgo : entry EAP_NAK 8 sm
    match eapRespData (eap_if sm2), b with
    | Some resp, true =>
        l ← (if bool_decide (sizeof_eap_hdr < used resp) then nak_methods resp else Ret None);
        eap_sm_Policy_update sm2 l
    | _, _ => Ret sm2
    end).
  { destruct b; [|destruct (eapRespData _); apply Hret'].
    destruct (Hb eq_refl) as (r & -> & Hr).
    assert (Hl : ∃ l, (if bool_decide (sizeof_eap_hdr < used r) then nak_methods r else Ret None)
                      = Ret l).
    { case_bool_decide; [by apply nak_methods_ok|by eexists]. }
    destruct Hl as [l ->]. rewrite ret_bind.
    destruct (Policy_update_ok sm2 l Hd2) as (d & v' & -> & Hv' & _). by apply Hret. }
  by destruct (m sm1), (eap_method_priv sm1).
Qed.

Lemma enter_select_action sm :
  data_ok sm → fresh sm →
  entry EAP_SELECT_ACTION 7 sm (sm_EAP_SELECT_ACTION_Enter cfg alloc_ok sm false).
Proof.
  intros Hd Hf. unfold sm_EAP_SELECT_ACTION_Enter. cbv zeta.
  set (sm1 := SM_ENTRY sm false EAP_SELECT_ACTION).
  assert (Hd1 : data_ok sm1) by data Hd.
  destruct (getDecision_ok registered cfg alloc_ok Pinv sm1 Hd1)
    as (d & sm2 & -> & (v & b & -> & Hv & Hp) & Hni & Hs).
  rewrite ret_bind. apply srv_entry_ret, enters_intro; try reflexivity.
  - data Hd1.
  - unfold EapServerProofs.active_ok. by split_and!.
  - split; [|intros Hf'; unfold fresh in Hf; exfalso; apply (eq_true_false_abs _ Hf' Hf)].
    intros _ E. exact (Hs E).
Qed.

Lemma srv_enter_success sm :
  data_ok sm → method_succeeded sm →
  entry EAP_SUCCESS 0 sm (sm_EAP_SUCCESS_Enter alloc_ok sm false).
Proof.
  intros Hd Hm. unfold sm_EAP_SUCCESS_Enter, sm_malloc, malloc, eap_sm_buildSuccess. cbv zeta.
  edestruct build_result_ok as (msg & -> & Hb). rewrite ret_bind.
  destruct (eapKeyData _); apply srv_entry_ret, enters_intro; try reflexivity;
    first [data Hd | apply active_plain; reflexivity
          | split; [done|intros _; split; [cbn; set_solver|by left]]].
Qed.

Lemma enter_aaa_request sm :
  data_ok sm → fresh sm →
  entry EAP_AAA_REQUEST 5 sm (sm_EAP_AAA_REQUEST_Enter alloc_ok sm false).
Proof.
  intros Hd Hf. unfold sm_EAP_AAA_REQUEST_Enter. cbv zeta.
  set (sm1 := SM_ENTRY sm false EAP_AAA_REQUEST).
  assert (Hd1 : data_ok sm1) by data Hd. pose proof (data_resp _ _ _ Hd1) as Hr.
  destruct (eapRespData (eap_if sm1)) as [r|].
  - destruct Hr as [Hw _]. destruct (copy_buf_ok alloc_ok sm1 r Hw) as (d & -> & Hb).
    rewrite ret_bind. apply srv_entry_ret, enters_plain; try reflexivity; [data Hd1|exact Hf].
  - apply srv_entry_ret, enters_plain; try reflexivity; [data Hd1|exact Hf].
Qed.

Lemma copy_aaa_request_ok sm :
  data_ok sm →
  ∃ d v, copy_aaa_request alloc_ok sm = Ret (sm <| mv := v |> <|if eapReqData := d |>) ∧
         vars_ok v ∧ buf_ok d.
Proof.
  intros Hd. unfold copy_aaa_request. destruct (data_aaa _ _ _ Hd) as [Ha _].
  destruct (aaaEapReqData (eap_if sm)) as [r|].
  - destruct (copy_buf_ok alloc_ok sm r Ha) as (d & -> & Hb). rewrite ret_bind.
    eexists d, _. split; [reflexivity|]. split; [|done]. apply vars_ok_alloc, (data_vars _ _ _ Hd).
  - exists (eapReqData (eap_if sm)), (mv sm).
    split; [by destruct sm as [?? [] ????????????????????????]|].
    split; [exact (data_vars _ _ _ Hd)|exact (data_req _ _ _ Hd)].
Qed.

Lemma getId_ok b : buf_ok b → ∃ id, eap_sm_getId b = Ret id.
Proof.
  destruct b as [b|]; [|by eexists]. intros (Hu & Hs & Hm). unfold eap_sm_getId, sizeof_eap_hdr.
  case_bool_decide; [by eexists|]. destruct (rd_in (mem b) 1) as [id ->]; [lia|]. by eexists.
Qed.

Lemma enter_aaa_response sm :
  data_ok sm → fresh sm →
  entry EAP_AAA_RESPONSE 3 sm (sm_EAP_AAA_RESPONSE_Enter alloc_ok sm false).
Proof.
  intros Hd Hf. unfold sm_EAP_AAA_RESPONSE_Enter. cbv zeta.
  set (sm1 := SM_ENTRY sm false EAP_AAA_RESPONSE).
  assert (Hd1 : data_ok sm1) by data Hd.
  destruct (copy_aaa_request_ok sm1 Hd1) as (d & v & -> & Hv & Hb). rewrite ret_bind.
  destruct (getId_ok d Hb) as (id & E).
  lazymatch goal with |- context [eap_sm_getId ?x] =>
    assert (E' : eap_sm_getId x = Ret id) by exact E end. rewrite E', ret_bind.
  apply srv_entry_ret, enters_plain; try reflexivity; [data Hd1|exact Hf].
Qed.

Lemma enter_failure2 sm :
  data_ok sm → fresh sm →
  entry EAP_FAILURE2 0 sm (sm_EAP_FAILURE2_Enter alloc_ok sm false).
Proof.
  intros Hd Hf. unfold sm_EAP_FAILURE2_Enter. cbv zeta.
  set (sm1 := SM_ENTRY sm false EAP_FAILURE2).
  assert (Hd1 : data_ok sm1) by data Hd.
  destruct (copy_aaa_request_ok sm1 Hd1) as (d & v & -> & Hv & Hb). rewrite ret_bind.
  apply srv_entry_ret, enters_plain; try reflexivity; [data Hd1|exact Hf].
Qed.

Lemma copy_aaa_key_eq sm :
  data_ok sm →
  ∃ k v, copy_aaa_key alloc_ok sm = sm <| mv := v |> <|if eapKeyData := k |> ∧ vars_ok v.
Proof.
  intros Hd. unfold copy_aaa_key, sm_malloc, malloc.
  destruct (aaaEapKeyData (eap_if sm)) as [k|].
  - eexists _, _. split; [reflexivity|]. apply vars_ok_alloc, (data_vars _ _ _ Hd).
  - exists (eapKeyData (eap_if sm)), (mv sm).
    split; [by destruct sm as [?? [] ????????????????????????]|exact (data_vars _ _ _ Hd)].
Qed.

Lemma enter_success2 sm :
  data_ok sm → aaaSuccess (eap_if sm) = true →
  entry EAP_SUCCESS2 0 sm (sm_EAP_SUCCESS2_Enter alloc_ok sm false).
Proof.
  intros Hd Hs. unfold sm_EAP_SUCCESS2_Enter. cbv zeta.
  set (sm1 := SM_ENTRY sm false EAP_SUCCESS2).
  assert (Hd1 : data_ok sm1) by data Hd.
  destruct (copy_aaa_request_ok sm1 Hd1) as (d & v & -> & Hv & Hb). rewrite ret_bind.
  set (sm2 := sm1 <| mv := v |> <|if eapReqData := d |>
                  <|if eapKeyAvailable := aaaEapKeyAvailable (eap_if sm) |>).
  assert (Hd2 : data_ok sm2) by data Hd1.
  change (aaaEapKeyAvailable (eap_if sm1 <| mv := v |> <|if eapReqData := d |>))
    with (aaaEapKeyAvailable (eap_if sm)).
  fold sm2. destruct (copy_aaa_key_eq sm2 Hd2) as (k & v' & -> & Hv').
  destruct (aaaEapKeyAvailable (eap_if sm)); apply srv_entry_ret, enters_intro; try reflexivity;
    first [data Hd2 | apply active_plain; reflexivity
          | split; [done|intros _; split; [cbn; set_solver|right; exact Hs]]].
Qed.

(** INITIALIZE, by the global rule or from DISABLED: the restart is acknowledged. *)
Lemma srv_enter_initialize sm (g : bool) :
  data_ok sm →
  ∃ sm', sm_EAP_INITIALIZE_Enter cfg sm g = Ret sm' ∧ EAP_state sm' = EAP_INITIALIZE ∧
    changed sm' = negb g || bool_decide (EAP_state sm ≠ EAP_INITIALIZE) || changed sm ∧
    portEnabled (eap_if sm') = portEnabled (eap_if sm) ∧ eapRestart (eap_if sm') = false ∧
    fresh sm' ∧ eap_ok sm' ∧ num_rounds sm' = 0 ∧ num_rounds_short sm' = 0.
Proof.
  intros Hd. unfold sm_EAP_INITIALIZE_Enter. cbv zeta.
  set (sm1 := SM_ENTRY sm g EAP_INITIALIZE).
  assert (H1 : data_ok sm1 ∧ EAP_state sm1 = EAP_INITIALIZE ∧ eap_if sm1 = eap_if sm ∧
    changed sm1 = negb g || bool_decide (EAP_state sm ≠ EAP_INITIALIZE) || changed sm).
  { subst sm1. unfold SM_ENTRY. destruct (negb g || _); (split; [data Hd|done]). }
  clearbody sm1. destruct H1 as (Hd1 & Es1 & Ei1 & Ec1). rewrite <- Ec1, <- Ei1. clear Hd Ei1 Ec1 sm.
  set (sm2 := if _ : bool then sm1 <| mv ::= eap_server_clear_identity |> else sm1).
  assert (H2 : ∃ v, sm2 = sm1 <| mv := v |> ∧ vars_ok v).
  { subst sm2. pose proof (data_vars _ _ _ Hd1). case_match.
    - eexists; split; [reflexivity|]. by apply vars_ok_identity.
    - exists (mv sm1). split; [by destruct sm1|done]. }
  destruct H2 as (v & -> & Hv).
  set (sm3 := sm1 <| mv := v |> <| try_initiate_reauth := false |> <| currentId := -1 |>
                  <| eap_if ::= initialize_vars |>).
  assert (Hd3 : data_ok sm3) by (destruct Hd1; by split).
  destruct (reset_method_eq sm3 Hd3) as (v' & -> & (Hv' & _) & _).
  set (sm4 := sm3 <| mv := v' |> <| eap_method_priv := None |> <| m := None |>
                  <|mv user_eap_method_index := 0 |>).
  assert (Hv4 : vars_ok (v' <| user_eap_method_index := 0 |>))
    by (apply vars_ok_index; [by unfold EAP_MAX_METHODS|done]).
  assert (Hd4 : data_ok sm4) by (destruct Hd3; by split).
  assert (Hend : ∀ sm5, (∃ a b c d e f i t, sm5 = sm4 <| rxResp := a |> <| rxInitiate := b |>
      <| respId := c |> <| respMethod := d |> <| respVendor := e |> <| respVendorMethod := f |>
      <| currentId := i |> <| currentMethod := t |> ∧
      (backend_auth cfg = true → t = EAP_TYPE_NONE)) →
    let sm' := sm5 <| num_rounds := 0 |> <| num_rounds_short := 0 |>
                   <|mv method_pending := METHOD_PENDING_NONE |> in
    EAP_state sm' = EAP_INITIALIZE ∧ changed sm' = changed sm1 ∧
    portEnabled (eap_if sm') = portEnabled (eap_if sm1) ∧ eapRestart (eap_if sm') = false ∧
    fresh sm' ∧ eap_ok sm' ∧ num_rounds sm' = 0 ∧ num_rounds_short sm' = 0).
  { intros sm5 (a & b & c & d & e & f & i & t & -> & Ht). cbv zeta.
    assert (Es : EAP_state sm4 = EAP_INITIALIZE) by exact Es1.
    destruct Hd4 as [D1 D2 D3 D4 D7 D5 D6].
    split_and!; try done. split; try done.
    - exact (vars_ok_pending _ D5).
    - unfold EapServerProofs.active_ok.
      lazymatch goal with |- context [EAP_state ?x] =>
        assert (Es' : EAP_state x = EAP_INITIALIZE) by exact Es end.
      rewrite Es'. by split_and!.
    - apply success_fresh; [|done]. change (EAP_state sm4 ≠ EAP_SELECT_ACTION). by rewrite Es. }
  destruct (backend_auth cfg) eqn:Eb.
  - set (sm5 := sm4 <| currentMethod := EAP_TYPE_NONE |>).
    destruct (parse_ok sm5 (eapRespData (eap_if sm5)) (data_resp _ _ _ Hd4))
      as (a & b & c & d & e & f & ->). rewrite !ret_bind. eexists. split; [reflexivity|].
    apply Hend. destruct a.
    + exists true, b, c, d, e, f, c, EAP_TYPE_NONE. split; [by destruct sm4|done].
    + exists false, b, c, d, e, f, (currentId sm4), EAP_TYPE_NONE. split; [by destruct sm4|done].
  - rewrite ret_bind. eexists. split; [reflexivity|]. apply Hend.
    exists (rxResp sm4), (rxInitiate sm4), (respId sm4), (respMethod sm4), (respVendor sm4),
      (respVendorMethod sm4), (currentId sm4), (currentMethod sm4).
    split; [by destruct sm4|done].
Qed.

Lemma enter_pick_up_method sm :
  data_ok sm → fresh sm → currentMethod sm = EAP_TYPE_NONE →
  enters EAP_PICK_UP_METHOD 10 sm (sm_EAP_PICK_UP_METHOD_Enter registered sm false).
Proof.
  intros Hd Hf Hc. unfold sm_EAP_PICK_UP_METHOD_Enter. cbv zeta.
  set (sm1 := SM_ENTRY sm false EAP_PICK_UP_METHOD).
  assert (Hd1 : data_ok sm1) by data Hd.
  assert (Hact : ∀ sm', EAP_state sm' = EAP_PICK_UP_METHOD → currentMethod sm' = EAP_TYPE_NONE →
                         active_ok sm').
  { intros sm' Es Ec. unfold EapServerProofs.active_ok. rewrite Es. split_and!; done. }
  destruct (eap_sm_Policy_doPickUp (respMethod sm1)) eqn:Edo.
  2: { apply enters_intro; try reflexivity; [exact Hd1|by apply Hact|by apply success_fresh]. }
  set (sm2 := sm1 <| currentMethod := respMethod sm1 |>).
  assert (Hd2 : data_ok sm2) by data Hd1.
  destruct (reset_method_eq sm2 Hd2) as (v & -> & (Hv & _) & _).
  set (sm3 := sm2 <| mv := v |> <| eap_method_priv := None |>).
  assert (Hd3 : data_ok (sm3 <| m := None |>)) by (destruct Hd2; by split).
  destruct (eap_server_get_eap_method registered EAP_VENDOR_IETF (currentMethod sm3)) as [me|] eqn:Eme.
  2: { apply enters_intro; try reflexivity; [data Hd3|by apply Hact|by apply success_fresh]. }
  pose proof (find_registered _ _ _ Eme) as Hin.
  destruct (initPickUp me) as [f|] eqn:Ef.
  2: { apply enters_intro; try reflexivity; [data Hd3|by apply Hact|by apply success_fresh]. }
  change (mv (sm3 <| m := Some me |>)) with v.
  destruct (f v) as [p v'] eqn:Ep.
  destruct (initPickUp_ok _ _ (method_in me Hin) f v p v' Ef Hv Ep) as ((Hv' & _) & Hp).
  destruct p as [p|].
  - apply enters_intro; try reflexivity; [| |by apply success_fresh].
    + destruct Hd3. split; try done. eapply meth_ok_intro; [reflexivity..|done|by apply Hp].
    + unfold EapServerProofs.active_ok. split_and!; try done. intros _ _.
      exists me. split; [done|]. apply find_some in Eme as [_ [_ ->]%bool_decide_eq_true_1].
      by apply bool_decide_eq_true_1 in Edo.
  - apply enters_intro; try reflexivity; [|by apply Hact|by apply success_fresh].
    destruct Hd3. by split.
Qed.

(** ** The step function *)
Hypothesis Hrounds : 0 ≤ max_auth_rounds cfg < 2 ^ 32 - 2.
Hypothesis Hshort : 0 ≤ max_auth_rounds_short cfg < 2 ^ 32 - 2.

Abbreviation Step := (sm_EAP_Step registered cfg alloc_ok rand tries).
Abbreviation rank := (rank cfg).

(** A local transition lowers the rank of the state, or none is taken. *)
Definition descends sm (r : option (outcome (eap_sm S P))) : Prop :=
  ∃ sm', r = Some (Ret sm') ∧
    ((changed sm' = changed sm ∧ EAP_state sm' ≠ EAP_INTEGRITY_CHECK ∧
      EAP_state sm' = EAP_state sm ∧ eap_if sm' = eap_if sm ∧ eap_ok sm') ∨
     ∃ st n, enters st n sm sm' ∧ (1 < local_rank sm)%nat ∧ (n < local_rank sm)%nat).

Lemma descends_same sm :
  eap_ok sm → EAP_state sm ≠ EAP_INTEGRITY_CHECK → descends sm (Some (Ret sm)).
Proof. intros. exists sm. split; [done|]. left. by split_and!. Qed.

Lemma srv_descends_entry st n sm r :
  entry st n sm r → (1 < local_rank sm)%nat → (n < local_rank sm)%nat → descends sm (Some r).
Proof. intros (sm' & -> & He) ? ?. exists sm'. split; [done|]. right. by exists st, n. Qed.

Lemma descends_enters st n sm sm' :
  enters st n sm sm' → (1 < local_rank sm)%nat → (n < local_rank sm)%nat →
  descends sm (Some (Ret sm')).
Proof. intros. eapply srv_descends_entry; [by apply srv_entry_ret|done..]. Qed.

(** An entry that was made after fields outside of the rank were assigned. *)
Lemma entry_from st n sm sm1 r :
  portEnabled (eap_if sm1) = portEnabled (eap_if sm) →
  eapRestart (eap_if sm1) = eapRestart (eap_if sm) →
  entry st n sm1 r → entry st n sm r.
Proof.
  intros E1 E2 (sm' & -> & Es & Ec & Ep & Er & Hr). exists sm'. split; [done|].
  split_and!; [done|done|congruence|congruence|apply Hr..].
Qed.

Lemma local_rank_state sm st :
  EAP_state sm = st →
  local_rank sm = state_rank st (eapResp (eap_if sm))
    (bool_decide (retransWhile (eap_if sm) = 0))
    (bool_decide (method_pending (mv sm) = METHOD_PENDING_CONT)).
Proof. by intros <-. Qed.

(** The rank of the state that is left. *)
Ltac rank_solve :=
  match goal with E : EAP_state ?sm = _ |- _ =>
    rewrite (local_rank_state sm _ E); simpl; repeat case_match; lia end.

Lemma data_ok_resumed sm :
  data_ok sm → data_ok (sm <|mv method_pending := METHOD_PENDING_NONE |>).
Proof. intros []. split; try done. by apply vars_ok_pending. Qed.

Section local.
Variable sm : eap_sm S P.
Hypothesis Hok : eap_ok sm.
Let Hd : data_ok sm := ok_data _ _ _ _ Hok.

Lemma m_of_state : needs_method (EAP_state sm) = true → is_Some (m sm).
Proof. apply (ok_active _ _ _ _ Hok). Qed.

Lemma srv_step_idle_descends :
  EAP_state sm = EAP_IDLE → descends sm (Some (step_idle cfg alloc_ok sm)).
Proof.
  intros Es. assert (Hf : fresh sm) by (apply ok_fresh; [done|by rewrite Es]).
  assert (Hm : is_Some (m sm)) by (apply m_of_state; by rewrite Es).
  unfold step_idle. pose proof (local_rank_state sm _ Es) as Hr. simpl in Hr.
  destruct (bool_decide (retransWhile (eap_if sm) = 0)) eqn:Ew.
  - destruct (try_initiate_reauth sm).
    + set (sm1 := sm <| try_initiate_reauth := false |>).
      eapply (srv_descends_entry _ 7); [|rewrite Hr; lia..].
      eapply (entry_from _ _ _ sm1); [done..|]. apply enter_select_action; [|done]. data Hd.
    + eapply srv_descends_entry; [by apply srv_enter_retransmit|rewrite Hr; try case_match; lia..].
  - destruct (eapResp (eap_if sm)) eqn:Ep.
    + eapply srv_descends_entry; [by apply srv_enter_received|rewrite Hr; lia..].
    + by (apply descends_same; [|rewrite Es]).
Qed.

Lemma srv_step_received_descends :
  EAP_state sm = EAP_RECEIVED → descends sm (Some (step_received sm)).
Proof.
  intros Es. assert (Hf : fresh sm) by (apply ok_fresh; [done|by rewrite Es]).
  assert (Hm : is_Some (m sm)) by (apply m_of_state; by rewrite Es).
  unfold step_received. cbv zeta.
  destruct (_ && _ && _); [eapply srv_descends_entry; [by apply enter_nak|rank_solve..]|].
  destruct (_ && _); [eapply srv_descends_entry; [by apply enter_integrity_check|rank_solve..]|].
  eapply descends_enters; [by apply srv_enter_discard|rank_solve..].
Qed.

Lemma step_method_request_descends :
  EAP_state sm = EAP_METHOD_REQUEST → descends sm (Some (step_method_request alloc_ok sm)).
Proof.
  intros Es. assert (Hf : fresh sm) by (apply ok_fresh; [done|by rewrite Es]).
  unfold step_method_request. destruct (m sm) as [me|] eqn:Em.
  - destruct (enter_send_request sm Hd Hf ltac:(by rewrite Em)) as (sm1 & -> & He).
    rewrite ret_bind. pose proof He as (Es1 & _ & Ep & Er & _ & Hok1 & _).
    destruct (_ && _); [|eapply descends_enters; [done|rank_solve..]].
    eapply (srv_descends_entry _ 0); [|rank_solve..].
    eapply (entry_from _ _ _ sm1); [done..|]. apply srv_enter_failure; [by eapply ok_data| |done].
    apply ok_fresh; [done|by rewrite Es1].
  - eapply srv_descends_entry; [by apply srv_enter_failure|rank_solve..].
Qed.

Lemma step_method_response_descends :
  EAP_state sm = EAP_METHOD_RESPONSE →
  descends sm (Some (step_method_response cfg alloc_ok rand sm)).
Proof.
  intros Es. assert (Hf : fresh sm) by (apply ok_fresh; [done|by rewrite Es]).
  assert (Hm : is_Some (m sm)) by (apply m_of_state; by rewrite Es).
  unfold step_method_response. case_bool_decide.
  { eapply srv_descends_entry; [by apply enter_select_action|rank_solve..]. }
  destruct (method_pending (mv sm)) eqn:Ep.
  - eapply srv_descends_entry; [by apply enter_method_request|rank_solve..].
  - by (apply descends_same; [|rewrite Es]).
  - set (sm1 := sm <|mv method_pending := METHOD_PENDING_NONE |>).
    assert (Hd1 : data_ok sm1) by (by apply data_ok_resumed).
    eapply srv_descends_entry; [eapply (entry_from _ 8 _ sm1); [done..|]|..].
    + apply enter_method_response; try done. intros me b _ _ ?. split; [done|]. left.
      destruct (vars_pending _ (data_vars _ _ _ Hd)); [done|congruence].
    + rewrite (local_rank_state sm _ Es), Ep. simpl. lia.
    + rewrite (local_rank_state sm _ Es), Ep. simpl. lia.
Qed.

Lemma propose_descends sm1 n :
  data_ok sm1 → fresh sm1 →
  portEnabled (eap_if sm1) = portEnabled (eap_if sm) →
  eapRestart (eap_if sm1) = eapRestart (eap_if sm) →
  (if bool_decide (method_pending (mv sm1) = METHOD_PENDING_CONT) then 5 else 4)%nat = n →
  (1 < local_rank sm)%nat → (n < local_rank sm)%nat →
  descends sm (sm_EAP_PROPOSE_METHOD_Enter registered tries sm1 false).
Proof.
  intros Hd1 Hf1 Ep Er Hn ? ?.
  destruct (enter_propose_method sm1 n Hd1 Hf1 Hn) as (sm' & -> & He).
  eapply srv_descends_entry; [|done..]. eapply (entry_from _ _ _ sm1); [done..|by apply srv_entry_ret].
Qed.

Lemma step_propose_method_descends :
  EAP_state sm = EAP_PROPOSE_METHOD →
  descends sm (step_propose_method registered rand tries sm).
Proof.
  intros Es. assert (Hf : fresh sm) by (apply ok_fresh; [done|by rewrite Es]).
  unfold step_propose_method. destruct (method_pending (mv sm)) eqn:Ep.
  - eapply srv_descends_entry; [by apply enter_method_request|rank_solve..].
  - case_bool_decide; [|by (apply descends_same; [|rewrite Es])]. eexists. split; [reflexivity|]. left.
    split; [done|].
    split; [change (EAP_state sm ≠ EAP_INTEGRITY_CHECK); by rewrite Es|]. destruct Hok as [? ? ? ? ? Hv ? ? ?].
    split; [done|]. split; [done|]. split; try done.
    pose proof (vars_index _ Hv). apply (vars_ok_index (mv sm)); [lia|done].
  - apply (propose_descends _ 4); try done; [by apply data_ok_resumed|..];
      rewrite (local_rank_state sm _ Es), Ep; simpl; lia.
Qed.

Lemma step_select_action_descends :
  EAP_state sm = EAP_SELECT_ACTION →
  descends sm (step_select_action registered alloc_ok rand tries sm).
Proof.
  intros Es. assert (Hf : fresh sm) by (apply ok_fresh; [done|by rewrite Es]).
  destruct (ok_active _ _ _ _ Hok) as (_ & _ & _ & _ & Hni & _). specialize (Hni Es).
  destruct (ok_success _ _ _ _ Hok) as [Hs _].
  unfold step_select_action. destruct (decision sm) eqn:Ed; try done.
  - eapply srv_descends_entry; [apply srv_enter_success; [done|by apply Hs]|rank_solve..].
  - eapply srv_descends_entry; [by apply srv_enter_failure|rank_solve..].
  - eapply propose_descends; try done; rank_solve.
  - eapply descends_enters; [by apply enter_initialize_passthrough|rank_solve..].
Qed.

Lemma step_initialize_descends :
  EAP_state sm = EAP_INITIALIZE →
  descends sm (Some (step_initialize registered cfg alloc_ok sm)).
Proof.
  intros Es. assert (Hf : fresh sm) by (apply ok_fresh; [done|by rewrite Es]).
  destruct (ok_active _ _ _ _ Hok) as (_ & _ & _ & _ & _ & Hi). specialize (Hi Es).
  unfold step_initialize. destruct (backend_auth cfg && rxResp sm) eqn:Eb.
  - apply andb_true_iff in Eb as [Eb _].
    destruct (response_is sm EAP_TYPE_NAK).
    + eapply srv_descends_entry; [by apply enter_nak|rank_solve..].
    + eapply descends_enters; [apply enter_pick_up_method; auto|rank_solve..].
  - eapply srv_descends_entry; [by apply enter_select_action|rank_solve..].
Qed.

Lemma step_aaa_idle_descends :
  EAP_state sm = EAP_AAA_IDLE → descends sm (Some (step_aaa_idle alloc_ok sm)).
Proof.
  intros Es. assert (Hf : fresh sm) by (apply ok_fresh; [done|by rewrite Es]).
  unfold step_aaa_idle. destruct (aaaFail (eap_if sm)).
  { eapply srv_descends_entry; [by apply enter_failure2|rank_solve..]. }
  destruct (aaaSuccess (eap_if sm)) eqn:Ea.
  { eapply srv_descends_entry; [by apply enter_success2|rank_solve..]. }
  destruct (aaaEapReq (eap_if sm)).
  { eapply srv_descends_entry; [by apply enter_aaa_response|rank_solve..]. }
  destruct (aaaTimeout (eap_if sm)); [|by (apply descends_same; [|rewrite Es])].
  eapply descends_enters; [by apply enter_timeout_failure2|rank_solve..].
Qed.
End local.

Lemma srv_step_local_descends sm :
  eap_ok sm → over_rounds cfg sm || over_short cfg sm = false → restarting sm = false →
  portEnabled (eap_if sm) = true →
  descends sm (step_local registered cfg alloc_ok rand tries sm).
Proof.
  intros Hok Hl Hr Hp. pose proof (ok_data _ _ _ _ Hok) as Hd. unfold step_local.
  assert (Hfresh : late (EAP_state sm) = false → fresh sm) by (by apply ok_fresh).
  assert (Hm : needs_method (EAP_state sm) = true → is_Some (m sm)) by (by apply m_of_state).
  destruct (EAP_state sm) eqn:Es; try (specialize (Hfresh eq_refl)); try (specialize (Hm eq_refl)).
  - rewrite Hp. destruct (srv_enter_initialize sm false Hd)
      as (sm' & -> & E1 & E2 & E3 & E4 & Hf & Hok' & _).
    eapply (descends_enters EAP_INITIALIZE 11); [|rank_solve..].
    unfold EapServerProofs.enters. split_and!; try done.
    + unfold restarting in Hr. rewrite Hp, andb_true_r in Hr. congruence.
    + by rewrite (local_rank_state sm' _ E1).
  - by apply step_initialize_descends.
  - by apply srv_step_idle_descends.
  - by apply srv_step_received_descends.
  - destruct (ok_active _ _ _ _ Hok) as (_ & _ & Hck & _). specialize (Hck Es Hl).
    destruct (ignore sm).
    + eapply descends_enters; [by apply srv_enter_discard|rank_solve..].
    + specialize (Hck eq_refl).
      eapply srv_descends_entry; [by apply enter_method_response|rank_solve..].
  - by apply step_method_response_descends.
  - by apply step_method_request_descends.
  - by apply step_propose_method_descends.
  - by apply step_select_action_descends.
  - eapply descends_enters; [by apply srv_enter_idle|rank_solve..].
  - eapply descends_enters; [by apply srv_enter_idle|rank_solve..].
  - eapply srv_descends_entry; [by apply enter_select_action|rank_solve..].
  - case_bool_decide.
    + eapply descends_enters; [by apply enter_timeout_failure|rank_solve..].
    + eapply descends_enters; [by apply srv_enter_idle|rank_solve..].
  - by (apply descends_same; [|rewrite Es]).
  - by (apply descends_same; [|rewrite Es]).
  - by (apply descends_same; [|rewrite Es]).
  - destruct (ok_active _ _ _ _ Hok) as (_ & Hpm & _). specialize (Hpm Es).
    case_bool_decide.
    + eapply srv_descends_entry; [by apply enter_select_action|rank_solve..].
    + destruct Hpm as (me & Em & Ei); [done|].
      assert (resp_checked sm).
      { intros me' b E _ ?. rewrite Em in E. injection E as <-. split; [done|]. right. by left. }
      eapply srv_descends_entry; [apply enter_method_response; auto; by rewrite Em|rank_solve..].
  - case_bool_decide; [eapply descends_enters; [by apply enter_aaa_idle|rank_solve..]|].
    eapply srv_descends_entry; [by apply enter_aaa_request|rank_solve..].
  - pose proof (local_rank_state sm _ Es) as Hrank. simpl in Hrank.
    destruct (eapResp (eap_if sm)) eqn:Er.
    { eapply srv_descends_entry; [by apply enter_received2|rewrite Hrank; lia..]. }
    destruct (bool_decide (retransWhile (eap_if sm) = 0)) eqn:Ew; [|by (apply descends_same; [|rewrite Es])].
    eapply srv_descends_entry; [by apply enter_retransmit2|rewrite Hrank, ?Er; lia..].
  - case_bool_decide.
    + eapply descends_enters; [by apply enter_timeout_failure2|rank_solve..].
    + eapply descends_enters; [by apply enter_idle2|rank_solve..].
  - destruct (_ && _); [eapply srv_descends_entry; [by apply enter_aaa_request|rank_solve..]|].
    eapply descends_enters; [by apply enter_discard2|rank_solve..].
  - eapply descends_enters; [by apply enter_idle2|rank_solve..].
  - eapply descends_enters; [by apply enter_idle2|rank_solve..].
  - eapply descends_enters; [by apply enter_aaa_idle|rank_solve..].
  - eapply srv_descends_entry; [by apply enter_send_request2|rank_solve..].
  - by apply step_aaa_idle_descends.
  - by (apply descends_same; [|rewrite Es]).
  - by (apply descends_same; [|rewrite Es]).
  - by (apply descends_same; [|rewrite Es]).
  - destruct (ok_active _ _ _ _ Hok) as (_ & _ & _ & Hni & _). congruence.
  - destruct (negb _); [|by (apply descends_same; [|rewrite Es])].
    eapply srv_descends_entry; [by apply enter_select_action|rank_solve..].
Qed.

Lemma srv_rank_enters st n sm sm' :
  restarting sm = false → portEnabled (eap_if sm) = true → enters st n sm sm' →
  (rank sm' ≤ Nat.max 1 n)%nat.
Proof.
  intros Hr Hp (_ & _ & Ep & Er & Hn & _). unfold EapServerProofs.rank.
  assert (restarting sm' = false) as -> by (unfold restarting in *; congruence).
  rewrite Ep, Hp. simpl. repeat case_match; lia.
Qed.

(** No check is due: its result could be about a response that was replaced. *)
Definition settled sm : Prop :=
  EAP_state sm = EAP_INTEGRITY_CHECK → over_rounds cfg sm || over_short cfg sm = true.

(** What the layer below sees of a step: its own variables are not touched, and success
    that was signalled stays until there is a restart. *)
Definition stays sm sm' : Prop :=
  portEnabled (eap_if sm') = portEnabled (eap_if sm) ∧
  (eapRestart (eap_if sm') = true → eapRestart (eap_if sm) = true) ∧
  (portEnabled (eap_if sm) = false → eapRestart (eap_if sm') = eapRestart (eap_if sm)) ∧
  (portEnabled (eap_if sm) = true →
   eapRestart (eap_if sm) = true ∨ EAP_state sm ≠ EAP_DISABLED →
   EAP_state sm' ≠ EAP_DISABLED) ∧
  (portEnabled (eap_if sm) = true → eapRestart (eap_if sm) = false →
   EAP_state sm ≠ EAP_DISABLED → eapSuccess (eap_if sm) = true →
   eapSuccess (eap_if sm') = true).

Lemma stays_same sm sm' :
  restarting sm = false → EAP_state sm' = EAP_state sm → eap_if sm' = eap_if sm → stays sm sm'.
Proof.
  unfold restarting, stays. intros Hr -> ->. split_and!; try done.
  intros Hp. rewrite Hp, andb_true_r in Hr. rewrite Hr. by intros [?|?].
Qed.

Lemma stays_trans sm1 sm2 sm3 : stays sm1 sm2 → stays sm2 sm3 → stays sm1 sm3.
Proof.
  intros (E1 & Hr1 & Hf1 & Hd1 & Hs1) (E2 & Hr2 & Hf2 & Hd2 & Hs2).
  split_and!; [congruence|auto| |rewrite E1 in *; auto|].
  - intros Hp. rewrite Hf2 by congruence. by apply Hf1.
  - intros Hp Hr Hd Hs. apply Hs2; [congruence| |auto|auto].
    destruct (eapRestart (eap_if sm2)); [|done]. rewrite Hr1 in Hr by done. done.
Qed.

(** What one pass of the loop achieves. *)
Definition good_step sm : Prop :=
  ∃ sm', Step sm = Some (Ret sm') ∧ eap_ok sm' ∧ stays sm sm' ∧
         (changed sm' = true → (rank sm' < rank sm)%nat) ∧
         (changed sm' = false → settled sm').

Lemma srv_step_restarting sm :
  eap_ok sm → changed sm = false → restarting sm = true → good_step sm.
Proof.
  intros Hok Hc Hr. destruct (srv_enter_initialize sm true (ok_data _ _ _ _ Hok))
    as (sm' & E & E1 & _ & E3 & E4 & _ & Hok' & _).
  exists sm'. unfold sm_EAP_Step. unfold restarting in Hr. rewrite Hr, E.
  split_and!; [done|done| | |by unfold settled; rewrite E1].
  { apply andb_true_iff in Hr as [Hr Hp]. split_and!; [done|by rewrite E4| |by rewrite E1|].
    - by rewrite Hp.
    - by rewrite Hr. }
  intros _. unfold EapServerProofs.rank, restarting. rewrite E4, Hr. simpl.
  unfold local_rank. rewrite E1. repeat case_match; simpl; lia.
Qed.

(** Success is kept by entries that touch neither the verdict nor the method. *)
Lemma success_kept sm sm' :
  EAP_state sm' ∈ [EAP_DISABLED; EAP_FAILURE] →
  eapSuccess (eap_if sm') = eapSuccess (eap_if sm) →
  aaaSuccess (eap_if sm') = aaaSuccess (eap_if sm) → m sm' = m sm →
  eap_method_priv sm' = eap_method_priv sm → currentMethod sm' = currentMethod sm →
  success_ok sm → success_ok sm'.
Proof.
  intros Es E1 E2 E3 E4 E5 [_ Hs]. split.
  - intros E. rewrite E in Es. set_solver.
  - rewrite E1. intros Ht. destruct (Hs Ht) as [_ Hv]. split; [set_solver|].
    unfold method_succeeded. rewrite E2, E3, E4, E5. exact Hv.
Qed.

Lemma srv_step_disabled sm :
  eap_ok sm → changed sm = false → restarting sm = false → portEnabled (eap_if sm) = false →
  good_step sm.
Proof.
  intros Hok Hc Hr Hp. exists (sm_EAP_DISABLED_Enter sm true).
  split; [unfold sm_EAP_Step, restarting in *; by rewrite Hr, Hp|].
  assert (E : EAP_state (sm_EAP_DISABLED_Enter sm true) = EAP_DISABLED ∧
    eap_if (sm_EAP_DISABLED_Enter sm true) = eap_if sm ∧
    changed (sm_EAP_DISABLED_Enter sm true) = bool_decide (EAP_state sm ≠ EAP_DISABLED) ∧
    eap_ok (sm_EAP_DISABLED_Enter sm true)).
  { unfold sm_EAP_DISABLED_Enter, SM_ENTRY. simpl negb. rewrite orb_false_l.
    destruct Hok. case_bool_decide; (split_and!; [done|done|done|]); (split; try done);
      first [by apply active_plain|eapply success_kept; [..|done]; done || (cbn; set_solver)]. }
  destruct E as (E1 & E2 & E3 & Hok'). split_and!; [done| | |by unfold settled; rewrite E1].
  { split_and!; [by rewrite E2..| |]; by rewrite Hp. }
  rewrite E3. intros Hne%bool_decide_eq_true_1.
  unfold EapServerProofs.rank, restarting. rewrite E1, E2, Hp, andb_false_r. simpl.
  rewrite (bool_decide_eq_false_2 (EAP_state sm = _)) by done. lia.
Qed.

Lemma srv_enter_failure_global sm :
  eap_ok sm →
  ∃ sm', sm_EAP_FAILURE_Enter alloc_ok sm true = Ret sm' ∧ eap_ok sm' ∧
    EAP_state sm' = EAP_FAILURE ∧ eapSuccess (eap_if sm') = eapSuccess (eap_if sm) ∧
    portEnabled (eap_if sm') = portEnabled (eap_if sm) ∧
    eapRestart (eap_if sm') = eapRestart (eap_if sm) ∧
    num_rounds sm' = num_rounds sm ∧ num_rounds_short sm' = num_rounds_short sm.
Proof.
  intros Hok. pose proof (ok_data _ _ _ _ Hok) as Hd.
  unfold sm_EAP_FAILURE_Enter, sm_malloc, malloc, eap_sm_buildFailure. cbv zeta.
  edestruct build_result_ok as (msg & -> & Hm). rewrite ret_bind.
  eexists. split; [reflexivity|]. unfold SM_ENTRY. simpl negb. rewrite orb_false_l.
  destruct Hok. case_bool_decide; (split_and!; [|done..]); (split; try done);
    first [exact (vars_ok_alloc _ _ (data_vars _ _ _ Hd))|by apply active_plain
          |eapply success_kept; [..|done]; done || (cbn; set_solver)].
Qed.

(** Past a limit the counts of rounds do not matter. *)
Lemma ok_over sm a b :
  eap_ok sm →
  over_rounds cfg (sm <| num_rounds := a |> <| num_rounds_short := b |>) ||
  over_short cfg (sm <| num_rounds := a |> <| num_rounds_short := b |>) = true →
  eap_ok (sm <| num_rounds := a |> <| num_rounds_short := b |>).
Proof.
  intros [? ? ? ? ? ? ? Ha ?] Hl. split; try done. destruct Ha as (? & ? & _ & ? & ? & ?).
  split_and!; try done. intros _. by rewrite Hl.
Qed.

Lemma srv_step_limited sm :
  eap_ok sm → changed sm = false → restarting sm = false → portEnabled (eap_if sm) = true →
  over_rounds cfg sm || over_short cfg sm = true → good_step sm.
Proof.
  intros Hok Hc Hr Hp Hl.
  assert (Hrank : rank sm = if limit_fresh cfg sm then 1%nat else 0%nat).
  { unfold EapServerProofs.rank. by rewrite Hr, Hp, Hl. }
  assert (Hgo : ∀ sm1, eap_ok sm1 → eap_if sm1 = eap_if sm →
    limit_fresh cfg sm = true → over_rounds cfg sm1 || over_short cfg sm1 = true →
    limit_fresh cfg sm1 = false → Step sm = Some (sm_EAP_FAILURE_Enter alloc_ok sm1 true) →
    good_step sm).
  { intros sm1 Hok1 Ei Hfr Hl1 Hfr1 E.
    destruct (srv_enter_failure_global sm1 Hok1) as (sm' & E' & Hok' & E0 & Es & E1 & E2 & E3 & E4).
    exists sm'. rewrite E, E'. split_and!; [done|done| | |by unfold settled; rewrite E0].
    { split_and!; [by rewrite E1, Ei|by rewrite E2, Ei|by rewrite E2, Ei|by rewrite E0|].
      by rewrite Es, Ei. }
    intros _. rewrite Hrank, Hfr.
    unfold EapServerProofs.rank, restarting, limit_fresh, over_rounds, over_short in *.
    rewrite E1, E2, E3, E4, Ei, Hr, Hp, Hl1, Hfr1. simpl. lia. }
  assert (Hstep : Step sm =
    if over_rounds cfg sm
    then Some (if bool_decide (num_rounds sm = u32 (max_auth_rounds cfg + 1))
               then sm_EAP_FAILURE_Enter alloc_ok (sm <| num_rounds ::= λ n, u32 (n + 1) |>) true
               else Ret sm)
    else Some (if bool_decide (num_rounds_short sm = u32 (max_auth_rounds_short cfg + 1))
               then sm_EAP_FAILURE_Enter alloc_ok
                      (sm <| num_rounds_short ::= λ n, u32 (n + 1) |>) true
               else Ret sm)).
  { unfold sm_EAP_Step, restarting, over_rounds, over_short in *. rewrite Hr, Hp. simpl.
    destruct (bool_decide (max_auth_rounds cfg < _)); [done|]. simpl in Hl. by rewrite Hl. }
  assert (Hsame : limit_fresh cfg sm = false → good_step sm).
  { intros Hfr. exists sm. unfold limit_fresh in Hfr.
    split_and!; [rewrite Hstep; destruct (over_rounds cfg sm); by rewrite Hfr
               |done|by apply stays_same|congruence|by intros _ _]. }
  destruct (limit_fresh cfg sm) eqn:Hfr; [|by apply Hsame]. clear Hsame Hrank.
  unfold limit_fresh in Hfr. destruct (over_rounds cfg sm) eqn:Ho.
  - rewrite Hfr in Hstep. apply bool_decide_eq_true_1 in Hfr.
    rewrite (wrap_small 32) in Hfr by lia.
    assert (E : u32 (num_rounds sm + 1) = max_auth_rounds cfg + 2)
      by (rewrite Hfr, (wrap_small 32); lia).
    set (sm1 := sm <| num_rounds ::= λ n, u32 (n + 1) |>) in *.
    assert (Ho1 : over_rounds cfg sm1 = true)
      by (unfold over_rounds; change (num_rounds sm1) with (u32 (num_rounds sm + 1));
          rewrite E, bool_decide_eq_true_2 by lia; done).
    eapply (Hgo sm1); [|done|done|by rewrite Ho1| |exact Hstep].
    + apply (ok_over sm (u32 (num_rounds sm + 1)) (num_rounds_short sm)); [done|].
      change (over_rounds cfg sm1 || over_short cfg sm1 = true). by rewrite Ho1.
    + unfold limit_fresh. rewrite Ho1. change (num_rounds sm1) with (u32 (num_rounds sm + 1)).
      rewrite E, (wrap_small 32) by lia. by rewrite bool_decide_eq_false_2 by lia.
  - rewrite Hfr in Hstep. apply bool_decide_eq_true_1 in Hfr.
    rewrite (wrap_small 32) in Hfr by lia.
    assert (E : u32 (num_rounds_short sm + 1) = max_auth_rounds_short cfg + 2)
      by (rewrite Hfr, (wrap_small 32); lia).
    set (sm1 := sm <| num_rounds_short ::= λ n, u32 (n + 1) |>) in *.
    assert (Ho1 : over_rounds cfg sm1 || over_short cfg sm1 = true).
    { unfold over_short. change (num_rounds_short sm1) with (u32 (num_rounds_short sm + 1)).
      rewrite E, (bool_decide_eq_true_2 (_ < _ + 2)) by lia. by rewrite orb_true_r. }
    eapply (Hgo sm1); [|done|done|done| |exact Hstep].
    + by apply (ok_over sm (num_rounds sm) (u32 (num_rounds_short sm + 1))).
    + unfold limit_fresh. change (over_rounds cfg sm1) with (over_rounds cfg sm). rewrite Ho.
      change (num_rounds_short sm1) with (u32 (num_rounds_short sm + 1)).
      rewrite E, (wrap_small 32) by lia. by rewrite bool_decide_eq_false_2 by lia.
Qed.

Lemma srv_step_good sm : eap_ok sm → changed sm = false → good_step sm.
Proof.
  intros Hok Hc. destruct (restarting sm) eqn:Hr; [by apply srv_step_restarting|].
  destruct (portEnabled (eap_if sm)) eqn:Hp; [|by apply srv_step_disabled].
  destruct (over_rounds cfg sm || over_short cfg sm) eqn:Hl; [by apply srv_step_limited|].
  pose proof Hl as [Hl1 Hl2]%orb_false_iff.
  assert (E : Step sm = step_local registered cfg alloc_ok rand tries sm).
  { unfold sm_EAP_Step, restarting, over_rounds, over_short in *. by rewrite Hr, Hp, Hl1, Hl2. }
  destruct (srv_step_local_descends sm Hok Hl Hr Hp)
    as (sm' & Es & [(Hc' & Hst & Est & Ei & Hok')|(st & n & He & H1 & H2)]).
  - exists sm'. rewrite E. split_and!; [done|done| |congruence|by intros _ ?].
    by apply stays_same.
  - exists sm'. pose proof He as (Est & Hc' & Ep & Er & _ & Hok' & Hnd). rewrite E.
    split_and!; [done|done| | |congruence].
    { split_and!; [done|by rewrite Er|by rewrite Er| |].
      - intros _ _. apply bool_decide_eq_false_1 in Hnd. congruence.
      - intros _ _ Hd Hs. destruct (ok_success _ _ _ _ Hok) as [_ Hin].
        destruct (Hin Hs) as [Hin' _]. clear - Hin' Hd H1. unfold local_rank in H1.
        repeat (apply elem_of_cons in Hin' as [Hst|Hin'];
                [rewrite Hst in *; simpl in H1; done || lia|]).
        by apply not_elem_of_nil in Hin'. }
    intros _.
    pose proof (srv_rank_enters st n sm sm' Hr Hp He).
    assert (rank sm = local_rank sm) as ->; [|lia].
    unfold EapServerProofs.rank. by rewrite Hr, Hp, Hl.
Qed.

Lemma loop_returns fuel res sm :
  eap_ok sm → (rank sm < fuel)%nat →
  ∃ res' sm', eap_server_sm_loop registered cfg alloc_ok rand tries fuel res sm =
              Some (Ret (res', sm')) ∧ eap_ok sm' ∧ stays sm sm' ∧ settled sm'.
Proof.
  revert res sm. induction fuel as [|fuel IH]; intros res sm Hok Hf; [lia|].
  cbn [eap_server_sm_loop]. set (sm0 := sm <| changed := false |>).
  assert (Hok0 : eap_ok sm0) by (destruct Hok; by split).
  assert (Hr0 : rank sm0 = rank sm) by done.
  destruct (srv_step_good sm0 Hok0 eq_refl) as (sm1 & -> & Hok1 & Hst & Hlt & Hset).
  destruct (changed sm1) eqn:Hc; [|exists res, sm1; by auto].
  destruct (IH true sm1 Hok1) as (res' & sm' & E & Hok' & Hst' & Hset');
    [specialize (Hlt eq_refl); lia|].
  exists res', sm'. split_and!; [done|done| |done]. by eapply (stays_trans _ sm1).
Qed.

Lemma step_returns sm :
  eap_ok sm →
  ∃ res sm', eap_server_sm_step registered cfg alloc_ok rand tries sm = Some (Ret (res, sm')) ∧
             eap_ok sm' ∧ stays sm sm' ∧ settled sm'.
Proof.
  intros Hok. apply loop_returns; [done|]. pose proof (rank_le_15 cfg sm). lia.
Qed.
End entries.

(** C7: [eap_server_sm_step] returns: from a well-formed machine its loop makes at
    most fifteen transitions, whatever messages the peer and the backend server sent, and
    whichever of the buffers of the machine the allocator refuses; no null method or freed
    data is used and no octet outside a buffer read.  The machine stays well formed, success
    stays signalled until a restart, and in the end no check of a message is due.  The
    hypotheses: methods keep their contract ([method_ok]); the Identity method can always be
    started (its own allocation does not fail: otherwise the loop of eap_server.c:562 does
    not end); there is no method of type 0; the limits of rounds are not the largest
    integers; and the layer below ([EapolCallbacksSpec]) gives users with full tables of
    methods and an Identity text that fits a packet, and does not ask for
    EAP-Initiate/Re-auth-Start, which a configuration can
    ([Ieee8021xExample.reauth_start_answer_stops_the_server]). *)
Theorem eap_server_sm_step_returns {S P : Type} `{EapolCallbacksSpec S} {Pend : MayPend}
    {Back : Backend} (registered : list (eap_method S P)) (cfg : eap_config)
    (alloc_ok : nat → bool) (rand : nat → Z) (tries : nat) (Pinv : P → Prop) (sm : eap_sm S P) :
  Forall (method_ok Pinv) registered →
  (∀ me v, eap_server_get_eap_method registered EAP_VENDOR_IETF EAP_TYPE_IDENTITY = Some me →
           is_Some (init me v).1) →
  eap_server_get_eap_method registered EAP_VENDOR_IETF EAP_TYPE_NONE = None →
  (10 ≤ tries)%nat →
  0 ≤ max_auth_rounds cfg < 2 ^ 32 - 2 → 0 ≤ max_auth_rounds_short cfg < 2 ^ 32 - 2 →
  eap_ok registered cfg Pinv sm →
  ∃ res sm', eap_server_sm_step registered cfg alloc_ok rand tries sm = Some (Ret (res, sm')) ∧
             eap_ok registered cfg Pinv sm' ∧ stays sm sm' ∧ settled cfg sm'.
Proof. intros. by apply step_returns. Qed.
