(* ===== verification/EapMethodsProofs.v ===== *)
(** Properties of the methods of [EapMethods]

    Identity and MD5-Challenge are methods that the server can rely on
    ([method_ok]); what MD5-Challenge accepts, and what the peer answers. *)
From stdpp Require Import strings.
From S2P Require Import Prelude Bytes Wpabuf EapCommon EapPeer EapServer EapPeerMd5 EapMethods EapServerProofs.

(** ** Methods the server can rely on *)
Section methods_ok.
Context {S : Type} `{EapolCallbacksSpec S} {Pend : MayPend}.
Variable alloc_ok : nat → bool.
Variable random_bytes : nat → option (list Z).
Variable md5 : list Z → option (list Z).

Implicit Types v : method_vars S.
Abbreviation any := (λ _ : method_data, True).

Lemma next_view v v' :
  eapol_ctx v' = eapol_ctx v → user v' = user v →
  user_eap_method_index v' = user_eap_method_index v →
  method_pending v' = method_pending v → vars_ok v → vars_next v v'.
Proof. intros ? ? ? E ?. split; [by eapply vars_ok_view|by rewrite E]. Qed.

(** The frame of a request: the header is written and there is room for [n] octets. *)
Lemma method_request_ok (ok : bool) type n id :
  0 ≤ n ≤ 65523 →
  ∃ req, eap_msg_alloc ok EAP_VENDOR_IETF type n EAP_CODE_REQUEST id = Ret req ∧
    ∀ b, req = Some b → wf b ∧ size b = used b + n.
Proof.
  intros Hn. destruct ok.
  - destruct (eap_msg_alloc_contents EAP_VENDOR_IETF type n EAP_CODE_REQUEST id)
      as (b & E & Hw & _ & Hs); [lia..|].
    exists (Some b). split; [done|]. by intros ? [= <-].
  - exists None. by split.
Qed.

Lemma validate_ok vendor type b :
  valid_resp b →
  ∃ r, eap_hdr_validate vendor type (Some b) = Some r ∧
       ∀ off n, r = Some (off, n) → 0 ≤ off ∧ 0 ≤ n ∧ off + n ≤ blen (mem b).
Proof.
  intros (Hw & Hb & _). pose proof Hw as (?&?&?).
  destruct (eap_hdr_validate_in vendor type b Hw Hb) as (r & E & Hr).
  exists r. split; [done|]. intros off n Eo. destruct (Hr off n Eo). lia.
Qed.

Lemma identity_check_ok v d b :
  valid_resp b → ∃ r, eap_identity_check v d b = Ret r.
Proof.
  intros Hr. unfold eap_identity_check.
  destruct (validate_ok EAP_VENDOR_IETF EAP_TYPE_IDENTITY b Hr) as (r & -> & _). by eexists.
Qed.

Lemma identity_store_ok v d b :
  vars_ok v → valid_resp b →
  ∃ d' v', identity_store alloc_ok v d b = Ret (d', v') ∧ vars_next v v'.
Proof.
  intros Hv Hr. unfold identity_store.
  destruct (validate_ok EAP_VENDOR_IETF EAP_TYPE_IDENTITY b Hr) as (r & -> & Hin).
  rewrite access_bind. destruct r as [[off n]|]; [|eexists _, _; split; [done|by split]].
  destruct (Hin off n eq_refl) as (? & ? & ?). unfold malloc.
  rewrite (slice_in (mem b)) by lia. cbn [access].
  change (identity (v <| n_alloc ::= Datatypes.S |>)) with (identity v).
  destruct (identity v); destruct (alloc_ok _); eexists _, _; (split; [reflexivity|]);
    by apply next_view.
Qed.

Lemma identity_ok : method_ok any (eap_server_identity alloc_ok).
Proof.
  split; simpl.
  - intros v p v' Hv E. unfold eap_identity_init, malloc in E. injection E as _ <-.
    split; [by apply next_view|done].
  - intros f v p v' [= <-] Hv E. unfold eap_identity_initPickUp, eap_identity_init, malloc in E.
    injection E as _ <-. split; [by apply next_view|done].
  - intros v d Hv _. by split; [apply next_view|].
  - intros v d id Hv _. unfold eap_identity_buildReq, malloc.
    set (len := match get_eap_req_id_text _ with Some t => blen t | None => 0 end).
    assert (Hlen : 0 ≤ len ≤ 65523).
    { subst len. destruct (get_eap_req_id_text _) as [t|] eqn:E; [|lia].
      pose proof (ctx_text _ t (vars_ctx _ Hv) E). lia. }
    destruct (method_request_ok (alloc_ok (n_alloc v)) EAP_TYPE_IDENTITY len id Hlen) as (req & -> & Hq).
    rewrite ret_bind. destruct req as [req|].
    + destruct (Hq req eq_refl) as [Hw Hs].
      assert (Hput : ∃ b, wpabuf_put_data req (get_eap_req_id_text (eapol_ctx v)) len = Ret b ∧ wf b).
      { subst len. destruct (get_eap_req_id_text _) as [t|].
        - rewrite put_data_bytes by done.
          destruct (put_bytes_ok req t) as (b & -> & ? & _); [done|lia|by exists b].
        - by exists req. }
      destruct Hput as (b & -> & Hb). eexists _, _, _. split; [reflexivity|].
      by split_and!; [|..|apply next_view].
    + destruct d; eexists _, _, _; (split; [reflexivity|]); by split_and!; [..|apply next_view].
  - intros f v d b [= <-] _ _ Hr. by apply identity_check_ok.
  - intros v d b Hv _ [Hr _]. unfold eap_identity_process.
    destruct d as [st [|]|c st];
      [|destruct (identity_store_ok v (IdentityData st false) b Hv Hr) as (d' & v' & -> & ?);
        eexists _, _; by split_and!
       |destruct (identity_store_ok v (Md5Data c st) b Hv Hr) as (d' & v' & -> & ?);
        eexists _, _; by split_and!].
    destruct (identity_check_ok v (IdentityData st true) b Hr) as ([|] & ->); rewrite ret_bind.
    + eexists _, _. split_and!; [reflexivity|done|by apply next_view].
    + destruct (identity_store_ok v (IdentityData st false) b Hv Hr) as (d' & v' & -> & ?).
      eexists _, _; by split_and!.
  - done.
  - done.
Qed.

(** [random_get_bytes] fills what it was given. *)
Hypothesis Hrandom : ∀ n c, random_bytes n = Some c → blen c = CHALLENGE_LEN.
Hypothesis Hpend : may_pend = false.

(** What a response that MD5-Challenge accepts looks like. *)
Lemma md5_accepted b v d :
  valid_resp b → eap_md5_check v d b = Ret false →
  ∃ off n, eap_hdr_validate EAP_VENDOR_IETF EAP_TYPE_MD5 (Some b) = Some (Some (off, n)) ∧
    rd (mem b) off = Some CHAP_MD5_LEN ∧ 1 + CHAP_MD5_LEN ≤ n ∧ 0 ≤ off ∧
    off + n ≤ blen (mem b).
Proof.
  intros Hr. unfold eap_md5_check.
  destruct (validate_ok EAP_VENDOR_IETF EAP_TYPE_MD5 b Hr) as (r & -> & Hin). rewrite access_bind.
  destruct r as [[off n]|]; [|done]. destruct (Hin off n eq_refl) as (? & ? & ?).
  case_bool_decide; [done|]. destruct (rd_in (mem b) off) as [x Hx]; [lia|].
  rewrite Hx, access_bind. intros [= [Ex En]%orb_false_iff].
  apply bool_decide_eq_false_1 in Ex, En. exists off, n. split; [done|].
  split; [rewrite Hx; f_equal; by apply dec_stable|lia].
Qed.

Lemma get_id_ok b : wf b → ∃ id, eap_get_id b = Some id.
Proof.
  intros (? & ? & ?). unfold eap_get_id, sizeof_eap_hdr. case_bool_decide; [by eexists|].
  destruct (rd_in (mem b) 1) as [id ->]; [lia|]. by eexists.
Qed.

Lemma md5_process_ok v d b :
  vars_ok v → valid_resp b → (∃ v0 d0, eap_md5_check v0 d0 b = Ret false) →
  ∃ d', eap_md5_process md5 v d b = Ret (d', v).
Proof.
  intros Hv Hr (v0 & d0 & Hc). destruct (md5_accepted b v0 d0 Hr Hc) as (off & n & E & En & ?).
  unfold eap_md5_process. destruct (plain_password v) as [pw|]; [|by eexists].
  rewrite E, access_bind, En, access_bind.
  rewrite bool_decide_eq_false_2 by (by intros []). simpl orb. rewrite bool_decide_eq_false_2 by lia.
  destruct (get_id_ok b) as [i ->]; [by destruct Hr|]. rewrite access_bind. destruct (chap_md5 _ _ _ _); [|by eexists].
  rewrite (slice_in (mem b)) by (unfold CHAP_MD5_LEN in *; lia). rewrite access_bind. by eexists.
Qed.

Lemma md5_check_ok v d b : valid_resp b → ∃ r, eap_md5_check v d b = Ret r.
Proof.
  intros Hr. unfold eap_md5_check.
  destruct (validate_ok EAP_VENDOR_IETF EAP_TYPE_MD5 b Hr) as (r & -> & Hin). rewrite access_bind.
  destruct r as [[off n]|]; [|by eexists]. destruct (Hin off n eq_refl) as (? & ? & ?).
  case_bool_decide; [by eexists|]. destruct (rd_in (mem b) off) as [x ->]; [lia|]. by eexists.
Qed.

Lemma md5_ok : method_ok any (eap_server_md5 alloc_ok random_bytes md5).
Proof.
  split; simpl; try (intros; discriminate).
  - intros v p v' Hv E. unfold eap_md5_init, malloc in E. injection E as _ <-.
    split; [by apply next_view|done].
  - intros v d Hv _. split; [by split|]. unfold eap_md5_reset. lia.
  - intros v d id Hv _. unfold eap_md5_buildReq, malloc.
    destruct (random_bytes (n_rand v)) as [c|] eqn:Ec.
    2: { eexists _, _, _. split; [reflexivity|]. by split_and!; [..|apply next_view]. }
    specialize (Hrandom _ _ Ec).
    destruct (method_request_ok (alloc_ok (n_alloc v)) EAP_TYPE_MD5 (1 + CHALLENGE_LEN) id)
      as (req & E & Hq); [unfold CHALLENGE_LEN; lia|].
    change (n_alloc (v <| n_rand ::= Datatypes.S |>)) with (n_alloc v). rewrite E, ret_bind.
    destruct req as [req|].
    2: { eexists _, _, _. split; [reflexivity|]. by split_and!; [..|apply next_view]. }
    destruct (Hq req eq_refl) as [Hw Hs]. unfold wpabuf_put_u8.
    destruct (put_bytes_ok req [CHALLENGE_LEN]) as (b1 & -> & Hw1 & Hs1 & _ & Hu1);
      [done|simpl; unfold CHALLENGE_LEN in *; lia|]. rewrite ret_bind, put_data_bytes by done.
    destruct (put_bytes_ok b1 c) as (b2 & -> & Hw2 & _); [done|simpl in Hu1; lia|].
    eexists _, _, _. split; [reflexivity|]. by split_and!; [..|apply next_view].
  - intros f v d b [= <-] _ _ Hr. by apply md5_check_ok.
  - intros v d b Hv _ [Hr Hacc].
    destruct (md5_process_ok v d b Hv Hr) as (d' & E).
    { destruct Hacc as [|[|Hacc]]; [congruence|done|]. by apply Hacc. }
    exists d', v. by split_and!.
Qed.
End methods_ok.

(** ** MD5-Challenge *)
Section md5_exchange.
Context {S : Type} `{EapolCallbacks S}.
Variable alloc_ok : nat → bool.
Variable random_bytes : nat → option (list Z).
Variable md5 : list Z → option (list Z).

Implicit Types v : method_vars S.

(** A message of MD5-Challenge. *)
Definition md5_message (code id : Z) (payload : list Z) (msg : wpabuf) : Prop :=
  wf msg ∧ contents msg =
    eap_hdr_octets code id (5 + blen payload) ++ [EAP_TYPE_MD5] ++ payload.

Lemma md5_message_valid code id payload msg :
  blen payload ≤ 65523 → md5_message code id payload msg →
  eap_hdr_validate EAP_VENDOR_IETF EAP_TYPE_MD5 (Some msg) = Some (Some (5, blen payload)) ∧
  eap_get_id msg = Some (u8 id).
Proof.
  intros Hl [Hw Hc].
  destruct (message_header EAP_VENDOR_IETF EAP_TYPE_MD5 code id payload msg) as [_ Hid];
    [done..|]. split; [|exact Hid].
  rewrite (message_valid EAP_VENDOR_IETF EAP_TYPE_MD5 code id payload msg); try done.
  do 3 f_equal. change (blen (eap_type_octets EAP_VENDOR_IETF EAP_TYPE_MD5)) with 1. lia.
Qed.

(** The payload starts at the fifth octet. *)
Lemma md5_message_payload code id x data msg :
  md5_message code id (x :: data) msg →
  rd (mem msg) 5 = Some x ∧ slice (mem msg) 6 (blen data) = Some data.
Proof.
  intros [Hw Hc]. pose proof (contents_length _ Hw) as L. rewrite Hc in L.
  unfold eap_hdr_octets in *. simpl in L, Hc.
  split; [rewrite rd_contents by (done || lia); by rewrite Hc|].
  rewrite slice_contents by (done || lia). rewrite Hc.
  change (?a :: ?b :: ?c :: ?d :: ?e :: ?f :: data) with ([a; b; c; d; e; f] ++ data).
  by apply slice_app_end.
Qed.

Lemma u8_u8 x : u8 (u8 x) = u8 x.
Proof. unfold wrap. by rewrite Z.mod_mod. Qed.

Lemma get_id_contents msg code id len rest :
  wf msg → contents msg = eap_hdr_octets code id len ++ rest → eap_get_id msg = Some (u8 id).
Proof.
  intros Hw Hc. pose proof (contents_length _ Hw) as L. rewrite Hc in L.
  unfold eap_hdr_octets in *. simpl in L. unfold eap_get_id, sizeof_eap_hdr.
  rewrite bool_decide_eq_false_2 by lia. rewrite rd_contents by (done || lia). by rewrite Hc.
Qed.

(** The request carries the challenge. *)
Lemma md5_request v d id c :
  alloc_ok (n_alloc v) = true → random_bytes (n_rand v) = Some c → blen c = CHALLENGE_LEN →
  ∃ req, md5_message EAP_CODE_REQUEST id (CHALLENGE_LEN :: c) req ∧
    eap_md5_buildReq alloc_ok random_bytes v d id =
    Ret (Some req, Md5Data c CONTINUE,
         v <| n_rand ::= Datatypes.S |> <| n_alloc ::= Datatypes.S |>).
Proof.
  intros Ha Hr Hc. unfold CHALLENGE_LEN in Hc.
  destruct (eap_msg_alloc_contents EAP_VENDOR_IETF EAP_TYPE_MD5 (1 + CHALLENGE_LEN)
              EAP_CODE_REQUEST id) as (b & E & Hw & Hb & Hs); [unfold CHALLENGE_LEN; lia..|].
  unfold CHALLENGE_LEN in Hs.
  destruct (put_bytes_ok b [CHALLENGE_LEN]) as (b1 & E1 & Hw1 & Hs1 & Hb1 & Hu1);
    [done|simpl; lia|]. simpl in Hu1.
  destruct (put_bytes_ok b1 c) as (b2 & E2 & Hw2 & _ & Hb2 & _); [done|lia|].
  exists b2. split.
  - split; [done|]. rewrite Hb2, Hb1, Hb, <- !app_assoc.
    by replace (blen (CHALLENGE_LEN :: c)) with 17 by (simpl; lia).
  - unfold eap_md5_buildReq, malloc. rewrite Hr.
    change (n_alloc (v <| n_rand ::= Datatypes.S |>)) with (n_alloc v).
    rewrite Ha, E, ret_bind. unfold wpabuf_put_u8. by rewrite E1, ret_bind, put_data_bytes, E2.
Qed.

(** The peer answers with the digest of the identifier, its password and the challenge. *)
Lemma md5_response id c pw dg ret req :
  blen c = CHALLENGE_LEN → blen dg = CHAP_MD5_LEN →
  md5_message EAP_CODE_REQUEST id (CHALLENGE_LEN :: c) req →
  md5 ([u8 id] ++ pw ++ c) = Some dg →
  ∃ resp, md5_message EAP_CODE_RESPONSE (u8 id) (CHAP_MD5_LEN :: dg) resp ∧
    EapPeerMd5.eap_md5_process md5 true (Some pw) ret req =
    Ret (mk_ret false METHOD_DONE DECISION_COND_SUCC true, Some resp).
Proof.
  intros Hc Hd Hreq Hmd. unfold CHALLENGE_LEN, CHAP_MD5_LEN in Hc, Hd.
  assert (H17 : blen (CHALLENGE_LEN :: c) = 17) by (simpl; lia).
  destruct (md5_message_valid EAP_CODE_REQUEST id (CHALLENGE_LEN :: c) req) as [Hv Hid]; [lia|done|].
  destruct (md5_message_payload _ _ _ _ _ Hreq) as [H5 H6].
  destruct (eap_msg_alloc_contents EAP_VENDOR_IETF EAP_TYPE_MD5 (1 + CHAP_MD5_LEN)
              EAP_CODE_RESPONSE (u8 id)) as (b & E & Hw & Hb & Hs); [unfold CHAP_MD5_LEN; lia..|].
  unfold CHAP_MD5_LEN in Hs.
  destruct (put_bytes_ok b [CHAP_MD5_LEN]) as (b1 & E1 & Hw1 & Hs1 & Hb1 & Hu1);
    [done|simpl; lia|]. simpl in Hu1.
  destruct (put_bytes_ok b1 dg) as (b2 & E2 & Hw2 & _ & Hb2 & _); [done|lia|].
  exists b2. split.
  - split; [done|]. rewrite Hb2, Hb1, Hb, <- !app_assoc.
    by replace (blen (CHAP_MD5_LEN :: dg)) with 17 by (simpl; lia).
  - unfold EapPeerMd5.eap_md5_process. rewrite Hv, access_bind.
    rewrite H17, (bool_decide_eq_false_2 (17 = 0)) by done. rewrite H5, access_bind.
    change (bool_decide (CHALLENGE_LEN = 0) || bool_decide (17 - 1 < CHALLENGE_LEN)) with false.
    cbv iota zeta. rewrite Hid, access_bind, E, ret_bind. unfold wpabuf_put_u8.
    rewrite E1, ret_bind.
    assert (Hi1 : eap_get_id b1 = Some (u8 id)).
    { rewrite <- (u8_u8 id). eapply get_id_contents; [done|]. by rewrite Hb1, Hb, <- app_assoc. }
    rewrite Hi1, access_bind. change (5 + 1) with 6.
    replace CHALLENGE_LEN with (blen c) by done. rewrite H6, access_bind.
    unfold chap_md5. rewrite Hmd. by rewrite E2.
Qed.

(** The server compares the digest with its own. *)
Lemma md5_judged v id c st dg pw own resp :
  blen dg = CHAP_MD5_LEN → md5_message EAP_CODE_RESPONSE id (CHAP_MD5_LEN :: dg) resp →
  plain_password v = Some pw → md5 ([u8 id] ++ pw ++ c) = Some own →
  eap_md5_check v (Md5Data c st) resp = Ret false ∧
  eap_md5_process md5 v (Md5Data c st) resp =
  Ret (Md5Data c (if bool_decide (own = dg) then SUCCESS else FAILURE), v).
Proof.
  intros Hd Hresp Hpw Hmd. unfold CHAP_MD5_LEN in Hd.
  assert (H17 : blen (CHAP_MD5_LEN :: dg) = 17) by (simpl; lia).
  destruct (md5_message_valid EAP_CODE_RESPONSE id (CHAP_MD5_LEN :: dg) resp) as [Hv Hid];
    [lia|done|].
  destruct (md5_message_payload _ _ _ _ _ Hresp) as [H5 H6].
  unfold eap_md5_check, eap_md5_process. rewrite Hv, Hpw, !access_bind, H17, H5, !access_bind.
  change (bool_decide (17 < 1)) with false.
  change (bool_decide (CHAP_MD5_LEN ≠ CHAP_MD5_LEN) || bool_decide (17 < 1 + CHAP_MD5_LEN))
    with false. cbv iota. split; [done|].
  rewrite Hid, access_bind. unfold chap_md5. rewrite Hmd. change (5 + 1) with 6.
  replace CHAP_MD5_LEN with (blen dg) by done. by rewrite H6, access_bind.
Qed.

(** C38: a request of the MD5-Challenge server is answered by the peer, and the server
    accepts that answer exactly when its digest of the user's password is the one of the
    peer's password. *)
Theorem md5_exchange v d id c ret peer_pw server_pw peer_digest server_digest :
  alloc_ok (n_alloc v) = true → random_bytes (n_rand v) = Some c → blen c = CHALLENGE_LEN →
  plain_password v = Some server_pw →
  md5 ([u8 id] ++ peer_pw ++ c) = Some peer_digest → blen peer_digest = CHAP_MD5_LEN →
  md5 ([u8 id] ++ server_pw ++ c) = Some server_digest →
  ∃ req resp v',
    eap_md5_buildReq alloc_ok random_bytes v d id = Ret (Some req, Md5Data c CONTINUE, v') ∧
    EapPeerMd5.eap_md5_process md5 true (Some peer_pw) ret req =
      Ret (mk_ret false METHOD_DONE DECISION_COND_SUCC true, Some resp) ∧
    eap_md5_check v' (Md5Data c CONTINUE) resp = Ret false ∧
    eap_md5_process md5 v' (Md5Data c CONTINUE) resp =
      Ret (Md5Data c (if bool_decide (server_digest = peer_digest) then SUCCESS else FAILURE),
           v').
Proof.
  intros Ha Hr Hc Hpw Hp Hl Hs.
  destruct (md5_request v d id c Ha Hr Hc) as (req & Hreq & E1).
  destruct (md5_response id c peer_pw peer_digest ret req Hc Hl Hreq Hp) as (resp & Hresp & E2).
  eexists req, resp, _. split; [exact E1|]. split; [exact E2|].
  eapply md5_judged; [done|exact Hresp|exact Hpw|]. by rewrite u8_u8.
Qed.

(** C37: the MD5-Challenge server says that the peer was authenticated only by the right
    digest: for any response that its check lets pass, whatever its octets, processing
    returns, and ends in success exactly when the user has a plaintext password and the
    sixteen octets after the length are MD5 of identifier, password and challenge. *)
Theorem md5_accepts_exactly v c st resp :
  valid_resp resp → eap_md5_check v (Md5Data c st) resp = Ret false →
  ∃ st', eap_md5_process md5 v (Md5Data c st) resp = Ret (Md5Data c st', v) ∧
    (st' = SUCCESS ↔
     ∃ off n id pw dg,
       eap_hdr_validate EAP_VENDOR_IETF EAP_TYPE_MD5 (Some resp) = Some (Some (off, n)) ∧
       eap_get_id resp = Some id ∧ plain_password v = Some pw ∧
       md5 ([id] ++ pw ++ c) = Some dg ∧ slice (mem resp) (off + 1) CHAP_MD5_LEN = Some dg).
Proof.
  intros Hr Hc. destruct (md5_accepted resp v (Md5Data c st) Hr Hc) as (off & n & E & En & ?).
  unfold CHAP_MD5_LEN in *. unfold eap_md5_process, CHAP_MD5_LEN.
  destruct (plain_password v) as [pw|].
  2: { eexists. split; [reflexivity|]. split; [done|]. by intros (?&?&?&?&?&_&_&?&_). }
  rewrite E, access_bind, En, access_bind.
  change (bool_decide (16 ≠ 16)) with false. rewrite orb_false_l.
  rewrite bool_decide_eq_false_2 by lia.
  assert (Hid : ∃ i, eap_get_id resp = Some i) by (apply get_id_ok; by destruct Hr).
  destruct Hid as [i Hi]. rewrite Hi, access_bind. unfold chap_md5.
  destruct (md5 ([i] ++ pw ++ c)) as [dg|] eqn:Ed.
  - destruct (slice_is_Some (mem resp) (off + 1) 16) as [got Hgot]; [lia..|].
    rewrite Hgot, access_bind. eexists. split; [reflexivity|]. split.
    + case_bool_decide as Hg; [|done]. intros _. subst got. by exists off, n, i, pw, dg.
    + intros (?&?&?&?&?&[= <- <-]&[= <-]&[= <-]&E1&E2). rewrite Ed in E1. injection E1 as <-.
      rewrite Hgot in E2. injection E2 as ->. by rewrite bool_decide_eq_true_2.
  - eexists. split; [reflexivity|]. split; [done|].
    intros (?&?&?&?&?&_&[= <-]&[= <-]&E1&_). congruence.
Qed.
End md5_exchange.

(** ** Both theorems at a concrete user *)
Definition some_md5 (x : list Z) : option (list Z) := Some (take 16 (x ++ replicate 16 0)).
Definition some_challenge : list Z := seqZ 40 16.
Definition some_user : eap_user := zero_user <| password := Some [115; 101; 99] |>.
Definition some_vars : method_vars unit :=
  mk_vars unit tt None None None false (Some some_user) 0 false METHOD_PENDING_NONE 0 0.
(** A response with the right digest. *)
Definition some_response : wpabuf :=
  mk_wpabuf 22 22
    ([2; 8; 0; 22; 4; 16] ++ default [] (some_md5 ([8; 115; 101; 99] ++ some_challenge))) false.

Lemma md5_exchange_witness :
  ∃ req resp v',
    eap_md5_buildReq (λ _, true) (λ _, Some some_challenge) some_vars (Md5Data [] CONTINUE) 8 =
      Ret (Some req, Md5Data some_challenge CONTINUE, v') ∧
    EapPeerMd5.eap_md5_process some_md5 true (Some [115; 101; 99])
      (mk_ret false METHOD_INIT DECISION_FAIL true) req =
      Ret (mk_ret false METHOD_DONE DECISION_COND_SUCC true, Some resp) ∧
    eap_md5_check v' (Md5Data some_challenge CONTINUE) resp = Ret false ∧
    eap_md5_process some_md5 v' (Md5Data some_challenge CONTINUE) resp =
      Ret (Md5Data some_challenge SUCCESS, v').
Proof.
  exact (md5_exchange (λ _, true) (λ _, Some some_challenge) some_md5 some_vars
    (Md5Data [] CONTINUE) 8 some_challenge (mk_ret false METHOD_INIT DECISION_FAIL true)
    [115; 101; 99] [115; 101; 99] _ _ eq_refl eq_refl eq_refl eq_refl eq_refl eq_refl eq_refl).
Defined.

Lemma some_response_ok : valid_resp some_response.
Proof.
  split; [split_and!; by vm_compute|]. split; [by apply (bool_decide_unpack _); vm_compute|done].
Qed.

Lemma md5_accepts_exactly_witness :
  ∃ st', eap_md5_process some_md5 some_vars (Md5Data some_challenge CONTINUE) some_response =
           Ret (Md5Data some_challenge st', some_vars) ∧ st' = SUCCESS.
Proof.
  destruct (md5_accepts_exactly some_md5 some_vars some_challenge CONTINUE some_response)
    as (st' & E & H); [exact some_response_ok|vm_compute; reflexivity|].
  exists st'. split; [exact E|]. apply H. do 5 eexists.
  split_and!; vm_compute; reflexivity.
Defined.
