(* ===== verification/EapolAuth.v ===== *)
(** IEEE 802.1X authenticator: the EAPOL state machines
    (src/eapol_auth/eapol_auth_sm.c, src/eapol_auth/eapol_auth_sm_i.h)

    [eapol_state_machine] is struct eapol_state_machine of one station, with its EAP
    server machine as the field [eap]; [eap_if] is a part of that machine, which the
    C code reaches through a second pointer.  The machines AUTH_PAE, BE_AUTH,
    REAUTH_TIMER and CTRL_DIR are run by [eapol_sm_step_run] together with
    [eap_server_sm_step].  WEP is not built, so the machines AUTH_KEY_TX and KEY_RX
    are not run.

    A call of struct eapol_auth_cb is an event at the head of [trace].  [finished],
    [abort_auth] and [eapol_event] reach the RSN authenticator and the management of
    stations, which may call back with [hostapd_wpa_auth_set_eapol]; [reaction] says with
    what, for each trace.  [eapol_send] and [set_port_authorized] (src/ap/ieee802_1x.c)
    only hand a frame or a flag to the driver, and [aaa_send] is empty without RADIUS. *)
From stdpp Require Import strings.
From S2P Require Import Prelude Bytes Wpabuf AuthSm EapCommon EapServer.

Definition ForceUnauthorized := 1.
Definition ForceAuthorized := 3.
Definition Auto := 2.
Definition Unauthorized := 2.
Definition Authorized := 1.
Definition Both := 0.
Definition In := 1.

Definition EAPOL_SM_PREAUTH := 1.
Definition EAPOL_SM_WAIT_START := 2.
Definition EAPOL_SM_USES_WPA := 4.
Definition EAPOL_SM_FROM_PMKSA_CACHE := 8.

Definition IEEE802_1X_TYPE_EAP_PACKET := 0.
Definition IEEE802_1X_TYPE_EAPOL_START := 1.
Definition IEEE802_1X_TYPE_EAPOL_LOGOFF := 2.
Definition IEEE802_1X_TYPE_EAPOL_KEY := 3.
Definition IEEE802_1X_TYPE_EAPOL_ENCAPSULATED_ASF_ALERT := 4.

Inductive auth_pae_states :=
| AUTH_PAE_INITIALIZE | AUTH_PAE_DISCONNECTED | AUTH_PAE_CONNECTING
| AUTH_PAE_AUTHENTICATING | AUTH_PAE_AUTHENTICATED | AUTH_PAE_ABORTING | AUTH_PAE_HELD
| AUTH_PAE_FORCE_AUTH | AUTH_PAE_FORCE_UNAUTH | AUTH_PAE_RESTART.
#[export] Instance auth_pae_states_eq_dec : EqDecision auth_pae_states.
Proof. solve_decision. Defined.

Inductive be_auth_states :=
| BE_AUTH_REQUEST | BE_AUTH_RESPONSE | BE_AUTH_SUCCESS | BE_AUTH_FAIL | BE_AUTH_TIMEOUT
| BE_AUTH_IDLE | BE_AUTH_INITIALIZE | BE_AUTH_IGNORE.
#[export] Instance be_auth_states_eq_dec : EqDecision be_auth_states.
Proof. solve_decision. Defined.

Inductive reauth_timer_states := REAUTH_TIMER_INITIALIZE | REAUTH_TIMER_REAUTHENTICATE.
#[export] Instance reauth_timer_states_eq_dec : EqDecision reauth_timer_states.
Proof. solve_decision. Defined.

Inductive ctrl_dir_states := CTRL_DIR_FORCE_BOTH | CTRL_DIR_IN_OR_BOTH.
#[export] Instance ctrl_dir_states_eq_dec : EqDecision ctrl_dir_states.
Proof. solve_decision. Defined.

(** The members of type Counter. *)
Inductive counter :=
| authEntersConnecting | authEapLogoffsWhileConnecting
| authAuthSuccessesWhileAuthenticating | authAuthTimeoutsWhileAuthenticating
| authAuthFailWhileAuthenticating | authAuthEapStartsWhileAuthenticating
| authAuthEapLogoffWhileAuthenticating | authAuthReauthsWhileAuthenticated
| authAuthEapStartsWhileAuthenticated | authAuthEapLogoffWhileAuthenticated
| backendResponses | backendAccessChallenges | backendOtherRequestsToSupplicant
| backendAuthSuccesses | backendAuthFails
| dot1xAuthEapolFramesRx | dot1xAuthEapolFramesTx | dot1xAuthEapolStartFramesRx
| dot1xAuthEapolLogoffFramesRx | dot1xAuthEapolRespFramesRx | dot1xAuthEapolReqIdFramesTx
| dot1xAuthEapolReqFramesTx | dot1xAuthInvalidEapolFramesRx
| dot1xAuthEapLengthErrorFramesRx | dot1xAuthLastEapolFrameVersion.
#[export] Instance counter_eq_dec : EqDecision counter.
Proof. solve_decision. Defined.

(** The calls that leave the module, and the timeouts it registers. *)
Inductive auth_event :=
| EvSend (type : Z) (data : list Z)
| EvAaaSend (data : list Z)
| EvPort (authorized : bool)
| EvFinished (success preauth remediation : bool)
| EvDisconnect
| EvSmChange
| EvReauthenticate
| EvWpaAuthorized (authorized : bool)
| EvWpaReauth
| EvRegisterStep
| EvRegisterTick
| EvCancelTick.

(** struct eapol_auth_config *)
Record eapol_auth_config := mk_auth_config {
  eap_reauth_period : Z;
  wpa : bool;
  eap_req_id_text : option (list Z);
  erp_send_reauth_start : bool;
  erp_domain : option (list Z);
}.

(** What the EAP machine sees of struct eapol_state_machine.  [cb_get_eap_user] is the
    function pointer [get_eap_user] of struct eapol_auth_cb; it takes and gives back the
    number of copies it has allocated. *)
Record auth_ctx := mk_ctx {
  conf : eapol_auth_config;
  cb_get_eap_user : nat → list Z → bool → eap_user → bool * eap_user * nat;
  n_memdup : nat;
  sm_remediation : bool;
}.
#[export] Instance eta_auth_ctx : Eta auth_ctx := λ c,
  mk_ctx (conf c) (cb_get_eap_user c) (n_memdup c) (sm_remediation c).

Definition eapol_sm_get_eap_user (c : auth_ctx) (id : list Z) (ph2 : bool) (u : eap_user) :
    bool * eap_user * auth_ctx :=
  let '(ret, u, n) := cb_get_eap_user c (n_memdup c) id ph2 u in
  let c := c <| n_memdup := n |> in
  (ret, u, if remediation u then c <| sm_remediation := true |> else c).

Definition eapol_sm_get_eap_req_id_text (c : auth_ctx) : option (list Z) :=
  eap_req_id_text (conf c).
Definition eapol_sm_get_erp_send_reauth_start (c : auth_ctx) : bool :=
  erp_send_reauth_start (conf c).
Definition eapol_sm_get_erp_domain (c : auth_ctx) : option (list Z) := erp_domain (conf c).

(** eapol_cb *)
#[export] Instance eapol_auth_callbacks : EapolCallbacks auth_ctx := {|
  get_eap_user := eapol_sm_get_eap_user;
  get_eap_req_id_text := eapol_sm_get_eap_req_id_text;
  get_erp_send_reauth_start := eapol_sm_get_erp_send_reauth_start;
  get_erp_domain := eapol_sm_get_erp_domain;
|}.

Record eapol_state_machine (P : Type) := mk_auth {
  aWhile : Z;
  quietWhile : Z;
  reAuthWhen : Z;
  authAbort : bool;
  authFail : bool;
  authPortStatus : Z;
  authStart : bool;
  authTimeout : bool;
  authSuccess : bool;
  eapolEap : bool;
  initialize : bool;
  keyDone : bool;
  keyRun : bool;
  keyTxEnabled : bool;
  portControl : Z;
  portValid : bool;
  reAuthenticate : bool;
  auth_pae_state : auth_pae_states;
  eapolLogoff : bool;
  eapolStart : bool;
  portMode : Z;
  reAuthCount : Z;
  quietPeriod : Z;
  reAuthMax : Z;
  be_auth_state : be_auth_states;
  serverTimeout : Z;
  reauth_timer_state : reauth_timer_states;
  reAuthPeriod : Z;
  reAuthEnabled : bool;
  ctrl_dir_state : ctrl_dir_states;
  adminControlledDirections : Z;
  operControlledDirections : Z;
  operEdge : bool;
  counters : counter → Z;
  flags : Z;
  last_eap_id : Z;
  eap_type_supp : Z;
  eap : eap_sm auth_ctx P;
  initializing : bool;
  sm_changed : bool;
  trace : list auth_event;
}.
Arguments aWhile {P}. Arguments quietWhile {P}. Arguments reAuthWhen {P}.
Arguments authAbort {P}. Arguments authFail {P}. Arguments authPortStatus {P}.
Arguments authStart {P}. Arguments authTimeout {P}. Arguments authSuccess {P}.
Arguments eapolEap {P}. Arguments initialize {P}. Arguments keyDone {P}.
Arguments keyRun {P}. Arguments keyTxEnabled {P}. Arguments portControl {P}.
Arguments portValid {P}. Arguments reAuthenticate {P}. Arguments auth_pae_state {P}.
Arguments eapolLogoff {P}. Arguments eapolStart {P}. Arguments portMode {P}.
Arguments reAuthCount {P}. Arguments quietPeriod {P}. Arguments reAuthMax {P}.
Arguments be_auth_state {P}. Arguments serverTimeout {P}. Arguments reauth_timer_state {P}.
Arguments reAuthPeriod {P}. Arguments reAuthEnabled {P}. Arguments ctrl_dir_state {P}.
Arguments adminControlledDirections {P}. Arguments operControlledDirections {P}.
Arguments operEdge {P}. Arguments counters {P}. Arguments flags {P}.
Arguments last_eap_id {P}. Arguments eap_type_supp {P}. Arguments eap {P}.
Arguments initializing {P}. Arguments sm_changed {P}. Arguments trace {P}.
#[export] Instance eta_eapol_state_machine P : Eta (eapol_state_machine P) := λ s,
  mk_auth P (aWhile s) (quietWhile s) (reAuthWhen s) (authAbort s) (authFail s)
    (authPortStatus s) (authStart s) (authTimeout s) (authSuccess s) (eapolEap s)
    (initialize s) (keyDone s) (keyRun s) (keyTxEnabled s) (portControl s) (portValid s)
    (reAuthenticate s) (auth_pae_state s) (eapolLogoff s) (eapolStart s) (portMode s)
    (reAuthCount s) (quietPeriod s) (reAuthMax s) (be_auth_state s) (serverTimeout s)
    (reauth_timer_state s) (reAuthPeriod s) (reAuthEnabled s) (ctrl_dir_state s)
    (adminControlledDirections s) (operControlledDirections s) (operEdge s) (counters s)
    (flags s) (last_eap_id s) (eap_type_supp s) (eap s) (initializing s) (sm_changed s)
    (trace s).

(** [sm->eap_if], and an assignment to one of its members. *)
Definition sm_if {P} (s : eapol_state_machine P) : eap_eapol_interface := eap_if (eap s).
Notation "s <|eif f := v |>" := (update eap (update eap_if (update f (λ _, v))) s)
  (at level 1, f at level 1, left associativity) : record_scope.

(** The conversion of unsigned int to int. *)
Definition to_int (x : Z) : Z := if bool_decide (x < 2 ^ 31) then x else x - 2 ^ 32.

Section eapol_auth.
Context {P : Type}.
(** what the EAP server is configured with *)
Variable registered : list (eap_method auth_ctx P).
Variable cfg : eap_config.
Variable alloc_ok : nat → bool.
Variable rand : nat → Z.
Variable tries : nat.
(** the answer of [sta_entry_alive], and the calls that a call of the module causes *)
Variable alive : list auth_event → bool.
Variable reaction : list auth_event → list (eapol_variable * bool).

Implicit Types sm : eapol_state_machine P.
Abbreviation result := (outcome (eapol_state_machine P)) (only parsing).

Definition count (c : counter) sm : eapol_state_machine P :=
  sm <| counters ::= λ f c', if bool_decide (c' = c) then u32 (f c' + 1) else f c' |>.
Definition count_if (b : bool) (c : counter) sm : eapol_state_machine P :=
  if b then count c sm else sm.
Definition emit sm (e : auth_event) : eapol_state_machine P := sm <| trace ::= cons e |>.

(** [eloop_register_timeout(0, 0, eapol_sm_step_cb)] *)
Definition eapol_auth_step sm : eapol_state_machine P := emit sm EvRegisterStep.

Definition ieee802_1x_notify_port_enabled sm (enabled : bool) : eapol_state_machine P :=
  eapol_auth_step (sm <|eif portEnabled := enabled |>).
Definition ieee802_1x_notify_port_valid sm (valid : bool) : eapol_state_machine P :=
  eapol_auth_step (sm <| portValid := valid |>).
Definition ieee802_1x_notify_pre_auth sm (pre_auth : bool) : eapol_state_machine P :=
  sm <| flags ::= λ f, if pre_auth then Z.lor f EAPOL_SM_PREAUTH
                       else Z.ldiff f EAPOL_SM_PREAUTH |>.

(** The machine of the RSN authenticator sets a variable. *)
Definition hostapd_wpa_auth_set_eapol sm (var : eapol_variable) (value : bool) :
    eapol_state_machine P :=
  match var with
  | EAPOL_portEnabled => ieee802_1x_notify_port_enabled sm value
  | EAPOL_portValid => ieee802_1x_notify_port_valid sm value
  | EAPOL_authorized => emit sm (EvWpaAuthorized value)
  | EAPOL_portControl_Auto => sm <| portControl := Auto |>
  | EAPOL_keyRun => sm <| keyRun := value |>
  | EAPOL_keyAvailable => sm <|eif eapKeyAvailable := value |>
  | EAPOL_keyDone => sm <| keyDone := value |>
  | EAPOL_inc_EapolFramesTx => count dot1xAuthEapolFramesTx sm
  end.

(** [-1] for a variable that cannot be read is [None]. *)
Definition hostapd_wpa_auth_get_eapol sm (var : eapol_variable) : option bool :=
  match var with
  | EAPOL_keyRun => Some (keyRun sm)
  | EAPOL_keyAvailable => Some (eapKeyAvailable (sm_if sm))
  | _ => None
  end.

(** A call through struct eapol_auth_cb, and what it causes. *)
Definition react sm : eapol_state_machine P :=
  fold_left (λ sm '(var, value), hostapd_wpa_auth_set_eapol sm var value)
    (reaction (trace sm)) sm.
Definition call sm (e : auth_event) : eapol_state_machine P := react (emit sm e).

Definition remediated sm : bool := sm_remediation (eapol_ctx (mv (eap sm))).
Definition has_flag sm (f : Z) : bool := bool_decide (Z.land (flags sm) f ≠ 0).
Definition finished sm (success : bool) : eapol_state_machine P :=
  call sm (EvFinished success (has_flag sm EAPOL_SM_PREAUTH) (remediated sm)).

(** [ieee802_1x_abort_auth]; after a timeout the station is disconnected, which
    disables its port once more ([ap_sta_disconnect]). *)
Definition ieee802_1x_abort_auth sm : eapol_state_machine P :=
  if eapTimeout (sm_if sm) then
    let sm := sm <|eif portEnabled := false |> in
    ieee802_1x_notify_port_enabled (call sm EvDisconnect) false
  else sm.

(** ** Frames *)
Definition eapol_auth_tx_canned_eap sm (success : bool) : eapol_state_machine P :=
  let sm := sm <| last_eap_id ::= λ n, u8 (n + 1) |> in
  let code := if success then EAP_CODE_SUCCESS else EAP_CODE_FAILURE in
  let sm := emit sm (EvSend IEEE802_1X_TYPE_EAP_PACKET
                       (eap_hdr_octets code (last_eap_id sm) sizeof_eap_hdr)) in
  count dot1xAuthEapolFramesTx sm.

Definition eapol_auth_tx_req sm : result :=
  match eapReqData (sm_if sm) with
  | None => Ret sm
  | Some req =>
      if bool_decide (used req < sizeof_eap_hdr) then Ret sm
      else if has_flag sm EAPOL_SM_WAIT_START then Ret sm
      else
        id ← access (eap_get_id req);
        d ← access (slice (mem req) 0 (used req));
        ty ← access (eap_get_type req);
        let sm := sm <| last_eap_id := id |> in
        let sm := emit sm (EvSend IEEE802_1X_TYPE_EAP_PACKET d) in
        let sm := count dot1xAuthEapolFramesTx sm in
        Ret (count (if bool_decide (ty = EAP_TYPE_IDENTITY) then dot1xAuthEapolReqIdFramesTx
                    else dot1xAuthEapolReqFramesTx) sm)
  end.

(** ** Authenticator PAE *)
Definition PAE_ENTRY sm (global : bool) (st : auth_pae_states) : eapol_state_machine P :=
  let sm := if negb global || bool_decide (auth_pae_state sm ≠ st)
            then sm <| sm_changed := true |> else sm in
  sm <| auth_pae_state := st |>.
Definition in_pae sm (st : auth_pae_states) : bool := bool_decide (auth_pae_state sm = st).

Definition setPortAuthorized sm : eapol_state_machine P := emit sm (EvPort true).
Definition setPortUnauthorized sm : eapol_state_machine P := emit sm (EvPort false).

Definition sm_AUTH_PAE_INITIALIZE_Enter sm (global : bool) : eapol_state_machine P :=
  (PAE_ENTRY sm global AUTH_PAE_INITIALIZE) <| portMode := Auto |> <| keyRun := false |>.

Definition sm_AUTH_PAE_DISCONNECTED_Enter sm (global : bool) : eapol_state_machine P :=
  let from_initialize := in_pae sm AUTH_PAE_INITIALIZE in
  let connecting := eapolLogoff sm && in_pae sm AUTH_PAE_CONNECTING in
  let authenticated := eapolLogoff sm && in_pae sm AUTH_PAE_AUTHENTICATED in
  let sm := count_if connecting authEapLogoffsWhileConnecting sm in
  let sm := count_if authenticated authAuthEapLogoffWhileAuthenticated sm in
  let sm := PAE_ENTRY sm global AUTH_PAE_DISCONNECTED in
  let sm := sm <| authPortStatus := Unauthorized |> in
  let sm := setPortUnauthorized sm in
  let sm := sm <| reAuthCount := 0 |> <| eapolLogoff := false |> in
  if from_initialize then sm else finished sm false.

Definition sm_AUTH_PAE_RESTART_Enter sm (global : bool) : eapol_state_machine P :=
  let was := in_pae sm AUTH_PAE_AUTHENTICATED in
  let sm := count_if (was && reAuthenticate sm) authAuthReauthsWhileAuthenticated sm in
  let sm := count_if (was && eapolStart sm) authAuthEapStartsWhileAuthenticated sm in
  let sm := count_if (was && eapolLogoff sm) authAuthEapLogoffWhileAuthenticated sm in
  (PAE_ENTRY sm global AUTH_PAE_RESTART) <|eif eapRestart := true |>.

Definition sm_AUTH_PAE_CONNECTING_Enter sm (global : bool) : eapol_state_machine P :=
  let sm := count_if (negb (in_pae sm AUTH_PAE_CONNECTING)) authEntersConnecting sm in
  (PAE_ENTRY sm global AUTH_PAE_CONNECTING)
    <| reAuthenticate := false |> <| reAuthCount ::= λ n, u32 (n + 1) |>.

Definition sm_AUTH_PAE_HELD_Enter sm (global : bool) : eapol_state_machine P :=
  let sm := count_if (in_pae sm AUTH_PAE_AUTHENTICATING && authFail sm)
              authAuthFailWhileAuthenticating sm in
  let sm := (PAE_ENTRY sm global AUTH_PAE_HELD) <| authPortStatus := Unauthorized |> in
  let sm := setPortUnauthorized sm in
  let sm := sm <| quietWhile := to_int (quietPeriod sm) |> <| eapolLogoff := false |> in
  finished sm false.

Definition sm_AUTH_PAE_AUTHENTICATED_Enter sm (global : bool) : eapol_state_machine P :=
  let sm := count_if (in_pae sm AUTH_PAE_AUTHENTICATING && authSuccess sm)
              authAuthSuccessesWhileAuthenticating sm in
  let sm := (PAE_ENTRY sm global AUTH_PAE_AUTHENTICATED) <| authPortStatus := Authorized |> in
  let sm := (setPortAuthorized sm) <| reAuthCount := 0 |> in
  finished sm true.

Definition sm_AUTH_PAE_AUTHENTICATING_Enter sm (global : bool) : eapol_state_machine P :=
  (PAE_ENTRY sm global AUTH_PAE_AUTHENTICATING)
    <| eapolStart := false |> <| authSuccess := false |> <| authFail := false |>
    <| authTimeout := false |> <| authStart := true |> <| keyRun := false |>
    <| keyDone := false |>.

Definition sm_AUTH_PAE_ABORTING_Enter sm (global : bool) : eapol_state_machine P :=
  let was := in_pae sm AUTH_PAE_AUTHENTICATING in
  let sm := count_if (was && authTimeout sm) authAuthTimeoutsWhileAuthenticating sm in
  let sm := count_if (was && eapolStart sm) authAuthEapStartsWhileAuthenticating sm in
  let sm := count_if (was && eapolLogoff sm) authAuthEapLogoffWhileAuthenticating sm in
  (PAE_ENTRY sm global AUTH_PAE_ABORTING)
    <| authAbort := true |> <| keyRun := false |> <| keyDone := false |>.

Definition sm_AUTH_PAE_FORCE_AUTH_Enter sm (global : bool) : eapol_state_machine P :=
  let sm := (PAE_ENTRY sm global AUTH_PAE_FORCE_AUTH) <| authPortStatus := Authorized |> in
  let sm := setPortAuthorized sm in
  let sm := sm <| portMode := ForceAuthorized |> <| eapolStart := false |> in
  eapol_auth_tx_canned_eap sm true.

Definition sm_AUTH_PAE_FORCE_UNAUTH_Enter sm (global : bool) : eapol_state_machine P :=
  let sm := (PAE_ENTRY sm global AUTH_PAE_FORCE_UNAUTH)
              <| authPortStatus := Unauthorized |> in
  let sm := setPortUnauthorized sm in
  let sm := sm <| portMode := ForceUnauthorized |> <| eapolStart := false |> in
  eapol_auth_tx_canned_eap sm false.

(** The [switch] of SM_STEP(AUTH_PAE). *)
Definition auth_pae_step_local sm : eapol_state_machine P :=
  match auth_pae_state sm with
  | AUTH_PAE_INITIALIZE => sm_AUTH_PAE_DISCONNECTED_Enter sm false
  | AUTH_PAE_DISCONNECTED => sm_AUTH_PAE_RESTART_Enter sm false
  | AUTH_PAE_RESTART =>
      if negb (eapRestart (sm_if sm)) then sm_AUTH_PAE_CONNECTING_Enter sm false else sm
  | AUTH_PAE_HELD =>
      if bool_decide (quietWhile sm = 0) then sm_AUTH_PAE_RESTART_Enter sm false else sm
  | AUTH_PAE_CONNECTING =>
      if eapolLogoff sm || bool_decide (reAuthMax sm < reAuthCount sm)
      then sm_AUTH_PAE_DISCONNECTED_Enter sm false
      else if (eapReq (sm_if sm) && bool_decide (reAuthCount sm ≤ reAuthMax sm)) ||
              eapSuccess (sm_if sm) || eapFail (sm_if sm)
      then sm_AUTH_PAE_AUTHENTICATING_Enter sm false else sm
  | AUTH_PAE_AUTHENTICATED =>
      if eapolStart sm || reAuthenticate sm then sm_AUTH_PAE_RESTART_Enter sm false
      else if eapolLogoff sm || negb (portValid sm)
      then sm_AUTH_PAE_DISCONNECTED_Enter sm false else sm
  | AUTH_PAE_AUTHENTICATING =>
      if authSuccess sm && portValid sm then sm_AUTH_PAE_AUTHENTICATED_Enter sm false
      else if authFail sm || (keyDone sm && negb (portValid sm))
      then sm_AUTH_PAE_HELD_Enter sm false
      else if eapolStart sm || eapolLogoff sm || authTimeout sm
      then sm_AUTH_PAE_ABORTING_Enter sm false else sm
  | AUTH_PAE_ABORTING =>
      if eapolLogoff sm && negb (authAbort sm) then sm_AUTH_PAE_DISCONNECTED_Enter sm false
      else if negb (eapolLogoff sm) && negb (authAbort sm)
      then sm_AUTH_PAE_RESTART_Enter sm false else sm
  | AUTH_PAE_FORCE_AUTH => if eapolStart sm then sm_AUTH_PAE_FORCE_AUTH_Enter sm false else sm
  | AUTH_PAE_FORCE_UNAUTH =>
      if eapolStart sm then sm_AUTH_PAE_FORCE_UNAUTH_Enter sm false else sm
  end.

Definition sm_AUTH_PAE_Step sm : eapol_state_machine P :=
  let mode_differs := bool_decide (portMode sm ≠ portControl sm) in
  let init := initialize sm || negb (portEnabled (sm_if sm)) in
  if (bool_decide (portControl sm = Auto) && mode_differs) || init
  then sm_AUTH_PAE_INITIALIZE_Enter sm true
  else if bool_decide (portControl sm = ForceAuthorized) && mode_differs && negb init
  then sm_AUTH_PAE_FORCE_AUTH_Enter sm true
  else if bool_decide (portControl sm = ForceUnauthorized) && mode_differs && negb init
  then sm_AUTH_PAE_FORCE_UNAUTH_Enter sm true
  else auth_pae_step_local sm.

(** ** Backend authentication *)
Definition BE_ENTRY sm (global : bool) (st : be_auth_states) : eapol_state_machine P :=
  let sm := if negb global || bool_decide (be_auth_state sm ≠ st)
            then sm <| sm_changed := true |> else sm in
  sm <| be_auth_state := st |>.

Definition sm_BE_AUTH_INITIALIZE_Enter sm (global : bool) : eapol_state_machine P :=
  let sm := ieee802_1x_abort_auth (BE_ENTRY sm global BE_AUTH_INITIALIZE) in
  sm <|eif eapNoReq := false |> <| authAbort := false |>.

Definition sm_BE_AUTH_REQUEST_Enter sm (global : bool) : result :=
  sm ← eapol_auth_tx_req (BE_ENTRY sm global BE_AUTH_REQUEST);
  let sm := sm <|eif eapReq := false |> in
  Ret ((count backendOtherRequestsToSupplicant sm) <| eapolEap := false |>).

Definition sm_BE_AUTH_RESPONSE_Enter sm (global : bool) : eapol_state_machine P :=
  let sm := BE_ENTRY sm global BE_AUTH_RESPONSE in
  let sm := sm <| authTimeout := false |> <| eapolEap := false |> <|eif eapNoReq := false |>
               <| aWhile := to_int (serverTimeout sm) |> <|eif eapResp := true |> in
  count backendResponses sm.

Definition sm_BE_AUTH_SUCCESS_Enter sm (global : bool) : result :=
  sm ← eapol_auth_tx_req (BE_ENTRY sm global BE_AUTH_SUCCESS);
  Ret (sm <| authSuccess := true |> <| keyRun := true |>).

Definition sm_BE_AUTH_FAIL_Enter sm (global : bool) : result :=
  sm ← eapol_auth_tx_req (BE_ENTRY sm global BE_AUTH_FAIL);
  Ret (sm <| authFail := true |>).

Definition sm_BE_AUTH_TIMEOUT_Enter sm (global : bool) : eapol_state_machine P :=
  (BE_ENTRY sm global BE_AUTH_TIMEOUT) <| authTimeout := true |>.

Definition sm_BE_AUTH_IDLE_Enter sm (global : bool) : eapol_state_machine P :=
  (BE_ENTRY sm global BE_AUTH_IDLE) <| authStart := false |>.

Definition sm_BE_AUTH_IGNORE_Enter sm (global : bool) : eapol_state_machine P :=
  (BE_ENTRY sm global BE_AUTH_IGNORE) <|eif eapNoReq := false |>.

(** REQUEST and IGNORE wait for the peer in the same way. *)
Definition be_step_waiting sm : result :=
  if eapolEap sm then Ret (sm_BE_AUTH_RESPONSE_Enter sm false)
  else if eapReq (sm_if sm) then sm_BE_AUTH_REQUEST_Enter sm false
  else if eapTimeout (sm_if sm) then Ret (sm_BE_AUTH_TIMEOUT_Enter sm false)
  else Ret sm.

Definition be_step_response sm : result :=
  let sm := if eapNoReq (sm_if sm) then sm_BE_AUTH_IGNORE_Enter sm false else sm in
  if eapReq (sm_if sm) then sm_BE_AUTH_REQUEST_Enter (count backendAccessChallenges sm) false
  else if bool_decide (aWhile sm = 0) then Ret (sm_BE_AUTH_TIMEOUT_Enter sm false)
  else if eapFail (sm_if sm) then sm_BE_AUTH_FAIL_Enter (count backendAuthFails sm) false
  else if eapSuccess (sm_if sm)
  then sm_BE_AUTH_SUCCESS_Enter (count backendAuthSuccesses sm) false
  else Ret sm.

Definition sm_BE_AUTH_Step sm : result :=
  if bool_decide (portControl sm ≠ Auto) || initialize sm || authAbort sm
  then Ret (sm_BE_AUTH_INITIALIZE_Enter sm true)
  else
    match be_auth_state sm with
    | BE_AUTH_INITIALIZE => Ret (sm_BE_AUTH_IDLE_Enter sm false)
    | BE_AUTH_REQUEST => be_step_waiting sm
    | BE_AUTH_RESPONSE => be_step_response sm
    | BE_AUTH_SUCCESS | BE_AUTH_FAIL | BE_AUTH_TIMEOUT => Ret (sm_BE_AUTH_IDLE_Enter sm false)
    | BE_AUTH_IDLE =>
        if eapFail (sm_if sm) && authStart sm then sm_BE_AUTH_FAIL_Enter sm false
        else if eapReq (sm_if sm) && authStart sm then sm_BE_AUTH_REQUEST_Enter sm false
        else if eapSuccess (sm_if sm) && authStart sm then sm_BE_AUTH_SUCCESS_Enter sm false
        else Ret sm
    | BE_AUTH_IGNORE => be_step_waiting sm
    end.

(** ** Reauthentication timer *)
Definition REAUTH_ENTRY sm (global : bool) (st : reauth_timer_states) : eapol_state_machine P :=
  let sm := if negb global || bool_decide (reauth_timer_state sm ≠ st)
            then sm <| sm_changed := true |> else sm in
  sm <| reauth_timer_state := st |>.

Definition sm_REAUTH_TIMER_INITIALIZE_Enter sm (global : bool) : eapol_state_machine P :=
  let sm := REAUTH_ENTRY sm global REAUTH_TIMER_INITIALIZE in
  sm <| reAuthWhen := to_int (reAuthPeriod sm) |>.

Definition sm_REAUTH_TIMER_REAUTHENTICATE_Enter sm (global : bool) : eapol_state_machine P :=
  let sm := REAUTH_ENTRY sm global REAUTH_TIMER_REAUTHENTICATE in
  call (sm <| reAuthenticate := true |>) EvReauthenticate.

Definition sm_REAUTH_TIMER_Step sm : eapol_state_machine P :=
  if bool_decide (portControl sm ≠ Auto) || initialize sm ||
     bool_decide (authPortStatus sm = Unauthorized) || negb (reAuthEnabled sm)
  then sm_REAUTH_TIMER_INITIALIZE_Enter sm true
  else match reauth_timer_state sm with
       | REAUTH_TIMER_INITIALIZE =>
           if bool_decide (reAuthWhen sm = 0)
           then sm_REAUTH_TIMER_REAUTHENTICATE_Enter sm false else sm
       | REAUTH_TIMER_REAUTHENTICATE => sm_REAUTH_TIMER_INITIALIZE_Enter sm false
       end.

(** ** Controlled directions *)
Definition CTRL_ENTRY sm (global : bool) (st : ctrl_dir_states) : eapol_state_machine P :=
  let sm := if negb global || bool_decide (ctrl_dir_state sm ≠ st)
            then sm <| sm_changed := true |> else sm in
  sm <| ctrl_dir_state := st |>.

Definition sm_CTRL_DIR_FORCE_BOTH_Enter sm (global : bool) : eapol_state_machine P :=
  (CTRL_ENTRY sm global CTRL_DIR_FORCE_BOTH) <| operControlledDirections := Both |>.

Definition sm_CTRL_DIR_IN_OR_BOTH_Enter sm (global : bool) : eapol_state_machine P :=
  (CTRL_ENTRY sm global CTRL_DIR_IN_OR_BOTH)
    <| operControlledDirections := adminControlledDirections sm |>.

Definition sm_CTRL_DIR_Step sm : eapol_state_machine P :=
  if initialize sm then sm_CTRL_DIR_IN_OR_BOTH_Enter sm true
  else match ctrl_dir_state sm with
       | CTRL_DIR_FORCE_BOTH =>
           if portEnabled (sm_if sm) && operEdge sm
           then sm_CTRL_DIR_IN_OR_BOTH_Enter sm false else sm
       | CTRL_DIR_IN_OR_BOTH =>
           let sm := if bool_decide (operControlledDirections sm ≠ adminControlledDirections sm)
                     then sm_CTRL_DIR_IN_OR_BOTH_Enter sm false else sm in
           if negb (portEnabled (sm_if sm)) || negb (operEdge sm)
           then sm_CTRL_DIR_FORCE_BOTH_Enter sm false else sm
       end.

(** ** The step function *)
Definition eapol_sm_sta_entry_alive sm : bool := alive (trace sm).

(** The four machines run once; each but the first needs the station. *)
Definition step_machines sm : result :=
  let sm := sm_AUTH_PAE_Step sm in
  sm ← (if initializing sm || eapol_sm_sta_entry_alive sm then sm_BE_AUTH_Step sm else Ret sm);
  let sm := if initializing sm || eapol_sm_sta_entry_alive sm
            then sm_REAUTH_TIMER_Step sm else sm in
  Ret (if initializing sm || eapol_sm_sta_entry_alive sm then sm_CTRL_DIR_Step sm else sm).

Definition same_states sm sm' : bool :=
  bool_decide (auth_pae_state sm = auth_pae_state sm' ∧ be_auth_state sm = be_auth_state sm' ∧
               reauth_timer_state sm = reauth_timer_state sm' ∧
               ctrl_dir_state sm = ctrl_dir_state sm').

Definition run_eap_server sm : option (outcome (bool * eapol_state_machine P)) :=
  match eap_server_sm_step registered cfg alloc_ok rand tries (eap sm) with
  | Some (Ret (res, e)) => Some (Ret (res, sm <| eap := e |>))
  | Some Abort => Some Abort
  | Some Undef => Some Undef
  | None => None
  end.

(** The end of [eapol_sm_step_run], when nothing changed any more. *)
Definition step_end (ran : bool) sm : result :=
  let notify sm := if eapol_sm_sta_entry_alive sm then call sm EvSmChange else sm in
  if ran && aaaEapResp (sm_if sm) then
    let sm := sm <|eif aaaEapResp := false |> in
    match aaaEapRespData (sm_if sm) with
    | None => Ret sm
    | Some b =>
        d ← access (slice (mem b) 0 (used b));
        Ret (notify (emit sm (EvAaaSend d)))
    end
  else Ret (notify sm).

(** [max_steps] passes are left; then the rest is done from the event loop. *)
Fixpoint eapol_sm_step_passes (max_steps : nat) sm : option result :=
  match max_steps with
  | O => Some (Ret (eapol_auth_step sm))
  | Datatypes.S n =>
      match step_machines sm with
      | Ret sm' =>
          if negb (same_states sm sm') then eapol_sm_step_passes n sm'
          else if eapol_sm_sta_entry_alive sm' then
            match run_eap_server sm' with
            | Some (Ret (true, sm')) => eapol_sm_step_passes n sm'
            | Some (Ret (false, sm')) => Some (step_end true sm')
            | Some Abort => Some Abort
            | Some Undef => Some Undef
            | None => None
            end
          else Some (step_end false sm')
      | Abort => Some Abort
      | Undef => Some Undef
      end
  end.

Definition eapol_sm_step_run sm : option result := eapol_sm_step_passes 100 sm.

(** The timeout that [eapol_auth_step] registers. *)
Definition eapol_sm_step_cb sm : option result := eapol_sm_step_run sm.

Definition tick (x : Z) : Z := if bool_decide (0 < x) then x - 1 else x.

Definition eapol_port_timers_tick sm : option result :=
  let sm := sm <| aWhile ::= tick |> <| quietWhile ::= tick |> <| reAuthWhen ::= tick |>
               <| eap ::= λ e, e <| eap_if ::= λ i, i <| retransWhile ::= tick |> |> |> in
  match eapol_sm_step_run sm with
  | Some (Ret sm) => Some (Ret (emit sm EvRegisterTick))
  | r => r
  end.

(** ** Creation *)
Definition eapol_auth_initialize sm : option result :=
  let sm := sm <| initializing := true |> <| initialize := true |> in
  match eapol_sm_step_run sm with
  | Some (Ret sm) =>
      match eapol_sm_step_run (sm <| initialize := false |>) with
      | Some (Ret sm) =>
          Some (Ret (emit (emit (sm <| initializing := false |>) EvCancelTick) EvRegisterTick))
      | r => r
      end
  | r => r
  end.

(** What [eapol_auth_alloc] sets up before it calls [eapol_auth_initialize]; [n] is
    the number of allocations made before. *)
Definition eapol_zero (ctx : auth_ctx) (fl : Z) (n : nat) : eapol_state_machine P :=
  {| aWhile := 0; quietWhile := 0; reAuthWhen := 0; authAbort := false; authFail := false;
     authPortStatus := 0; authStart := false; authTimeout := false; authSuccess := false;
     eapolEap := false; initialize := false; keyDone := false; keyRun := false;
     keyTxEnabled := false; portControl := Auto; portValid := negb (wpa (conf ctx));
     reAuthenticate := false; auth_pae_state := AUTH_PAE_INITIALIZE; eapolLogoff := false;
     eapolStart := false; portMode := 0; reAuthCount := 0; quietPeriod := 60; reAuthMax := 2;
     be_auth_state := BE_AUTH_INITIALIZE; serverTimeout := 30;
     reauth_timer_state := REAUTH_TIMER_INITIALIZE;
     reAuthPeriod := u32 (eap_reauth_period (conf ctx));
     reAuthEnabled := bool_decide (0 < eap_reauth_period (conf ctx));
     ctrl_dir_state := CTRL_DIR_IN_OR_BOTH; adminControlledDirections := Both;
     operControlledDirections := Both; operEdge := false; counters := λ _, 0; flags := fl;
     last_eap_id := 0; eap_type_supp := 0; eap := eap_server_sm_init ctx n;
     initializing := false; sm_changed := false; trace := [] |}.

(** The two allocations are struct eapol_state_machine and struct eap_sm. *)
Definition eapol_auth_alloc (ctx : auth_ctx) (fl : Z) (n : nat) :
    option (outcome (option (eapol_state_machine P))) :=
  if alloc_ok n && alloc_ok (Datatypes.S n) then
    match eapol_auth_initialize (eapol_zero ctx fl (n + 2)) with
    | Some (Ret sm) => Some (Ret (Some sm))
    | Some Abort => Some Abort
    | Some Undef => Some Undef
    | None => None
    end
  else Some (Ret None).

(** ** Other operations *)
Definition eapol_auth_eap_pending_cb sm : eapol_state_machine P :=
  eapol_auth_step (sm <| eap ::= eap_sm_pending_cb |>).

Definition eapol_auth_reauthenticate sm : eapol_state_machine P :=
  eapol_auth_step (sm <| reAuthenticate := true |>).

(** The parameters of [eapol_auth_set_conf] with a value that it accepts; an unknown name
    or value returns [-1] and changes nothing. *)
Inductive auth_param :=
| AdminControlledDirections (d : Z)
| AdminControlledPortControl (c : Z)
| QuietPeriod (n : Z)
| ServerTimeout (n : Z)
| ReAuthPeriod (n : Z)
| ReAuthEnabled (b : bool)
| KeyTransmissionEnabled (b : bool).

Definition eapol_auth_set_param sm (p : auth_param) : eapol_state_machine P :=
  match p with
  | AdminControlledDirections d => eapol_auth_step (sm <| adminControlledDirections := d |>)
  | AdminControlledPortControl c => eapol_auth_step (sm <| portControl := c |>)
  | QuietPeriod n => sm <| quietPeriod := u32 n |>
  | ServerTimeout n => sm <| serverTimeout := u32 n |>
  | ReAuthPeriod n => sm <| reAuthPeriod := u32 n |>
  | ReAuthEnabled b => eapol_auth_step (sm <| reAuthEnabled := b |>)
  | KeyTransmissionEnabled b => eapol_auth_step (sm <| keyTxEnabled := b |>)
  end.
End eapol_auth.

(** ** Names and values of [eapol_auth_set_conf] *)
Definition to_lower (c : Ascii.ascii) : Ascii.ascii :=
  let n := Ascii.N_of_ascii c in
  if bool_decide (65 ≤ n ≤ 90)%N then Ascii.ascii_of_N (n + 32) else c.
Fixpoint os_strcasecmp_eq (a b : string) : bool :=
  match a, b with
  | EmptyString, EmptyString => true
  | String x a, String y b => bool_decide (to_lower x = to_lower y) && os_strcasecmp_eq a b
  | _, _ => false
  end.

Definition digit (c : Ascii.ascii) : option Z :=
  let n := Z.of_N (Ascii.N_of_ascii c) in
  if bool_decide (48 ≤ n ≤ 57) then Some (n - 48) else None.
Fixpoint atoi_digits (s : string) (acc : Z) : Z :=
  match s with
  | String c s => match digit c with Some d => atoi_digits s (10 * acc + d) | None => acc end
  | EmptyString => acc
  end.
(** [atoi] of a number in the range of int: white space, a sign, digits. *)
Fixpoint atoi (s : string) : Z :=
  match s with
  | String c s' =>
      let n := Z.of_N (Ascii.N_of_ascii c) in
      if bool_decide (n = 32 ∨ 9 ≤ n ≤ 13) then atoi s'
      else if bool_decide (n = 45) then - atoi_digits s' 0
      else if bool_decide (n = 43) then atoi_digits s' 0
      else atoi_digits s 0
  | EmptyString => 0
  end.

Definition parse_bool (value : string) : option bool :=
  if bool_decide (value = "TRUE"%string) then Some true
  else if bool_decide (value = "FALSE"%string) then Some false else None.

Definition parse_auth_param (param value : string) : option auth_param :=
  let named p := os_strcasecmp_eq param p in
  let v p := bool_decide (value = p) in
  if named "AdminControlledDirections"%string then
    if v "Both"%string then Some (AdminControlledDirections Both)
    else if v "In"%string then Some (AdminControlledDirections In) else None
  else if named "AdminControlledPortControl"%string then
    if v "ForceAuthorized"%string then Some (AdminControlledPortControl ForceAuthorized)
    else if v "ForceUnauthorized"%string then Some (AdminControlledPortControl ForceUnauthorized)
    else if v "Auto"%string then Some (AdminControlledPortControl Auto) else None
  else if named "quietPeriod"%string then Some (QuietPeriod (atoi value))
  else if named "serverTimeout"%string then Some (ServerTimeout (atoi value))
  else if named "reAuthPeriod"%string then Some (ReAuthPeriod (atoi value))
  else if named "reAuthEnabled"%string then ReAuthEnabled <$> parse_bool value
  else if named "KeyTransmissionEnabled"%string then KeyTransmissionEnabled <$> parse_bool value
  else None.

Definition eapol_auth_set_conf {P} (sm : eapol_state_machine P) (param value : string) :
    Z * eapol_state_machine P :=
  match parse_auth_param param value with
  | Some p => (0, eapol_auth_set_param sm p)
  | None => (-1, sm)
  end.
