(* ===== verification/Ieee8021x.v ===== *)
(** IEEE 802.1X for the access point (src/ap/ieee802_1x.c, src/ap/eap_user_db.c)

    What feeds the machines of [EapolAuth]: EAPOL frames of a station, a new station, and
    the database of EAP users.  [sta_info] is the part of struct sta_info that matters
    here; what the code asks of the RSN authenticator (key management, PMKSA) is in
    it too.  RADIUS, FILS, HS 2.0 and VLANs are not built (src/utils/includes.h). *)
From stdpp Require Import strings.
From S2P Require Import Prelude Bytes Wpabuf Defs AuthSm EapCommon EapServer EapolAuth.

(** ** EAP users *)

(** struct hostapd_eap_user without its link; the list of users is [conf->eap_user]. *)
Record hostapd_eap_user := mk_hu {
  hu_identity : option (list Z);
  hu_methods : list (Z * Z);
  hu_password : option (list Z);
  hu_salt : option (list Z);
  hu_phase2 : bool;
  hu_wildcard_prefix : bool;
  hu_password_hash : bool;
  hu_remediation : bool;
}.

(** The members of struct hostapd_bss_config that are used here. *)
Record bss_config := mk_bss {
  ieee802_1x : bool;
  bss_wpa : bool;
  osen : bool;
  wps_state : bool;
  ap_pin : option (list Z);
  eap_user_list : list hostapd_eap_user;
}.

Definition octets_of (s : string) : list Z :=
  map (λ c, Z.of_N (Ascii.N_of_ascii c)) (String.list_ascii_of_string s).
Definition WSC_ID_REGISTRAR : list Z := octets_of "WFA-SimpleConfig-Registrar-1-0".
Definition WSC_ID_ENROLLEE : list Z := octets_of "WFA-SimpleConfig-Enrollee-1-0".

(** A user with one method, as [os_memset] and one assignment leave it. *)
Definition wsc_user (me : Z * Z) (pw : option (list Z)) : hostapd_eap_user :=
  mk_hu None (me :: replicate 7 (0, 0)) pw None false false false false.

Definition user_matches (identity : list Z) (ph2 : bool) (u : hostapd_eap_user) : bool :=
  let own := default [] (hu_identity u) in
  (negb ph2 && bool_decide (hu_identity u = None)) ||
  (bool_decide (hu_phase2 u = ph2) && hu_wildcard_prefix u &&
   bool_decide (blen own ≤ blen identity) && bool_decide (take (length own) identity = own)) ||
  (bool_decide (hu_phase2 u = ph2) && bool_decide (own = identity)).

(** [wsc] is the type of the method named WSC. *)
Definition hostapd_get_eap_user (c : bss_config) (wsc : Z * Z) (identity : list Z) (ph2 : bool) :
    option hostapd_eap_user :=
  if wps_state c && bool_decide (identity = WSC_ID_ENROLLEE) then Some (wsc_user wsc None)
  else if wps_state c && bool_decide (identity = WSC_ID_REGISTRAR)
  then Some (wsc_user wsc (ap_pin c))
  else List.find (user_matches identity ph2) (eap_user_list c).

(** A copy of a password or salt; the number counts the allocations. *)
Definition memdup (memdup_ok : nat → bool) (n : nat) (d : list Z) : option (list Z) * nat :=
  (if memdup_ok n then Some d else None, Datatypes.S n).

Definition ieee802_1x_get_eap_user (c : bss_config) (wsc : Z * Z) (memdup_ok : nat → bool)
    (n : nat) (identity : list Z) (ph2 : bool) (u : eap_user) : bool * eap_user * nat :=
  match hostapd_get_eap_user c wsc identity ph2 with
  | None => (false, u, n)
  | Some h =>
      let u := zero_user <| phase2 := ph2 |> <| methods := hu_methods h |> in
      let last u := u <| remediation := hu_remediation h |> in
      match hu_password h with
      | None => (true, last u, n)
      | Some pw =>
          let (d, n) := memdup memdup_ok n pw in
          let u := u <| password := d |> in
          match d with
          | None => (false, u, n)
          | Some _ =>
              let u := u <| password_hash := hu_password_hash h |> in
              match hu_salt h with
              | None | Some [] => (true, last u, n)
              | Some salt =>
                  let (d, n) := memdup memdup_ok n salt in
                  match d with
                  | None => (false, u, n)
                  | Some _ => (true, last u, n)
                  end
              end
          end
      end
  end.

(** ** Stations *)
Definition WLAN_STA_AUTH := BIT 0.
Definition WLAN_STA_ASSOC := BIT 1.
Definition WLAN_STA_PREAUTH := BIT 8.
Definition WLAN_STA_WPS := BIT 12.
Definition WLAN_STA_MAYBE_WPS := BIT 13.
Definition WLAN_STA_WPS2 := BIT 16.
Definition WLAN_AUTH_FT := 2.

Definition sizeof_ieee802_1x_hdr := 4.
Definition sizeof_ieee802_1x_eapol_key := 44.
Definition EAPOL_KEY_TYPE_RSN := 2.
Definition EAPOL_KEY_TYPE_WPA := 254.

Record sta_info (P : Type) := mk_sta {
  sta_flags : Z;
  auth_alg : Z;
  eapol_sm : option (eapol_state_machine P);
  pending_eapol_rx : option (list Z);
  (** [wpa_auth_sta_key_mgmt(sta->wpa_sm)]; [None] when there is no [wpa_sm] *)
  sta_key_mgmt : option Z;
  (** [wpa_auth_sta_get_pmksa(sta->wpa_sm)] is not [NULL] *)
  sta_pmksa : bool;
}.
Arguments sta_flags {P}. Arguments auth_alg {P}. Arguments eapol_sm {P}.
Arguments pending_eapol_rx {P}. Arguments sta_key_mgmt {P}. Arguments sta_pmksa {P}.
#[export] Instance eta_sta_info P : Eta (sta_info P) := λ s,
  mk_sta P (sta_flags s) (auth_alg s) (eapol_sm s) (pending_eapol_rx s) (sta_key_mgmt s)
    (sta_pmksa s).

(** What became of a received frame. *)
Inductive rx_result := RxDropped | RxSaved | RxWpa (frame : list Z) | RxHandled.

Section ieee802_1x.
Context {P : Type}.
Variable registered : list (eap_method auth_ctx P).
Variable cfg : eap_config.
Variable alloc_ok : nat → bool.
Variable rand : nat → Z.
Variable tries : nat.
Variable alive : list auth_event → bool.
Variable reaction : list auth_event → list (eapol_variable * bool).
(** struct hostapd_bss_config, and whether the driver is for a wired interface *)
Variable bss : bss_config.
Variable wired : bool.
(** struct eapol_authenticator of the access point, for the callbacks of a new machine *)
Variable auth_conf : auth_ctx.

Implicit Types sm : eapol_state_machine P.
Implicit Types sta : sta_info P.

Definition eap_malloc sm : bool * eapol_state_machine P :=
  let (ok, v) := malloc alloc_ok (mv (eap sm)) in (ok, sm <| eap ::= λ e, e <| mv := v |> |>).

(** The frame that [ieee802_1x_send] gives to the driver; [version] is that of the
    configuration. *)
Definition ieee802_1x_send (version type : Z) (data : list Z) : list Z :=
  [u8 version; u8 type] ++ be16_bytes (u16 (blen data)) ++ data.

(** *** Reception of EAP packets; a packet is its octets in the frame *)
Definition handle_eap_response sm (e : list Z) (len : Z) : outcome (eapol_state_machine P) :=
  if bool_decide (len < sizeof_eap_hdr + 1) then Ret sm
  else
    ty ← access (rd e 4);
    let sm := count dot1xAuthEapolRespFramesRx (sm <| eap_type_supp := ty |>) in
    let (ok, sm) := eap_malloc sm in
    d ← access (slice e 0 len);
    b ← wpabuf_alloc_copy ok (Some d) len;
    Ret (sm <|eif eapRespData := b |> <| eapolEap := true |>).

(** ERP is not built: an EAP-Initiate packet is ignored. *)
Definition handle_eap_initiate sm (e : list Z) (len : Z) : eapol_state_machine P := sm.

Definition handle_eap sm (buf : list Z) (len : Z) : outcome (eapol_state_machine P) :=
  if bool_decide (len < sizeof_eap_hdr) then Ret sm
  else
    eap_len ← access (WPA_GET_BE16 buf 2);
    if bool_decide (eap_len < sizeof_eap_hdr) then Ret sm
    else if bool_decide (len < eap_len) then Ret sm
    else
      code ← access (rd buf 0);
      if bool_decide (code = EAP_CODE_RESPONSE) then handle_eap_response sm buf eap_len
      else if bool_decide (code = EAP_CODE_INITIATE)
      then Ret (handle_eap_initiate sm buf eap_len) else Ret sm.

(** *** New machines *)
Definition sta_has sta (f : Z) : bool := bool_decide (Z.land (sta_flags sta) f ≠ 0).

Definition ieee802_1x_alloc_eapol_sm sta (n : nat) :
    option (outcome (option (eapol_state_machine P))) :=
  let fl := if sta_has sta WLAN_STA_PREAUTH then EAPOL_SM_PREAUTH else 0 in
  let fl := match sta_key_mgmt sta with
            | Some _ =>
                let fl := Z.lor fl EAPOL_SM_USES_WPA in
                if sta_pmksa sta then Z.lor fl EAPOL_SM_FROM_PMKSA_CACHE else fl
            | None => fl
            end in
  eapol_auth_alloc registered cfg alloc_ok rand tries alive reaction auth_conf fl n.

(** The station does not use the EAPOL machines. *)
Definition uses_psk sta : bool :=
  match sta_key_mgmt sta with
  | Some k => wpa_key_mgmt_wpa_psk k || bool_decide (k = WPA_KEY_MGMT_OWE) ||
              bool_decide (k = WPA_KEY_MGMT_DPP)
  | None => false
  end.

Definition ieee802_1x_free_station sta : sta_info P :=
  sta <| pending_eapol_rx := None |> <| eapol_sm := None |>.

Definition ieee802_1x_save_eapol sta (buf : list Z) (ok : bool) : sta_info P :=
  sta <| pending_eapol_rx := if ok then Some buf else None |>.

(** *** Reception of EAPOL frames *)

(** The [switch] of [ieee802_1x_receive], and [eapol_auth_step] after it. *)
Definition receive_eapol sta sm (type : Z) (data : list Z) (len : Z) :
    outcome (sta_info P) :=
  '(sta, sm) ← (
    if bool_decide (type = IEEE802_1X_TYPE_EAP_PACKET) then
      sm ← handle_eap sm data len; Ret (sta, sm)
    else if bool_decide (type = IEEE802_1X_TYPE_EAPOL_START) then
      let sm := sm <| flags ::= λ f, Z.ldiff f EAPOL_SM_WAIT_START |> in
      let sta := sta <| sta_pmksa := false |> in
      let sm := count dot1xAuthEapolStartFramesRx (sm <| eapolStart := true |>) in
      let sm := sm <| eap ::= λ e, e <| mv ::= eap_server_clear_identity |> |> in
      Ret (sta, call reaction sm EvWpaReauth)
    else if bool_decide (type = IEEE802_1X_TYPE_EAPOL_LOGOFF) then
      let sm := count dot1xAuthEapolLogoffFramesRx (sm <| eapolLogoff := true |>) in
      let sm := sm <| eap ::= λ e, e <| mv ::= eap_server_clear_identity |> |> in
      Ret (sta, sm)
    else if bool_decide (type = IEEE802_1X_TYPE_EAPOL_KEY ∨
                         type = IEEE802_1X_TYPE_EAPOL_ENCAPSULATED_ASF_ALERT)
    then Ret (sta, sm)
    else Ret (sta, count dot1xAuthInvalidEapolFramesRx sm));
  Ret (sta <| eapol_sm := Some (eapol_auth_step sm) |>).

(** The machine of a station that sent a frame before it had one. *)
Definition receive_sm sta (n : nat) : option (outcome (option (eapol_state_machine P))) :=
  match eapol_sm sta with
  | Some sm => Some (Ret (Some sm))
  | None =>
      match ieee802_1x_alloc_eapol_sm sta n with
      | Some (Ret (Some sm)) =>
          let wflags := Z.land (sta_flags sta)
                          (Z.lor (Z.lor WLAN_STA_WPS WLAN_STA_WPS2) WLAN_STA_MAYBE_WPS) in
          let sm := if negb (ieee802_1x bss) && wps_state bss &&
                       bool_decide (wflags = WLAN_STA_MAYBE_WPS ∨
                                    wflags = Z.lor WLAN_STA_WPS WLAN_STA_MAYBE_WPS)
                    then sm <| flags ::= λ f, Z.lor f EAPOL_SM_WAIT_START |> else sm in
          Some (Ret (Some (sm <|eif portEnabled := true |>)))
      | r => r
      end
  end.

Definition receive_enabled : bool := ieee802_1x bss || bss_wpa bss || osen bss || wps_state bss.

(** The counters of the header; the frame was long enough for it. *)
Definition count_frame (version : Z) sm : eapol_state_machine P :=
  count dot1xAuthEapolFramesRx
    (sm <| counters ::= λ f c, if bool_decide (c = dot1xAuthLastEapolFrameVersion) then version
                               else f c |>).

(** [None] for a station that is not known; [save_ok] is the answer to the allocations of
    [ieee802_1x_save_eapol], [n] counts the allocations before those of a new machine. *)
Definition ieee802_1x_receive (save_ok : bool) (n : nat) (found : option (sta_info P))
    (buf : list Z) : option (outcome (rx_result * option (sta_info P))) :=
  let len := blen buf in
  if negb receive_enabled then Some (Ret (RxDropped, found))
  else
    match found with
    | None => Some (Ret (RxDropped, None))
    | Some sta =>
        let drop := Some (Ret (RxDropped, Some sta)) in
        if negb (sta_has sta (Z.lor WLAN_STA_ASSOC WLAN_STA_PREAUTH)) && negb wired then
          if sta_has sta WLAN_STA_AUTH
          then Some (Ret (RxSaved, Some (ieee802_1x_save_eapol sta buf save_ok))) else drop
        else if bool_decide (len < sizeof_ieee802_1x_hdr) then drop
        else
          match rd buf 0, rd buf 1, WPA_GET_BE16 buf 2 with
          | Some version, Some type, Some datalen =>
              if bool_decide (len - sizeof_ieee802_1x_hdr < datalen) then
                Some (Ret (RxDropped, Some
                  (sta <| eapol_sm ::= fmap (count dot1xAuthEapLengthErrorFramesRx) |>)))
              else
                let sta := sta <| eapol_sm ::= fmap (count_frame version) |> in
                let is_key := bool_decide (sizeof_ieee802_1x_eapol_key ≤ datalen) &&
                              bool_decide (type = IEEE802_1X_TYPE_EAPOL_KEY) in
                match (if is_key then
                         t ← rd buf sizeof_ieee802_1x_hdr;
                         Some (bool_decide (t = EAPOL_KEY_TYPE_WPA ∨ t = EAPOL_KEY_TYPE_RSN))
                       else Some false) with
                | None => Some Undef
                | Some true =>
                    Some (d ← access (slice buf 0 (sizeof_ieee802_1x_hdr + datalen));
                          Ret (RxWpa d, Some sta))
                | Some false =>
                    if negb (ieee802_1x bss) && negb (osen bss) &&
                       negb (sta_has sta (Z.lor WLAN_STA_WPS WLAN_STA_MAYBE_WPS))
                    then Some (Ret (RxDropped, Some sta))
                    else if uses_psk sta then Some (Ret (RxDropped, Some sta))
                    else
                      match receive_sm sta n with
                      | Some (Ret (Some sm)) =>
                          Some (data ← access (slice buf sizeof_ieee802_1x_hdr datalen);
                                sta ← receive_eapol sta sm type data datalen;
                                Ret (RxHandled, Some sta))
                      | Some (Ret None) => Some (Ret (RxDropped, Some sta))
                      | Some Abort => Some Abort
                      | Some Undef => Some Undef
                      | None => None
                      end
                end
          | _, _, _ => Some Undef
          end
    end.

(** *** Stations that associate *)

(** The machines as after an authentication, with the EAP machine in SUCCESS. *)
Definition already_authenticated sm : eapol_state_machine P :=
  let sm := sm <| keyRun := true |> <|eif eapKeyAvailable := true |>
               <| auth_pae_state := AUTH_PAE_AUTHENTICATING |>
               <| be_auth_state := BE_AUTH_SUCCESS |> <| authSuccess := true |>
               <| authFail := false |> in
  sm <| eap ::= eap_sm_notify_cached |>.

(** [ieee802_1x_new_station] for a machine; [reassoc] when it is not new. *)
Definition start_station sta (reassoc : bool) sm : eapol_state_machine P :=
  let sm := sm <| flags ::= λ f, Z.ldiff f EAPOL_SM_WAIT_START |> in
  let sm := if negb (ieee802_1x bss) && wps_state bss && negb (sta_has sta WLAN_STA_WPS2)
            then sm <| flags ::= λ f, Z.lor f EAPOL_SM_WAIT_START |> else sm in
  let sm := sm <|eif portEnabled := true |> in
  if bool_decide (auth_alg sta = WLAN_AUTH_FT)
  then (already_authenticated sm) <| portValid := true |>
  else if sta_pmksa sta then already_authenticated sm
  else eapol_auth_step (if reassoc then sm <| reAuthenticate := true |> else sm).

Definition ieee802_1x_new_station sta (n : nat) : option (outcome (sta_info P)) :=
  let force_1x := wps_state bss && ((bss_wpa bss && sta_has sta WLAN_STA_MAYBE_WPS) ||
                                    sta_has sta WLAN_STA_WPS) in
  if negb force_1x && negb (ieee802_1x bss) && negb (osen bss)
  then Some (Ret (ieee802_1x_free_station sta))
  else if uses_psk sta then Some (Ret (ieee802_1x_free_station sta))
  else
    match eapol_sm sta with
    | Some sm => Some (Ret (sta <| eapol_sm := Some (start_station sta true sm) |>))
    | None =>
        match ieee802_1x_alloc_eapol_sm sta n with
        | Some (Ret (Some sm)) =>
            Some (Ret (sta <| eapol_sm := Some (start_station sta false sm) |>))
        | Some (Ret None) => Some (Ret sta)
        | Some Abort => Some Abort
        | Some Undef => Some Undef
        | None => None
        end
    end.
End ieee802_1x.
