(* ===== verification/Ieee8021xExample.v ===== *)
(** An access point and a station that authenticate with EAP

    The EAPOL and EAP machines of both ends exchange their frames: the authenticator of
    [EapolAuth] and [EapServer] with the methods Identity and MD5-Challenge, and the
    supplicant of [EapolSupp] and [EapPeer].  MD5 is replaced by a function that keeps the
    first sixteen octets of its input, so that different passwords differ. *)
From stdpp Require Import strings.
From S2P Require Import Prelude Bytes Wpabuf Defs AuthSm EapCommon EapPeer EapolSupp EapServer EapPeerMd5 EapMethods EapolAuth Ieee8021x.

Definition toy_md5 (x : list Z) : option (list Z) := Some (take 16 (x ++ replicate 16 0)).

(** ** The station *)
Module Station.
Import EapPeer EapolSupp.

(** The private data of the method are the password of the configuration. *)
Definition md5_process (v : method_vars) (pw : list Z) (ret : eap_method_ret) (req : wpabuf) :
    method_vars * list Z * eap_method_ret * option wpabuf :=
  match EapPeerMd5.eap_md5_process toy_md5 true (Some pw) ret req with
  | Ret (ret, resp) => (v, pw, ret, resp)
  | _ => (v, pw, mk_ret true (ret_methodState ret) (ret_decision ret) false, None)
  end.

Definition md5_method (pw : list Z) : eap_method (list Z) := {|
  vendor := EAP_VENDOR_IETF; method := EAP_TYPE_MD5;
  init v := (v, Some pw); deinit v p := v; process := md5_process;
  isKeyAvailable := None; getKey := None; has_reauth_data := None;
  deinit_for_reauth p := p; init_for_reauth v p := (v, Some p); get_identity := None;
  get_error_code := None; getSessionId := None |}.

Definition world := eap_sm eapol_sm (list Z).
Definition yes (_ : list eapol_event) := true.
Definition no (_ : list eapol_event) := false.
Definition do_call (pw : list Z) (w : world) (c : eapol_call) : outcome world :=
  eapol_do yes no [md5_method pw] (λ x, x) (λ _, true) w c.

Definition alice : eap_peer_config :=
  mk_config 1 None (Some (octets_of "alice")) None None false None 0 0 0.

(** A new interface, with its configuration, that associates. *)
Definition associated (pw : list Z) : outcome world :=
  w ← eapol_sm_init yes no [md5_method pw] (λ x, x) (λ _, true) false 0;
  w ← do_call pw w (CallConfig (Some alice) (Some (mk_eapol_config false 0 false false false 0)));
  w ← do_call pw w (CallPortValid true);
  do_call pw w (CallPortEnabled true).

Definition sent (w : world) : list (Z * list Z) :=
  omap (λ e, match e with EvSend t d => Some (t, d) | _ => None end) (rev (trace (eapol_ctx w))).
Definition port_open (w : world) : bool :=
  bool_decide (suppPortStatus (eapol_ctx w) = EapolSupp.Authorized).
Definition pae (w : world) : supp_pae_state := SUPP_PAE_state (eapol_ctx w).
End Station.

(** ** The access point *)
Module Ap.
Definition registered : list (eap_method auth_ctx method_data) :=
  [eap_server_identity (λ _, true);
   eap_server_md5 (λ _, true) (λ n, Some (map (λ i, u8 (Z.of_nat n + i)) (seqZ 1 16))) toy_md5].
Definition cfg : eap_config := mk_config false true 100 50.
Definition alice : hostapd_eap_user :=
  mk_hu (Some (octets_of "alice")) ((0, EAP_TYPE_MD5) :: replicate 7 (0, 0))
    (Some (octets_of "secret")) None false false false false.
Definition bss : bss_config := mk_bss true false false false None [alice].
Definition ctx : auth_ctx :=
  mk_ctx (mk_auth_config 0 false (Some (octets_of "hello")) false None)
    (ieee802_1x_get_eap_user bss (0, 0) (λ _, true)) 0 false.
Definition machine := eapol_state_machine method_data.

Definition alive (_ : list auth_event) := true.
Definition reaction (_ : list auth_event) : list (eapol_variable * bool) := [].

Definition new_sta : sta_info method_data :=
  mk_sta _ (Z.lor WLAN_STA_AUTH WLAN_STA_ASSOC) 0 None None None false.
Definition step (sta : sta_info method_data) : option (sta_info method_data) :=
  sm ← eapol_sm sta;
  match eapol_sm_step_cb registered cfg (λ _, true) (λ _, 7) 10 alive reaction sm with
  | Some (Ret sm) => Some (sta <| eapol_sm := Some sm |>)
  | _ => None
  end.
Definition start : option (sta_info method_data) :=
  match ieee802_1x_new_station registered cfg (λ _, true) (λ _, 7) 10 alive reaction bss ctx
          new_sta 0 with
  | Some (Ret sta) => step sta
  | _ => None
  end.
Definition receive (sta : sta_info method_data) (buf : list Z) :
    option (sta_info method_data) :=
  match ieee802_1x_receive registered cfg (λ _, true) (λ _, 7) 10 alive reaction bss false ctx
          true 0 (Some sta) buf with
  | Some (Ret (_, Some sta)) => step sta
  | _ => None
  end.
Definition sent (sta : sta_info method_data) : list (Z * list Z) :=
  match eapol_sm sta with
  | Some sm => omap (λ e, match e with EvSend t d => Some (t, d) | _ => None end) (rev (trace sm))
  | None => []
  end.
End Ap.

(** ** The link *)
Record link := mk_link {
  ap : sta_info method_data;
  station : Station.world;
  ap_delivered : nat;
  station_delivered : nat;
}.
#[export] Instance eta_link : Eta link := λ l,
  mk_link (ap l) (station l) (ap_delivered l) (station_delivered l).

Definition frame (f : Z * list Z) : list Z := ieee802_1x_send 2 f.1 f.2.
Definition bssid : list Z := [2; 0; 0; 0; 0; 1].

(** Frames that were not delivered yet go to the other end. *)
Definition to_station (pw : list Z) (l : link) : option link :=
  let fs := drop (ap_delivered l) (Ap.sent (ap l)) in
  w ← foldr (λ f k w, match Station.do_call pw w (CallRx bssid (frame f)) with
                      | Ret w => k w
                      | _ => None
                      end) Some fs (station l);
  Some (l <| station := w |> <| ap_delivered := length (Ap.sent (ap l)) |>).

Definition to_ap (l : link) : option link :=
  let fs := drop (station_delivered l) (Station.sent (station l)) in
  a ← foldr (λ f k a, a ← Ap.receive a (frame f); k a) Some fs (ap l);
  Some (l <| ap := a |> <| station_delivered := length (Station.sent (station l)) |>).

Fixpoint rounds (n : nat) (pw : list Z) (l : link) : option link :=
  match n with
  | O => Some l
  | Datatypes.S n => l ← to_station pw l; l ← to_ap l; rounds n pw l
  end.

(** The station associates and both ends exchange what they send. *)
Definition authentication (n : nat) (pw : list Z) : option link :=
  a ← Ap.start;
  match Station.associated pw with
  | Ret w => rounds n pw (mk_link a w 0 0)
  | _ => None
  end.

Definition ap_state (l : link) : option (auth_pae_states * Z) :=
  sm ← eapol_sm (ap l); Some (auth_pae_state sm, authPortStatus sm).


(** The two ports, and where the two PAE machines are. *)
Definition outcome_of (l : link) : option (auth_pae_states * Z * EapolSupp.supp_pae_state * bool) :=
  sm ← eapol_sm (ap l);
  Some (auth_pae_state sm, authPortStatus sm, Station.pae (station l),
        Station.port_open (station l)).

(** An access point and a station that run their EAPOL and EAP machines against each
    other come to an end, and to the same end: with the password of the database both
    ports are open after six exchanges and both machines are in their state
    AUTHENTICATED; with any of three other passwords (of another length, a prefix of it,
    with one octet changed) both ports are closed and both machines are in HELD. *)
Example authentication_opens_both_ports_or_none :
  (l ← authentication 6 (octets_of "secret"); outcome_of l) =
    Some (AUTH_PAE_AUTHENTICATED, EapolAuth.Authorized, EapolSupp.SUPP_PAE_AUTHENTICATED, true) ∧
  Forall (λ pw, (l ← authentication 6 (octets_of pw); outcome_of l) =
    Some (AUTH_PAE_HELD, EapolAuth.Unauthorized, EapolSupp.SUPP_PAE_HELD, false))
    ["guess"%string; "secre"%string; "sEcret"%string].
Proof. split; [by vm_compute|]. repeat constructor; by vm_compute. Qed.

(** ** A frame that stops the access point *)
Module Erp.
(** The access point sends EAP-Initiate/Re-auth-Start. *)
Definition ctx : auth_ctx := Ap.ctx <| conf ::= λ c, mk_auth_config 0 false None true None |>.
Definition start : option (sta_info method_data) :=
  match ieee802_1x_new_station Ap.registered Ap.cfg (λ _, true) (λ _, 7) 10 Ap.alive Ap.reaction
          Ap.bss ctx Ap.new_sta 0 with
  | Some (Ret sta) => Ap.step sta
  | _ => None
  end.
(** A frame arrives and the timeout for a step runs. *)
Definition receive (sta : sta_info method_data) (buf : list Z) :
    option (outcome (eapol_state_machine method_data)) :=
  match ieee802_1x_receive Ap.registered Ap.cfg (λ _, true) (λ _, 7) 10 Ap.alive Ap.reaction
          Ap.bss false ctx true 0 (Some sta) buf with
  | Some (Ret (_, Some sta)) =>
      sm ← eapol_sm sta;
      eapol_sm_step_cb Ap.registered Ap.cfg (λ _, true) (λ _, 7) 10 Ap.alive Ap.reaction sm
  | _ => None
  end.
End Erp.

(** C40: An access point that is configured to send EAP-Initiate/Re-auth-Start can be made
    to call through a null pointer by one frame: to its first packet (code 5, identifier
    7) a station answers with an EAP response of five octets, and SM_STATE(EAP,
    INTEGRITY_CHECK) reads [sm->m->check] before any method was chosen. *)
Theorem reauth_start_answer_stops_the_server :
  (sta ← Erp.start; Some (Ap.sent sta)) = Some [(0, [5; 7; 0; 6; 1; 0])] ∧
  (sta ← Erp.start; Erp.receive sta (frame (0, [2; 7; 0; 5; 0]))) = Some Undef.
Proof. split; by vm_compute. Qed.
