(* ===== verification/EapolAuthProofs.v ===== *)
(** Properties of the EAPOL machines of the authenticator

    - what a station sends, and what the callbacks do, never makes the program stop or
      leave a buffer ([auth_inv] is kept by every operation);
    - the machine AUTH_PAE reaches AUTHENTICATED only when EAP succeeded.

    The EAP server is used through what its step function promises ([server_steps]). *)
From stdpp Require Import strings.
From S2P Require Import Prelude Bytes Wpabuf AuthSm EapCommon EapServer EapServerProofs EapServerStep EapolAuth.

(** ** The interface to the EAP server *)

(** The configuration that [eapol_cb] reads is sane. *)
Definition auth_ctx_ok (c : auth_ctx) : Prop :=
  (∀ n id ph2 f u n', cb_get_eap_user c n id ph2 zero_user = (f, u, n') → user_ok u) ∧
  (∀ t, eap_req_id_text (conf c) = Some t → blen t ≤ 65523) ∧
  erp_send_reauth_start (conf c) = false.

#[export] Program Instance auth_ctx_spec : EapolCallbacksSpec auth_ctx :=
  {| ctx_ok := auth_ctx_ok |}.
Next Obligation.
  intros s i p f u s' (Hu & Ht & Hr). unfold get_eap_user. simpl. unfold eapol_sm_get_eap_user.
  destruct (cb_get_eap_user s (n_memdup s) i p zero_user) as [[ret u'] n'] eqn:E.
  intros [= <- <- <-]. split; [by eapply Hu|]. destruct (remediation u'); by split_and!.
Qed.
Next Obligation. intros s t (_ & Ht & _). apply Ht. Qed.
Next Obligation. by intros s (_ & _ & Hr). Qed.

Section server.
Context {S P : Type} `{EapolCallbacksSpec S} {Pend : MayPend} {Back : Backend}.
Variable registered : list (eap_method S P).
Variable cfg : eap_config.
Variable Pinv : P → Prop.
Abbreviation eap_ok := (eap_ok registered cfg Pinv).

Definition server_fine (e : eap_sm S P) : Prop := eap_ok e ∧ settled cfg e.

(** The lower layer may set its own variables and bring a message. *)
Lemma lower_fine e i :
  msg_ok (eapRespData i) → eapReqData i = eapReqData (eap_if e) →
  aaa_ok i → eapSuccess i = eapSuccess (eap_if e) →
  aaaSuccess i = aaaSuccess (eap_if e) → server_fine e → server_fine (e <| eap_if := i |>).
Proof.
  intros Hr Eq ? Es Eas [[? ? ? ? ? ? ? Hact Hsuc] Hset]. split; [|exact Hset].
  split; try done.
  - change (buf_ok (eapReqData i)). by rewrite Eq.
  - change (aaaSuccess i = true → backend = true). by rewrite Eas.
  - destruct Hact as (? & ? & _ & ? & ? & ?). split_and!; try done.
    intros Hst Hl. specialize (Hset Hst). unfold settled in Hset.
    change (over_rounds cfg e || over_short cfg e = false) in Hl. congruence.
  - destruct Hsuc as [Hs1 Hs2]. split; [exact Hs1|].
    change (eapSuccess i = true →
      EAP_state e ∈ [EAP_SUCCESS; EAP_SUCCESS2; EAP_DISABLED; EAP_FAILURE] ∧
      (method_succeeded e ∨ aaaSuccess i = true)).
    rewrite Es, Eas. exact Hs2.
Qed.

(** Variables that methods share may be set too. *)
Lemma vars_fine e v : vars_ok v → server_fine e → server_fine (e <| mv := v |>).
Proof. intros Hv [[] ?]. split; [|done]. by split. Qed.

Lemma notify_cached_fine e : server_fine e → server_fine (eap_sm_notify_cached e).
Proof.
  intros [[? ? ? ? ? ? ? Hact Hsuc] Hset]. split; [|done]. split; try done.
  destruct Hsuc as [_ H2]. split; [done|].
  change (eapSuccess (eap_if (eap_sm_notify_cached e))) with (eapSuccess (eap_if e)).
  intros Hs. destruct (H2 Hs) as [_ Hv]. split; [|exact Hv]. apply list_elem_of_In. by left.
Qed.

Lemma pending_cb_fine e : server_fine e → server_fine (eap_sm_pending_cb e).
Proof.
  intros He. unfold eap_sm_pending_cb. case_bool_decide as Hp; [|done].
  apply vars_fine; [|done]. destruct He as [He _]. destruct (ok_vars _ _ _ _ He) as [? ? ? Hq].
  split; try done. destruct Hq as [Hq|Hq]; [by left|congruence].
Qed.

Lemma init_fine ctx n : ctx_ok ctx → server_fine (eap_server_sm_init ctx n).
Proof.
  intros Hc. split; [|done]. split; try done. split; [done|done| |by right].
  change (0 ≤ 0 ≤ EAP_MAX_METHODS). unfold EAP_MAX_METHODS. lia.
Qed.
End server.

(** ** What the calls leave alone *)
Section calm.
Context {P : Type}.
Variable alive : list auth_event → bool.
Variable reaction : list auth_event → list (eapol_variable * bool).
Implicit Types sm : eapol_state_machine P.

(** The members of struct eap_sm but for [eap_if], and what the EAP machine set in there. *)
Definition eap_rest (e : eap_sm auth_ctx P) :=
  (EAP_state e, MaxRetrans e, currentMethod e, currentId e, methodState e, retransCount e,
   lastReqData e, methodTimeout e, rxResp e, rxInitiate e, respId e, respMethod e,
   respVendor e, respVendorMethod e, ignore e, decision e, m e, changed e, eap_method_priv e,
   lastId e, num_rounds e, num_rounds_short e, start_reauth e, initiate_reauth_start_sent e,
   try_initiate_reauth e, mv e).
Definition if_view (i : eap_eapol_interface) :=
  (eapRespData i, eapReqData i, aaaEapReqData i, aaaEapRespData i, eapSuccess i, aaaSuccess i, eapRestart i).

Lemma eap_rest_eq e e' : eap_rest e' = eap_rest e → e' = e <| eap_if := eap_if e' |>.
Proof. destruct e, e'. unfold eap_rest. simpl. intros [=]. by subst. Qed.

(** What only calls and the machine of the timer change. *)
Definition still sm := (portEnabled (sm_if sm), reauth_timer_state sm).

Lemma still_fields sm0 sm :
  still sm = still sm0 → portEnabled (sm_if sm) = portEnabled (sm_if sm0) ∧
                         reauth_timer_state sm = reauth_timer_state sm0.
Proof. intros E. split; [exact (f_equal fst E)|exact (f_equal snd E)]. Qed.

(** The variables that the invariant is about. *)
Definition view sm :=
  (auth_pae_state sm, portMode sm, authAbort sm, authSuccess sm, initialize sm,
   eap_rest (eap sm), if_view (sm_if sm)).

Definition calm sm0 sm : Prop :=
  view sm = view sm0 ∧ (portControl sm = portControl sm0 ∨ portControl sm = Auto).

Lemma calm_refl sm : calm sm sm.
Proof. split; [done|by left]. Qed.

Lemma calm_trans sm0 sm1 sm : calm sm0 sm1 → calm sm1 sm → calm sm0 sm.
Proof. intros [E1 H1] [E2 H2]. split; [congruence|]. destruct H2; [|by right]. by rewrite H. Qed.

Lemma calm_set_eapol sm0 sm var b :
  calm sm0 sm → calm sm0 (hostapd_wpa_auth_set_eapol sm var b).
Proof. intros Hc. destruct var; try exact Hc. split; [apply Hc|by right]. Qed.

Lemma calm_react sm0 sm : calm sm0 sm → calm sm0 (react reaction sm).
Proof.
  unfold react. generalize (reaction (trace sm)). intros l. revert sm.
  induction l as [|[var b] l IH]; intros sm Hc; [done|]. simpl. by apply IH, calm_set_eapol.
Qed.

Lemma calm_call sm0 sm e : calm sm0 sm → calm sm0 (call reaction sm e).
Proof. intros Hc. apply calm_react. exact Hc. Qed.

Lemma calm_finished sm0 sm b : calm sm0 sm → calm sm0 (finished reaction sm b).
Proof. apply calm_call. Qed.

Lemma calm_count_if sm0 sm b c : calm sm0 sm → calm sm0 (count_if b c sm).
Proof. intros Hc. by destruct b. Qed.

Lemma calm_pae_entry sm0 sm g st :
  calm sm0 (sm <| auth_pae_state := st |>) → calm sm0 (PAE_ENTRY sm g st).
Proof. intros Hc. unfold PAE_ENTRY. by destruct (_ || _). Qed.

Lemma calm_be_entry sm0 sm g st :
  calm sm0 sm → calm sm0 (BE_ENTRY sm g st).
Proof. intros Hc. unfold BE_ENTRY. by destruct (_ || _). Qed.

Lemma calm_reauth_entry sm0 sm g st : calm sm0 sm → calm sm0 (REAUTH_ENTRY sm g st).
Proof. intros Hc. unfold REAUTH_ENTRY. by destruct (_ || _). Qed.

Lemma calm_ctrl_entry sm0 sm g st : calm sm0 sm → calm sm0 (CTRL_ENTRY sm g st).
Proof. intros Hc. unfold CTRL_ENTRY. by destruct (_ || _). Qed.

Lemma calm_abort_auth sm0 sm : calm sm0 sm → calm sm0 (ieee802_1x_abort_auth reaction sm).
Proof.
  intros Hc. unfold ieee802_1x_abort_auth. destruct (eapTimeout _); [|done].
  apply (calm_call sm0 (sm <|eif portEnabled := false |>) EvDisconnect). exact Hc.
Qed.
End calm.

(** Walks back through calls, and ends at assignments. *)
Ltac calm_walk :=
  repeat
    lazymatch goal with
    | |- calm _ (call _ _ _) => apply calm_call
    | |- calm _ (finished _ _ _) => apply calm_finished
    | |- calm _ (ieee802_1x_abort_auth _ _) => apply calm_abort_auth
    | |- calm _ (BE_ENTRY _ _ _) => apply calm_be_entry
    | |- calm _ (REAUTH_ENTRY _ _ _) => apply calm_reauth_entry
    | |- calm _ (CTRL_ENTRY _ _ _) => apply calm_ctrl_entry
    end.
Ltac calm_done :=
  unfold PAE_ENTRY, REAUTH_ENTRY, CTRL_ENTRY;
  repeat match goal with
         | |- context [count_if ?b _ _] => destruct b; simpl count_if
         | |- context [if ?b || ?c then _ else _] => destruct (b || c)
         end;
  (split; [vm_compute; reflexivity|left; vm_compute; reflexivity]).

Section entries.
Context {P : Type}.
Variable reaction : list auth_event → list (eapol_variable * bool).
Implicit Types sm : eapol_state_machine P.

Lemma calm_initialize sm g :
  calm (sm <| auth_pae_state := AUTH_PAE_INITIALIZE |> <| portMode := Auto |>)
    (sm_AUTH_PAE_INITIALIZE_Enter sm g).
Proof. unfold sm_AUTH_PAE_INITIALIZE_Enter. calm_done. Qed.

Lemma calm_disconnected sm g :
  calm (sm <| auth_pae_state := AUTH_PAE_DISCONNECTED |>)
    (sm_AUTH_PAE_DISCONNECTED_Enter reaction sm g).
Proof.
  unfold sm_AUTH_PAE_DISCONNECTED_Enter. cbv zeta.
  destruct (in_pae sm AUTH_PAE_INITIALIZE); calm_walk; calm_done.
Qed.

Lemma calm_restart sm g :
  calm (sm <| auth_pae_state := AUTH_PAE_RESTART |> <|eif eapRestart := true |>)
    (sm_AUTH_PAE_RESTART_Enter sm g).
Proof. unfold sm_AUTH_PAE_RESTART_Enter. cbv zeta. calm_done. Qed.

Lemma calm_connecting sm g :
  calm (sm <| auth_pae_state := AUTH_PAE_CONNECTING |>) (sm_AUTH_PAE_CONNECTING_Enter sm g).
Proof. unfold sm_AUTH_PAE_CONNECTING_Enter. cbv zeta. calm_done. Qed.

Lemma calm_held sm g :
  calm (sm <| auth_pae_state := AUTH_PAE_HELD |>) (sm_AUTH_PAE_HELD_Enter reaction sm g).
Proof. unfold sm_AUTH_PAE_HELD_Enter. cbv zeta. calm_walk. calm_done. Qed.

Lemma calm_authenticated sm g :
  calm (sm <| auth_pae_state := AUTH_PAE_AUTHENTICATED |>)
    (sm_AUTH_PAE_AUTHENTICATED_Enter reaction sm g).
Proof. unfold sm_AUTH_PAE_AUTHENTICATED_Enter. cbv zeta. calm_walk. calm_done. Qed.

Lemma calm_authenticating sm g :
  calm (sm <| auth_pae_state := AUTH_PAE_AUTHENTICATING |> <| authSuccess := false |>)
    (sm_AUTH_PAE_AUTHENTICATING_Enter sm g).
Proof. unfold sm_AUTH_PAE_AUTHENTICATING_Enter. calm_done. Qed.

Lemma calm_aborting sm g :
  calm (sm <| auth_pae_state := AUTH_PAE_ABORTING |> <| authAbort := true |>)
    (sm_AUTH_PAE_ABORTING_Enter sm g).
Proof. unfold sm_AUTH_PAE_ABORTING_Enter. cbv zeta. calm_done. Qed.

Lemma calm_force_auth sm g :
  calm (sm <| auth_pae_state := AUTH_PAE_FORCE_AUTH |> <| portMode := ForceAuthorized |>)
    (sm_AUTH_PAE_FORCE_AUTH_Enter sm g).
Proof. unfold sm_AUTH_PAE_FORCE_AUTH_Enter, eapol_auth_tx_canned_eap. cbv zeta. calm_done. Qed.

Lemma calm_force_unauth sm g :
  calm (sm <| auth_pae_state := AUTH_PAE_FORCE_UNAUTH |> <| portMode := ForceUnauthorized |>)
    (sm_AUTH_PAE_FORCE_UNAUTH_Enter sm g).
Proof.
  unfold sm_AUTH_PAE_FORCE_UNAUTH_Enter, eapol_auth_tx_canned_eap. cbv zeta. calm_done.
Qed.

(** *** Backend authentication *)
Lemma tx_req_calm sm :
  buf_ok (eapReqData (sm_if sm)) →
  ∃ sm', eapol_auth_tx_req sm = Ret sm' ∧ calm sm sm' ∧
         still sm' = still sm.
Proof.
  assert (Hsame : ∃ sm', Ret sm = Ret sm' ∧ calm sm sm' ∧
    still sm' = still sm)
    by (eexists; split; [done|split; [apply calm_refl|done]]).
  unfold eapol_auth_tx_req. destruct (eapReqData (sm_if sm)) as [b|]; [|done].
  intros (Hu & Hs & Hm). case_bool_decide as Hl; [done|]. destruct (has_flag _ _); [done|].
  unfold eap_get_id, eap_get_type. unfold sizeof_eap_hdr in *.
  rewrite (bool_decide_eq_false_2 (used b < 4)) by lia.
  destruct (rd_in (mem b) 1) as [id ->]; [lia|]. rewrite access_bind.
  destruct (slice_is_Some (mem b) 0 (used b)) as [d ->]; [lia..|]. rewrite access_bind.
  assert (∃ ty, (if bool_decide (used b < 4 + 1) then Some EAP_TYPE_NONE
                 else rd (mem b) 4) = Some ty) as [ty ->].
  { case_bool_decide; [by eexists|]. apply rd_in. lia. }
  rewrite access_bind. eexists. split; [reflexivity|]. split; [|done]. split; [reflexivity|by left].
Qed.

(** An assignment to a variable of the view, after calls. *)
Lemma calm_authSuccess sm0 sm b :
  calm sm0 sm → calm (sm0 <| authSuccess := b |>) (sm <| authSuccess := b |>).
Proof.
  intros [E Hc]. split; [|exact Hc].
  exact (f_equal (λ '(p, m, a, s, i, r, f), (p, m, a, b, i, r, f)) E).
Qed.

Lemma calm_authAbort sm0 sm b :
  calm sm0 sm → calm (sm0 <| authAbort := b |>) (sm <| authAbort := b |>).
Proof.
  intros [E Hc]. split; [|exact Hc].
  exact (f_equal (λ '(p, m, a, s, i, r, f), (p, m, b, s, i, r, f)) E).
Qed.
End entries.

(** ** The invariant of the machines *)
Definition forced (st : auth_pae_states) : bool :=
  match st with AUTH_PAE_FORCE_AUTH | AUTH_PAE_FORCE_UNAUTH => true | _ => false end.

(** The states between a restart of EAP and the end of an authenticated session. *)
Definition crossing (st : auth_pae_states) : bool :=
  match st with
  | AUTH_PAE_CONNECTING | AUTH_PAE_AUTHENTICATING | AUTH_PAE_AUTHENTICATED => true
  | _ => false
  end.

(** The port is open, or the machine has all it needs to open it. *)
Definition opens {P} (sm : eapol_state_machine P) : bool :=
  match auth_pae_state sm with
  | AUTH_PAE_AUTHENTICATED => true
  | AUTH_PAE_AUTHENTICATING => authSuccess sm
  | _ => false
  end.

Record pae_inv {P} (sm : eapol_state_machine P) : Prop := {
  inv_control : portControl sm ∈ [Auto; ForceAuthorized; ForceUnauthorized];
  inv_mode : forced (auth_pae_state sm) = false →
    portMode sm = Auto ∨ auth_pae_state sm = AUTH_PAE_INITIALIZE ∧ portMode sm = 0;
  inv_crossing : crossing (auth_pae_state sm) = true →
    authAbort sm = false ∧ eapRestart (sm_if sm) = false ∧ EAP_state (eap sm) ≠ EAP_DISABLED;
  inv_restart : auth_pae_state sm = AUTH_PAE_RESTART → eapRestart (sm_if sm) = false →
    authAbort sm = false ∧ EAP_state (eap sm) ≠ EAP_DISABLED;
  inv_opens : opens sm = true → eapSuccess (sm_if sm) = true;
}.

Section views.
Context {P : Type}.
Implicit Types sm : eapol_state_machine P.

Lemma calm_fields sm0 sm :
  calm sm0 sm →
  auth_pae_state sm = auth_pae_state sm0 ∧ portMode sm = portMode sm0 ∧
  authAbort sm = authAbort sm0 ∧ authSuccess sm = authSuccess sm0 ∧
  initialize sm = initialize sm0 ∧ eap_rest (eap sm) = eap_rest (eap sm0) ∧
  if_view (sm_if sm) = if_view (sm_if sm0).
Proof.
  intros [E _]. split_and!;
    [exact (f_equal (λ '(x, _, _, _, _, _, _), x) E)|exact (f_equal (λ '(_, x, _, _, _, _, _), x) E)
    |exact (f_equal (λ '(_, _, x, _, _, _, _), x) E)|exact (f_equal (λ '(_, _, _, x, _, _, _), x) E)
    |exact (f_equal (λ '(_, _, _, _, x, _, _), x) E)|exact (f_equal (λ '(_, _, _, _, _, x, _), x) E)
    |exact (f_equal (λ '(_, _, _, _, _, _, x), x) E)].
Qed.

Lemma if_view_fields i i' :
  if_view i' = if_view i →
  eapRespData i' = eapRespData i ∧ eapReqData i' = eapReqData i ∧
  aaaEapReqData i' = aaaEapReqData i ∧ aaaEapRespData i' = aaaEapRespData i ∧
  eapSuccess i' = eapSuccess i ∧ aaaSuccess i' = aaaSuccess i ∧ eapRestart i' = eapRestart i.
Proof. destruct i, i'. unfold if_view. simpl. by intros [= -> -> -> -> -> -> ->]. Qed.

Lemma calm_if sm0 sm :
  calm sm0 sm →
  eapRespData (sm_if sm) = eapRespData (sm_if sm0) ∧
  eapReqData (sm_if sm) = eapReqData (sm_if sm0) ∧
  aaaEapReqData (sm_if sm) = aaaEapReqData (sm_if sm0) ∧
  aaaEapRespData (sm_if sm) = aaaEapRespData (sm_if sm0) ∧
  eapSuccess (sm_if sm) = eapSuccess (sm_if sm0) ∧
  aaaSuccess (sm_if sm) = aaaSuccess (sm_if sm0) ∧
  eapRestart (sm_if sm) = eapRestart (sm_if sm0).
Proof. intros Hc. apply if_view_fields, (calm_fields _ _ Hc). Qed.

Lemma calm_control sm0 sm :
  calm sm0 sm → portControl sm0 ∈ [Auto; ForceAuthorized; ForceUnauthorized] →
  portControl sm ∈ [Auto; ForceAuthorized; ForceUnauthorized].
Proof. intros [_ [->| ->]]; [done|]. intros _. apply list_elem_of_In. by left. Qed.

Lemma calm_pae_inv sm0 sm : calm sm0 sm → pae_inv sm0 → pae_inv sm.
Proof.
  intros Hc [Hp Hm Hx Hr Ho]. pose proof (calm_control _ _ Hc Hp).
  destruct (calm_fields _ _ Hc) as (E1 & E2 & E3 & E4 & E5 & E6 & _).
  destruct (calm_if _ _ Hc) as (_ & _ & _ & _ & Es & _ & Er).
  pose proof (f_equal EAP_state (eap_rest_eq _ _ E6)) as Est. simpl in Est.
  assert (opens sm = opens sm0) as Eo by (unfold opens; by rewrite E1, E4).
  split; [done|..]; by rewrite ?Eo, ?E1, ?E2, ?E3, ?Er, ?Es, ?Est.
Qed.
End views.

Section machines.
Context {P : Type} {Pend : MayPend} {Back : Backend}.
Variable registered : list (eap_method auth_ctx P).
Variable cfg : eap_config.
Variable Pinv : P → Prop.
Variable alive : list auth_event → bool.
Variable reaction : list auth_event → list (eapol_variable * bool).
Implicit Types sm : eapol_state_machine P.
Abbreviation server_fine := (server_fine registered cfg Pinv).

(** [cached]: the machines were once set up for a station that had been authenticated
    before. *)
Variable cached : bool.

Definition auth_inv sm : Prop :=
  server_fine (eap sm) ∧ (cached = false → pae_inv sm).

Lemma calm_server_fine sm0 sm : calm sm0 sm → server_fine (eap sm0) → server_fine (eap sm).
Proof.
  intros Hc Hf. destruct (calm_fields _ _ Hc) as (_ & _ & _ & _ & _ & E & _).
  destruct (calm_if _ _ Hc) as (E1 & E2 & E3 & E4 & E5 & E6 & _).
  rewrite (eap_rest_eq _ _ E). destruct Hf as [Hok Hs].
  apply lower_fine; try done; unfold sm_if in *.
  - rewrite E1. apply (ok_resp _ _ _ _ Hok).
  - unfold aaa_ok. rewrite E3, E4. apply (ok_aaa _ _ _ _ Hok).
Qed.

Lemma calm_auth_inv sm0 sm : calm sm0 sm → auth_inv sm0 → auth_inv sm.
Proof.
  intros Hc [Hs Hp]. split; [by eapply calm_server_fine|].
  intros Hn. eapply calm_pae_inv; eauto.
Qed.

(** The lower layer restarts EAP. *)
Lemma restart_fine e b : server_fine e → server_fine (e <| eap_if ::= λ i, i <| eapRestart := b |> |>).
Proof.
  intros Hf. pose proof Hf as [Hok _]. apply lower_fine; try done.
  - apply (ok_resp _ _ _ _ Hok).
  - apply (ok_aaa _ _ _ _ Hok).
Qed.

(** *** The PAE *)
Lemma pae_inv_intro sm st :
  auth_pae_state sm = st → portControl sm ∈ [Auto; ForceAuthorized; ForceUnauthorized] →
  (forced st = false → portMode sm = Auto) →
  (crossing st = true →
   authAbort sm = false ∧ eapRestart (sm_if sm) = false ∧ EAP_state (eap sm) ≠ EAP_DISABLED) →
  (st = AUTH_PAE_RESTART → eapRestart (sm_if sm) = true) →
  (opens sm = true → eapSuccess (sm_if sm) = true) → pae_inv sm.
Proof.
  intros E Hp Hm Hx Hr Ho. split; rewrite ?E; auto. intros H1 H2. by rewrite (Hr H1) in H2.
Qed.

(** Where the [switch] of the PAE machine is reached. *)
Definition at_switch sm : Prop :=
  portEnabled (sm_if sm) = true ∧ initialize sm = false ∧
  (forced (auth_pae_state sm) = false → portMode sm = Auto ∧ portControl sm = Auto).

Ltac pae_entry tac :=
  lazymatch goal with
  | |- context [sm_AUTH_PAE_DISCONNECTED_Enter ?r ?s ?g] => tac (calm_disconnected r s g)
  | |- context [sm_AUTH_PAE_RESTART_Enter ?s ?g] => tac (calm_restart s g)
  | |- context [sm_AUTH_PAE_CONNECTING_Enter ?s ?g] => tac (calm_connecting s g)
  | |- context [sm_AUTH_PAE_HELD_Enter ?r ?s ?g] => tac (calm_held r s g)
  | |- context [sm_AUTH_PAE_AUTHENTICATED_Enter ?r ?s ?g] => tac (calm_authenticated r s g)
  | |- context [sm_AUTH_PAE_AUTHENTICATING_Enter ?s ?g] => tac (calm_authenticating s g)
  | |- context [sm_AUTH_PAE_ABORTING_Enter ?s ?g] => tac (calm_aborting s g)
  | |- context [sm_AUTH_PAE_FORCE_AUTH_Enter ?s ?g] => tac (calm_force_auth s g)
  | |- context [sm_AUTH_PAE_FORCE_UNAUTH_Enter ?s ?g] => tac (calm_force_unauth s g)
  | |- context [sm_AUTH_PAE_INITIALIZE_Enter ?s ?g] => tac (calm_initialize s g)
  end.

Lemma local_server sm :
  server_fine (eap sm) → server_fine (eap (auth_pae_step_local reaction sm)).
Proof.
  intros Hf. unfold auth_pae_step_local.
  repeat case_match; try exact Hf;
    pae_entry ltac:(fun c => refine (calm_server_fine _ _ c _); first
      [exact Hf | exact (restart_fine (eap sm) true Hf)]).
Qed.

Lemma pae_step_server sm :
  server_fine (eap sm) → server_fine (eap (sm_AUTH_PAE_Step reaction sm)).
Proof.
  intros Hf. unfold sm_AUTH_PAE_Step. cbv zeta. repeat case_match; [..|by apply local_server];
    pae_entry ltac:(fun c => exact (calm_server_fine _ _ c Hf)).
Qed.

Lemma local_inv sm : pae_inv sm → at_switch sm → pae_inv (auth_pae_step_local reaction sm).
Proof.
  intros Hi (Hen & Hin & Hmode). pose proof Hi as [Hp _ Hx Hr Ho].
  unfold auth_pae_step_local.
  destruct (auth_pae_state sm) eqn:Est.
  all: repeat case_match; try exact Hi.
  all: pae_entry ltac:(fun c => refine (calm_pae_inv _ _ c _); eapply pae_inv_intro; [reflexivity|..]).
  all: try exact Hp.
  all: try (intros; discriminate).
  all: try (intros _; exact (proj1 (Hmode eq_refl))).
  all: try (intros _; reflexivity).
  all: try exact Hx.
  - intros _. apply Ho. unfold opens. rewrite Est. by apply andb_true_iff in H as [? _].
  - intros _. apply negb_true_iff in H. destruct (Hr eq_refl H). by split_and!.
Qed.

Lemma pae_inv_switch sm :
  pae_inv sm → initialize sm || negb (portEnabled (sm_if sm)) = false →
  portMode sm = portControl sm → at_switch sm.
Proof.
  intros [Hp Hm _ _ _] [Hi He%negb_false_iff]%orb_false_iff E. split; [done|]. split; [done|].
  intros Hf. destruct (Hm Hf) as [H|[_ H]]; rewrite <- E in *; [done|]. rewrite H in Hp. set_solver.
Qed.

(** The cases of SM_STEP(AUTH_PAE). *)
Lemma pae_step_cases sm :
  pae_inv sm →
  sm_AUTH_PAE_Step reaction sm = sm_AUTH_PAE_INITIALIZE_Enter sm true ∨
  sm_AUTH_PAE_Step reaction sm = sm_AUTH_PAE_FORCE_AUTH_Enter sm true ∨
  sm_AUTH_PAE_Step reaction sm = sm_AUTH_PAE_FORCE_UNAUTH_Enter sm true ∨
  sm_AUTH_PAE_Step reaction sm = auth_pae_step_local reaction sm ∧ at_switch sm.
Proof.
  intros Hi. pose proof (inv_control _ Hi) as Hp. unfold sm_AUTH_PAE_Step. cbv zeta.
  destruct (initialize sm || _) eqn:Ei; [rewrite orb_true_r; by left|]. rewrite orb_false_r.
  destruct (decide (portMode sm = portControl sm)) as [E|E].
  - rewrite (bool_decide_eq_false_2 (portMode sm ≠ _)) by (by intros H).
    rewrite !andb_false_r. do 3 right. split; [done|]. by apply pae_inv_switch.
  - rewrite (bool_decide_eq_true_2 (portMode sm ≠ _)) by done. rewrite !andb_true_r.
    repeat case_bool_decide; [by left|by right; left|by right; right; left|]. set_solver.
Qed.

Lemma auth_pae_step_inv sm : pae_inv sm → pae_inv (sm_AUTH_PAE_Step reaction sm).
Proof.
  intros Hi. destruct (pae_step_cases sm Hi) as [->|[->|[->|[-> Hs]]]]; [| | |by apply local_inv].
  all: pae_entry ltac:(fun c => refine (calm_pae_inv _ _ c _); eapply pae_inv_intro;
    [reflexivity|exact (inv_control _ Hi)|reflexivity || (intros ?; discriminate)|intros; discriminate..]).
Qed.

(** What the other machines may rely on after the PAE machine. *)
Definition after_pae sm : Prop :=
  crossing (auth_pae_state sm) = true → portControl sm = Auto ∧ initialize sm = false.

Lemma calm_after sm0 sm : calm sm0 sm → after_pae sm0 → after_pae sm.
Proof.
  intros Hc Ha. destruct (calm_fields _ _ Hc) as (E & _ & _ & _ & Ei & _).
  unfold after_pae. rewrite E, Ei. intros Hx. destruct (Ha Hx) as [Hp Hi]. split; [|done].
  destruct Hc as [_ [->| ->]]; done.
Qed.

Lemma pae_step_after sm : pae_inv sm → after_pae (sm_AUTH_PAE_Step reaction sm).
Proof.
  intros Hi. destruct (pae_step_cases sm Hi) as [->|[->|[->|[-> (_ & Hin & Hm)]]]].
  1-3: pae_entry ltac:(fun c => refine (calm_after _ _ c _); intros ?; discriminate).
  unfold auth_pae_step_local. destruct (auth_pae_state sm) eqn:Est.
  all: repeat case_match;
    try (pae_entry ltac:(fun c => refine (calm_after _ _ c _)); first
      [intros ?; discriminate | intros _; split; [exact (proj2 (Hm eq_refl))|exact Hin]]).
  all: intros Hx; rewrite Est in Hx; first
    [discriminate Hx | split; [exact (proj2 (Hm eq_refl))|exact Hin]].
Qed.

(** What holds when no machine changed its state and EAP is run. *)
Definition eap_ready sm : Prop :=
  (crossing (auth_pae_state sm) = true → portEnabled (sm_if sm) = true) ∧
  (auth_pae_state sm = AUTH_PAE_RESTART →
   eapRestart (sm_if sm) = true ∧ authAbort sm = false).

Lemma pae_step_same sm st :
  pae_inv sm → auth_pae_state sm = st → auth_pae_state (sm_AUTH_PAE_Step reaction sm) = st →
  crossing st = true ∨ st = AUTH_PAE_RESTART →
  sm_AUTH_PAE_Step reaction sm = sm ∧ portEnabled (sm_if sm) = true ∧
  (st = AUTH_PAE_RESTART → eapRestart (sm_if sm) = true).
Proof.
  intros Hi Est E Hst. revert E.
  destruct (pae_step_cases sm Hi) as [->|[->|[->|[-> (Hen & _)]]]].
  1-3: pae_entry ltac:(fun c => destruct (calm_fields _ _ c) as [-> _]);
    intros E; rewrite <- E in Hst; by destruct Hst.
  unfold auth_pae_step_local. rewrite Est. destruct st; (destruct Hst as [Hst|Hst]; try discriminate Hst).
  all: repeat case_match; try (pae_entry ltac:(fun c =>
    destruct (calm_fields _ _ c) as [-> _]); intros ?; discriminate).
  all: intros _; split_and!; try done. intros _. by apply negb_false_iff.
Qed.

(** *** The backend machine *)
Lemma be_global sm g :
  let sm' := sm_BE_AUTH_INITIALIZE_Enter reaction sm g in
  calm (sm <| authAbort := false |>) sm'.
Proof.
  cbv zeta. unfold sm_BE_AUTH_INITIALIZE_Enter.
  refine (calm_authAbort sm (ieee802_1x_abort_auth reaction (BE_ENTRY sm g BE_AUTH_INITIALIZE))
    false _).
  calm_walk. apply calm_refl.
Qed.

(** The effect of the other entries: [authSuccess] may be set when EAP succeeded. *)
Definition be_effect sm (r : outcome (eapol_state_machine P)) : Prop :=
  ∃ sm', r = Ret sm' ∧ still sm' = still sm ∧
         (calm sm sm' ∨ eapSuccess (sm_if sm) = true ∧ calm (sm <| authSuccess := true |>) sm').

Lemma be_effect_calm sm sm' :
  still sm' = still sm → calm sm sm' → be_effect sm (Ret sm').
Proof. intros. exists sm'. split_and!; auto. Qed.

Lemma be_effect_trans sm sm1 r :
  still sm1 = still sm → calm sm sm1 → be_effect sm1 r →
  be_effect sm r.
Proof.
  intros E Hc (sm' & -> & E' & Hr). exists sm'. split; [done|]. split; [congruence|].
  destruct Hr as [Hr|[Hs Hr]]; [left; by eapply calm_trans|right].
  destruct (calm_if _ _ Hc) as (_ & _ & _ & _ & Es & _). split; [congruence|].
  eapply calm_trans; [by apply (calm_authSuccess sm sm1 true)|done].
Qed.

Lemma be_entry_calm sm g st :
  calm sm (BE_ENTRY sm g st) ∧ sm_if (BE_ENTRY sm g st) = sm_if sm ∧
  still (BE_ENTRY sm g st) = still sm.
Proof. unfold BE_ENTRY. destruct (_ || _); (split; [by split; [reflexivity|left]|done]). Qed.

(** The entries that send a request. *)
Lemma be_request sm g : buf_ok (eapReqData (sm_if sm)) → be_effect sm (sm_BE_AUTH_REQUEST_Enter sm g).
Proof.
  intros Hb. unfold sm_BE_AUTH_REQUEST_Enter.
  destruct (be_entry_calm sm g BE_AUTH_REQUEST) as (Hc & Ei & Es). set (s := BE_ENTRY sm g _) in *.
  destruct (tx_req_calm s) as (s' & -> & Hc' & Ep); [by rewrite Ei|]. rewrite ret_bind.
  apply be_effect_calm; [exact (eq_trans Ep Es)|]. exact (calm_trans _ _ _ Hc Hc').
Qed.

Lemma be_fail sm g : buf_ok (eapReqData (sm_if sm)) → be_effect sm (sm_BE_AUTH_FAIL_Enter sm g).
Proof.
  intros Hb. unfold sm_BE_AUTH_FAIL_Enter.
  destruct (be_entry_calm sm g BE_AUTH_FAIL) as (Hc & Ei & Es). set (s := BE_ENTRY sm g _) in *.
  destruct (tx_req_calm s) as (s' & -> & Hc' & Ep); [by rewrite Ei|]. rewrite ret_bind.
  apply be_effect_calm; [exact (eq_trans Ep Es)|]. exact (calm_trans _ _ _ Hc Hc').
Qed.

Lemma be_success sm g :
  buf_ok (eapReqData (sm_if sm)) → eapSuccess (sm_if sm) = true →
  be_effect sm (sm_BE_AUTH_SUCCESS_Enter sm g).
Proof.
  intros Hb Hs. unfold sm_BE_AUTH_SUCCESS_Enter.
  destruct (be_entry_calm sm g BE_AUTH_SUCCESS) as (Hc & Ei & Es). set (s := BE_ENTRY sm g _) in *.
  destruct (tx_req_calm s) as (s' & -> & Hc' & Ep); [by rewrite Ei|]. rewrite ret_bind.
  eexists. split; [reflexivity|]. split; [exact (eq_trans Ep Es)|]. right. split; [done|].
  exact (calm_authSuccess _ _ true (calm_trans _ _ _ Hc Hc')).
Qed.

(** The others. *)
Ltac be_plain := unfold BE_ENTRY; destruct (_ || _);
  (apply be_effect_calm; [reflexivity|split; [reflexivity|by left]]).

Lemma be_response sm g : be_effect sm (Ret (sm_BE_AUTH_RESPONSE_Enter sm g)).
Proof. unfold sm_BE_AUTH_RESPONSE_Enter. cbv zeta. be_plain. Qed.
Lemma be_timeout sm g : be_effect sm (Ret (sm_BE_AUTH_TIMEOUT_Enter sm g)).
Proof. unfold sm_BE_AUTH_TIMEOUT_Enter. be_plain. Qed.
Lemma be_idle sm g : be_effect sm (Ret (sm_BE_AUTH_IDLE_Enter sm g)).
Proof. unfold sm_BE_AUTH_IDLE_Enter. be_plain. Qed.
Lemma be_ignore sm g : be_effect sm (Ret (sm_BE_AUTH_IGNORE_Enter sm g)).
Proof. unfold sm_BE_AUTH_IGNORE_Enter. be_plain. Qed.
Lemma be_same sm : be_effect sm (Ret sm).
Proof. by apply be_effect_calm; [|apply calm_refl]. Qed.

Lemma be_waiting sm : buf_ok (eapReqData (sm_if sm)) → be_effect sm (be_step_waiting sm).
Proof.
  intros Hb. unfold be_step_waiting.
  repeat case_match; auto using be_response, be_request, be_timeout, be_same.
Qed.

Lemma be_waits_response sm :
  buf_ok (eapReqData (sm_if sm)) → be_effect sm (be_step_response sm).
Proof.
  intros Hb. unfold be_step_response.
  set (sm1 := if eapNoReq (sm_if sm) then _ else sm).
  assert (H1 : calm sm sm1 ∧ still sm1 = still sm).
  { subst sm1. case_match; [|split; [apply calm_refl|done]].
    unfold sm_BE_AUTH_IGNORE_Enter, BE_ENTRY.
    destruct (_ || _); (split; [split; [reflexivity|by left]|reflexivity]). }
  destruct H1 as [Hc Ep]. destruct (calm_if _ _ Hc) as (_ & Eq & _). clearbody sm1. cbv zeta.
  eapply be_effect_trans; [exact Ep|exact Hc|]. rewrite <- Eq in Hb.
  assert (Hn : ∀ c r, be_effect (count c sm1) r → be_effect sm1 r).
  { intros c r. apply be_effect_trans; [reflexivity|]. by split; [reflexivity|left]. }
  repeat case_match.
  - eapply Hn, be_request, Hb.
  - apply be_timeout.
  - eapply Hn, be_fail, Hb.
  - eapply Hn, be_success; assumption.
  - apply be_same.
Qed.

Definition be_globally sm : bool :=
  bool_decide (portControl sm ≠ Auto) || initialize sm || authAbort sm.

Lemma be_switch sm :
  buf_ok (eapReqData (sm_if sm)) → be_globally sm = false →
  be_effect sm (sm_BE_AUTH_Step reaction sm).
Proof.
  intros Hb Hg. unfold sm_BE_AUTH_Step. unfold be_globally in Hg. rewrite Hg.
  destruct (be_auth_state sm);
    auto using be_idle, be_waiting, be_waits_response.
  repeat case_match; repeat match goal with H : _ && _ = true |- _ => apply andb_true_iff in H as [??] end;
    auto using be_fail, be_request, be_success, be_same.
Qed.

Lemma pae_inv_be sm a b :
  (a = true → authAbort sm = true) → (b = true → authSuccess sm = true ∨ eapSuccess (sm_if sm) = true) →
  pae_inv sm → pae_inv (sm <| authAbort := a |> <| authSuccess := b |>).
Proof.
  intros Ha Hb [Hp Hm Hx Hr Ho]. set (s := sm <| authAbort := a |> <| authSuccess := b |>).
  assert (Hn : authAbort sm = false → authAbort s = false).
  { intros H. change (a = false). destruct a; [|done]. by rewrite Ha in H. }
  split; [exact Hp|exact Hm|..].
  - intros H. destruct (Hx H) as (? & ? & ?). split; [auto|done].
  - intros H1 H2. destruct (Hr H1 H2) as (? & ?). split; [auto|done].
  - change (eapSuccess (sm_if s)) with (eapSuccess (sm_if sm)). unfold opens in *.
    change (auth_pae_state s) with (auth_pae_state sm). change (authSuccess s) with b.
    destruct (auth_pae_state sm); auto. intros H. destruct (Hb H); auto.
Qed.

(** What a machine other than the PAE machine promises. *)
Definition keeps_pae sm sm' : Prop :=
  auth_inv sm' ∧ auth_pae_state sm' = auth_pae_state sm ∧
  eapRestart (sm_if sm') = eapRestart (sm_if sm).

Lemma calm_keeps_pae sm sm' : auth_inv sm → calm sm sm' → keeps_pae sm sm'.
Proof.
  intros Hi Hc. unfold keeps_pae. destruct (calm_fields _ _ Hc) as (-> & _).
  destruct (calm_if _ _ Hc) as (_ & _ & _ & _ & _ & _ & ->). split; [|done].
  by eapply calm_auth_inv.
Qed.

Lemma be_step_ok sm :
  auth_inv sm → (cached = false → after_pae sm) →
  ∃ sm', sm_BE_AUTH_Step reaction sm = Ret sm' ∧ keeps_pae sm sm' ∧ authAbort sm' = false ∧
         (cached = false → crossing (auth_pae_state sm) = true →
          still sm' = still sm).
Proof.
  intros [Hs Hp] Ha. destruct (be_globally sm) eqn:Hg.
  - exists (sm_BE_AUTH_INITIALIZE_Enter reaction sm true).
    split; [unfold sm_BE_AUTH_Step; unfold be_globally in Hg; by rewrite Hg|].
    pose proof (be_global sm true) as Hc. cbv zeta in Hc.
    destruct (calm_fields _ _ Hc) as (E1 & _ & E3 & _). split; [|split; [exact E3|]].
    + refine (calm_keeps_pae (sm <| authAbort := false |>)
        (sm_BE_AUTH_INITIALIZE_Enter reaction sm true) _ Hc).
      split; [exact Hs|]. intros Hn.
      exact (pae_inv_be sm false (authSuccess sm) ltac:(discriminate) (@or_introl _ _) (Hp Hn)).
    + intros Hn Hx. destruct (Ha Hn Hx) as [H1 H2].
      destruct (inv_crossing _ (Hp Hn) Hx) as [H3 _]. exfalso.
      unfold be_globally in Hg. rewrite H2, H3, bool_decide_eq_false_2 in Hg by auto. done.
  - assert (Hb : buf_ok (eapReqData (sm_if sm))) by (apply (ok_req _ _ _ _ (proj1 Hs))).
    destruct (be_switch sm Hb Hg) as (sm' & E & Ep & Hc). exists sm'. split; [done|].
    unfold be_globally in Hg. apply orb_false_iff in Hg as [_ Hab].
    destruct Hc as [Hc|[Hes Hc]]; destruct (calm_fields _ _ Hc) as (_ & _ & -> & _).
    + split; [by apply calm_keeps_pae|by split].
    + split; [|by split]. refine (calm_keeps_pae (sm <| authSuccess := true |>) sm' _ Hc).
      split; [exact Hs|]. intros Hn.
      exact (pae_inv_be sm (authAbort sm) true id (λ _, or_intror Hes) (Hp Hn)).
Qed.

(** *** The timer and the directions *)
Lemma call_reauth_state sm e : reauth_timer_state (call reaction sm e) = reauth_timer_state sm.
Proof.
  unfold call, react. transitivity (reauth_timer_state (emit sm e)); [|done].
  generalize (reaction (trace (emit sm e))). generalize (emit sm e). clear sm e.
  intros sm l. revert sm. induction l as [|[var b] l IH]; intros sm; [done|].
  simpl. rewrite IH. by destruct var.
Qed.

Lemma reauth_step sm :
  calm sm (sm_REAUTH_TIMER_Step reaction sm) ∧
  (reauth_timer_state (sm_REAUTH_TIMER_Step reaction sm) = reauth_timer_state sm →
   portEnabled (sm_if (sm_REAUTH_TIMER_Step reaction sm)) = portEnabled (sm_if sm)).
Proof.
  assert (Hi : ∀ g, calm sm (sm_REAUTH_TIMER_INITIALIZE_Enter sm g) ∧
    portEnabled (sm_if (sm_REAUTH_TIMER_INITIALIZE_Enter sm g)) = portEnabled (sm_if sm)).
  { intros g. unfold sm_REAUTH_TIMER_INITIALIZE_Enter, REAUTH_ENTRY.
    destruct (_ || _); (split; [split; [reflexivity|by left]|reflexivity]). }
  unfold sm_REAUTH_TIMER_Step. destruct (_ || _); [by destruct (Hi true)|].
  destruct (reauth_timer_state sm) eqn:E; [|by destruct (Hi false)].
  case_bool_decide; [|split; [apply calm_refl|done]]. split.
  - unfold sm_REAUTH_TIMER_REAUTHENTICATE_Enter. calm_walk. calm_done.
  - unfold sm_REAUTH_TIMER_REAUTHENTICATE_Enter. rewrite call_reauth_state. discriminate.
Qed.

Lemma ctrl_step sm :
  calm sm (sm_CTRL_DIR_Step sm) ∧ still (sm_CTRL_DIR_Step sm) = still sm.
Proof.
  assert (Hi : ∀ s g, calm sm s ∧ still s = still sm →
    calm sm (sm_CTRL_DIR_IN_OR_BOTH_Enter s g) ∧
    still (sm_CTRL_DIR_IN_OR_BOTH_Enter s g) = still sm).
  { intros s g [Hc Hp]. unfold sm_CTRL_DIR_IN_OR_BOTH_Enter, CTRL_ENTRY. by destruct (_ || _). }
  assert (Hf : ∀ s g, calm sm s ∧ still s = still sm →
    calm sm (sm_CTRL_DIR_FORCE_BOTH_Enter s g) ∧
    still (sm_CTRL_DIR_FORCE_BOTH_Enter s g) = still sm).
  { intros s g [Hc Hp]. unfold sm_CTRL_DIR_FORCE_BOTH_Enter, CTRL_ENTRY. by destruct (_ || _). }
  assert (H0 : calm sm sm ∧ still sm = still sm) by
    (split; [apply calm_refl|done]).
  unfold sm_CTRL_DIR_Step. repeat case_match; auto.
Qed.

(** *** One pass *)
Lemma step_machines_ok sm :
  auth_inv sm →
  ∃ sm', step_machines alive reaction sm = Ret sm' ∧ auth_inv sm' ∧
         (cached = false → same_states sm sm' = true → eapol_sm_sta_entry_alive alive sm' = true →
          eap_ready sm').
Proof.
  intros [Hs Hp]. unfold step_machines. cbv zeta. set (sm1 := sm_AUTH_PAE_Step reaction sm).
  assert (Hi1 : auth_inv sm1).
  { split; [by apply pae_step_server|]. intros Hn. by apply auth_pae_step_inv, Hp. }
  assert (Ha1 : cached = false → after_pae sm1) by (intros Hn; by apply pae_step_after, Hp).
  set (run1 := initializing sm1 || _).
  assert (H2 : ∃ sm2, (if run1 then sm_BE_AUTH_Step reaction sm1 else Ret sm1) = Ret sm2 ∧
    keeps_pae sm1 sm2 ∧ (if run1 then authAbort sm2 = false else sm2 = sm1) ∧
    (cached = false → crossing (auth_pae_state sm1) = true →
     still sm2 = still sm1)).
  { destruct run1; [apply be_step_ok; done|]. exists sm1. by split_and!. }
  destruct H2 as (sm2 & -> & (Hi2 & Es2 & Er2) & Hab & Hen). rewrite ret_bind.
  set (sm3 := if initializing sm2 || _ sm2 then _ else sm2).
  set (sm4 := if initializing sm3 || _ sm3 then _ else sm3). exists sm4. split; [done|].
  assert (H3 : calm sm2 sm3 ∧ (reauth_timer_state sm3 = reauth_timer_state sm2 →
    portEnabled (sm_if sm3) = portEnabled (sm_if sm2)) ∧ (sm2 = sm1 → run1 = false → sm3 = sm1)).
  { subst sm3. destruct (reauth_step sm2) as [Hc He]. destruct (initializing sm2 || eapol_sm_sta_entry_alive alive sm2) eqn:E.
    - split; [exact Hc|]. split; [exact He|]. intros -> Hr. unfold run1 in Hr. congruence.
    - split; [apply calm_refl|by split]. }
  destruct H3 as (Hc3 & He3 & Hr3). clearbody sm3.
  assert (H4 : calm sm3 sm4 ∧ still sm4 = still sm3 ∧ (sm3 = sm1 → run1 = false → sm4 = sm1)).
  { subst sm4. destruct (ctrl_step sm3) as [Hc He]. destruct (initializing sm3 || eapol_sm_sta_entry_alive alive sm3) eqn:E.
    - split; [exact Hc|]. split; [exact He|]. intros -> Hr. unfold run1 in Hr. congruence.
    - split; [apply calm_refl|by split]. }
  destruct H4 as (Hc4 & [He4 Ht4]%still_fields & Hr4). clearbody sm4.
  pose proof (calm_trans _ _ _ Hc3 Hc4) as Hc. split; [by eapply calm_auth_inv|].
  intros Hn Hsame%bool_decide_eq_true_1 Hal. destruct Hsame as (E1 & _ & E3 & _).
  destruct (calm_fields _ _ Hc) as (F1 & _ & F3 & _).
  destruct (calm_if _ _ Hc) as (_ & _ & _ & _ & _ & _ & F6).
  assert (Est : auth_pae_state sm1 = auth_pae_state sm4) by congruence.
  pose proof (pae_step_same sm (auth_pae_state sm4) (Hp Hn) E1 Est) as Hsm. split.
  - intros Hx. destruct (Hsm (or_introl Hx)) as (Es1 & Hport & _).
    rewrite <- Est in Hx. destruct (still_fields _ _ (Hen Hn Hx)) as [He2 Ht2]. unfold sm1 in He2, Ht2.
    rewrite Es1 in He2, Ht2. rewrite He4, He3, He2; [done|]. congruence.
  - intros Hst. destruct (Hsm (or_intror Hst)) as (Es1 & _ & Hres). unfold sm1 in *.
    split; [rewrite F6, Er2, Es1; by apply Hres|]. destruct run1 eqn:Hrun; [congruence|].
    rewrite Hr4 in Hal by auto. unfold run1 in Hrun. apply orb_false_iff in Hrun as [_ Hrun]. congruence.
Qed.

(** *** The EAP server, and the whole step *)
Variable alloc_ok : nat → bool.
Variable rand : nat → Z.
Variable tries : nat.
Hypothesis Hmethods : Forall (method_ok Pinv) registered.
Hypothesis Hident : ∀ me v,
  eap_server_get_eap_method registered EAP_VENDOR_IETF EAP_TYPE_IDENTITY = Some me →
  is_Some (init me v).1.
Hypothesis Hnone : eap_server_get_eap_method registered EAP_VENDOR_IETF EAP_TYPE_NONE = None.
Hypothesis Htries : (10 ≤ tries)%nat.
Hypothesis Hrounds : 0 ≤ max_auth_rounds cfg < 2 ^ 32 - 2.
Hypothesis Hshort : 0 ≤ max_auth_rounds_short cfg < 2 ^ 32 - 2.

Lemma eap_step_pae sm e :
  pae_inv sm → eap_ready sm → stays (eap sm) e → pae_inv (sm <| eap := e |>).
Proof.
  intros [Hp Hm Hx Hr Ho] [Hrx Hrr] (Hen & Hr1 & Hr2 & Hd & Hs). unfold sm_if in *.
  assert (Hres : eapRestart (eap_if (eap sm)) = false → eapRestart (eap_if e) = false).
  { intros H. destruct (eapRestart (eap_if e)); [|done]. by rewrite Hr1 in H. }
  split; [exact Hp|exact Hm|..].
  - intros Hc. destruct (Hx Hc) as (Ha & Hres0 & Hst). split; [exact Ha|].
    split; [by apply Hres|]. apply Hd; [by apply Hrx|by right].
  - intros Hst Hr0. destruct (Hrr Hst) as [Hr3 Ha]. split; [exact Ha|].
    change (eapRestart (eap_if e) = false) in Hr0. apply Hd; [|by left].
    destruct (portEnabled (eap_if (eap sm))); [done|]. rewrite Hr2 in Hr0 by done. congruence.
  - intros Hop. assert (Hc : crossing (auth_pae_state sm) = true).
    { unfold opens in Hop. change (auth_pae_state (sm <| eap := e |>)) with (auth_pae_state sm) in Hop.
      by destruct (auth_pae_state sm). }
    destruct (Hx Hc) as (_ & Hres0 & Hst). apply Hs; [by apply Hrx|done|done|by apply Ho].
Qed.

Lemma run_server_ok sm :
  auth_inv sm → (cached = false → eap_ready sm) →
  ∃ res sm', run_eap_server registered cfg alloc_ok rand tries sm = Some (Ret (res, sm')) ∧
             auth_inv sm'.
Proof.
  intros [[Hok _] Hp] Hr. unfold run_eap_server.
  destruct (step_returns registered cfg alloc_ok rand tries Pinv Hmethods Hident Hnone Htries
    Hrounds Hshort (eap sm) Hok) as (res & e & -> & Hok' & Hst & Hset).
  exists res, (sm <| eap := e |>). split; [done|]. split; [by split|].
  intros Hn. apply eap_step_pae; auto.
Qed.

(** A step ends, and with one of these values. *)
Definition step_fine (r : option (outcome (eapol_state_machine P))) : Prop :=
  ∃ sm', r = Some (Ret sm') ∧ auth_inv sm'.

Lemma step_end_ok ran sm : auth_inv sm → step_fine (Some (step_end alive reaction ran sm)).
Proof.
  intros Hi. unfold step_end.
  assert (Hn : ∀ s, auth_inv s →
    auth_inv (if eapol_sm_sta_entry_alive alive s then call reaction s EvSmChange else s)).
  { intros s Hs. destruct (eapol_sm_sta_entry_alive _ _); [|done].
    eapply calm_auth_inv; [apply calm_call, calm_refl|done]. }
  destruct (ran && _); [|eexists; split; [done|by apply Hn]].
  set (s := sm <|eif aaaEapResp := false |>). cbv zeta.
  assert (Hs : auth_inv s) by (eapply calm_auth_inv; [|exact Hi]; by split; [reflexivity|left]).
  destruct (ok_aaa _ _ _ _ (proj1 (proj1 Hs))) as [_ Hb].
  change (eap_if (eap s)) with (sm_if s) in Hb.
  destruct (aaaEapRespData (sm_if s)) as [b|]; [|by eexists].
  destruct Hb as (Hu & Hz & Hm). destruct (slice_is_Some (mem b) 0 (used b)) as [d ->]; [lia..|].
  rewrite access_bind. eexists. split; [done|]. apply Hn.
  eapply calm_auth_inv; [|exact Hs]. by split; [reflexivity|left].
Qed.

Lemma passes_ok n sm :
  auth_inv sm → step_fine (eapol_sm_step_passes registered cfg alloc_ok rand tries alive reaction n sm).
Proof.
  revert sm. induction n as [|n IH]; intros sm Hi; cbn [eapol_sm_step_passes].
  { eexists. split; [done|]. eapply calm_auth_inv; [|exact Hi]. by split; [reflexivity|left]. }
  destruct (step_machines_ok sm Hi) as (sm1 & -> & Hi1 & Hready).
  destruct (same_states sm sm1) eqn:Hs; cbn [negb]; [|by apply IH].
  destruct (eapol_sm_sta_entry_alive alive sm1) eqn:Ha; [|by apply step_end_ok].
  destruct (run_server_ok sm1 Hi1) as (res & sm2 & -> & Hi2); [auto|].
  destruct res; [by apply IH|by apply step_end_ok].
Qed.

Lemma step_run_ok sm :
  auth_inv sm → step_fine (eapol_sm_step_run registered cfg alloc_ok rand tries alive reaction sm).
Proof. apply passes_ok. Qed.
End machines.
