(* ===== verification/Ieee8021xProofs.v ===== *)
(** Properties of IEEE 802.1X for the access point

    A run of one station is a list of [station_op]s: frames it sends, associations, timers,
    and what other parts of hostapd do to its machines, in any order.  Every run returns
    and keeps the invariant of [EapolAuthProofs]; a machine that authenticated its station
    did so because an EAP method succeeded. *)
From stdpp Require Import strings.
From S2P Require Import Prelude Bytes Wpabuf Defs AuthSm EapCommon EapServer EapServerProofs EapServerStep EapMethods EapMethodsProofs EapolAuth Ieee8021x EapolAuthProofs Ieee8021xExample.

(** ** Runs *)
Inductive station_op :=
| OpReceive (save_ok : bool) (n : nat) (frame : list Z)
| OpNewStation (n : nat)
| OpStep
| OpTick
| OpPending
| OpReauthenticate
| OpSetConf (param value : string)
| OpSetEapol (var : eapol_variable) (value : bool)
| OpPreAuth (b : bool)
| OpFree
| OpStation (flags alg : Z) (key_mgmt : option Z) (pmksa : bool).

(** A station with a cached PMKSA, or that used fast transition. *)
Definition was_authenticated {P} (sta : sta_info P) : bool :=
  bool_decide (auth_alg sta = WLAN_AUTH_FT) || sta_pmksa sta.

Section runs.
Context {P : Type}.
Variable registered : list (eap_method auth_ctx P).
Variable cfg : eap_config.
Variable alloc_ok : nat → bool.
Variable rand : nat → Z.
Variable tries : nat.
Variable alive : list auth_event → bool.
Variable reaction : list auth_event → list (eapol_variable * bool).
Variable bss : bss_config.
Variable wired : bool.
Variable auth_conf : auth_ctx.

Implicit Types sm : eapol_state_machine P.
Implicit Types sta : sta_info P.

(** An operation on the machine of a station, if it has one. *)
Definition on_machine sta (f : eapol_state_machine P → option (outcome (eapol_state_machine P))) :
    option (outcome (sta_info P)) :=
  match eapol_sm sta with
  | None => Some (Ret sta)
  | Some sm =>
      match f sm with
      | Some (Ret sm) => Some (Ret (sta <| eapol_sm := Some sm |>))
      | Some Abort => Some Abort
      | Some Undef => Some Undef
      | None => None
      end
  end.

Definition station_do sta (op : station_op) : option (outcome (sta_info P)) :=
  let always f := on_machine sta (λ sm, Some (Ret (f sm))) in
  match op with
  | OpReceive save_ok n frame =>
      match ieee802_1x_receive registered cfg alloc_ok rand tries alive reaction bss wired
              auth_conf save_ok n (Some sta) frame with
      | Some (Ret (_, Some sta)) => Some (Ret sta)
      | Some (Ret (_, None)) => Some (Ret sta)
      | Some Abort => Some Abort
      | Some Undef => Some Undef
      | None => None
      end
  | OpNewStation n =>
      ieee802_1x_new_station registered cfg alloc_ok rand tries alive reaction bss auth_conf sta n
  | OpStep => on_machine sta (eapol_sm_step_cb registered cfg alloc_ok rand tries alive reaction)
  | OpTick =>
      on_machine sta (eapol_port_timers_tick registered cfg alloc_ok rand tries alive reaction)
  | OpPending => always eapol_auth_eap_pending_cb
  | OpReauthenticate => always eapol_auth_reauthenticate
  | OpSetConf p v => always (λ sm, (eapol_auth_set_conf sm p v).2)
  | OpSetEapol var b => always (λ sm, hostapd_wpa_auth_set_eapol sm var b)
  | OpPreAuth b => always (λ sm, ieee802_1x_notify_pre_auth sm b)
  | OpFree => Some (Ret (ieee802_1x_free_station sta))
  | OpStation f a k p =>
      Some (Ret (sta <| sta_flags := f |> <| auth_alg := a |> <| sta_key_mgmt := k |>
                     <| sta_pmksa := p |>))
  end.

(** [true] once the machines were set up as after an authentication. *)
Fixpoint station_run sta (cached : bool) (ops : list station_op) :
    option (outcome (sta_info P * bool)) :=
  match ops with
  | [] => Some (Ret (sta, cached))
  | op :: ops =>
      let cached := cached || match op with
                              | OpNewStation _ => was_authenticated sta
                              | _ => false
                              end in
      match station_do sta op with
      | Some (Ret sta) => station_run sta cached ops
      | Some Abort => Some Abort
      | Some Undef => Some Undef
      | None => None
      end
  end.
End runs.

(** Frames are octets. *)
Definition op_ok (op : station_op) : Prop :=
  match op with OpReceive _ _ frame => bytes_ok frame | _ => True end.

(** ** The database of users *)
Definition db_ok (bss : bss_config) : Prop :=
  Forall (λ u, blen (hu_methods u) = EAP_MAX_METHODS) (eap_user_list bss).

Lemma get_eap_user_ok bss wsc id ph2 h :
  db_ok bss → hostapd_get_eap_user bss wsc id ph2 = Some h →
  blen (hu_methods h) = EAP_MAX_METHODS.
Proof.
  intros Hdb. unfold hostapd_get_eap_user.
  destruct (_ && _); [by intros [= <-]|]. destruct (_ && _); [by intros [= <-]|].
  intros [Hin _]%find_some. unfold db_ok in Hdb. rewrite List.Forall_forall in Hdb. by apply Hdb.
Qed.

Lemma user_db_ok bss wsc memdup_ok n id ph2 f u n' :
  db_ok bss →
  ieee802_1x_get_eap_user bss wsc memdup_ok n id ph2 zero_user = (f, u, n') → user_ok u.
Proof.
  intros Hdb. unfold ieee802_1x_get_eap_user.
  destruct (hostapd_get_eap_user _ _ _ _) as [h|] eqn:E; [|by intros [= _ <- _]].
  apply get_eap_user_ok in E; [|done]. unfold memdup.
  destruct (hu_password h) as [pw|]; [|by intros [= _ <- _]].
  destruct (memdup_ok n); [|by intros [= _ <- _]].
  destruct (hu_salt h) as [[|s salt]|]; [by intros [= _ <- _]| |by intros [= _ <- _]].
  destruct (memdup_ok (Datatypes.S n)); by intros [= _ <- _].
Qed.

(** What [eapol_cb] reads of an access point whose database is sane. *)
Lemma bss_ctx_ok bss wsc memdup_ok c n r :
  db_ok bss → erp_send_reauth_start c = false →
  (∀ t, eap_req_id_text c = Some t → blen t ≤ 65523) →
  auth_ctx_ok (mk_ctx c (ieee802_1x_get_eap_user bss wsc memdup_ok) n r).
Proof. intros Hdb Hr Ht. split; [|done]. intros. by eapply user_db_ok. Qed.

(** ** Every operation keeps the invariant *)
Section keeps.
Context {P : Type} {Pend : MayPend} {Back : Backend}.
Variable registered : list (eap_method auth_ctx P).
Variable cfg : eap_config.
Variable Pinv : P → Prop.
Variable alloc_ok : nat → bool.
Variable rand : nat → Z.
Variable tries : nat.
Variable alive : list auth_event → bool.
Variable reaction : list auth_event → list (eapol_variable * bool).
Variable bss : bss_config.
Variable wired : bool.
Variable auth_conf : auth_ctx.
Hypothesis Hmethods : Forall (method_ok Pinv) registered.
Hypothesis Hident : ∀ me v,
  eap_server_get_eap_method registered EAP_VENDOR_IETF EAP_TYPE_IDENTITY = Some me →
  is_Some (init me v).1.
Hypothesis Hnone : eap_server_get_eap_method registered EAP_VENDOR_IETF EAP_TYPE_NONE = None.
Hypothesis Htries : (10 ≤ tries)%nat.
Hypothesis Hrounds : 0 ≤ max_auth_rounds cfg < 2 ^ 32 - 2.
Hypothesis Hshort : 0 ≤ max_auth_rounds_short cfg < 2 ^ 32 - 2.
Hypothesis Hctx : auth_ctx_ok auth_conf.

Implicit Types sm : eapol_state_machine P.
Implicit Types sta : sta_info P.
Abbreviation auth_inv := (auth_inv registered cfg Pinv).
Abbreviation step_fine c := (step_fine registered cfg Pinv c).

Definition station_ok (c : bool) sta : Prop := ∀ sm, eapol_sm sta = Some sm → auth_inv c sm.

Lemma inv_cached c sm : auth_inv c sm → auth_inv true sm.
Proof. intros [? _]. by split. Qed.

(** The variables that the invariant is not about. *)
Lemma same_inv c sm sm' :
  eap sm' = eap sm → auth_pae_state sm' = auth_pae_state sm → portMode sm' = portMode sm →
  authAbort sm' = authAbort sm → authSuccess sm' = authSuccess sm →
  portControl sm' ∈ [portControl sm; Auto; ForceAuthorized; ForceUnauthorized] →
  auth_inv c sm → auth_inv c sm'.
Proof.
  intros E1 E2 E3 E4 E5 E6 [Hs Hp]. split; [by rewrite E1|]. intros Hn.
  destruct (Hp Hn) as [Hc Hm Hx Hr Ho]. unfold sm_if in *.
  split; unfold opens, sm_if; rewrite ?E1, ?E2, ?E3, ?E4, ?E5;
    [|exact Hm|exact Hx|exact Hr|exact Ho].
  apply elem_of_cons in E6 as [->|E6]; assumption.
Qed.
Ltac pae_same H := destruct H as [Hp1 Hp2 Hp3 Hp4 Hp5];
  constructor; [exact Hp1|exact Hp2|exact Hp3|exact Hp4|exact Hp5].
Ltac same := apply same_inv; try reflexivity; apply list_elem_of_In; by left.

(** The layer below sets what methods share. *)
Lemma vars_inv c sm v : vars_ok v → auth_inv c sm → auth_inv c (sm <| eap ::= λ e, e <| mv := v |> |>).
Proof.
  intros Hv [Hs Hp]. split; [by apply vars_fine|]. intros Hn. pae_same (Hp Hn).
Qed.

Lemma clear_identity_inv c sm :
  auth_inv c sm → auth_inv c (sm <| eap ::= λ e, e <| mv ::= eap_server_clear_identity |> |>).
Proof.
  intros Hi. apply (vars_inv c sm (eap_server_clear_identity (mv (eap sm)))); [|done].
  apply vars_ok_identity, (ok_vars _ _ _ _ (proj1 (proj1 Hi))).
Qed.

Lemma malloc_inv c sm ok sm' : eap_malloc alloc_ok sm = (ok, sm') → auth_inv c sm → auth_inv c sm'.
Proof.
  unfold eap_malloc, malloc. intros E Hi. apply (f_equal snd) in E. change (snd (ok, sm')) with sm' in E. rewrite <- E.
  refine (vars_inv c sm ((mv (eap sm)) <| n_alloc ::= Datatypes.S |>) _ Hi).
  apply vars_ok_alloc, (ok_vars _ _ _ _ (proj1 (proj1 Hi))).
Qed.

Lemma response_inv c sm b :
  msg_ok b → auth_inv c sm → auth_inv c (sm <|eif eapRespData := b |> <| eapolEap := true |>).
Proof.
  intros Hb [Hs Hp]. split; [|intros Hn; pae_same (Hp Hn)].
  pose proof Hs as [Hok _]. apply lower_fine; try done. apply (ok_aaa _ _ _ _ Hok).
Qed.

Lemma pending_inv c sm : auth_inv c sm → auth_inv c (eapol_auth_eap_pending_cb sm).
Proof.
  intros Hi. unfold eapol_auth_eap_pending_cb.
  apply (same_inv c (sm <| eap ::= eap_sm_pending_cb |>)); try reflexivity;
    [apply list_elem_of_In; by left|].
  destruct Hi as [Hs Hp]. split; [by apply pending_cb_fine|]. intros Hn.
  change (pae_inv (sm <| eap := eap_sm_pending_cb (eap sm) |>)). unfold eap_sm_pending_cb.
  case_bool_decide; pae_same (Hp Hn).
Qed.

Lemma parsed_control p v k :
  parse_auth_param p v = Some (AdminControlledPortControl k) →
  k ∈ [Auto; ForceAuthorized; ForceUnauthorized].
Proof.
  unfold parse_auth_param. cbv zeta.
  repeat case_match; try discriminate; try (intros [= <-]; set_solver);
    destruct (parse_bool v); discriminate.
Qed.

Lemma set_conf_inv c sm p v : auth_inv c sm → auth_inv c (eapol_auth_set_conf sm p v).2.
Proof.
  unfold eapol_auth_set_conf. destruct (parse_auth_param p v) as [q|] eqn:E; [|done].
  destruct q as [|k|n|n|n|b|b]; simpl; try same. apply same_inv; try reflexivity.
  apply elem_of_cons. right. exact (parsed_control _ _ _ E).
Qed.

(** *** Steps and new machines *)
Lemma step_ok c sm :
  auth_inv c sm →
  step_fine c (eapol_sm_step_run registered cfg alloc_ok rand tries alive reaction sm).
Proof. by apply step_run_ok. Qed.

Lemma tick_ok c sm :
  auth_inv c sm →
  step_fine c (eapol_port_timers_tick registered cfg alloc_ok rand tries alive reaction sm).
Proof.
  intros Hi. unfold eapol_port_timers_tick. cbv zeta.
  match goal with |- step_fine c (match eapol_sm_step_run _ _ _ _ _ _ _ ?s with _ => _ end) =>
    destruct (step_ok c s) as (sm' & -> & Hi') end.
  - eapply calm_auth_inv; [|exact Hi]. by split; [reflexivity|left].
  - eexists. split; [done|]. revert Hi'. same.
Qed.

Lemma initialize_ok c sm :
  auth_inv c sm →
  step_fine c (eapol_auth_initialize registered cfg alloc_ok rand tries alive reaction sm).
Proof.
  intros Hi. unfold eapol_auth_initialize. cbv zeta.
  match goal with |- step_fine c (match eapol_sm_step_run _ _ _ _ _ _ _ ?s with _ => _ end) =>
    destruct (step_ok c s) as (sm1 & -> & Hi1); [revert Hi; same|] end.
  match goal with |- step_fine c (match eapol_sm_step_run _ _ _ _ _ _ _ ?s with _ => _ end) =>
    destruct (step_ok c s) as (sm2 & -> & Hi2); [revert Hi1; same|] end.
  eexists. split; [done|]. revert Hi2. same.
Qed.

(** The result of an operation that may have found no memory. *)
Definition machine_fine (c : bool) (r : option (outcome (option (eapol_state_machine P)))) : Prop :=
  ∃ o, r = Some (Ret o) ∧ ∀ sm, o = Some sm → auth_inv c sm.

Lemma zero_inv c ctx fl n : auth_ctx_ok ctx → auth_inv c (eapol_zero ctx fl n).
Proof.
  intros Hc. split; [by apply init_fine|]. intros _.
  constructor; try (intros; discriminate); [apply list_elem_of_In; by left|by right].
Qed.

Lemma alloc_machine_ok c sta n :
  machine_fine c (ieee802_1x_alloc_eapol_sm registered cfg alloc_ok rand tries alive reaction
                    auth_conf sta n).
Proof.
  unfold ieee802_1x_alloc_eapol_sm, eapol_auth_alloc. cbv zeta.
  destruct (alloc_ok n && _); [|by exists None].
  match goal with |- machine_fine c (match eapol_auth_initialize _ _ _ _ _ _ _ ?s with _ => _ end) =>
    destruct (initialize_ok c s) as (sm & -> & Hi); [by apply zero_inv|] end.
  exists (Some sm). split; [done|]. by intros ? [= <-].
Qed.

(** *** Frames *)
Lemma flags_inv c sm f : auth_inv c sm → auth_inv c (sm <| flags ::= f |>).
Proof. same. Qed.
Lemma port_valid_inv c sm b : auth_inv c sm → auth_inv c (sm <| portValid := b |>).
Proof. same. Qed.
Lemma count_inv c k sm : auth_inv c sm → auth_inv c (count k sm).
Proof. same. Qed.

Lemma handle_eap_ok c sm d :
  bytes_ok d → auth_inv c sm →
  ∃ sm', handle_eap alloc_ok sm d (blen d) = Ret sm' ∧ auth_inv c sm'.
Proof.
  intros Hd Hi. unfold handle_eap, sizeof_eap_hdr. case_bool_decide; [by eexists|].
  destruct (WPA_GET_BE16_in d 2) as (l & -> & Hl); [lia..|done|]. rewrite access_bind.
  case_bool_decide; [by eexists|]. case_bool_decide; [by eexists|].
  destruct (rd_in d 0) as [code ->]; [lia|]. rewrite access_bind.
  case_bool_decide; [|case_bool_decide; by eexists].
  unfold handle_eap_response, sizeof_eap_hdr. case_bool_decide; [by eexists|].
  destruct (rd_in d 4) as [ty ->]; [lia|]. rewrite access_bind. cbv zeta.
  match goal with |- context [eap_malloc alloc_ok ?s] =>
    destruct (eap_malloc alloc_ok s) as [ok sm1] eqn:E;
    assert (Hi1 : auth_inv c sm1) by (eapply malloc_inv; [exact E|]; revert Hi; same) end.
  destruct (slice d 0 l) as [e|] eqn:Es;
    [|destruct (slice_is_Some d 0 l) as [? H']; [lia..|congruence]]. rewrite access_bind.
  pose proof (slice_length _ _ _ _ Es) as Hlen.
  assert (He : bytes_ok e) by (eapply slice_Forall; eauto).
  rewrite <- Hlen. destruct (wpabuf_alloc_copy_spec e) as (E0 & b & E1 & Hw & Hm & _); [lia|].
  destruct ok; [rewrite E1|rewrite E0]; rewrite ret_bind; (eexists; split; [done|]);
    apply response_inv; try done. split; [done|]. by rewrite Hm.
Qed.

Lemma receive_eapol_ok c sta sm ty d :
  bytes_ok d → auth_inv c sm →
  ∃ sta', receive_eapol alloc_ok reaction sta sm ty d (blen d) = Ret sta' ∧ station_ok c sta'.
Proof.
  intros Hd Hi. unfold receive_eapol.
  assert (Hend : ∀ s st, auth_inv c s →
    ∃ sta', Ret (st <| eapol_sm := Some (eapol_auth_step s) |>) = Ret sta' ∧ station_ok c sta').
  { intros s st Hs. eexists. split; [done|]. intros ? <-%(inj Some). revert Hs. same. }
  case_bool_decide.
  { destruct (handle_eap_ok c sm d Hd Hi) as (sm1 & -> & Hi1). rewrite !ret_bind. by apply Hend. }
  case_bool_decide.
  { rewrite ret_bind. apply Hend. eapply calm_auth_inv; [apply calm_call, calm_refl|].
    apply clear_identity_inv. revert Hi. same. }
  case_bool_decide.
  { rewrite ret_bind. apply Hend. apply clear_identity_inv. revert Hi. same. }
  case_bool_decide; rewrite ret_bind; apply Hend; [done|by apply count_inv].
Qed.

Lemma receive_sm_ok c sta n :
  station_ok c sta →
  machine_fine c (receive_sm registered cfg alloc_ok rand tries alive reaction bss auth_conf sta n).
Proof.
  intros Hst. unfold receive_sm. destruct (eapol_sm sta) as [sm|] eqn:E.
  { exists (Some sm). split; [done|]. intros ? <-%(inj Some). by apply Hst. }
  destruct (alloc_machine_ok c sta n) as ([sm|] & -> & Hi); [|by exists None].
  eexists. split; [done|]. intros ? <-%(inj Some). specialize (Hi sm eq_refl).
  match goal with |- auth_inv c (update _ _ ?s) => assert (Hi1 : auth_inv c s) end.
  { destruct (_ && _); [by apply flags_inv|done]. }
  eapply calm_auth_inv; [|exact Hi1]. by split; [reflexivity|left].
Qed.

Lemma station_map c sta f :
  (∀ sm, auth_inv c sm → auth_inv c (f sm)) → station_ok c sta →
  station_ok c (sta <| eapol_sm ::= fmap f |>).
Proof.
  intros Hf Hst sm. change (f <$> eapol_sm sta = Some sm → auth_inv c sm).
  intros (sm0 & E & ->)%fmap_Some_1. by apply Hf, Hst.
Qed.

Definition rx_fine (c : bool) (r : option (outcome (rx_result * option (sta_info P)))) : Prop :=
  ∃ res sta, r = Some (Ret (res, Some sta)) ∧ station_ok c sta.
Lemma rx_fine_intro c res sta : station_ok c sta → rx_fine c (Some (Ret (res, Some sta))).
Proof. intros. by exists res, sta. Qed.

Lemma receive_ok c save_ok n sta buf :
  bytes_ok buf → station_ok c sta →
  rx_fine c (ieee802_1x_receive registered cfg alloc_ok rand tries alive reaction bss wired
               auth_conf save_ok n (Some sta) buf).
Proof.
  intros Hb Hst. unfold ieee802_1x_receive, sizeof_ieee802_1x_hdr. cbv zeta.
  destruct (negb _); [by apply rx_fine_intro|]. destruct (_ && _).
  { destruct (sta_has sta WLAN_STA_AUTH); by apply rx_fine_intro. }
  case_bool_decide; [by apply rx_fine_intro|].
  destruct (rd_in buf 0) as [version ->]; [lia|]. destruct (rd_in buf 1) as [ty ->]; [lia|].
  destruct (WPA_GET_BE16_in buf 2) as (datalen & -> & Hl); [lia..|done|].
  case_bool_decide; [by apply rx_fine_intro, station_map; [apply count_inv|]|].
  set (sta1 := sta <| eapol_sm ::= _ |>).
  assert (Hst1 : station_ok c sta1) by (apply station_map; [intros ?; same|done]). clearbody sta1.
  match goal with |- rx_fine c (match ?k with _ => _ end) => assert (Hk : is_Some k) end.
  { unfold sizeof_ieee802_1x_eapol_key. destruct (_ && _) eqn:Ek; [|by eexists].
    apply andb_true_iff in Ek as [Ek%bool_decide_eq_true_1 _].
    destruct (rd_in buf 4) as [t ->]; [lia|]. by eexists. }
  destruct Hk as [is_wpa ->]. destruct is_wpa.
  { destruct (slice_is_Some buf 0 (4 + datalen)) as [d ->]; [lia..|]. by apply rx_fine_intro. }
  destruct (_ && _); [by apply rx_fine_intro|]. destruct (uses_psk sta1); [by apply rx_fine_intro|].
  destruct (receive_sm_ok c sta1 n Hst1) as ([sm|] & -> & Hi); [|by apply rx_fine_intro].
  destruct (slice buf 4 datalen) as [d|] eqn:Es;
    [|destruct (slice_is_Some buf 4 datalen) as [? H']; [lia..|congruence]]. rewrite access_bind.
  rewrite <- (slice_length _ _ _ _ Es).
  destruct (receive_eapol_ok c sta1 sm ty d) as (sta2 & -> & Hst2);
    [by eapply slice_Forall|by apply Hi|]. rewrite ret_bind. by apply rx_fine_intro.
Qed.

(** *** Stations that associate *)
Lemma already_authenticated_ok sm : auth_inv true sm → auth_inv true (already_authenticated sm).
Proof.
  intros [Hs _]. split; [|done]. apply notify_cached_fine. pose proof Hs as [Hok _].
  apply (lower_fine registered cfg Pinv (eap sm)); try done.
  - apply (ok_resp _ _ _ _ Hok).
  - apply (ok_aaa _ _ _ _ Hok).
Qed.

Lemma start_station_ok c sta re sm :
  auth_inv c sm →
  auth_inv (c || was_authenticated sta) (start_station bss sta re sm).
Proof.
  intros Hi. unfold start_station. cbv zeta.
  match goal with |- context [update eap _ ?s] =>
    assert (Hi1 : auth_inv c s) by (destruct (_ && _); repeat apply flags_inv; done);
    set (sm1 := update eap _ s);
    assert (Hi2 : auth_inv c sm1) by
      (eapply calm_auth_inv; [|exact Hi1]; by split; [reflexivity|left])
  end.
  clearbody sm1. unfold was_authenticated.
  destruct (bool_decide (auth_alg sta = WLAN_AUTH_FT)).
  { simpl orb. rewrite orb_true_r. apply port_valid_inv, already_authenticated_ok.
    exact (inv_cached _ _ Hi2). }
  destruct (sta_pmksa sta).
  { simpl orb. rewrite orb_true_r. by apply already_authenticated_ok, (inv_cached c). }
  rewrite !orb_false_r. destruct re; revert Hi2; same.
Qed.

Lemma station_ok_cached c b sta : station_ok c sta → station_ok (c || b) sta.
Proof.
  intros Hst sm E. destruct c; [by apply Hst|]. destruct b; [|by apply Hst].
  eapply inv_cached, Hst, E.
Qed.

(** An operation on a station returns, and keeps the invariant. *)
Definition op_fine (c : bool) (r : option (outcome (sta_info P))) : Prop :=
  ∃ sta, r = Some (Ret sta) ∧ station_ok c sta.

Lemma new_station_ok c sta n :
  station_ok c sta →
  op_fine (c || was_authenticated sta)
    (ieee802_1x_new_station registered cfg alloc_ok rand tries alive reaction bss auth_conf sta n).
Proof.
  intros Hst. unfold ieee802_1x_new_station. cbv zeta.
  assert (Hfree : op_fine (c || was_authenticated sta)
    (Some (Ret (ieee802_1x_free_station sta)))) by (eexists; split; [done|by intros ?]).
  destruct (_ && _); [done|]. destruct (uses_psk sta); [done|].
  assert (Hstart : ∀ re sm, auth_inv c sm → op_fine (c || was_authenticated sta)
    (Some (Ret (sta <| eapol_sm := Some (start_station bss sta re sm) |>)))).
  { intros re sm Hi. eexists. split; [done|]. intros ? <-%(inj Some). by apply start_station_ok. }
  destruct (eapol_sm sta) as [sm|] eqn:E; [by apply Hstart, Hst|].
  destruct (alloc_machine_ok c sta n) as ([sm|] & -> & Hi); [by apply Hstart, Hi|].
  exists sta. split; [done|]. intros ? E'. congruence.
Qed.

Lemma on_machine_ok c sta f :
  (∀ sm, auth_inv c sm → step_fine c (f sm)) → station_ok c sta → op_fine c (on_machine sta f).
Proof.
  intros Hf Hst. unfold on_machine. destruct (eapol_sm sta) as [sm|] eqn:E; [|by exists sta].
  destruct (Hf sm (Hst sm E)) as (sm' & -> & Hi). eexists. split; [done|].
  by intros ? <-%(inj Some).
Qed.

Lemma station_do_ok c sta op :
  op_ok op → station_ok c sta →
  op_fine (c || match op with OpNewStation _ => was_authenticated sta | _ => false end)
    (station_do registered cfg alloc_ok rand tries alive reaction bss wired auth_conf sta op).
Proof.
  intros Hop Hst.
  assert (Halways : ∀ f, (∀ sm, auth_inv c sm → auth_inv c (f sm)) →
    op_fine (c || false) (on_machine sta (λ sm, Some (Ret (f sm))))).
  { intros f Hf. rewrite orb_false_r. apply on_machine_ok; [|done].
    intros sm Hi. eexists. split; [done|by apply Hf]. }
  destruct op; simpl station_do.
  - destruct (receive_ok c save_ok n sta frame Hop Hst) as (res & sta' & -> & Hst').
    exists sta'. by rewrite orb_false_r.
  - by apply new_station_ok.
  - rewrite orb_false_r. apply on_machine_ok; [apply step_ok|done].
  - rewrite orb_false_r. apply on_machine_ok; [apply tick_ok|done].
  - apply Halways. apply pending_inv.
  - apply Halways. intros sm. same.
  - apply Halways. intros sm. apply set_conf_inv.
  - apply Halways. intros sm. apply calm_auth_inv, calm_set_eapol, calm_refl.
  - apply Halways. intros sm. apply flags_inv.
  - eexists. split; [done|by intros ?].
  - exists (sta <| sta_flags := flags |> <| auth_alg := alg |> <| sta_key_mgmt := key_mgmt |>
      <| sta_pmksa := pmksa |>). split; [done|]. rewrite orb_false_r. exact Hst.
Qed.

Lemma station_run_ok ops c sta :
  Forall op_ok ops → station_ok c sta →
  ∃ sta' c', station_run registered cfg alloc_ok rand tries alive reaction bss wired auth_conf
               sta c ops = Some (Ret (sta', c')) ∧ station_ok c' sta'.
Proof.
  intros Hops. revert c sta. induction Hops as [|op ops Hop _ IH]; intros c sta Hst; simpl.
  { by exists sta, c. }
  destruct (station_do_ok c sta op Hop Hst) as (sta' & -> & Hst'). by apply IH.
Qed.
End keeps.

(** ** Every run of a station *)

(** C6: Whatever a station sends and in whatever order its timers, its associations and the
    calls of the RSN authenticator come, the access point's EAPOL and EAP machines for it
    go on: every operation returns, none reads outside a frame or a buffer or uses a
    method that was not chosen, and the EAP machine stays well formed.  Nothing is assumed
    of the frames but that they consist of octets, of the driver's answers, or of what the
    callbacks do.  Of the configuration and the methods it is assumed that the EAP methods
    keep their contract ([method_ok]), that the Identity method can always be started (while
    the allocation in eap_identity_init fails, the loop of eap_server.c:562 goes on), that
    there is no method of type 0, that EAP-Initiate/Re-auth-Start is not configured (with it
    [Ieee8021xExample.reauth_start_answer_stops_the_server]), that the users have full tables
    of methods and the Identity text fits a packet, and that the limits of rounds are not
    the largest integers. *)
Theorem station_runs_stay_well_formed {P : Type} {Pend : MayPend} {Back : Backend}
    (registered : list (eap_method auth_ctx P)) cfg (Pinv : P → Prop) alloc_ok rand tries alive
    reaction bss wired wsc memdup_ok conf (sta : sta_info P) ops :
  Forall (method_ok Pinv) registered →
  (∀ me v, eap_server_get_eap_method registered EAP_VENDOR_IETF EAP_TYPE_IDENTITY = Some me →
           is_Some (init me v).1) →
  eap_server_get_eap_method registered EAP_VENDOR_IETF EAP_TYPE_NONE = None →
  (10 ≤ tries)%nat →
  0 ≤ max_auth_rounds cfg < 2 ^ 32 - 2 → 0 ≤ max_auth_rounds_short cfg < 2 ^ 32 - 2 →
  db_ok bss → erp_send_reauth_start conf = false →
  (∀ t, eap_req_id_text conf = Some t → blen t ≤ 65523) →
  eapol_sm sta = None → Forall op_ok ops →
  ∃ sta' cached,
    station_run registered cfg alloc_ok rand tries alive reaction bss wired
      (mk_ctx conf (ieee802_1x_get_eap_user bss wsc memdup_ok) 0 false) sta false ops =
      Some (Ret (sta', cached)) ∧
    ∀ sm, eapol_sm sta' = Some sm → eap_ok registered cfg Pinv (eap sm).
Proof.
  intros Hm Hid Hn Ht Hr Hs Hdb Herp Htext Hsta Hops.
  destruct (station_run_ok registered cfg Pinv alloc_ok rand tries alive reaction bss wired
    _ Hm Hid Hn Ht Hr Hs (bss_ctx_ok bss wsc memdup_ok conf 0 false Hdb Herp Htext) ops false sta)
    as (sta' & c & E & Hok); [done|intros sm Esm; congruence|].
  exists sta', c. split; [done|]. intros sm Esm. apply (Hok sm Esm).
Qed.

(** C5: An access point without a RADIUS server authenticates only stations that an EAP
    method accepted: in a run in which the machines were never set up from the PMKSA cache
    or for fast transition, a machine in AUTHENTICATED has an EAP machine that signals
    success, and that has in use a method other than Identity whose [isSuccess] is true.
    This holds for any order of frames, timers, reassociations, reconfiguration of the port
    and calls of other parts. *)
Theorem authenticated_stations_passed_a_method {P : Type} {Pend : MayPend}
    (registered : list (eap_method auth_ctx P)) cfg (Pinv : P → Prop) alloc_ok rand tries alive
    reaction bss wired wsc memdup_ok conf (sta sta' : sta_info P) ops sm :
  Forall (method_ok Pinv) registered →
  (∀ me v, eap_server_get_eap_method registered EAP_VENDOR_IETF EAP_TYPE_IDENTITY = Some me →
           is_Some (init me v).1) →
  eap_server_get_eap_method registered EAP_VENDOR_IETF EAP_TYPE_NONE = None →
  (10 ≤ tries)%nat →
  0 ≤ max_auth_rounds cfg < 2 ^ 32 - 2 → 0 ≤ max_auth_rounds_short cfg < 2 ^ 32 - 2 →
  db_ok bss → erp_send_reauth_start conf = false →
  (∀ t, eap_req_id_text conf = Some t → blen t ≤ 65523) →
  eapol_sm sta = None → Forall op_ok ops →
  station_run registered cfg alloc_ok rand tries alive reaction bss wired
    (mk_ctx conf (ieee802_1x_get_eap_user bss wsc memdup_ok) 0 false) sta false ops =
    Some (Ret (sta', false)) →
  eapol_sm sta' = Some sm → auth_pae_state sm = AUTH_PAE_AUTHENTICATED →
  eapSuccess (sm_if sm) = true ∧ method_succeeded (eap sm).
Proof.
  intros Hm Hid Hn Ht Hr Hs Hdb Herp Htext Hsta Hops Hrun Esm Hst.
  destruct (station_run_ok (Back := false) registered cfg Pinv alloc_ok rand tries alive reaction
    bss wired _ Hm Hid Hn Ht Hr Hs (bss_ctx_ok bss wsc memdup_ok conf 0 false Hdb Herp Htext) ops
    false sta) as (s' & c & E & Hok); [done|intros sm0 Esm0; congruence|].
  rewrite Hrun in E. assert (sta' = s' ∧ c = false) as [<- ->] by (by injection E).
  destruct (Hok sm Esm) as [[Hsrv _] Hpae].
  assert (Hs1 : eapSuccess (sm_if sm) = true).
  { apply (inv_opens _ (Hpae eq_refl)). unfold opens. by rewrite Hst. }
  split; [done|]. destruct (ok_success _ _ _ _ Hsrv) as [_ H2].
  destruct (H2 Hs1) as [_ [H3|H3]]; [done|]. by apply (ok_backend _ _ _ _ Hsrv) in H3.
Qed.

(** *** Both theorems at the access point of [Ieee8021xExample] *)
Definition no_pending : MayPend := false.

Lemma ap_methods_ok : Forall (@method_ok _ _ _ _ no_pending (λ _, True)) Ap.registered.
Proof.
  apply Forall_cons; split; [apply identity_ok|]. apply Forall_singleton.
  apply md5_ok; [|done]. intros n c <-%(inj Some).
  by rewrite length_map, length_seqZ.
Qed.

Lemma ap_identity_ok me v :
  eap_server_get_eap_method Ap.registered EAP_VENDOR_IETF EAP_TYPE_IDENTITY = Some me →
  is_Some (init me v).1.
Proof. intros [= <-]. by eexists. Qed.

Lemma ap_db_ok : db_ok Ap.bss.
Proof. by repeat constructor. Qed.

(** The station of [Ieee8021xExample] answers with its identity and the right digest. *)
Definition ap_ops : list station_op :=
  [OpNewStation 0; OpStep;
   OpReceive true 0 (frame (0, [2; 7; 0; 10; 1] ++ octets_of "alice")); OpStep;
   OpReceive true 0 (frame (0, [2; 8; 0; 22; 4; 16; 8] ++ octets_of "secret" ++ seqZ 2 9));
   OpStep].
Abbreviation ap_run :=
  (station_run Ap.registered Ap.cfg (λ _, true) (λ _, 7) 10 Ap.alive Ap.reaction Ap.bss false
    (mk_ctx (conf Ap.ctx) (ieee802_1x_get_eap_user Ap.bss (0, 0) (λ _, true)) 0 false)
    Ap.new_sta false ap_ops).

Lemma ap_ops_ok : Forall op_ok ap_ops.
Proof.
  unfold ap_ops. repeat (apply Forall_cons; split; [try exact I|]); [..|by apply Forall_nil];
    by apply (bool_decide_unpack _); vm_compute.
Qed.

Lemma ap_run_authenticates :
  match ap_run with
  | Some (Ret (sta, false)) =>
      match eapol_sm sta with
      | Some sm => bool_decide (auth_pae_state sm = AUTH_PAE_AUTHENTICATED)
      | None => false
      end
  | _ => false
  end = true.
Proof. by vm_compute. Qed.

Lemma ap_authenticated :
  ∃ sta sm, ap_run = Some (Ret (sta, false)) ∧ eapol_sm sta = Some sm ∧
            auth_pae_state sm = AUTH_PAE_AUTHENTICATED.
Proof.
  pose proof ap_run_authenticates as H.
  destruct ap_run as [[[sta [|]]| |]|]; try discriminate.
  destruct (eapol_sm sta) as [sm|] eqn:E; [|discriminate].
  exists sta, sm. by apply bool_decide_eq_true_1 in H.
Qed.

Lemma ap_text_ok t : eap_req_id_text (conf Ap.ctx) = Some t → blen t ≤ 65523.
Proof. intros [= <-]. by vm_compute. Qed.

Lemma station_runs_stay_well_formed_witness :
  ∃ sta cached, ap_run = Some (Ret (sta, cached)) ∧
    ∀ sm, eapol_sm sta = Some sm →
      @eap_ok _ _ _ _ no_pending false Ap.registered Ap.cfg (λ _, True) (eap sm).
Proof.
  apply (@station_runs_stay_well_formed _ no_pending false Ap.registered Ap.cfg (λ _, True)
    (λ _, true) (λ _, 7) 10 Ap.alive Ap.reaction Ap.bss false (0, 0) (λ _, true) (conf Ap.ctx)
    Ap.new_sta ap_ops ap_methods_ok ap_identity_ok);
    [reflexivity|lia|simpl; lia|simpl; lia|exact ap_db_ok|reflexivity|exact ap_text_ok
    |reflexivity|exact ap_ops_ok].
Defined.

Lemma authenticated_stations_passed_a_method_witness :
  ∃ sta sm, ap_run = Some (Ret (sta, false)) ∧ eapol_sm sta = Some sm ∧
            eapSuccess (sm_if sm) = true ∧ method_succeeded (eap sm).
Proof.
  destruct ap_authenticated as (sta & sm & Hrun & Esm & Hst). exists sta, sm.
  split; [exact Hrun|]. split; [exact Esm|].
  apply (@authenticated_stations_passed_a_method _ no_pending Ap.registered Ap.cfg (λ _, True)
    (λ _, true) (λ _, 7) 10 Ap.alive Ap.reaction Ap.bss false (0, 0) (λ _, true) (conf Ap.ctx)
    Ap.new_sta sta ap_ops sm ap_methods_ok ap_identity_ok);
    [reflexivity|lia|simpl; lia|simpl; lia|exact ap_db_ok|reflexivity|exact ap_text_ok
    |reflexivity|exact ap_ops_ok|exact Hrun|exact Esm|exact Hst].
Defined.

(** The machine of a new station whose port was enabled. *)
Definition ap_server : eap_sm auth_ctx method_data :=
  (eap_server_sm_init Ap.ctx 2) <| eap_if ::= λ i, i <| portEnabled := true |> |>.

Lemma ap_server_ok :
  @eap_ok _ _ _ _ no_pending false Ap.registered Ap.cfg (λ _, True) ap_server.
Proof.
  pose proof (@init_fine _ _ _ _ no_pending false Ap.registered Ap.cfg (λ _, True) Ap.ctx 2
    (bss_ctx_ok Ap.bss (0, 0) (λ _, true) (conf Ap.ctx) 0 false ap_db_ok eq_refl ap_text_ok)) as Hf.
  refine (proj1 (lower_fine _ _ _ _ _ _ _ _ _ _ Hf));
    [exact I|reflexivity|split; exact I|reflexivity..].
Qed.

Lemma eap_server_sm_step_returns_witness :
  ∃ res sm', eap_server_sm_step Ap.registered Ap.cfg (λ _, true) (λ _, 7) 10 ap_server =
               Some (Ret (res, sm')) ∧
    @eap_ok _ _ _ _ no_pending false Ap.registered Ap.cfg (λ _, True) sm' ∧
    stays ap_server sm' ∧ settled Ap.cfg sm'.
Proof.
  apply (@eap_server_sm_step_returns _ _ _ _ no_pending false Ap.registered Ap.cfg (λ _, true)
    (λ _, 7) 10 (λ _, True) ap_server ap_methods_ok ap_identity_ok);
    [reflexivity|lia|simpl; lia|simpl; lia|exact ap_server_ok].
Defined.
